(* ===== verification/_CoqProject ===== *)
-Q . S2P
Prelude.v
Types.v
Queue.v
Delta.v
Heap.v
ByteMem.v
Words.v
NetTypes.v
DevTypes.v
Kernel.v
KInv.v
Sched.v
Semaphore.v
Clock.v
Message.v
Device.v
Process.v
UserMem.v
World.v
Sysinit.v
BufPool.v
Ports.v
Packet.v
NetMem.v
NetFmt.v
Eth.v
Arp.v
NetEth.v
Udp.v
Ip.v
Net.v
NetWire.v
NetIp.v
NetPath.v
Tty.v
Ring.v
NetArp.v
NetIcmp.v
NetUdp.v
CString.v
Qsort.v
Printf.v
PrintfSpec.v
Dotted.v
Shell.v
ShellLex.v
LfsDisk.v
Lfs.v
Lfl.v
LfsRun.v
LfsRep.v
LfsMk.v
LfsSetup.v
LfsName.v
LfsPos.v
LfsFile.v
LfsFull.v
LfsOpen.v
LfsTrunc.v
Conf.v
TtyIn.v
TtyOut.v
TtyUp.v
Demo.v
SystemThms.v
SyncThms.v
MemThms.v
LibThms.v
ShellThms.v
TtyThms.v
LfsDemo.v
LfsThms.v
NetDemo.v
NetThms.v
