(* ===== verification/Prelude.v ===== *)
(** * Verification of the Xinu kernel for the BeagleBone Black

    Xinu is a small operating system: priority scheduling, counting semaphores,
    one-word messages and ports, sleeping processes, a heap and buffer pools, a
    device switch with its drivers, and a C library.  This development translates
    the kernel's C code (src/system, src/include), its terminal driver
    (src/device/tty), its RAM disk and local file system (src/device/ram,
    src/device/lfs), its Ethernet driver and protocol code (src/device/eth,
    src/net), the string routines, sorting and formatted output of the library
    (src/lib) and the lexical scanner of the shell (src/shell) into functions that
    can be evaluated, and proves what they do.

    ** The model of C

    - An integer is a [Z]; where the code can leave the range of its type the
      result is reduced by [u8], [u16], [u32], [s16], [s32] of this file.
      Counters that C would overflow with undefined behaviour (signed ones) carry
      a hypothesis, the bound that keeps them in range.  [char] is unsigned.
    - The global and static variables are the fields of one record, [kst]
      (Kernel.v); those of the drivers are the fields of [devstate] (DevTypes.v).
      A table is a [gmap] from its indices: an access at another index is a fault.
    - Memory is a map from word addresses to 32-bit words (Heap.v); the bytes of
      a word are in little-endian order (ByteMem.v).  Only mapped words can be
      read and written.  The string library (CString.v) uses a map from addresses
      to bytes.  The structures that the file system keeps on the disk are the
      bytes they consist of there (Words.v, LfsDisk.v).
    - A kernel function is a computation [M A] (Kernel.v): run in a state it is
      [Done a s]; or [Switch s k], it has called ctxsw and stops until its
      process is dispatched again, when it continues as [k] in the state of that
      time; or [Halt s], it stopped the processor (panic); or [Fault], it did
      something that C leaves undefined or that is outside the tables and memory.
    - Kernel functions run with interrupts masked ([intr]); an interrupt is a
      step of its own between two instructions of a process outside the kernel.

    ** The files, in order of dependence

    Foundations
    - Prelude.v: machine integers, tactics, lists.  Types.v: the constants and
      structures of kernel.h, conf.h, process.h, queue.h, semaphore.h, resched.h.
    - Queue.v: the queue table (queue.c, getitem.c, insert.c, insertd.c,
      newqueue.c, queue.h).  [is_queue] says which list of processes a queue is.
      Delta.v: the sleep queue as a list of processes with the ticks that are
      left until each wakes ([alarms]).
    - Heap.v: meminit.c, getmem.c, getstk.c, freemem.c over the free list in
      memory; [heap_ok h l] says that [l] is the list of free blocks, sorted,
      apart from one another, and inside the heap.
    - ByteMem.v, Words.v: bytes of words and words in lists of bytes.
    - DevTypes.v: tty.h, uart.h, ramdisk.h, lfilesys.h.  NetTypes.v: arp.h, udp.h,
      icmp.h, ip.h, net.h, ether.h.

    The kernel
    - Kernel.v: the state and the monad.  KInv.v: the kernel's invariant [Inv]
      (every process is in exactly the queue that its state calls for, a
      semaphore's count and its queue agree, the sleep queue's keys, the free
      list) and the program logic [wp] for code that may be switched away from:
      other processes run in between, and only [Inv] is kept by them.
    - Sched.v: resched.c, ready.c, resume.c, suspend.c, chprio.c, yield.c ...
      Semaphore.v: wait.c, signal.c, signaln.c, semcreate.c, semdelete.c,
      semreset.c, semcount.c.  Clock.v: sleep.c, unsleep.c, wakeup.c,
      clkhandler.c, irq_dispatch of evec.c.  Message.v: send.c, receive.c,
      recvclr.c, recvtime.c.  Process.v: create.c, kill.c, exit.c, userret.c.
    - Device.v: the device switch (open.c, read.c, ... and the table devtab).
      The table is a parameter, the class [Platform]; a driver's function that
      keeps the kernel's contract satisfies [driver_ok].  UserMem.v: the buffer
      of a caller of the drivers.
    - BufPool.v: mkbufpool.c, getbuf.c, freebuf.c.  Ports.v: pt*.c.
    - World.v: the running system as a step relation between worlds: a system
      call of the current process, an interrupt when they are enabled, or the
      continuation of a call that was switched away from.  A process that is
      dispatched for the first time starts with the status word that create put
      on its stack, which enables interrupts.
    - Sysinit.v: sysinit and nulluser of initialize.c, with what they call, and
      [boot], the world in which the null process has enabled interrupts.

    The drivers
    - Tty.v: device/tty, both halves of the driver.  Ring.v: its circular buffers
      as lists.  TtyIn.v, TtyOut.v, TtyUp.v: the interrupt's input part, its
      output part, and the calls of processes.
    - LfsDisk.v: device/ram and the structures on the disk.  Lfs.v, Lfl.v:
      device/lfs.  LfsRun.v: running code that changes only the drivers'
      variables.  LfsRep.v: [fs_rep] and [lists_ok]: each file is a
      list of bytes spread over its blocks, and every other block is on one of the
      two free lists.  LfsMk.v (lfscreate, lfsckfmt), LfsName.v (names and modes),
      LfsSetup.v and LfsPos.v (lfsetup, block by block), LfsFile.v (getc, putc,
      seek, read, write), LfsFull.v (a full disk), LfsOpen.v (open, close),
      LfsTrunc.v (truncation).

    - Conf.v: the column of the init functions of devtab (config/conf.c), and what
      sysinit's loop over the devices leaves: their control blocks and semaphores.
      The init functions of the drivers that are not modelled are a parameter
      with the contract [other_ok].

    The network
    - Packet.v: the fields of a packet in memory, byte order, checksums.  Eth.v:
      the driver of the Ethernet controller over its two rings of descriptors;
      the controller itself only clears the flag OWN and moves the heads of its
      queues on.  Arp.v, Udp.v, Ip.v (with the part of icmp.c that delivers and
      makes messages), Net.v: arp.c, udp.c, icmp.c, ip.c, net.c.  A pass of the
      loops of the processes netin and ipout is a function.
    - NetMem.v: [net_mem], the pool of network buffers with the list of the free
      ones, and [pkt_state], one buffer in use with the bytes of its packet;
      [pruns] is code that works on the packet of one buffer and leaves the rest.
      NetFmt.v: conversions and checksums.  NetEth.v: [tx_queue], the frames that
      wait for the controller, in places that follow one another round the ring.
      NetWire.v: [wire], the frame of a packet, and its inverse.  NetIp.v (ip_out,
      ip_in), NetPath.v (from the sender's buffer to the receiver's), NetArp.v
      (the cache, arp_resolve, arp_in with the message to a process that waits for
      an address, ip_send), NetIcmp.v and NetUdp.v (the
      queues of the endpoints).

    The library
    - CString.v: strlen.c, strcmp.c, strncpy.c, strstr.c, memcpy.c, atoi.c, ...,
      and system/getdev.c, which uses them.
    - Qsort.v: qsort.c over an array of records, with the order of the caller as
      the class [Comparison].
    - Printf.v: fdoprnt.c and sprintf.c.  PrintfSpec.v: formats as lists of
      [piece]s, the numerals of each base, and the text that a format stands for.
      Dotted.v: net/dot2ip.c, which reads the addresses that are printed.

    The shell
    - Shell.v: lexan.c, with its three arrays.  ShellLex.v: the grammar of a
      command line, [lexes], and lexan as its scanner.

    The theorems: SystemThms.v, SyncThms.v, MemThms.v, LibThms.v, ShellThms.v,
    TtyThms.v, LfsThms.v, NetThms.v.  Demo.v, LfsDemo.v and NetDemo.v hold the concrete states
    at which they are evaluated: a kernel that sysinit started on a small memory, a
    file system that lfscreate made on it, and a machine with a packet in a buffer.

    ** What is shown

    - The system (SystemThms.v): sysinit, with its loop over all devices, returns
      with the invariant and with the drivers' control blocks and semaphores in
      their initial state; and every world reached from there, once nulluser has
      enabled interrupts, by system calls, interrupts and context switches
      satisfies the invariant: no such run faults, outside the kernel interrupts
      are enabled, the ready list is in order and each process in its queue, and
      each semaphore's count is the number of permits or of waiting processes.
      The drivers enter as the hypotheses that the init functions outside Conf.v
      are [other_ok], the close functions [driver_ok] and the interrupt
      handlers [handler_ok]; the unused entries of devtab and clkhandler
      satisfy them.
    - The calls (SyncThms.v): which process resched selects and that deferral
      postpones it; each call of the semaphores, of the clock, of messages and of
      process creation on all its branches, the errors included.
    - Memory (MemThms.v): the queue operations refine lists; getmem is first fit,
      getstk last fit, freemem joins neighbours and undoes getmem; buffer pools
      give back what they were given; a port is a first-in first-out queue.
    - The terminal (TtyThms.v): the input interrupt refines line editing on lists
      of characters; ttyread returns a line; characters leave in the order of the
      calls, with the echo first, and each newline as carriage return and newline.
    - The file system (LfsThms.v): reading and writing refine operations on a
      sequence of bytes and a position; lfscreate makes an empty file system and
      lfsopen mounts it; open, close and truncate keep the invariant and what they
      do to the directory and to the free lists; truncation terminates; a full
      disk stops the kernel; the structures on the disk survive encoding and
      decoding.
    - The network (NetThms.v): the frame that ip_out hands to the driver is turned
      back into the packet by the receiver's netin, and delivered when it is for
      that machine; the checksums against RFC 1071; where ip_send sends a packet,
      and its errors; arp_in keeps one entry per address, learns the sender's,
      tells the process that waits for it and answers; udp_in and udp_recv are the two ends of a first-in first-out queue;
      the queue of an ICMP endpoint is read past its end.
    - The library (LibThms.v): strcmp and strncmp decide lexicographic order;
      strchr, strrchr and strstr find the first (last) occurrence; qsort permutes
      the records of the array into order, with a recursion whose depth is
      logarithmic; sprintf writes the text of a format, and nothing else, and what
      it prints with %d is read back by atoi (an address by dot2ip).
    - The shell (ShellThms.v): lexan finds the tokens of a line that the grammar
      gives, with their types and places, or reports an error when there are too
      many or a quotation is not closed.
    - Where the code does not do what its comments or its callers expect, the
      theorem states what it does (recvtime_zero_sleeps, tty_eof_overflow,
      lfs_full, icmp_queue_overrun, ip_send_call, checksum_rfc1071;
      getdev_first_different, getmem_wraps; sprintf_int_min,
      sprintf_binary_overflow, lexan_blank_at_limit; dot2ip_no_dots).

    ** Fuel

    Loops that are not structural take fuel, and a loop that runs out of it is a
    fault or an error that the theorems exclude: they state that the result is
    there, under the invariants.
    - [scan_fuel] (the number of queue entries) and [queue_fuel] (NPROC + 1) bound
      the walks over a queue: [is_queue] has no entry twice.
    - [walk_fuel] (the number of words, plus 1) bounds the walks over the free
      list, whose blocks do not overlap.
    - [str_fuel] (the number of mapped bytes, plus 1): a string loop leaves the
      mapped memory before it has made that many steps, which is a fault in any
      case; so the fuel is never the reason for one.
    - Qsort's loops take the number of bytes of the part that they sort, which
      shrinks in each round; the depth of its recursion is an argument, and
      qsort_sorts says how much is enough.
    - The input interrupt's loop takes the characters that have arrived.
    - [chain_fuel] (the size of the ring, plus 1) bounds the walk over the queue of
      descriptors, which has no descriptor twice; ethhandler's loops add 1 to a
      count that is below the size of the ring; udp_release and icmp_release pass
      once for each packet that is counted.
    - lfsetup passes at most position / 8192 index blocks; lftruncate, lfsckfmt
      visit blocks of the disk, of which there are RM_BLKS with at most 7 index
      blocks each; lfgetmode reads at most three characters that are valid.

    ** What is not modelled, and why

    - ctxsw.S, intr.S and the set-up of the interrupt controller, the timer and
      the exception vectors: assembly and hardware registers.  Their effect on the
      kernel (suspension, masking, dispatch) is part of the model.
    - net_init and startup, which nulluser calls and creates after it has enabled
      interrupts (in the model these are calls of processes like any other), the
      idle loop of nulluser, and what the kernel prints.
    - The memory-marking functions (mark.c), which nothing calls.
    - The set-up of the Ethernet controller and its PHY (ethinit.c), the drivers of
      GPIO, SPI, the remote disk and the remote file system, and the name space:
      hardware registers or messages to a server; they appear as entries of the
      table devtab.
    - The clients of UDP (dhcp.c, dns.c, tftp.c), the functions that print packets,
      the loop of the shell and its commands, the formatted output of doprnt.c and
      the conversion %f, the formatted input (doscan.c), and the random numbers.
    - A network buffer that is handed from one process to another is in use in
      between: the theorems on packets follow one buffer through one call.
    - The configuration tool and the boot utilities, programs of the host, and the
      cross compiler's headers and libraries, which are not part of the system. *)

From stdpp Require Export base numbers option list gmap vector.
From Stdlib Require Export ZArith Lia Sorting.Sorted.
#[global] Open Scope Z_scope.

(** ** Machine integers

    A C integer of width [w] is a [Z]; [u8], [u16], [u32] reduce a result
    to the unsigned range, [s16] and [s32] to the two's complement range. *)

Definition u8 (x : Z) : Z := x mod 256.
Definition u16 (x : Z) : Z := x mod 65536.
Definition u32 (x : Z) : Z := x mod 4294967296.
Definition s16 (x : Z) : Z := (x + 32768) mod 65536 - 32768.
Definition s32 (x : Z) : Z := (x + 2147483648) mod 4294967296 - 2147483648.

Definition INT_MAX : Z := 2147483647.
Definition INT_MIN : Z := -2147483648.

Lemma u32_id x : 0 ≤ x < 4294967296 → u32 x = x.
Proof. apply Z.mod_small. Qed.

Lemma u32_range x : 0 ≤ u32 x < 4294967296.
Proof. by apply Z.mod_pos_bound. Qed.

Lemma u32_neg1 : u32 (-1) = 4294967295.
Proof. reflexivity. Qed.

Lemma u16_id x : 0 ≤ x < 65536 → u16 x = x.
Proof. apply Z.mod_small. Qed.

Lemma u8_id x : 0 ≤ x < 256 → u8 x = x.
Proof. apply Z.mod_small. Qed.

Lemma u8_range x : 0 ≤ u8 x < 256.
Proof. by apply Z.mod_pos_bound. Qed.

Lemma s32_id x : -2147483648 ≤ x < 2147483648 → s32 x = x.
Proof. intros. unfold s32. rewrite Z.mod_small; lia. Qed.

Lemma s32_range x : -2147483648 ≤ s32 x < 2147483648.
Proof.
  unfold s32. pose proof (Z.mod_pos_bound (x + 2147483648) 4294967296). lia.
Qed.

Lemma s16_id x : -32768 ≤ x < 32768 → s16 x = x.
Proof. intros. unfold s16. rewrite Z.mod_small; lia. Qed.

Lemma s16_range x : -32768 ≤ s16 x < 32768.
Proof. unfold s16. pose proof (Z.mod_pos_bound (x + 32768) 65536). lia. Qed.

#[global] Arguments u8 : simpl never.
#[global] Arguments u16 : simpl never.
#[global] Arguments u32 : simpl never.
#[global] Arguments s16 : simpl never.
#[global] Arguments s32 : simpl never.

(** A block address is a word address, and so is the one after it. *)
Lemma mod8_mod4 a : a mod 8 = 0 → a mod 4 = 0 ∧ (a + 4) mod 4 = 0.
Proof. intros. Z.to_euclidean_division_equations; lia. Qed.

Create HintDb xinu.
Lemma lor_low a b n : 0 ≤ n → 0 ≤ a < 2 ^ n → Z.lor a (b * 2 ^ n) = a + b * 2 ^ n.
Proof.
  intros Hn Ha. rewrite <-Z.add_lor_land. enough (Z.land a (b * 2 ^ n) = 0) by lia.
  apply Z.bits_inj'. intros i Hi. rewrite Z.land_spec, Z.bits_0. destruct (Z.lt_ge_cases i n).
  - by rewrite Z.mul_pow2_bits_low, andb_false_r by lia.
  - rewrite <-(Z.mod_small a (2 ^ n)) by lia. by rewrite Z.mod_pow2_bits_high by lia.
Qed.

#[export] Hint Resolve u32_range s32_range u8_range s16_range : xinu.

(** ** Tables

    A C array of [n] entries is a [gmap Z V] whose keys are [0 .. n-1]; an
    access outside these keys finds nothing, which the operations report as
    a fault (the C program's behaviour is undefined there). *)

Definition table {V : Type} (n : Z) (v : Z → V) : gmap Z V :=
  list_to_map ((λ i, (i, v i)) <$> seqZ 0 n).

(** [m] is an array of [n] entries. *)
Definition is_table {V : Type} (n : Z) (m : gmap Z V) : Prop :=
  ∀ i, is_Some (m !! i) ↔ 0 ≤ i < n.

Lemma table_lookup {V} n (v : Z → V) i :
  0 ≤ i < n → table n v !! i = Some (v i).
Proof.
  intros Hi. apply elem_of_list_to_map_1.
  - rewrite <- list_fmap_compose. cbn.
    rewrite (list_fmap_ext _ id), list_fmap_id; [apply NoDup_seqZ|done].
  - apply list_elem_of_fmap. exists i. split; [done|]. by apply elem_of_seqZ.
Qed.

Lemma table_lookup_None {V} n (v : Z → V) i :
  ¬ (0 ≤ i < n) → table n v !! i = None.
Proof.
  intros Hi. apply not_elem_of_list_to_map_1.
  rewrite <- list_fmap_compose. intros Hin.
  apply list_elem_of_fmap in Hin as (x & -> & Hx%elem_of_seqZ). cbn in Hi. lia.
Qed.

Lemma is_table_table {V} n (v : Z → V) : is_table n (table n v).
Proof.
  intros i. destruct (decide (0 ≤ i < n)) as [H|H].
  - rewrite table_lookup by done. naive_solver.
  - rewrite table_lookup_None by done.
    split; [by intros [? ?]|naive_solver].
Qed.

Lemma is_table_insert {V} n (m : gmap Z V) i v :
  is_table n m → 0 ≤ i < n → is_table n (<[i:=v]> m).
Proof.
  intros Hm Hi j. rewrite lookup_insert. case_decide; subst; [|apply Hm].
  split; [done|]. by eexists.
Qed.

Lemma is_table_get {V} n (m : gmap Z V) i :
  is_table n m → 0 ≤ i < n → ∃ v, m !! i = Some v.
Proof. intros Hm Hi. by apply Hm. Qed.

Lemma is_table_bound {V} n (m : gmap Z V) i v :
  is_table n m → m !! i = Some v → 0 ≤ i < n.
Proof. intros Hm Hi. apply Hm. by eexists. Qed.

#[export] Hint Resolve is_table_insert is_table_table : xinu.

(** ** Lists *)

Lemma NoDup_app_swap_mid {A} (l1 l2 : list A) x :
  NoDup (l1 ++ x :: l2) ↔ (x ∉ l1 ++ l2) ∧ NoDup (l1 ++ l2).
Proof. rewrite <- (Permutation_middle l1 l2 x). apply NoDup_cons. Qed.

(** A list of distinct table indices is no longer than the table. *)
Lemma NoDup_bounded_length (l : list Z) (n : Z) :
  NoDup l → Forall (λ x, 0 ≤ x < n) l → Z.of_nat (length l) ≤ Z.max 0 n.
Proof.
  intros Hnd Hb.
  assert (length l ≤ length (seqZ 0 n))%nat as Hle.
  { apply submseteq_length, NoDup_submseteq; [done|].
    intros x Hx. apply elem_of_seqZ. rewrite Forall_forall in Hb.
    apply Hb in Hx. lia. }
  rewrite length_seqZ in Hle. lia.
Qed.

(** The C condition [x != x]. *)
Lemma neq_refl_false (x : Z) : bool_decide (x ≠ x) = false.
Proof. apply bool_decide_eq_false_2. by intros []. Qed.

(** ** Automation *)

(** Split the conditions of C guards in the goal and the context. *)
Ltac bools :=
  repeat match goal with
  | H : context [orb _ _ = true] |- _ => rewrite orb_true_iff in H
  | H : context [orb _ _ = false] |- _ => rewrite orb_false_iff in H
  | H : context [andb _ _ = true] |- _ => rewrite andb_true_iff in H
  | H : context [negb _ = true] |- _ => rewrite negb_true_iff in H
  | H : context [negb _ = false] |- _ => rewrite negb_false_iff in H
  | H : bool_decide _ = true |- _ => apply bool_decide_eq_true in H
  | H : bool_decide _ = false |- _ => apply bool_decide_eq_false in H
  | H : _ ∧ _ |- _ => destruct H
  end.
