(* ===== verification/Types.v ===== *)
(** Constants and data structures of the kernel headers (include/kernel.h,
    conf.h, process.h, queue.h, semaphore.h, resched.h). *)

From S2P Require Import Prelude.

(** ** kernel.h: return codes *)
Definition OK : Z := 1.
Definition SYSERR : Z := -1.
Definition EOF : Z := -2.
Definition TIMEOUT : Z := -3.
Definition MINSTK : Z := 400.
Definition QUANTUM : Z := 2.
Definition NULLSTK : Z := 8192.

(** ** conf.h *)
Definition NPROC : Z := 100.
Definition NSEM : Z := 100.
Definition CONSOLE : Z := 0.
Definition NDEVS : Z := 30.

(** ** queue.h *)
Definition NQENT : Z := NPROC + 4 + NSEM + NSEM.
Definition EMPTY : Z := -1.
Definition MAXKEY : Z := 2147483647.
Definition MINKEY : Z := s32 2147483648.

Record qentry := QE { qkey : Z; qnext : Z; qprev : Z }.

Definition set_qkey (v : Z) (e : qentry) : qentry := QE v (qnext e) (qprev e).
Definition set_qnext (v : Z) (e : qentry) : qentry := QE (qkey e) v (qprev e).
Definition set_qprev (v : Z) (e : qentry) : qentry := QE (qkey e) (qnext e) v.

Definition isbadqid (x : Z) : bool := bool_decide (x < NPROC) || bool_decide (NQENT - 1 ≤ x).
Definition queuehead (q : Z) : Z := q.
Definition queuetail (q : Z) : Z := q + 1.

(** ** process.h *)
Definition PNMLEN : Z := 16.
Definition NULLPROC : Z := 0.
Definition INITSTK : Z := 65536.
Definition INITPRIO : Z := 20.
Definition NDESC : Z := 5. (* the length of [prdesc] below *)
Definition STACKMAGIC : Z := 168471209.

Inductive pstate :=
  | PR_FREE | PR_CURR | PR_READY | PR_RECV | PR_SLEEP | PR_SUSP | PR_WAIT | PR_RECTIM.

#[export] Instance pstate_eq_dec : EqDecision pstate.
Proof. solve_decision. Defined.

Record procent := Procent {
  prstate : pstate;
  prprio : Z;
  prstkptr : Z;
  prstkbase : Z;
  prstklen : Z;
  prname : list Z;
  prsem : Z;
  prparent : Z;
  prmsg : Z;
  prhasmsg : bool;
  prdesc : vec Z 5 }.

Definition set_prstate v p := Procent v (prprio p) (prstkptr p) (prstkbase p) (prstklen p)
  (prname p) (prsem p) (prparent p) (prmsg p) (prhasmsg p) (prdesc p).
Definition set_prprio v p := Procent (prstate p) v (prstkptr p) (prstkbase p) (prstklen p)
  (prname p) (prsem p) (prparent p) (prmsg p) (prhasmsg p) (prdesc p).
Definition set_prstkptr v p := Procent (prstate p) (prprio p) v (prstkbase p) (prstklen p)
  (prname p) (prsem p) (prparent p) (prmsg p) (prhasmsg p) (prdesc p).
Definition set_prsem v p := Procent (prstate p) (prprio p) (prstkptr p) (prstkbase p) (prstklen p)
  (prname p) v (prparent p) (prmsg p) (prhasmsg p) (prdesc p).
Definition set_prmsg v p := Procent (prstate p) (prprio p) (prstkptr p) (prstkbase p) (prstklen p)
  (prname p) (prsem p) (prparent p) v (prhasmsg p) (prdesc p).
Definition set_prhasmsg v p := Procent (prstate p) (prprio p) (prstkptr p) (prstkbase p)
  (prstklen p) (prname p) (prsem p) (prparent p) (prmsg p) v (prdesc p).

Definition isbadpid (pt : gmap Z procent) (x : Z) : bool :=
  bool_decide (x < 0) || bool_decide (NPROC ≤ x) ||
  match pt !! x with
  | Some p => bool_decide (prstate p = PR_FREE)
  | None => true
  end.

(** ** semaphore.h *)
Inductive sstate_t := S_FREE | S_USED.

#[export] Instance sstate_eq_dec : EqDecision sstate_t.
Proof. solve_decision. Defined.

Record sentry := Sentry { sstate : sstate_t; scount : Z; squeue : Z }.

Definition set_sstate v e := Sentry v (scount e) (squeue e).
Definition set_scount v e := Sentry (sstate e) v (squeue e).

Definition isbadsem (s : Z) : bool := bool_decide (s < 0) || bool_decide (NSEM ≤ s).

(** ** resched.h *)
Definition DEFER_START : Z := 1.
Definition DEFER_STOP : Z := 2.

Record defer := Defer_ { ndefers : Z; attempt : bool }.

(** [lia] with the configuration constants unfolded. *)
Ltac clia :=
  first [ lia
        | unfold NQENT, NPROC, NSEM, NULLPROC, CONSOLE, NDEVS, EMPTY, SYSERR, OK,
            queuetail, queuehead, MAXKEY in *; lia ].
