(* ===== verification/Queue.v ===== *)
(** Process queues: system/queue.c, getitem.c, insert.c, insertd.c, newqueue.c
    and the inline functions of include/queue.h.

    [queuetab] is a [gmap] from index to [qentry]; an operation returns [None]
    where the C code would touch an entry outside the table.  The abstract view
    of a queue is the list of its process ids, [is_queue]. *)

From S2P Require Import Prelude Types.

(** ** Accesses to queuetab *)

(** [queuetab[i].f = v] *)
Definition q_upd (f : qentry → qentry) (i : Z) (t : gmap Z qentry) : option (gmap Z qentry) :=
  e ← t !! i; Some (<[i := f e]> t).

Definition firstid (q : Z) (t : gmap Z qentry) : option Z := qnext <$> t !! queuehead q.
Definition lastid (q : Z) (t : gmap Z qentry) : option Z := qprev <$> t !! queuetail q.
Definition isempty (q : Z) (t : gmap Z qentry) : option bool :=
  f ← firstid q t; Some (bool_decide (NPROC ≤ f)).
Definition nonempty (q : Z) (t : gmap Z qentry) : option bool :=
  f ← firstid q t; Some (bool_decide (f < NPROC)).
Definition firstkey (q : Z) (t : gmap Z qentry) : option Z :=
  f ← firstid q t; qkey <$> t !! f.
Definition lastkey (q : Z) (t : gmap Z qentry) : option Z :=
  f ← lastid q t; qkey <$> t !! f.

(** ** getitem.c *)

Definition getitem (pid : Z) (t : gmap Z qentry) : option (Z * gmap Z qentry) :=
  next ← qnext <$> t !! pid;
  prev ← qprev <$> t !! pid;
  t ← q_upd (set_qnext next) prev t;
  t ← q_upd (set_qprev prev) next t;
  Some (pid, t).

Definition getfirst (q : Z) (t : gmap Z qentry) : option (Z * gmap Z qentry) :=
  e ← isempty q t;
  if e : bool then Some (EMPTY, t)
  else
    f ← qnext <$> t !! queuehead q;
    getitem f t.

Definition getlast (q : Z) (t : gmap Z qentry) : option (Z * gmap Z qentry) :=
  e ← isempty q t;
  if e : bool then Some (EMPTY, t)
  else
    l ← qprev <$> t !! queuetail q;
    getitem l t.

(** ** queue.c *)

Definition enqueue (pt : gmap Z procent) (pid q : Z) (t : gmap Z qentry) :
    option (Z * gmap Z qentry) :=
  if isbadqid q || isbadpid pt pid then Some (SYSERR, t)
  else
    let tail := queuetail q in
    prev ← qprev <$> t !! tail;
    t ← q_upd (set_qnext tail) pid t;
    t ← q_upd (set_qprev prev) pid t;
    t ← q_upd (set_qnext pid) prev t;
    t ← q_upd (set_qprev pid) tail t;
    Some (pid, t).

Definition dequeue (q : Z) (t : gmap Z qentry) : option (Z * gmap Z qentry) :=
  if isbadqid q then Some (SYSERR, t)
  else
    e ← isempty q t;
    if e : bool then Some (EMPTY, t)
    else
      '(pid, t) ← getfirst q t;
      t ← q_upd (set_qprev EMPTY) pid t;
      t ← q_upd (set_qnext EMPTY) pid t;
      Some (pid, t).

(** ** insert.c *)

(** The loop [while (queuetab[curr].qkey >= key) curr = queuetab[curr].qnext]. *)
Fixpoint insert_scan (fuel : nat) (curr key : Z) (t : gmap Z qentry) : option Z :=
  match fuel with
  | O => None
  | S fuel =>
    e ← t !! curr;
    if bool_decide (key ≤ qkey e) then insert_scan fuel (qnext e) key t
    else Some curr
  end.

(** A scan visits an entry of the table at most once. *)
Definition scan_fuel : nat := Z.to_nat NQENT.

Definition insert (pt : gmap Z procent) (pid q key : Z) (t : gmap Z qentry) :
    option (Z * gmap Z qentry) :=
  if isbadqid q || isbadpid pt pid then Some (SYSERR, t)
  else
    first ← firstid q t;
    curr ← insert_scan scan_fuel first key t;
    prev ← qprev <$> t !! curr;
    t ← q_upd (set_qnext curr) pid t;
    t ← q_upd (set_qprev prev) pid t;
    t ← q_upd (set_qkey key) pid t;
    t ← q_upd (set_qnext pid) prev t;
    t ← q_upd (set_qprev pid) curr t;
    Some (OK, t).

(** ** insertd.c *)

(** The loop that subtracts the deltas of the nodes it passes; it returns
    [(prev, next, key)]. *)
Fixpoint insertd_scan (fuel : nat) (q prev next key : Z) (t : gmap Z qentry) :
    option (Z * Z * Z) :=
  match fuel with
  | O => None
  | S fuel =>
    if bool_decide (next = queuetail q) then Some (prev, next, key)
    else
      e ← t !! next;
      if bool_decide (qkey e ≤ key)
      then insertd_scan fuel q next (qnext e) (s32 (key - qkey e)) t
      else Some (prev, next, key)
  end.

Definition insertd (pt : gmap Z procent) (pid q key : Z) (t : gmap Z qentry) :
    option (Z * gmap Z qentry) :=
  if isbadqid q || isbadpid pt pid then Some (SYSERR, t)
  else
    first ← qnext <$> t !! queuehead q;
    '(prev, next, key) ← insertd_scan scan_fuel q (queuehead q) first key t;
    t ← q_upd (set_qnext next) pid t;
    t ← q_upd (set_qprev prev) pid t;
    t ← q_upd (set_qkey key) pid t;
    t ← q_upd (set_qnext pid) prev t;
    t ← q_upd (set_qprev pid) next t;
    if bool_decide (next ≠ queuetail q) then
      e ← t !! next;
      t ← q_upd (set_qkey (s32 (qkey e - key))) next t;
      Some (OK, t)
    else Some (OK, t).

(** ** newqueue.c *)

(** The static [nextqid] is passed and returned. *)
Definition newqueue (nextqid : Z) (t : gmap Z qentry) : option (Z * Z * gmap Z qentry) :=
  let q := nextqid in
  if bool_decide (NQENT ≤ q) then Some (SYSERR, nextqid, t)
  else
    let nextqid := s16 (nextqid + 2) in
    t ← q_upd (set_qnext (queuetail q)) (queuehead q) t;
    t ← q_upd (set_qprev EMPTY) (queuehead q) t;
    t ← q_upd (set_qkey MAXKEY) (queuehead q) t;
    t ← q_upd (set_qnext EMPTY) (queuetail q) t;
    t ← q_upd (set_qprev (queuehead q)) (queuetail q) t;
    t ← q_upd (set_qkey MINKEY) (queuetail q) t;
    Some (q, nextqid, t).

(** Loops that empty a queue: it holds each process at most once. *)
Definition queue_fuel : nat := S (Z.to_nat NPROC).

(** * The abstract view *)

Definition nx (t : gmap Z qentry) (i : Z) : option Z := qnext <$> t !! i.
Definition pv (t : gmap Z qentry) (i : Z) : option Z := qprev <$> t !! i.
Definition ky (t : gmap Z qentry) (i : Z) : option Z := qkey <$> t !! i.

(** Consecutive nodes point at each other. *)
Fixpoint linked (t : gmap Z qentry) (xs : list Z) : Prop :=
  match xs with
  | x :: ((y :: _) as r) => nx t x = Some y ∧ pv t y = Some x ∧ linked t r
  | _ => True
  end.

(** The nodes of a queue, sentinels included. *)
Definition nodes (q : Z) (l : list Z) : list Z := q :: l ++ [queuetail q].

(** Queue [q] holds the processes [l], first to last. *)
Record is_queue (t : gmap Z qentry) (q : Z) (l : list Z) : Prop := IsQueue {
  isq_linked : linked t (nodes q l);
  isq_nodup : NoDup l;
  isq_pids : Forall (λ x, 0 ≤ x < NPROC) l;
  isq_id : isbadqid q = false;
  isq_even : q mod 2 = 0;
  isq_tailkey : ky t (queuetail q) = Some MINKEY }.

(** The whole table holds the queues [Q]; no process is in two of them. *)
Record qsys (t : gmap Z qentry) (Q : gmap Z (list Z)) : Prop := QSys {
  qs_table : is_table NQENT t;
  qs_queue : ∀ q l, Q !! q = Some l → is_queue t q l;
  qs_disj : ∀ q1 q2 l1 l2 x,
    Q !! q1 = Some l1 → Q !! q2 = Some l2 → x ∈ l1 → x ∈ l2 → q1 = q2 }.

(** Process [x] is in no queue. *)
Definition detached (Q : gmap Z (list Z)) (x : Z) : Prop :=
  ∀ q l, Q !! q = Some l → x ∉ l.

(** ** Linked lists *)

Lemma linked_app t xs y ys :
  linked t (xs ++ y :: ys) ↔ linked t (xs ++ [y]) ∧ linked t (y :: ys).
Proof.
  induction xs as [|x xs IH]; [cbn; tauto|].
  destruct xs as [|x' xs]; cbn in *; [tauto|]. rewrite IH. tauto.
Qed.

Lemma linked_pair t x y ys :
  linked t (x :: y :: ys) ↔ (nx t x = Some y ∧ pv t y = Some x) ∧ linked t (y :: ys).
Proof. cbn. tauto. Qed.

Lemma linked_ext t t' xs :
  linked t xs →
  (∀ x, x ∈ removelast xs → nx t' x = nx t x) →
  (∀ y, y ∈ tail xs → pv t' y = pv t y) →
  linked t' xs.
Proof.
  induction xs as [|x xs IH]; [done|]. intros Hl Hn Hp.
  destruct xs as [|y ys]; [done|]. destruct Hl as (Hx & Hy & Hl).
  split; [|split].
  - rewrite Hn; [done|]. cbn. destruct ys; set_solver.
  - rewrite Hp; [done|]. cbn. set_solver.
  - apply IH; [done|..].
    + intros z Hz. apply Hn. cbn. destruct ys; set_solver.
    + intros z Hz. apply Hp. cbn in *. set_solver.
Qed.

Lemma linked_ext_snoc t t' xs p :
  linked t (xs ++ [p]) →
  (∀ x, x ∈ xs → nx t' x = nx t x) →
  (∀ y, y ∈ xs ++ [p] → pv t' y = pv t y) →
  linked t' (xs ++ [p]).
Proof.
  intros Hl Hn Hp. eapply linked_ext; [done|..].
  - rewrite removelast_last. done.
  - intros y Hy. apply Hp. destruct xs; cbn in *; set_solver.
Qed.

Lemma linked_ext_cons t t' n xs :
  linked t (n :: xs) →
  (∀ x, x ∈ n :: xs → nx t' x = nx t x) →
  (∀ y, y ∈ xs → pv t' y = pv t y) →
  linked t' (n :: xs).
Proof.
  intros Hl Hn Hp. eapply linked_ext; [done| |done].
  intros x Hx. apply Hn.
  destruct (exists_last (l := n :: xs)) as (zs & z & Heq); [done|].
  rewrite Heq in Hx |- *. rewrite removelast_last in Hx. set_solver.
Qed.

(** Unlinking the node between [p] and [n]. *)
Lemma linked_unlink t t' xs p x n ys :
  NoDup (xs ++ p :: x :: n :: ys) →
  linked t (xs ++ p :: x :: n :: ys) →
  (∀ j, nx t' j = if decide (j = p) then Some n else nx t j) →
  (∀ j, pv t' j = if decide (j = n) then Some p else pv t j) →
  linked t' (xs ++ p :: n :: ys).
Proof.
  intros Hnd Hl Hn Hp.
  apply linked_app in Hl as [Hl1 Hl2]. apply linked_app. split.
  - eapply linked_ext_snoc; [done|..].
    + intros y Hy. rewrite Hn, decide_False; [done|].
      intros ->. apply NoDup_app in Hnd as (_ & Hd & _). apply (Hd p); set_solver.
    + intros y Hy. rewrite Hp, decide_False; [done|].
      intros ->. apply NoDup_app in Hnd as (_ & Hd & Hnd).
      apply elem_of_app in Hy as [Hy|Hy]; [apply (Hd n); set_solver|].
      apply list_elem_of_singleton in Hy as ->. apply NoDup_cons in Hnd. set_solver.
  - apply NoDup_app in Hnd as (_ & _ & Hnd).
    apply linked_pair. split; [rewrite Hn, Hp; by rewrite !decide_True by done|].
    apply linked_pair in Hl2 as [_ Hl2]. apply linked_pair in Hl2 as [_ Hl2].
    eapply linked_ext_cons; [done|..].
    + intros y Hy. rewrite Hn, decide_False; [done|].
      intros ->. apply NoDup_cons in Hnd. set_solver.
    + intros y Hy. rewrite Hp, decide_False; [done|].
      intros ->. rewrite !NoDup_cons in Hnd. set_solver.
Qed.

(** Linking the node [x] between [p] and [n]. *)
Lemma linked_splice t t' xs p x n ys :
  NoDup (xs ++ p :: n :: ys) → x ∉ xs ++ p :: n :: ys →
  linked t (xs ++ p :: n :: ys) →
  (∀ j, nx t' j = if decide (j = p) then Some x else if decide (j = x) then Some n else nx t j) →
  (∀ j, pv t' j = if decide (j = n) then Some x else if decide (j = x) then Some p else pv t j) →
  linked t' (xs ++ p :: x :: n :: ys).
Proof.
  intros Hnd Hx Hl Hn Hp.
  apply linked_app in Hl as [Hl1 Hl2]. apply linked_app. split.
  - eapply linked_ext_snoc; [done|..].
    + intros y Hy. rewrite Hn, !decide_False; [done|set_solver|].
      intros ->. apply NoDup_app in Hnd as (_ & Hd & _). apply (Hd p); set_solver.
    + intros y Hy. rewrite Hp, !decide_False; [done|set_solver|].
      intros ->. apply NoDup_app in Hnd as (_ & Hd & Hnd).
      apply elem_of_app in Hy as [Hy|Hy]; [apply (Hd n); set_solver|].
      apply list_elem_of_singleton in Hy as ->. apply NoDup_cons in Hnd. set_solver.
  - apply NoDup_app in Hnd as (_ & _ & Hnd).
    apply linked_pair in Hl2 as [_ Hl2].
    apply linked_pair. split; [|apply linked_pair; split].
    + rewrite Hn, Hp. rewrite decide_True by done.
      split; [done|]. rewrite decide_False by set_solver. by rewrite decide_True.
    + rewrite Hn, Hp. rewrite decide_False by set_solver. by rewrite !decide_True.
    + eapply linked_ext_cons; [done|..].
      * intros y Hy. rewrite Hn, !decide_False; [done|set_solver|].
        intros ->. apply NoDup_cons in Hnd. set_solver.
      * intros y Hy. rewrite Hp, !decide_False; [done|set_solver|].
        intros ->. rewrite !NoDup_cons in Hnd. set_solver.
Qed.

(** ** Updates of one entry *)

Lemma q_upd_next t i v :
  is_table NQENT t → 0 ≤ i < NQENT →
  ∃ t', q_upd (set_qnext v) i t = Some t' ∧ is_table NQENT t' ∧
    (∀ j, nx t' j = if decide (j = i) then Some v else nx t j) ∧
    (∀ j, pv t' j = pv t j) ∧ (∀ j, ky t' j = ky t j).
Proof.
  intros Ht Hi. destruct (is_table_get _ _ _ Ht Hi) as [e He].
  exists (<[i:=set_qnext v e]> t). unfold q_upd, nx, pv, ky. rewrite He. cbn.
  split_and!; auto with xinu; intros j; rewrite lookup_insert;
    repeat case_decide; subst; try congruence; rewrite ?He; done.
Qed.

Lemma q_upd_prev t i v :
  is_table NQENT t → 0 ≤ i < NQENT →
  ∃ t', q_upd (set_qprev v) i t = Some t' ∧ is_table NQENT t' ∧
    (∀ j, nx t' j = nx t j) ∧
    (∀ j, pv t' j = if decide (j = i) then Some v else pv t j) ∧ (∀ j, ky t' j = ky t j).
Proof.
  intros Ht Hi. destruct (is_table_get _ _ _ Ht Hi) as [e He].
  exists (<[i:=set_qprev v e]> t). unfold q_upd, nx, pv, ky. rewrite He. cbn.
  split_and!; auto with xinu; intros j; rewrite lookup_insert;
    repeat case_decide; subst; try congruence; rewrite ?He; done.
Qed.

Lemma q_upd_key t i v :
  is_table NQENT t → 0 ≤ i < NQENT →
  ∃ t', q_upd (set_qkey v) i t = Some t' ∧ is_table NQENT t' ∧
    (∀ j, nx t' j = nx t j) ∧ (∀ j, pv t' j = pv t j) ∧
    (∀ j, ky t' j = if decide (j = i) then Some v else ky t j).
Proof.
  intros Ht Hi. destruct (is_table_get _ _ _ Ht Hi) as [e He].
  exists (<[i:=set_qkey v e]> t). unfold q_upd, nx, pv, ky. rewrite He. cbn.
  split_and!; auto with xinu; intros j; rewrite lookup_insert;
    repeat case_decide; subst; try congruence; rewrite ?He; done.
Qed.

(** Rewrite the accessors of an updated table with the facts about it. *)
Ltac q_rw :=
  repeat match goal with
  | H : ∀ j, nx ?t j = _ |- context [nx ?t _] => rewrite H
  | H : ∀ j, pv ?t j = _ |- context [pv ?t _] => rewrite H
  | H : ∀ j, ky ?t j = _ |- context [ky ?t _] => rewrite H
  end.

(** Run the next [q_upd] of the goal. *)
Ltac q_step :=
  match goal with
  | |- context [q_upd (set_qnext ?v) ?i ?t] =>
      destruct (q_upd_next t i v) as (? & -> & ? & ? & ? & ?); [done|clia|cbn [mbind option_bind]]
  | |- context [q_upd (set_qprev ?v) ?i ?t] =>
      destruct (q_upd_prev t i v) as (? & -> & ? & ? & ? & ?); [done|clia|cbn [mbind option_bind]]
  | |- context [q_upd (set_qkey ?v) ?i ?t] =>
      destruct (q_upd_key t i v) as (? & -> & ? & ? & ? & ?); [done|clia|cbn [mbind option_bind]]
  end.

(** ** Frames *)

Lemma isbadqid_false q : isbadqid q = false ↔ NPROC ≤ q < NQENT - 1.
Proof. unfold isbadqid. rewrite orb_false_iff, !bool_decide_eq_false. lia. Qed.

Lemma elem_of_nodes q l x : x ∈ nodes q l ↔ x = q ∨ x ∈ l ∨ x = queuetail q.
Proof. unfold nodes. set_solver. Qed.

Lemma nodes_nodup t q l : is_queue t q l → NoDup (nodes q l).
Proof.
  intros [_ Hnd Hp Hq%isbadqid_false _ _]. unfold nodes.
  rewrite Forall_forall in Hp.
  apply NoDup_cons. split.
  - intros [Hin%Hp|Hin]%elem_of_app; [lia|].
    apply list_elem_of_singleton in Hin. unfold queuetail in Hin. lia.
  - apply NoDup_app. split; [done|]. split; [|apply NoDup_singleton].
    intros x Hx%Hp Hx2%list_elem_of_singleton. unfold queuetail in Hx2. lia.
Qed.

Lemma nodes_range t q l x : is_queue t q l → x ∈ nodes q l → 0 ≤ x < NQENT.
Proof.
  intros [_ _ Hp Hq%isbadqid_false _ _] Hx%elem_of_nodes. rewrite Forall_forall in Hp.
  unfold queuetail, NQENT, NPROC, NSEM in *. destruct Hx as [-> | [Hx%Hp | ->]]; lia.
Qed.

Lemma is_queue_pid t q l x : is_queue t q l → x ∈ l → 0 ≤ x < NPROC.
Proof. intros [_ _ Hp _ _ _] Hx. rewrite Forall_forall in Hp. by apply Hp. Qed.

Lemma nodes_disjoint t Q q1 q2 l1 l2 x :
  qsys t Q → Q !! q1 = Some l1 → Q !! q2 = Some l2 → q1 ≠ q2 →
  x ∈ nodes q1 l1 → x ∉ nodes q2 l2.
Proof.
  intros [_ Hq Hd] H1 H2 Hne Hx1%elem_of_nodes Hx2%elem_of_nodes.
  pose proof (Hq _ _ H1) as I1. pose proof (Hq _ _ H2) as I2.
  pose proof (isq_even _ _ _ I1). pose proof (isq_even _ _ _ I2).
  pose proof (proj1 (isbadqid_false _) (isq_id _ _ _ I1)).
  pose proof (proj1 (isbadqid_false _) (isq_id _ _ _ I2)).
  pose proof (is_queue_pid _ _ _ x I1) as P1. pose proof (is_queue_pid _ _ _ x I2) as P2.
  unfold queuetail in *.
  destruct Hx1 as [?|[Hx1|?]], Hx2 as [?|[Hx2|?]];
    try specialize (P1 Hx1); try specialize (P2 Hx2);
    first [lia | by eapply Hne, Hd | idtac].
  all: Z.to_euclidean_division_equations; lia.
Qed.

Lemma linked_frame t t' xs :
  linked t xs → (∀ j, j ∈ xs → nx t' j = nx t j ∧ pv t' j = pv t j) → linked t' xs.
Proof.
  intros Hl Hs. eapply linked_ext; [done|..].
  - intros x Hx. apply Hs. destruct xs as [|y ys]; [done|].
    destruct (exists_last (l := y :: ys)) as (zs & z & Heq); [done|].
    rewrite Heq in Hx |- *. rewrite removelast_last in Hx. set_solver.
  - intros y Hy. apply Hs. destruct xs; cbn in *; set_solver.
Qed.

Lemma is_queue_frame t t' q l :
  is_queue t q l →
  (∀ j, j ∈ nodes q l → nx t' j = nx t j ∧ pv t' j = pv t j) →
  ky t' (queuetail q) = ky t (queuetail q) →
  is_queue t' q l.
Proof.
  intros [Hl Hnd Hp Hq He Hk] Hs Hk'. split; try done; [|by rewrite Hk'].
  by eapply linked_frame.
Qed.

(** One queue changes, the others are framed. *)
Lemma qsys_update t t' Q q l l' :
  qsys t Q → Q !! q = Some l → is_table NQENT t' → is_queue t' q l' →
  (∀ x, x ∈ l' → x ∈ l ∨ detached Q x) →
  (∀ j, j ∉ nodes q l → j ∉ l' → nx t' j = nx t j ∧ pv t' j = pv t j) →
  (∀ j, NPROC ≤ j → ky t' j = ky t j) →
  qsys t' (<[q := l']> Q).
Proof.
  intros Hs Hl Ht Hq Hin Hf Hk. pose proof Hs as [_ Hqs Hd]. split; [done|..].
  - intros q2 l2. rewrite lookup_insert. case_decide as Hc; [intros [= <-]; by subst|].
    intros H2. eapply is_queue_frame; [by eauto|..].
    + intros j Hj. apply Hf.
      * eapply nodes_disjoint; eauto.
      * intros Hj'. destruct (Hin _ Hj') as [Hj2|Hdet].
        -- eapply (nodes_disjoint t Q q2 q); eauto. apply elem_of_nodes. by right; left.
        -- apply elem_of_nodes in Hj as [->|[Hj| ->]].
           ++ pose proof (isq_id _ _ _ (Hqs _ _ H2)) as ?%isbadqid_false.
              pose proof (is_queue_pid _ _ _ _ Hq Hj'). lia.
           ++ by apply (Hdet _ _ H2).
           ++ pose proof (isq_id _ _ _ (Hqs _ _ H2)) as ?%isbadqid_false.
              pose proof (is_queue_pid _ _ _ _ Hq Hj'). unfold queuetail in *. lia.
    + apply Hk. pose proof (isq_id _ _ _ (Hqs _ _ H2)) as ?%isbadqid_false.
      unfold queuetail. lia.
  - intros q1 q2 l1 l2 x. rewrite !lookup_insert. repeat case_decide; subst; try done.
    + intros [= <-] H2 Hx1 Hx2. destruct (Hin _ Hx1) as [Hx|Hx]; [by eapply Hd|].
      by apply Hx in H2.
    + intros H1 [= <-] Hx1 Hx2. destruct (Hin _ Hx2) as [Hx|Hx]; [by eapply Hd|].
      by apply Hx in H1.
    + apply Hd.
Qed.

(** ** The operations on the whole table *)

Lemma snoc_view (q : Z) (l : list Z) : ∃ xs p, q :: l = xs ++ [p] ∧ last (q :: l) = Some p.
Proof.
  destruct (exists_last (l := q :: l)) as (xs & p & Heq); [done|].
  exists xs, p. by rewrite Heq, last_snoc.
Qed.

Lemma cons_view (l : list Z) (z : Z) :
  ∃ n ys, l ++ [z] = n :: ys ∧ head (l ++ [z]) = Some n.
Proof. destruct l as [|n l]; cbn; eauto. Qed.

(** The node before (after) a position of a queue. *)
Definition prev_of (q : Z) (l1 : list Z) : Z := default q (last l1).
Definition next_of (q : Z) (l2 : list Z) : Z := default (queuetail q) (head l2).

Lemma nodes_split q l1 l2 :
  ∃ xs ys, nodes q (l1 ++ l2) = xs ++ prev_of q l1 :: next_of q l2 :: ys ∧
    (∀ x, nodes q (l1 ++ x :: l2) = xs ++ prev_of q l1 :: x :: next_of q l2 :: ys).
Proof.
  unfold prev_of, next_of, nodes.
  assert (∃ xs, q :: l1 = xs ++ [default q (last l1)]) as [xs Hxs].
  { destruct l1 as [|y l1 _] using rev_ind; [by exists []|].
    rewrite last_snoc. exists (q :: l1). done. }
  assert (∃ ys, l2 ++ [queuetail q] = default (queuetail q) (head l2) :: ys) as [ys Hys].
  { destruct l2; cbn; eauto. }
  exists xs, ys. split.
  - change (q :: (l1 ++ l2) ++ [queuetail q]) with ((q :: l1 ++ l2) ++ [queuetail q]).
    rewrite app_comm_cons, Hxs, <- !app_assoc, Hys. done.
  - intros x. rewrite <- app_assoc, app_comm_cons, Hxs, <- app_assoc.
    cbn [app]. by rewrite Hys.
Qed.

Lemma prev_next_nodes q l1 l2 :
  prev_of q l1 ∈ nodes q (l1 ++ l2) ∧ next_of q l2 ∈ nodes q (l1 ++ l2).
Proof. destruct (nodes_split q l1 l2) as (xs & ys & -> & _). set_solver. Qed.

(** What a splice of [pid] between two nodes does to the abstract view. *)
Lemma qsys_splice t t' Q q l1 l2 pid :
  qsys t Q → Q !! q = Some (l1 ++ l2) → detached Q pid → 0 ≤ pid < NPROC →
  is_table NQENT t' →
  (∀ j, nx t' j = if decide (j = prev_of q l1) then Some pid
                  else if decide (j = pid) then Some (next_of q l2) else nx t j) →
  (∀ j, pv t' j = if decide (j = next_of q l2) then Some pid
                  else if decide (j = pid) then Some (prev_of q l1) else pv t j) →
  (∀ j, NPROC ≤ j → ky t' j = ky t j) →
  qsys t' (<[q := l1 ++ pid :: l2]> Q).
Proof.
  intros Hs Hl Hdet Hpid Ht Hn Hp Hk.
  pose proof (qs_queue _ _ Hs _ _ Hl) as Hq.
  pose proof (isq_id _ _ _ Hq) as Hid%isbadqid_false.
  assert (pid ∉ nodes q (l1 ++ l2)) as Hpn.
  { rewrite elem_of_nodes. unfold queuetail. intros [->|[Hin| ->]]; try lia. by apply Hdet in Hl. }
  destruct (prev_next_nodes q l1 l2) as [HP HN].
  destruct (nodes_split q l1 l2) as (xs & ys & Hnodes & Hnodes').
  eapply qsys_update; [done..| | | |done].
  - split; try apply Hq.
    + rewrite Hnodes'. eapply (linked_splice t); rewrite <- ?Hnodes; try done.
      * by eapply nodes_nodup.
      * apply Hq.
    + apply NoDup_app_swap_mid. split; [by apply Hdet in Hl|]. apply Hq.
    + pose proof (isq_pids _ _ _ Hq) as HF. rewrite Forall_app in HF |- *.
      rewrite Forall_cons. naive_solver.
    + rewrite Hk; [apply Hq|]. unfold queuetail. lia.
  - intros x Hx. destruct (decide (x = pid)) as [->|]; [by right|]. left. set_solver.
  - intros j Hj1 Hj2. rewrite Hn, Hp, !decide_False; [done|set_solver..].
Qed.

(** What an unlink of [pid] does. *)
Lemma qsys_unlink t t' Q q l1 l2 pid :
  qsys t Q → Q !! q = Some (l1 ++ pid :: l2) →
  is_table NQENT t' →
  (∀ j, j ≠ pid → nx t' j = if decide (j = prev_of q l1) then Some (next_of q l2) else nx t j) →
  (∀ j, j ≠ pid → pv t' j = if decide (j = next_of q l2) then Some (prev_of q l1) else pv t j) →
  (∀ j, NPROC ≤ j → ky t' j = ky t j) →
  qsys t' (<[q := l1 ++ l2]> Q).
Proof.
  intros Hs Hl Ht Hn Hp Hk.
  pose proof (qs_queue _ _ Hs _ _ Hl) as Hq.
  pose proof (isq_id _ _ _ Hq) as Hid%isbadqid_false.
  destruct (prev_next_nodes q l1 l2) as [HP HN].
  destruct (nodes_split q l1 l2) as (xs & ys & Hnodes & Hnodes').
  pose proof (nodes_nodup _ _ _ Hq) as Hnd.
  eapply qsys_update; [done..| | | |done].
  - split; try apply Hq.
    + rewrite Hnodes.
      set (u := <[pid := QE 0 (default 0 (nx t pid)) (default 0 (pv t pid))]> t').
      assert (linked u (xs ++ prev_of q l1 :: next_of q l2 :: ys)) as Hlu.
      { pose proof (isq_linked _ _ _ Hq) as HL. rewrite Hnodes' in HL, Hnd.
        assert (prev_of q l1 ≠ pid ∧ next_of q l2 ≠ pid) as [? ?].
        { apply NoDup_app in Hnd as (_ & _ & Hnd). rewrite !NoDup_cons in Hnd. set_solver. }
        assert (is_Some (t !! pid)) as [e He].
        { apply (qs_table _ _ Hs), (nodes_range t q _ pid Hq), elem_of_nodes. set_solver. }
        eapply (linked_unlink t); [done..| |].
        - intros j. unfold u, nx, pv. rewrite lookup_insert. case_decide; subst.
          + rewrite decide_False by done. by rewrite He.
          + by apply Hn.
        - intros j. unfold u, nx, pv. rewrite lookup_insert. case_decide; subst.
          + rewrite decide_False by done. by rewrite He.
          + by apply Hp. }
      eapply linked_frame; [exact Hlu|]. intros j Hj.
      assert (j ≠ pid).
      { intros ->. rewrite Hnodes' in Hnd.
        assert (NoDup ((xs ++ [prev_of q l1]) ++ pid :: next_of q l2 :: ys)) as Hnd'
          by by rewrite <- app_assoc.
        apply NoDup_app_swap_mid in Hnd' as [Hnd' _]. rewrite <- app_assoc in Hnd'. done. }
      unfold u, nx, pv. by rewrite lookup_insert_ne.
    + pose proof (isq_nodup _ _ _ Hq) as HND. by apply NoDup_app_swap_mid in HND as [_ ?].
    + pose proof (isq_pids _ _ _ Hq) as HF. rewrite Forall_app in HF |- *.
      rewrite Forall_cons in HF. naive_solver.
    + rewrite Hk; [apply Hq|]. unfold queuetail. lia.
  - intros x Hx. left. set_solver.
  - intros j Hj1 _. rewrite elem_of_nodes in Hj1.
    assert (j ≠ pid) by set_solver.
    rewrite Hn, Hp by done. rewrite elem_of_nodes in HP, HN.
    rewrite !decide_False; [done|set_solver..].
Qed.

(** ** Reading the queues *)

Lemma linked_at t xs p x n ys :
  linked t (xs ++ p :: x :: n :: ys) → nx t x = Some n ∧ pv t x = Some p.
Proof.
  intros Hl%linked_app. destruct Hl as [_ Hl].
  apply linked_pair in Hl as [[_ ?] Hl]. by apply linked_pair in Hl as [[? _] _].
Qed.

Lemma qsys_at t Q q l1 x l2 :
  qsys t Q → Q !! q = Some (l1 ++ x :: l2) →
  nx t x = Some (next_of q l2) ∧ pv t x = Some (prev_of q l1).
Proof.
  intros Hs Hl. destruct (nodes_split q l1 l2) as (xs & ys & _ & Hn).
  pose proof (isq_linked _ _ _ (qs_queue _ _ Hs _ _ Hl)) as HL. rewrite Hn in HL.
  by eapply linked_at.
Qed.

Lemma qsys_between t Q q l1 l2 :
  qsys t Q → Q !! q = Some (l1 ++ l2) →
  nx t (prev_of q l1) = Some (next_of q l2) ∧ pv t (next_of q l2) = Some (prev_of q l1).
Proof.
  intros Hs Hl. destruct (nodes_split q l1 l2) as (xs & ys & Hn & _).
  pose proof (isq_linked _ _ _ (qs_queue _ _ Hs _ _ Hl)) as HL. rewrite Hn in HL.
  apply linked_app in HL as [_ HL]. by apply linked_pair in HL as [? _].
Qed.

Lemma firstid_spec t Q q l :
  qsys t Q → Q !! q = Some l → firstid q t = Some (next_of q l).
Proof. intros Hs Hl. by destruct (qsys_between t Q q [] l) as [? _]. Qed.

Lemma lastid_spec t Q q l :
  qsys t Q → Q !! q = Some l → lastid q t = Some (prev_of q l).
Proof.
  intros Hs Hl. destruct (qsys_between t Q q l []) as [_ ?]; [done| |done].
  by rewrite app_nil_r.
Qed.

Lemma next_of_pid t Q q l :
  qsys t Q → Q !! q = Some l → NPROC ≤ next_of q l ↔ l = [].
Proof.
  intros Hs Hl. pose proof (qs_queue _ _ Hs _ _ Hl) as Hq.
  pose proof (isq_id _ _ _ Hq) as Hid%isbadqid_false.
  unfold next_of, queuetail. destruct l as [|x l]; cbn; [split; [done|lia]|].
  pose proof (is_queue_pid _ _ _ x Hq ltac:(set_solver)). split; [lia|done].
Qed.

Lemma isempty_spec t Q q l :
  qsys t Q → Q !! q = Some l → isempty q t = Some (bool_decide (l = [])).
Proof.
  intros Hs Hl. unfold isempty. erewrite firstid_spec by eauto. cbn. f_equal.
  apply bool_decide_ext. by eapply next_of_pid.
Qed.

Lemma nonempty_spec t Q q l :
  qsys t Q → Q !! q = Some l → nonempty q t = Some (bool_decide (l ≠ [])).
Proof.
  intros Hs Hl. unfold nonempty. erewrite firstid_spec by eauto. cbn. f_equal.
  apply bool_decide_ext. rewrite <- (next_of_pid t Q q l) by done. lia.
Qed.

(** The key of a node, 0 outside the table. *)
Definition keyof (t : gmap Z qentry) (x : Z) : Z := default 0 (ky t x).

Lemma keyof_eq t t' x : ky t' x = ky t x → keyof t' x = keyof t x.
Proof. unfold keyof. by intros ->. Qed.

Lemma keyof_some t Q q l x :
  qsys t Q → Q !! q = Some l → x ∈ nodes q l → ky t x = Some (keyof t x).
Proof.
  intros Hs Hl Hx. unfold keyof, ky.
  destruct (is_table_get _ t x (qs_table _ _ Hs)) as [e ->]; [|done].
  eapply nodes_range; [by eapply qs_queue|done].
Qed.

(** The key of the first process, MINKEY for an empty queue. *)
Definition first_key (t : gmap Z qentry) (l : list Z) : Z :=
  match l with [] => MINKEY | x :: _ => keyof t x end.

Lemma firstkey_spec t Q q l :
  qsys t Q → Q !! q = Some l → firstkey q t = Some (first_key t l).
Proof.
  intros Hs Hl. unfold firstkey. erewrite firstid_spec by eauto. cbn.
  change (qkey <$> t !! next_of q l) with (ky t (next_of q l)).
  destruct l as [|x l]; cbn.
  - by apply (isq_tailkey _ _ _ (qs_queue _ _ Hs _ _ Hl)).
  - eapply keyof_some; eauto. apply elem_of_nodes. right; left. set_solver.
Qed.

(** ** getitem, getfirst, dequeue, enqueue *)

Lemma getitem_spec t Q q l1 x l2 :
  qsys t Q → Q !! q = Some (l1 ++ x :: l2) →
  ∃ t', getitem x t = Some (x, t') ∧ qsys t' (<[q := l1 ++ l2]> Q) ∧
    (∀ j, ky t' j = ky t j).
Proof.
  intros Hs Hl. pose proof (qs_queue _ _ Hs _ _ Hl) as Hq.
  destruct (qsys_at _ _ _ _ _ _ Hs Hl) as [Hn Hp].
  destruct (nodes_split q l1 l2) as (xs & ys & _ & Hnodes).
  assert (0 ≤ prev_of q l1 < NQENT) by (eapply nodes_range; [done|rewrite Hnodes; set_solver]).
  assert (0 ≤ next_of q l2 < NQENT) by (eapply nodes_range; [done|rewrite Hnodes; set_solver]).
  pose proof (qs_table _ _ Hs).
  unfold getitem. change (qnext <$> t !! x) with (nx t x). change (qprev <$> t !! x) with (pv t x).
  rewrite Hn, Hp. cbn [mbind option_bind]. q_step. q_step.
  eexists. split; [done|]. split; [|intros; by q_rw].
  eapply (qsys_unlink t); [done..| | |intros; by q_rw].
  - intros j _. q_rw. by repeat case_decide.
  - intros j _. q_rw. by repeat case_decide.
Qed.

Lemma getfirst_spec t Q q x l :
  qsys t Q → Q !! q = Some (x :: l) →
  ∃ t', getfirst q t = Some (x, t') ∧ qsys t' (<[q := l]> Q) ∧ (∀ j, ky t' j = ky t j).
Proof.
  intros Hs Hl. unfold getfirst. erewrite isempty_spec by eauto. cbn.
  change (qnext <$> t !! queuehead q) with (firstid q t). erewrite firstid_spec by eauto. cbn.
  eapply (getitem_spec t Q q []); done.
Qed.

Lemma getfirst_empty t Q q :
  qsys t Q → Q !! q = Some [] → getfirst q t = Some (EMPTY, t).
Proof. intros Hs Hl. unfold getfirst. by erewrite isempty_spec by eauto. Qed.

Lemma getlast_spec t Q q x l :
  qsys t Q → Q !! q = Some (l ++ [x]) →
  ∃ t', getlast q t = Some (x, t') ∧ qsys t' (<[q := l]> Q) ∧ (∀ j, ky t' j = ky t j).
Proof.
  intros Hs Hl. unfold getlast. erewrite isempty_spec by eauto. cbn [mbind option_bind].
  rewrite bool_decide_eq_false_2 by (by destruct l).
  change (qprev <$> t !! queuetail q) with (lastid q t). erewrite lastid_spec by eauto.
  cbn [mbind option_bind]. unfold prev_of. rewrite last_snoc. cbn [default].
  destruct (getitem_spec t Q q l x [] Hs) as (t' & ? & Hs' & ?); [done|].
  rewrite app_nil_r in Hs'. eauto.
Qed.

Lemma dequeue_spec t Q q x l :
  qsys t Q → Q !! q = Some (x :: l) →
  ∃ t', dequeue q t = Some (x, t') ∧ qsys t' (<[q := l]> Q) ∧ (∀ j, ky t' j = ky t j).
Proof.
  intros Hs Hl. pose proof (qs_queue _ _ Hs _ _ Hl) as Hq. unfold dequeue.
  rewrite (isq_id _ _ _ Hq). erewrite isempty_spec by eauto. cbn [mbind option_bind].
  rewrite bool_decide_eq_false_2 by done.
  destruct (getfirst_spec _ _ _ _ _ Hs Hl) as (t1 & -> & Hs1 & Hk1). cbn [mbind option_bind].
  assert (0 ≤ x < NQENT).
  { pose proof (is_queue_pid _ _ _ x Hq ltac:(set_solver)). clia. }
  (* [x] is in no queue any more, so its own entry does not matter. *)
  assert (x ∉ l) as Hxl.
  { pose proof (isq_nodup _ _ _ Hq) as Hnd. by apply NoDup_cons in Hnd as [? _]. }
  assert (detached (<[q:=l]> Q) x) as Hdet.
  { intros q2 l2. rewrite lookup_insert. case_decide; [by intros [= <-]|].
    intros Hl2 Hx2. assert (q = q2); [|done].
    eapply (qs_disj _ _ Hs); [exact Hl|exact Hl2| |exact Hx2]. set_solver. }
  pose proof Hs1 as [Ht1 Hqs Hd]. q_step. q_step.
  eexists. split; [done|]. split; [|intros; by q_rw].
  split; [done| |done]. intros q2 l2 Hl2. pose proof (Hqs _ _ Hl2) as Hq2.
  pose proof (isq_id _ _ _ Hq2) as Hid%isbadqid_false.
  pose proof (is_queue_pid _ _ _ x Hq ltac:(set_solver)).
  eapply is_queue_frame; [exact Hq2| |by q_rw].
  intros j Hj%elem_of_nodes. specialize (Hdet _ _ Hl2). unfold queuetail in *.
  assert (j ≠ x) by (intros ->; naive_solver lia).
  q_rw. by rewrite !decide_False.
Qed.

Lemma dequeue_empty t Q q :
  qsys t Q → Q !! q = Some [] → dequeue q t = Some (EMPTY, t).
Proof.
  intros Hs Hl. unfold dequeue. rewrite (isq_id _ _ _ (qs_queue _ _ Hs _ _ Hl)).
  by erewrite isempty_spec by eauto.
Qed.

Lemma isbadpid_false pt x :
  isbadpid pt x = false →
  0 ≤ x < NPROC ∧ ∃ p, pt !! x = Some p ∧ prstate p ≠ PR_FREE.
Proof.
  unfold isbadpid. destruct (pt !! x) as [p|]; intros H; bools; [|done].
  split; [lia|]. eauto.
Qed.

Lemma isbadpid_live pt x p :
  0 ≤ x < NPROC → pt !! x = Some p → prstate p ≠ PR_FREE → isbadpid pt x = false.
Proof.
  intros Hx Hp Hs. unfold isbadpid. rewrite Hp, !bool_decide_eq_false_2 by (done || lia). done.
Qed.

(** The four assignments that link a node in, as enqueue and insert do. *)
Lemma enqueue_spec pt t Q q l x :
  qsys t Q → Q !! q = Some l → isbadpid pt x = false → detached Q x →
  ∃ t', enqueue pt x q t = Some (x, t') ∧ qsys t' (<[q := l ++ [x]]> Q) ∧
    (∀ j, ky t' j = ky t j).
Proof.
  intros Hs Hl Hx Hdet. pose proof (qs_queue _ _ Hs _ _ Hl) as Hq.
  pose proof (isbadpid_false _ _ Hx) as [Hxr _].
  pose proof (isq_id _ _ _ Hq) as Hid%isbadqid_false.
  unfold enqueue. rewrite (isq_id _ _ _ Hq), Hx. cbn [orb].
  change (qprev <$> t !! queuetail q) with (lastid q t).
  erewrite lastid_spec by eauto. cbn [mbind option_bind].
  pose proof (prev_next_nodes q l []) as [HP _]. rewrite app_nil_r in HP.
  pose proof (nodes_range _ _ _ _ Hq HP).
  assert (prev_of q l ≠ x).
  { intros Heq. rewrite Heq in HP. apply elem_of_nodes in HP. specialize (Hdet _ _ Hl).
    unfold queuetail in HP. destruct HP as [?|[?|?]]; [lia|done|lia]. }
  pose proof (qs_table _ _ Hs). unfold queuetail in *.
  q_step. q_step. q_step. q_step.
  eexists. split; [done|]. split; [|intros; by q_rw].
  eapply (qsys_splice t _ Q q l []); rewrite ?app_nil_r; try done; intros; by q_rw.
Qed.

(** ** insert: descending keys *)

(** Abstract insertion: after every process whose key is at least [key]. *)
Fixpoint ins_split (ks : Z → Z) (key : Z) (l : list Z) : list Z * list Z :=
  match l with
  | [] => ([], [])
  | x :: r =>
    if bool_decide (key ≤ ks x) then (x :: (ins_split ks key r).1, (ins_split ks key r).2)
    else ([], l)
  end.

Definition q_insert (ks : Z → Z) (x key : Z) (l : list Z) : list Z :=
  (ins_split ks key l).1 ++ x :: (ins_split ks key l).2.

(** Abstract delta insertion: the processes before, those after, and what is
    left of the delay. *)
Fixpoint dsplit (ks : Z → Z) (key : Z) (l : list Z) : list Z * list Z * Z :=
  match l with
  | [] => ([], [], key)
  | x :: r =>
    if bool_decide (ks x ≤ key) then
      (x :: (dsplit ks (s32 (key - ks x)) r).1.1, (dsplit ks (s32 (key - ks x)) r).1.2,
       (dsplit ks (s32 (key - ks x)) r).2)
    else ([], l, key)
  end.

Definition q_insertd (ks : Z → Z) (x key : Z) (l : list Z) : list Z :=
  (dsplit ks key l).1.1 ++ x :: (dsplit ks key l).1.2.

(** The keys after a delta insertion: the new process gets what is left of its
    delay, and its successor counts from the new process. *)
Definition d_keys (ks : Z → Z) (x key : Z) (l : list Z) (j : Z) : Z :=
  let k := (dsplit ks key l).2 in
  if decide (head (dsplit ks key l).1.2 = Some j) then s32 (ks j - k)
  else if decide (j = x) then k else ks j.

Lemma ins_split_app ks key l : (ins_split ks key l).1 ++ (ins_split ks key l).2 = l.
Proof. induction l as [|x l IH]; cbn; [done|]. case_bool_decide; cbn; [by rewrite IH|done]. Qed.

Lemma dsplit_app ks key l : (dsplit ks key l).1.1 ++ (dsplit ks key l).1.2 = l.
Proof.
  revert key. induction l as [|x l IH]; intros key; cbn; [done|].
  case_bool_decide; cbn; [by rewrite IH|done].
Qed.

Lemma q_insert_perm ks x key l : q_insert ks x key l ≡ₚ x :: l.
Proof. unfold q_insert. rewrite <- Permutation_middle. by rewrite ins_split_app. Qed.

Lemma q_insertd_perm ks x key l : q_insertd ks x key l ≡ₚ x :: l.
Proof. unfold q_insertd. rewrite <- Permutation_middle. by rewrite dsplit_app. Qed.

Lemma ins_split_ext ks ks' key l :
  (∀ x, x ∈ l → ks' x = ks x) → ins_split ks' key l = ins_split ks key l.
Proof.
  induction l as [|x l IH]; intros He; [done|]. cbn.
  rewrite (He x), IH by set_solver. done.
Qed.

Lemma queue_length t q l : is_queue t q l → Z.of_nat (length l) ≤ NPROC.
Proof.
  intros Hq. pose proof (NoDup_bounded_length l NPROC (isq_nodup _ _ _ Hq)
    (isq_pids _ _ _ Hq)). unfold NPROC in *. lia.
Qed.

Lemma scan_fuel_enough t q l : is_queue t q l → (length l < scan_fuel)%nat.
Proof.
  intros Hq%queue_length. unfold scan_fuel, NQENT, NPROC, NSEM in *. lia.
Qed.

Lemma insert_scan_spec t Q q l1 l2 key fuel :
  qsys t Q → Q !! q = Some (l1 ++ l2) → MINKEY < key → (length l2 < fuel)%nat →
  insert_scan fuel (next_of q l2) key t = Some (next_of q (ins_split (keyof t) key l2).2).
Proof.
  intros Hs. revert l1 fuel.
  induction l2 as [|x l2 IH]; intros l1 [|fuel] Hl Hk Hf; cbn in Hf; try lia; cbn [insert_scan].
  - pose proof (isq_tailkey _ _ _ (qs_queue _ _ Hs _ _ Hl)) as Ht. unfold ky in Ht.
    cbn. destruct (t !! queuetail q); [|done]. injection Ht as Ht. cbn.
    rewrite bool_decide_eq_false_2 by lia. done.
  - pose proof (keyof_some _ _ _ _ x Hs Hl) as Hx. unfold ky in Hx.
    destruct (qsys_at _ _ _ _ _ _ Hs Hl) as [Hn _]. unfold nx in Hn.
    cbn [next_of head default]. cbn.
    destruct (t !! x) as [e|] eqn:He; [|by rewrite elem_of_nodes in Hx; set_solver].
    injection Hn as Hn. cbn in Hx. cbn [mbind option_bind].
    replace (qkey e) with (keyof t x); [|rewrite elem_of_nodes in Hx; set_solver].
    case_bool_decide; cbn; [|done]. rewrite Hn.
    apply (IH (l1 ++ [x])); [by rewrite <- app_assoc|done|lia].
Qed.

Lemma insert_spec pt t Q q l x key :
  qsys t Q → Q !! q = Some l → isbadpid pt x = false → detached Q x → MINKEY < key →
  ∃ t', insert pt x q key t = Some (OK, t') ∧
    qsys t' (<[q := q_insert (keyof t) x key l]> Q) ∧
    (∀ j, ky t' j = if decide (j = x) then Some key else ky t j).
Proof.
  intros Hs Hl Hx Hdet Hkey. pose proof (qs_queue _ _ Hs _ _ Hl) as Hq.
  pose proof (isbadpid_false _ _ Hx) as [Hxr _].
  pose proof (isq_id _ _ _ Hq) as Hid%isbadqid_false.
  unfold insert. rewrite (isq_id _ _ _ Hq), Hx. cbn [orb].
  erewrite firstid_spec by eauto. cbn [mbind option_bind].
  pose proof (scan_fuel_enough _ _ _ Hq) as Hfuel.
  rewrite (insert_scan_spec t Q q [] l) by done.
  cbn [mbind option_bind]. unfold q_insert.
  pose proof (ins_split_app (keyof t) key l) as Happ.
  destruct (ins_split (keyof t) key l) as [l1 l2]. cbn [fst snd] in *.
  rewrite <- Happ in Hl, Hq.
  change (qprev <$> t !! next_of q l2) with (pv t (next_of q l2)).
  destruct (qsys_between _ _ _ _ _ Hs Hl) as [_ ->]. cbn [mbind option_bind].
  destruct (prev_next_nodes q l1 l2) as [HP HN].
  pose proof (nodes_range _ _ _ _ Hq HP). pose proof (nodes_range _ _ _ _ Hq HN).
  pose proof (qs_table _ _ Hs).
  q_step. q_step. q_step. q_step. q_step.
  eexists. split; [done|]. split; [|intros; by q_rw].
  eapply (qsys_splice t _ Q q l1 l2); try done; try (intros; by q_rw).
  intros j Hj. q_rw. rewrite decide_False; [done|lia].
Qed.

Lemma insertd_scan_spec t Q q l1 l2 key fuel :
  qsys t Q → Q !! q = Some (l1 ++ l2) → (length l2 < fuel)%nat →
  insertd_scan fuel q (prev_of q l1) (next_of q l2) key t =
    let d := dsplit (keyof t) key l2 in
    Some (prev_of q (l1 ++ d.1.1), next_of q d.1.2, d.2).
Proof.
  intros Hs. revert l1 fuel key.
  induction l2 as [|x l2 IH]; intros l1 [|fuel] key Hl Hf; cbn in Hf; try lia;
    cbn [insertd_scan].
  - cbn. rewrite bool_decide_eq_true_2 by done. by rewrite app_nil_r.
  - pose proof (qs_queue _ _ Hs _ _ Hl) as Hq.
    pose proof (isq_id _ _ _ Hq) as Hid%isbadqid_false.
    pose proof (is_queue_pid _ _ _ x Hq ltac:(set_solver)).
    pose proof (keyof_some _ _ _ _ x Hs Hl ltac:(apply elem_of_nodes; set_solver)) as Hx.
    unfold ky in Hx.
    destruct (qsys_at _ _ _ _ _ _ Hs Hl) as [Hn _]. unfold nx in Hn.
    cbn [next_of head default]. cbn. unfold queuetail.
    rewrite bool_decide_eq_false_2 by lia.
    destruct (t !! x) as [e|] eqn:He; [|done]. injection Hn as Hn. cbn in Hx |- *.
    injection Hx as Hx. rewrite Hx.
    case_bool_decide; cbn; [|by rewrite app_nil_r]. rewrite Hn.
    replace x with (prev_of q (l1 ++ [x])) at 1 by (unfold prev_of; by rewrite last_snoc).
    rewrite (IH (l1 ++ [x])); [|by rewrite <- app_assoc|lia]. cbn.
    by rewrite <- app_assoc.
Qed.

Lemma insertd_spec pt t Q q l x key :
  qsys t Q → Q !! q = Some l → isbadpid pt x = false → detached Q x →
  ∃ t', insertd pt x q key t = Some (OK, t') ∧
    qsys t' (<[q := q_insertd (keyof t) x key l]> Q) ∧
    (∀ j, j ∉ l → j ≠ x → ky t' j = ky t j) ∧
    (∀ j, j ∈ x :: l → ky t' j = Some (d_keys (keyof t) x key l j)).
Proof.
  intros Hs Hl Hx Hdet. pose proof (qs_queue _ _ Hs _ _ Hl) as Hq.
  pose proof (isbadpid_false _ _ Hx) as [Hxr _].
  pose proof (isq_id _ _ _ Hq) as Hid%isbadqid_false.
  unfold insertd. rewrite (isq_id _ _ _ Hq), Hx. cbn [orb].
  change (qnext <$> t !! queuehead q) with (firstid q t).
  erewrite firstid_spec by eauto. cbn [mbind option_bind].
  pose proof (scan_fuel_enough _ _ _ Hq) as Hfuel.
  pose proof (insertd_scan_spec t Q q [] l key scan_fuel Hs Hl) as Hscan.
  change (prev_of q []) with (queuehead q) in Hscan. cbn [app] in Hscan.
  rewrite Hscan by done.
  cbn [mbind option_bind]. unfold q_insertd, d_keys.
  assert (∀ j, j ∈ l → ky t j = Some (keyof t j)) as Hkl.
  { intros j Hj. eapply keyof_some; eauto. apply elem_of_nodes. by right; left. }
  pose proof (dsplit_app (keyof t) key l) as Happ.
  destruct (dsplit (keyof t) key l) as [[l1 l2] k]. cbn [fst snd] in *.
  rewrite <- Happ in Hl, Hq. pose proof (Hdet _ _ Hl) as Hxl.
  destruct (prev_next_nodes q l1 l2) as [HP HN].
  pose proof (nodes_range _ _ _ _ Hq HP). pose proof (nodes_range _ _ _ _ Hq HN).
  pose proof (qs_table _ _ Hs).
  q_step. q_step. q_step. q_step. q_step.
  assert (∀ u, is_table NQENT u → (∀ j, nx u j = nx x4 j) → (∀ j, pv u j = pv x4 j) →
    (∀ j, NPROC ≤ j → ky u j = ky t j) → qsys u (<[q := l1 ++ x :: l2]> Q)) as Hfin.
  { intros u Hu Hun Hup Huk.
    eapply (qsys_splice t _ Q q l1 l2); try done; intros; by q_rw. }
  assert (∀ j, ky x4 j = if decide (j = x) then Some k else ky t j) as Hk4 by (intros; by q_rw).
  clear Hscan. destruct l2 as [|y l2]; cbn [next_of head default id] in *.
  - rewrite bool_decide_eq_false_2 by tauto. eexists. split; [done|]. split.
    + apply Hfin; try done. intros j Hj. rewrite Hk4, decide_False; [done|lia].
    + split; intros j Hj; rewrite Hk4.
      * intros Hjx. by rewrite decide_False.
      * rewrite (decide_False (P := None = Some j)) by done. case_decide; [done|]. apply Hkl.
        apply elem_of_cons in Hj. naive_solver.
  - pose proof (is_queue_pid _ _ _ y Hq ltac:(rewrite elem_of_app; right; left)) as Hy.
    assert (y ∈ l) as Hyl by (rewrite <- Happ, elem_of_app; right; left).
    assert (y ≠ x) as Hyx by (intros ->; apply Hxl; rewrite elem_of_app; right; left).
    unfold queuetail. rewrite bool_decide_eq_true_2 by lia.
    specialize (Hkl _ Hyl) as Hky. pose proof (Hk4 y) as Hy4. rewrite decide_False in Hy4 by done.
    rewrite Hky in Hy4. unfold ky in Hy4. destruct (x4 !! y) as [e|] eqn:He; [|done].
    cbn in Hy4 |- *. injection Hy4 as Hye. rewrite Hye. q_step.
    eexists. split; [done|]. split.
    + apply Hfin; try done. intros j Hj. q_rw. rewrite !decide_False; [done|lia..].
    + split; intros j Hj.
      * intros Hjx. q_rw. rewrite !decide_False; [done|done|]. by intros ->.
      * q_rw. destruct (decide (j = y)) as [->|Hjy].
        -- rewrite decide_True by done. done.
        -- rewrite (decide_False (P := Some y = Some j)) by congruence.
           case_decide; [done|]. apply Hkl. apply elem_of_cons in Hj. naive_solver.
Qed.

(** ** newqueue *)

Lemma newqueue_spec t Q q :
  qsys t Q → Q !! q = None → isbadqid q = false → q mod 2 = 0 →
  ∃ t', newqueue q t = Some (q, q + 2, t') ∧ qsys t' (<[q := []]> Q) ∧
    (∀ j, j < NPROC → ky t' j = ky t j).
Proof.
  intros Hs Hn Hq He. pose proof (proj1 (isbadqid_false _) Hq) as Hid.
  pose proof Hs as [Ht Hqs Hd].
  unfold newqueue, queuehead, queuetail. cbv zeta. rewrite bool_decide_eq_false_2 by lia.
  q_step. q_step. q_step. q_step. q_step. q_step.
  rewrite s16_id by (clia).
  eexists. split; [done|]. split.
  - split; [done|..].
    + intros q2 l2. rewrite lookup_insert. case_decide; [intros [= <-]; subst|].
      * split; try done; [|by apply NoDup_nil|]; unfold nodes, queuetail; cbn.
        -- split_and!; [| |done]; q_rw.
           ++ rewrite decide_False by lia. by rewrite decide_True.
           ++ by rewrite decide_True.
        -- q_rw. by rewrite decide_True.
      * intros Hl2. pose proof (Hqs _ _ Hl2) as Hq2.
        pose proof (isq_id _ _ _ Hq2) as Hid2%isbadqid_false.
        pose proof (isq_even _ _ _ Hq2) as He2.
        assert (q2 ≠ q + 1 ∧ q2 + 1 ≠ q) by (Z.to_euclidean_division_equations; lia).
        eapply is_queue_frame; [exact Hq2| |]; unfold queuetail.
        -- intros j Hj. pose proof (is_queue_pid _ _ _ j Hq2).
           apply elem_of_nodes in Hj. unfold queuetail in Hj.
           assert (j ≠ q ∧ j ≠ q + 1) by (destruct Hj as [?|[?|?]]; naive_solver lia).
           q_rw. rewrite !decide_False by lia. done.
        -- q_rw. rewrite !decide_False by lia. done.
    + intros q1 q2 l1 l2 j. rewrite !lookup_insert.
      repeat case_decide; subst; try done; [intros [= <-] ? Hj ?|intros ? [= <-] ? Hj|apply Hd];
        by apply not_elem_of_nil in Hj.
  - intros j Hj. q_rw. rewrite !decide_False by lia. done.
Qed.

Lemma newqueue_full q t : NQENT ≤ q → newqueue q t = Some (SYSERR, q, t).
Proof. intros. unfold newqueue. by rewrite bool_decide_eq_true_2. Qed.

(** The table before any queue exists. *)
Lemma qsys_empty t : is_table NQENT t → qsys t ∅.
Proof. intros Ht. split; [done|..]; intros *; rewrite lookup_empty; done. Qed.

(** A queue and its view determine each other's membership. *)
Lemma detached_insert Q q l x :
  detached Q x → x ∉ l → detached (<[q:=l]> Q) x.
Proof.
  intros Hd Hx q2 l2. rewrite lookup_insert. case_decide; [by intros [= <-]|apply Hd].
Qed.

Lemma detached_remove t Q q l1 x l2 :
  qsys t Q → Q !! q = Some (l1 ++ x :: l2) → detached (<[q:=l1 ++ l2]> Q) x.
Proof.
  intros Hs Hl q2 l2'. pose proof (isq_nodup _ _ _ (qs_queue _ _ Hs _ _ Hl)) as Hnd.
  apply NoDup_app_swap_mid in Hnd as [Hx _].
  rewrite lookup_insert. case_decide; [by intros [= <-]|].
  intros Hl2 Hx2. assert (q = q2); [|done].
  eapply (qs_disj _ _ Hs); [exact Hl|exact Hl2| |done]. set_solver.
Qed.

#[export] Hint Resolve detached_insert detached_remove : xinu.

(** The key of a process may change at any time. *)
Lemma qsys_setkey t Q i k :
  qsys t Q → 0 ≤ i < NPROC →
  ∃ t', q_upd (set_qkey k) i t = Some t' ∧ qsys t' Q ∧
    (∀ j, ky t' j = if decide (j = i) then Some k else ky t j).
Proof.
  intros [Ht Hq Hd] Hi. destruct (q_upd_key t i k Ht) as (t' & Heq & Ht' & Hn & Hp & Hk); [clia|].
  exists t'. split_and!; [done| |done]. split; [done| |done]. intros q l Hl.
  pose proof (Hq _ _ Hl) as Hl'. eapply is_queue_frame; [done|done|].
  pose proof (isq_id _ _ _ Hl') as ?%isbadqid_false. rewrite Hk, decide_False; [done|].
  unfold queuetail. lia.
Qed.

(** A queue holds at most [queue_fuel - 1] processes. *)
Lemma queue_fuel_enough t q l : is_queue t q l → (length l < queue_fuel)%nat.
Proof. intros H%queue_length. unfold queue_fuel, NPROC in *. lia. Qed.
