(* ===== verification/Delta.v ===== *)
(** The sleep queue as an alarm list.

    The sleep queue is a delta list: the key of a process is the number of
    ticks between its predecessor's wakeup and its own.  The abstract view is
    the list of alarms [(process, ticks until it wakes)], in order; insertd,
    unsleep and the clock tick are its insertion, removal and decrement. *)

From S2P Require Import Prelude Types Queue.

Fixpoint alarms (ks : Z → Z) (base : Z) (l : list Z) : list (Z * Z) :=
  match l with
  | [] => []
  | x :: r => (x, base + ks x) :: alarms ks (base + ks x) r
  end.

(** Deltas are not negative and the last alarm is within a 32-bit count. *)
Fixpoint deltas_ok (ks : Z → Z) (base : Z) (l : list Z) : Prop :=
  match l with
  | [] => base ≤ INT_MAX
  | x :: r => 0 ≤ ks x ∧ deltas_ok ks (base + ks x) r
  end.

(** Abstract insertion: behind every alarm that is not later. *)
Fixpoint add_alarm (x d : Z) (a : list (Z * Z)) : list (Z * Z) :=
  match a with
  | [] => [(x, d)]
  | (y, e) :: r => if bool_decide (e ≤ d) then (y, e) :: add_alarm x d r else (x, d) :: a
  end.

Definition tick_alarms (a : list (Z * Z)) : list (Z * Z) := (λ '(x, d), (x, d - 1)) <$> a.

Fixpoint no_alarm (pid : Z) (a : list (Z * Z)) : list (Z * Z) :=
  match a with
  | [] => []
  | (x, d) :: r => if decide (x = pid) then no_alarm pid r else (x, d) :: no_alarm pid r
  end.

(** The processes whose time has come, and the others. *)
Fixpoint expired (a : list (Z * Z)) : list Z :=
  match a with
  | (x, d) :: r => if bool_decide (d ≤ 0) then x :: expired r else []
  | [] => []
  end.

Fixpoint pending (a : list (Z * Z)) : list (Z * Z) :=
  match a with
  | (x, d) :: r => if bool_decide (d ≤ 0) then pending r else a
  | [] => []
  end.

(** ** Lemmas *)

Lemma alarms_ext ks ks' base l :
  (∀ x, x ∈ l → ks' x = ks x) → alarms ks' base l = alarms ks base l.
Proof.
  revert base. induction l as [|x l IH]; intros base H; cbn; [done|].
  rewrite (H x) by by left. f_equal. apply IH. intros. apply H. by right.
Qed.

Lemma alarms_fst ks base l : (alarms ks base l).*1 = l.
Proof. revert base. induction l as [|x l IH]; intros base; cbn; [done|]. by rewrite IH. Qed.

Lemma deltas_le ks base l : deltas_ok ks base l → base ≤ INT_MAX.
Proof.
  revert base. induction l as [|x l IH]; intros base; cbn; [done|].
  intros [? H%IH]. lia.
Qed.

Lemma deltas_ext ks ks' base l :
  (∀ x, x ∈ l → ks' x = ks x) → deltas_ok ks base l → deltas_ok ks' base l.
Proof.
  revert base. induction l as [|x l IH]; intros base H; cbn; [done|].
  intros [? ?]. rewrite (H x) by by left. split; [done|]. apply IH; [|done].
  intros. apply H. by right.
Qed.

(** The alarms are in order of time. *)
Lemma alarms_above ks base l : deltas_ok ks base l → Forall (λ a, base ≤ a.2) (alarms ks base l).
Proof.
  revert base. induction l as [|x l IH]; intros base; cbn; [constructor|].
  intros [? H%IH]. constructor; [cbn; lia|].
  eapply Forall_impl; [exact H|]. intros; cbn in *; lia.
Qed.

Lemma alarms_sorted ks base l :
  deltas_ok ks base l → StronglySorted (λ a b, a.2 ≤ b.2) (alarms ks base l).
Proof.
  revert base. induction l as [|x l IH]; intros base; cbn; [constructor|].
  intros [? H]. constructor; [by apply IH|]. by apply alarms_above in H.
Qed.

(** ** insertd inserts an alarm *)

Lemma d_keys_in ks x key l j :
  NoDup l → x ∉ l → j ∈ (dsplit ks key l).1.1 → d_keys ks x key l j = ks j.
Proof.
  intros Hnd Hx Hj. pose proof (dsplit_app ks key l) as Happ. unfold d_keys.
  rewrite <- Happ in Hnd, Hx. apply NoDup_app in Hnd as (_ & Hd & _).
  rewrite decide_False; [rewrite decide_False; [done|]|].
  - intros ->. apply Hx. apply elem_of_app. by left.
  - intros Hh. apply (Hd _ Hj). by apply head_Some_elem_of.
Qed.

Lemma insertd_cons ks x key y l :
  NoDup (y :: l) → x ∉ y :: l → ks y ≤ key → s32 (key - ks y) = key - ks y →
  q_insertd ks x key (y :: l) = y :: q_insertd ks x (key - ks y) l ∧
  (∀ j, j ≠ y → d_keys ks x key (y :: l) j = d_keys ks x (key - ks y) l j) ∧
  d_keys ks x key (y :: l) y = ks y.
Proof.
  intros Hnd Hx Hle Hs. unfold q_insertd, d_keys. cbn. rewrite bool_decide_eq_true_2 by done.
  rewrite Hs. cbn. split; [done|]. split; [done|].
  apply NoDup_cons in Hnd as [Hy _]. pose proof (dsplit_app ks (key - ks y) l) as Happ.
  rewrite decide_False; [rewrite decide_False; [done|]|].
  - intros ->. apply Hx. by left.
  - intros Hh%head_Some_elem_of. apply Hy. rewrite <- Happ. apply elem_of_app. by right.
Qed.

(** The alarms after insertd: the new process is due after [key] ticks, every
    other process when it was due before. *)
Lemma insertd_alarms ks x l : ∀ key base,
  NoDup l → x ∉ l → deltas_ok ks base l → 0 ≤ base → 0 ≤ key → base + key ≤ INT_MAX →
  alarms (d_keys ks x key l) base (q_insertd ks x key l) =
    add_alarm x (base + key) (alarms ks base l) ∧
  deltas_ok (d_keys ks x key l) base (q_insertd ks x key l).
Proof.
  unfold INT_MAX. induction l as [|y l IH]; intros key base Hnd Hx Hok Hb Hk Hmax.
  { assert (d_keys ks x key [] x = key) as Hkx.
    { unfold d_keys. cbn. rewrite decide_False by done. by rewrite decide_True. }
    cbn. rewrite Hkx. split; [done|]. unfold INT_MAX. lia. }
  destruct Hok as [Hy Hok]. pose proof (deltas_le _ _ _ Hok) as Hle. unfold INT_MAX in Hle.
  destruct (decide (ks y ≤ key)) as [Hc|Hc].
  - destruct (insertd_cons ks x key y l) as (-> & Hj & Hjy); try done; [by rewrite s32_id by lia|].
    pose proof Hnd as [Hyl Hnd']%NoDup_cons. apply not_elem_of_cons in Hx as [Hxy Hx].
    destruct (IH (key - ks y) (base + ks y)) as [IHa IHd]; try done; [lia..|].
    assert (∀ j, j ∈ q_insertd ks x (key - ks y) l → d_keys ks x key (y :: l) j
      = d_keys ks x (key - ks y) l j) as Hext.
    { intros j Hin. apply Hj. intros ->. rewrite q_insertd_perm in Hin.
      apply elem_of_cons in Hin as [?|?]; congruence. }
    cbn [alarms deltas_ok add_alarm]. rewrite Hjy, bool_decide_eq_true_2 by lia. split.
    + rewrite (alarms_ext (d_keys ks x (key - ks y) l)) by done. rewrite IHa. do 2 f_equal. lia.
    + split; [done|]. by eapply deltas_ext, IHd.
  - apply not_elem_of_cons in Hx as [Hxy Hx]. pose proof Hnd as [Hyl Hnd']%NoDup_cons.
    unfold q_insertd. cbn [dsplit]. rewrite bool_decide_eq_false_2 by done. cbn [fst snd app].
    assert (d_keys ks x key (y :: l) x = key) as Hkx.
    { unfold d_keys. cbn. rewrite bool_decide_eq_false_2 by done. cbn.
      rewrite decide_False by congruence. by rewrite decide_True. }
    assert (d_keys ks x key (y :: l) y = ks y - key) as Hky.
    { unfold d_keys. cbn. rewrite bool_decide_eq_false_2 by done. cbn.
      rewrite decide_True by done. rewrite s32_id by lia. done. }
    assert (∀ j, j ∈ l → d_keys ks x key (y :: l) j = ks j) as Hkj.
    { intros j Hj. unfold d_keys. cbn. rewrite bool_decide_eq_false_2 by done. cbn.
      rewrite !decide_False by congruence. done. }
    cbn [alarms deltas_ok add_alarm]. rewrite Hkx, Hky, bool_decide_eq_false_2 by lia.
    replace (base + key + (ks y - key)) with (base + ks y) by lia. split.
    + by rewrite (alarms_ext ks) by done.
    + split; [lia|]. split; [lia|]. by eapply deltas_ext, Hok.
Qed.

(** ** unsleep removes an alarm *)

(** The keys after unsleep: the successor takes over the delay. *)
Definition u_keys (ks : Z → Z) (pid : Z) (l2 : list Z) (j : Z) : Z :=
  if decide (head l2 = Some j) then s32 (ks j + ks pid) else ks j.

Lemma no_alarm_out pid ks base l : pid ∉ l → no_alarm pid (alarms ks base l) = alarms ks base l.
Proof.
  revert base. induction l as [|x l IH]; intros base Hp; cbn; [done|].
  apply not_elem_of_cons in Hp as [Hx Hp]. rewrite decide_False by congruence.
  f_equal. by apply IH.
Qed.

Lemma unsleep_alarms ks pid l1 l2 : ∀ base,
  NoDup (l1 ++ pid :: l2) → 0 ≤ base → deltas_ok ks base (l1 ++ pid :: l2) →
  alarms (u_keys ks pid l2) base (l1 ++ l2) = no_alarm pid (alarms ks base (l1 ++ pid :: l2)) ∧
  deltas_ok (u_keys ks pid l2) base (l1 ++ l2).
Proof.
  induction l1 as [|x l1 IH]; intros base Hnd Hb; cbn [app alarms deltas_ok].
  - intros [Hp Hok]. apply NoDup_cons in Hnd as [Hpl Hnd].
    cbn [no_alarm]. rewrite decide_True by done. rewrite no_alarm_out by done.
    destruct l2 as [|y l2]; cbn in *; [split; [done|lia]|]. destruct Hok as [Hy Hok].
    pose proof (deltas_le _ _ _ Hok) as Hle. unfold INT_MAX in *.
    unfold u_keys. cbn. rewrite decide_True by done. rewrite s32_id by lia.
    apply NoDup_cons in Hnd as [Hyl Hnd].
    assert (∀ j, j ∈ l2 → (if decide (Some y = Some j) then s32 (ks j + ks pid) else ks j) = ks j) as He.
    { intros j Hj. rewrite decide_False; [done|]. intros [= ->]. done. }
    replace (base + (ks y + ks pid)) with (base + ks pid + ks y) by lia.
    split; [|split; [lia|]].
    + f_equal. by apply alarms_ext.
    + by eapply deltas_ext, Hok.
  - intros [Hx Hok]. apply NoDup_cons in Hnd as [Hxl Hnd].
    destruct (IH (base + ks x) Hnd ltac:(lia) Hok) as [IHa IHd].
    assert (u_keys ks pid l2 x = ks x) as Hux.
    { unfold u_keys. rewrite decide_False; [done|]. intros Hh%head_Some_elem_of.
      apply Hxl. rewrite elem_of_app, elem_of_cons. auto. }
    rewrite Hux. cbn [no_alarm]. rewrite decide_False, IHa; [done|].
    intros ->. apply Hxl. rewrite elem_of_app, elem_of_cons. auto.
Qed.

(** ** A clock tick decrements the first key *)

Definition tick_keys (ks : Z → Z) (l : list Z) (j : Z) : Z :=
  if decide (head l = Some j) then s32 (ks j - 1) else ks j.

Lemma alarms_shift ks base l c :
  alarms ks (base - c) l = (λ '(x, d), (x, d - c)) <$> alarms ks base l.
Proof.
  revert base. induction l as [|x l IH]; intros base; cbn; [done|].
  rewrite <- IH. replace (base + ks x - c) with (base - c + ks x) by lia. done.
Qed.

Lemma tick_keys_alarms ks l :
  NoDup l → deltas_ok ks 0 l → alarms (tick_keys ks l) 0 l = tick_alarms (alarms ks 0 l).
Proof.
  intros Hnd Hok. destruct l as [|x l]; [done|]. destruct Hok as [Hx Hok].
  pose proof (deltas_le _ _ _ Hok) as Hle. unfold INT_MAX in Hle.
  apply NoDup_cons in Hnd as [Hxl Hnd].
  assert (tick_keys ks (x :: l) x = ks x - 1) as Ht.
  { unfold tick_keys. cbn. by rewrite decide_True, s32_id by (done || lia). }
  unfold tick_alarms. cbn [alarms fmap list_fmap]. rewrite Ht, <- alarms_shift.
  replace (0 + (ks x - 1)) with (0 + ks x - 1) by lia. f_equal.
  apply alarms_ext. intros j Hj. unfold tick_keys. cbn. rewrite decide_False; [done|].
  intros [= ->]. done.
Qed.

(** ** The processes that wakeup takes *)

(** wakeup takes processes from the front while the first key is not
    positive. *)
Fixpoint due (ks : Z → Z) (l : list Z) : list Z * list Z :=
  match l with
  | [] => ([], [])
  | x :: r => if bool_decide (ks x ≤ 0) then (x :: (due ks r).1, (due ks r).2) else ([], l)
  end.

Lemma due_app ks l : (due ks l).1 ++ (due ks l).2 = l.
Proof. induction l as [|x l IH]; cbn; [done|]. case_bool_decide; cbn; [by rewrite IH|done]. Qed.

Lemma deltas_shift ks base c l : deltas_ok ks base l → c ≤ base → deltas_ok ks c l.
Proof.
  revert base c. induction l as [|x l IH]; intros base c; cbn; [lia|].
  intros [? ?] ?. split; [done|]. eapply IH; [done|lia].
Qed.

(** When no delta is negative these are the expired alarms. *)
Lemma due_alarms ks l :
  deltas_ok ks 0 l →
  (due ks l).1 = expired (alarms ks 0 l) ∧
  alarms ks 0 (due ks l).2 = pending (alarms ks 0 l) ∧ deltas_ok ks 0 (due ks l).2.
Proof.
  induction l as [|x l IH]; cbn [deltas_ok due alarms expired pending]; [done|].
  intros [Hx Hok]. rewrite Z.add_0_l in *.
  destruct (decide (ks x ≤ 0)) as [Hle|Hgt].
  - replace (ks x) with 0 in * by lia. rewrite !bool_decide_eq_true_2 by done. cbn.
    destruct (IH Hok) as (-> & -> & ?). done.
  - rewrite !bool_decide_eq_false_2 by done. cbn [fst snd alarms deltas_ok].
    by rewrite Z.add_0_l.
Qed.
