(* ===== verification/Heap.v ===== *)
(** Memory and the heap: system/meminit.c, getmem.c, freemem.c, getstk.c and
    include/memory.h.

    Memory is a map from word addresses (multiples of 4) to 32-bit words; a
    load or store at any other address is a fault ([None]).  The free list is
    a linked list of headers inside the free blocks, [{mnext; mlength}] at the
    block's first two words; its abstract view is a list of (address, length). *)

From S2P Require Import Prelude Types.

Record memblk := Memblk { mnext : Z; mlength : Z }.

Record heap := Heap {
  mem : gmap Z Z;
  memlist : memblk;
  minheap : Z;
  maxheap : Z }.

Definition set_mem m h := Heap m (memlist h) (minheap h) (maxheap h).
Definition set_memlist b h := Heap (mem h) b (minheap h) (maxheap h).

(** Load and store of a word. *)
Definition ld (a : Z) (h : heap) : option Z := mem h !! a.
Definition st (a v : Z) (h : heap) : option heap :=
  _ ← mem h !! a; Some (set_mem (<[a := v]> (mem h)) h).

(** [roundmb]: round up to a multiple of the block size. *)
Definition roundmb (x : Z) : Z := Z.land (u32 (7 + x)) (Z.lnot 7).
Definition truncmb (x : Z) : Z := Z.land (u32 x) (Z.lnot 7).

(** The pointer value of [(char * )SYSERR]. *)
Definition SYSERR_PTR : Z := u32 SYSERR.

(** A [struct memblk *] that may point at the global [memlist]. *)
Inductive bptr := BHead | Blk (a : Z).

Definition get_mlength (p : bptr) (h : heap) : option Z :=
  match p with BHead => Some (mlength (memlist h)) | Blk a => ld (a + 4) h end.
Definition set_mnext (p : bptr) (v : Z) (h : heap) : option heap :=
  match p with
  | BHead => Some (set_memlist (Memblk v (mlength (memlist h))) h)
  | Blk a => st a v h
  end.
Definition set_mlength (p : bptr) (v : Z) (h : heap) : option heap :=
  match p with
  | BHead => Some (set_memlist (Memblk (mnext (memlist h)) v) h)
  | Blk a => st (a + 4) v h
  end.

(** [memlist.mlength += d] *)
Definition add_free (d : Z) (h : heap) : heap :=
  set_memlist (Memblk (mnext (memlist h)) (u32 (mlength (memlist h) + d))) h.

(** A walk of the free list visits a header at most once. *)
Definition walk_fuel (h : heap) : nat := S (size (mem h)).

(** ** meminit.c: [linker_end] is the linker's symbol [end]. *)
Definition MAXADDR : Z := 2684354560.

Definition meminit (linker_end : Z) (h : heap) : option heap :=
  let h := Heap (mem h) (memlist h) linker_end MAXADDR in
  let h := set_memlist (Memblk (minheap h) (mlength (memlist h))) h in
  let memptr := mnext (memlist h) in
  h ← st memptr 0 h;
  let len := u32 (maxheap h - minheap h) in
  h ← st (memptr + 4) len h;
  Some (set_memlist (Memblk (mnext (memlist h)) len) h).

(** ** getmem.c *)

Fixpoint getmem_loop (fuel : nat) (nbytes : Z) (prev : bptr) (curr : Z) (h : heap) :
    option (Z * heap) :=
  match fuel with
  | O => None
  | S fuel =>
    if bool_decide (curr = 0) then Some (SYSERR_PTR, h)
    else
      len ← ld (curr + 4) h;
      if bool_decide (len = nbytes) then
        nxt ← ld curr h;
        h ← set_mnext prev nxt h;
        Some (curr, add_free (- nbytes) h)
      else if bool_decide (nbytes < len) then
        let leftover := u32 (curr + nbytes) in
        h ← set_mnext prev leftover h;
        nxt ← ld curr h;
        h ← st leftover nxt h;
        len ← ld (curr + 4) h;
        h ← st (leftover + 4) (u32 (len - nbytes)) h;
        Some (curr, add_free (- nbytes) h)
      else
        nxt ← ld curr h;
        getmem_loop fuel nbytes (Blk curr) nxt h
  end.

Definition getmem (nbytes : Z) (h : heap) : option (Z * heap) :=
  if bool_decide (nbytes = 0) then Some (SYSERR_PTR, h)
  else
    let nbytes := roundmb nbytes in
    getmem_loop (walk_fuel h) nbytes BHead (mnext (memlist h)) h.

(** ** getstk.c: the last block that fits, allocated from its top. *)

Fixpoint getstk_loop (fuel : nat) (nbytes : Z) (prev : bptr) (curr : Z)
    (fits : Z) (fitsprev : bptr) (h : heap) : option (Z * bptr) :=
  match fuel with
  | O => None
  | S fuel =>
    if bool_decide (curr = 0) then Some (fits, fitsprev)
    else
      len ← ld (curr + 4) h;
      let '(fits, fitsprev) :=
        if bool_decide (nbytes ≤ len) then (curr, prev) else (fits, fitsprev) in
      nxt ← ld curr h;
      getstk_loop fuel nbytes (Blk curr) nxt fits fitsprev h
  end.

Definition getstk (nbytes : Z) (h : heap) : option (Z * heap) :=
  if bool_decide (nbytes = 0) then Some (SYSERR_PTR, h)
  else
    let nbytes := roundmb nbytes in
    '(fits, fitsprev) ← getstk_loop (walk_fuel h) nbytes BHead (mnext (memlist h)) 0 (Blk 0) h;
    if bool_decide (fits = 0) then Some (SYSERR_PTR, h)
    else
      len ← ld (fits + 4) h;
      if bool_decide (nbytes = len) then
        nxt ← ld fits h;
        h ← set_mnext fitsprev nxt h;
        Some (u32 (fits + nbytes - 4), add_free (- nbytes) h)
      else
        h ← st (fits + 4) (u32 (len - nbytes)) h;
        len ← ld (fits + 4) h;
        let fits := u32 (fits + len) in
        Some (u32 (fits + nbytes - 4), add_free (- nbytes) h).

(** ** freemem.c *)

Fixpoint freemem_walk (fuel : nat) (block : Z) (prev : bptr) (next : Z) (h : heap) :
    option (bptr * Z) :=
  match fuel with
  | O => None
  | S fuel =>
    if bool_decide (next ≠ 0) && bool_decide (next < block) then
      nxt ← ld next h;
      freemem_walk fuel block (Blk next) nxt h
    else Some (prev, next)
  end.

(** [(uint32) p]; the address of the global [memlist] is not modelled. *)
Definition baddr (p : bptr) : option Z := match p with BHead => None | Blk a => Some a end.

(** Coalesce with the previous block or add the block to the free list; the
    result is the block that now holds the memory. *)
Definition freemem_link (prev : bptr) (top block nbytes next : Z) (h : heap) :
    option (bptr * heap) :=
  if bool_decide (top = block) then
    len ← get_mlength prev h;
    h ← set_mlength prev (u32 (len + nbytes)) h;
    Some (prev, h)
  else
    h ← st block next h;
    h ← st (block + 4) nbytes h;
    h ← set_mnext prev block h;
    Some (Blk block, h).

(** Coalesce with the next block if adjacent. *)
Definition freemem_join (block : bptr) (next : Z) (h : heap) : option heap :=
  a ← baddr block;
  len ← get_mlength block h;
  if bool_decide (u32 (a + len) = next) then
    nlen ← ld (next + 4) h;
    h ← set_mlength block (u32 (len + nlen)) h;
    nnxt ← ld next h;
    set_mnext block nnxt h
  else Some h.

Definition freemem (blkaddr nbytes : Z) (h : heap) : option (Z * heap) :=
  if bool_decide (nbytes = 0) || bool_decide (blkaddr < minheap h)
     || bool_decide (maxheap h < blkaddr) then Some (SYSERR, h)
  else
    let nbytes := roundmb nbytes in
    let block := blkaddr in
    '(prev, next) ← freemem_walk (walk_fuel h) block BHead (mnext (memlist h)) h;
    top ← match prev with
          | BHead => Some 0
          | Blk p => len ← ld (p + 4) h; Some (u32 (p + len))
          end;
    let is_head := match prev with BHead => true | Blk _ => false end in
    if (negb is_head && bool_decide (block < top))
       || (bool_decide (next ≠ 0) && bool_decide (next < u32 (block + nbytes)))
    then Some (SYSERR, h)
    else
      let h := add_free nbytes h in
      '(block, h) ← freemem_link prev top block nbytes next h;
      h ← freemem_join block next h;
      Some (OK, h).

(** [freestk(p, len)] of memory.h *)
Definition freestk (p len : Z) (h : heap) : option (Z * heap) :=
  freemem (u32 (u32 (p - roundmb len) + 4)) (roundmb len) h.

(** * The abstract view *)

(** The address of the first block, [z] when there is none. *)
Definition first_or (l : list (Z * Z)) (z : Z) : Z :=
  match l with [] => z | (a, _) :: _ => a end.

(** The headers of the blocks [l] are linked in memory; the last one points
    at [z]. *)
Fixpoint fseg (m : gmap Z Z) (l : list (Z * Z)) (z : Z) : Prop :=
  match l with
  | [] => True
  | (a, len) :: r => m !! a = Some (first_or r z) ∧ m !! (a + 4) = Some len ∧ fseg m r z
  end.

(** Blocks are aligned, at least a header long, in address order, above [lo],
    and no two of them touch; the last one ends by [hi]. *)
Fixpoint wfb (lo : Z) (l : list (Z * Z)) (hi : Z) : Prop :=
  match l with
  | [] => lo ≤ hi
  | (a, len) :: r => lo < a ∧ a mod 8 = 0 ∧ len mod 8 = 0 ∧ 8 ≤ len ∧ wfb (a + len) r hi
  end.

Fixpoint end_of (lo : Z) (l : list (Z * Z)) : Z :=
  match l with [] => lo | (a, len) :: r => end_of (a + len) r end.

Fixpoint total (l : list (Z * Z)) : Z :=
  match l with [] => 0 | (_, len) :: r => len + total r end.

(** Byte [y] belongs to a free block. *)
Definition free_at (l : list (Z * Z)) (y : Z) : Prop :=
  Exists (λ b, b.1 ≤ y < b.1 + b.2) l.

Record heap_ok (h : heap) (l : list (Z * Z)) : Prop := HeapOk {
  hk_mem : ∀ a, is_Some (mem h !! a) ↔ minheap h ≤ a < maxheap h ∧ a mod 4 = 0;
  hk_min : 0 < minheap h ∧ minheap h mod 8 = 0;
  hk_max : minheap h < maxheap h ∧ maxheap h < 4294967288 ∧ maxheap h mod 8 = 0;
  hk_first : mnext (memlist h) = first_or l 0;
  hk_list : fseg (mem h) l 0;
  hk_wf : wfb (minheap h - 1) l (maxheap h);
  hk_total : mlength (memlist h) = total l }.

(** First fit, from the bottom of the block. *)
Fixpoint alloc_first (n : Z) (l : list (Z * Z)) : option (Z * list (Z * Z)) :=
  match l with
  | [] => None
  | (a, len) :: r =>
    if bool_decide (len = n) then Some (a, r)
    else if bool_decide (n < len) then Some (a, (a + n, len - n) :: r)
    else '(x, r') ← alloc_first n r; Some (x, (a, len) :: r')
  end.

(** Last fit, from the top of the block; the result is the lowest address. *)
Fixpoint alloc_last (n : Z) (l : list (Z * Z)) : option (Z * list (Z * Z)) :=
  match l with
  | [] => None
  | (a, len) :: r =>
    match alloc_last n r with
    | Some (x, r') => Some (x, (a, len) :: r')
    | None =>
      if bool_decide (n = len) then Some (a, r)
      else if bool_decide (n < len) then Some (a + (len - n), (a, len - n) :: r)
      else None
    end
  end.

(** ** Well-formed free lists *)

Lemma wfb_app lo l1 l2 hi :
  wfb lo (l1 ++ l2) hi ↔ wfb lo l1 (end_of lo l1) ∧ wfb (end_of lo l1) l2 hi.
Proof.
  revert lo. induction l1 as [|[a len] l1 IH]; intros lo; cbn; [naive_solver lia|].
  rewrite IH. tauto.
Qed.

Lemma wfb_le lo l hi : wfb lo l hi → lo ≤ hi.
Proof.
  revert lo. induction l as [|[a len] l IH]; intros lo; cbn; [done|].
  intros (? & _ & _ & ? & ?%IH). lia.
Qed.

Lemma wfb_weaken lo lo' l hi hi' : wfb lo l hi → lo' ≤ lo → hi ≤ hi' → wfb lo' l hi'.
Proof.
  revert lo lo'. induction l as [|[a len] l IH]; intros lo lo'; cbn; [lia|].
  intros (? & ? & ? & ? & Hw) ? ?. split_and!; try done; [lia|]. eapply IH; eauto. lia.
Qed.

Lemma wfb_in lo l hi b :
  wfb lo l hi → b ∈ l →
  lo < b.1 ∧ b.1 mod 8 = 0 ∧ b.2 mod 8 = 0 ∧ 8 ≤ b.2 ∧ b.1 + b.2 ≤ hi.
Proof.
  revert lo. induction l as [|[a len] l IH]; intros lo; cbn; [by intros _ ?%not_elem_of_nil|].
  intros (? & ? & ? & ? & Hw) [-> |Hb]%elem_of_cons; cbn.
  - apply wfb_le in Hw. lia.
  - specialize (IH _ Hw Hb). lia.
Qed.

Lemma first_or_app l1 l2 z : first_or (l1 ++ l2) z = first_or l1 (first_or l2 z).
Proof. destruct l1 as [|[? ?] ?]; done. Qed.

Lemma fseg_app m l1 l2 z :
  fseg m (l1 ++ l2) z ↔ fseg m l1 (first_or l2 z) ∧ fseg m l2 z.
Proof.
  induction l1 as [|[a len] l1 IH]; cbn; [tauto|]. rewrite IH, first_or_app. tauto.
Qed.

Lemma fseg_frame m m' l z :
  fseg m l z → (∀ b, b ∈ l → m' !! b.1 = m !! b.1 ∧ m' !! (b.1 + 4) = m !! (b.1 + 4)) →
  fseg m' l z.
Proof.
  induction l as [|[a len] l IH]; cbn; [done|]. intros (Ha & Hl & Hs) Hf.
  destruct (Hf (a, len) ltac:(left)) as [Hf1 Hf2]. cbn in Hf1, Hf2.
  rewrite Hf1, Hf2. split_and!; try done. apply IH; [done|]. intros b Hb. apply Hf. by right.
Qed.

Lemma total_app l1 l2 : total (l1 ++ l2) = total l1 + total l2.
Proof. induction l1 as [|[a len] l1 IH]; cbn; [done|]. rewrite IH. lia. Qed.

Lemma wfb_total lo l hi : wfb lo l hi → 0 ≤ total l ≤ hi - lo.
Proof.
  revert lo. induction l as [|[a len] l IH]; intros lo; cbn; [lia|].
  intros (? & ? & ? & ? & Hw%IH). lia.
Qed.

Lemma free_at_app l1 l2 y : free_at (l1 ++ l2) y ↔ free_at l1 y ∨ free_at l2 y.
Proof. apply Exists_app. Qed.

Lemma free_at_cons a len l y : free_at ((a, len) :: l) y ↔ a ≤ y < a + len ∨ free_at l y.
Proof. apply Exists_cons. Qed.

Lemma free_at_nil y : ¬ free_at [] y.
Proof. by intros H%Exists_nil. Qed.

Lemma wfb_free lo l hi y : wfb lo l hi → free_at l y → lo < y < hi.
Proof.
  intros Hw [b [Hb Hy]]%Exists_exists. 
  destruct (wfb_in _ _ _ _ Hw Hb). lia.
Qed.

(** A well-formed free list is determined by the bytes it holds. *)
Lemma wfb_unique lo l1 l2 hi1 hi2 :
  wfb lo l1 hi1 → wfb lo l2 hi2 → (∀ y, free_at l1 y ↔ free_at l2 y) → l1 = l2.
Proof.
  revert lo l2. induction l1 as [|[a1 n1] l1 IH]; intros lo [|[a2 n2] l2] H1 H2 Hf; [done|..].
  - destruct H2 as (? & _ & _ & ? & _). destruct (free_at_nil a2).
    apply Hf, free_at_cons. lia.
  - destruct H1 as (? & _ & _ & ? & _). destruct (free_at_nil a1).
    apply Hf, free_at_cons. lia.
  - cbn in H1, H2. destruct H1 as (? & ? & ? & ? & H1), H2 as (? & ? & ? & ? & H2).
    assert (∀ y, y < a1 + n1 + 1 → ¬ free_at l1 y) as N1.
    { intros y Hy Hfr. apply (wfb_free _ _ _ _ H1) in Hfr. lia. }
    assert (∀ y, y < a2 + n2 + 1 → ¬ free_at l2 y) as N2.
    { intros y Hy Hfr. apply (wfb_free _ _ _ _ H2) in Hfr. lia. }
    setoid_rewrite free_at_cons in Hf.
    assert (a1 = a2) as ->.
    { pose proof (proj1 (Hf a1) ltac:(lia)) as [?|F1]; pose proof (proj2 (Hf a2) ltac:(lia)) as [?|F2];
        try lia; [by apply N1 in F2; lia|by apply N2 in F1; lia|].
      apply (wfb_free _ _ _ _ H2) in F1. apply (wfb_free _ _ _ _ H1) in F2. lia. }
    assert (n1 = n2) as ->.
    { destruct (Z.lt_trichotomy n1 n2) as [Hn|[Hn|Hn]]; [|done|].
      - destruct (proj2 (Hf (a2 + n1)) ltac:(lia)) as [?|F]; [lia|]. apply N1 in F; [done|lia].
      - destruct (proj1 (Hf (a2 + n2)) ltac:(lia)) as [?|F]; [lia|]. apply N2 in F; [done|lia]. }
    f_equal. eapply IH; [done..|]. intros y. split; intros F.
    + destruct (proj1 (Hf y) ltac:(by right)) as [?|?]; [|done]. apply N1 in F; [done|lia].
    + destruct (proj2 (Hf y) ltac:(by right)) as [?|?]; [|done]. apply N2 in F; [done|lia].
Qed.

(** ** The allocation policies *)

(** What taking [n] bytes at [x] out of [l] means, whatever the policy. *)
Record taken (lo hi n x : Z) (l l' : list (Z * Z)) : Prop := Taken {
  tk_wf : wfb lo l' hi;
  tk_align : x mod 8 = 0;
  tk_was_free : ∀ y, x ≤ y < x + n → free_at l y;
  tk_free : ∀ y, free_at l' y ↔ free_at l y ∧ ¬ (x ≤ y < x + n);
  tk_total : total l' = total l - n }.

Lemma taken_exact lo hi a len r :
  wfb lo ((a, len) :: r) hi → taken lo hi len a ((a, len) :: r) r.
Proof.
  intros Hw. pose proof Hw as (? & ? & ? & ? & Hw'). split.
  - eapply wfb_weaken; [done|lia|lia].
  - done.
  - intros y Hy. apply free_at_cons. by left.
  - intros y. rewrite free_at_cons. split; [|tauto].
    intros Hf. pose proof (wfb_free _ _ _ _ Hw' Hf). split; [by right|lia].
  - cbn. lia.
Qed.

Lemma taken_low lo hi a len n r :
  wfb lo ((a, len) :: r) hi → 8 ≤ n < len → n mod 8 = 0 →
  taken lo hi n a ((a, len) :: r) ((a + n, len - n) :: r).
Proof.
  intros Hw Hn Hm. pose proof Hw as (? & ? & ? & ? & Hw'). split.
  - cbn. replace (a + n + (len - n)) with (a + len) by lia.
    split_and!; try done; Z.to_euclidean_division_equations; lia.
  - done.
  - intros y Hy. apply free_at_cons. left. lia.
  - intros y. rewrite !free_at_cons. split.
    + intros [?|Hf]; [lia|]. pose proof (wfb_free _ _ _ _ Hw' Hf). split; [by right|lia].
    + intros [[?|?] ?]; [left; lia|by right].
  - cbn. lia.
Qed.

Lemma taken_high lo hi a len n r :
  wfb lo ((a, len) :: r) hi → 8 ≤ n < len → n mod 8 = 0 →
  taken lo hi n (a + (len - n)) ((a, len) :: r) ((a, len - n) :: r).
Proof.
  intros Hw Hn Hm. pose proof Hw as (? & ? & ? & ? & Hw'). split.
  - cbn. split_and!; try done; try (Z.to_euclidean_division_equations; lia).
    eapply wfb_weaken; [done|lia|lia].
  - Z.to_euclidean_division_equations; lia.
  - intros y Hy. apply free_at_cons. left. lia.
  - intros y. rewrite !free_at_cons. split.
    + intros [?|Hf]; [lia|]. pose proof (wfb_free _ _ _ _ Hw' Hf). split; [by right|lia].
    + intros [[?|?] ?]; [left; lia|by right].
  - cbn. lia.
Qed.

Lemma taken_cons lo hi n x a len r r' :
  wfb lo ((a, len) :: r) hi → 0 < n → taken (a + len) hi n x r r' →
  taken lo hi n x ((a, len) :: r) ((a, len) :: r').
Proof.
  intros (? & ? & ? & ? & Hw) Hn [Hw' Hal Hf1 Hf2 Ht]. split.
  - done.
  - done.
  - intros y Hy. apply free_at_cons. right. auto.
  - intros y. rewrite !free_at_cons, Hf2. split; [|tauto].
    intros [?|?]; [|tauto]. split; [by left|]. intros Hy.
    pose proof (wfb_free _ _ _ _ Hw (Hf1 _ Hy)). lia.
  - cbn. lia.
Qed.

Lemma alloc_first_taken n l lo hi x l' :
  wfb lo l hi → 8 ≤ n → n mod 8 = 0 → alloc_first n l = Some (x, l') → taken lo hi n x l l'.
Proof.
  revert lo x l'. induction l as [|[a len] r IH]; intros lo x l' Hw Hn Hm; cbn [alloc_first]; [done|].
  repeat case_bool_decide.
  - intros [= <- <-]. subst. by apply taken_exact.
  - intros [= <- <-]. apply taken_low; [done|lia|done].
  - destruct (alloc_first n r) as [[y r']|] eqn:E; [|done]. cbn. intros [= <- <-].
    apply taken_cons; [done|lia|]. apply IH; try done. apply Hw.
Qed.

Lemma alloc_first_None n l :
  alloc_first n l = None ↔ Forall (λ b, b.2 < n) l.
Proof.
  induction l as [|[a len] r IH]; cbn [alloc_first]; [by split; [constructor|]|].
  rewrite Forall_cons. cbn. repeat case_bool_decide.
  - split; [done|lia].
  - split; [done|lia].
  - destruct (alloc_first n r) as [[? ?]|]; cbn; [|naive_solver lia].
    split; [done|]. intros [_ Hr]. by apply IH in Hr.
Qed.

Lemma alloc_last_taken n l lo hi x l' :
  wfb lo l hi → 8 ≤ n → n mod 8 = 0 → alloc_last n l = Some (x, l') → taken lo hi n x l l'.
Proof.
  revert lo x l'. induction l as [|[a len] r IH]; intros lo x l' Hw Hn Hm; cbn [alloc_last]; [done|].
  destruct (alloc_last n r) as [[y r']|] eqn:E.
  - intros [= <- <-]. apply taken_cons; [done|lia|]. apply IH; try done. apply Hw.
  - repeat case_bool_decide; [| |done]; intros [= <- <-]; subst.
    + by apply taken_exact.
    + apply taken_high; [done|lia|done].
Qed.

Lemma alloc_last_None n l :
  alloc_last n l = None ↔ Forall (λ b, b.2 < n) l.
Proof.
  induction l as [|[a len] r IH]; cbn [alloc_last]; [by split; [constructor|]|].
  rewrite Forall_cons. cbn. destruct (alloc_last n r) as [[? ?]|].
  - split; [done|]. intros [_ Hr]. by apply IH in Hr.
  - repeat case_bool_decide; naive_solver lia.
Qed.

(** ** roundmb *)

Lemma land_lnot7 y : Z.land y (Z.lnot 7) = 8 * (y / 8).
Proof.
  rewrite <- Z.ldiff_land. change 7 with (Z.ones 3). rewrite Z.ldiff_ones_r by lia.
  rewrite Z.shiftl_mul_pow2, Z.shiftr_div_pow2 by lia.
  change (2 ^ 3) with 8. lia.
Qed.

Lemma roundmb_spec x :
  0 ≤ x ≤ 4294967288 → roundmb x = 8 * ((x + 7) / 8).
Proof. intros. unfold roundmb. rewrite u32_id, land_lnot7 by lia. by rewrite Z.add_comm. Qed.

Lemma roundmb_bounds x :
  0 < x ≤ 4294967288 → x ≤ roundmb x < x + 8 ∧ roundmb x mod 8 = 0 ∧ 8 ≤ roundmb x.
Proof. intros. rewrite roundmb_spec by lia. Z.to_euclidean_division_equations; lia. Qed.

Lemma roundmb_fix x :
  0 ≤ x ≤ 4294967288 → x mod 8 = 0 → roundmb x = x.
Proof. intros. rewrite roundmb_spec by lia. Z.to_euclidean_division_equations; lia. Qed.

(** * The C code implements the policies *)

Definition ptr_of (l : list (Z * Z)) : bptr :=
  match last l with Some (a, _) => Blk a | None => BHead end.

(** [memlist] and the headers of [l] form a list whose last link is [z]. *)
Definition hseg (h : heap) (l : list (Z * Z)) (z : Z) : Prop :=
  mnext (memlist h) = first_or l z ∧ fseg (mem h) l z.

(** The heap changed only in the free bytes of [l]. *)
Record hframe (l : list (Z * Z)) (h h' : heap) : Prop := HFrame {
  hf_min : minheap h' = minheap h;
  hf_max : maxheap h' = maxheap h;
  hf_mem : ∀ a, ¬ free_at l a → mem h' !! a = mem h !! a }.

Lemma wfb_mid lo l1 a len r hi :
  wfb lo (l1 ++ (a, len) :: r) hi →
  (∀ b, b ∈ l1 → lo < b.1 ∧ 8 ≤ b.2 ∧ b.1 + b.2 < a) ∧
  (∀ b, b ∈ r → a + len < b.1 ∧ 8 ≤ b.2 ∧ b.1 + b.2 ≤ hi) ∧
  lo < a ∧ 8 ≤ len ∧ a + len ≤ hi ∧ a mod 8 = 0 ∧ len mod 8 = 0.
Proof.
  intros Hw. pose proof (wfb_in _ _ _ (a, len) Hw ltac:(set_solver)) as Ha. cbn in Ha.
  apply wfb_app in Hw as [Hw1 Hw2]. cbn in Hw2. destruct Hw2 as (? & ? & ? & ? & Hw2).
  split_and!; try tauto || lia.
  - intros b Hb. pose proof (wfb_in _ _ _ _ Hw1 Hb). lia.
  - intros b Hb. pose proof (wfb_in _ _ _ _ Hw2 Hb). lia.
Qed.

Lemma fseg_insert m l z k v :
  fseg m l z → (∀ b, b ∈ l → k ≠ b.1 ∧ k ≠ b.1 + 4) → fseg (<[k := v]> m) l z.
Proof.
  intros Hs Hk. eapply fseg_frame; [done|]. intros b Hb. specialize (Hk b Hb).
  rewrite !lookup_insert_ne by tauto. done.
Qed.

Lemma st_spec a v h :
  is_Some (mem h !! a) → st a v h = Some (set_mem (<[a := v]> (mem h)) h).
Proof. intros [w Hw]. unfold st. by rewrite Hw. Qed.

Lemma dom_insert_some (m : gmap Z Z) a v :
  is_Some (m !! a) → ∀ k, is_Some (<[a := v]> m !! k) ↔ is_Some (m !! k).
Proof.
  intros Ha k. rewrite lookup_insert. case_decide; subst; [|done]. split; [done|by eexists].
Qed.

Lemma last_snoc_inv {A} (l : list A) : l = [] ∨ ∃ l' x, l = l' ++ [x].
Proof. destruct l as [|x l _] using rev_ind; eauto. Qed.

(** Writing the link of the last block of [l]. *)
Lemma set_mnext_ptr h lo hi l z v :
  hseg h l z → wfb lo l hi →
  ∃ h', set_mnext (ptr_of l) v h = Some h' ∧ hseg h' l v ∧
    mlength (memlist h') = mlength (memlist h) ∧
    minheap h' = minheap h ∧ maxheap h' = maxheap h ∧
    (∀ a, is_Some (mem h' !! a) ↔ is_Some (mem h !! a)) ∧
    (∀ a, (∀ b, b ∈ l → a ≠ b.1) → mem h' !! a = mem h !! a).
Proof.
  intros [Hf Hs] Hw. destruct (last_snoc_inv l) as [->|(l' & [p plen] & ->)].
  - eexists. split; [done|]. by split_and!.
  - unfold ptr_of. rewrite last_snoc. cbn [set_mnext].
    apply fseg_app in Hs as [Hs1 (Hp & Hpl & _)].
    rewrite st_spec by (by eexists). eexists. split; [done|]. cbn.
    destruct (wfb_mid _ _ _ _ _ _ Hw) as (Hl & _ & _ & ? & _).
    split_and!; try done.
    + split; [cbn; by rewrite Hf, !first_or_app|]. apply fseg_app. cbn. split.
      * apply fseg_insert; [done|]. intros b Hb. specialize (Hl b Hb). lia.
      * rewrite lookup_insert_eq, lookup_insert_ne by lia. done.
    + apply dom_insert_some. by eexists.
    + intros a Ha. rewrite lookup_insert_ne; [done|]. intros <-.
      by apply (Ha (p, plen)); [set_solver|].
Qed.

Lemma heap_range h l a len :
  heap_ok h l → (a, len) ∈ l →
  0 < a ∧ a + len < 4294967288 ∧ 8 ≤ len ∧ a mod 8 = 0 ∧ len mod 8 = 0 ∧
  (∀ y, a ≤ y < a + len → y mod 4 = 0 → is_Some (mem h !! y)).
Proof.
  intros Hok Hin. pose proof (wfb_in _ _ _ _ (hk_wf _ _ Hok) Hin) as Hw. cbn in Hw.
  pose proof (hk_min _ _ Hok). pose proof (hk_max _ _ Hok).
  split_and!; try lia. intros y Hy Hy4. apply (hk_mem _ _ Hok). lia.
Qed.

Lemma not_free_header lo hi l a :
  wfb lo l hi → ¬ free_at l a → ∀ b, b ∈ l → a ≠ b.1 ∧ a ≠ b.1 + 4.
Proof.
  intros Hw Hn b Hb. pose proof (wfb_in _ _ _ _ Hw Hb).
  split; intros ->; apply Hn, Exists_exists; exists b; split; [done|lia|done|lia].
Qed.

Lemma blocks_le_mem h l : heap_ok h l → (length l ≤ size (mem h))%nat.
Proof.
  intros Hok. rewrite <- (length_fmap fst l), <- size_dom.
  assert (NoDup (l.*1)) as Hnd.
  { pose proof (hk_wf _ _ Hok) as Hw. clear Hok. revert Hw. generalize (minheap h - 1).
    induction l as [|[a len] l IH]; intros lo Hw; cbn; [by apply NoDup_nil|].
    destruct Hw as (? & ? & ? & ? & Hw). apply NoDup_cons. split; [|by eapply IH].
    intros [b [Hb Hin]]%list_elem_of_fmap. pose proof (wfb_in _ _ _ _ Hw Hin). lia. }
  rewrite <- (size_list_to_set (C := gset Z) (l.*1)) by done.
  apply subseteq_size. intros a [b [-> Hb]]%elem_of_list_to_set%list_elem_of_fmap.
  apply elem_of_dom. destruct b as [a len].
  destruct (heap_range _ _ _ _ Hok Hb) as (? & ? & ? & ? & ? & Hd). apply Hd; cbn; [lia|].
  Z.to_euclidean_division_equations; lia.
Qed.

Lemma walk_fuel_enough h l : heap_ok h l → (length l < walk_fuel h)%nat.
Proof. intros ?%blocks_le_mem. unfold walk_fuel. lia. Qed.

Lemma ptr_of_snoc l a len : ptr_of (l ++ [(a, len)]) = Blk a.
Proof. unfold ptr_of. by rewrite last_snoc. Qed.

Lemma add_free_total h l d :
  0 ≤ total l < 4294967296 → mlength (memlist h) + d = total l →
  mlength (memlist (add_free d h)) = total l.
Proof. intros ? Hd. cbn. rewrite Hd. by apply u32_id. Qed.

(** The state after a block of [n] bytes at [x] left the free list. *)
Lemma heap_ok_taken h h1 l l' n x :
  heap_ok h l → taken (minheap h - 1) (maxheap h) n x l l' →
  minheap h1 = minheap h → maxheap h1 = maxheap h →
  (∀ a, is_Some (mem h1 !! a) ↔ is_Some (mem h !! a)) →
  hseg h1 l' 0 → mlength (memlist h1) = mlength (memlist h) →
  heap_ok (add_free (- n) h1) l'.
Proof.
  intros Hok Ht Hmin Hmax Hdom [Hf Hs] Hlen.
  pose proof (tk_wf _ _ _ _ _ _ Ht) as Hw. pose proof (wfb_total _ _ _ Hw).
  pose proof (hk_min _ _ Hok) as [? ?]. pose proof (hk_max _ _ Hok) as (? & ? & ?).
  assert (mlength (memlist (add_free (- n) h1)) = total l') as Htot.
  { apply add_free_total; [lia|].
    rewrite Hlen, (hk_total _ _ Hok), (tk_total _ _ _ _ _ _ Ht). lia. }
  split; cbn [mem minheap maxheap memlist add_free set_memlist mnext]; rewrite ?Hmin, ?Hmax;
    try done.
  intros a. rewrite Hdom. apply Hok.
Qed.

Lemma taken_app lo hi n x l1 l2 l2' :
  wfb lo (l1 ++ l2) hi → 0 < n → taken (end_of lo l1) hi n x l2 l2' →
  taken lo hi n x (l1 ++ l2) (l1 ++ l2').
Proof.
  revert lo. induction l1 as [|[a len] l1 IH]; intros lo Hw Hn Ht; [done|].
  apply taken_cons; [done..|]. apply IH; [|done|done]. apply Hw.
Qed.

(** Unlinking a whole block. *)
Lemma unlink_ok h l1 a len r :
  heap_ok h (l1 ++ (a, len) :: r) →
  ∃ h1, set_mnext (ptr_of l1) (first_or r 0) h = Some h1 ∧
    heap_ok (add_free (- len) h1) (l1 ++ r) ∧
    hframe (l1 ++ (a, len) :: r) h (add_free (- len) h1).
Proof.
  intros Hok. pose proof (hk_wf _ _ Hok) as Hw.
  destruct (wfb_mid _ _ _ _ _ _ Hw) as (Hl1 & Hr & _ & ? & _).
  pose proof (hk_list _ _ Hok) as [Hs1 (_ & _ & Hsr)]%fseg_app.
  pose proof (hk_first _ _ Hok) as Hfirst. rewrite first_or_app in Hfirst.
  pose proof Hw as [Hw1 Hw2]%wfb_app.
  destruct (set_mnext_ptr h _ _ l1 a (first_or r 0) (conj Hfirst Hs1) Hw1)
    as (h1 & -> & [Hh1 Hh2] & Hml & Hmin & Hmax & Hd1 & Hfr).
  eexists. split; [done|]. split.
  - eapply heap_ok_taken; try done.
    + apply taken_app; [done|lia|]. apply taken_exact. exact Hw2.
    + split; [by rewrite first_or_app|]. apply fseg_app. split; [done|].
      eapply fseg_frame; [exact Hsr|]. intros b Hb. specialize (Hr _ Hb).
      rewrite !Hfr; [done|intros b' Hb'; specialize (Hl1 _ Hb'); lia..].
  - split; cbn; [done..|]. intros k Hk. apply Hfr. intros b Hb.
    by apply (not_free_header _ _ _ _ Hw Hk); set_solver.
Qed.

Lemma getmem_loop_spec fuel n l1 l2 h :
  heap_ok h (l1 ++ l2) → 8 ≤ n → n mod 8 = 0 → (length l2 < fuel)%nat →
  match alloc_first n l2 with
  | None => getmem_loop fuel n (ptr_of l1) (first_or l2 0) h = Some (SYSERR_PTR, h)
  | Some (x, l2') => ∃ h', getmem_loop fuel n (ptr_of l1) (first_or l2 0) h = Some (x, h') ∧
      heap_ok h' (l1 ++ l2') ∧ hframe (l1 ++ l2) h h'
  end.
Proof.
  revert l1 fuel. induction l2 as [|[a len] r IH]; intros l1 [|fuel] Hok Hn Hm Hf; cbn in Hf; try lia.
  { done. }
  pose proof (hk_wf _ _ Hok) as Hw.
  destruct (wfb_mid _ _ _ _ _ _ Hw) as (Hl1 & Hr & _).
  destruct (heap_range _ _ a len Hok ltac:(set_solver)) as (Ha & Hae & Hlen & Ha8 & Hlen8 & Hdom).
  pose proof (hk_list _ _ Hok) as Hseg. apply fseg_app in Hseg as [Hs1 (Hna & Hla & Hsr)].
  pose proof (hk_first _ _ Hok) as Hfirst. rewrite first_or_app in Hfirst. cbn in Hfirst, Hs1.
  pose proof Hw as [Hw1 Hw2]%wfb_app.
  cbn [getmem_loop first_or alloc_first]. rewrite (bool_decide_eq_false_2 (a = 0)) by lia.
  unfold ld. rewrite Hla. cbn [mbind option_bind].
  case_bool_decide as Heq; [|case_bool_decide as Hlt].
  - (* exact match *)
    subst len. rewrite Hna. cbn [mbind option_bind].
    destruct (unlink_ok _ _ _ _ _ Hok) as (h1 & -> & ? & ?). cbn [mbind option_bind]. eauto.
  - (* split *)
    assert (n + 8 ≤ len) by (Z.to_euclidean_division_equations; lia).
    rewrite (u32_id (a + n)) by lia.
    destruct (set_mnext_ptr h _ _ l1 a (a + n) (conj Hfirst Hs1) Hw1)
      as (h1 & -> & [Hh1 Hh2] & Hml & Hmin & Hmax & Hd1 & Hfr). cbn [mbind option_bind].
    assert (∀ k, a ≤ k → mem h1 !! k = mem h !! k) as Hfr'.
    { intros k Hk. apply Hfr. intros b Hb. specialize (Hl1 _ Hb). lia. }
    rewrite (Hfr' a) by lia. rewrite Hna. cbn [mbind option_bind].
    rewrite st_spec by (apply Hd1, Hdom; [lia|Z.to_euclidean_division_equations; lia]).
    cbn [mbind option_bind set_mem mem]. rewrite lookup_insert_ne by lia.
    rewrite (Hfr' (a + 4)), Hla by lia. cbn [mbind option_bind].
    rewrite (u32_id (len - n)) by lia.
    rewrite st_spec by (cbn; apply dom_insert_some; [|apply Hd1]; [apply Hd1|];
      apply Hdom; first [lia|Z.to_euclidean_division_equations; lia]).
    cbn [mbind option_bind set_mem mem]. eexists. split; [done|]. split.
    + eapply heap_ok_taken; try done.
      * apply taken_app; [done|lia|]. apply taken_low; [exact Hw2|lia|done].
      * intros k. cbn. rewrite !dom_insert_some; [apply Hd1| |];
          try apply dom_insert_some; try apply Hd1; try apply Hdom;
          first [lia|Z.to_euclidean_division_equations; lia].
      * split; cbn; [by rewrite Hh1, first_or_app|]. apply fseg_app. cbn. split_and!.
        -- do 2 (apply fseg_insert; [|intros b Hb; specialize (Hl1 _ Hb); lia]). done.
        -- rewrite lookup_insert_ne by lia. by rewrite lookup_insert_eq.
        -- by rewrite lookup_insert_eq.
        -- do 2 (apply fseg_insert; [|intros b Hb; specialize (Hr _ Hb); lia]).
           eapply fseg_frame; [exact Hsr|]. intros b Hb. specialize (Hr _ Hb).
           rewrite !Hfr' by lia. done.
    + split; cbn; [done..|]. intros k Hk.
      assert (¬ (a ≤ k < a + len)).
      { intros Hk'. apply Hk, free_at_app. right. apply free_at_cons. by left. }
      rewrite !lookup_insert_ne by lia. apply Hfr. intros b Hb.
      by apply (not_free_header _ _ _ _ Hw Hk); set_solver.
  - (* next block *)
    rewrite Hna. cbn [mbind option_bind].
    rewrite (app_assoc _ [_] r : l1 ++ (a, len) :: r = (l1 ++ [(a, len)]) ++ r) in Hok |- *.
    specialize (IH _ fuel Hok Hn Hm ltac:(lia)). rewrite ptr_of_snoc in IH.
    destruct (alloc_first n r) as [[x r']|]; cbn [mbind option_bind]; [|done].
    destruct IH as (h' & ? & ? & ?). exists h'.
    by rewrite (app_assoc _ [_] r' : l1 ++ (a, len) :: r' = (l1 ++ [(a, len)]) ++ r').
Qed.

(** getmem is first fit; what it returns was free, and memory that was not
    free is unchanged. *)
Lemma getmem_spec h l nbytes :
  heap_ok h l → 0 < nbytes ≤ 4294967288 →
  match alloc_first (roundmb nbytes) l with
  | None => getmem nbytes h = Some (SYSERR_PTR, h)
  | Some (x, l') => ∃ h', getmem nbytes h = Some (x, h') ∧ heap_ok h' l' ∧ hframe l h h'
  end.
Proof.
  intros Hok Hn. destruct (roundmb_bounds nbytes Hn) as (? & ? & ?).
  unfold getmem. rewrite bool_decide_eq_false_2 by lia. rewrite (hk_first _ _ Hok).
  apply (getmem_loop_spec _ _ [] l); [done..|]. by apply walk_fuel_enough.
Qed.

Lemma last_fit n (l : list (Z * Z)) :
  Forall (λ b, b.2 < n) l ∨
  ∃ p a len r, l = p ++ (a, len) :: r ∧ n ≤ len ∧ Forall (λ b, b.2 < n) r.
Proof.
  induction l as [|[a len] l IH]; [by left|].
  destruct IH as [IH|(p & a' & len' & r & -> & ? & ?)].
  - destruct (decide (n ≤ len)); [right|left].
    + by exists [], a, len, l.
    + constructor; [cbn; lia|done].
  - right. by exists ((a, len) :: p), a', len', r.
Qed.

Lemma alloc_last_at n p a len r :
  n ≤ len → Forall (λ b, b.2 < n) r →
  alloc_last n (p ++ (a, len) :: r) =
    Some (if bool_decide (n = len) then (a, p ++ r)
          else (a + (len - n), p ++ (a, len - n) :: r)).
Proof.
  intros Hn Hr%alloc_last_None. induction p as [|[b blen] p IH]; cbn [app alloc_last].
  - rewrite Hr. repeat case_bool_decide; done || lia.
  - rewrite IH. by case_bool_decide.
Qed.

Lemma getstk_loop_spec fuel n prev l h fits fitsprev :
  fseg (mem h) l 0 → (∀ b, b ∈ l → b.1 ≠ 0) → (length l < fuel)%nat →
  (Forall (λ b, b.2 < n) l →
     getstk_loop fuel n prev (first_or l 0) fits fitsprev h = Some (fits, fitsprev)) ∧
  (∀ p a len r, l = p ++ (a, len) :: r → n ≤ len → Forall (λ b, b.2 < n) r →
     getstk_loop fuel n prev (first_or l 0) fits fitsprev h =
       Some (a, match last p with Some (b, _) => Blk b | None => prev end)).
Proof.
  revert fuel prev fits fitsprev.
  induction l as [|[b blen] l IH]; intros [|fuel] prev fits fitsprev Hs H0 Hf; cbn in Hf; try lia.
  { split; [done|]. by intros [|? ?] ? ? ? ?. }
  destruct Hs as (Hnb & Hlb & Hs).
  assert (b ≠ 0) by (apply (H0 (b, blen)); left).
  assert (∀ c, c ∈ l → c.1 ≠ 0) as H0' by (intros c Hc; apply H0; by right).
  cbn [getstk_loop first_or]. rewrite bool_decide_eq_false_2 by done.
  unfold ld. rewrite Hlb. cbn [mbind option_bind]. rewrite Hnb. cbn [mbind option_bind].
  split.
  - intros [Hb Hl]%Forall_cons. cbn in Hb. rewrite bool_decide_eq_false_2 by lia. cbn.
    by apply IH; [| |lia|].
  - intros p a len r Heq Hn Hr. destruct p as [|c p]; [injection Heq as -> -> ->|injection Heq as <- ->].
    + rewrite bool_decide_eq_true_2 by done. cbn. by apply IH; [| |lia|].
    + set (ff := if bool_decide (n ≤ blen) then (b, prev) else (fits, fitsprev)).
      destruct ff as [fits' fp'].
      destruct (IH fuel (Blk b) fits' fp' Hs H0' ltac:(lia)) as [_ IH2].
      rewrite (IH2 p a len r eq_refl Hn Hr). f_equal. f_equal.
      destruct (last_snoc_inv p) as [->|(p' & [? ?] & ->)]; [done|].
      change ((b, blen) :: p' ++ [(z, z0)]) with (((b, blen) :: p') ++ [(z, z0)]).
      by rewrite !last_snoc.
Qed.

(** getstk is last fit; it returns the highest word of what it took. *)
Lemma getstk_spec h l nbytes :
  heap_ok h l → 0 < nbytes ≤ 4294967288 →
  match alloc_last (roundmb nbytes) l with
  | None => getstk nbytes h = Some (SYSERR_PTR, h)
  | Some (x, l') => ∃ h', getstk nbytes h = Some (x + roundmb nbytes - 4, h') ∧
      heap_ok h' l' ∧ hframe l h h'
  end.
Proof.
  intros Hok Hnb. destruct (roundmb_bounds nbytes Hnb) as (? & Hm & Hn).
  unfold getstk. rewrite bool_decide_eq_false_2 by lia. set (n := roundmb nbytes) in *.
  pose proof (walk_fuel_enough _ _ Hok) as Hfuel.
  assert (∀ b, b ∈ l → b.1 ≠ 0) as H0.
  { intros [a len] Hb. pose proof (heap_range _ _ _ _ Hok Hb). cbn. lia. }
  destruct (getstk_loop_spec (walk_fuel h) n BHead l h 0 (Blk 0) (hk_list _ _ Hok) H0 Hfuel)
    as [Hnone Hsome].
  rewrite (hk_first _ _ Hok).
  destruct (last_fit n l) as [Hl|(l1 & a & len & r & -> & Hle & Hr)].
  - rewrite (proj2 (alloc_last_None n l) Hl), (Hnone Hl). done.
  - rewrite alloc_last_at, (Hsome l1 a len r) by done. cbn [mbind option_bind].
    change (match last l1 with Some (b, _) => Blk b | None => BHead end) with (ptr_of l1).
    destruct (heap_range _ _ a len Hok ltac:(set_solver)) as (Ha & Hae & Hlen & Ha8 & Hlen8 & Hdom).
    pose proof (hk_wf _ _ Hok) as Hw.
    destruct (wfb_mid _ _ _ _ _ _ Hw) as (Hl1 & Hr' & _).
    pose proof (hk_list _ _ Hok) as [Hs1 (Hna & Hla & Hsr)]%fseg_app. cbn in Hs1.
    pose proof (hk_first _ _ Hok) as Hfirst. rewrite first_or_app in Hfirst. cbn in Hfirst.
    pose proof Hw as [Hw1 Hw2]%wfb_app.
    rewrite (bool_decide_eq_false_2 (a = 0)) by lia.
    unfold ld. rewrite Hla. cbn [mbind option_bind]. case_bool_decide as Heq.
    + subst len. rewrite Hna. cbn [mbind option_bind].
      destruct (unlink_ok _ _ _ _ _ Hok) as (h1 & -> & ? & ?). cbn [mbind option_bind].
      rewrite u32_id by lia. eauto.
    + rewrite (u32_id (len - n)) by lia.
      rewrite st_spec by (by eexists). cbn [mbind option_bind set_mem mem].
      rewrite lookup_insert_eq. cbn [mbind option_bind].
      rewrite (u32_id (a + (len - n))) by lia. rewrite u32_id by lia.
      eexists. split; [done|]. split.
      * eapply heap_ok_taken; try done.
        -- apply taken_app; [done|lia|]. apply taken_high; [exact Hw2|lia|done].
        -- intros k. apply dom_insert_some. by eexists.
        -- split; cbn; [by rewrite Hfirst, first_or_app|]. apply fseg_app. cbn. split_and!.
           ++ apply fseg_insert; [done|]. intros b Hb. specialize (Hl1 _ Hb). lia.
           ++ rewrite lookup_insert_ne by lia. done.
           ++ by rewrite lookup_insert_eq.
           ++ apply fseg_insert; [done|]. intros b Hb. specialize (Hr' _ Hb). lia.
      * split; cbn; [done..|]. intros k Hk. rewrite lookup_insert_ne; [done|]. intros <-.
        apply Hk, free_at_app. right. apply free_at_cons. left. lia.
Qed.

(** ** freemem *)

(** The blocks below [a] and the others. *)
Fixpoint cut (a : Z) (l : list (Z * Z)) : list (Z * Z) * list (Z * Z) :=
  match l with
  | [] => ([], [])
  | (b, len) :: r =>
    if bool_decide (b < a) then ((b, len) :: (cut a r).1, (cut a r).2) else ([], l)
  end.

Lemma cut_app a l : (cut a l).1 ++ (cut a l).2 = l.
Proof. induction l as [|[b len] l IH]; cbn; [done|]. case_bool_decide; cbn; [by rewrite IH|done]. Qed.

Lemma cut_below a l b : b ∈ (cut a l).1 → b.1 < a.
Proof.
  induction l as [|[c len] l IH]; cbn; [by intros ?%not_elem_of_nil|].
  case_bool_decide; cbn; [|by intros ?%not_elem_of_nil].
  intros [-> |Hb]%elem_of_cons; [done|auto].
Qed.

Lemma cut_head a l : ∀ b r, (cut a l).2 = b :: r → a ≤ b.1.
Proof.
  induction l as [|[c len] l IH]; cbn; [done|].
  case_bool_decide; cbn; [done|]. intros b r [= <- <-]. cbn. lia.
Qed.

Lemma ptr_of_cons b blen l : ptr_of ((b, blen) :: l) =
  match last l with Some (a, _) => Blk a | None => Blk b end.
Proof.
  destruct (last_snoc_inv l) as [->|(l' & [a len] & ->)]; [done|].
  change ((b, blen) :: l' ++ [(a, len)]) with (((b, blen) :: l') ++ [(a, len)]).
  by rewrite ptr_of_snoc, last_snoc.
Qed.

Lemma freemem_walk_spec fuel a prev l h :
  fseg (mem h) l 0 → (∀ b, b ∈ l → b.1 ≠ 0) → (length l < fuel)%nat →
  freemem_walk fuel a prev (first_or l 0) h =
    Some (match last (cut a l).1 with Some (b, _) => Blk b | None => prev end,
          first_or (cut a l).2 0).
Proof.
  revert fuel prev. induction l as [|[b blen] l IH]; intros [|fuel] prev Hs H0 Hf; cbn in Hf; try lia.
  { done. }
  destruct Hs as (Hnb & Hlb & Hs).
  assert (b ≠ 0) by (apply (H0 (b, blen)); left).
  cbn [freemem_walk first_or cut]. rewrite (bool_decide_eq_true_2 (b ≠ 0)) by done. cbn [andb].
  case_bool_decide; cbn [fst snd]; [|done].
  unfold ld. rewrite Hnb. cbn [mbind option_bind].
  rewrite IH; [|done|intros c Hc; apply H0; by right|lia]. f_equal. f_equal.
  pose proof (ptr_of_cons b blen (cut a l).1) as Hp. unfold ptr_of in Hp.
  destruct (last ((b, blen) :: (cut a l).1)) as [[? ?]|] eqn:E; [done|].
  by apply last_None in E.
Qed.

(** [r] covers the bytes of [l] and the [n] bytes at [a]. *)
Definition given (a n : Z) (l r : list (Z * Z)) : Prop :=
  ∀ y, free_at r y ↔ free_at l y ∨ a ≤ y < a + n.

Definition top_of (l1 : list (Z * Z)) : Z :=
  match last l1 with Some (p, plen) => p + plen | None => 0 end.

(** The heap between the two steps of freemem: the list is linked and ordered,
    but the block just added may touch the next one. *)
Lemma freemem_link_spec h lo hi l1 l2 a n :
  hseg h l1 (first_or l2 0) → fseg (mem h) l2 0 →
  wfb lo l1 a → wfb (a + n - 1) l2 hi → 0 ≤ lo → a + n < 4294967296 →
  lo < a → a mod 8 = 0 → n mod 8 = 0 → 8 ≤ n →
  is_Some (mem h !! a) → is_Some (mem h !! (a + 4)) →
  ∃ h' k x m, freemem_link (ptr_of l1) (top_of l1) a n (first_or l2 0) h = Some (Blk x, h') ∧
    hseg h' (k ++ [(x, m)]) (first_or l2 0) ∧ fseg (mem h') l2 0 ∧
    wfb lo (k ++ [(x, m)]) (a + n) ∧ x + m = a + n ∧
    given a n l1 (k ++ [(x, m)]) ∧ total (k ++ [(x, m)]) = total l1 + n ∧
    mlength (memlist h') = mlength (memlist h) ∧
    minheap h' = minheap h ∧ maxheap h' = maxheap h ∧
    (∀ y, is_Some (mem h' !! y) ↔ is_Some (mem h !! y)) ∧
    (∀ y, ¬ free_at l1 y → ¬ (a ≤ y < a + n) → mem h' !! y = mem h !! y).
Proof.
  intros [Hf Hs1] Hs2 Hw1 Hw2 Hlo Han Hloa Ha8 Hn8 Hn Ha Ha4.
  assert (∀ b, b ∈ l2 → a + n ≤ b.1) as Hl2.
  { intros b Hb. pose proof (wfb_in _ _ _ _ Hw2 Hb). lia. }
  unfold freemem_link. case_bool_decide as Htop.
  - (* coalesce with the previous block *)
    destruct (last_snoc_inv l1) as [->|(k & [p plen] & ->)]; [cbn in Htop; lia|].
    unfold top_of in Htop. rewrite last_snoc in Htop. rewrite ptr_of_snoc.
    apply fseg_app in Hs1 as [Hs1 (Hp & Hpl & _)].
    destruct (wfb_mid _ _ _ _ _ _ Hw1) as (Hk & _ & Hp0 & Hplen & _ & Hp8 & Hpl8).
    cbn [get_mlength set_mlength]. unfold ld. rewrite Hpl. cbn [mbind option_bind].
    rewrite u32_id by lia. rewrite st_spec by (by eexists). cbn [mbind option_bind].
    eexists _, k, p, (plen + n). split; [done|]. cbn.
    split_and!; try done; try lia.
    + split; [by rewrite first_or_app in Hf |- *|]. apply fseg_app. cbn. split_and!.
      * apply fseg_insert; [done|]. intros b Hb. specialize (Hk b Hb). lia.
      * by rewrite lookup_insert_ne by lia.
      * by rewrite lookup_insert_eq.
      * done.
    + apply fseg_insert; [done|]. intros b Hb. specialize (Hl2 b Hb). lia.
    + apply wfb_app in Hw1 as [Hw1 Hw1']. apply wfb_app. split; [done|]. cbn in Hw1' |- *.
      destruct Hw1' as (? & ? & ? & ? & ?).
      split_and!; try done; Z.to_euclidean_division_equations; lia.
    + intros y. rewrite !free_at_app, !free_at_cons. pose proof (free_at_nil y). intuition lia.
    + rewrite !total_app. cbn. lia.
    + apply dom_insert_some. by eexists.
    + intros y Hy Hy'. rewrite lookup_insert_ne; [done|]. intros <-. apply Hy, free_at_app.
      right. apply free_at_cons. left. lia.
  - (* a new node *)
    rewrite st_spec by done. cbn [mbind option_bind].
    rewrite st_spec by (cbn; by apply dom_insert_some). cbn [mbind option_bind set_mem mem].
    set (h2 := set_mem _ _).
    assert (∀ b, b ∈ l1 → b.1 + 8 ≤ a) as Hl1.
    { intros b Hb. pose proof (wfb_in _ _ _ _ Hw1 Hb). lia. }
    assert (hseg h2 l1 (first_or l2 0)) as Hh2.
    { split; [done|]. unfold h2. cbn.
      do 2 (apply fseg_insert; [|intros b Hb; specialize (Hl1 _ Hb); lia]). done. }
    destruct (set_mnext_ptr h2 _ _ l1 _ a Hh2 Hw1)
      as (h3 & -> & [Hh3 Hs3] & Hml & Hmin & Hmax & Hd3 & Hfr). cbn [mbind option_bind].
    assert (∀ y, a ≤ y → mem h3 !! y = mem h2 !! y) as Hfr3.
    { intros y Hy. apply Hfr. intros b Hb. specialize (Hl1 _ Hb). lia. }
    exists h3, l1, a, n. split; [done|].
    split_and!; try done.
    + split; [by rewrite first_or_app|]. apply fseg_app. split; [done|]. cbn.
      rewrite !Hfr3 by lia. unfold h2. cbn.
      rewrite lookup_insert_ne, !lookup_insert_eq by lia. done.
    + eapply fseg_frame; [exact Hs2|]. intros b Hb. specialize (Hl2 _ Hb).
      rewrite !Hfr3 by lia. unfold h2. cbn. rewrite !lookup_insert_ne by lia. done.
    + destruct (last_snoc_inv l1) as [->|(k & [p plen] & ->)]; [cbn; lia|].
      unfold top_of in Htop. rewrite last_snoc in Htop.
      destruct (wfb_mid _ _ _ _ _ _ Hw1) as (Hk & _ & Hp0 & Hplen & Hpe & Hp8 & Hpl8).
      rewrite <- app_assoc. cbn. apply wfb_app in Hw1 as [Hw1 Hw1']. apply wfb_app.
      split; [done|]. cbn in Hw1' |- *. destruct Hw1' as (? & ? & ? & ? & ?).
      split_and!; done || lia.
    + intros y. rewrite free_at_app, free_at_cons. pose proof (free_at_nil y). tauto.
    + rewrite total_app. cbn. lia.
    + intros y. rewrite Hd3. unfold h2. cbn. rewrite dom_insert_some; [by apply dom_insert_some|].
      by apply dom_insert_some.
    + intros y Hy Hy'. rewrite Hfr; [unfold h2; cbn; rewrite !lookup_insert_ne by lia; done|].
      intros b Hb ->. apply Hy, Exists_exists. exists b. split; [done|].
      pose proof (wfb_in _ _ _ _ Hw1 Hb). lia.
Qed.

Lemma freemem_join_spec h lo hi k x m l2 :
  hseg h (k ++ [(x, m)]) (first_or l2 0) → fseg (mem h) l2 0 →
  0 ≤ lo → wfb lo (k ++ [(x, m)]) (x + m) → wfb (x + m - 1) l2 hi → x + m ≤ hi < 4294967296 →
  ∃ h' l', freemem_join (Blk x) (first_or l2 0) h = Some h' ∧
    hseg h' l' 0 ∧ wfb lo l' hi ∧
    (∀ y, free_at l' y ↔ free_at (k ++ [(x, m)]) y ∨ free_at l2 y) ∧
    total l' = total (k ++ [(x, m)]) + total l2 ∧
    mlength (memlist h') = mlength (memlist h) ∧
    minheap h' = minheap h ∧ maxheap h' = maxheap h ∧
    (∀ y, is_Some (mem h' !! y) ↔ is_Some (mem h !! y)) ∧
    (∀ y, ¬ free_at (k ++ [(x, m)]) y → mem h' !! y = mem h !! y).
Proof.
  intros [Hf Hs1] Hs2 Hlo Hw1 Hw2 Hhi.
  destruct (wfb_mid _ _ _ _ _ _ Hw1) as (Hk & _ & Hx0 & Hm & _ & Hx8 & Hm8).
  pose proof Hs1 as [Hs1' (Hx & Hxm & _)]%fseg_app. cbn in Hx, Hs1'.
  unfold freemem_join. cbn [baddr get_mlength mbind option_bind]. unfold ld. rewrite Hxm.
  cbn [mbind option_bind]. rewrite u32_id by lia. case_bool_decide as Hadj.
  - (* merge with the next block *)
    destruct l2 as [|[b blen] r]; cbn [first_or] in *; [lia|].
    destruct Hs2 as (Hb & Hbl & Hs2). subst b. cbn in Hw2. destruct Hw2 as (_ & _ & ? & ? & Hw2).
    pose proof (wfb_le _ _ _ Hw2) as Hle.
    rewrite Hbl. cbn [mbind option_bind set_mlength]. rewrite u32_id by lia.
    rewrite st_spec by (by eexists). cbn [mbind option_bind set_mem mem].
    rewrite lookup_insert_ne, Hb by lia. cbn [mbind option_bind set_mnext].
    rewrite st_spec by (cbn; rewrite lookup_insert_ne by lia; by eexists).
    assert (∀ b, b ∈ r → x + m + blen < b.1) as Hr.
    { intros b Hbr. pose proof (wfb_in _ _ _ _ Hw2 Hbr). lia. }
    eexists _, (k ++ (x, m + blen) :: r). split; [done|]. cbn [mem set_mem memlist].
    split_and!; try done.
    + split; [cbn; by rewrite Hf, !first_or_app|]. apply fseg_app. cbn. split_and!.
      * do 2 (apply fseg_insert; [|intros b Hbk; specialize (Hk _ Hbk); lia]). done.
      * by rewrite lookup_insert_eq.
      * rewrite lookup_insert_ne by lia. by rewrite lookup_insert_eq.
      * do 2 (apply fseg_insert; [|intros b Hbr; specialize (Hr _ Hbr); lia]). done.
    + apply wfb_app in Hw1 as [Hw1 Hw1']. apply wfb_app. split; [done|]. cbn in Hw1' |- *.
      destruct Hw1' as (? & ? & ? & ? & ?).
      rewrite Z.add_assoc. split_and!; try done; Z.to_euclidean_division_equations; lia.
    + intros y. rewrite !free_at_app, !free_at_cons. pose proof (free_at_nil y).
      assert (x ≤ y < x + (m + blen) ↔ x ≤ y < x + m ∨ x + m ≤ y < x + m + blen) by lia. tauto.
    + rewrite !total_app. cbn. lia.
    + intros y. rewrite !dom_insert_some; [done|by eexists|].
      apply dom_insert_some; by eexists.
    + intros y Hy. assert (¬ (x ≤ y < x + m)).
      { intros Hxy. apply Hy, free_at_app. right. apply free_at_cons. by left. }
      rewrite !lookup_insert_ne by lia. done.
  - exists h, ((k ++ [(x, m)]) ++ l2). split; [done|]. split_and!; try done.
    + split; [by rewrite first_or_app|]. by apply fseg_app.
    + apply wfb_app. assert (end_of lo (k ++ [(x, m)]) = x + m) as ->.
      { clear. revert lo. induction k as [|[? ?] k IH]; intros lo; cbn; [done|apply IH]. }
      split; [done|]. destruct l2 as [|[b blen] r]; cbn in *; [lia|].
      destruct Hw2 as (? & ? & ? & ? & ?). split_and!; done || lia.
    + intros y. apply free_at_app.
    + apply total_app.
Qed.


Definition ptr_is_head (p : bptr) : bool := match p with BHead => true | Blk _ => false end.

Lemma ptr_top h l1 l2 :
  heap_ok h (l1 ++ l2) →
  match ptr_of l1 with BHead => Some 0 | Blk p => len ← ld (p + 4) h; Some (u32 (p + len)) end
  = Some (top_of l1).
Proof.
  intros Hok. unfold top_of, ptr_of. destruct (last_snoc_inv l1) as [->|(k & [p plen] & ->)]; [done|].
  rewrite last_snoc. pose proof (hk_list _ _ Hok) as [Hs1 _]%fseg_app.
  apply fseg_app in Hs1 as [_ (_ & Hpl & _)]. unfold ld. rewrite Hpl. cbn.
  destruct (heap_range _ _ p plen Hok ltac:(set_solver)) as (? & ? & ? & _).
  by rewrite u32_id by lia.
Qed.

(** The overlap test of freemem is exact. *)
Lemma freemem_test h l1 l2 a n :
  heap_ok h (l1 ++ l2) → (∀ b, b ∈ l1 → b.1 < a) → (∀ b r, l2 = b :: r → a ≤ b.1) →
  minheap h ≤ a → 0 < n → a + n ≤ maxheap h →
  let c := (negb (ptr_is_head (ptr_of l1)) && bool_decide (a < top_of l1))
           || (bool_decide (first_or l2 0 ≠ 0) && bool_decide (first_or l2 0 < u32 (a + n))) in
  (c = true ∧ ∃ y, a ≤ y < a + n ∧ free_at (l1 ++ l2) y) ∨
  (c = false ∧ wfb (minheap h - 1) l1 a ∧ wfb (a + n - 1) l2 (maxheap h)).
Proof.
  intros Hok Hc1 Hc2 Hmin Hn Hmax c.
  pose proof (hk_max _ _ Hok) as (_ & Hmaxb & _). pose proof (hk_min _ _ Hok) as [Hmin0 _].
  pose proof (hk_wf _ _ Hok) as [Hw1 Hw2]%wfb_app.
  unfold c. rewrite u32_id by lia. clear c.
  assert ((negb (ptr_is_head (ptr_of l1)) && bool_decide (a < top_of l1) = true ∧ free_at l1 a) ∨
    (negb (ptr_is_head (ptr_of l1)) && bool_decide (a < top_of l1) = false ∧
     wfb (minheap h - 1) l1 a)) as [[-> Hy]|[-> Hwa]].
  { unfold top_of. destruct (last_snoc_inv l1) as [->|(k & [p plen] & ->)].
    - right. split; [done|]. cbn. lia.
    - rewrite ptr_of_snoc, last_snoc. cbn [ptr_is_head negb andb].
      specialize (Hc1 (p, plen) ltac:(set_solver)). cbn in Hc1. case_bool_decide; [left|right].
      + split; [done|]. apply free_at_app. right. apply free_at_cons. left. lia.
      + split; [done|]. apply wfb_app in Hw1 as [Hw1 Hw1']. apply wfb_app. split; [done|].
        cbn in Hw1' |- *. destruct Hw1' as (? & ? & ? & ? & ?). split_and!; done || lia. }
  { left. split; [done|]. exists a. split; [lia|]. apply free_at_app. by left. }
  cbn [orb]. destruct l2 as [|[b blen] r]; cbn [first_or].
  { right. split; [done|]. split; [done|]. cbn. lia. }
  specialize (Hc2 _ _ eq_refl). cbn in Hc2. rewrite (bool_decide_eq_true_2 (b ≠ 0)) by lia.
  cbn [andb]. cbn in Hw2. destruct Hw2 as (? & ? & ? & ? & Hw2).
  case_bool_decide; [left|right].
  - split; [done|]. exists b. split; [lia|]. apply free_at_app. right. apply free_at_cons. lia.
  - split; [done|]. split; [done|]. cbn. split_and!; done || lia.
Qed.

(** freemem gives back [n] bytes at [a]: refused when they overlap a free
    block, otherwise they become free and nothing else changes. *)
Lemma freemem_spec h l a nbytes :
  heap_ok h l → 0 < nbytes ≤ 4294967288 → minheap h ≤ a → a mod 8 = 0 →
  a + roundmb nbytes ≤ maxheap h →
  let n := roundmb nbytes in
  ((∃ y, a ≤ y < a + n ∧ free_at l y) ∧ freemem a nbytes h = Some (SYSERR, h)) ∨
  (∃ h' l', freemem a nbytes h = Some (OK, h') ∧ heap_ok h' l' ∧ given a n l l' ∧
     minheap h' = minheap h ∧ maxheap h' = maxheap h ∧
     (∀ y, ¬ free_at l y → ¬ (a ≤ y < a + n) → mem h' !! y = mem h !! y)).
Proof.
  intros Hok Hnb Hmin Ha8 Hmax n. destruct (roundmb_bounds nbytes Hnb) as (Hn0 & Hn8 & Hn).
  fold n in Hn0, Hn8, Hn, Hmax.
  pose proof (hk_min _ _ Hok) as [Hmin0 _]. pose proof (hk_max _ _ Hok) as (_ & Hmaxb & _).
  unfold freemem. rewrite !bool_decide_eq_false_2 by lia. cbn [orb]. fold n. cbv zeta.
  rewrite (hk_first _ _ Hok).
  rewrite (freemem_walk_spec _ a BHead l h (hk_list _ _ Hok)); [|  |by apply walk_fuel_enough].
  2: { intros [b blen] Hb. pose proof (heap_range _ _ _ _ Hok Hb). cbn. lia. }
  cbn [mbind option_bind].
  pose proof (cut_app a l) as Hl. pose proof (cut_below a l) as Hc1. pose proof (cut_head a l) as Hc2.
  destruct (cut a l) as [l1 l2]. cbn [fst snd] in *. subst l.
  change (match last l1 with Some (b, _) => Blk b | None => BHead end) with (ptr_of l1).
  rewrite (ptr_top _ _ _ Hok). cbn [mbind option_bind].
  change (match ptr_of l1 with BHead => true | Blk _ => false end) with (ptr_is_head (ptr_of l1)).
  destruct (freemem_test h l1 l2 a n Hok Hc1 Hc2 Hmin ltac:(lia) Hmax)
    as [[-> Hy]|(-> & Hw1 & Hw2)]; [by left|right].
  pose proof (hk_list _ _ Hok) as [Hs1 Hs2]%fseg_app.
  pose proof (hk_first _ _ Hok) as Hfirst. rewrite first_or_app in Hfirst.
  assert (∀ y, a ≤ y < a + n → y mod 4 = 0 → is_Some (mem h !! y)) as Hreg.
  { intros y Hy Hy4. apply (hk_mem _ _ Hok). lia. }
  destruct (freemem_link_spec (add_free n h) _ _ l1 l2 a n (conj Hfirst Hs1) Hs2 Hw1 Hw2)
    as (h1 & k & x & m & -> & Hh1 & Hs1' & Hw1' & Hxm & Hg & Ht & Hml & Hm1 & Hm2 & Hd & Hfr);
    try done; try lia.
  { apply Hreg; [lia|]. by apply mod8_mod4. }
  { apply Hreg; [lia|]. by apply mod8_mod4. }
  cbn [mbind option_bind]. rewrite <- Hxm in Hw1', Hw2.
  destruct (freemem_join_spec h1 (minheap h - 1) (maxheap h) k x m l2 Hh1 Hs1' ltac:(lia) Hw1' Hw2 ltac:(lia))
    as (h2 & l' & -> & [Hf2 Hs2'] & Hw' & Hg' & Ht' & Hml' & Hm1' & Hm2' & Hd' & Hfr').
  cbn [mbind option_bind]. exists h2, l'. split; [done|].
  cbn in Hm1, Hm2, Hml, Hd, Hfr. rewrite Hm1' , Hm2', Hm1, Hm2. split_and!; try done.
  - split; rewrite ?Hm1', ?Hm2', ?Hm1, ?Hm2; try apply Hok; try done.
    + intros y. rewrite Hd', Hd. apply Hok.
    + rewrite Hml', Hml, Ht', Ht, (hk_total _ _ Hok), total_app.
      pose proof (wfb_total _ _ _ Hw') as Hb. rewrite Ht', Ht in Hb.
      rewrite u32_id by lia. lia.
  - intros y. rewrite Hg', (Hg y), free_at_app. tauto.
  - intros y Hy Hy'. rewrite free_at_app in Hy. rewrite Hfr'; [apply Hfr; tauto|].
    rewrite (Hg y). tauto.
Qed.

(** ** meminit, and stores outside the free list *)

Lemma meminit_spec e h :
  0 < e < MAXADDR → e mod 8 = 0 →
  (∀ a, is_Some (mem h !! a) ↔ e ≤ a < MAXADDR ∧ a mod 4 = 0) →
  ∃ h', meminit e h = Some h' ∧ heap_ok h' [(e, MAXADDR - e)] ∧ minheap h' = e ∧ maxheap h' = MAXADDR.
Proof.
  intros He He8 Hd. unfold MAXADDR in *. pose proof (mod8_mod4 _ He8) as [He4 He4'].
  assert (e + 8 ≤ 2684354560) by (Z.to_euclidean_division_equations; lia).
  unfold meminit. cbn -[Z.sub]. rewrite st_spec by (apply Hd; lia). cbn -[Z.sub].
  rewrite st_spec by (cbn; apply dom_insert_some; apply Hd; lia). cbn -[Z.sub].
  unfold MAXADDR. rewrite u32_id by lia. eexists. split; [done|].
  split; [|done]. split; cbn; try done; try (split_and!; done || lia).
  - intros a. rewrite !dom_insert_some; [apply Hd|apply Hd; lia|].
    apply dom_insert_some; apply Hd; lia.
  - rewrite lookup_insert_ne, !lookup_insert_eq by lia. done.
  - split_and!; try lia; Z.to_euclidean_division_equations; lia.
  - lia.
Qed.

(** A store into memory that is not free leaves the free list alone. *)
Lemma st_heap_ok h l a v :
  heap_ok h l → ¬ free_at l a → minheap h ≤ a < maxheap h → a mod 4 = 0 →
  ∃ h', st a v h = Some h' ∧ heap_ok h' l ∧ minheap h' = minheap h ∧ maxheap h' = maxheap h ∧
    mem h' = <[a := v]> (mem h).
Proof.
  intros Hok Hf Ha Ha4. assert (is_Some (mem h !! a)) as Hs by (apply (hk_mem _ _ Hok); lia).
  rewrite st_spec by done. eexists. split; [done|]. split; [|done].
  pose proof (hk_wf _ _ Hok) as Hw.
  split; cbn; try apply Hok.
  - intros k. rewrite dom_insert_some by done. apply Hok.
  - apply fseg_insert; [apply Hok|]. by eapply not_free_header.
Qed.
