(* ===== verification/ByteMem.v ===== *)
(** Bytes of the word-addressed memory, for the drivers that copy characters
    from and to a caller's buffer.  The processor is little-endian: byte [a] is
    bits [8 (a mod 4)] and up of the word at [a - a mod 4]. *)

From S2P Require Import Prelude Types Heap.

Definition byte_of (i w : Z) : Z := w / 256 ^ i mod 256.
Definition set_byte (i b w : Z) : Z := w + (b - byte_of i w) * 256 ^ i.

Definition ldb (a : Z) (h : heap) : option Z :=
  w ← ld (a - a mod 4) h; Some (byte_of (a mod 4) w).
Definition stb (a b : Z) (h : heap) : option heap :=
  w ← ld (a - a mod 4) h; st (a - a mod 4) (set_byte (a mod 4) (u8 b) w) h.

(** The bytes of [l] at [a], and writing them one after the other. *)
Fixpoint bytes_in (h : heap) (a : Z) (l : list Z) : Prop :=
  match l with [] => True | b :: l => ldb a h = Some b ∧ bytes_in h (a + 1) l end.
Fixpoint stbs (l : list Z) (a : Z) (h : heap) : option heap :=
  match l with [] => Some h | b :: l => h ← stb a b h; stbs l (a + 1) h end.

(** [n] bytes at [a] are memory. *)
Definition buffer (h : heap) (a n : Z) : Prop := ∀ i, a ≤ i < a + n → is_Some (ldb i h).

Lemma byte_of_range i w : 0 ≤ byte_of i w < 256.
Proof. by apply Z.mod_pos_bound. Qed.

Lemma byte_of_set_same i b w : 0 ≤ i → 0 ≤ b < 256 → byte_of i (set_byte i b w) = b.
Proof.
  intros Hi Hb. unfold set_byte, byte_of. rewrite Z.div_add by lia.
  rewrite <-(Z.mod_add (w / 256 ^ i + _) (w / 256 ^ i / 256)) by lia.
  pose proof (Z.div_mod (w / 256 ^ i) 256 ltac:(lia)) as Hd.
  replace (_ + _ + _) with (b + (w / 256 ^ i / 256 * 2) * 256) by lia.
  rewrite Z.mod_add by lia. by apply Z.mod_small.
Qed.

Lemma byte_of_set_other i j b w :
  0 ≤ i < 4 → 0 ≤ j < 4 → i ≠ j → 0 ≤ b < 256 → byte_of j (set_byte i b w) = byte_of j w.
Proof.
  intros Hi Hj Hne Hb. unfold set_byte, byte_of.
  assert (i = 0 ∨ i = 1 ∨ i = 2 ∨ i = 3) as Hi' by lia.
  assert (j = 0 ∨ j = 1 ∨ j = 2 ∨ j = 3) as Hj' by lia.
  destruct Hi' as [->|[->|[->| ->]]], Hj' as [->|[->|[->| ->]]]; try done;
    change (256 ^ 0) with 1; change (256 ^ 1) with 256; change (256 ^ 2) with 65536;
    change (256 ^ 3) with 16777216; Z.to_euclidean_division_equations; lia.
Qed.

(** ** Loads and stores *)

Lemma stb_some a b h :
  is_Some (ldb a h) → 0 ≤ b < 256 →
  ∃ h', stb a b h = Some h' ∧ ldb a h' = Some b ∧ (∀ i, i ≠ a → ldb i h' = ldb i h).
Proof.
  unfold ldb, stb, ld, st. intros [v Hv] Hb. rewrite u8_id by done.
  destruct (mem h !! (a - a mod 4)) as [w|] eqn:Hw; [|done]. cbn.
  pose proof (Z.mod_pos_bound a 4 ltac:(lia)) as Ha.
  eexists. split; [done|]. cbn. split.
  - rewrite lookup_insert_eq. cbn. by rewrite byte_of_set_same by lia.
  - intros i Hi. pose proof (Z.mod_pos_bound i 4 ltac:(lia)) as Hi4.
    destruct (decide (i - i mod 4 = a - a mod 4)) as [He|He].
    + rewrite He, lookup_insert_eq, Hw. cbn. f_equal. apply byte_of_set_other; lia.
    + by rewrite lookup_insert_ne.
Qed.

Lemma buffer_tail h a n : buffer h a n → buffer h (a + 1) (n - 1).
Proof. intros Hb i Hi. apply Hb. lia. Qed.

Lemma buffer_ext h h' a n : (∀ i, is_Some (ldb i h) → is_Some (ldb i h')) → buffer h a n → buffer h' a n.
Proof. intros He Hb i Hi. by apply He, Hb. Qed.

Lemma bytes_in_ext h h' a l :
  (∀ i, a ≤ i < a + Z.of_nat (length l) → ldb i h' = ldb i h) → bytes_in h a l → bytes_in h' a l.
Proof.
  revert a. induction l as [|b l IH]; intros a He; cbn in *; [done|].
  intros [H1 H2]. rewrite He by lia. split; [done|]. apply IH; [|done]. intros i Hi. apply He. lia.
Qed.

Lemma stbs_spec l : ∀ a h,
  buffer h a (Z.of_nat (length l)) → Forall (λ b, 0 ≤ b < 256) l →
  ∃ h', stbs l a h = Some h' ∧ bytes_in h' a l ∧
    (∀ i, ¬ a ≤ i < a + Z.of_nat (length l) → ldb i h' = ldb i h).
Proof.
  induction l as [|b l IH]; intros a h Hb Hl; cbn [stbs bytes_in length] in *; [by exists h|].
  apply Forall_cons in Hl as [Hbb Hl].
  destruct (stb_some a b h) as (h1 & Hs1 & Ha1 & Ho1); [apply Hb; lia|done|].
  destruct (IH (a + 1) h1) as (h2 & Hs2 & Hin2 & Ho2); [|done|].
  { intros i Hi. rewrite Ho1 by lia. apply Hb. lia. }
  exists h2. rewrite Hs1. cbn. split_and!; [done| |done|].
  - rewrite Ho2 by lia. done.
  - intros i Hi. rewrite Ho2 by lia. apply Ho1. lia.
Qed.
