(* ===== verification/Words.v ===== *)
(** Little-endian 32-bit words in blocks of bytes: what the structures that the
    file system keeps on the disk look like there. *)

From S2P Require Import Prelude ByteMem.

(** The four bytes of a word (of its low 32 bits). *)
Definition le32 (x : Z) : list Z := [byte_of 0 x; byte_of 1 x; byte_of 2 x; byte_of 3 x].
(** The unsigned word in the bytes [o] .. [o + 3]. *)
Definition word_at (b : list Z) (o : nat) : Z :=
  match drop o b with
  | b0 :: b1 :: b2 :: b3 :: _ => b0 + 256 * (b1 + 256 * (b2 + 256 * b3))
  | _ => 0
  end.
(** The same word as an int32. *)
Definition int_at (b : list Z) (o : nat) : Z := s32 (word_at b o).
Definition le16 (x : Z) : list Z := [byte_of 0 x; byte_of 1 x].
Definition half_at (b : list Z) (o : nat) : Z :=
  match drop o b with b0 :: b1 :: _ => s16 (b0 + 256 * b1) | _ => 0 end.

Definition int32 (x : Z) : Prop := -2147483648 ≤ x < 2147483648.
Definition uint32 (x : Z) : Prop := 0 ≤ x < 4294967296.
Definition int16 (x : Z) : Prop := -32768 ≤ x < 32768.
Definition byte (x : Z) : Prop := 0 ≤ x < 256.

(** [m] bytes from [o] on, and writing [l] at [o]: copies between buffers. *)
Definition slice (o m : nat) (b : list Z) : list Z := take m (drop o b).
Definition splice (o : nat) (l b : list Z) : list Z := take o b ++ l ++ drop (o + length l) b.

Lemma word_of_bytes x :
  byte_of 0 x + 256 * (byte_of 1 x + 256 * (byte_of 2 x + 256 * byte_of 3 x)) = u32 x.
Proof.
  unfold byte_of, u32. change (256 ^ 0) with 1. change (256 ^ 1) with 256.
  change (256 ^ 2) with 65536. change (256 ^ 3) with 16777216.
  Z.to_euclidean_division_equations. lia.
Qed.

Lemma s32_u32 x : int32 x → s32 (u32 x) = x.
Proof. unfold int32, s32, u32. intros. Z.to_euclidean_division_equations. lia. Qed.

Lemma length_le32 x : length (le32 x) = 4%nat.
Proof. done. Qed.

Lemma word_at_here x r : word_at (le32 x ++ r) 0 = u32 x.
Proof. apply word_of_bytes. Qed.

(** Reading behind a prefix. *)
Lemma word_at_app l b o : (length l ≤ o)%nat → word_at (l ++ b) o = word_at b (o - length l).
Proof. intros Ho. unfold word_at. by rewrite drop_app_ge. Qed.

Lemma half_at_here x r : int16 x → half_at (le16 x ++ r) 0 = x.
Proof.
  unfold int16, half_at, le16, byte_of, s16. cbn [drop app]. intros Hx.
  change (256 ^ 0) with 1. change (256 ^ 1) with 256. Z.to_euclidean_division_equations. lia.
Qed.

Lemma half_at_app l b o : (length l ≤ o)%nat → half_at (l ++ b) o = half_at b (o - length l).
Proof. intros Ho. unfold half_at. by rewrite drop_app_ge. Qed.

Lemma uint32_here x r : uint32 x → word_at (le32 x ++ r) 0 = x.
Proof. intros Hx. rewrite word_at_here. by apply u32_id. Qed.

Lemma int32_here x r : int32 x → int_at (le32 x ++ r) 0 = x.
Proof. intros Hx. unfold int_at. rewrite word_at_here. by apply s32_u32. Qed.

Lemma int_at_app l b o : (length l ≤ o)%nat → int_at (l ++ b) o = int_at b (o - length l).
Proof. intros Ho. unfold int_at. by rewrite word_at_app. Qed.

(** ** Sequences of words *)

Definition words (l : list Z) : list Z := concat (le32 <$> l).

Lemma length_words l : length (words l) = (4 * length l)%nat.
Proof. induction l; cbn [words fmap list_fmap concat] in *; [done|]. rewrite length_app. cbn. unfold words in IHl. lia. Qed.

Lemma words_cons x l : words (x :: l) = le32 x ++ words l.
Proof. done. Qed.

Lemma words_at l r i x :
  Forall int32 l → l !! i = Some x → int_at (words l ++ r) (4 * i) = x.
Proof.
  intros Hl. revert i. induction Hl as [|y l Hy Hl IH]; intros [|i] Hi; try done.
  - injection Hi as <-. rewrite words_cons, <-app_assoc. by apply int32_here.
  - rewrite words_cons, <-app_assoc, int_at_app by (cbn; lia).
    rewrite length_le32. replace (4 * S i - 4)%nat with (4 * i)%nat by lia. by apply IH.
Qed.

(** ** Slices *)

Lemma length_splice o l b : (o + length l ≤ length b)%nat → length (splice o l b) = length b.
Proof. intros Ho. unfold splice. rewrite !length_app, length_take, length_drop. lia. Qed.

Lemma lookup_splice o l b i :
  (o + length l ≤ length b)%nat →
  splice o l b !! i = if decide (o ≤ i < o + length l)%nat then l !! (i - o)%nat else b !! i.
Proof.
  intros Ho. unfold splice. case_decide as Hi.
  - rewrite lookup_app_r, length_take by (rewrite length_take; lia).
    rewrite lookup_app_l by lia. f_equal. lia.
  - destruct (decide (i < o)%nat).
    + rewrite lookup_app_l by (rewrite length_take; lia). by apply lookup_take_lt.
    + rewrite lookup_app_r, length_take by (rewrite length_take; lia).
      rewrite lookup_app_r, lookup_drop by lia. f_equal. lia.
Qed.

Lemma lookup_slice o m b i : slice o m b !! i = if decide (i < m)%nat then b !! (o + i)%nat else None.
Proof. unfold slice. rewrite lookup_take. case_decide; [by rewrite lookup_drop|done]. Qed.

Lemma slice_splice o l b : (o + length l ≤ length b)%nat → slice o (length l) (splice o l b) = l.
Proof.
  intros Ho. apply list_eq. intros i. rewrite lookup_slice. case_decide as Hi.
  - rewrite lookup_splice, decide_True by lia. f_equal. lia.
  - symmetry. apply lookup_ge_None. lia.
Qed.

Lemma slice_splice_ne o o' m l b :
  (o + length l ≤ length b)%nat → (o' + m ≤ o ∨ o + length l ≤ o')%nat →
  slice o' m (splice o l b) = slice o' m b.
Proof.
  intros Ho Hd. apply list_eq. intros i. rewrite !lookup_slice. case_decide as Hi; [|done].
  by rewrite lookup_splice, decide_False by lia.
Qed.

Lemma Forall_splice (P : Z → Prop) o l b : Forall P l → Forall P b → Forall P (splice o l b).
Proof. intros. unfold splice. rewrite !Forall_app. auto using Forall_take, Forall_drop. Qed.

Lemma byte_byte_of i x : byte (byte_of i x).
Proof. apply byte_of_range. Qed.

Lemma Forall_words l : Forall byte (words l).
Proof. induction l; [constructor|]. rewrite words_cons. repeat (apply Forall_cons; split; [apply byte_byte_of|]). exact IHl. Qed.

Lemma slice_app_here l r : slice 0 (length l) (l ++ r) = l.
Proof. unfold slice. by rewrite drop_0, take_app_length. Qed.

Lemma slice_app_skip l r o m : (length l ≤ o)%nat → slice o m (l ++ r) = slice (o - length l) m r.
Proof. intros Ho. unfold slice. by rewrite drop_app_ge. Qed.

(** The [i]-th of a sequence of records of [n] bytes. *)
Lemma slice_concat {A} (f : A → list Z) n l r i x :
  (∀ y, y ∈ l → length (f y) = n) → l !! i = Some x → slice (n * i) n (concat (f <$> l) ++ r) = f x.
Proof.
  revert i. induction l as [|y l IH]; intros [|i] Hl Hi; try done.
  - injection Hi as <-. cbn [fmap list_fmap concat]. rewrite <-app_assoc, Nat.mul_0_r.
    rewrite <-(Hl y) by left. apply slice_app_here.
  - cbn [fmap list_fmap concat]. rewrite <-app_assoc, slice_app_skip; rewrite (Hl y) by left; [|lia].
    replace (n * S i - n)%nat with (n * i)%nat by lia. apply IH; [|done]. intros z Hz. apply Hl. by right.
Qed.

Lemma length_concat {A} (f : A → list Z) n l :
  (∀ y, y ∈ l → length (f y) = n) → length (concat (f <$> l)) = (n * length l)%nat.
Proof.
  induction l as [|y l IH]; intros Hl; cbn [fmap list_fmap concat length]; [lia|].
  rewrite length_app, (Hl y) by left. rewrite IH; [lia|]. intros z Hz. apply Hl. by right.
Qed.

(** ** Reading fields and writing them again *)

Lemma slice_app o n m b : slice o n b ++ slice (o + n) m b = slice o (n + m) b.
Proof. unfold slice. by rewrite <-drop_drop, take_take_drop. Qed.

Lemma slice_all b : slice 0 (length b) b = b.
Proof. unfold slice. by rewrite drop_0, take_ge. Qed.

Lemma length_slice o m b : (o + m ≤ length b)%nat → length (slice o m b) = m.
Proof. intros H. unfold slice. rewrite length_take, length_drop. lia. Qed.

Lemma Forall_slice (P : Z → Prop) o m b : Forall P b → Forall P (slice o m b).
Proof. intros. unfold slice. auto using Forall_take, Forall_drop. Qed.

(** The first four bytes of a block that has them. *)
Lemma slice4 o b : (o + 4 ≤ length b)%nat → ∃ b0 b1 b2 b3 r, drop o b = b0 :: b1 :: b2 :: b3 :: r ∧ slice o 4 b = [b0; b1; b2; b3].
Proof.
  intros Hl. unfold slice. pose proof (length_drop b o) as Hd.
  destruct (drop o b) as [|b0 [|b1 [|b2 [|b3 r]]]]; cbn in Hd; try lia. by exists b0, b1, b2, b3, r.
Qed.

Lemma le32_bytes b0 b1 b2 b3 k :
  byte b0 → byte b1 → byte b2 → byte b3 →
  le32 (b0 + 256 * (b1 + 256 * (b2 + 256 * b3)) + 4294967296 * k) = [b0; b1; b2; b3].
Proof.
  unfold byte, le32, byte_of. intros H0 H1 H2 H3. change (256 ^ 0) with 1. change (256 ^ 1) with 256.
  change (256 ^ 2) with 65536. change (256 ^ 3) with 16777216.
  repeat f_equal; Z.to_euclidean_division_equations; lia.
Qed.

Lemma word_at_spec b o : (o + 4 ≤ length b)%nat → Forall byte b →
  uint32 (word_at b o) ∧ ∀ k, le32 (word_at b o + 4294967296 * k) = slice o 4 b.
Proof.
  intros Hl Hb. destruct (slice4 o b Hl) as (b0 & b1 & b2 & b3 & r & Hd & ->).
  assert (Forall byte (drop o b)) as Hf by (by apply Forall_drop). rewrite Hd in Hf.
  repeat match goal with H : Forall byte (_ :: _) |- _ => apply Forall_cons in H as [? H] end.
  unfold word_at. rewrite Hd. split; [unfold byte, uint32 in *; lia|]. intros k. by apply le32_bytes.
Qed.

Lemma le32_word_at b o : (o + 4 ≤ length b)%nat → Forall byte b → le32 (word_at b o) = slice o 4 b.
Proof. intros Hl Hb. destruct (word_at_spec b o Hl Hb) as [_ H]. rewrite <-(H 0). f_equal. lia. Qed.

Lemma le32_int_at b o : (o + 4 ≤ length b)%nat → Forall byte b → le32 (int_at b o) = slice o 4 b.
Proof.
  intros Hl Hb. destruct (word_at_spec b o Hl Hb) as [Hu H]. unfold int_at, s32, uint32 in *.
  rewrite <-(H (- ((word_at b o + 2147483648) / 4294967296))). f_equal. Z.to_euclidean_division_equations. lia.
Qed.

Lemma int32_s32 x : int32 (s32 x).
Proof. unfold int32, s32. Z.to_euclidean_division_equations. lia. Qed.

Lemma half_at_spec b o : (o + 2 ≤ length b)%nat → Forall byte b → int16 (half_at b o) ∧ le16 (half_at b o) = slice o 2 b.
Proof.
  intros Hl Hb. unfold half_at, slice. pose proof (length_drop b o) as Hd.
  assert (Forall byte (drop o b)) as Hf by (by apply Forall_drop).
  destruct (drop o b) as [|b0 [|b1 r]]; cbn in Hd; try lia.
  repeat match goal with H : Forall byte (_ :: _) |- _ => apply Forall_cons in H as [? H] end.
  unfold byte in *. unfold int16, s16, le16, byte_of. change (256 ^ 0) with 1. change (256 ^ 1) with 256. cbn [take].
  split; [|repeat f_equal]; Z.to_euclidean_division_equations; lia.
Qed.
