(* ===== verification/NetTypes.v ===== *)
(** The data of the network code: include/arp.h, udp.h, icmp.h, ip.h, net.h, and
    the control block of include/ether.h with the descriptors of
    include/am335x_eth.h.  [netstate] collects the global and static variables. *)

From S2P Require Import Prelude.

(** ** arp.h *)
Definition ARP_HALEN : Z := 6.
Definition ARP_PALEN : Z := 4.
Definition ARP_HTYPE : Z := 1.
Definition ARP_PTYPE : Z := 2048.
Definition ARP_OP_REQ : Z := 1.
Definition ARP_OP_RPLY : Z := 2.
Definition ARP_SIZ : Z := 16.
Definition ARP_RETRY : Z := 3.
Definition ARP_TIMEOUT : Z := 300.

Inductive arst := AR_FREE | AR_PENDING | AR_RESOLVED.
#[export] Instance arst_eq_dec : EqDecision arst.
Proof. solve_decision. Defined.

Record arpentry := Arpentry {
  arstate : arst;
  arpaddr : Z;
  arpid : Z;
  arhaddr : list Z }.
Definition set_arstate (v : arst) (r : arpentry) : arpentry :=
  Arpentry v (arpaddr r) (arpid r) (arhaddr r).
Definition set_arpaddr (v : Z) (r : arpentry) : arpentry :=
  Arpentry (arstate r) v (arpid r) (arhaddr r).
Definition set_arpid (v : Z) (r : arpentry) : arpentry :=
  Arpentry (arstate r) (arpaddr r) v (arhaddr r).
Definition set_arhaddr (v : list Z) (r : arpentry) : arpentry :=
  Arpentry (arstate r) (arpaddr r) (arpid r) v.
(** An entry of zeros. *)
Definition zero_arp : arpentry := Arpentry AR_FREE 0 0 (replicate 6 0).

(** ** udp.h *)
Definition UDP_SLOTS : Z := 6.
Definition UDP_QSIZ : Z := 8.
Definition UDP_HDR_LEN : Z := 8.

Inductive udst := UDP_FREE | UDP_USED | UDP_RECV.
#[export] Instance udst_eq_dec : EqDecision udst.
Proof. solve_decision. Defined.

(** [udqueue] holds the addresses of packets. *)
Record udpentry := Udpentry {
  udstate : udst;
  udremip : Z;
  udremport : Z;
  udlocport : Z;
  udhead : Z;
  udtail : Z;
  udcount : Z;
  udpid : Z;
  udqueue : list Z }.
Definition set_udstate (v : udst) (r : udpentry) : udpentry :=
  Udpentry v (udremip r) (udremport r) (udlocport r) (udhead r) (udtail r) (udcount r) (udpid r) (udqueue r).
Definition set_udhead (v : Z) (r : udpentry) : udpentry :=
  Udpentry (udstate r) (udremip r) (udremport r) (udlocport r) v (udtail r) (udcount r) (udpid r) (udqueue r).
Definition set_udtail (v : Z) (r : udpentry) : udpentry :=
  Udpentry (udstate r) (udremip r) (udremport r) (udlocport r) (udhead r) v (udcount r) (udpid r) (udqueue r).
Definition set_udcount (v : Z) (r : udpentry) : udpentry :=
  Udpentry (udstate r) (udremip r) (udremport r) (udlocport r) (udhead r) (udtail r) v (udpid r) (udqueue r).
Definition set_udpid (v : Z) (r : udpentry) : udpentry :=
  Udpentry (udstate r) (udremip r) (udremport r) (udlocport r) (udhead r) (udtail r) (udcount r) v (udqueue r).
Definition set_udqueue (v : list Z) (r : udpentry) : udpentry :=
  Udpentry (udstate r) (udremip r) (udremport r) (udlocport r) (udhead r) (udtail r) (udcount r) (udpid r) v.
Definition zero_udp : udpentry := Udpentry UDP_FREE 0 0 0 0 0 0 0 (replicate 8 0).

(** ** icmp.h *)
Definition ICMP_SLOTS : Z := 10.
Definition ICMP_QSIZ : Z := 8.
Definition ICMP_HDR_LEN : Z := 8.
Definition ICMP_ECHOREPLY : Z := 0.
Definition ICMP_ECHOREQST : Z := 8.

Inductive icst := ICMP_FREE | ICMP_USED | ICMP_RECV.
#[export] Instance icst_eq_dec : EqDecision icst.
Proof. solve_decision. Defined.

Record icmpentry := Icmpentry {
  icstate : icst;
  icremip : Z;
  ichead : Z;
  ictail : Z;
  iccount : Z;
  icpid : Z;
  icqueue : list Z }.
Definition set_icstate (v : icst) (r : icmpentry) : icmpentry :=
  Icmpentry v (icremip r) (ichead r) (ictail r) (iccount r) (icpid r) (icqueue r).
Definition set_ichead (v : Z) (r : icmpentry) : icmpentry :=
  Icmpentry (icstate r) (icremip r) v (ictail r) (iccount r) (icpid r) (icqueue r).
Definition set_ictail (v : Z) (r : icmpentry) : icmpentry :=
  Icmpentry (icstate r) (icremip r) (ichead r) v (iccount r) (icpid r) (icqueue r).
Definition set_iccount (v : Z) (r : icmpentry) : icmpentry :=
  Icmpentry (icstate r) (icremip r) (ichead r) (ictail r) v (icpid r) (icqueue r).
Definition set_icpid (v : Z) (r : icmpentry) : icmpentry :=
  Icmpentry (icstate r) (icremip r) (ichead r) (ictail r) (iccount r) v (icqueue r).
Definition set_icqueue (v : list Z) (r : icmpentry) : icmpentry :=
  Icmpentry (icstate r) (icremip r) (ichead r) (ictail r) (iccount r) (icpid r) v.
Definition zero_icmp : icmpentry := Icmpentry ICMP_FREE 0 0 0 0 0 (replicate 8 0).

(** ** ip.h *)
Definition IP_BCAST : Z := 4294967295.
Definition IP_ICMP : Z := 1.
Definition IP_UDP : Z := 17.
Definition IP_HDR_LEN : Z := 20.
Definition IP_OQSIZ : Z := 8.

Record iqentry := Iqentry {
  iqhead : Z;
  iqtail : Z;
  iqsem : Z;
  iqbuf : list Z }.
Definition set_iqhead (v : Z) (r : iqentry) : iqentry := Iqentry v (iqtail r) (iqsem r) (iqbuf r).
Definition set_iqtail (v : Z) (r : iqentry) : iqentry := Iqentry (iqhead r) v (iqsem r) (iqbuf r).
Definition set_iqsem (v : Z) (r : iqentry) : iqentry := Iqentry (iqhead r) (iqtail r) v (iqbuf r).
Definition set_iqbuf (v : list Z) (r : iqentry) : iqentry := Iqentry (iqhead r) (iqtail r) (iqsem r) v.

(** ** net.h *)
Definition NETSTK : Z := 8192.
Definition NETPRIO : Z := 500.
Definition ETH_ARP : Z := 2054.
Definition ETH_IP : Z := 2048.
Definition ETH_IPv6 : Z := 34525.
(** [sizeof(struct netpacket)] *)
Definition PACKLEN : Z := 1514.

Record network := Network {
  ipucast : Z;
  ipbcast : Z;
  ipmask : Z;
  ipprefix : Z;
  iprouter : Z;
  bootserver : Z;
  dnsserver : Z;
  ntpserver : Z;
  ipvalid : bool;
  ethucast : list Z;
  ethbcast : list Z;
  bootfile : list Z }.
Definition set_ethucast (v : list Z) (r : network) : network :=
  Network (ipucast r) (ipbcast r) (ipmask r) (ipprefix r) (iprouter r) (bootserver r) (dnsserver r)
    (ntpserver r) (ipvalid r) v (ethbcast r) (bootfile r).
Definition set_ethbcast (v : list Z) (r : network) : network :=
  Network (ipucast r) (ipbcast r) (ipmask r) (ipprefix r) (iprouter r) (bootserver r) (dnsserver r)
    (ntpserver r) (ipvalid r) (ethucast r) v (bootfile r).
Definition zero_network : network :=
  Network 0 0 0 0 0 0 0 0 false (replicate 6 0) (replicate 6 0) (replicate 128 0).

(** ** ether.h and am335x_eth.h *)
Definition ETH_ADDR_LEN : Z := 6.
Definition ETH_HDR_LEN : Z := 14.
Definition ETH_BUF_SIZE : Z := 1518.
Definition ETH_CTRL_GET_MAC : Z := 1.
Definition ETH_AM335X_RDS_OWN : Z := 8192.
Definition ETH_AM335X_RX_RING_SIZE : Z := 32.
Definition ETH_AM335X_TDS_SOP : Z := 32768.
Definition ETH_AM335X_TDS_EOP : Z := 16384.
Definition ETH_AM335X_TDS_OWN : Z := 8192.
Definition ETH_AM335X_TDS_DIR : Z := 16.
Definition ETH_AM335X_TDS_P1 : Z := 1.
Definition ETH_AM335X_TX_RING_SIZE : Z := 16.
Definition ETH_AM335X_RXINT : Z := 41.
Definition ETH_AM335X_TXINT : Z := 42.

(** A descriptor of a ring: [d_next] is the index of a descriptor of the same ring
    (none: a null pointer), [d_buffer] the contents of its buffer. *)
Record eth_desc := Eth_desc {
  d_next : option Z;
  d_buffer : list Z;
  d_buflen : Z;
  d_bufoff : Z;
  d_packlen : Z;
  d_stat : Z }.
Definition set_d_next (v : option Z) (r : eth_desc) : eth_desc :=
  Eth_desc v (d_buffer r) (d_buflen r) (d_bufoff r) (d_packlen r) (d_stat r).
Definition set_d_buffer (v : list Z) (r : eth_desc) : eth_desc :=
  Eth_desc (d_next r) v (d_buflen r) (d_bufoff r) (d_packlen r) (d_stat r).
Definition set_d_buflen (v : Z) (r : eth_desc) : eth_desc :=
  Eth_desc (d_next r) (d_buffer r) v (d_bufoff r) (d_packlen r) (d_stat r).
Definition set_d_packlen (v : Z) (r : eth_desc) : eth_desc :=
  Eth_desc (d_next r) (d_buffer r) (d_buflen r) (d_bufoff r) v (d_stat r).

(** The control block, with the registers that hold the heads of the two queues of
    the DMA engine ([stateram->tx_hdp[0]], [stateram->rx_hdp[0]]). *)
Record ethcblk := Ethcblk {
  rxRing : gmap Z eth_desc;
  rxHead : Z;
  rxTail : Z;
  rxRingSize : Z;
  txRing : gmap Z eth_desc;
  txHead : Z;
  txTail : Z;
  txRingSize : Z;
  devAddress : list Z;
  isem : Z;
  osem : Z;
  tx_hdp : option Z;
  rx_hdp : option Z }.
Definition set_rxRing (v : gmap Z eth_desc) (r : ethcblk) : ethcblk :=
  Ethcblk v (rxHead r) (rxTail r) (rxRingSize r) (txRing r) (txHead r) (txTail r) (txRingSize r)
    (devAddress r) (isem r) (osem r) (tx_hdp r) (rx_hdp r).
Definition set_rxHead (v : Z) (r : ethcblk) : ethcblk :=
  Ethcblk (rxRing r) v (rxTail r) (rxRingSize r) (txRing r) (txHead r) (txTail r) (txRingSize r)
    (devAddress r) (isem r) (osem r) (tx_hdp r) (rx_hdp r).
Definition set_rxTail (v : Z) (r : ethcblk) : ethcblk :=
  Ethcblk (rxRing r) (rxHead r) v (rxRingSize r) (txRing r) (txHead r) (txTail r) (txRingSize r)
    (devAddress r) (isem r) (osem r) (tx_hdp r) (rx_hdp r).
Definition set_txRing (v : gmap Z eth_desc) (r : ethcblk) : ethcblk :=
  Ethcblk (rxRing r) (rxHead r) (rxTail r) (rxRingSize r) v (txHead r) (txTail r) (txRingSize r)
    (devAddress r) (isem r) (osem r) (tx_hdp r) (rx_hdp r).
Definition set_txHead (v : Z) (r : ethcblk) : ethcblk :=
  Ethcblk (rxRing r) (rxHead r) (rxTail r) (rxRingSize r) (txRing r) v (txTail r) (txRingSize r)
    (devAddress r) (isem r) (osem r) (tx_hdp r) (rx_hdp r).
Definition set_txTail (v : Z) (r : ethcblk) : ethcblk :=
  Ethcblk (rxRing r) (rxHead r) (rxTail r) (rxRingSize r) (txRing r) (txHead r) v (txRingSize r)
    (devAddress r) (isem r) (osem r) (tx_hdp r) (rx_hdp r).
Definition set_tx_hdp (v : option Z) (r : ethcblk) : ethcblk :=
  Ethcblk (rxRing r) (rxHead r) (rxTail r) (rxRingSize r) (txRing r) (txHead r) (txTail r)
    (txRingSize r) (devAddress r) (isem r) (osem r) v (rx_hdp r).
Definition set_rx_hdp (v : option Z) (r : ethcblk) : ethcblk :=
  Ethcblk (rxRing r) (rxHead r) (rxTail r) (rxRingSize r) (txRing r) (txHead r) (txTail r)
    (txRingSize r) (devAddress r) (isem r) (osem r) (tx_hdp r) v.
Definition zero_eth : ethcblk := Ethcblk ∅ 0 0 0 ∅ 0 0 0 (replicate 6 0) 0 0 None None.

(** ** The variables of the network code; [udp_ident], [udpto_ident] and [ipident]
    are the static variables of udp_send, udp_sendto and icmp_mkpkt. *)
Record netstate := Netstate {
  NetData : network;
  netbufpool : Z;
  netportseed : Z;
  arpcache : gmap Z arpentry;
  udptab : gmap Z udpentry;
  udp_ident : Z;
  udpto_ident : Z;
  icmptab : gmap Z icmpentry;
  ipident : Z;
  ipoqueue : iqentry;
  ethertab : ethcblk }.
Definition set_NetData (v : network) (r : netstate) : netstate :=
  Netstate v (netbufpool r) (netportseed r) (arpcache r) (udptab r) (udp_ident r) (udpto_ident r)
    (icmptab r) (ipident r) (ipoqueue r) (ethertab r).
Definition set_netbufpool (v : Z) (r : netstate) : netstate :=
  Netstate (NetData r) v (netportseed r) (arpcache r) (udptab r) (udp_ident r) (udpto_ident r)
    (icmptab r) (ipident r) (ipoqueue r) (ethertab r).
Definition set_netportseed (v : Z) (r : netstate) : netstate :=
  Netstate (NetData r) (netbufpool r) v (arpcache r) (udptab r) (udp_ident r) (udpto_ident r)
    (icmptab r) (ipident r) (ipoqueue r) (ethertab r).
Definition set_arpcache (v : gmap Z arpentry) (r : netstate) : netstate :=
  Netstate (NetData r) (netbufpool r) (netportseed r) v (udptab r) (udp_ident r) (udpto_ident r)
    (icmptab r) (ipident r) (ipoqueue r) (ethertab r).
Definition set_udptab (v : gmap Z udpentry) (r : netstate) : netstate :=
  Netstate (NetData r) (netbufpool r) (netportseed r) (arpcache r) v (udp_ident r) (udpto_ident r)
    (icmptab r) (ipident r) (ipoqueue r) (ethertab r).
Definition set_udp_ident (v : Z) (r : netstate) : netstate :=
  Netstate (NetData r) (netbufpool r) (netportseed r) (arpcache r) (udptab r) v (udpto_ident r)
    (icmptab r) (ipident r) (ipoqueue r) (ethertab r).
Definition set_udpto_ident (v : Z) (r : netstate) : netstate :=
  Netstate (NetData r) (netbufpool r) (netportseed r) (arpcache r) (udptab r) (udp_ident r) v
    (icmptab r) (ipident r) (ipoqueue r) (ethertab r).
Definition set_icmptab (v : gmap Z icmpentry) (r : netstate) : netstate :=
  Netstate (NetData r) (netbufpool r) (netportseed r) (arpcache r) (udptab r) (udp_ident r)
    (udpto_ident r) v (ipident r) (ipoqueue r) (ethertab r).
Definition set_ipident (v : Z) (r : netstate) : netstate :=
  Netstate (NetData r) (netbufpool r) (netportseed r) (arpcache r) (udptab r) (udp_ident r)
    (udpto_ident r) (icmptab r) v (ipoqueue r) (ethertab r).
Definition set_ipoqueue (v : iqentry) (r : netstate) : netstate :=
  Netstate (NetData r) (netbufpool r) (netportseed r) (arpcache r) (udptab r) (udp_ident r)
    (udpto_ident r) (icmptab r) (ipident r) v (ethertab r).
Definition set_ethertab (v : ethcblk) (r : netstate) : netstate :=
  Netstate (NetData r) (netbufpool r) (netportseed r) (arpcache r) (udptab r) (udp_ident r)
    (udpto_ident r) (icmptab r) (ipident r) (ipoqueue r) v.

(** The variables before net_init. *)
Definition net_bss : netstate :=
  Netstate zero_network 0 0 (table ARP_SIZ (λ _, zero_arp)) (table UDP_SLOTS (λ _, zero_udp)) 1 1
    (table ICMP_SLOTS (λ _, zero_icmp)) 32767 (Iqentry 0 0 0 (replicate 8 0)) zero_eth.
