(* ===== verification/DevTypes.v ===== *)
(** The data of the device drivers: include/tty.h, uart.h, ramdisk.h and
    lfilesys.h.  [devstate] collects the drivers' global variables. *)

From S2P Require Import Prelude Types NetTypes.

(** ** tty.h *)

Definition TY_EBUFLEN : Z := 20.
Definition TY_IBUFLEN : Z := 128.
Definition TY_OBUFLEN : Z := 64.

Inductive tymode := TY_IMRAW | TY_IMCOOKED | TY_IMCBREAK.
#[export] Instance tymode_eq_dec : EqDecision tymode.
Proof. solve_decision. Defined.

(** The head and tail pointers of a buffer, as indices into it, and the buffer. *)
Record tyring := Ring {
  rhead : Z;
  rtail : Z;
  rbuff : list Z }.

(** The fields of [struct ttycblk] that only ttyinit sets. *)
Record ttyopts := Ttyopts {
  tyieback : bool;
  tyevis : bool;
  tyecrlf : bool;
  tyicrlf : bool;
  tyierase : bool;
  tyierasec : Z;
  tyierasec2 : Z;
  tyeof : bool;
  tyeofch : Z;
  tyikill : bool;
  tyikillc : Z;
  tyoflow : bool;
  tyostop : Z;
  tyostart : Z;
  tyocrlf : bool;
  tyifullc : Z }.

(** [tyi] is tyihead, tyitail and tyibuff, [tyo] tyohead, tyotail and tyobuff, [tye]
    tyehead, tyetail and tyebuff. *)
Record ttycblk := Ttycblk {
  tyi : tyring;
  tyisem : Z;
  tyo : tyring;
  tyosem : Z;
  tye : tyring;
  tyimode : tymode;
  tyiecho : bool;
  tyicursor : Z;
  tyoheld : bool;
  tyopts : ttyopts }.
Definition set_tyi (v : tyring) (r : ttycblk) : ttycblk :=
  Ttycblk v (tyisem r) (tyo r) (tyosem r) (tye r) (tyimode r) (tyiecho r) (tyicursor r)
    (tyoheld r) (tyopts r).
Definition set_tyo (v : tyring) (r : ttycblk) : ttycblk :=
  Ttycblk (tyi r) (tyisem r) v (tyosem r) (tye r) (tyimode r) (tyiecho r) (tyicursor r)
    (tyoheld r) (tyopts r).
Definition set_tye (v : tyring) (r : ttycblk) : ttycblk :=
  Ttycblk (tyi r) (tyisem r) (tyo r) (tyosem r) v (tyimode r) (tyiecho r) (tyicursor r)
    (tyoheld r) (tyopts r).
Definition set_tyimode (v : tymode) (r : ttycblk) : ttycblk :=
  Ttycblk (tyi r) (tyisem r) (tyo r) (tyosem r) (tye r) v (tyiecho r) (tyicursor r)
    (tyoheld r) (tyopts r).
Definition set_tyiecho (v : bool) (r : ttycblk) : ttycblk :=
  Ttycblk (tyi r) (tyisem r) (tyo r) (tyosem r) (tye r) (tyimode r) v (tyicursor r)
    (tyoheld r) (tyopts r).
Definition set_tyicursor (v : Z) (r : ttycblk) : ttycblk :=
  Ttycblk (tyi r) (tyisem r) (tyo r) (tyosem r) (tye r) (tyimode r) (tyiecho r) v (tyoheld r)
    (tyopts r).
Definition set_tyoheld (v : bool) (r : ttycblk) : ttycblk :=
  Ttycblk (tyi r) (tyisem r) (tyo r) (tyosem r) (tye r) (tyimode r) (tyiecho r) (tyicursor r)
    v (tyopts r).

(** The UART as the driver sees it: [u_rx] is what reads of the buffer register
    will return, [u_tx] what was written to it (oldest first), and the last value
    the hardware gave for the level of the transmit FIFO. *)
Record uart_csreg := Uart {
  u_rx : list Z;
  u_tx : list Z;
  u_ier : Z;
  txfifo_lvl : Z }.
Definition set_u_rx (v : list Z) (r : uart_csreg) : uart_csreg :=
  Uart v (u_tx r) (u_ier r) (txfifo_lvl r).
Definition set_u_tx (v : list Z) (r : uart_csreg) : uart_csreg :=
  Uart (u_rx r) v (u_ier r) (txfifo_lvl r).
Definition set_u_ier (v : Z) (r : uart_csreg) : uart_csreg :=
  Uart (u_rx r) (u_tx r) v (txfifo_lvl r).

(** ** lfilesys.h *)

Definition Nlfl : Z := 6.
Definition LF_BLKSIZ : Z := 512.
Definition LF_NAME_LEN : Z := 16.
Definition LF_NUM_DIR_ENT : Z := 20.
Definition LF_INULL : Z := -1.
Definition LF_DNULL : Z := -1.
Definition LF_IBLEN : Z := 16.
Definition LF_IDATA : Z := 8192.
Definition LF_IMASK : Z := 8191.
Definition LF_DMASK : Z := 511.
Definition LF_AREA_IB : Z := 1.
Definition LF_AREA_DIR : Z := 0.
Definition LFS_ID : Z := 1483304565.
Definition LF_MODE_R : Z := 1.
Definition LF_MODE_W : Z := 2.
Definition LF_MODE_RW : Z := 3.
Definition LF_MODE_N : Z := 4.
Definition LF_MODE_O : Z := 8.
Definition LF_CTL_TRUNC : Z := 2.

Inductive lfst := LF_FREE | LF_USED.
#[export] Instance lfst_eq_dec : EqDecision lfst.
Proof. solve_decision. Defined.

(** An index block. *)
Record lfiblk := Lfiblk {
  ib_next : Z;
  ib_offset : Z;
  ib_dba : list Z }.
Definition set_ib_next (v : Z) (r : lfiblk) : lfiblk :=
  Lfiblk v (ib_offset r) (ib_dba r).
Definition set_ib_offset (v : Z) (r : lfiblk) : lfiblk :=
  Lfiblk (ib_next r) v (ib_dba r).
Definition set_ib_dba (v : list Z) (r : lfiblk) : lfiblk :=
  Lfiblk (ib_next r) (ib_offset r) v.

(** An entry of the directory. *)
Record ldentry := Ldentry {
  ld_size : Z;
  ld_ilist : Z;
  ld_name : list Z }.
Definition set_ld_size (v : Z) (r : ldentry) : ldentry :=
  Ldentry v (ld_ilist r) (ld_name r).
Definition set_ld_ilist (v : Z) (r : ldentry) : ldentry :=
  Ldentry (ld_size r) v (ld_name r).

(** The directory. *)
Record lfdir := Lfdir {
  lfd_fsysid : Z;
  lfd_vers : Z;
  lfd_subvers : Z;
  lfd_allzeros : Z;
  lfd_allones : Z;
  lfd_dfree : Z;
  lfd_ifree : Z;
  lfd_nfiles : Z;
  lfd_files : list ldentry;
  lfd_revid : Z }.
Definition set_lfd_dfree (v : Z) (r : lfdir) : lfdir :=
  Lfdir (lfd_fsysid r) (lfd_vers r) (lfd_subvers r) (lfd_allzeros r) (lfd_allones r) v
    (lfd_ifree r) (lfd_nfiles r) (lfd_files r) (lfd_revid r).
Definition set_lfd_ifree (v : Z) (r : lfdir) : lfdir :=
  Lfdir (lfd_fsysid r) (lfd_vers r) (lfd_subvers r) (lfd_allzeros r) (lfd_allones r)
    (lfd_dfree r) v (lfd_nfiles r) (lfd_files r) (lfd_revid r).
Definition set_lfd_nfiles (v : Z) (r : lfdir) : lfdir :=
  Lfdir (lfd_fsysid r) (lfd_vers r) (lfd_subvers r) (lfd_allzeros r) (lfd_allones r)
    (lfd_dfree r) (lfd_ifree r) v (lfd_files r) (lfd_revid r).
Definition set_lfd_files (v : list ldentry) (r : lfdir) : lfdir :=
  Lfdir (lfd_fsysid r) (lfd_vers r) (lfd_subvers r) (lfd_allzeros r) (lfd_allones r)
    (lfd_dfree r) (lfd_ifree r) (lfd_nfiles r) v (lfd_revid r).

(** The global data of the file system. *)
Record lfdata := Lfdata {
  lf_dskdev : Z;
  lf_mutex : Z;
  lf_dir : lfdir;
  lf_dirpresent : bool;
  lf_dirdirty : bool }.
Definition set_lf_dir (v : lfdir) (r : lfdata) : lfdata :=
  Lfdata (lf_dskdev r) (lf_mutex r) v (lf_dirpresent r) (lf_dirdirty r).
Definition set_lf_dirpresent (v : bool) (r : lfdata) : lfdata :=
  Lfdata (lf_dskdev r) (lf_mutex r) (lf_dir r) v (lf_dirdirty r).
Definition set_lf_dirdirty (v : bool) (r : lfdata) : lfdata :=
  Lfdata (lf_dskdev r) (lf_mutex r) (lf_dir r) (lf_dirpresent r) v.

(** The control block of an open file; [lfdirptr] is the index of the file's entry
    in the directory (none: a null pointer), [lfbyte] an index into [lfdblock]. *)
Record lflcblk := Lflcblk {
  lfstate : lfst;
  lfdev : Z;
  lfmutex : Z;
  lfdirptr : option Z;
  lfmode : Z;
  lfpos : Z;
  lfname : list Z;
  lfinum : Z;
  lfiblock : lfiblk;
  lfdnum : Z;
  lfdblock : list Z;
  lfbyte : Z;
  lfibdirty : bool;
  lfdbdirty : bool }.
Definition set_lfstate (v : lfst) (r : lflcblk) : lflcblk :=
  Lflcblk v (lfdev r) (lfmutex r) (lfdirptr r) (lfmode r) (lfpos r) (lfname r) (lfinum r)
    (lfiblock r) (lfdnum r) (lfdblock r) (lfbyte r) (lfibdirty r) (lfdbdirty r).
Definition set_lfpos (v : Z) (r : lflcblk) : lflcblk :=
  Lflcblk (lfstate r) (lfdev r) (lfmutex r) (lfdirptr r) (lfmode r) v (lfname r) (lfinum r)
    (lfiblock r) (lfdnum r) (lfdblock r) (lfbyte r) (lfibdirty r) (lfdbdirty r).
Definition set_lfinum (v : Z) (r : lflcblk) : lflcblk :=
  Lflcblk (lfstate r) (lfdev r) (lfmutex r) (lfdirptr r) (lfmode r) (lfpos r) (lfname r) v
    (lfiblock r) (lfdnum r) (lfdblock r) (lfbyte r) (lfibdirty r) (lfdbdirty r).
Definition set_lfiblock (v : lfiblk) (r : lflcblk) : lflcblk :=
  Lflcblk (lfstate r) (lfdev r) (lfmutex r) (lfdirptr r) (lfmode r) (lfpos r) (lfname r)
    (lfinum r) v (lfdnum r) (lfdblock r) (lfbyte r) (lfibdirty r) (lfdbdirty r).
Definition set_lfdnum (v : Z) (r : lflcblk) : lflcblk :=
  Lflcblk (lfstate r) (lfdev r) (lfmutex r) (lfdirptr r) (lfmode r) (lfpos r) (lfname r)
    (lfinum r) (lfiblock r) v (lfdblock r) (lfbyte r) (lfibdirty r) (lfdbdirty r).
Definition set_lfdblock (v : list Z) (r : lflcblk) : lflcblk :=
  Lflcblk (lfstate r) (lfdev r) (lfmutex r) (lfdirptr r) (lfmode r) (lfpos r) (lfname r)
    (lfinum r) (lfiblock r) (lfdnum r) v (lfbyte r) (lfibdirty r) (lfdbdirty r).
Definition set_lfbyte (v : Z) (r : lflcblk) : lflcblk :=
  Lflcblk (lfstate r) (lfdev r) (lfmutex r) (lfdirptr r) (lfmode r) (lfpos r) (lfname r)
    (lfinum r) (lfiblock r) (lfdnum r) (lfdblock r) v (lfibdirty r) (lfdbdirty r).
Definition set_lfibdirty (v : bool) (r : lflcblk) : lflcblk :=
  Lflcblk (lfstate r) (lfdev r) (lfmutex r) (lfdirptr r) (lfmode r) (lfpos r) (lfname r)
    (lfinum r) (lfiblock r) (lfdnum r) (lfdblock r) (lfbyte r) v (lfdbdirty r).
Definition set_lfdbdirty (v : bool) (r : lflcblk) : lflcblk :=
  Lflcblk (lfstate r) (lfdev r) (lfmutex r) (lfdirptr r) (lfmode r) (lfpos r) (lfname r)
    (lfinum r) (lfiblock r) (lfdnum r) (lfdblock r) (lfbyte r) (lfibdirty r) v.

(** ** ramdisk.h *)

Definition RM_BLKSIZ : Z := 512.
Definition RM_BLKS : Z := 200.

(** ** The variables of all drivers and of the network code; [Ram] is the RAM disk,
    block by block. *)
Record devstate := Devstate {
  ttytab : gmap Z ttycblk;
  uart : uart_csreg;
  Ram : gmap Z (list Z);
  Lf_data : lfdata;
  lfltab : gmap Z lflcblk;
  net : netstate }.
Definition set_ttytab (v : gmap Z ttycblk) (r : devstate) : devstate :=
  Devstate v (uart r) (Ram r) (Lf_data r) (lfltab r) (net r).
Definition set_uart (v : uart_csreg) (r : devstate) : devstate :=
  Devstate (ttytab r) v (Ram r) (Lf_data r) (lfltab r) (net r).
Definition set_Ram (v : gmap Z (list Z)) (r : devstate) : devstate :=
  Devstate (ttytab r) (uart r) v (Lf_data r) (lfltab r) (net r).
Definition set_Lf_data (v : lfdata) (r : devstate) : devstate :=
  Devstate (ttytab r) (uart r) (Ram r) v (lfltab r) (net r).
Definition set_lfltab (v : gmap Z lflcblk) (r : devstate) : devstate :=
  Devstate (ttytab r) (uart r) (Ram r) (Lf_data r) v (net r).
Definition set_net (v : netstate) (r : devstate) : devstate :=
  Devstate (ttytab r) (uart r) (Ram r) (Lf_data r) (lfltab r) v.

(** The zeroed data segment.  A mode of 0 is none of the three; ttyinit sets the
    mode before anything reads it. *)
Definition zero_ring (n : nat) : tyring := Ring 0 0 (replicate n 0).
Definition zero_tty : ttycblk :=
  Ttycblk (zero_ring 128) 0 (zero_ring 64) 0 (zero_ring 20) TY_IMRAW false 0 false
    (Ttyopts false false false false false 0 0 false 0 false 0 false 0 0 false 0).
Definition zero_iblk : lfiblk := Lfiblk 0 0 (replicate 16 0).
Definition zero_dir : lfdir :=
  Lfdir 0 0 0 0 0 0 0 0 (replicate 20 (Ldentry 0 0 (replicate 16 0))) 0.
Definition zero_lfl : lflcblk :=
  Lflcblk LF_FREE 0 0 None 0 0 (replicate 16 0) 0 zero_iblk 0 (replicate 512 0) 0 false false.
Definition dev_bss : devstate :=
  Devstate {[0 := zero_tty]} (Uart [] [] 0 0) (table RM_BLKS (λ _, replicate 512 0))
    (Lfdata 0 0 zero_dir false false) (table Nlfl (λ _, zero_lfl)) net_bss.
