(* ===== verification/Kernel.v ===== *)
(** The kernel state and the monad of kernel code.

    [kst] collects the global (and static) variables of the kernel.  A kernel
    function is a computation [M A]: run in a state it is [Done], or it reaches
    the context switch in resched and stops ([Switch]) until the process is
    dispatched again, or it halts the processor ([Halt]), or it does something
    whose behaviour C leaves undefined ([Fault]: an access outside a table, a
    load or store outside memory). *)

From Stdlib Require Import FunctionalExtensionality.
From S2P Require Import Prelude Types Queue Heap DevTypes.

(** ** Structures of bufpool.h, ports.h and mark.h *)

Record bpentry := Bpentry { bpnext : Z; bpsem : Z; bpsize : Z }.
Record bufpools := Bufpools { buftab : gmap Z bpentry; nbpools : Z }.

Inductive ptstate_t := PT_FREE | PT_LIMBO | PT_ALLOC.
#[export] Instance ptstate_eq_dec : EqDecision ptstate_t.
Proof. solve_decision. Defined.

Record ptentry := Ptentry {
  ptssem : Z; ptrsem : Z; ptstate : ptstate_t; ptmaxcnt : Z; ptseq : Z;
  pthead : Z; pttail : Z }.
Record portstate := Portstate { porttab : gmap Z ptentry; ptfree : Z; ptnextid : Z }.

Record markstate := Markstate { marks : gmap Z Z; nmarks : Z; mkmutex : Z }.

(** ** The global variables *)

Record kst := Kst {
  queuetab : gmap Z qentry;
  nextqid : Z;
  proctab : gmap Z procent;
  prcount : Z;
  currpid : Z;
  nextpid : Z;
  semtab : gmap Z sentry;
  nextsem : Z;
  Defer : defer;
  readylist : Z;
  sleepq : Z;
  preempt : Z;
  clktime : Z;
  count1000 : Z;
  hp : heap;
  intr : bool;
  bufs : bufpools;
  ports : portstate;
  mks : markstate;
  dev : devstate }.

Definition set_queuetab (v : gmap Z qentry) (s : kst) : kst :=
  Kst v (nextqid s) (proctab s) (prcount s) (currpid s) (nextpid s) (semtab s) (nextsem s)
    (Defer s) (readylist s) (sleepq s) (preempt s) (clktime s) (count1000 s) (hp s) (intr s)
    (bufs s) (ports s) (mks s) (dev s).
Definition set_nextqid (v : Z) (s : kst) : kst :=
  Kst (queuetab s) v (proctab s) (prcount s) (currpid s) (nextpid s) (semtab s) (nextsem s)
    (Defer s) (readylist s) (sleepq s) (preempt s) (clktime s) (count1000 s) (hp s) (intr s)
    (bufs s) (ports s) (mks s) (dev s).
Definition set_proctab (v : gmap Z procent) (s : kst) : kst :=
  Kst (queuetab s) (nextqid s) v (prcount s) (currpid s) (nextpid s) (semtab s) (nextsem s)
    (Defer s) (readylist s) (sleepq s) (preempt s) (clktime s) (count1000 s) (hp s) (intr s)
    (bufs s) (ports s) (mks s) (dev s).
Definition set_prcount (v : Z) (s : kst) : kst :=
  Kst (queuetab s) (nextqid s) (proctab s) v (currpid s) (nextpid s) (semtab s) (nextsem s)
    (Defer s) (readylist s) (sleepq s) (preempt s) (clktime s) (count1000 s) (hp s) (intr s)
    (bufs s) (ports s) (mks s) (dev s).
Definition set_currpid (v : Z) (s : kst) : kst :=
  Kst (queuetab s) (nextqid s) (proctab s) (prcount s) v (nextpid s) (semtab s) (nextsem s)
    (Defer s) (readylist s) (sleepq s) (preempt s) (clktime s) (count1000 s) (hp s) (intr s)
    (bufs s) (ports s) (mks s) (dev s).
Definition set_nextpid (v : Z) (s : kst) : kst :=
  Kst (queuetab s) (nextqid s) (proctab s) (prcount s) (currpid s) v (semtab s) (nextsem s)
    (Defer s) (readylist s) (sleepq s) (preempt s) (clktime s) (count1000 s) (hp s) (intr s)
    (bufs s) (ports s) (mks s) (dev s).
Definition set_semtab (v : gmap Z sentry) (s : kst) : kst :=
  Kst (queuetab s) (nextqid s) (proctab s) (prcount s) (currpid s) (nextpid s) v (nextsem s)
    (Defer s) (readylist s) (sleepq s) (preempt s) (clktime s) (count1000 s) (hp s) (intr s)
    (bufs s) (ports s) (mks s) (dev s).
Definition set_nextsem (v : Z) (s : kst) : kst :=
  Kst (queuetab s) (nextqid s) (proctab s) (prcount s) (currpid s) (nextpid s) (semtab s) v
    (Defer s) (readylist s) (sleepq s) (preempt s) (clktime s) (count1000 s) (hp s) (intr s)
    (bufs s) (ports s) (mks s) (dev s).
Definition set_Defer (v : defer) (s : kst) : kst :=
  Kst (queuetab s) (nextqid s) (proctab s) (prcount s) (currpid s) (nextpid s) (semtab s)
    (nextsem s) v (readylist s) (sleepq s) (preempt s) (clktime s) (count1000 s) (hp s) (intr s)
    (bufs s) (ports s) (mks s) (dev s).
Definition set_readylist (v : Z) (s : kst) : kst :=
  Kst (queuetab s) (nextqid s) (proctab s) (prcount s) (currpid s) (nextpid s) (semtab s)
    (nextsem s) (Defer s) v (sleepq s) (preempt s) (clktime s) (count1000 s) (hp s) (intr s)
    (bufs s) (ports s) (mks s) (dev s).
Definition set_sleepq (v : Z) (s : kst) : kst :=
  Kst (queuetab s) (nextqid s) (proctab s) (prcount s) (currpid s) (nextpid s) (semtab s)
    (nextsem s) (Defer s) (readylist s) v (preempt s) (clktime s) (count1000 s) (hp s) (intr s)
    (bufs s) (ports s) (mks s) (dev s).
Definition set_preempt (v : Z) (s : kst) : kst :=
  Kst (queuetab s) (nextqid s) (proctab s) (prcount s) (currpid s) (nextpid s) (semtab s)
    (nextsem s) (Defer s) (readylist s) (sleepq s) v (clktime s) (count1000 s) (hp s) (intr s)
    (bufs s) (ports s) (mks s) (dev s).
Definition set_clktime (v : Z) (s : kst) : kst :=
  Kst (queuetab s) (nextqid s) (proctab s) (prcount s) (currpid s) (nextpid s) (semtab s)
    (nextsem s) (Defer s) (readylist s) (sleepq s) (preempt s) v (count1000 s) (hp s) (intr s)
    (bufs s) (ports s) (mks s) (dev s).
Definition set_count1000 (v : Z) (s : kst) : kst :=
  Kst (queuetab s) (nextqid s) (proctab s) (prcount s) (currpid s) (nextpid s) (semtab s)
    (nextsem s) (Defer s) (readylist s) (sleepq s) (preempt s) (clktime s) v (hp s) (intr s)
    (bufs s) (ports s) (mks s) (dev s).
Definition set_hp (v : heap) (s : kst) : kst :=
  Kst (queuetab s) (nextqid s) (proctab s) (prcount s) (currpid s) (nextpid s) (semtab s)
    (nextsem s) (Defer s) (readylist s) (sleepq s) (preempt s) (clktime s) (count1000 s) v
    (intr s) (bufs s) (ports s) (mks s) (dev s).
Definition set_intr (v : bool) (s : kst) : kst :=
  Kst (queuetab s) (nextqid s) (proctab s) (prcount s) (currpid s) (nextpid s) (semtab s)
    (nextsem s) (Defer s) (readylist s) (sleepq s) (preempt s) (clktime s) (count1000 s) (hp s)
    v (bufs s) (ports s) (mks s) (dev s).
Definition set_bufs (v : bufpools) (s : kst) : kst :=
  Kst (queuetab s) (nextqid s) (proctab s) (prcount s) (currpid s) (nextpid s) (semtab s)
    (nextsem s) (Defer s) (readylist s) (sleepq s) (preempt s) (clktime s) (count1000 s) (hp s)
    (intr s) v (ports s) (mks s) (dev s).
Definition set_ports (v : portstate) (s : kst) : kst :=
  Kst (queuetab s) (nextqid s) (proctab s) (prcount s) (currpid s) (nextpid s) (semtab s)
    (nextsem s) (Defer s) (readylist s) (sleepq s) (preempt s) (clktime s) (count1000 s) (hp s)
    (intr s) (bufs s) v (mks s) (dev s).
Definition set_mks (v : markstate) (s : kst) : kst :=
  Kst (queuetab s) (nextqid s) (proctab s) (prcount s) (currpid s) (nextpid s) (semtab s)
    (nextsem s) (Defer s) (readylist s) (sleepq s) (preempt s) (clktime s) (count1000 s) (hp s)
    (intr s) (bufs s) (ports s) v (dev s).
Definition set_dev (v : devstate) (s : kst) : kst :=
  Kst (queuetab s) (nextqid s) (proctab s) (prcount s) (currpid s) (nextpid s) (semtab s)
    (nextsem s) (Defer s) (readylist s) (sleepq s) (preempt s) (clktime s) (count1000 s) (hp s)
    (intr s) (bufs s) (ports s) (mks s) v.

(** ** Computations *)

Inductive outcome (A : Type) : Type :=
  | Done (a : A) (s : kst)
  | Switch (s : kst) (k : kst → outcome A)
  | Halt (s : kst)
  | Fault.
Arguments Done {A} a s.
Arguments Switch {A} s k.
Arguments Halt {A} s.
Arguments Fault {A}.

Definition M (A : Type) : Type := kst → outcome A.

Fixpoint obind {A B} (o : outcome A) (f : A → kst → outcome B) : outcome B :=
  match o with
  | Done a s => f a s
  | Switch s k => Switch s (λ s', obind (k s') f)
  | Halt s => Halt s
  | Fault => Fault
  end.

(** Sequencing is associative (computations that stop at a context switch are
    functions of the state they resume in). *)
Lemma obind_assoc {A B C} (o : outcome A) (f : A → kst → outcome B) (g : B → kst → outcome C) :
  obind (obind o f) g = obind o (λ a s, obind (f a s) g).
Proof.
  induction o as [a s|s k IH|s|]; cbn; [done| |done..].
  f_equal. apply functional_extensionality. exact IH.
Qed.

#[export] Instance M_ret : MRet M := λ A a s, Done a s.
#[export] Instance M_bind : MBind M := λ A B f m s, obind (m s) f.

Definition ret {A} (a : A) : M A := λ s, Done a s.
Definition gets {A} (f : kst → A) : M A := λ s, Done (f s) s.
Definition modify (f : kst → kst) : M unit := λ s, Done tt (f s).
Definition fault {A} : M A := λ _, Fault.
Definition halt : M unit := λ s, Halt s.

(** Operations of a component, run on its part of the state. *)
Definition qop {A} (f : gmap Z qentry → option (A * gmap Z qentry)) : M A := λ s,
  match f (queuetab s) with Some (a, t) => Done a (set_queuetab t s) | None => Fault end.
Definition qread {A} (f : gmap Z qentry → option A) : M A := λ s,
  match f (queuetab s) with Some a => Done a s | None => Fault end.
Definition hop {A} (f : heap → option (A * heap)) : M A := λ s,
  match f (hp s) with Some (a, h) => Done a (set_hp h s) | None => Fault end.
Definition hread {A} (f : heap → option A) : M A := λ s,
  match f (hp s) with Some a => Done a s | None => Fault end.
Definition hwrite (f : heap → option heap) : M unit := λ s,
  match f (hp s) with Some h => Done tt (set_hp h s) | None => Fault end.

(** [proctab[i]], [semtab[i]] *)
Definition getproc (i : Z) : M procent := λ s,
  match proctab s !! i with Some p => Done p s | None => Fault end.
Definition setproc (i : Z) (f : procent → procent) : M unit := λ s,
  match proctab s !! i with
  | Some p => Done tt (set_proctab (<[i := f p]> (proctab s)) s)
  | None => Fault
  end.
Definition getsem (i : Z) : M sentry := λ s,
  match semtab s !! i with Some e => Done e s | None => Fault end.
Definition setsem (i : Z) (f : sentry → sentry) : M unit := λ s,
  match semtab s !! i with
  | Some e => Done tt (set_semtab (<[i := f e]> (semtab s)) s)
  | None => Fault
  end.

(** ** intr.S: the interrupt mask; [intr] is true when interrupts are enabled. *)
Definition disable : M bool := λ s, Done (intr s) (set_intr false s).
Definition restore (mask : bool) : M unit := modify (set_intr mask).
Definition enable : M unit := modify (set_intr true).

(** ** ctxsw.S: leave the old process until it is dispatched again; the
    processor status is saved and restored with it. *)
Definition ctxsw (old new : Z) : M unit := λ s,
  if bool_decide (old = new) then Done tt s
  else Switch s (λ s', Done tt (set_intr (intr s) s')).

(** ** xdone.c, panic.c *)
Definition xdone : M unit := halt.
Definition panic : M unit := λ s, Halt (set_intr false s).
