(* ===== verification/KInv.v ===== *)
(** The kernel invariant and the program logic for kernel code.

    [core x Q s] says that the queues of state [s] are the lists [Q] and that
    every process is in exactly the queue its state calls for, except that
    process [x] (if any) is in no queue: operations take a process out of its
    queue, change its state, and put it into another one.  [Inv] is the
    invariant at the boundaries of system calls and at context switches.  [wp]
    is the weakest precondition of kernel code run by process [p]; a process
    that is switched away from may assume [Inv], and nothing else, when it is
    dispatched again. *)

From S2P Require Import Prelude Types Queue Heap Kernel.

(** ** Queue ids: semaphores first, then the ready list and the sleep queue
    (the order of the newqueue calls in sysinit). *)
Definition SEMQ (i : Z) : Z := NPROC + 2 * i.
Definition RDY : Z := NPROC + 2 * NSEM.
Definition SLP : Z := RDY + 2.

Definition valid_q (q : Z) : Prop := NPROC ≤ q ≤ SLP ∧ q mod 2 = 0.

(** The queue a process belongs to. *)
Definition qof (p : procent) : option Z :=
  match prstate p with
  | PR_READY => Some RDY
  | PR_SLEEP | PR_RECTIM => Some SLP
  | PR_WAIT => Some (SEMQ (prsem p))
  | _ => None
  end.

(** Ready processes are in descending key order. *)
Definition rsorted (t : gmap Z qentry) (l : list Z) : Prop :=
  StronglySorted (λ x y, keyof t y ≤ keyof t x) l.

(** The stack recorded in a process table entry is a region of the heap (or
    there is none). *)
Definition stk_ok (h : heap) (base len : Z) : Prop :=
  (base = 0 ∧ len = 0) ∨
  (0 < len ≤ 2147483648 ∧ minheap h ≤ base + 4 - roundmb len ∧
   (base + 4 - roundmb len) mod 8 = 0 ∧ base + 4 ≤ maxheap h).

Record core (x : option Z) (Q : gmap Z (list Z)) (s : kst) : Prop := Core {
  c_queues : qsys (queuetab s) Q;
  c_dom : ∀ q, is_Some (Q !! q) ↔ valid_q q;
  c_procs : is_table NPROC (proctab s);
  c_sems : is_table NSEM (semtab s);
  c_rdy : readylist s = RDY;
  c_slp : sleepq s = SLP;
  c_squeue : ∀ i e, semtab s !! i = Some e → squeue e = SEMQ i;
  c_where : ∀ pid p q l, Some pid ≠ x → proctab s !! pid = Some p → Q !! q = Some l →
    pid ∈ l ↔ qof p = Some q;
  c_prsem : ∀ pid p, Some pid ≠ x → proctab s !! pid = Some p → prstate p = PR_WAIT →
    0 ≤ prsem p < NSEM;
  c_null : ∀ p, Some NULLPROC ≠ x → proctab s !! NULLPROC = Some p →
    prstate p = PR_CURR ∨ prstate p = PR_READY;
  c_detached : ∀ pid, x = Some pid → detached Q pid;
  c_curr : ∀ pid p, proctab s !! pid = Some p → prstate p = PR_CURR → pid = currpid s;
  c_currpid : 0 ≤ currpid s < NPROC;
  c_prio : ∀ pid p, proctab s !! pid = Some p → -32768 ≤ prprio p < 32768;
  c_sorted : ∀ l, Q !! RDY = Some l → rsorted (queuetab s) l;
  c_nextpid : 0 ≤ nextpid s ≤ NPROC;
  c_nextsem : 0 ≤ nextsem s < NSEM;
  c_heap : ∃ l, heap_ok (hp s) l;
  c_stk : ∀ pid p, proctab s !! pid = Some p → stk_ok (hp s) (prstkbase p) (prstklen p) }.

(** A negative count is the number of waiting processes. *)
Definition sem_ok (e : sentry) (l : list Z) : Prop :=
  match sstate e with
  | S_FREE => l = []
  | S_USED => Z.of_nat (length l) = Z.max 0 (- scount e) ∧ scount e ≤ INT_MAX
  end.

Definition semcnt (Q : gmap Z (list Z)) (s : kst) : Prop :=
  ∀ i e l, semtab s !! i = Some e → Q !! SEMQ i = Some l → sem_ok e l.

Definition running (s : kst) : Prop :=
  ∃ p, proctab s !! currpid s = Some p ∧ prstate p = PR_CURR.

Definition live (s : kst) (pid : Z) : Prop :=
  ∃ p, proctab s !! pid = Some p ∧ prstate p ≠ PR_FREE.

Definition InvQ (Q : gmap Z (list Z)) (s : kst) : Prop :=
  core None Q s ∧ semcnt Q s ∧ running s ∧ ndefers (Defer s) = 0.
Definition Inv (s : kst) : Prop := ∃ Q, InvQ Q s.

(** ** Parts of the state the invariant does not read *)

(** Two states with the same scheduling state and heap. *)
Record csim (s s' : kst) : Prop := Csim {
  cs_queuetab : queuetab s' = queuetab s;
  cs_proctab : proctab s' = proctab s;
  cs_semtab : semtab s' = semtab s;
  cs_readylist : readylist s' = readylist s;
  cs_sleepq : sleepq s' = sleepq s;
  cs_currpid : currpid s' = currpid s;
  cs_nextpid : nextpid s' = nextpid s;
  cs_nextsem : nextsem s' = nextsem s;
  cs_hp : hp s' = hp s }.

#[export] Instance csim_equiv : Equivalence csim.
Proof.
  split.
  - by split.
  - by intros s s' []; split.
  - by intros s1 s2 s3 [] []; split; etrans.
Qed.

#[export] Instance core_proper x Q : Proper (csim ==> iff) (core x Q).
Proof.
  assert (∀ s s', csim s s' → core x Q s → core x Q s') as H.
  { intros s s' [E1 E2 E3 E4 E5 E6 E7 E8 E9] [].
    split; rewrite ?E1, ?E2, ?E3, ?E4, ?E5, ?E6, ?E7, ?E8, ?E9; done. }
  intros s s' E. split; apply H; [done|by symmetry].
Qed.

#[export] Instance semcnt_proper Q : Proper (csim ==> iff) (semcnt Q).
Proof. intros s s' []. unfold semcnt. by rewrite cs_semtab0. Qed.

#[export] Instance running_proper : Proper (csim ==> iff) running.
Proof. intros s s' []. unfold running. by rewrite cs_proctab0, cs_currpid0. Qed.

#[export] Instance live_proper : Proper (csim ==> eq ==> iff) live.
Proof. intros s s' [] ? ? ->. unfold live. by rewrite cs_proctab0. Qed.

Lemma InvQ_csim Q s s' : csim s s' → ndefers (Defer s') = 0 → InvQ Q s → InvQ Q s'.
Proof. intros E Hd (? & ? & ? & ?). split_and!; [by rewrite <- E..|done]. Qed.

(** [InvQ] of a state that differs only in parts the invariant does not read. *)
Ltac inv_frame H := eapply InvQ_csim; [|by destruct H as (? & ? & ? & ?)|exact H]; by split.

Lemma Inv_csim s s' : csim s s' → ndefers (Defer s') = 0 → Inv s → Inv s'.
Proof. intros E Hd [Q HQ]. exists Q. by eapply InvQ_csim. Qed.

Lemma Inv_intr b s : Inv s → Inv (set_intr b s).
Proof. intros H. eapply Inv_csim; [|by destruct H as (? & ? & ? & ? & ?)|done]. by split. Qed.

(** ** Reading the invariant *)

Lemma semq_valid i : 0 ≤ i < NSEM → valid_q (SEMQ i).
Proof.
  unfold valid_q, SEMQ, SLP, RDY, NPROC, NSEM. intros. Z.to_euclidean_division_equations; lia.
Qed.

Lemma rdy_valid : valid_q RDY.
Proof. unfold valid_q, SLP, RDY, NPROC, NSEM. split; [lia|done]. Qed.

Lemma slp_valid : valid_q SLP.
Proof. unfold valid_q, SLP, RDY, NPROC, NSEM. split; [lia|done]. Qed.

Lemma semq_inj i j : SEMQ i = SEMQ j → i = j.
Proof. unfold SEMQ. lia. Qed.

Lemma rdy_slp : RDY ≠ SLP.
Proof. done. Qed.

Lemma semq_not_rdy i : 0 ≤ i < NSEM → SEMQ i ≠ RDY ∧ SEMQ i ≠ SLP.
Proof. unfold SLP, RDY, SEMQ, NPROC, NSEM. lia. Qed.

#[export] Hint Resolve semq_valid rdy_valid slp_valid : xinu.

Lemma core_queue x Q s q : core x Q s → valid_q q → ∃ l, Q !! q = Some l.
Proof. intros Hc Hq. apply (c_dom _ _ _ Hc) in Hq as [l ?]. eauto. Qed.

Lemma core_proc x Q s pid : core x Q s → 0 ≤ pid < NPROC → ∃ p, proctab s !! pid = Some p.
Proof. intros Hc Hp. by apply is_table_get with NPROC; [apply Hc|]. Qed.

Lemma core_sem x Q s i : core x Q s → 0 ≤ i < NSEM → ∃ e, semtab s !! i = Some e.
Proof. intros Hc Hp. by apply is_table_get with NSEM; [apply Hc|]. Qed.

Lemma core_qof_valid x Q s pid p q :
  core x Q s → Some pid ≠ x → proctab s !! pid = Some p → qof p = Some q → valid_q q.
Proof.
  intros Hc Hx Hp Hq. pose proof (c_prsem _ _ _ Hc _ _ Hx Hp).
  unfold qof in Hq. destruct (prstate p); try done; injection Hq as <-; auto with xinu.
Qed.

Lemma core_qof_rdy x Q s pid p :
  core x Q s → Some pid ≠ x → proctab s !! pid = Some p → qof p = Some RDY → prstate p = PR_READY.
Proof.
  intros Hc Hx Hp Hq. pose proof (c_prsem _ _ _ Hc _ _ Hx Hp) as Hsem.
  unfold qof in Hq. destruct (prstate p); try done.
  injection Hq as Hq. by destruct (semq_not_rdy _ (Hsem eq_refl)).
Qed.

Lemma core_qof_slp x Q s pid p :
  core x Q s → Some pid ≠ x → proctab s !! pid = Some p → qof p = Some SLP →
  prstate p = PR_SLEEP ∨ prstate p = PR_RECTIM.
Proof.
  intros Hc Hx Hp Hq. pose proof (c_prsem _ _ _ Hc _ _ Hx Hp) as Hsem.
  unfold qof in Hq. destruct (prstate p); try done; auto.
  injection Hq as Hq. by destruct (semq_not_rdy _ (Hsem eq_refl)).
Qed.

Lemma core_qof_sem x Q s pid p i :
  core x Q s → Some pid ≠ x → proctab s !! pid = Some p → 0 ≤ i < NSEM →
  qof p = Some (SEMQ i) → prstate p = PR_WAIT ∧ prsem p = i.
Proof.
  intros Hc Hx Hp Hi Hq. destruct (semq_not_rdy _ Hi) as [? ?].
  unfold qof in Hq. destruct (prstate p); try done; injection Hq as Hq; try congruence.
  split; [done|]. by apply semq_inj.
Qed.

(** A process is found in its queue. *)
Lemma core_find x Q s pid p q :
  core x Q s → Some pid ≠ x → proctab s !! pid = Some p → qof p = Some q →
  ∃ l1 l2, Q !! q = Some (l1 ++ pid :: l2).
Proof.
  intros Hc Hx Hp Hq. destruct (core_queue x Q s q Hc) as [l Hl]; [by eapply core_qof_valid|].
  pose proof (proj2 (c_where _ _ _ Hc _ _ _ _ Hx Hp Hl) Hq) as Hin.
  apply list_elem_of_split in Hin as (l1 & l2 & ->). eauto.
Qed.

(** A process whose state calls for no queue is in none. *)
Lemma core_none_detached Q s pid p :
  core None Q s → proctab s !! pid = Some p → qof p = None → detached Q pid.
Proof.
  intros Hc Hp Hq q l Hl Hin. by apply (c_where _ _ _ Hc _ _ _ _ ltac:(done) Hp Hl) in Hin;
    rewrite Hq in Hin.
Qed.

Lemma core_detach Q s pid p :
  core None Q s → proctab s !! pid = Some p → qof p = None → core (Some pid) Q s.
Proof.
  intros Hc Hp Hq. pose proof (core_none_detached _ _ _ _ Hc Hp Hq) as Hd.
  destruct Hc. split; try done; [naive_solver..|]. by intros ? [= <-].
Qed.

(** ** Transitions *)

Lemma rsorted_keys t t' l :
  rsorted t l → (∀ x, x ∈ l → keyof t' x = keyof t x) → rsorted t' l.
Proof.
  unfold rsorted. induction 1 as [|a l Hl IH Ha]; intros Hk; constructor.
  - apply IH. intros x Hx. apply Hk. by right.
  - rewrite Forall_forall in Ha |- *. intros x Hx.
    rewrite !Hk; [by apply Ha|by left|by right].
Qed.

Lemma rsorted_remove t l1 x l2 : rsorted t (l1 ++ x :: l2) → rsorted t (l1 ++ l2).
Proof.
  unfold rsorted. induction l1 as [|a l1 IH]; cbn; inversion_clear 1 as [|? ? Hs Hf]; [done|].
  constructor; [by apply IH|]. rewrite Forall_app in Hf |- *. rewrite Forall_cons in Hf. naive_solver.
Qed.

(** Inserting by key keeps the ready list sorted. *)
Lemma rsorted_insert t t' x key l :
  rsorted t l → x ∉ l → keyof t' x = key → (∀ y, y ≠ x → keyof t' y = keyof t y) →
  rsorted t' (q_insert (keyof t) x key l).
Proof.
  unfold rsorted, q_insert. intros Hs Hx Hkx Hk.
  induction Hs as [|a l Hs IH Ha]; cbn [ins_split].
  { repeat constructor. }
  apply not_elem_of_cons in Hx as [Hxa Hxl].
  assert (∀ y, y ∈ l → keyof t' y = keyof t y) as Hkl by (intros y Hy; apply Hk; congruence).
  rewrite Forall_forall in Ha. case_bool_decide as Hka; cbn.
  - constructor; [by apply IH|]. rewrite Forall_forall. intros y Hy.
    rewrite (Hk a) by done.
    pose proof (ins_split_app (keyof t) key l) as Happ.
    apply elem_of_app in Hy as [Hy|[-> |Hy]%elem_of_cons].
    + assert (y ∈ l) by (rewrite <- Happ; set_solver). rewrite Hkl by done. by apply Ha.
    + lia.
    + assert (y ∈ l) by (rewrite <- Happ; set_solver). rewrite Hkl by done. by apply Ha.
  - constructor.
    + eapply rsorted_keys; [constructor; [exact Hs|by apply Forall_forall]|].
      intros y Hy. apply Hk. intros ->. set_solver.
    + apply Forall_forall. intros y [-> |Hy]%elem_of_cons; rewrite Hkx.
      * rewrite Hk by done. lia.
      * rewrite Hkl by done. specialize (Ha y Hy). lia.
Qed.

(** Take [pid] out of queue [q]. *)
Lemma core_unlink Q s q l1 pid l2 t' :
  core None Q s → Q !! q = Some (l1 ++ pid :: l2) →
  qsys t' (<[q := l1 ++ l2]> Q) →
  (∀ l, Q !! RDY = Some l → ∀ x, x ∈ l → x ≠ pid → keyof t' x = keyof (queuetab s) x) →
  core (Some pid) (<[q := l1 ++ l2]> Q) (set_queuetab t' s).
Proof.
  intros Hc Hq Hs' Hk. pose proof (c_queues _ _ _ Hc) as Hs.
  pose proof (detached_remove _ _ _ _ _ _ Hs Hq) as Hdet.
  pose proof (isq_nodup _ _ _ (qs_queue _ _ Hs _ _ Hq)) as Hnd.
  apply NoDup_app_swap_mid in Hnd as [Hpid _].
  destruct Hc. split; cbn; try done.
  - intros q2. rewrite lookup_insert. case_decide; subst; [|by apply c_dom0].
    rewrite <- c_dom0, Hq. split; by eexists.
  - intros pid2 p q2 l Hne Hp. rewrite lookup_insert. case_decide; subst; [|naive_solver].
    intros [= <-]. rewrite <- (c_where0 pid2 p q2) by done.
    assert (pid2 ≠ pid) by congruence. set_solver.
  - naive_solver.
  - naive_solver.
  - by intros ? [= <-].
  - intros l. rewrite lookup_insert. case_decide; subst.
    + intros [= <-]. eapply rsorted_keys; [by eapply rsorted_remove, c_sorted0|].
      intros x Hx. eapply Hk; [done|set_solver|]. by intros ->.
    + intros Hl. eapply rsorted_keys; [by apply c_sorted0|].
      intros x Hx. eapply Hk; [done..|]. intros ->.
      assert (q = RDY); [|done]. eapply (qs_disj _ _ Hs); [exact Hq|exact Hl| |done]. set_solver.
Qed.

(** Put the detached [pid] into the queue its state calls for. *)
Lemma core_link Q s q l l' pid p t' :
  core (Some pid) Q s → proctab s !! pid = Some p → qof p = Some q →
  (prstate p = PR_WAIT → 0 ≤ prsem p < NSEM) →
  (pid = NULLPROC → prstate p = PR_READY) →
  Q !! q = Some l → l' ≡ₚ pid :: l → qsys t' (<[q := l']> Q) →
  (∀ l, Q !! RDY = Some l → ∀ x, x ∈ l → keyof t' x = keyof (queuetab s) x) →
  (q = RDY → rsorted t' l') →
  core None (<[q := l']> Q) (set_queuetab t' s).
Proof.
  intros Hc Hp Hqof Hsem Hnull Hq Hperm Hs' Hk Hsort.
  pose proof (c_queues _ _ _ Hc) as Hs.
  pose proof (c_detached _ _ _ Hc pid eq_refl) as Hdet.
  destruct Hc. split; cbn; try done.
  - intros q2. rewrite lookup_insert. case_decide; subst; [|by apply c_dom0].
    rewrite <- c_dom0, Hq. split; by eexists.
  - intros pid2 p2 q2 l2 _ Hp2. rewrite lookup_insert. case_decide; subst.
    + intros [= <-]. rewrite Hperm, elem_of_cons.
      destruct (decide (pid2 = pid)) as [->|Hne].
      * assert (p2 = p) as -> by congruence. split; [done|]. by left.
      * rewrite <- (c_where0 pid2 p2 q2 l) by (done || by intros [= ->]). naive_solver.
    + intros Hl2. destruct (decide (pid2 = pid)) as [->|Hne].
      * assert (p2 = p) as -> by congruence. split; [|congruence].
        intros Hin. by apply Hdet in Hl2.
      * apply c_where0; [by intros [= ?]|done..].
  - intros pid2 p2 _ Hp2 Hst. destruct (decide (pid2 = pid)) as [->|Hne].
    + assert (p2 = p) as -> by congruence. auto.
    + apply (c_prsem0 pid2 p2); [by intros [= ?]|done..].
  - intros p2 _ Hp2. destruct (decide (NULLPROC = pid)) as [<-|Hne].
    + assert (p2 = p) as -> by congruence. auto.
    + apply c_null0; [by intros [= ?]|done].
  - intros l2. rewrite lookup_insert. case_decide as Heq; [|].
    + intros [= <-]. auto.
    + intros Hl2. eapply rsorted_keys; [by apply c_sorted0|]. by apply Hk.
Qed.

(** The entry of a detached process may change. *)
Lemma core_setproc_detached Q s pid p :
  core (Some pid) Q s → 0 ≤ pid < NPROC →
  (prstate p = PR_CURR → pid = currpid s) →
  -32768 ≤ prprio p < 32768 → stk_ok (hp s) (prstkbase p) (prstklen p) →
  core (Some pid) Q (set_proctab (<[pid := p]> (proctab s)) s).
Proof.
  intros Hc Hpid Hcur Hprio Hstk. destruct Hc. split; cbn; try done.
  - auto with xinu.
  - intros pid2 p2 q l Hne. rewrite lookup_insert_ne by congruence. by apply c_where0.
  - intros pid2 p2 Hne. rewrite lookup_insert_ne by congruence. by apply c_prsem0.
  - intros p2 Hne. rewrite lookup_insert_ne by congruence. by apply c_null0.
  - intros pid2 p2. rewrite lookup_insert. case_decide; subst; [|eauto].
    intros [= <-]. done.
  - intros pid2 p2. rewrite lookup_insert. case_decide; subst; [|eauto]. by intros [= <-].
  - intros pid2 p2. rewrite lookup_insert. case_decide; subst; [|eauto]. by intros [= <-].
Qed.

(** A detached process whose state calls for no queue is where it belongs. *)
Lemma core_drop Q s pid p :
  core (Some pid) Q s → proctab s !! pid = Some p → qof p = None →
  (pid = NULLPROC → prstate p = PR_CURR) →
  core None Q s.
Proof.
  intros Hc Hp Hq Hn. destruct Hc. split; try done.
  - intros pid2 p2 q l _ Hp2 Hl. destruct (decide (pid2 = pid)) as [->|Hne].
    + assert (p2 = p) as -> by congruence. rewrite Hq. split; [|done].
      intros Hin. by apply (c_detached0 _ eq_refl) in Hl.
    + apply c_where0; [by intros [= ?]|done..].
  - intros pid2 p2 _ Hp2 Hst. destruct (decide (pid2 = pid)) as [->|Hne].
    + assert (p2 = p) as -> by congruence. unfold qof in Hq. by rewrite Hst in Hq.
    + apply (c_prsem0 pid2 p2); [by intros [= ?]|done..].
  - intros p2 _ Hp2. destruct (decide (NULLPROC = pid)) as [<-|Hne].
    + assert (p2 = p) as -> by congruence. auto.
    + apply c_null0; [by intros [= ?]|done].
Qed.

(** Fields that do not matter for scheduling may change at any time. *)
Lemma core_setproc_same x Q s pid p p' :
  core x Q s → proctab s !! pid = Some p →
  prstate p' = prstate p → prsem p' = prsem p →
  -32768 ≤ prprio p' < 32768 → stk_ok (hp s) (prstkbase p') (prstklen p') →
  core x Q (set_proctab (<[pid := p']> (proctab s)) s).
Proof.
  intros Hc Hp Hst Hsem Hprio Hstk.
  assert (qof p' = qof p) as Hq by (unfold qof; by rewrite Hst, Hsem).
  assert (0 ≤ pid < NPROC) by (by eapply is_table_bound; [apply Hc|]).
  destruct Hc. split; cbn; try done.
  - auto with xinu.
  - intros pid2 p2 q l Hne. rewrite lookup_insert. case_decide; subst; [|by apply c_where0].
    intros [= <-]. rewrite Hq. by apply c_where0.
  - intros pid2 p2 Hne. rewrite lookup_insert. case_decide; subst; [|by apply c_prsem0].
    intros [= <-]. rewrite Hst, Hsem. by eapply c_prsem0.
  - intros p2 Hne. rewrite lookup_insert. case_decide; subst; [|by apply c_null0].
    intros [= <-]. rewrite Hst. by eapply c_null0.
  - intros pid2 p2. rewrite lookup_insert. case_decide; subst; [|eauto].
    intros [= <-]. rewrite Hst. eauto.
  - intros pid2 p2. rewrite lookup_insert. case_decide; subst; [|eauto]. by intros [= <-].
  - intros pid2 p2. rewrite lookup_insert. case_decide; subst; [|eauto]. by intros [= <-].
Qed.

Lemma core_setsem x Q s i e :
  core x Q s → 0 ≤ i < NSEM → squeue e = SEMQ i →
  core x Q (set_semtab (<[i := e]> (semtab s)) s).
Proof.
  intros Hc Hi He. destruct Hc. split; cbn; try done.
  - auto with xinu.
  - intros i2 e2. rewrite lookup_insert. case_decide; subst; [|eauto]. by intros [= <-].
Qed.

Lemma core_set_nextsem x Q s n :
  core x Q s → 0 ≤ n < NSEM → core x Q (set_nextsem n s).
Proof. intros [] ?. by split. Qed.

Lemma core_set_nextpid x Q s n :
  core x Q s → 0 ≤ n ≤ NPROC → core x Q (set_nextpid n s).
Proof. intros [] ?. by split. Qed.

Lemma core_set_hp x Q s h :
  core x Q s → (∃ l, heap_ok h l) → minheap h = minheap (hp s) → maxheap h = maxheap (hp s) →
  core x Q (set_hp h s).
Proof.
  intros [] ? Hmin Hmax. split; try done. cbn. intros pid p Hp.
  specialize (c_stk0 _ _ Hp). unfold stk_ok in *. by rewrite Hmin, Hmax.
Qed.

(** ** Weakest preconditions *)

(** Code run by process [p]: no undefined behaviour, the invariant holds at
    every context switch, and the result satisfies [Q].  A process that is
    still alive when it is switched away from continues in any state that
    satisfies the invariant and in which it is the current process. *)
Fixpoint wp {A} (p : Z) (o : outcome A) (Q : A → kst → Prop) : Prop :=
  match o with
  | Done a s => Q a s
  | Switch s k =>
      Inv s ∧ currpid s ≠ p ∧
      (live s p → ∀ s', Inv s' → currpid s' = p → wp p (k s') Q)
  | Halt _ => True
  | Fault => False
  end.

Lemma wp_mono {A} p (o : outcome A) (Q Q' : A → kst → Prop) :
  wp p o Q → (∀ a s, Q a s → Q' a s) → wp p o Q'.
Proof.
  intros Hw HQ. revert Hw. induction o as [a s|s k IH|s|]; cbn; [auto| |done..].
  intros (? & ? & Hk). split_and!; [done..|]. intros Hl s' Hi Hc. by apply IH, Hk.
Qed.

Lemma wp_obind {A B} p (o : outcome A) (f : A → kst → outcome B) Q :
  wp p o (λ a s, wp p (f a s) Q) → wp p (obind o f) Q.
Proof.
  induction o as [a s|s k IH|s|]; cbn; [done| |done..].
  intros (? & ? & Hk). split_and!; [done..|]. intros Hl s' Hi Hc. by apply IH, Hk.
Qed.

Lemma wp_bind {A B} p (m : M A) (f : A → M B) s Q :
  wp p (m s) (λ a s', wp p (f a s') Q) → wp p ((m ≫= f) s) Q.
Proof. apply wp_obind. Qed.

(** *** Running the primitives *)

Lemma getproc_some i s p : proctab s !! i = Some p → getproc i s = Done p s.
Proof. unfold getproc. by intros ->. Qed.

Lemma setproc_some i f s p :
  proctab s !! i = Some p →
  setproc i f s = Done tt (set_proctab (<[i := f p]> (proctab s)) s).
Proof. unfold setproc. by intros ->. Qed.

Lemma getsem_some i s e : semtab s !! i = Some e → getsem i s = Done e s.
Proof. unfold getsem. by intros ->. Qed.

Lemma setsem_some i f s e :
  semtab s !! i = Some e →
  setsem i f s = Done tt (set_semtab (<[i := f e]> (semtab s)) s).
Proof. unfold setsem. by intros ->. Qed.

Lemma qop_some {A} (f : gmap Z qentry → option (A * gmap Z qentry)) s a t :
  f (queuetab s) = Some (a, t) → qop f s = Done a (set_queuetab t s).
Proof. unfold qop. by intros ->. Qed.

Lemma qread_some {A} (f : gmap Z qentry → option A) s a :
  f (queuetab s) = Some a → qread f s = Done a s.
Proof. unfold qread. by intros ->. Qed.

Lemma hop_some {A} (f : heap → option (A * heap)) s a h :
  f (hp s) = Some (a, h) → hop f s = Done a (set_hp h s).
Proof. unfold hop. by intros ->. Qed.

Lemma M_bind_eq {A B} (m : M A) (f : A → M B) s : (m ≫= f) s = obind (m s) f.
Proof. done. Qed.

(** Reduce the monad's plumbing. *)
Ltac kred :=
  repeat first
    [ rewrite M_bind_eq
    | progress cbn [obind gets modify ret disable restore enable fault halt xdone panic
       queuetab nextqid proctab prcount currpid nextpid semtab nextsem Defer readylist sleepq
       preempt clktime count1000 hp intr bufs ports mks dev
       set_queuetab set_nextqid set_proctab set_prcount set_currpid set_nextpid set_semtab
       set_nextsem set_Defer set_readylist set_sleepq set_preempt set_clktime set_count1000
       set_hp set_intr set_bufs set_ports set_mks set_dev ] ].

(** What every system call guarantees to its caller [p]: it returns with the
    invariant, to the process that called it, and with the interrupt mask the
    caller had; on the way it faults nowhere. *)
Definition back (p : Z) (i : bool) (s' : kst) : Prop :=
  Inv s' ∧ currpid s' = p ∧ intr s' = i.

Definition safe_call {A} (m : M A) (s : kst) : Prop :=
  wp (currpid s) (m s) (λ _ s', back (currpid s) (intr s) s').

Lemma back_intr p i j s : back p i s → back p j (set_intr j s).
Proof. intros (HI & Hp & _). split; [by apply Inv_intr|done]. Qed.

#[export] Hint Resolve Inv_intr back_intr : xinu.

Lemma InvQ_Inv Q s : InvQ Q s → Inv s.
Proof. by exists Q. Qed.
#[export] Hint Resolve InvQ_Inv : xinu.

(** The entry of a running process. *)
Lemma running_proc Q s : InvQ Q s → ∃ p, proctab s !! currpid s = Some p ∧ prstate p = PR_CURR.
Proof. by intros (_ & _ & ? & _). Qed.

(** getitem takes a process out of the queue it is in. *)
Lemma take_out Q s pid p q :
  core None Q s → proctab s !! pid = Some p → qof p = Some q →
  ∃ l1 l2 t', Q !! q = Some (l1 ++ pid :: l2) ∧
    getitem pid (queuetab s) = Some (pid, t') ∧
    core (Some pid) (<[q := l1 ++ l2]> Q) (set_queuetab t' s) ∧
    (∀ j, ky t' j = ky (queuetab s) j).
Proof.
  intros Hc Hp Hq. destruct (core_find _ _ _ _ _ _ Hc ltac:(done) Hp Hq) as (l1 & l2 & Hl).
  destruct (getitem_spec _ _ _ _ _ _ (c_queues _ _ _ Hc) Hl) as (t' & Hg & Hs' & Hk).
  exists l1, l2, t'. split_and!; try done.
  eapply core_unlink; [done..|]. intros l Hl' x Hx _. by apply keyof_eq.
Qed.

Lemma running_insert s pid p :
  running s → pid ≠ currpid s → running (set_proctab (<[pid := p]> (proctab s)) s).
Proof. intros (pc & ? & ?) ?. exists pc. cbn. by rewrite lookup_insert_ne. Qed.

(** The current process changes to a state that calls for no queue. *)
Lemma core_park Q s p p' :
  core None Q s → proctab s !! currpid s = Some p → prstate p = PR_CURR →
  currpid s ≠ NULLPROC → qof p' = None →
  -32768 ≤ prprio p' < 32768 → stk_ok (hp s) (prstkbase p') (prstklen p') →
  core None Q (set_proctab (<[currpid s := p']> (proctab s)) s).
Proof.
  intros Hc Hp Hcur Hn Hq Hprio Hstk.
  eapply (core_drop Q _ (currpid s) p').
  - apply core_setproc_detached; [|exact (c_currpid _ _ _ Hc)|done..].
    eapply core_detach; [done..|]. unfold qof. by rewrite Hcur.
  - apply lookup_insert_eq.
  - done.
  - done.
Qed.

(** The current process changes its state and is put into the queue that the
    new state calls for. *)
Lemma core_block Q s p p' q l l' t' :
  core None Q s → proctab s !! currpid s = Some p → prstate p = PR_CURR →
  currpid s ≠ NULLPROC → prstate p' ≠ PR_CURR → qof p' = Some q → q ≠ RDY →
  (prstate p' = PR_WAIT → 0 ≤ prsem p' < NSEM) →
  -32768 ≤ prprio p' < 32768 → stk_ok (hp s) (prstkbase p') (prstklen p') →
  Q !! q = Some l → l' ≡ₚ currpid s :: l → qsys t' (<[q := l']> Q) →
  (∀ x, x ∉ l → x ≠ currpid s → ky t' x = ky (queuetab s) x) →
  core None (<[q := l']> Q)
    (set_queuetab t' (set_proctab (<[currpid s := p']> (proctab s)) s)).
Proof.
  intros Hc Hp Hcur Hn Hcur' Hqof Hrdy Hsem Hprio Hstk Hl Hperm Hs' Hk.
  assert (qof p = None) as Hq0 by (unfold qof; by rewrite Hcur).
  pose proof (core_detach _ _ _ _ Hc Hp Hq0) as Hc1.
  eapply core_link; [|cbn; apply lookup_insert_eq|done|done|done|done|done|done| |done].
  - by apply core_setproc_detached; [|exact (c_currpid _ _ _ Hc)|..].
  - intros lr Hlr x Hx. apply keyof_eq, Hk.
    + intros Hxl. apply Hrdy. by eapply (qs_disj _ _ (c_queues _ _ _ Hc) q RDY).
    + intros ->. by eapply (c_detached _ _ _ Hc1).
Qed.
