(* ===== verification/Sched.v ===== *)
(** Scheduling: system/resched.c, ready.c, resume.c, suspend.c, chprio.c,
    getprio.c, getpid.c, yield.c. *)

From S2P Require Import Prelude Types Queue Heap Kernel KInv.

(** ** resched.c *)

(** The second half of resched: dispatch the first ready process. *)
Definition dispatch (old : Z) : M unit :=
  rl ← gets readylist;
  pid ← qop (dequeue rl);
  modify (set_currpid pid);;
  setproc pid (set_prstate PR_CURR);;
  modify (set_preempt QUANTUM);;
  ctxsw old pid.

Definition resched : M unit :=
  d ← gets Defer;
  if bool_decide (0 < ndefers d) then modify (set_Defer (Defer_ (ndefers d) true))
  else
    old ← gets currpid;
    ptold ← getproc old;
    if bool_decide (prstate ptold = PR_CURR) then
      rl ← gets readylist;
      fk ← qread (firstkey rl);
      if bool_decide (fk < prprio ptold) then ret tt
      else
        setproc old (set_prstate PR_READY);;
        pt ← gets proctab;
        _ ← qop (insert pt old rl (prprio ptold));
        dispatch old
    else dispatch old.

Definition resched_cntl (df : Z) : M Z :=
  if bool_decide (df = DEFER_START) then
    d ← gets Defer;
    modify (set_Defer (Defer_ (s32 (ndefers d + 1))
                              (if bool_decide (ndefers d = 0) then false else attempt d)));;
    ret OK
  else if bool_decide (df = DEFER_STOP) then
    d ← gets Defer;
    if bool_decide (ndefers d ≤ 0) then ret SYSERR
    else
      modify (set_Defer (Defer_ (ndefers d - 1) (attempt d)));;
      (if bool_decide (ndefers d - 1 = 0) && attempt d then resched else ret tt);;
      ret OK
  else ret SYSERR.

(** ** ready.c *)
Definition ready (pid : Z) : M Z :=
  pt ← gets proctab;
  if isbadpid pt pid then ret SYSERR
  else
    setproc pid (set_prstate PR_READY);;
    prptr ← getproc pid;
    rl ← gets readylist;
    pt ← gets proctab;
    _ ← qop (insert pt pid rl (prprio prptr));
    resched;;
    ret OK.

(** ** resume.c *)
Definition resume (pid : Z) : M Z :=
  mask ← disable;
  pt ← gets proctab;
  if isbadpid pt pid then restore mask;; ret (s16 SYSERR)
  else
    prptr ← getproc pid;
    if bool_decide (prstate prptr ≠ PR_SUSP) then restore mask;; ret (s16 SYSERR)
    else
      let prio := prprio prptr in
      _ ← ready pid;
      restore mask;;
      ret prio.

(** ** suspend.c *)
Definition suspend (pid : Z) : M Z :=
  mask ← disable;
  pt ← gets proctab;
  if isbadpid pt pid || bool_decide (pid = NULLPROC) then restore mask;; ret SYSERR
  else
    prptr ← getproc pid;
    if bool_decide (prstate prptr ≠ PR_CURR) && bool_decide (prstate prptr ≠ PR_READY)
    then restore mask;; ret SYSERR
    else
      (if bool_decide (prstate prptr = PR_READY) then
         _ ← qop (getitem pid);
         setproc pid (set_prstate PR_SUSP)
       else
         setproc pid (set_prstate PR_SUSP);;
         resched);;
      prptr ← getproc pid;
      restore mask;;
      ret (prprio prptr).

(** ** chprio.c *)
Definition chprio (pid newprio : Z) : M Z :=
  mask ← disable;
  pt ← gets proctab;
  if isbadpid pt pid then restore mask;; ret (s16 SYSERR)
  else
    prptr ← getproc pid;
    let oldprio := prprio prptr in
    setproc pid (set_prprio newprio);;
    restore mask;;
    ret oldprio.

(** ** getprio.c, getpid.c, yield.c *)
Definition getprio (pid : Z) : M Z :=
  mask ← disable;
  pt ← gets proctab;
  if isbadpid pt pid then restore mask;; ret SYSERR
  else
    prptr ← getproc pid;
    let prio := u32 (prprio prptr) in
    restore mask;;
    ret (s32 prio).

Definition getpid : M Z := gets currpid.

Definition yield : M Z :=
  mask ← disable;
  resched;;
  restore mask;;
  ret OK.

(** * Specifications *)

(** dispatch switches to the first ready process. *)
Lemma dispatch_spec Q s old x l :
  core None Q s → semcnt Q s → ndefers (Defer s) = 0 →
  (∀ p, proctab s !! currpid s = Some p → prstate p ≠ PR_CURR) →
  Q !! RDY = Some (x :: l) → x ≠ old →
  ∃ s1 px, dispatch old s = Switch s1 (λ s', Done tt (set_intr (intr s) s')) ∧
    InvQ (<[RDY := l]> Q) s1 ∧ currpid s1 = x ∧
    proctab s !! x = Some px ∧ proctab s1 = <[x := set_prstate PR_CURR px]> (proctab s) ∧
    semtab s1 = semtab s ∧ intr s1 = intr s ∧ preempt s1 = QUANTUM ∧
    (∀ j, keyof (queuetab s1) j = keyof (queuetab s) j).
Proof.
  intros Hc Hsc Hd Hcur Hr Hx.
  pose proof (isq_pids _ _ _ (qs_queue _ _ (c_queues _ _ _ Hc) _ _ Hr)) as [Hxr _]%Forall_cons.
  destruct (core_proc _ _ _ x Hc Hxr) as [px Hpx].
  destruct (dequeue_spec _ _ _ _ _ (c_queues _ _ _ Hc) Hr) as (t1 & Hdq & Hs1 & Hk1).
  pose proof (core_unlink Q s RDY [] x l t1 Hc Hr Hs1) as Hc1.
  specialize (Hc1 ltac:(intros; by apply keyof_eq)).
  assert (∀ pid p, proctab s !! pid = Some p → prstate p ≠ PR_CURR) as Hnc.
  { intros pid p Hp Hst. pose proof (c_curr _ _ _ Hc _ _ Hp Hst) as ->. by eapply Hcur. }
  unfold dispatch. kred. erewrite qop_some by (rewrite (c_rdy _ _ _ Hc); exact Hdq). kred.
  erewrite setproc_some by exact Hpx. kred. unfold ctxsw. rewrite bool_decide_eq_false_2 by done.
  eexists _, px. split; [done|].
  split; [|split_and!; try done; intros j; by apply keyof_eq].
  assert (qof px = Some RDY) as Hqx.
  { apply (c_where _ _ _ Hc x px RDY (x :: l)); [done|done|done|by left]. }
  split_and!; cbn.
  - eapply core_drop; [|cbn; by rewrite lookup_insert_eq|done|done].
    destruct Hc1. split; cbn in *; try done.
    + auto with xinu.
    + intros pid2 p2 q2 l2 Hne. rewrite lookup_insert_ne by congruence. by apply c_where.
    + intros pid2 p2 Hne. rewrite lookup_insert_ne by congruence. by apply c_prsem.
    + intros p2 Hne. rewrite lookup_insert_ne by congruence. by apply c_null.
    + intros pid2 p2. rewrite lookup_insert. case_decide; [done|].
      intros Hp2 Hst. exfalso. by eapply Hnc.
    + intros pid2 p2. rewrite lookup_insert. case_decide; subst; [|eauto].
      intros [= <-]. cbn. eauto.
    + intros pid2 p2. rewrite lookup_insert. case_decide; subst; [|eauto].
      intros [= <-]. cbn. eauto.
  - intros i e l2 He. cbn in He. rewrite lookup_insert_ne; [by apply Hsc|].
    pose proof (is_table_bound _ _ _ _ (c_sems _ _ _ Hc) He).
    by destruct (semq_not_rdy i) as [? _].
  - exists (set_prstate PR_CURR px). cbn. by rewrite lookup_insert_eq.
  - done.
Qed.

(** The null process is ready whenever it is not running. *)
Lemma ready_nonempty Q s :
  core None Q s → (∀ p, proctab s !! currpid s = Some p → prstate p ≠ PR_CURR) →
  ∃ x l, Q !! RDY = Some (x :: l).
Proof.
  intros Hc Hcur. destruct (core_proc _ _ _ NULLPROC Hc ltac:(done)) as [p0 Hp0].
  destruct (c_null _ _ _ Hc p0 ltac:(done) Hp0) as [Hst|Hst].
  - exfalso. eapply (Hcur p0); [|done]. by rewrite <- (c_curr _ _ _ Hc _ _ Hp0 Hst).
  - destruct (core_find _ _ _ NULLPROC p0 RDY Hc) as ([|x l1] & l2 & Hl);
      [done|done|unfold qof; by rewrite Hst|..]; eauto.
Qed.

Lemma resched_deferred s :
  0 < ndefers (Defer s) → resched s = Done tt (set_Defer (Defer_ (ndefers (Defer s)) true) s).
Proof. intros H. unfold resched. kred. by rewrite bool_decide_eq_true_2. Qed.

(** The current process is no longer current: resched switches to the first
    ready process. *)
Lemma resched_blocked Q s p :
  core None Q s → semcnt Q s → ndefers (Defer s) = 0 →
  proctab s !! currpid s = Some p → prstate p ≠ PR_CURR → prstate p ≠ PR_READY →
  ∃ x l s1 px, Q !! RDY = Some (x :: l) ∧ x ≠ currpid s ∧
    resched s = Switch s1 (λ s', Done tt (set_intr (intr s) s')) ∧
    InvQ (<[RDY := l]> Q) s1 ∧ currpid s1 = x ∧
    proctab s !! x = Some px ∧ proctab s1 = <[x := set_prstate PR_CURR px]> (proctab s) ∧
    semtab s1 = semtab s ∧ intr s1 = intr s ∧ preempt s1 = QUANTUM ∧
    (∀ j, keyof (queuetab s1) j = keyof (queuetab s) j).
Proof.
  intros Hc Hsc Hd Hp Hst Hst'.
  assert (∀ p, proctab s !! currpid s = Some p → prstate p ≠ PR_CURR) as Hcur.
  { intros p' Hp'. congruence. }
  destruct (ready_nonempty _ _ Hc Hcur) as (x & l & Hl).
  assert (x ≠ currpid s) as Hx.
  { intros ->. apply Hst'. eapply core_qof_rdy; [done..|].
    eapply (c_where _ _ _ Hc); [done|done|done|by left]. }
  destruct (dispatch_spec Q s (currpid s) x l) as (s1 & px & ? & ?); [done..|].
  exists x, l, s1, px. split_and!; try done; try tauto.
  unfold resched. kred. rewrite bool_decide_eq_false_2 by lia. kred.
  erewrite getproc_some by done. kred. by rewrite bool_decide_eq_false_2.
Qed.

(** The current process keeps the processor: only when its priority exceeds
    the key of every ready process. *)
Lemma resched_stay Q s p l :
  core None Q s → ndefers (Defer s) = 0 →
  proctab s !! currpid s = Some p → prstate p = PR_CURR →
  Q !! RDY = Some l → first_key (queuetab s) l < prprio p →
  resched s = Done tt s.
Proof.
  intros Hc Hd Hp Hst Hl Hk. unfold resched. kred. rewrite bool_decide_eq_false_2 by lia. kred.
  erewrite getproc_some by done. kred. rewrite bool_decide_eq_true_2 by done. kred.
  erewrite qread_some.
  2: { rewrite (c_rdy _ _ _ Hc). eapply firstkey_spec; [by apply c_queues in Hc|exact Hl]. }
  kred. by rewrite bool_decide_eq_true_2.
Qed.

(** Making the detached process [pid] ready: its state, then the insertion by
    priority that both ready and resched perform. *)
Lemma link_ready Q s pid p l :
  core (Some pid) Q s → proctab s !! pid = Some p → Q !! RDY = Some l →
  let s2 := set_proctab (<[pid := set_prstate PR_READY p]> (proctab s)) s in
  ∃ t', insert (proctab s2) pid RDY (prprio p) (queuetab s) = Some (OK, t') ∧
    core None (<[RDY := q_insert (keyof (queuetab s)) pid (prprio p) l]> Q)
      (set_queuetab t' s2) ∧
    (∀ y, y ≠ pid → keyof t' y = keyof (queuetab s) y).
Proof.
  intros Hc Hp Hl s2. pose proof (is_table_bound _ _ _ _ (c_procs _ _ _ Hc) Hp) as Hcp.
  pose proof (c_detached _ _ _ Hc _ eq_refl) as Hdet.
  pose proof (core_setproc_detached _ _ _ (set_prstate PR_READY p) Hc Hcp ltac:(done)
    (c_prio _ _ _ Hc _ _ Hp) (c_stk _ _ _ Hc _ _ Hp)) as Hc2.
  assert (isbadpid (proctab s2) pid = false) as Hbad.
  { eapply isbadpid_live; [done|cbn; apply lookup_insert_eq|done]. }
  destruct (insert_spec (proctab s2) (queuetab s) Q RDY l pid (prprio p)
    (c_queues _ _ _ Hc) Hl Hbad Hdet) as (t3 & Hins & Hs3 & Hk3).
  { pose proof (c_prio _ _ _ Hc _ _ Hp).
    unfold MINKEY. change (s32 2147483648) with (-2147483648). lia. }
  assert (∀ y, y ≠ pid → keyof t3 y = keyof (queuetab s) y) as Hk3'.
  { intros y Hy. apply keyof_eq. by rewrite Hk3, decide_False. }
  exists t3. split; [done|]. split; [|done].
  eapply core_link; [exact Hc2|cbn; apply lookup_insert_eq|done|done|done|exact Hl| |exact Hs3|..].
  - apply q_insert_perm.
  - intros l2 Hl2 y Hy. cbn. apply Hk3'. intros ->. by apply (Hdet _ _ Hl2).
  - intros _. apply rsorted_insert; [by apply (c_sorted _ _ _ Hc)|by eapply Hdet| |done].
    unfold keyof. by rewrite Hk3, decide_True.
Qed.

(** Changing the ready list does not concern the semaphores. *)
Lemma semcnt_rdy Q s s' l :
  semcnt Q s → is_table NSEM (semtab s) → semtab s' = semtab s → semcnt (<[RDY := l]> Q) s'.
Proof.
  intros Hsc Ht Hs i e l2. rewrite Hs. intros He.
  pose proof (is_table_bound _ _ _ _ Ht He). destruct (semq_not_rdy i) as [? _]; [done|].
  rewrite lookup_insert_ne by congruence. by apply Hsc.
Qed.

Lemma semcnt_slp Q s s' l :
  semcnt Q s → is_table NSEM (semtab s) → semtab s' = semtab s → semcnt (<[SLP := l]> Q) s'.
Proof.
  intros Hsc Ht Hs i e l2. rewrite Hs. intros He.
  pose proof (is_table_bound _ _ _ _ Ht He). destruct (semq_not_rdy i) as [_ ?]; [done|].
  rewrite lookup_insert_ne by congruence. by apply Hsc.
Qed.

(** Otherwise the current process goes to the ready list, behind its equals,
    and the first ready process runs. *)
Lemma resched_yield Q s p x l :
  core None Q s → semcnt Q s → ndefers (Defer s) = 0 →
  proctab s !! currpid s = Some p → prstate p = PR_CURR →
  Q !! RDY = Some (x :: l) → prprio p ≤ keyof (queuetab s) x →
  ∃ s1 px, let l' := q_insert (keyof (queuetab s)) (currpid s) (prprio p) l in
    resched s = Switch s1 (λ s', Done tt (set_intr (intr s) s')) ∧
    InvQ (<[RDY := l']> Q) s1 ∧ currpid s1 = x ∧ x ≠ currpid s ∧
    proctab s !! x = Some px ∧
    proctab s1 = <[x := set_prstate PR_CURR px]>
                   (<[currpid s := set_prstate PR_READY p]> (proctab s)) ∧
    semtab s1 = semtab s ∧ intr s1 = intr s ∧ preempt s1 = QUANTUM.
Proof.
  intros Hc Hsc Hd Hp Hst Hl Hk. cbv zeta.
  assert (qof p = None) as Hq by (unfold qof; by rewrite Hst).
  pose proof (core_detach _ _ _ _ Hc Hp Hq) as Hc1.
  assert (x ≠ currpid s) as Hx.
  { intros ->. apply (c_detached _ _ _ Hc1 _ eq_refl _ _ Hl). by left. }
  destruct (link_ready _ _ _ _ _ Hc1 Hp Hl) as (t3 & Hins & Hc3 & Hk3).
  assert (q_insert (keyof (queuetab s)) (currpid s) (prprio p) (x :: l) =
    x :: q_insert (keyof (queuetab s)) (currpid s) (prprio p) l) as Hqi.
  { unfold q_insert. cbn. rewrite bool_decide_eq_true_2 by lia. done. }
  rewrite Hqi in Hc3. set (l' := q_insert _ _ _ l) in *.
  set (s3 := set_queuetab t3 _) in Hc3.
  destruct (dispatch_spec _ s3 (currpid s) x l' Hc3) as
    (s1 & px & Hdisp & HI & Hcur & Hpx & Hpt & Hrest); [|done| |apply lookup_insert_eq|done|].
  - eapply semcnt_rdy; [exact Hsc|apply Hc|done].
  - cbn. intros p'. rewrite lookup_insert_eq. by intros [= <-].
  - exists s1, px. rewrite insert_insert_eq in HI. cbn in Hpx, Hpt.
    rewrite lookup_insert_ne in Hpx by congruence.
    split_and!; try done; try tauto.
    unfold resched. kred. rewrite bool_decide_eq_false_2 by lia. kred.
    erewrite getproc_some by done. kred. rewrite bool_decide_eq_true_2 by done. kred.
    rewrite (c_rdy _ _ _ Hc).
    erewrite qread_some by (eapply firstkey_spec; [by apply c_queues in Hc|exact Hl]).
    kred. cbn [first_key]. rewrite bool_decide_eq_false_2 by lia. kred.
    erewrite setproc_some by done. kred.
    erewrite qop_some by exact Hins. kred. exact Hdisp.
Qed.

(** ** Weakest preconditions of resched and ready *)

Lemma resched_wp Q s p (Post : unit → kst → Prop) :
  core None Q s → semcnt Q s → ndefers (Defer s) = 0 →
  proctab s !! currpid s = Some p → prstate p ≠ PR_READY →
  (prstate p = PR_CURR → Post tt s) →
  (prstate p ≠ PR_FREE → ∀ s', Inv s' → currpid s' = currpid s → Post tt (set_intr (intr s) s')) →
  wp (currpid s) (resched s) Post.
Proof.
  intros Hc Hsc Hd Hp Hst Hstay Hback. destruct (decide (prstate p = PR_CURR)) as [Hcur|Hcur].
  - destruct (core_queue _ _ _ RDY Hc rdy_valid) as [[|x l] Hl].
    + erewrite resched_stay; [by apply Hstay|done..|].
      pose proof (c_prio _ _ _ Hc _ _ Hp). cbn. unfold MINKEY.
      change (s32 2147483648) with (-2147483648). lia.
    + destruct (decide (keyof (queuetab s) x < prprio p)).
      * erewrite resched_stay; [by apply Hstay|done..].
      * destruct (resched_yield Q s p x l) as (s1 & px & -> & HI & Hx & Hne & _); try done; [lia|].
        cbn. rewrite Hx. split_and!; [by eexists|done|].
        intros _ s' HI' Hcur'. apply Hback; [congruence|done..].
  - destruct (resched_blocked Q s p) as (x & l & s1 & px & _ & Hx & -> & HI & Hc1 & _ & Hpt & _);
      try done.
    cbn. rewrite Hc1. split_and!; [by eexists|done|].
    intros [p' [Hp' Hlive]] s' HI' Hcur'. rewrite Hpt, lookup_insert_ne in Hp' by done.
    apply Hback; [congruence|done..].
Qed.

Lemma resched_inv s :
  Inv s → wp (currpid s) (resched s) (λ _ s', back (currpid s) (intr s) s').
Proof.
  intros [Q (Hc & Hsc & (p & Hp & Hst) & Hd)].
  eapply resched_wp; [done..|congruence| |].
  - intros _. split; [|done]. exists Q. split_and!; try done. by exists p.
  - intros _ s' HI Hcur. split; [by apply Inv_intr|done].
Qed.

(** ready, for a process that is in no queue, while rescheduling is deferred:
    it only moves the process. *)
Lemma ready_deferred Q s pid p l :
  core (Some pid) Q s → proctab s !! pid = Some p → prstate p ≠ PR_FREE →
  Q !! RDY = Some l → 0 < ndefers (Defer s) →
  ∃ t', let s2 := set_proctab (<[pid := set_prstate PR_READY p]> (proctab s)) s in
    let s3 := set_Defer (Defer_ (ndefers (Defer s)) true) (set_queuetab t' s2) in
    ready pid s = Done OK s3 ∧
    core None (<[RDY := q_insert (keyof (queuetab s)) pid (prprio p) l]> Q) s3 ∧
    (∀ y, y ≠ pid → keyof t' y = keyof (queuetab s) y).
Proof.
  intros Hc Hp Hst Hl Hd.
  pose proof (is_table_bound _ _ _ _ (c_procs _ _ _ Hc) Hp) as Hpid.
  destruct (link_ready _ _ _ _ _ Hc Hp Hl) as (t3 & Hins & Hc3 & Hk3).
  exists t3. cbv zeta. split_and!; [|by eapply core_proper; [|exact Hc3]|done].
  unfold ready. kred. rewrite (isbadpid_live _ _ p) by done.
  kred. erewrite setproc_some by done. kred.
  erewrite getproc_some by (cbn; apply lookup_insert_eq). kred.
  rewrite (c_rdy _ _ _ Hc). erewrite qop_some by exact Hins. kred.
  by rewrite resched_deferred.
Qed.

(** ready moves the process to the ready list, by priority, and reschedules. *)
Lemma ready_run Q s pid p l :
  core (Some pid) Q s → semcnt Q s → ndefers (Defer s) = 0 → running s →
  proctab s !! pid = Some p → prstate p ≠ PR_FREE → pid ≠ currpid s → Q !! RDY = Some l →
  ∃ t3, let s3 := set_queuetab t3 (set_proctab (<[pid := set_prstate PR_READY p]> (proctab s)) s) in
    ready pid s = obind (resched s3) (λ _ s', Done OK s') ∧
    InvQ (<[RDY := q_insert (keyof (queuetab s)) pid (prprio p) l]> Q) s3 ∧
    (∀ y, y ≠ pid → keyof t3 y = keyof (queuetab s) y).
Proof.
  intros Hc Hsc Hd (pc & Hpc & Hcur) Hp Hst Hne Hl.
  destruct (link_ready _ _ _ _ _ Hc Hp Hl) as (t3 & Hins & Hc3 & Hk3).
  pose proof (is_table_bound _ _ _ _ (c_procs _ _ _ Hc) Hp) as Hpid.
  exists t3. unfold ready. kred. rewrite (isbadpid_live _ _ p) by done. kred.
  erewrite setproc_some by done. kred.
  erewrite getproc_some by (cbn; apply lookup_insert_eq). kred.
  rewrite (c_rdy _ _ _ Hc). erewrite qop_some by exact Hins. kred. split_and!; [done| |done].
  split_and!; try done.
  - eapply semcnt_rdy; [exact Hsc|apply Hc|done].
  - exists pc. cbn. by rewrite lookup_insert_ne.
Qed.

Lemma ready_wp Q s pid p (Post : Z → kst → Prop) :
  core (Some pid) Q s → semcnt Q s → ndefers (Defer s) = 0 → running s →
  proctab s !! pid = Some p → prstate p ≠ PR_FREE → pid ≠ currpid s →
  (∀ s', back (currpid s) (intr s) s' → Post OK s') →
  wp (currpid s) (ready pid s) Post.
Proof.
  intros Hc Hsc Hd Hr Hp Hst Hne HPost.
  destruct (core_queue _ _ _ RDY Hc rdy_valid) as [l Hl].
  destruct (ready_run _ _ _ _ _ Hc Hsc Hd Hr Hp Hst Hne Hl) as (t3 & -> & HI & _).
  apply wp_obind. set (s3 := set_queuetab t3 _) in *. eapply wp_mono.
  - change (currpid s) with (currpid s3). apply resched_inv. by eexists.
  - intros [] s' Hs'. by apply HPost.
Qed.

(** ** The system calls *)

Lemma inv_back s : Inv s → back (currpid s) (intr s) (set_intr (intr s) s).
Proof. intros. split; [by apply Inv_intr|done]. Qed.

Lemma resume_safe pid s : Inv s → safe_call (resume pid) s.
Proof.
  intros HI. pose proof HI as [Q (Hc & Hsc & Hrun & Hd)]. unfold safe_call, resume. kred.
  destruct (isbadpid (proctab s) pid) eqn:Hbad; kred; [by apply (inv_back s)|].
  apply isbadpid_false in Hbad as (Hpid & p & Hp & Hfree).
  erewrite getproc_some by done. kred. case_bool_decide as Hst; kred; [by apply (inv_back s)|].
  assert (prstate p = PR_SUSP) as Hsusp by (by destruct (decide (prstate p = PR_SUSP))).
  apply wp_obind.
  change (currpid s) with (currpid (set_intr false s)).
  eapply (ready_wp Q _ pid p); try done.
  - eapply core_proper; [|eapply core_detach; [exact Hc|exact Hp|]]; [by split|].
    unfold qof. by rewrite Hsusp.
  - intros ->. destruct Hrun as (p' & Hp' & ?). cbn in *. congruence.
  - intros s' Hs'. kred. by eapply back_intr.
Qed.

Lemma yield_safe s : Inv s → safe_call yield s.
Proof.
  intros HI. unfold safe_call, yield. kred. apply wp_obind. eapply wp_mono.
  - change (currpid s) with (currpid (set_intr false s)). apply resched_inv. auto with xinu.
  - intros [] s' Hs'. kred. by eapply back_intr.
Qed.

Lemma getprio_safe pid s : Inv s → safe_call (getprio pid) s.
Proof.
  intros HI. unfold safe_call, getprio. kred.
  destruct (isbadpid (proctab s) pid) eqn:Hbad; kred; [by apply (inv_back s)|].
  apply isbadpid_false in Hbad as (Hpid & p & Hp & Hfree).
  erewrite getproc_some by done. kred. by apply (inv_back s).
Qed.

Lemma chprio_safe pid newprio s :
  Inv s → -32768 ≤ newprio < 32768 → safe_call (chprio pid newprio) s.
Proof.
  intros HI Hprio. unfold safe_call, chprio. kred.
  destruct (isbadpid (proctab s) pid) eqn:Hbad; kred; [by apply (inv_back s)|].
  apply isbadpid_false in Hbad as (Hpid & p & Hp & Hfree).
  erewrite getproc_some by done. kred. erewrite setproc_some by done. kred.
  split; [|done]. destruct HI as [Q (Hc & Hsc & (pc & Hpc & Hcur) & Hd)]. exists Q.
  split_and!; try done.
  - eapply core_proper; [|eapply (core_setproc_same None Q s pid p (set_prprio newprio p))];
      try done. by apply (c_stk _ _ _ Hc _ _ Hp).
  - unfold running. cbn. destruct (decide (currpid s = pid)) as [<-|Hne].
    + exists (set_prprio newprio p). rewrite lookup_insert_eq. split; [done|]. cbn. congruence.
    + exists pc. by rewrite lookup_insert_ne.
Qed.

Lemma suspend_safe pid s : Inv s → safe_call (suspend pid) s.
Proof.
  intros HI. pose proof HI as [Q (Hc & Hsc & Hrun & Hd)]. unfold safe_call, suspend. kred.
  destruct (isbadpid (proctab s) pid) eqn:Hbad; kred; [by apply (inv_back s)|]. cbn [orb].
  apply isbadpid_false in Hbad as (Hpid & p & Hp & Hfree).
  case_bool_decide as Hnull; kred; [by apply (inv_back s)|].
  erewrite getproc_some by done. kred.
  destruct (decide (prstate p = PR_READY)) as [Hst|Hst].
  - (* ready: out of the ready list *)
    rewrite (bool_decide_eq_true_2 (prstate p ≠ PR_CURR)), (bool_decide_eq_true_2 (prstate p = PR_READY)),
      (bool_decide_eq_false_2 (prstate p ≠ PR_READY)) by congruence. cbn [andb].
    destruct (take_out _ _ _ p RDY Hc Hp) as (l1 & l2 & t' & Hl & Hg & Hc' & _).
    { unfold qof. by rewrite Hst. }
    assert (pid ≠ currpid s) as Hne.
    { intros ->. destruct Hrun as (p' & Hp' & ?). congruence. }
    kred. erewrite qop_some by exact Hg. kred. erewrite setproc_some by exact Hp. kred.
    erewrite getproc_some by (cbn; apply lookup_insert_eq). kred.
    split; [|done]. exists (<[RDY := l1 ++ l2]> Q). split_and!.
    + eapply core_proper; [|eapply core_drop].
      2: { apply (core_setproc_detached _ _ _ (set_prstate PR_SUSP p) Hc'); try done.
           - apply (c_prio _ _ _ Hc _ _ Hp).
           - apply (c_stk _ _ _ Hc _ _ Hp). }
      2: { cbn. by rewrite lookup_insert_eq. }
      all: done.
    + eapply semcnt_rdy; [exact Hsc|apply Hc|done].
    + by apply (running_insert s).
    + done.
  - rewrite (bool_decide_eq_false_2 (prstate p = PR_READY)) by done.
    case_bool_decide as Hcur; cbn [andb].
    { rewrite bool_decide_eq_true_2 by done. kred. by apply (inv_back s). }
    (* current: suspend it and reschedule *)
    assert (prstate p = PR_CURR) as Hcur' by (by destruct (decide (prstate p = PR_CURR))).
    pose proof (c_curr _ _ _ Hc _ _ Hp Hcur') as ->.
    kred. erewrite setproc_some by exact Hp. kred. apply wp_obind.
    set (s2 := set_proctab _ _).
    assert (core None Q s2) as Hc2.
    { eapply core_proper; [|apply (core_park Q s p (set_prstate PR_SUSP p))]; try done.
      - apply (c_prio _ _ _ Hc _ _ Hp).
      - apply (c_stk _ _ _ Hc _ _ Hp). }
    change (currpid s) with (currpid s2) at 1.
    eapply (resched_wp Q s2 (set_prstate PR_SUSP p)); try done.
    + apply lookup_insert_eq.
    + intros _ s' HI' Hcur2. kred.
      pose proof HI' as [Q' HQ']. destruct (running_proc _ _ HQ') as (p' & Hp' & _).
      cbn in Hcur2. rewrite Hcur2 in Hp'. erewrite getproc_some by exact Hp'. kred.
      split; [|done]. by apply (Inv_intr _ s').
Qed.

(** ** Deferred rescheduling and the release of a waiting process *)

Lemma defer_start s :
  ndefers (Defer s) = 0 → resched_cntl DEFER_START s = Done OK (set_Defer (Defer_ 1 false) s).
Proof.
  intros Hd. unfold resched_cntl. rewrite bool_decide_eq_true_2 by done. kred.
  rewrite Hd. by rewrite bool_decide_eq_true_2.
Qed.

Lemma defer_stop_wp Q s :
  core None Q s → semcnt Q s → running s → ndefers (Defer s) = 1 →
  wp (currpid s) (resched_cntl DEFER_STOP s) (λ a s', a = OK ∧ back (currpid s) (intr s) s').
Proof.
  intros Hc Hsc Hr Hd. unfold resched_cntl.
  rewrite bool_decide_eq_false_2, bool_decide_eq_true_2 by done. kred.
  rewrite bool_decide_eq_false_2 by lia. kred.
  set (s1 := set_Defer _ s). rewrite (bool_decide_eq_true_2 (ndefers (Defer s) - 1 = 0)) by lia.
  assert (Inv s1) as HI.
  { exists Q. split_and!; [by eapply core_proper; [|exact Hc]|done|done|cbn; lia]. }
  cbn [andb]. destruct (attempt (Defer s)); kred.
  - apply wp_obind. eapply wp_mono; [exact (resched_inv s1 HI)|]. intros [] s' Hs'. kred. done.
  - done.
Qed.

(** [s'] has the same running process and interrupt mask, and defers as [s]. *)
Record kept (s s' : kst) : Prop := Kept {
  kp_currpid : currpid s' = currpid s;
  kp_intr : intr s' = intr s;
  kp_ndefers : ndefers (Defer s') = ndefers (Defer s);
  kp_nextsem : nextsem s' = nextsem s;
  kp_hp : hp s' = hp s;
  kp_dev : dev s' = dev s }.

#[export] Instance kept_equiv : PreOrder kept.
Proof. split; [by split|]. intros s1 s2 s3 [] []; split; congruence. Qed.

(** The two ways a component takes the first process of a queue. *)
Definition takes_first (q : Z) (f : gmap Z qentry → option (Z * gmap Z qentry)) : Prop :=
  f = getfirst q ∨ f = dequeue q.

Lemma takes_first_spec q f t Q x l :
  takes_first q f → qsys t Q → Q !! q = Some (x :: l) →
  ∃ t', f t = Some (x, t') ∧ qsys t' (<[q := l]> Q) ∧ (∀ j, ky t' j = ky t j).
Proof. intros [-> | ->]; [apply getfirst_spec|apply dequeue_spec]. Qed.

Lemma takes_first_core Q s q f x l :
  core None Q s → takes_first q f → Q !! q = Some (x :: l) → q ≠ RDY →
  ∃ t' px, f (queuetab s) = Some (x, t') ∧ core (Some x) (<[q := l]> Q) (set_queuetab t' s) ∧
    proctab s !! x = Some px ∧ qof px = Some q ∧ prstate px ≠ PR_FREE ∧ prstate px ≠ PR_CURR ∧
    (∀ j, keyof t' j = keyof (queuetab s) j).
Proof.
  intros Hc Hf Hl Hq.
  destruct (takes_first_spec _ _ _ _ _ _ Hf (c_queues _ _ _ Hc) Hl) as (t' & Hf' & Hs' & Hk).
  assert (0 ≤ x < NPROC) as Hx.
  { eapply is_queue_pid; [by eapply qs_queue, Hl; apply Hc|by left]. }
  destruct (core_proc _ _ _ _ Hc Hx) as [px Hpx].
  assert (qof px = Some q) as Hqof.
  { eapply (c_where _ _ _ Hc x px q (x :: l)); [done|done|done|by left]. }
  exists t', px. split_and!; try done.
  - apply (core_unlink Q s q [] x l t'); try done. intros. by apply keyof_eq.
  - intros Hst. unfold qof in Hqof. by rewrite Hst in Hqof.
  - intros Hst. unfold qof in Hqof. by rewrite Hst in Hqof.
  - intros j. by apply keyof_eq.
Qed.

(** Releasing the first process of queue [q] while rescheduling is deferred:
    it moves to the ready list. *)
Lemma release_deferred Q s q f x l :
  core None Q s → running s → 0 < ndefers (Defer s) → takes_first q f →
  Q !! q = Some (x :: l) → q ≠ RDY →
  ∃ s' s1 px lr, qop f s = Done x s1 ∧ ready x s1 = Done OK s' ∧
    proctab s !! x = Some px ∧ proctab s' = <[x := set_prstate PR_READY px]> (proctab s) ∧
    Q !! RDY = Some lr ∧
    core None (<[RDY := q_insert (keyof (queuetab s)) x (prprio px) lr]> (<[q := l]> Q)) s' ∧
    running s' ∧ semtab s' = semtab s ∧ kept s s' ∧
    (∀ y, y ≠ x → keyof (queuetab s') y = keyof (queuetab s) y).
Proof.
  intros Hc Hr Hd Hf Hl Hq.
  destruct (takes_first_core _ _ _ _ _ _ Hc Hf Hl Hq)
    as (t' & px & Hft & Hc1 & Hpx & Hqof & Hfree & Hcur & Hk).
  destruct (core_queue _ _ _ RDY Hc rdy_valid) as [lr Hlr].
  destruct (ready_deferred _ (set_queuetab t' s) x px lr Hc1 Hpx Hfree) as (t2 & Hrd & Hc2 & Hk2).
  - by rewrite lookup_insert_ne.
  - done.
  - eexists _, _, px, lr. split; [by apply qop_some|]. split; [exact Hrd|].
    split_and!; try done.
    + cbn in Hc2. unfold q_insert in *. cbn. 
      erewrite ins_split_ext in Hc2; [exact Hc2|]. intros y _. apply Hk.
    + apply (running_insert s); [done|]. intros ->. destruct Hr as (pc & Hpc & ?). congruence.
    + intros y Hy. cbn. rewrite Hk2 by done. apply Hk.
Qed.
