(* ===== verification/Semaphore.v ===== *)
(** Counting semaphores: system/wait.c, signal.c, signaln.c, semcreate.c,
    semdelete.c, semreset.c, semcount.c. *)

From S2P Require Import Prelude Types Queue Heap Kernel KInv Sched.

(** ** wait.c *)
Definition wait (sem : Z) : M Z :=
  mask ← disable;
  if isbadsem sem then restore mask;; ret SYSERR
  else
    semptr ← getsem sem;
    if bool_decide (sstate semptr = S_FREE) then restore mask;; ret SYSERR
    else
      setsem sem (λ e, set_scount (s32 (scount e - 1)) e);;
      semptr ← getsem sem;
      (if bool_decide (scount semptr < 0) then
         cur ← gets currpid;
         setproc cur (set_prstate PR_WAIT);;
         setproc cur (set_prsem sem);;
         pt ← gets proctab;
         _ ← qop (enqueue pt cur (squeue semptr));
         resched
       else ret tt);;
      restore mask;;
      ret OK.

(** ** signal.c *)

(** [if ((semptr->scount++) < 0) ready(dequeue(semptr->squeue));] *)
Definition signal_once (sem : Z) : M unit :=
  semptr ← getsem sem;
  setsem sem (λ e, set_scount (s32 (scount e + 1)) e);;
  if bool_decide (scount semptr < 0) then
    pid ← qop (dequeue (squeue semptr));
    _ ← ready pid;
    ret tt
  else ret tt.

Definition signal (sem : Z) : M Z :=
  mask ← disable;
  if isbadsem sem then restore mask;; ret SYSERR
  else
    semptr ← getsem sem;
    if bool_decide (sstate semptr = S_FREE) then restore mask;; ret SYSERR
    else
      signal_once sem;;
      restore mask;;
      ret OK.

(** ** signaln.c *)
Fixpoint signaln_loop (count : nat) (sem : Z) : M unit :=
  match count with
  | O => ret tt
  | S count => signal_once sem;; signaln_loop count sem
  end.

Definition signaln (sem count : Z) : M Z :=
  mask ← disable;
  if isbadsem sem || bool_decide (count < 0) then restore mask;; ret SYSERR
  else
    semptr ← getsem sem;
    if bool_decide (sstate semptr = S_FREE) then restore mask;; ret SYSERR
    else
      _ ← resched_cntl DEFER_START;
      signaln_loop (Z.to_nat count) sem;;
      _ ← resched_cntl DEFER_STOP;
      restore mask;;
      ret OK.

(** ** semcreate.c: the static [nextsem] is part of the state. *)
Fixpoint newsem_loop (n : nat) : M Z :=
  match n with
  | O => ret SYSERR
  | S n =>
    sem ← gets nextsem;
    modify (set_nextsem (if bool_decide (NSEM ≤ sem + 1) then 0 else sem + 1));;
    e ← getsem sem;
    if bool_decide (sstate e = S_FREE) then
      setsem sem (set_sstate S_USED);;
      ret sem
    else newsem_loop n
  end.

Definition newsem : M Z := newsem_loop (Z.to_nat NSEM).

Definition semcreate (count : Z) : M Z :=
  mask ← disable;
  if bool_decide (count < 0) then restore mask;; ret SYSERR
  else
    sem ← newsem;
    if bool_decide (sem = SYSERR) then restore mask;; ret SYSERR
    else
      setsem sem (set_scount count);;
      restore mask;;
      ret sem.

(** ** semdelete.c *)

(** [while (semptr->scount++ < 0) ready(getfirst(semptr->squeue));] *)
Fixpoint semdelete_loop (fuel : nat) (sem : Z) : M unit :=
  match fuel with
  | O => fault
  | S fuel =>
    semptr ← getsem sem;
    setsem sem (λ e, set_scount (s32 (scount e + 1)) e);;
    if bool_decide (scount semptr < 0) then
      pid ← qop (getfirst (squeue semptr));
      _ ← ready pid;
      semdelete_loop fuel sem
    else ret tt
  end.

Definition semdelete (sem : Z) : M Z :=
  mask ← disable;
  if isbadsem sem then restore mask;; ret SYSERR
  else
    semptr ← getsem sem;
    if bool_decide (sstate semptr = S_FREE) then restore mask;; ret SYSERR
    else
      setsem sem (set_sstate S_FREE);;
      _ ← resched_cntl DEFER_START;
      (* the loop runs once per missing unit of the count, then stops *)
      semdelete_loop (S (Z.to_nat (- scount semptr))) sem;;
      _ ← resched_cntl DEFER_STOP;
      restore mask;;
      ret OK.

(** ** semreset.c *)

(** [while ((pid=getfirst(semqueue)) != EMPTY) ready(pid);] *)
Fixpoint semreset_loop (fuel : nat) (semqueue : Z) : M unit :=
  match fuel with
  | O => fault
  | S fuel =>
    pid ← qop (getfirst semqueue);
    if bool_decide (pid = EMPTY) then ret tt
    else
      _ ← ready pid;
      semreset_loop fuel semqueue
  end.

Definition semreset (sem count : Z) : M Z :=
  mask ← disable;
  if bool_decide (count < 0) || isbadsem sem then restore mask;; ret SYSERR
  else
    semptr ← getsem sem;
    if bool_decide (sstate semptr = S_FREE) then restore mask;; ret SYSERR
    else
      let semqueue := squeue semptr in
      _ ← resched_cntl DEFER_START;
      semreset_loop queue_fuel semqueue;;
      setsem sem (set_scount count);;
      _ ← resched_cntl DEFER_STOP;
      restore mask;;
      ret OK.

(** ** semcount.c *)
Definition semcount (semid : Z) : M Z :=
  mask ← disable;
  if isbadsem semid then restore mask;; ret SYSERR
  else
    e ← getsem semid;
    if bool_decide (sstate e = S_FREE) then restore mask;; ret SYSERR
    else
      restore mask;;
      ret (scount e).

(** * Specifications *)

Lemma isbadsem_false i : isbadsem i = false ↔ 0 ≤ i < NSEM.
Proof. unfold isbadsem. rewrite orb_false_iff, !bool_decide_eq_false. lia. Qed.

Lemma semcnt_update Q Q' s s' sem e' :
  semcnt Q s → is_table NSEM (semtab s) → semtab s' = <[sem := e']> (semtab s) →
  (∀ i, i ≠ sem → 0 ≤ i < NSEM → Q' !! SEMQ i = Q !! SEMQ i) →
  (∀ l, Q' !! SEMQ sem = Some l → sem_ok e' l) →
  semcnt Q' s'.
Proof.
  intros Hsc Ht Hs' HQ Hok i e l. rewrite Hs', lookup_insert. case_decide; subst.
  - intros [= <-]. apply Hok.
  - intros He. rewrite HQ; [by apply Hsc|congruence|]. by eapply is_table_bound.
Qed.

(** The semaphore [sem] of a state that satisfies the invariant. *)
Lemma core_semq Q s sem e :
  core None Q s → semtab s !! sem = Some e →
  0 ≤ sem < NSEM ∧ squeue e = SEMQ sem ∧ ∃ l, Q !! SEMQ sem = Some l.
Proof.
  intros Hc He. pose proof (is_table_bound _ _ _ _ (c_sems _ _ _ Hc) He) as Hi.
  split_and!; try done; try lia; [by eapply c_squeue|].
  eapply core_queue; [done|auto with xinu].
Qed.

(** signal_once when no process waits: only the count changes. *)
Lemma signal_once_free Q s sem e :
  core None Q s → semcnt Q s → semtab s !! sem = Some e → sstate e = S_USED →
  0 ≤ scount e < INT_MAX →
  let s' := set_semtab (<[sem := set_scount (scount e + 1) e]> (semtab s)) s in
  signal_once sem s = Done tt s' ∧ core None Q s' ∧ semcnt Q s'.
Proof.
  intros Hc Hsc He Hu Hcnt s'. destruct (core_semq _ _ _ _ Hc He) as (Hi & Hsq & l & Hl).
  unfold INT_MAX in *. split_and!.
  - unfold signal_once. kred. erewrite getsem_some by done. kred.
    erewrite setsem_some by done. kred. rewrite bool_decide_eq_false_2 by lia. kred.
    by rewrite s32_id by lia.
  - by apply core_setsem.
  - eapply semcnt_update; [done|apply Hc|done|done|]. intros l2 Hl2.
    pose proof (Hsc _ _ _ He Hl2) as Hok. unfold sem_ok in *. cbn. rewrite Hu in *.
    unfold INT_MAX. lia.
Qed.

(** The queue of a semaphore with a negative count is not empty. *)
Lemma semcnt_waiting Q s sem e l :
  semcnt Q s → semtab s !! sem = Some e → Q !! SEMQ sem = Some l → sstate e = S_USED →
  scount e < 0 → ∃ x r, l = x :: r ∧ Z.of_nat (length r) = - scount e - 1.
Proof.
  intros Hsc He Hl Hu Hn. specialize (Hsc _ _ _ He Hl). unfold sem_ok in Hsc. rewrite Hu in Hsc.
  destruct l as [|x r]; cbn in Hsc; [lia|]. exists x, r. split; [done|]. lia.
Qed.

Lemma signal_release_semcnt Q s sem e x r :
  semcnt Q s → is_table NSEM (semtab s) → semtab s !! sem = Some e →
  Q !! SEMQ sem = Some (x :: r) → sstate e = S_USED → scount e < 0 →
  semcnt (<[SEMQ sem := r]> Q) (set_semtab (<[sem := set_scount (scount e + 1) e]> (semtab s)) s).
Proof.
  intros Hsc Ht He Hl Hu Hn. eapply semcnt_update; [done|done|done| |].
  - intros i Hi _. rewrite lookup_insert_ne; [done|]. by intros ?%semq_inj.
  - intros l. rewrite lookup_insert_eq. intros [= <-].
    pose proof (Hsc _ _ _ He Hl) as Hok. unfold sem_ok in *. cbn in *. rewrite Hu in *. unfold INT_MAX in *. lia.
Qed.

(** signal_once while rescheduling is deferred. *)
Lemma signal_once_deferred Q s sem e :
  core None Q s → semcnt Q s → running s → 0 < ndefers (Defer s) →
  semtab s !! sem = Some e → sstate e = S_USED → -INT_MAX < scount e < INT_MAX →
  ∃ s' Q', signal_once sem s = Done tt s' ∧ core None Q' s' ∧ semcnt Q' s' ∧ running s' ∧
    semtab s' = <[sem := set_scount (scount e + 1) e]> (semtab s) ∧ kept s s'.
Proof.
  intros Hc Hsc Hr Hd He Hu Hcnt. unfold INT_MAX in *.
  destruct (decide (scount e < 0)) as [Hn|Hn].
  - destruct (core_semq _ _ _ _ Hc He) as (Hi & Hsq & l & Hl).
    destruct (semcnt_waiting _ _ _ _ _ Hsc He Hl Hu Hn) as (x & r & -> & _).
    set (s1 := set_semtab (<[sem := set_scount (scount e + 1) e]> (semtab s)) s).
    assert (core None Q s1) as Hc1 by (by apply core_setsem).
    destruct (release_deferred Q s1 (SEMQ sem) (dequeue (SEMQ sem)) x r Hc1 Hr Hd) as
      (s' & s2 & px & lr & Hq & Hrd & Hpx & Hpt & Hlr & Hc' & Hr' & Hst & Hk & _);
      [by right|done|by apply semq_not_rdy|].
    exists s'. eexists. split.
    { unfold signal_once. kred. erewrite getsem_some by done. kred.
      erewrite setsem_some by done. rewrite s32_id by lia. fold s1. kred.
      rewrite bool_decide_eq_true_2 by done. kred. rewrite Hsq, Hq. kred. rewrite Hrd. by kred. }
    split; [exact Hc'|]. split; [|split_and!; [done|exact Hst|destruct Hk; by split]].
    eapply semcnt_rdy; [by eapply signal_release_semcnt; [|apply Hc|..]| |exact Hst].
    apply Hc1.
  - destruct (signal_once_free Q s sem e Hc Hsc He Hu) as (Heq & Hc' & Hsc'); [unfold INT_MAX; lia|].
    eexists _, Q. split; [exact Heq|]. split; [done|]. split; [done|]. split; [done|].
    split; [done|]. by split.
Qed.

(** Releasing the first process of a queue when rescheduling is allowed. *)
Lemma release_wp {A} Q s q f x l (k : M A) (Post : A → kst → Prop) :
  core None Q s → running s → ndefers (Defer s) = 0 → takes_first q f →
  Q !! q = Some (x :: l) → q ≠ RDY → semcnt (<[q := l]> Q) s →
  (∀ s', back (currpid s) (intr s) s' → wp (currpid s) (k s') Post) →
  wp (currpid s) ((pid ← qop f; _ ← ready pid; k) s) Post.
Proof.
  intros Hc Hr Hd Hf Hl Hq Hsc HPost.
  destruct (takes_first_core _ _ _ _ _ _ Hc Hf Hl Hq)
    as (t' & px & Hft & Hc1 & Hpx & Hqof & Hfree & Hcur & Hk).
  kred. erewrite qop_some by exact Hft. kred. apply wp_obind.
  change (currpid s) with (currpid (set_queuetab t' s)) at 1.
  eapply (ready_wp _ (set_queuetab t' s) x px); try done.
  intros ->. destruct Hr as (pc & Hpc & ?). cbn in *. congruence.
Qed.

Lemma signal_once_wp Q s sem e (Post : unit → kst → Prop) :
  InvQ Q s → semtab s !! sem = Some e → sstate e = S_USED → -INT_MAX < scount e < INT_MAX →
  (∀ s', back (currpid s) (intr s) s' → Post tt s') →
  wp (currpid s) (signal_once sem s) Post.
Proof.
  intros (Hc & Hsc & Hr & Hd) He Hu Hcnt HPost. unfold INT_MAX in *.
  destruct (decide (scount e < 0)) as [Hn|Hn].
  - destruct (core_semq _ _ _ _ Hc He) as (Hi & Hsq & l & Hl).
    destruct (semcnt_waiting _ _ _ _ _ Hsc He Hl Hu Hn) as (x & r & -> & _).
    unfold signal_once. kred. erewrite getsem_some by done. kred.
    erewrite setsem_some by done. rewrite s32_id by lia. kred.
    rewrite bool_decide_eq_true_2 by done. rewrite Hsq.
    set (s1 := set_semtab _ s).
    change (currpid s) with (currpid s1).
    eapply (release_wp Q s1 (SEMQ sem) _ x r (ret tt)); try done.
    + by apply core_setsem.
    + by right.
    + by apply semq_not_rdy.
    + eapply signal_release_semcnt; [exact Hsc|apply Hc|done..].
  - destruct (signal_once_free Q s sem e Hc Hsc He Hu) as (-> & Hc' & Hsc'); [unfold INT_MAX; lia|].
    cbn. apply HPost. split; [|done]. by exists Q.
Qed.

Lemma scount_bounds Q s sem e :
  core None Q s → semcnt Q s → semtab s !! sem = Some e → sstate e = S_USED →
  - NPROC ≤ scount e ≤ INT_MAX.
Proof.
  intros Hc Hsc He Hu. destruct (core_semq _ _ _ _ Hc He) as (Hi & _ & l & Hl).
  specialize (Hsc _ _ _ He Hl). unfold sem_ok in Hsc. rewrite Hu in Hsc.
  pose proof (qs_queue _ _ (c_queues _ _ _ Hc) _ _ Hl) as Hq.
  pose proof (NoDup_bounded_length l NPROC (isq_nodup _ _ _ Hq) (isq_pids _ _ _ Hq)).
  unfold NPROC in *. lia.
Qed.

(** ** wait *)

(** wait on a semaphore whose count is not positive: the caller joins the end
    of the semaphore's queue. *)
Lemma wait_blocks Q s sem e l p :
  InvQ Q s → currpid s ≠ NULLPROC → proctab s !! currpid s = Some p →
  semtab s !! sem = Some e → sstate e = S_USED → scount e ≤ 0 → Q !! SEMQ sem = Some l →
  ∃ s2, wait sem s = obind (resched s2) (λ _ s', Done OK (set_intr (intr s) s')) ∧
    core None (<[SEMQ sem := l ++ [currpid s]]> Q) s2 ∧
    semcnt (<[SEMQ sem := l ++ [currpid s]]> Q) s2 ∧
    proctab s2 = <[currpid s := set_prsem sem (set_prstate PR_WAIT p)]> (proctab s) ∧
    semtab s2 = <[sem := set_scount (scount e - 1) e]> (semtab s) ∧
    currpid s2 = currpid s ∧ Defer s2 = Defer s ∧ intr s2 = false.
Proof.
  intros (Hc & Hsc & (p0 & Hp0 & Hcur) & Hd) Hn Hp He Hu Hcnt Hl.
  assert (p0 = p) as -> by congruence.
  destruct (core_semq _ _ _ _ Hc He) as (Hi & Hsq & _).
  pose proof (scount_bounds _ _ _ _ Hc Hsc He Hu) as Hb. unfold NPROC, INT_MAX in Hb.
  set (s1 := set_intr false (set_semtab (<[sem := set_scount (scount e - 1) e]> (semtab s)) s)).
  assert (core None Q s1) as Hc1.
  { eapply core_proper; [|apply (core_setsem _ _ _ sem (set_scount (scount e - 1) e) Hc); done].
    by split. }
  set (p' := set_prsem sem (set_prstate PR_WAIT p)).
  assert (qof p = None) as Hq0 by (unfold qof; by rewrite Hcur).
  destruct (enqueue_spec (<[currpid s := p']> (proctab s)) (queuetab s) Q (SEMQ sem) l (currpid s))
    as (t' & Hen & Hs' & Hk); [apply Hc|done| |by eapply core_none_detached|].
  { eapply isbadpid_live; [exact (c_currpid _ _ _ Hc)|apply lookup_insert_eq|done]. }
  exists (set_queuetab t' (set_proctab (<[currpid s := p']> (proctab s)) s1)).
  split_and!; try done.
  - unfold wait. kred.
    assert (isbadsem sem = false) as -> by (by apply isbadsem_false). kred.
    erewrite getsem_some by done. kred. rewrite bool_decide_eq_false_2 by congruence. kred.
    erewrite setsem_some by done. kred. erewrite getsem_some by (cbn; apply lookup_insert_eq). kred.
    cbn [scount set_scount]. rewrite s32_id by lia. rewrite bool_decide_eq_true_2 by lia. kred.
    erewrite setproc_some by done. kred.
    erewrite setproc_some by (cbn; apply lookup_insert_eq). kred.
    rewrite insert_insert_eq. cbn [squeue set_scount]. rewrite Hsq.
    by erewrite qop_some by exact Hen.
  - eapply (core_block Q s1 p p' (SEMQ sem) l); try done.
    + by apply semq_not_rdy.
    + apply (c_prio _ _ _ Hc _ _ Hp).
    + apply (c_stk _ _ _ Hc _ _ Hp).
    + by rewrite Permutation_app_comm.
  - eapply semcnt_update; [exact Hsc|apply Hc|done| |].
    + intros i Hi' _. rewrite lookup_insert_ne; [done|]. by intros ?%semq_inj.
    + intros l2. rewrite lookup_insert_eq. intros [= <-].
      pose proof (Hsc _ _ _ He Hl) as Hok. unfold sem_ok in *. cbn in *. rewrite Hu in *.
      rewrite length_app. cbn. unfold INT_MAX in *. lia.
Qed.

(** wait on a semaphore with a positive count only decrements it. *)
Lemma wait_passes Q s sem e :
  InvQ Q s → semtab s !! sem = Some e → sstate e = S_USED → 0 < scount e →
  let s' := set_semtab (<[sem := set_scount (scount e - 1) e]> (semtab s)) s in
  wait sem s = Done OK (set_intr (intr s) s') ∧ InvQ Q s'.
Proof.
  intros (Hc & Hsc & Hr & Hd) He Hu Hcnt s'.
  destruct (core_semq _ _ _ _ Hc He) as (Hi & Hsq & l & Hl).
  pose proof (scount_bounds _ _ _ _ Hc Hsc He Hu) as Hb. unfold NPROC, INT_MAX in Hb. split.
  - unfold wait. kred.
    assert (isbadsem sem = false) as -> by (by apply isbadsem_false). kred.
    erewrite getsem_some by done. kred. rewrite bool_decide_eq_false_2 by congruence. kred.
    erewrite setsem_some by done. kred. erewrite getsem_some by (cbn; apply lookup_insert_eq). kred.
    cbn [scount set_scount]. rewrite s32_id by lia. by rewrite bool_decide_eq_false_2 by lia.
  - split_and!; try done.
    + by apply core_setsem.
    + eapply semcnt_update; [done|apply Hc|done|done|]. intros l2 Hl2.
      pose proof (Hsc _ _ _ He Hl2) as Hok. unfold sem_ok in *. cbn. rewrite Hu in *.
      unfold INT_MAX in *. lia.
Qed.

(** The guards shared by the calls that take a semaphore. *)
Lemma sem_guard Q s sem :
  core None Q s → isbadsem sem = false → ∃ e, semtab s !! sem = Some e.
Proof. intros Hc Hb%isbadsem_false. by eapply core_sem. Qed.

Lemma used_dec e : sstate e ≠ S_FREE → sstate e = S_USED.
Proof. by destruct (sstate e). Qed.

Lemma wait_safe sem s : Inv s → currpid s ≠ NULLPROC → safe_call (wait sem) s.
Proof.
  intros HI Hn. pose proof HI as [Q HQ]. pose proof HQ as (Hc & Hsc & (p & Hp & Hcur) & Hd).
  unfold safe_call. destruct (isbadsem sem) eqn:Hb.
  { unfold wait. kred. rewrite Hb. kred. by apply (inv_back s). }
  destruct (sem_guard _ _ _ Hc Hb) as [e He].
  destruct (decide (sstate e = S_FREE)) as [Hf|Hu%used_dec].
  { unfold wait. kred. rewrite Hb. kred. erewrite getsem_some by done. kred.
    rewrite bool_decide_eq_true_2 by done. kred. by apply (inv_back s). }
  destruct (decide (scount e ≤ 0)) as [Hle|Hgt].
  - destruct (core_semq _ _ _ _ Hc He) as (Hi & Hsq & l & Hl).
    destruct (wait_blocks _ _ _ _ _ _ HQ Hn Hp He Hu Hle Hl)
      as (s2 & -> & Hc2 & Hsc2 & Hpt & _ & Hcp & Hdf & _).
    apply wp_obind. rewrite <- Hcp.
    eapply (resched_wp _ s2 (set_prsem sem (set_prstate PR_WAIT p))); try done.
    + by rewrite Hdf.
    + rewrite Hpt, Hcp. apply lookup_insert_eq.
    + intros _ s' HI' Hs'. cbn. split; [|done]. apply Inv_intr. by apply (Inv_intr _ s').
  - destruct (wait_passes _ _ _ _ HQ He Hu ltac:(lia)) as [-> HQ']. cbn.
    split; [|done]. apply Inv_intr. eauto with xinu.
Qed.

(** ** signal and signaln *)

Lemma InvQ_intr b Q s : InvQ Q s → InvQ Q (set_intr b s).
Proof. intros H. eapply InvQ_csim; [|by destruct H as (? & ? & ? & ?)|done]. by split. Qed.

(** signal on a semaphore nobody waits for only increments it. *)
Lemma signal_passes Q s sem e :
  InvQ Q s → semtab s !! sem = Some e → sstate e = S_USED → 0 ≤ scount e < INT_MAX →
  let s' := set_semtab (<[sem := set_scount (scount e + 1) e]> (semtab s)) s in
  signal sem s = Done OK (set_intr (intr s) s') ∧ InvQ Q s'.
Proof.
  intros HQ He Hu Hcnt s'. pose proof HQ as (Hc & Hsc & Hr & Hd).
  destruct (core_semq _ _ _ _ Hc He) as (Hi & Hsq & _).
  destruct (signal_once_free Q (set_intr false s) sem e) as (Heq & Hc' & Hsc'); try done.
  { exact (proj1 (InvQ_intr false Q s HQ)). }
  split.
  - unfold signal. kred. assert (isbadsem sem = false) as -> by (by apply isbadsem_false). kred.
    erewrite getsem_some by done. kred. rewrite bool_decide_eq_false_2 by congruence. kred.
    rewrite Heq. by kred.
  - split_and!; try done. by apply core_setsem.
Qed.

(** signal when processes wait: the first of them joins the ready list, and the
    processor is rescheduled. *)
Lemma signal_releases Q s sem e x r lr :
  InvQ Q s → semtab s !! sem = Some e → sstate e = S_USED → scount e < 0 →
  Q !! SEMQ sem = Some (x :: r) → Q !! RDY = Some lr →
  ∃ px s2, proctab s !! x = Some px ∧ prstate px = PR_WAIT ∧ prsem px = sem ∧
    signal sem s = obind (resched s2) (λ _ s', Done OK (set_intr (intr s) s')) ∧
    InvQ (<[RDY := q_insert (keyof (queuetab s)) x (prprio px) lr]> (<[SEMQ sem := r]> Q)) s2 ∧
    proctab s2 = <[x := set_prstate PR_READY px]> (proctab s) ∧
    semtab s2 = <[sem := set_scount (scount e + 1) e]> (semtab s) ∧
    currpid s2 = currpid s ∧ intr s2 = false.
Proof.
  intros HI He Hu Hn Hl Hlr. pose proof HI as (Hc & Hsc & Hr & Hd).
  destruct (core_semq _ _ _ _ Hc He) as (Hi & Hsq & _).
  pose proof (scount_bounds _ _ _ _ Hc Hsc He Hu) as Hb. unfold NPROC in Hb.
  pose proof (semq_not_rdy sem Hi) as [Hnr _].
  unfold signal. kred. rewrite (proj2 (isbadsem_false sem)) by done. kred.
  erewrite getsem_some by done. kred. rewrite bool_decide_eq_false_2 by congruence. kred.
  unfold signal_once. kred. erewrite getsem_some by done. kred.
  erewrite setsem_some by done. rewrite s32_id by lia. kred.
  rewrite bool_decide_eq_true_2 by done. rewrite Hsq.
  set (s1 := set_semtab _ (set_intr false s)).
  destruct (takes_first_core Q s1 (SEMQ sem) (dequeue (SEMQ sem)) x r) as
    (t' & px & Hft & Hc1 & Hpx & Hqof & Hfree & Hcur & Hk);
    [|by right|done|done|].
  { apply (core_setsem _ _ (set_intr false s)); [|done|done]. exact (proj1 (InvQ_intr false Q s HI)). }
  destruct (core_qof_sem None Q s x px sem Hc) as [Hw Hps]; [done..|].
  kred. erewrite qop_some by exact Hft. kred.
  edestruct (ready_run _ (set_queuetab t' s1) x px lr Hc1) as (t3 & Heq & HI3 & _); [..|].
  { exact (signal_release_semcnt Q s sem e x r Hsc (c_sems _ _ _ Hc) He Hl Hu Hn). }
  { done. }
  { exact Hr. }
  { exact Hpx. }
  { exact Hfree. }
  { intros ->. destruct Hr as (pc & Hpc & ?). cbn in *. congruence. }
  { by rewrite lookup_insert_ne. }
  cbn [queuetab set_queuetab] in HI3. do 2 eexists. split; [exact Hpx|]. split; [exact Hw|].
  split; [exact Hps|]. split_and!.
  - rewrite Heq, !obind_assoc. reflexivity.
  - assert (∀ y, keyof t' y = keyof (queuetab s) y) as Hk' by exact Hk.
    unfold q_insert in HI3 |- *. rewrite (ins_split_ext (keyof (queuetab s)) (keyof t')) in HI3 by done.
    exact HI3.
  - done.
  - done.
  - done.
  - done.
Qed.

Lemma signal_safe sem s :
  Inv s → (∀ e, semtab s !! sem = Some e → scount e < INT_MAX) → safe_call (signal sem) s.
Proof.
  intros HI Hmax. pose proof HI as [Q HQ]. pose proof HQ as (Hc & Hsc & _).
  unfold safe_call, signal. kred. destruct (isbadsem sem) eqn:Hb; kred; [by apply (inv_back s)|].
  destruct (sem_guard _ _ _ Hc Hb) as [e He]. erewrite getsem_some by done. kred.
  case_bool_decide as Hf; kred; [by apply (inv_back s)|]. apply used_dec in Hf.
  pose proof (scount_bounds _ _ _ _ Hc Hsc He Hf) as Hbd. pose proof (Hmax _ He).
  apply wp_obind. change (currpid s) with (currpid (set_intr false s)).
  eapply (signal_once_wp Q _ sem e); [by apply InvQ_intr|done|done|unfold NPROC, INT_MAX in *; lia|].
  intros s' Hs'. kred. by eapply back_intr.
Qed.

Lemma signaln_loop_spec sem n : ∀ Q s e,
  core None Q s → semcnt Q s → running s → 0 < ndefers (Defer s) →
  semtab s !! sem = Some e → sstate e = S_USED → scount e + Z.of_nat n ≤ INT_MAX →
  ∃ s' Q', signaln_loop n sem s = Done tt s' ∧ core None Q' s' ∧ semcnt Q' s' ∧ running s' ∧
    semtab s' = <[sem := set_scount (scount e + Z.of_nat n) e]> (semtab s) ∧ kept s s'.
Proof.
  induction n as [|n IH]; intros Q s e Hc Hsc Hr Hd He Hu Hn; cbn [signaln_loop].
  - exists s, Q. split_and!; try done. rewrite Z.add_0_r. destruct e. cbn.
    symmetry. by apply insert_id.
  - pose proof (scount_bounds _ _ _ _ Hc Hsc He Hu) as Hb. unfold NPROC, INT_MAX in *.
    destruct (signal_once_deferred Q s sem e) as (s1 & Q1 & Heq & Hc1 & Hsc1 & Hr1 & Hst1 & Hk1);
      try done; [unfold INT_MAX; lia|].
    destruct (IH Q1 s1 (set_scount (scount e + 1) e)) as (s2 & Q2 & Heq2 & ? & ? & ? & Hst2 & Hk2);
      try done; [by rewrite (kp_ndefers _ _ Hk1)|by rewrite Hst1, lookup_insert_eq|cbn; lia|].
    exists s2, Q2. split_and!; try done.
    + kred. rewrite Heq. kred. exact Heq2.
    + rewrite Hst2, Hst1, insert_insert_eq. f_equal. destruct e. cbn.
      unfold set_scount. f_equal. cbn. lia.
    + by etrans.
Qed.

Lemma signaln_safe sem count s :
  Inv s → (∀ e, semtab s !! sem = Some e → scount e + count ≤ INT_MAX) →
  safe_call (signaln sem count) s.
Proof.
  intros HI Hmax. pose proof HI as [Q HQ]. pose proof HQ as (Hc & Hsc & Hr & Hd).
  unfold safe_call, signaln. kred. destruct (isbadsem sem) eqn:Hb; kred; [by apply (inv_back s)|].
  cbn [orb]. case_bool_decide as Hneg; kred; [by apply (inv_back s)|].
  destruct (sem_guard _ _ _ Hc Hb) as [e He]. erewrite getsem_some by done. kred.
  case_bool_decide as Hf; kred; [by apply (inv_back s)|]. apply used_dec in Hf.
  rewrite defer_start by done. kred. set (s1 := set_Defer _ _).
  destruct (signaln_loop_spec sem (Z.to_nat count) Q s1 e) as
    (s2 & Q2 & -> & Hc2 & Hsc2 & Hr2 & Hst2 & Hk2); try done.
  { eapply core_proper; [|exact Hc]. by split. }
  { rewrite Z2Nat.id by lia. by apply Hmax. }
  kred. apply wp_obind. destruct Hk2 as [Hcp Hin Hdf _].
  change (currpid s) with (currpid s1). rewrite <- Hcp.
  eapply wp_mono; [by apply (defer_stop_wp Q2)|]. intros a s' [_ Hs']. kred. by eapply back_intr.
Qed.

(** ** semcreate *)

Lemma next_slot m i :
  0 ≤ i < m → (if bool_decide (m ≤ i + 1) then 0 else i + 1) = (i + 1) mod m.
Proof.
  intros Hi. case_bool_decide.
  - replace (i + 1) with m by lia. by rewrite Z_mod_same_full.
  - by rewrite Z.mod_small by lia.
Qed.

(** The search looks at the [n] slots from [nextsem] on, cyclically. *)
Lemma newsem_loop_spec n : ∀ s,
  is_table NSEM (semtab s) → 0 ≤ nextsem s < NSEM →
  ∃ r ns, 0 ≤ ns < NSEM ∧
   ((r = SYSERR ∧ newsem_loop n s = Done r (set_nextsem ns s) ∧
     ∀ j e, 0 ≤ j < Z.of_nat n → semtab s !! ((nextsem s + j) mod NSEM) = Some e →
       sstate e = S_USED) ∨
    (∃ e, 0 ≤ r < NSEM ∧ semtab s !! r = Some e ∧ sstate e = S_FREE ∧
      newsem_loop n s =
        Done r (set_semtab (<[r := set_sstate S_USED e]> (semtab s)) (set_nextsem ns s)))).
Proof.
  induction n as [|n IH]; intros s Ht Hns; cbn [newsem_loop].
  - exists SYSERR, (nextsem s). split; [done|]. left. split; [done|]. split; [by destruct s|].
    intros; lia.
  - destruct (is_table_get _ _ _ Ht Hns) as [e He].
    set (ns := if bool_decide (NSEM ≤ nextsem s + 1) then 0 else nextsem s + 1).
    assert (ns = (nextsem s + 1) mod NSEM) as Hnse by (by apply next_slot).
    assert (0 ≤ ns < NSEM) as Hb by (rewrite Hnse; by apply Z.mod_pos_bound).
    kred. fold ns. erewrite getsem_some by done. kred. destruct (decide (sstate e = S_FREE)) as [Hf|Hu].
    + rewrite bool_decide_eq_true_2 by done. exists (nextsem s), ns. split; [done|]. right.
      exists e. split_and!; try done; try lia. kred. by erewrite setsem_some.
    + rewrite bool_decide_eq_false_2 by done.
      destruct (IH (set_nextsem ns s) Ht Hb) as (r & ns' & Hns' & [(-> & Heq & Hall)|(e' & Hr & He' & Hf & Heq)]).
      * exists SYSERR, ns'. split; [done|]. left. split_and!; [done|by rewrite Heq|].
        intros j e' Hj. destruct (decide (j = 0)) as [->|].
        { rewrite Z.add_0_r, Z.mod_small by done. intros ?. apply used_dec. congruence. }
        intros He'. apply (Hall (j - 1) e'); [lia|]. cbn. rewrite Hnse, Zplus_mod_idemp_l.
        by replace (nextsem s + 1 + (j - 1)) with (nextsem s + j) by lia.
      * exists r, ns'. split; [done|]. right. by exists e'.
Qed.

Lemma semcreate_free Q s count :
  InvQ Q s → 0 ≤ count ≤ INT_MAX →
  (∃ r e ns, semtab s !! r = Some e ∧ sstate e = S_FREE ∧
    semcreate count s = Done r
      (set_intr (intr s) (set_semtab (<[r := Sentry S_USED count (SEMQ r)]> (semtab s))
        (set_nextsem ns s))) ∧
    InvQ Q (set_semtab (<[r := Sentry S_USED count (SEMQ r)]> (semtab s)) (set_nextsem ns s))) ∨
  (∃ ns, semcreate count s = Done SYSERR (set_intr (intr s) (set_nextsem ns s)) ∧
    InvQ Q (set_nextsem ns s) ∧
    ∀ i e, semtab s !! i = Some e → sstate e = S_USED).
Proof.
  intros (Hc & Hsc & Hr & Hd) Hcnt. pose proof (c_sems _ _ _ Hc) as Ht.
  destruct (newsem_loop_spec (Z.to_nat NSEM) (set_intr false s) Ht (c_nextsem _ _ _ Hc))
    as (r & ns & Hns & [(-> & Heq & Hall)|(e & Hr' & He & Hf & Heq)]); [right|left].
  - exists ns. unfold InvQ. split_and!; try done.
    + unfold semcreate. kred. rewrite bool_decide_eq_false_2 by lia. kred.
      unfold newsem. rewrite Heq. by kred.
    + by apply core_set_nextsem.
    + intros i e He. pose proof (is_table_bound _ _ _ _ Ht He) as Hi.
      apply (Hall ((i - nextsem s) mod NSEM) e).
      * rewrite Z2Nat.id by done. by apply Z.mod_pos_bound.
      * cbn. rewrite Zplus_mod_idemp_r. replace (nextsem s + (i - nextsem s)) with i by lia.
        by rewrite Z.mod_small.
  - exists r, e, ns. cbn in He, Heq.
    pose proof (c_squeue _ _ _ Hc _ _ He) as Hsq.
    assert (Sentry S_USED count (SEMQ r) = set_scount count (set_sstate S_USED e)) as ->.
    { destruct e. cbn in *. by rewrite Hsq. }
    unfold InvQ. split_and!; try done.
    + unfold semcreate. kred. rewrite bool_decide_eq_false_2 by lia. kred.
      unfold newsem. rewrite Heq. kred. rewrite bool_decide_eq_false_2 by clia. kred.
      erewrite setsem_some by (cbn; apply lookup_insert_eq). kred. by rewrite insert_insert_eq.
    + by apply (core_setsem _ _ (set_nextsem ns s)); [apply core_set_nextsem|..].
    + eapply semcnt_update; [done|done|done|done|]. intros l Hl.
      pose proof (Hsc _ _ _ He Hl) as Hok. unfold sem_ok in *. cbn. rewrite Hf in Hok. subst. cbn. lia.
Qed.

Lemma semcreate_safe count s : Inv s → count ≤ INT_MAX → safe_call (semcreate count) s.
Proof.
  intros HI Hcnt. pose proof HI as [Q HQ]. unfold safe_call.
  destruct (decide (count < 0)).
  { unfold semcreate. kred. rewrite bool_decide_eq_true_2 by done. kred. by apply (inv_back s). }
  destruct (semcreate_free Q s count HQ ltac:(lia)) as [(r & e & ns & _ & _ & -> & HI')|(ns & -> & HI' & _)];
    cbn; (split; [|done]); apply Inv_intr; eauto with xinu.
Qed.

(** ** semdelete and semreset: every waiting process is released *)

(** The counts of all semaphores but [sem]. *)
Definition semcnt_but (sem : Z) (Q : gmap Z (list Z)) (s : kst) : Prop :=
  ∀ i e l, i ≠ sem → semtab s !! i = Some e → Q !! SEMQ i = Some l → sem_ok e l.

Definition wake_all (l : list Z) (pt : gmap Z procent) : gmap Z procent :=
  foldl (λ pt x, alter (set_prstate PR_READY) x pt) pt l.

Lemma semcnt_but_weaken sem Q s : semcnt Q s → semcnt_but sem Q s.
Proof. intros H i e l _. apply H. Qed.

Lemma semcnt_but_add sem Q s :
  semcnt_but sem Q s →
  (∀ e l, semtab s !! sem = Some e → Q !! SEMQ sem = Some l → sem_ok e l) → semcnt Q s.
Proof. intros H Hs i e l. destruct (decide (i = sem)) as [->|]; [apply Hs|by apply H]. Qed.

Lemma semcnt_but_step sem Q s s' l lr :
  semcnt_but sem Q s → is_table NSEM (semtab s) →
  (∀ i, i ≠ sem → semtab s' !! i = semtab s !! i) →
  semcnt_but sem (<[RDY := lr]> (<[SEMQ sem := l]> Q)) s'.
Proof.
  intros Hsc Ht Hs i e l2 Hi. rewrite Hs by done. intros He.
  pose proof (is_table_bound _ _ _ _ Ht He). destruct (semq_not_rdy i) as [? _]; [done|].
  rewrite !lookup_insert_ne; [by apply Hsc| |congruence]. by intros ?%semq_inj.
Qed.

Lemma wake_one pt x p l :
  pt !! x = Some p → wake_all (x :: l) pt = wake_all l (<[x := set_prstate PR_READY p]> pt).
Proof.
  intros Hp. unfold wake_all. cbn. f_equal. apply map_eq. intros j.
  rewrite lookup_alter, lookup_insert. case_decide; [|done]. subst. by rewrite Hp.
Qed.

(** What a loop that empties the queue of [sem] leaves behind. *)
Record drained (sem : Z) (l : list Z) (s s' : kst) (Q' : gmap Z (list Z)) : Prop := Drained {
  dr_core : core None Q' s';
  dr_cnt : semcnt_but sem Q' s';
  dr_run : running s';
  dr_empty : Q' !! SEMQ sem = Some [];
  dr_procs : proctab s' = wake_all l (proctab s);
  dr_kept : kept s s' }.

(** Releasing one process of the queue of [sem]. *)
Lemma drain_step sem l Q s x :
  core None Q s → semcnt_but sem Q s → running s → 0 < ndefers (Defer s) →
  0 ≤ sem < NSEM → Q !! SEMQ sem = Some (x :: l) →
  ∃ s1 s2 Q2, qop (getfirst (SEMQ sem)) s = Done x s1 ∧ ready x s1 = Done OK s2 ∧
    core None Q2 s2 ∧ semcnt_but sem Q2 s2 ∧ running s2 ∧ Q2 !! SEMQ sem = Some l ∧
    0 ≤ x < NPROC ∧ semtab s2 = semtab s ∧
    (∀ l', wake_all l' (proctab s2) = wake_all (x :: l') (proctab s)) ∧ kept s s2.
Proof.
  intros Hc Hsc Hr Hd Hi Hl. destruct (semq_not_rdy _ Hi) as [Hrdy _].
  destruct (release_deferred Q s (SEMQ sem) (getfirst (SEMQ sem)) x l) as
    (s2 & s1 & px & lr & Hq & Hrd & Hpx & Hpt & Hlr & Hc' & Hr' & Hst & Hk & _); try done.
  { by left. }
  pose proof (is_table_bound _ _ _ _ (c_procs _ _ _ Hc) Hpx).
  exists s1, s2. eexists. split; [done|]. split; [done|]. split; [exact Hc'|]. split_and!; try done.
  - eapply semcnt_but_step; [exact Hsc|apply Hc|]. intros. by rewrite Hst.
  - rewrite lookup_insert_ne by congruence. apply lookup_insert_eq.
  - lia.
  - lia.
  - intros l'. rewrite Hpt. symmetry. by apply wake_one.
Qed.

Lemma semreset_loop_spec sem l : ∀ fuel Q s,
  core None Q s → semcnt_but sem Q s → running s → 0 < ndefers (Defer s) →
  0 ≤ sem < NSEM → Q !! SEMQ sem = Some l → (length l < fuel)%nat →
  ∃ s' Q', semreset_loop fuel (SEMQ sem) s = Done tt s' ∧ drained sem l s s' Q' ∧
    semtab s' = semtab s.
Proof.
  induction l as [|x l IH]; intros [|fuel] Q s Hc Hsc Hr Hd Hi Hl Hf; cbn in Hf; try lia;
    cbn [semreset_loop]; kred.
  - erewrite qop_some by (eapply getfirst_empty; [apply Hc|done]). kred.
    rewrite bool_decide_eq_true_2 by done. kred. exists s, Q.
    split; [by destruct s|]. by split.
  - destruct (drain_step sem l Q s x) as (s1 & s2 & Q2 & -> & Hrd & Hc2 & Hsc2 & Hr2 & Hl2 & Hx & Hst & Hw & Hk);
      try done. kred. rewrite bool_decide_eq_false_2 by clia. kred. rewrite Hrd. kred.
    destruct (IH fuel Q2 s2) as (s' & Q' & Heq & [] & Hst'); try done; [|lia|].
    { by rewrite (kp_ndefers _ _ Hk). }
    exists s', Q'. split_and!; [done| |congruence]. split; try done; [by rewrite <- Hw|by etrans].
Qed.

(** In semdelete the count says when the queue is empty. *)
Lemma semdelete_loop_spec sem l : ∀ fuel Q s e,
  core None Q s → semcnt_but sem Q s → running s → 0 < ndefers (Defer s) →
  semtab s !! sem = Some e → Q !! SEMQ sem = Some l →
  Z.of_nat (length l) = Z.max 0 (- scount e) → scount e ≤ INT_MAX → (length l < fuel)%nat →
  ∃ s' Q' e', semdelete_loop fuel sem s = Done tt s' ∧ drained sem l s s' Q' ∧
    semtab s' = <[sem := e']> (semtab s) ∧ sstate e' = sstate e.
Proof.
  induction l as [|x l IH]; intros [|fuel] Q s e Hc Hsc Hr Hd He Hl Hcnt Hmax Hf; cbn in Hf, Hcnt;
    try lia; cbn [semdelete_loop]; kred; erewrite getsem_some by done; kred;
    erewrite setsem_some by done; kred;
    destruct (core_semq _ _ _ _ Hc He) as (Hi & Hsq & _).
  - rewrite bool_decide_eq_false_2 by lia. kred. eexists _, Q, _. split_and!; [done| |done|done].
    split; try done; [|by intros i e0 l0 Hne; cbn; rewrite lookup_insert_ne by done; apply Hsc].
    by apply core_setsem.
  - rewrite bool_decide_eq_true_2 by lia. kred. rewrite Hsq.
    pose proof (qs_queue _ _ (c_queues _ _ _ Hc) _ _ Hl) as Hq.
    pose proof (NoDup_bounded_length _ NPROC (isq_nodup _ _ _ Hq) (isq_pids _ _ _ Hq)) as Hlen.
    cbn in Hlen. unfold NPROC in Hlen. rewrite s32_id by lia.
    set (s0 := set_semtab _ s).
    destruct (drain_step sem l Q s0 x) as (s1 & s2 & Q2 & -> & Hrd & Hc2 & Hsc2 & Hr2 & Hl2 & Hx & Hst & Hw & Hk);
      try done.
    { by apply core_setsem. }
    { intros i e0 l0 Hne. cbn. rewrite lookup_insert_ne by done. by apply Hsc. }
    kred. rewrite Hrd. kred.
    destruct (IH fuel Q2 s2 (set_scount (scount e + 1) e)) as (s' & Q' & e' & Heq & [] & Hst' & He');
      try done; [by rewrite (kp_ndefers _ _ Hk)|by rewrite Hst; cbn; rewrite lookup_insert_eq|cbn; unfold INT_MAX in *; lia..|].
    exists s', Q', e'. split_and!; try done.
    + split; try done; [by rewrite dr_procs0, Hw|]. etrans; [|exact dr_kept0]. destruct Hk. by split.
    + rewrite Hst', Hst. cbn. by rewrite insert_insert_eq.
Qed.

(** semdelete of a semaphore in use: its waiting processes become ready, it is
    free, and a rescheduling follows if any process was released. *)
Lemma semdelete_spec Q s sem e l :
  InvQ Q s → semtab s !! sem = Some e → sstate e = S_USED → Q !! SEMQ sem = Some l →
  ∃ s2 Q2 e', semdelete sem s = obind (resched_cntl DEFER_STOP s2) (λ _ s',
      Done OK (set_intr (intr s) s')) ∧
    core None Q2 s2 ∧ semcnt Q2 s2 ∧ running s2 ∧ ndefers (Defer s2) = 1 ∧
    currpid s2 = currpid s ∧ Q2 !! SEMQ sem = Some [] ∧
    proctab s2 = wake_all l (proctab s) ∧
    semtab s2 = <[sem := e']> (semtab s) ∧ sstate e' = S_FREE.
Proof.
  intros (Hc & Hsc & Hr & Hd) He Hu Hl. destruct (core_semq _ _ _ _ Hc He) as (Hi & Hsq & _).
  pose proof (Hsc _ _ _ He Hl) as Hok. unfold sem_ok in Hok. rewrite Hu in Hok.
  set (s1 := set_Defer (Defer_ 1 false)
    (set_semtab (<[sem := set_sstate S_FREE e]> (semtab s)) (set_intr false s))).
  destruct (semdelete_loop_spec sem l (S (Z.to_nat (- scount e))) Q s1 (set_sstate S_FREE e))
    as (s2 & Q2 & e' & Heq & [] & Hst & He'); try done.
  - eapply core_proper; [|apply (core_setsem _ _ _ sem (set_sstate S_FREE e) Hc); done]. by split.
  - intros i e0 l0 Hne. cbn. rewrite lookup_insert_ne by done. by apply Hsc.
  - cbn. apply lookup_insert_eq.
  - apply Hok.
  - apply Hok.
  - lia.
  - exists s2, Q2, e'. destruct dr_kept0. cbn in Hst, He'. rewrite insert_insert_eq in Hst.
    split_and!; try done.
    + unfold semdelete. kred. assert (isbadsem sem = false) as -> by (by apply isbadsem_false). kred.
      erewrite getsem_some by done. kred. rewrite bool_decide_eq_false_2 by congruence. kred.
      erewrite setsem_some by done. kred. rewrite defer_start by done. kred.
      fold s1. rewrite Heq. by kred.
    + eapply semcnt_but_add; [done|]. rewrite Hst, lookup_insert_eq. intros e0 l0 [= <-].
      rewrite dr_empty0. intros [= <-]. unfold sem_ok. by rewrite He'.
Qed.

(** semreset: the waiting processes become ready and the count is [count]. *)
Lemma semreset_spec Q s sem e l count :
  InvQ Q s → semtab s !! sem = Some e → sstate e = S_USED → Q !! SEMQ sem = Some l →
  0 ≤ count ≤ INT_MAX →
  ∃ s2 Q2, semreset sem count s = obind (resched_cntl DEFER_STOP s2) (λ _ s',
      Done OK (set_intr (intr s) s')) ∧
    core None Q2 s2 ∧ semcnt Q2 s2 ∧ running s2 ∧ ndefers (Defer s2) = 1 ∧
    currpid s2 = currpid s ∧ Q2 !! SEMQ sem = Some [] ∧
    proctab s2 = wake_all l (proctab s) ∧
    semtab s2 = <[sem := set_scount count e]> (semtab s).
Proof.
  intros (Hc & Hsc & Hr & Hd) He Hu Hl Hcount.
  destruct (core_semq _ _ _ _ Hc He) as (Hi & Hsq & _).
  pose proof (qs_queue _ _ (c_queues _ _ _ Hc) _ _ Hl) as Hq.
  pose proof (NoDup_bounded_length _ NPROC (isq_nodup _ _ _ Hq) (isq_pids _ _ _ Hq)) as Hlen.
  set (s1 := set_Defer (Defer_ 1 false) (set_intr false s)).
  destruct (semreset_loop_spec sem l queue_fuel Q s1) as (s2 & Q2 & Heq & [] & Hst); try done.
  - eapply core_proper; [|exact Hc]. by split.
  - intros i e0 l0 _. by apply Hsc.
  - unfold queue_fuel, NPROC in *. lia.
  - destruct dr_kept0. cbn in Hst.
    assert (semtab s2 !! sem = Some e) as He2 by (by rewrite Hst).
    exists (set_semtab (<[sem := set_scount count e]> (semtab s2)) s2), Q2. split_and!; try done.
    + unfold semreset. kred. rewrite bool_decide_eq_false_2 by lia.
      assert (isbadsem sem = false) as -> by (by apply isbadsem_false). kred.
      cbn [orb]. kred. erewrite getsem_some by done. kred.
      rewrite bool_decide_eq_false_2 by congruence. kred. rewrite defer_start by done. kred.
      fold s1. rewrite Hsq, Heq. kred. erewrite setsem_some by done. by kred.
    + by apply core_setsem.
    + eapply semcnt_but_add.
      * intros i e0 l0 Hne. cbn. rewrite lookup_insert_ne by done. by apply dr_cnt0.
      * cbn. rewrite lookup_insert_eq, dr_empty0. intros e0 l0 [= <-] [= <-].
        unfold sem_ok. cbn. rewrite Hu. lia.
    + by rewrite Hst.
Qed.

(** The end of a call that deferred rescheduling. *)
Lemma defer_end_safe Q2 s s2 (r : Z) :
  core None Q2 s2 → semcnt Q2 s2 → running s2 → ndefers (Defer s2) = 1 → currpid s2 = currpid s →
  wp (currpid s) (obind (resched_cntl DEFER_STOP s2) (λ _ s', Done r (set_intr (intr s) s')))
    (λ _ s', back (currpid s) (intr s) s').
Proof.
  intros Hc Hsc Hr Hd Hcp. apply wp_obind. rewrite <- Hcp.
  eapply wp_mono; [by apply (defer_stop_wp Q2)|]. intros a s' [_ Hs']. cbn. by eapply back_intr.
Qed.

Lemma semdelete_safe sem s : Inv s → safe_call (semdelete sem) s.
Proof.
  intros HI. pose proof HI as [Q HQ]. pose proof HQ as (Hc & _).
  unfold safe_call. destruct (isbadsem sem) eqn:Hb.
  { unfold semdelete. kred. rewrite Hb. kred. by apply (inv_back s). }
  destruct (sem_guard _ _ _ Hc Hb) as [e He].
  destruct (decide (sstate e = S_FREE)) as [Hf|Hu%used_dec].
  { unfold semdelete. kred. rewrite Hb. kred. erewrite getsem_some by done. kred.
    rewrite bool_decide_eq_true_2 by done. kred. by apply (inv_back s). }
  destruct (core_semq _ _ _ _ Hc He) as (Hi & Hsq & l & Hl).
  destruct (semdelete_spec _ _ _ _ _ HQ He Hu Hl) as (s2 & Q2 & e' & -> & ? & ? & ? & ? & ? & _).
  by eapply defer_end_safe.
Qed.

Lemma semreset_safe sem count s : Inv s → count ≤ INT_MAX → safe_call (semreset sem count) s.
Proof.
  intros HI Hmax. pose proof HI as [Q HQ]. pose proof HQ as (Hc & _).
  unfold safe_call. destruct (decide (count < 0)) as [|Hneg].
  { unfold semreset. kred. rewrite bool_decide_eq_true_2 by done. kred. by apply (inv_back s). }
  destruct (isbadsem sem) eqn:Hb.
  { unfold semreset. kred. rewrite Hb, orb_true_r. kred. by apply (inv_back s). }
  destruct (sem_guard _ _ _ Hc Hb) as [e He].
  destruct (decide (sstate e = S_FREE)) as [Hf|Hu%used_dec].
  { unfold semreset. kred. rewrite Hb, bool_decide_eq_false_2 by lia. cbn [orb]. kred.
    erewrite getsem_some by done. kred.
    rewrite bool_decide_eq_true_2 by done. kred. by apply (inv_back s). }
  destruct (core_semq _ _ _ _ Hc He) as (Hi & Hsq & l & Hl).
  destruct (semreset_spec _ _ _ _ _ count HQ He Hu Hl) as (s2 & Q2 & -> & ? & ? & ? & ? & ? & _);
    [lia|]. by eapply defer_end_safe.
Qed.

Lemma semcount_safe sem s : Inv s → safe_call (semcount sem) s.
Proof.
  intros HI. pose proof HI as [Q HQ]. pose proof HQ as (Hc & _).
  unfold safe_call, semcount. kred. destruct (isbadsem sem) eqn:Hb; kred; [by apply (inv_back s)|].
  destruct (sem_guard _ _ _ Hc Hb) as [e He]. erewrite getsem_some by done. kred.
  case_bool_decide; kred; by apply (inv_back s).
Qed.

(** ** Calls from interrupt handlers, which run under a deferral *)

Definition handling (Q : gmap Z (list Z)) (s : kst) : Prop :=
  core None Q s ∧ semcnt Q s ∧ running s ∧ 0 < ndefers (Defer s) < INT_MAX.

Lemma handling_csim Q s s' :
  csim s s' → ndefers (Defer s') = ndefers (Defer s) → handling Q s → handling Q s'.
Proof. intros E Hd (? & ? & ? & ?). unfold handling. rewrite Hd. split_and!; [by rewrite <-E..|lia|lia]. Qed.

Lemma handling_defer Q s d :
  handling Q s → 0 < ndefers d < INT_MAX → handling Q (set_Defer d s).
Proof.
  intros (Hc & Hsc & Hr & _) Hd. split_and!; [|exact Hsc|exact Hr|apply Hd..].
  eapply core_proper; [|exact Hc]. by split.
Qed.

Lemma handling_sem Q s sem e :
  handling Q s → semtab s !! sem = Some e → isbadsem sem = false.
Proof. intros (Hc & _) He. apply isbadsem_false. exact (is_table_bound _ _ _ _ (c_sems _ _ _ Hc) He). Qed.

Lemma signal_handling Q s sem e :
  handling Q s → semtab s !! sem = Some e → sstate e = S_USED → scount e < INT_MAX →
  ∃ s' Q', signal sem s = Done OK s' ∧ handling Q' s' ∧
    semtab s' = <[sem := set_scount (scount e + 1) e]> (semtab s) ∧ kept s s'.
Proof.
  intros HQ He Hu Hm. pose proof HQ as (Hc & Hsc & Hr & Hd).
  pose proof (scount_bounds _ _ _ _ Hc Hsc He Hu) as Hb. unfold NPROC, INT_MAX in Hb, Hm.
  set (s1 := set_intr false s).
  destruct (signal_once_deferred Q s1 sem e) as (s2 & Q2 & Heq & Hc2 & Hsc2 & Hr2 & Hst & Hk).
  { eapply core_proper; [|exact Hc]. by split. }
  { done. } { done. } { cbn; lia. } { done. } { done. } { unfold INT_MAX; lia. }
  exists (set_intr (intr s) s2), Q2. destruct Hk as [Hk1 Hk2 Hk3 Hk4 Hk5 Hk6]. split_and!.
  - unfold signal. kred. rewrite (handling_sem _ _ _ _ HQ He). kred.
    erewrite getsem_some by done. kred. rewrite bool_decide_eq_false_2 by congruence. kred.
    fold s1. rewrite Heq. by kred.
  - split_and!; try done; cbn; rewrite ?Hk3; try apply Hd. eapply core_proper; [|exact Hc2]. by split.
  - done.
  - by split.
Qed.

Lemma signaln_handling Q s sem e count :
  handling Q s → semtab s !! sem = Some e → sstate e = S_USED → 0 ≤ count →
  scount e + count ≤ INT_MAX →
  ∃ s' Q', signaln sem count s = Done OK s' ∧ handling Q' s' ∧
    semtab s' = <[sem := set_scount (scount e + count) e]> (semtab s) ∧ kept s s'.
Proof.
  intros HQ He Hu Hn Hm. pose proof HQ as (Hc & Hsc & Hr & Hd). unfold INT_MAX in *.
  set (s1 := set_Defer (Defer_ (ndefers (Defer s) + 1) (attempt (Defer s))) (set_intr false s)).
  destruct (signaln_loop_spec sem (Z.to_nat count) Q s1 e) as
    (s2 & Q2 & Heq & Hc2 & Hsc2 & Hr2 & Hst & Hk); try done.
  { eapply core_proper; [|exact Hc]. by split. } { cbn; lia. } { unfold INT_MAX; lia. }
  destruct Hk as [Hk1 Hk2 Hk3 Hk4 Hk5 Hk6]. cbn in Hk3.
  set (s3 := set_Defer (Defer_ (ndefers (Defer s)) (attempt (Defer s2))) s2).
  exists (set_intr (intr s) s3), Q2. split_and!.
  - unfold signaln. kred. rewrite (handling_sem _ _ _ _ HQ He). cbn [orb].
    rewrite bool_decide_eq_false_2 by lia. kred. erewrite getsem_some by done. kred.
    rewrite bool_decide_eq_false_2 by congruence. kred.
    unfold resched_cntl at 1. rewrite bool_decide_eq_true_2 by done. kred.
    rewrite (bool_decide_eq_false_2 (ndefers (Defer s) = 0)), s32_id by lia. fold s1.
    rewrite Heq. kred. unfold resched_cntl. rewrite bool_decide_eq_false_2 by done.
    rewrite bool_decide_eq_true_2 by done. kred. rewrite Hk3.
    rewrite bool_decide_eq_false_2 by lia. kred.
    rewrite (bool_decide_eq_false_2 (_ - 1 = 0)) by lia. kred.
    by replace (ndefers (Defer s) + 1 - 1) with (ndefers (Defer s)) by lia.
  - split_and!; try done; cbn; try (unfold INT_MAX; lia). eapply core_proper; [|exact Hc2]. by split.
  - cbn. rewrite Hst. f_equal. by rewrite Z2Nat.id by lia.
  - by split.
Qed.
