(* ===== verification/Clock.v ===== *)
(** The clock and the sleep queue: system/sleep.c, unsleep.c, wakeup.c,
    clkhandler.c, and irq_dispatch of system/evec.c. *)

From S2P Require Import Prelude Types Queue Delta Heap Kernel KInv Sched Semaphore.

(** ** sleep.c *)
Definition MAXSECONDS : Z := 2147483.

Definition sleepms (delay : Z) : M Z :=
  if bool_decide (delay < 0) then ret SYSERR
  else if bool_decide (delay = 0) then _ ← yield; ret OK
  else
    mask ← disable;
    cur ← gets currpid;
    sq ← gets sleepq;
    pt ← gets proctab;
    r ← qop (insertd pt cur sq delay);
    if bool_decide (r = SYSERR) then restore mask;; ret SYSERR
    else
      setproc cur (set_prstate PR_SLEEP);;
      resched;;
      restore mask;;
      ret OK.

Definition sleep (delay : Z) : M Z :=
  if bool_decide (delay < 0) || bool_decide (MAXSECONDS < delay) then ret SYSERR
  else
    _ ← sleepms (s32 (1000 * delay));
    ret OK.

(** ** unsleep.c *)

(** [pidnext = queuetab[pid].qnext; if (pidnext < NPROC)
    queuetab[pidnext].qkey += queuetab[pid].qkey; getitem(pid);] *)
Definition unsleep_unlink (pid : Z) (t : gmap Z qentry) : option (Z * gmap Z qentry) :=
  e ← t !! pid;
  let pidnext := qnext e in
  t ← (if bool_decide (pidnext < NPROC)
       then n ← t !! pidnext; q_upd (set_qkey (s32 (qkey n + qkey e))) pidnext t
       else Some t);
  getitem pid t.

Definition unsleep (pid : Z) : M Z :=
  mask ← disable;
  pt ← gets proctab;
  if isbadpid pt pid then restore mask;; ret SYSERR
  else
    prptr ← getproc pid;
    if bool_decide (prstate prptr ≠ PR_SLEEP) && bool_decide (prstate prptr ≠ PR_RECTIM)
    then restore mask;; ret SYSERR
    else
      _ ← qop (unsleep_unlink pid);
      restore mask;;
      ret OK.

(** ** wakeup.c *)
Fixpoint wakeup_loop (fuel : nat) : M unit :=
  match fuel with
  | O => fault
  | S fuel =>
    sq ← gets sleepq;
    ne ← qread (nonempty sq);
    if ne : bool then
      k ← qread (firstkey sq);
      if bool_decide (k ≤ 0) then
        pid ← qop (dequeue sq);
        _ ← ready pid;
        wakeup_loop fuel
      else ret tt
    else ret tt
  end.

Definition wakeup : M unit :=
  _ ← resched_cntl DEFER_START;
  wakeup_loop queue_fuel;;
  _ ← resched_cntl DEFER_STOP;
  ret tt.

(** ** clkhandler.c: [tisr] is the value read from the timer's interrupt
    status register. *)
Definition AM335X_TIMER1MS_TISR_OVF_IT_FLAG : Z := 2.

(** [--queuetab[firstid(sleepq)].qkey], and its value *)
Definition dec_first_key (q : Z) (t : gmap Z qentry) : option (Z * gmap Z qentry) :=
  f ← firstid q t;
  e ← t !! f;
  let k := s32 (qkey e - 1) in
  t ← q_upd (set_qkey k) f t;
  Some (k, t).

Definition clk_count : M unit :=
  modify (λ s, set_count1000 (u32 (count1000 s + 1)) s);;
  c ← gets count1000;
  if bool_decide (1000 ≤ c) then
    modify (λ s, set_clktime (u32 (clktime s + 1)) s);;
    modify (set_count1000 0)
  else ret tt.

Definition clk_sleepq : M unit :=
  sq ← gets sleepq;
  e ← qread (isempty sq);
  if e : bool then ret tt
  else
    k ← qop (dec_first_key sq);
    if bool_decide (k = 0) then wakeup else ret tt.

Definition clk_preempt : M unit :=
  modify (λ s, set_preempt (u32 (preempt s - 1)) s);;
  p ← gets preempt;
  if bool_decide (p = 0) then
    modify (set_preempt QUANTUM);;
    resched
  else ret tt.

Definition clkhandler (tisr : Z) : M unit :=
  if bool_decide (Z.land tisr AM335X_TIMER1MS_TISR_OVF_IT_FLAG = 0) then ret tt
  else clk_count;; clk_sleepq;; clk_preempt.

(** ** evec.c, irq_dispatch: [sir_irq] is the value read from the interrupt
    controller and [intc_vector] the installed handlers. *)
Definition irq_dispatch (intc_vector : Z → option (Z → M unit)) (sir_irq : Z) : M unit :=
  let xnum := Z.land sir_irq 127 in
  _ ← resched_cntl DEFER_START;
  (match intc_vector xnum with
   | Some handler => handler xnum
   | None => ret tt
   end);;
  _ ← resched_cntl DEFER_STOP;
  ret tt.

(** The interrupt exception of intr.S: interrupts are masked while
    irq_dispatch runs, and the interrupted process's mask comes back. *)
Definition irq_except (intc_vector : Z → option (Z → M unit)) (sir_irq : Z) : M unit :=
  mask ← disable;
  irq_dispatch intc_vector sir_irq;;
  restore mask.

(** * Specifications *)

(** ** unsleep *)

Lemma unsleep_unlink_spec t Q q l1 pid l2 :
  qsys t Q → Q !! q = Some (l1 ++ pid :: l2) →
  ∃ t', unsleep_unlink pid t = Some (pid, t') ∧ qsys t' (<[q := l1 ++ l2]> Q) ∧
    (∀ j, j ∉ l2 → ky t' j = ky t j) ∧
    (∀ j, j ∈ l1 ++ l2 → keyof t' j = u_keys (keyof t) pid l2 j).
Proof.
  intros Hs Hl. pose proof (qs_queue _ _ Hs _ _ Hl) as Hq.
  destruct (qsys_at _ _ _ _ _ _ Hs Hl) as [Hn Hp].
  pose proof (is_queue_pid _ _ _ pid Hq ltac:(set_solver)) as Hpid.
  destruct (is_table_get _ t pid (qs_table _ _ Hs)) as [e He]; [clia|].
  unfold nx in Hn. rewrite He in Hn. injection Hn as Hn.
  assert (keyof t pid = qkey e) as Hke by (unfold keyof, ky; by rewrite He).
  unfold unsleep_unlink. rewrite He. cbn [mbind option_bind]. rewrite Hn.
  destruct l2 as [|y l2]; cbn [next_of head default].
  - unfold next_of. cbn. pose proof (isq_id _ _ _ Hq) as ?%isbadqid_false.
    rewrite bool_decide_eq_false_2 by (unfold queuetail; lia). cbn [mbind option_bind].
    destruct (getitem_spec _ _ _ _ _ _ Hs Hl) as (t' & Hg & Hs' & Hk). exists t'.
    split_and!; try done. intros j _. by apply keyof_eq.
  - unfold next_of. cbn. pose proof (is_queue_pid _ _ _ y Hq ltac:(set_solver)) as Hy.
    rewrite bool_decide_eq_true_2 by lia. cbn [mbind option_bind].
    destruct (is_table_get _ t y (qs_table _ _ Hs)) as [n Hny]; [clia|].
    rewrite Hny. cbn [mbind option_bind].
    destruct (qsys_setkey t Q y (s32 (qkey n + qkey e)) Hs Hy) as (t1 & -> & Hs1 & Hk1).
    cbn [mbind option_bind].
    destruct (getitem_spec _ _ _ _ _ _ Hs1 Hl) as (t' & Hg & Hs' & Hk). exists t'.
    assert (keyof t y = qkey n) as Hkn by (unfold keyof, ky; by rewrite Hny).
    split_and!; try done.
    + intros j Hj. rewrite Hk, Hk1, decide_False; [done|]. intros ->. apply Hj. by left.
    + intros j _. unfold u_keys. cbn. rewrite Hke. unfold keyof at 1. rewrite Hk, Hk1.
      case_decide; subst; [by rewrite decide_True, Hkn|]. by rewrite decide_False by congruence.
Qed.

Lemma core_unsleep Q s pid p :
  core None Q s → proctab s !! pid = Some p → prstate p = PR_SLEEP ∨ prstate p = PR_RECTIM →
  ∃ l1 l2 t', Q !! SLP = Some (l1 ++ pid :: l2) ∧
    unsleep pid s = Done OK (set_queuetab t' s) ∧
    core (Some pid) (<[SLP := l1 ++ l2]> Q) (set_queuetab t' s) ∧
    (∀ j, j ∈ l1 ++ l2 → keyof t' j = u_keys (keyof (queuetab s)) pid l2 j).
Proof.
  intros Hc Hp Hst. pose proof (is_table_bound _ _ _ _ (c_procs _ _ _ Hc) Hp) as Hpid.
  assert (qof p = Some SLP) as Hq by (unfold qof; by destruct Hst as [-> | ->]).
  destruct (core_find _ _ _ _ _ _ Hc ltac:(done) Hp Hq) as (l1 & l2 & Hl).
  destruct (unsleep_unlink_spec _ _ _ _ _ _ (c_queues _ _ _ Hc) Hl) as (t' & Heq & Hs' & Hk & Hk').
  exists l1, l2, t'. split_and!; try done.
  - unfold unsleep. kred. rewrite (isbadpid_live _ _ p) by (done || by destruct Hst as [-> | ->]).
    kred. erewrite getproc_some by done. kred.
    assert (bool_decide (prstate p ≠ PR_SLEEP) && bool_decide (prstate p ≠ PR_RECTIM) = false) as ->.
    { destruct Hst as [-> | ->]; done. }
    kred. erewrite qop_some by exact Heq. kred. by destruct s.
  - eapply core_unlink; [done..|]. intros lr Hlr x Hx _. apply keyof_eq, Hk. intros Hx2.
    apply rdy_slp. eapply (qs_disj _ _ (c_queues _ _ _ Hc) RDY SLP lr _ x); [done|done|done|].
    apply elem_of_app. right. by right.
Qed.

Lemma unsleep_error pid s :
  (isbadpid (proctab s) pid = true ∨
   ∃ p, proctab s !! pid = Some p ∧ prstate p ≠ PR_SLEEP ∧ prstate p ≠ PR_RECTIM) →
  unsleep pid s = Done SYSERR s.
Proof.
  intros H. unfold unsleep. kred.
  destruct (isbadpid (proctab s) pid) eqn:Hb; kred; [by destruct s|].
  destruct H as [|(p & Hp & ? & ?)]; [done|]. erewrite getproc_some by done. kred.
  rewrite !bool_decide_eq_true_2 by done. cbn. kred. by destruct s.
Qed.

(** ** wakeup *)

Lemma due_ext ks ks' l : (∀ x, x ∈ l → ks' x = ks x) → due ks' l = due ks l.
Proof.
  induction l as [|x l IH]; intros H; cbn; [done|].
  rewrite (H x), IH; [done|intros; apply H; by right|by left].
Qed.

(** What running in deferred mode leaves behind when the processes [woken]
    left the sleep queue. *)
Record awake (woken rest : list Z) (s s' : kst) (Q' : gmap Z (list Z)) : Prop := Awake {
  aw_core : core None Q' s';
  aw_cnt : semcnt Q' s';
  aw_run : running s';
  aw_rest : Q' !! SLP = Some rest;
  aw_keys : ∀ x, x ∈ rest → keyof (queuetab s') x = keyof (queuetab s) x;
  aw_procs : proctab s' = wake_all woken (proctab s);
  aw_kept : kept s s';
  aw_preempt : preempt s' = preempt s }.

Lemma ready_preempt_deferred pid s s' a :
  0 < ndefers (Defer s) → ready pid s = Done a s' → preempt s' = preempt s.
Proof.
  intros Hd. unfold ready. kred. destruct (isbadpid _ _); [by intros [= _ <-]|].
  unfold setproc. kred. destruct (proctab s !! pid) as [p|]; [|by kred]. kred.
  unfold getproc. kred. rewrite lookup_insert_eq. kred.
  unfold qop. kred. destruct (insert _ _ _ _ _) as [[r t]|]; [|by kred]. kred.
  rewrite resched_deferred by done. kred. by intros [= _ <-].
Qed.

Lemma wakeup_loop_spec l : ∀ fuel Q s,
  core None Q s → semcnt Q s → running s → 0 < ndefers (Defer s) →
  Q !! SLP = Some l → (length l < fuel)%nat →
  let d := due (keyof (queuetab s)) l in
  ∃ s' Q', wakeup_loop fuel s = Done tt s' ∧ awake d.1 d.2 s s' Q'.
Proof.
  induction l as [|x l IH]; intros [|fuel] Q s Hc Hsc Hr Hd Hl Hf; cbn in Hf; try lia;
    cbn [wakeup_loop]; kred; pose proof (c_queues _ _ _ Hc) as Hqs; rewrite (c_slp _ _ _ Hc);
    erewrite qread_some by (by eapply nonempty_spec).
  - rewrite bool_decide_eq_false_2 by naive_solver. kred. by exists s, Q.
  - rewrite bool_decide_eq_true_2 by done. kred.
    erewrite qread_some by (by eapply firstkey_spec). kred. cbn [first_key due].
    destruct (decide (keyof (queuetab s) x ≤ 0)) as [Hle|Hgt].
    2: { rewrite !bool_decide_eq_false_2 by done. by exists s, Q. }
    rewrite !bool_decide_eq_true_2 by done. kred. cbn [fst snd].
    destruct (release_deferred Q s SLP (dequeue SLP) x l) as
      (s2 & s1 & px & lr & Hq & Hrd & Hpx & Hpt & Hlr & Hc2 & Hr2 & Hst & Hk & Hkeys); try done.
    { by right. }
    rewrite Hq. kred. rewrite Hrd. kred.
    assert (x ∉ l) as Hxl.
    { pose proof (isq_nodup _ _ _ (qs_queue _ _ Hqs _ _ Hl)) as Hnd. by apply NoDup_cons in Hnd as [? _]. }
    assert (∀ y, y ∈ l → keyof (queuetab s2) y = keyof (queuetab s) y) as Hkl.
    { intros y Hy. apply Hkeys. congruence. }
    assert (preempt s2 = preempt s) as Hpre.
    { unfold qop in Hq. destruct (dequeue _ _) as [[? g]|]; [|done]. injection Hq as -> <-.
      by apply (ready_preempt_deferred x (set_queuetab g s) s2 OK Hd Hrd). }
    destruct (IH fuel _ s2 Hc2) as (s' & Q' & Heq & []); try done; [| | |lia|].
    + eapply semcnt_rdy; [apply (semcnt_slp Q s s l); [exact Hsc|apply Hc|done]|apply Hc|done].
    + by rewrite (kp_ndefers _ _ Hk).
    + rewrite lookup_insert_ne by done. apply lookup_insert_eq.
    + rewrite (due_ext (keyof (queuetab s))) in * by done.
      exists s', Q'. split; [done|]. split; try done.
      * intros y Hy. rewrite aw_keys0 by done. apply Hkl.
        rewrite <- (due_app (keyof (queuetab s)) l). apply elem_of_app. by right.
      * rewrite aw_procs0, Hpt. symmetry. by apply wake_one.
      * by etrans.
      * congruence.
Qed.

(** wakeup while rescheduling is already deferred. *)
Lemma wakeup_deferred Q s l :
  core None Q s → semcnt Q s → running s → ndefers (Defer s) = 1 → Q !! SLP = Some l →
  let d := due (keyof (queuetab s)) l in
  ∃ s' Q', wakeup s = Done tt s' ∧ awake d.1 d.2 s s' Q'.
Proof.
  intros Hc Hsc Hr Hd Hl d. unfold wakeup.
  set (s1 := set_Defer (Defer_ 2 (attempt (Defer s))) s).
  assert (resched_cntl DEFER_START s = Done OK s1) as Hst.
  { unfold resched_cntl. rewrite bool_decide_eq_true_2 by done. kred. rewrite Hd.
    by rewrite bool_decide_eq_false_2. }
  destruct (wakeup_loop_spec l queue_fuel Q s1) as (s2 & Q2 & Heq & []); try done.
  { eapply core_proper; [|exact Hc]. by split. }
  { eapply queue_fuel_enough, qs_queue; [apply Hc|done]. }
  fold d in aw_procs0, aw_rest0, aw_keys0. destruct aw_kept0 as [E1 E2 E3 E4].
  cbn [currpid intr ndefers Defer nextsem s1 set_Defer] in E1, E2, E3, E4.
  exists (set_Defer (Defer_ 1 (attempt (Defer s2))) s2), Q2. split.
  - kred. rewrite Hst. kred. rewrite Heq. kred. unfold resched_cntl.
    rewrite bool_decide_eq_false_2, bool_decide_eq_true_2 by done. kred.
    rewrite E3, bool_decide_eq_false_2 by lia. kred.
    rewrite bool_decide_eq_false_2 by lia. done.
  - split; try done.
    + eapply core_proper; [|exact aw_core0]. by split.
Qed.

(** ** clkhandler *)

Lemma dec_first_key_spec t Q q x l :
  qsys t Q → Q !! q = Some (x :: l) →
  ∃ t', dec_first_key q t = Some (s32 (keyof t x - 1), t') ∧ qsys t' Q ∧
    (∀ j, ky t' j = if decide (j = x) then Some (s32 (keyof t x - 1)) else ky t j).
Proof.
  intros Hs Hl. pose proof (qs_queue _ _ Hs _ _ Hl) as Hq.
  pose proof (is_queue_pid _ _ _ x Hq ltac:(set_solver)) as Hx.
  unfold dec_first_key. erewrite firstid_spec by eauto. cbn [mbind option_bind next_of head default].
  destruct (is_table_get _ t x (qs_table _ _ Hs)) as [n Hn]; [clia|].
  assert (keyof t x = qkey n) as Hkn by (unfold keyof, ky; by rewrite Hn).
  unfold next_of. cbn. rewrite Hn. cbn.
  destruct (qsys_setkey t Q x (s32 (qkey n - 1)) Hs Hx) as (t1 & -> & Hs1 & Hk1). cbn.
  rewrite Hkn. by exists t1.
Qed.

(** Changing the key of a sleeping process. *)
Lemma core_slp_keys Q s l t' :
  core None Q s → Q !! SLP = Some l → qsys t' Q →
  (∀ j, j ∉ l → ky t' j = ky (queuetab s) j) → core None Q (set_queuetab t' s).
Proof.
  intros Hc Hl Hs' Hk. pose proof (c_queues _ _ _ Hc) as Hqs. destruct Hc. split; cbn; try done.
  intros lr Hlr. eapply rsorted_keys; [by apply c_sorted|]. intros x Hx. apply keyof_eq, Hk.
  intros Hx2. apply rdy_slp. by eapply (qs_disj _ _ Hqs RDY SLP lr l x).
Qed.

Definition deferred (Q : gmap Z (list Z)) (s : kst) : Prop :=
  core None Q s ∧ semcnt Q s ∧ running s ∧ ndefers (Defer s) = 1.

(** The sleep queue after a tick: the first key is decremented; when it reaches
    zero the processes whose time has come are woken. *)
Definition tick_woken (ks : Z → Z) (l : list Z) : list Z :=
  match l with
  | x :: _ => if bool_decide (s32 (ks x - 1) = 0) then (due (tick_keys ks l) l).1 else []
  | [] => []
  end.

Definition tick_rest (ks : Z → Z) (l : list Z) : list Z :=
  match l with
  | x :: _ => if bool_decide (s32 (ks x - 1) = 0) then (due (tick_keys ks l) l).2 else l
  | [] => []
  end.

Record ticked (l : list Z) (s s' : kst) (Q' : gmap Z (list Z)) : Prop := Ticked {
  tk_def : deferred Q' s';
  tk_rest : Q' !! SLP = Some (tick_rest (keyof (queuetab s)) l);
  tk_keys : ∀ x, x ∈ tick_rest (keyof (queuetab s)) l →
    keyof (queuetab s') x = tick_keys (keyof (queuetab s)) l x;
  tk_procs : proctab s' = wake_all (tick_woken (keyof (queuetab s)) l) (proctab s);
  tk_currpid : currpid s' = currpid s;
  tk_intr : intr s' = intr s;
  tk_preempt : preempt s' = preempt s }.

Lemma clk_sleepq_deferred Q s l :
  deferred Q s → Q !! SLP = Some l →
  ∃ s' Q', clk_sleepq s = Done tt s' ∧ ticked l s s' Q'.
Proof.
  intros (Hc & Hsc & Hr & Hd) Hl. pose proof (c_queues _ _ _ Hc) as Hqs.
  unfold clk_sleepq. kred. rewrite (c_slp _ _ _ Hc).
  erewrite qread_some by (by eapply isempty_spec). kred. destruct l as [|x l].
  { rewrite bool_decide_eq_true_2 by done. kred. exists s, Q. split; [done|]. by split. }
  rewrite bool_decide_eq_false_2 by done. kred.
  destruct (dec_first_key_spec _ _ _ _ _ Hqs Hl) as (t' & Hdk & Hs' & Hk).
  erewrite qop_some by exact Hdk. kred. set (s1 := set_queuetab t' s).
  assert (core None Q s1) as Hc1.
  { eapply core_slp_keys; [done..|]. intros j Hj. rewrite Hk, decide_False; [done|].
    intros ->. apply Hj. by left. }
  assert (∀ j, keyof t' j = tick_keys (keyof (queuetab s)) (x :: l) j) as Hkeys.
  { intros j. unfold tick_keys, keyof at 1. cbn. rewrite Hk.
    destruct (decide (j = x)) as [->|]; [by rewrite decide_True|]. by rewrite decide_False by congruence. }
  destruct (decide (s32 (keyof (queuetab s) x - 1) = 0)) as [Hz|Hz].
  - rewrite bool_decide_eq_true_2 by done.
    destruct (wakeup_deferred Q s1 (x :: l)) as (s2 & Q2 & Heq & []); try done.
    exists s2, Q2. split; [done|]. rewrite (due_ext (tick_keys (keyof (queuetab s)) (x :: l))) in *
      by (intros; apply Hkeys). destruct aw_kept0.
    split; unfold tick_rest, tick_woken; rewrite ?bool_decide_eq_true_2 by done; try done.
    + split_and!; try done. by rewrite kp_ndefers.
    + intros y Hy. rewrite aw_keys0 by done. apply Hkeys.
  - rewrite bool_decide_eq_false_2 by done. exists s1, Q. split; [done|].
    split; unfold tick_rest, tick_woken; rewrite ?bool_decide_eq_false_2 by done; try done.
Qed.

(** What an interrupt handler may rely on and must keep: rescheduling is
    deferred by irq_dispatch, and the handler returns to it. *)
Definition handler_ok (h : M unit) : Prop :=
  ∀ s, (∃ Q, deferred Q s) →
    ∃ s', h s = Done tt s' ∧ (∃ Q', deferred Q' s') ∧ currpid s' = currpid s ∧ intr s' = intr s.

Lemma deferred_csim Q s s' : csim s s' → Defer s' = Defer s → deferred Q s → deferred Q s'.
Proof. intros E Hd (? & ? & ? & ?). split_and!; [by rewrite <- E..|by rewrite Hd]. Qed.

Lemma clk_count_spec s :
  ∃ s', clk_count s = Done tt s' ∧ csim s s' ∧ Defer s' = Defer s ∧ intr s' = intr s ∧
    preempt s' = preempt s ∧
    count1000 s' = (if bool_decide (1000 ≤ u32 (count1000 s + 1)) then 0 else u32 (count1000 s + 1)) ∧
    clktime s' = (if bool_decide (1000 ≤ u32 (count1000 s + 1)) then u32 (clktime s + 1) else clktime s).
Proof.
  unfold clk_count. kred. case_bool_decide; kred; eexists; (split; [done|]); split_and!; done.
Qed.

Lemma clk_preempt_deferred Q s :
  deferred Q s → ∃ s', clk_preempt s = Done tt s' ∧ deferred Q s' ∧ currpid s' = currpid s ∧
    intr s' = intr s ∧ proctab s' = proctab s ∧ queuetab s' = queuetab s ∧
    preempt s' = (if bool_decide (u32 (preempt s - 1) = 0) then QUANTUM else u32 (preempt s - 1)) ∧
    (u32 (preempt s - 1) = 0 → attempt (Defer s') = true).
Proof.
  intros HD. pose proof HD as (_ & _ & _ & Hd). unfold clk_preempt. kred.
  case_bool_decide; kred.
  - rewrite resched_deferred by (cbn; lia). cbn. eexists. split; [done|]. split_and!; try done.
    destruct HD as (? & ? & ? & _). split_and!; try done. by eapply core_proper; [|done].
  - eexists. split; [done|]. split_and!; try done. by eapply deferred_csim; [..|exact HD].
Qed.

(** A clock interrupt with the overflow flag set. *)
Lemma clkhandler_deferred Q s l tisr :
  deferred Q s → Q !! SLP = Some l → Z.land tisr AM335X_TIMER1MS_TISR_OVF_IT_FLAG ≠ 0 →
  ∃ s' Q', clkhandler tisr s = Done tt s' ∧ deferred Q' s' ∧
    Q' !! SLP = Some (tick_rest (keyof (queuetab s)) l) ∧
    (∀ x, x ∈ tick_rest (keyof (queuetab s)) l →
      keyof (queuetab s') x = tick_keys (keyof (queuetab s)) l x) ∧
    proctab s' = wake_all (tick_woken (keyof (queuetab s)) l) (proctab s) ∧
    currpid s' = currpid s ∧ intr s' = intr s ∧
    preempt s' = (if bool_decide (u32 (preempt s - 1) = 0) then QUANTUM else u32 (preempt s - 1)) ∧
    (u32 (preempt s - 1) = 0 → attempt (Defer s') = true).
Proof.
  intros HD Hl Hflag. unfold clkhandler. rewrite bool_decide_eq_false_2 by done. kred.
  destruct (clk_count_spec s) as (s1 & -> & E1 & Hd1 & Hi1 & Hp1 & _). kred.
  pose proof (deferred_csim _ _ _ E1 Hd1 HD) as HD1.
  destruct (clk_sleepq_deferred Q s1 l HD1 Hl) as (s2 & Q2 & -> & []). kred.
  destruct (clk_preempt_deferred _ _ tk_def0) as (s3 & -> & HD3 & Hc3 & Hi3 & Hpt3 & Hq3 & Hp3 & Ha3).
  destruct E1. rewrite cs_queuetab in *. rewrite tk_preempt0, Hp1 in *.
  exists s3, Q2. split_and!; try done; try congruence.
  by rewrite Hq3.
Qed.

Lemma clkhandler_ok tisr : handler_ok (clkhandler tisr).
Proof.
  intros s [Q HD]. destruct (decide (Z.land tisr AM335X_TIMER1MS_TISR_OVF_IT_FLAG = 0)) as [Hz|Hz].
  - unfold clkhandler. rewrite bool_decide_eq_true_2 by done. eexists. split; [done|].
    split; [by exists Q|done].
  - pose proof HD as (Hc & _). destruct (core_queue _ _ _ SLP Hc slp_valid) as [l Hl].
    destruct (clkhandler_deferred Q s l tisr HD Hl Hz) as (s' & Q' & -> & HD' & _ & _ & _ & ? & ? & _).
    exists s'. split; [done|]. split; [by exists Q'|done].
Qed.

(** An interrupt whose handlers keep the contract is safe at any point where
    the invariant holds. *)
Lemma irq_except_safe vec n s :
  Inv s → (∀ i h, vec i = Some h → handler_ok (h i)) → safe_call (irq_except vec n) s.
Proof.
  intros [Q (Hc & Hsc & Hr & Hd)] Hvec. unfold safe_call, irq_except, irq_dispatch. kred.
  rewrite defer_start by done. kred. set (s1 := set_Defer _ _).
  assert (deferred Q s1) as HD.
  { split_and!; try done. eapply core_proper; [|exact Hc]. by split. }
  assert (∃ s2, match vec (Z.land n 127) with Some handler => handler (Z.land n 127) | None => ret tt end s1
    = Done tt s2 ∧ (∃ Q', deferred Q' s2) ∧ currpid s2 = currpid s1 ∧ intr s2 = intr s1) as
    (s2 & -> & [Q2 (Hc2 & Hsc2 & Hr2 & Hd2)] & Hcp & Hi).
  { destruct (vec (Z.land n 127)) as [h|] eqn:Hh; [by apply (Hvec _ _ Hh); exists Q|].
    exists s1. split; [done|]. split; [by exists Q|done]. }
  kred. apply wp_obind, wp_obind. change (currpid s) with (currpid s1). rewrite <- Hcp.
  eapply wp_mono; [by apply (defer_stop_wp Q2)|]. intros a s' [_ Hs']. kred. by eapply back_intr.
Qed.

(** ** Going to sleep *)

(** The current process enters the sleep queue with delay [delay] and state
    [st]; both sleepms and recvtime do this. *)
Lemma sleep_enter Q s p l delay st :
  InvQ Q s → currpid s ≠ NULLPROC → proctab s !! currpid s = Some p → Q !! SLP = Some l →
  st = PR_SLEEP ∨ st = PR_RECTIM →
  let l' := q_insertd (keyof (queuetab s)) (currpid s) delay l in
  ∃ t', insertd (proctab s) (currpid s) SLP delay (queuetab s) = Some (OK, t') ∧
    core None (<[SLP := l']> Q) (set_queuetab t' (set_proctab
      (<[currpid s := set_prstate st p]> (proctab s)) s)) ∧
    semcnt (<[SLP := l']> Q) s ∧
    (∀ j, j ∈ l' → keyof t' j = d_keys (keyof (queuetab s)) (currpid s) delay l j).
Proof.
  intros (Hc & Hsc & (p0 & Hp0 & Hcur) & Hd) Hn Hp Hl Hst l'. assert (p0 = p) as -> by congruence.
  assert (qof p = None) as Hq0 by (unfold qof; by rewrite Hcur).
  destruct (insertd_spec (proctab s) (queuetab s) Q SLP l (currpid s) delay) as
    (t' & Hins & Hs' & Hk & Hk'); [apply Hc|done| |by eapply core_none_detached|].
  { eapply isbadpid_live; [exact (c_currpid _ _ _ Hc)|done|congruence]. }
  exists t'. split_and!; [done| | |].
  - eapply (core_block Q s p _ SLP l); try done.
    + by destruct Hst as [-> | ->].
    + unfold qof. by destruct Hst as [-> | ->].
    + cbn. destruct Hst; congruence.
    + apply (c_prio _ _ _ Hc _ _ Hp).
    + apply (c_stk _ _ _ Hc _ _ Hp).
    + apply q_insertd_perm.
  - by eapply semcnt_slp; [|apply Hc|].
  - intros j Hj. unfold l' in Hj. rewrite q_insertd_perm in Hj. unfold keyof at 1.
    by rewrite Hk' by done.
Qed.

Lemma sleepms_safe delay s : Inv s → currpid s ≠ NULLPROC → safe_call (sleepms delay) s.
Proof.
  intros HI Hn. pose proof HI as [Q HQ]. pose proof HQ as (Hc & Hsc & (p & Hp & Hcur) & Hd).
  unfold safe_call, sleepms. case_bool_decide as Hneg; [by kred|].
  case_bool_decide as Hz; kred.
  { apply wp_obind. eapply wp_mono; [by apply yield_safe|]. intros a s' Hs'. by kred. }
  destruct (core_queue _ _ _ SLP Hc slp_valid) as [l Hl].
  destruct (sleep_enter Q s p l delay PR_SLEEP HQ Hn Hp Hl) as (t' & Hins & Hc' & Hsc' & _);
    [by left|]. rewrite (c_slp _ _ _ Hc). erewrite qop_some by exact Hins. kred.
  rewrite bool_decide_eq_false_2 by done. kred. erewrite setproc_some by done. kred.
  apply wp_obind. set (s2 := set_proctab _ _). change (currpid s) with (currpid s2) at 1.
  eapply (resched_wp _ s2 (set_prstate PR_SLEEP p)); try done.
  - eapply core_proper; [|exact Hc']. by split.
  - apply lookup_insert_eq.
  - intros _ s' HI' Hcp. kred. split; [|done]. by apply (Inv_intr _ s').
Qed.

Lemma sleep_safe delay s : Inv s → currpid s ≠ NULLPROC → safe_call (sleep delay) s.
Proof.
  intros HI Hn. unfold safe_call, sleep. destruct (_ || _); [by kred|]. kred.
  apply wp_obind. eapply wp_mono; [by apply sleepms_safe|]. intros a s' Hs'. by kred.
Qed.
