(* ===== verification/Message.v ===== *)
(** One-word messages: system/send.c, receive.c, recvclr.c, recvtime.c.  A
    process has room for one message in its table entry. *)

From S2P Require Import Prelude Types Queue Delta Heap Kernel KInv Sched Semaphore Clock.

(** ** send.c *)
Definition send (pid msg : Z) : M Z :=
  mask ← disable;
  pt ← gets proctab;
  if isbadpid pt pid then restore mask;; ret SYSERR
  else
    prptr ← getproc pid;
    if prhasmsg prptr then restore mask;; ret SYSERR
    else
      setproc pid (set_prmsg msg);;
      setproc pid (set_prhasmsg true);;
      (if bool_decide (prstate prptr = PR_RECV) then
         _ ← ready pid; ret tt
       else if bool_decide (prstate prptr = PR_RECTIM) then
         _ ← unsleep pid;
         _ ← ready pid; ret tt
       else ret tt);;
      restore mask;;
      ret OK.

(** ** receive.c *)
Definition receive : M Z :=
  mask ← disable;
  cur ← gets currpid;
  prptr ← getproc cur;
  (if negb (prhasmsg prptr) then
     setproc cur (set_prstate PR_RECV);;
     resched
   else ret tt);;
  prptr ← getproc cur;
  let msg := prmsg prptr in
  setproc cur (set_prhasmsg false);;
  restore mask;;
  ret msg.

(** ** recvclr.c *)
Definition recvclr : M Z :=
  mask ← disable;
  cur ← gets currpid;
  prptr ← getproc cur;
  msg ← (if prhasmsg prptr then
           setproc cur (set_prhasmsg false);;
           ret (prmsg prptr)
         else ret OK);
  restore mask;;
  ret msg.

(** ** recvtime.c: a negative wait is an error, as an unsigned result *)
Definition recvtime (maxwait : Z) : M Z :=
  if bool_decide (maxwait < 0) then ret (u32 SYSERR)
  else
    mask ← disable;
    cur ← gets currpid;
    prptr ← getproc cur;
    let finish : M Z :=
      prptr ← getproc cur;
      msg ← (if prhasmsg prptr then
               setproc cur (set_prhasmsg false);;
               ret (prmsg prptr)
             else ret (u32 TIMEOUT));
      restore mask;;
      ret msg in
    if negb (prhasmsg prptr) then
      sq ← gets sleepq;
      pt ← gets proctab;
      r ← qop (insertd pt cur sq maxwait);
      if bool_decide (r = SYSERR) then restore mask;; ret (u32 SYSERR)
      else
        setproc cur (set_prstate PR_RECTIM);;
        resched;;
        finish
    else finish.

(** * Specifications *)

(** An update that changes no scheduling field. *)
Definition same_sched (p p' : procent) : Prop :=
  prstate p' = prstate p ∧ prsem p' = prsem p ∧ prprio p' = prprio p ∧
  prstkbase p' = prstkbase p ∧ prstklen p' = prstklen p.

Lemma core_setproc_sched x Q s pid p p' :
  core x Q s → proctab s !! pid = Some p → same_sched p p' →
  core x Q (set_proctab (<[pid := p']> (proctab s)) s).
Proof.
  intros Hc Hp (Hst & Hsem & Hprio & Hb & Hl). eapply core_setproc_same; [done|done|done|done|..].
  - rewrite Hprio. apply (c_prio _ _ _ Hc _ _ Hp).
  - rewrite Hb, Hl. apply (c_stk _ _ _ Hc _ _ Hp).
Qed.

Lemma InvQ_setproc Q s pid p p' :
  InvQ Q s → proctab s !! pid = Some p → same_sched p p' →
  InvQ Q (set_proctab (<[pid := p']> (proctab s)) s).
Proof.
  intros (Hc & Hsc & (pc & Hpc & Hcur) & Hd) Hp Hs. split_and!; try done.
  - by eapply core_setproc_sched.
  - unfold running. cbn. destruct (decide (currpid s = pid)) as [<-|Hne].
    + exists p'. rewrite lookup_insert_eq. split; [done|]. destruct Hs as (-> & _). congruence.
    + exists pc. by rewrite lookup_insert_ne.
Qed.

(** The entry of the recipient after delivery. *)
Definition delivered (msg : Z) (p : procent) : procent := set_prhasmsg true (set_prmsg msg p).

Lemma same_sched_delivered msg p : same_sched p (delivered msg p).
Proof. done. Qed.

Lemma same_sched_hasmsg b p : same_sched p (set_prhasmsg b p).
Proof. done. Qed.

#[export] Hint Resolve same_sched_delivered same_sched_hasmsg : xinu.

Lemma send_error pid msg s :
  isbadpid (proctab s) pid = true ∨ (∃ p, proctab s !! pid = Some p ∧ prhasmsg p = true) →
  send pid msg s = Done SYSERR s.
Proof.
  intros H. unfold send. kred. destruct (isbadpid (proctab s) pid) eqn:Hb; kred; [by destruct s|].
  destruct H as [|(p & Hp & Hm)]; [done|]. erewrite getproc_some by done. kred. rewrite Hm. kred.
  by destruct s.
Qed.

(** Delivery to a live process without a message: the table entry gets the
    message; a process that waits for one is made ready. *)
Lemma send_run pid msg s p :
  isbadpid (proctab s) pid = false → proctab s !! pid = Some p → prhasmsg p = false →
  let s1 := set_proctab (<[pid := delivered msg p]> (proctab s)) (set_intr false s) in
  send pid msg s =
    obind (if bool_decide (prstate p = PR_RECV) then obind (ready pid s1) (λ _ s', Done tt s')
           else if bool_decide (prstate p = PR_RECTIM) then
             obind (unsleep pid s1) (λ _ s', obind (ready pid s') (λ _ s', Done tt s'))
           else Done tt s1)
      (λ _ s', Done OK (set_intr (intr s) s')).
Proof.
  intros Hb Hp Hm s1. unfold send. kred. rewrite Hb. kred. erewrite getproc_some by done. kred.
  rewrite Hm. kred. erewrite setproc_some by done. kred.
  erewrite setproc_some by (cbn; apply lookup_insert_eq). kred. rewrite insert_insert_eq.
  fold (delivered msg p). by repeat case_bool_decide.
Qed.

(** What send leaves alone, when it returns without a context switch: memory, the
    buffer pools, the semaphores and the devices. *)
Record same_rest (s s' : kst) : Prop := Same_rest {
  sr_hp : hp s' = hp s;
  sr_bufs : bufs s' = bufs s;
  sr_semtab : semtab s' = semtab s;
  sr_dev : dev s' = dev s }.
Definition keeps_rest {A} (s : kst) (o : outcome A) : Prop :=
  match o with Done _ s' => same_rest s s' | Switch _ _ => True | Halt _ => False | Fault => True end.

#[export] Instance same_rest_preorder : PreOrder same_rest.
Proof. split; [by split|]. intros s1 s2 s3 [????] [????]. split; congruence. Qed.

Lemma keeps_bind {A B} s (o : outcome A) (f : A → kst → outcome B) :
  keeps_rest s o → (∀ a s', same_rest s s' → keeps_rest s' (f a s')) → keeps_rest s (obind o f).
Proof.
  intros Ho Hf. destruct o as [a s'|s' k|s'|]; try done. cbn in Ho |- *. specialize (Hf a s' Ho).
  destruct (f a s'); try done. cbn in *. by etransitivity.
Qed.

Lemma keeps_qop {A} (f : gmap Z qentry → option (A * gmap Z qentry)) s : keeps_rest s (qop f s).
Proof. unfold qop. by destruct (f (queuetab s)) as [[??]|]. Qed.
Lemma keeps_qread {A} (f : gmap Z qentry → option A) s : keeps_rest s (qread f s).
Proof. unfold qread. by destruct (f (queuetab s)). Qed.
Lemma keeps_getproc i s : keeps_rest s (getproc i s).
Proof. unfold getproc. by destruct (proctab s !! i). Qed.
Lemma keeps_setproc i f s : keeps_rest s (setproc i f s).
Proof. unfold setproc. by destruct (proctab s !! i). Qed.
Lemma keeps_ctxsw old new s : keeps_rest s (ctxsw old new s).
Proof. unfold ctxsw. by case_bool_decide. Qed.

#[local] Ltac keep :=
  repeat first
    [ progress intros
    | apply keeps_qop | apply keeps_qread | apply keeps_getproc | apply keeps_setproc | apply keeps_ctxsw
    | rewrite M_bind_eq; apply keeps_bind
    | case_bool_decide | case_match | done ].

Lemma keeps_resched s : keeps_rest s (resched s).
Proof. unfold resched, dispatch. keep. Qed.
Lemma keeps_ready pid s : keeps_rest s (ready pid s).
Proof. unfold ready. keep. apply keeps_resched. Qed.
Lemma keeps_unsleep pid s : keeps_rest s (unsleep pid s).
Proof. unfold unsleep. keep. Qed.
Lemma keeps_send pid msg s : keeps_rest s (send pid msg s).
Proof. unfold send. keep; apply keeps_ready || apply keeps_unsleep. Qed.

Lemma send_safe pid msg s : Inv s → safe_call (send pid msg) s.
Proof.
  intros HI. pose proof HI as [Q HQ]. unfold safe_call.
  destruct (isbadpid (proctab s) pid) eqn:Hb; [rewrite send_error by auto; done|].
  apply isbadpid_false in Hb as Hb'. destruct Hb' as (Hpid & p & Hp & Hfree).
  destruct (prhasmsg p) eqn:Hm; [rewrite send_error by eauto; done|].
  rewrite (send_run pid msg s p Hb Hp Hm). apply wp_obind.
  set (s1 := set_proctab _ _).
  assert (InvQ Q s1) as HQ1.
  { apply (InvQ_setproc Q (set_intr false s) pid p); [by apply InvQ_intr|done|auto with xinu]. }
  pose proof HQ1 as (Hc & Hsc & Hrun & Hd).
  assert (proctab s1 !! pid = Some (delivered msg p)) as Hp1 by (cbn; apply lookup_insert_eq).
  assert (prstate p ≠ PR_CURR → pid ≠ currpid s) as Hne.
  { intros Hst ->. destruct Hrun as (pc & Hpc & ?). cbn in Hpc. rewrite lookup_insert_eq in Hpc.
    injection Hpc as <-. done. }
  change (currpid s) with (currpid s1) in Hne |- *.
  case_bool_decide as Hst; [|case_bool_decide as Hst'].
  - apply wp_obind. eapply (ready_wp Q s1 pid); try done.
    + eapply core_detach; [done..|]. unfold qof. cbn. by rewrite Hst.
    + apply Hne. congruence.
    + intros s' Hs'. cbn. by eapply back_intr.
  - destruct (core_unsleep Q s1 pid _ Hc Hp1) as (l1 & l2 & t' & Hl & -> & Hc2 & _); [by right|].
    cbn. apply wp_obind. set (s2 := set_queuetab t' s1) in *. change (currpid s) with (currpid s2).
    eapply (ready_wp _ s2 pid); try done.
    + by eapply semcnt_slp; [|apply Hc|].
    + apply Hne. congruence.
    + intros s' Hs'. cbn. by eapply back_intr.
  - cbn. split; [|done]. apply Inv_intr. by exists Q.
Qed.

(** The end of receive and recvtime, run by [p]. *)
Lemma Inv_hasmsg b s p :
  Inv s → proctab s !! currpid s = Some p →
  Inv (set_proctab (<[currpid s := set_prhasmsg b p]> (proctab s)) s).
Proof. intros [Q HQ] Hp. exists Q. by eapply InvQ_setproc; [..|apply same_sched_hasmsg]. Qed.

Lemma Inv_running s : Inv s → ∃ p, proctab s !! currpid s = Some p.
Proof. intros [Q HQ]. destruct (running_proc _ _ HQ) as (p & ? & _). eauto. Qed.

Lemma receive_safe s : Inv s → currpid s ≠ NULLPROC → safe_call receive s.
Proof.
  intros HI Hn. pose proof HI as [Q (Hc & Hsc & (p & Hp & Hcur) & Hd)].
  unfold safe_call, receive. kred. erewrite getproc_some by done. kred.
  destruct (prhasmsg p); cbn [negb]; kred.
  - erewrite getproc_some by done. kred. erewrite setproc_some by done. kred.
    split; [|done]. apply (Inv_intr (intr s) (set_proctab _ s)). by apply Inv_hasmsg.
  - erewrite setproc_some by done. kred. apply wp_obind. set (s2 := set_proctab _ _).
    change (currpid s) with (currpid s2) at 1.
    eapply (resched_wp Q s2 (set_prstate PR_RECV p)); try done.
    + eapply core_proper; [|eapply (core_park Q s p (set_prstate PR_RECV p))]; try done.
      * apply (c_prio _ _ _ Hc _ _ Hp).
      * apply (c_stk _ _ _ Hc _ _ Hp).
    + apply lookup_insert_eq.
    + intros _ s' HI' Hcp. cbn in Hcp. kred. destruct (Inv_running _ HI') as [p' Hp'].
      rewrite Hcp in Hp'. erewrite getproc_some by exact Hp'. kred.
      erewrite setproc_some by exact Hp'. kred. split; [|done].
      apply (Inv_intr (intr s) (set_proctab _ s')). rewrite <- Hcp in *. by apply Inv_hasmsg.
Qed.

Lemma recvclr_safe s : Inv s → safe_call recvclr s.
Proof.
  intros HI. destruct (Inv_running _ HI) as [p Hp]. unfold safe_call, recvclr. kred.
  erewrite getproc_some by done. kred. destruct (prhasmsg p); kred; [|by apply (inv_back s)].
  erewrite setproc_some by done. kred. split; [|done].
  apply (Inv_intr (intr s) (set_proctab _ s)). by apply Inv_hasmsg.
Qed.

Lemma recvtime_safe maxwait s : Inv s → currpid s ≠ NULLPROC → safe_call (recvtime maxwait) s.
Proof.
  intros HI Hn. pose proof HI as [Q HQ]. pose proof HQ as (Hc & Hsc & (p & Hp & Hcur) & Hd).
  unfold safe_call, recvtime. case_bool_decide as Hneg; [by kred|]. kred.
  erewrite getproc_some by done. kred. destruct (prhasmsg p) eqn:Hm; cbn [negb]; kred.
  - erewrite getproc_some by done. kred. rewrite Hm. kred. erewrite setproc_some by done. kred.
    split; [|done]. apply (Inv_intr (intr s) (set_proctab _ s)). by apply Inv_hasmsg.
  - destruct (core_queue _ _ _ SLP Hc slp_valid) as [l Hl].
    destruct (sleep_enter Q s p l maxwait PR_RECTIM HQ Hn Hp Hl) as (t' & Hins & Hc' & Hsc' & _);
      [by right|]. rewrite (c_slp _ _ _ Hc). erewrite qop_some by exact Hins. kred.
    rewrite bool_decide_eq_false_2 by done. kred. erewrite setproc_some by done. kred.
    apply wp_obind. set (s2 := set_proctab _ _). change (currpid s) with (currpid s2) at 1.
    eapply (resched_wp _ s2 (set_prstate PR_RECTIM p)); try done.
    + eapply core_proper; [|exact Hc']. by split.
    + apply lookup_insert_eq.
    + intros _ s' HI' Hcp. cbn in Hcp. kred. destruct (Inv_running _ HI') as [p' Hp'].
      rewrite Hcp in Hp'. erewrite getproc_some by exact Hp'. kred. destruct (prhasmsg p'); kred.
      * erewrite setproc_some by exact Hp'. kred. split; [|done].
        apply (Inv_intr (intr s) (set_proctab _ s')). rewrite <- Hcp in *. by apply Inv_hasmsg.
      * split; [|done]. by apply (Inv_intr (intr s) s').
Qed.
