(* ===== verification/Device.v ===== *)
(** Device-independent I/O: the device switch table and the system calls that
    go through it (system/open.c, close.c, read.c, write.c, seek.c, getc.c,
    putc.c, control.c, init.c, ionull.c, ioerr.c).  The drivers are the entries
    of the table; the class [Platform] supplies them. *)

From S2P Require Import Prelude Types Queue Heap Kernel KInv.

(** An entry of [devtab]: the driver's functions, applied to their entry. *)
Record dentry := Dentry {
  dvname : list Z;
  dvinit : M Z;
  dvopen : Z → Z → M Z;
  dvclose : M Z;
  dvread : Z → Z → M Z;
  dvwrite : Z → Z → M Z;
  dvseek : Z → M Z;
  dvgetc : M Z;
  dvputc : Z → M Z;
  dvcntl : Z → Z → Z → M Z }.

(** What the kernel gets from the configuration and the linker: the device
    switch table and the address of userret. *)
Class Platform := {
  devtab : Z → dentry;
  INITRET : Z }.

Definition ionull : M Z := ret OK.
Definition ioerr : M Z := ret SYSERR.

Definition isbaddev (f : Z) : bool := bool_decide (f < 0) || bool_decide (NDEVS ≤ f).

Section device.
Context `{Platform}.

(** The body the calls share: mask interrupts, check the descriptor, call the
    function of the device's entry. *)
Definition devcall (descrp : Z) (f : dentry → M Z) : M Z :=
  mask ← disable;
  if isbaddev descrp then restore mask;; ret SYSERR
  else
    let devptr := devtab descrp in
    retval ← f devptr;
    restore mask;;
    ret retval.

Definition open (descrp name mode : Z) : M Z := devcall descrp (λ d, dvopen d name mode).
Definition close (descrp : Z) : M Z := devcall descrp dvclose.
Definition read (descrp buffer count : Z) : M Z := devcall descrp (λ d, dvread d buffer count).
Definition write (descrp buffer count : Z) : M Z := devcall descrp (λ d, dvwrite d buffer count).
Definition seek (descrp pos : Z) : M Z := devcall descrp (λ d, dvseek d pos).
Definition getc (descrp : Z) : M Z := devcall descrp dvgetc.
Definition putc (descrp ch : Z) : M Z := devcall descrp (λ d, dvputc d ch).
Definition control (descrp func arg1 arg2 : Z) : M Z :=
  devcall descrp (λ d, dvcntl d func arg1 arg2).
Definition init (descrp : Z) : M Z := devcall descrp dvinit.

(** ** Specifications *)

(** A driver function that keeps the kernel's contract, when called by a
    process that may block. *)
Definition driver_ok (m : M Z) : Prop :=
  ∀ s, Inv s → currpid s ≠ NULLPROC → safe_call m s.

Lemma isbaddev_false f : isbaddev f = false ↔ 0 ≤ f < NDEVS.
Proof. unfold isbaddev. rewrite orb_false_iff, !bool_decide_eq_false. lia. Qed.

Lemma devcall_bad descrp f s : ¬ 0 ≤ descrp < NDEVS → devcall descrp f s = Done SYSERR s.
Proof.
  intros Hb. unfold devcall. kred. destruct (isbaddev descrp) eqn:E; [by destruct s|].
  by apply isbaddev_false in E.
Qed.

Lemma devcall_safe descrp f s :
  Inv s → currpid s ≠ NULLPROC → driver_ok (f (devtab descrp)) → safe_call (devcall descrp f) s.
Proof.
  intros HI Hn Hf. unfold safe_call, devcall. kred.
  destruct (isbaddev descrp) eqn:E; kred; [split; [by apply (Inv_intr _ s)|done]|].
  apply wp_obind. eapply wp_mono; [by apply (Hf (set_intr false s)); [apply Inv_intr|]|].
  intros a s' Hs'. kred. exact (back_intr _ _ (intr s) _ Hs').
Qed.

End device.

(** The drivers of the unused table entries. *)
Lemma ionull_ok : driver_ok ionull.
Proof. intros s HI _. by split. Qed.

Lemma ioerr_ok : driver_ok ioerr.
Proof. intros s HI _. by split. Qed.
