(* ===== verification/Process.v ===== *)
(** Processes: system/create.c (with newpid), kill.c, exit.c, userret.c. *)

From S2P Require Import Prelude Types Queue Delta Heap Kernel KInv Sched Semaphore Clock Message Device.

Section process.
Context `{Platform}.

(** ** newpid: the static [nextpid] is part of the state. *)
Fixpoint newpid_loop (n : nat) : M Z :=
  match n with
  | O => ret SYSERR
  | S n =>
    modify (λ s, set_nextpid (nextpid s `rem` NPROC) s);;
    pid ← gets nextpid;
    p ← getproc pid;
    modify (set_nextpid (pid + 1));;
    if bool_decide (prstate p = PR_FREE) then ret pid else newpid_loop n
  end.

Definition newpid : M Z := newpid_loop (Z.to_nat NPROC).

(** ** create.c *)

Definition roundew (x : Z) : Z := Z.land (u32 (x + 3)) (Z.lnot 3).

(** [for (i=0; i<PNMLEN-1 && (prname[i]=name[i])!=NULLCH; i++)]; [name] is the
    list of the characters before the terminating null. *)
Fixpoint copy_name_loop (n : nat) (i : nat) (name prname : list Z) : list Z :=
  match n with
  | O => prname
  | S n =>
    let c := default 0 (name !! i) in
    let prname := <[i := c]> prname in
    if bool_decide (c = 0) then prname else copy_name_loop n (S i) name prname
  end.

Definition copy_name (name prname : list Z) : list Z :=
  let last := Z.to_nat (PNMLEN - 1) in
  copy_name_loop last 0 name (<[last := 0]> prname).

(** [*--saddr = v] *)
Definition push (v saddr : Z) : M Z :=
  let saddr := u32 (saddr - 4) in
  hwrite (st saddr v);;
  ret saddr.

Fixpoint push_all (vs : list Z) (saddr : Z) : M Z :=
  match vs with
  | [] => ret saddr
  | v :: vs => saddr ← push v saddr; push_all vs saddr
  end.

(** The argument slots for r0-r3: the first four arguments, or zeros. *)
Definition reg_args (args : list Z) : list Z :=
  (λ i, default 0 (args !! i)) <$> seq 0 4.

(** [prdesc[0] = prdesc[1] = prdesc[2] = CONSOLE] *)
Definition init_desc (d : vec Z 5) : vec Z 5 :=
  vinsert 2%fin CONSOLE (vinsert 1%fin CONSOLE (vinsert 0%fin CONSOLE d)).

(** [nargs] is the length of [args]; arguments from the fifth on go to the
    stack, last one first. *)
Definition create (procaddr ssize priority : Z) (name args : list Z) : M Z :=
  mask ← disable;
  let ssize := if bool_decide (ssize < MINSTK) then MINSTK else ssize in
  let ssize := roundew ssize in
  saddr ← hop (getstk ssize);
  if bool_decide (saddr = SYSERR_PTR) then restore mask;; ret SYSERR
  else
    pid ← newpid;
    if bool_decide (pid = SYSERR) || bool_decide (priority < 1) then restore mask;; ret SYSERR
    else
      modify (λ s, set_prcount (s32 (prcount s + 1)) s);;
      parent ← gets currpid;
      setproc pid (λ p, Procent PR_SUSP priority (prstkptr p) saddr ssize
        (copy_name name (prname p)) (-1) parent (prmsg p) false
        (init_desc (prdesc p)));;
      hwrite (st saddr STACKMAGIC);;
      saddr ← push_all (rev (drop 4 args)) saddr;
      saddr ← push procaddr saddr;
      saddr ← push_all (replicate 8 0) saddr;
      saddr ← push_all (rev (reg_args args)) saddr;
      saddr ← push INITRET saddr;
      saddr ← push 83 saddr;
      setproc pid (set_prstkptr saddr);;
      restore mask;;
      ret pid.

(** ** kill.c *)

(** The switch on the state of the process, with its fall-throughs. *)
Definition kill_sleeper (pid : Z) : M unit :=
  _ ← unsleep pid;
  setproc pid (set_prstate PR_FREE).

Definition kill_state (pid : Z) : M unit :=
  prptr ← getproc pid;
  match prstate prptr with
  | PR_CURR =>
      setproc pid (set_prstate PR_FREE);;
      resched;;
      kill_sleeper pid
  | PR_SLEEP | PR_RECTIM => kill_sleeper pid
  | PR_WAIT =>
      setsem (prsem prptr) (λ e, set_scount (s32 (scount e + 1)) e);;
      _ ← qop (getitem pid);
      setproc pid (set_prstate PR_FREE)
  | PR_READY =>
      _ ← qop (getitem pid);
      setproc pid (set_prstate PR_FREE)
  | PR_FREE | PR_RECV | PR_SUSP => setproc pid (set_prstate PR_FREE)
  end.

(** [close(prptr->prdesc[i])] for the descriptors [ds] *)
Fixpoint close_descs (ds : list (fin 5)) (pid : Z) : M unit :=
  match ds with
  | [] => ret tt
  | i :: ds =>
    prptr ← getproc pid;
    _ ← close (prdesc prptr !!! i);
    close_descs ds pid
  end.

Definition kill (pid : Z) : M Z :=
  mask ← disable;
  pt ← gets proctab;
  if isbadpid pt pid || bool_decide (pid = NULLPROC) then restore mask;; ret SYSERR
  else
    modify (λ s, set_prcount (s32 (prcount s - 1)) s);;
    n ← gets prcount;
    (if bool_decide (n ≤ 1) then xdone else ret tt);;
    prptr ← getproc pid;
    _ ← send (prparent prptr) (u32 pid);
    close_descs [0; 1; 2]%fin pid;;
    prptr ← getproc pid;
    _ ← hop (freestk (prstkbase prptr) (prstklen prptr));
    kill_state pid;;
    restore mask;;
    ret OK.

(** ** exit.c, userret.c *)
Definition exit : M unit := pid ← getpid; _ ← kill pid; ret tt.
Definition userret : M unit := pid ← getpid; _ ← kill pid; ret tt.

(** * Specifications *)

(** ** newpid *)

(** The search looks at the [n] slots from [nextpid] on, cyclically. *)
Lemma newpid_loop_spec n : ∀ s,
  is_table NPROC (proctab s) → 0 ≤ nextpid s ≤ NPROC →
  ∃ r np, 0 ≤ np ≤ NPROC ∧ newpid_loop n s = Done r (set_nextpid np s) ∧
   ((r = SYSERR ∧ ∀ j p, 0 ≤ j < Z.of_nat n →
      proctab s !! ((nextpid s + j) mod NPROC) = Some p → prstate p ≠ PR_FREE) ∨
    (∃ p, proctab s !! r = Some p ∧ prstate p = PR_FREE)).
Proof.
  induction n as [|n IH]; intros s Ht Hnp; cbn [newpid_loop].
  - exists SYSERR, (nextpid s). split; [done|]. split; [by destruct s|]. left. split; [done|]. lia.
  - kred. rewrite Z.rem_mod_nonneg by clia.
    assert (0 ≤ nextpid s mod NPROC < NPROC) as Hb by (by apply Z.mod_pos_bound).
    set (i := nextpid s mod NPROC) in *.
    destruct (is_table_get _ _ _ Ht Hb) as [p Hp]. erewrite getproc_some by done. kred.
    case_bool_decide as Hst.
    + exists i, (i + 1). split; [lia|]. split; [done|]. right. by exists p.
    + destruct (IH (set_nextpid (i + 1) s) Ht) as (r & np & Hnp' & Heq & Hr); [cbn; lia|].
      exists r, np. split; [done|]. split; [exact Heq|]. destruct Hr as [[-> Hall]|Hr]; [left|by right].
      split; [done|]. intros j q Hj Hq. destruct (decide (j = 0)) as [->|].
      { rewrite Z.add_0_r in Hq. fold i in Hq. congruence. }
      apply (Hall (j - 1) q); [lia|]. cbn.
      replace (i + 1 + (j - 1)) with (i + j) by lia. unfold i. by rewrite Zplus_mod_idemp_l.
Qed.

Lemma newpid_spec s :
  is_table NPROC (proctab s) → 0 ≤ nextpid s ≤ NPROC →
  ∃ r np, 0 ≤ np ≤ NPROC ∧ newpid s = Done r (set_nextpid np s) ∧
   ((r = SYSERR ∧ ∀ i p, proctab s !! i = Some p → prstate p ≠ PR_FREE) ∨
    (∃ p, proctab s !! r = Some p ∧ prstate p = PR_FREE)).
Proof.
  intros Ht Hnp. destruct (newpid_loop_spec (Z.to_nat NPROC) s Ht Hnp)
    as (r & np & Hnp' & Heq & Hr). exists r, np. split; [done|]. split; [done|].
  destruct Hr as [[-> Hall]|Hr]; [left|by right]. split; [done|]. intros i p Hp.
  pose proof (is_table_bound _ _ _ _ Ht Hp) as Hi.
  apply (Hall ((i - nextpid s) mod NPROC) p).
  - rewrite Z2Nat.id by done. by apply Z.mod_pos_bound.
  - rewrite Zplus_mod_idemp_r. replace (nextpid s + (i - nextpid s)) with i by lia.
    by rewrite Z.mod_small.
Qed.

(** ** The initial stack *)

(** Memory after the words [vs] are pushed below address [a]. *)
Fixpoint stack_mem (vs : list Z) (a : Z) (m : gmap Z Z) : gmap Z Z :=
  match vs with
  | [] => m
  | v :: vs => stack_mem vs (a - 4) (<[a - 4 := v]> m)
  end.

(** The words that create pushes, in order. *)
Definition create_words (procaddr : Z) (args : list Z) : list Z :=
  rev (drop 4 args) ++ [procaddr] ++ replicate 8 0 ++ rev (reg_args args) ++ [INITRET; 83].

Lemma setproc_cases i f s : (∃ s', setproc i f s = Done tt s') ∨ setproc i f s = Fault.
Proof. unfold setproc. destruct (proctab s !! i); [left; eauto|by right]. Qed.

Lemma hwrite_cases f s : (∃ s', hwrite f s = Done tt s') ∨ hwrite f s = Fault.
Proof. unfold hwrite. destruct (f (hp s)); [left; eauto|by right]. Qed.

Lemma push_cases v a s : (∃ a' s', push v a s = Done a' s') ∨ push v a s = Fault.
Proof. unfold push. kred. unfold hwrite. destruct (st _ _ _); [left; eauto|by right]. Qed.

Lemma push_all_cons {A} v l a s (k : Z → M A) :
  obind (push_all (v :: l) a s) k = obind (push v a s) (λ a s, obind (push_all l a s) k).
Proof. cbn [push_all]. kred. by destruct (push_cases v a s) as [(a' & s' & ->)| ->]. Qed.

Lemma push_all_app {A} l1 l2 a s (k : Z → M A) :
  obind (push_all (l1 ++ l2) a s) k = obind (push_all l1 a s) (λ a s, obind (push_all l2 a s) k).
Proof.
  revert a s. induction l1 as [|v l1 IH]; intros a s; [done|].
  cbn [app]. rewrite !push_all_cons. destruct (push_cases v a s) as [(a' & s' & ->)| ->]; cbn; [|done].
  apply IH.
Qed.

Lemma push_all_cases l a s : (∃ a' s', push_all l a s = Done a' s') ∨ push_all l a s = Fault.
Proof.
  revert a s. induction l as [|v l IH]; intros a s; cbn [push_all]; [left; eauto|].
  kred. destruct (push_cases v a s) as [(a' & s' & ->)| ->]; [apply IH|by right].
Qed.

(** The pushes of create are one sequence of pushes. *)
Lemma create_pushes {A} procaddr args a s (k : Z → M A) :
  (saddr ← push_all (rev (drop 4 args)) a;
   saddr ← push procaddr saddr;
   saddr ← push_all (replicate 8 0) saddr;
   saddr ← push_all (rev (reg_args args)) saddr;
   saddr ← push INITRET saddr;
   saddr ← push 83 saddr;
   k saddr) s = (saddr ← push_all (create_words procaddr args) a; k saddr) s.
Proof.
  unfold create_words. rewrite !M_bind_eq, push_all_app.
  destruct (push_all_cases (rev (drop 4 args)) a s) as [(a1 & s1 & ->)| ->]; [|done].
  cbn [obind app]. rewrite M_bind_eq, push_all_cons.
  destruct (push_cases procaddr a1 s1) as [(a2 & s2 & ->)| ->]; [|done].
  cbn [obind]. rewrite M_bind_eq. remember (replicate 8 0) as zeros. rewrite push_all_app.
  destruct (push_all_cases zeros a2 s2) as [(a3 & s3 & ->)| ->]; [|done].
  cbn [obind]. rewrite M_bind_eq, push_all_app.
  destruct (push_all_cases (rev (reg_args args)) a3 s3) as [(a4 & s4 & ->)| ->]; [|done].
  cbn [obind]. rewrite M_bind_eq, push_all_cons.
  destruct (push_cases INITRET a4 s4) as [(a5 & s5 & ->)| ->]; [|done].
  cbn [obind]. rewrite M_bind_eq, push_all_cons.
  by destruct (push_cases 83 a5 s5) as [(a6 & s6 & ->)| ->].
Qed.

Lemma push_done v a s h' : st (u32 (a - 4)) v (hp s) = Some h' → push v a s = Done (u32 (a - 4)) (set_hp h' s).
Proof. intros E. unfold push. kred. unfold hwrite. rewrite E. by kred. Qed.

(** Pushing words into memory that is not free. *)
Lemma push_all_spec vs : ∀ a s l lo,
  heap_ok (hp s) l → minheap (hp s) ≤ lo → a ≤ maxheap (hp s) → a mod 4 = 0 →
  (∀ y, lo ≤ y < a → ¬ free_at l y) → lo + 4 * Z.of_nat (length vs) ≤ a →
  ∃ h', push_all vs a s = Done (a - 4 * Z.of_nat (length vs)) (set_hp h' s) ∧
    heap_ok h' l ∧ minheap h' = minheap (hp s) ∧ maxheap h' = maxheap (hp s) ∧
    mem h' = stack_mem vs a (mem (hp s)).
Proof.
  induction vs as [|v vs IH]; intros a s l lo Hok Hlo Ha Ha4 Hf Hlen; cbn [push_all stack_mem].
  - exists (hp s). rewrite Z.sub_0_r. split_and!; try done. by destruct s.
  - cbn [length] in *. pose proof (hk_min _ _ Hok). pose proof (hk_max _ _ Hok).
    destruct (st_heap_ok (hp s) l (a - 4) v) as (h1 & Hst & Hok1 & Hmin & Hmax & Hm); try done.
    { apply Hf. lia. }
    { lia. }
    { Z.to_euclidean_division_equations; lia. }
    kred. erewrite push_done by (rewrite u32_id by lia; exact Hst). kred. rewrite u32_id by lia.
    destruct (IH (a - 4) (set_hp h1 s) l lo) as (h2 & Heq & ? & Hmin2 & Hmax2 & Hm2); try done; cbn in *;
      try lia.
    { Z.to_euclidean_division_equations; lia. }
    { intros y Hy. apply Hf. lia. }
    exists h2. split; [|split_and!; try congruence].
    rewrite Heq. f_equal. lia.
Qed.

(** ** create *)

(** The stack size create asks for. *)
Definition stack_size (ssize : Z) : Z :=
  roundew (if bool_decide (ssize < MINSTK) then MINSTK else ssize).

Lemma roundew_spec x : 0 ≤ x ≤ 4294967288 → roundew x = 4 * ((x + 3) / 4).
Proof.
  intros Hx. unfold roundew. rewrite u32_id by lia. rewrite <- Z.ldiff_land.
  change 3 with (Z.ones 2) at 2. rewrite Z.ldiff_ones_r by lia.
  rewrite Z.shiftl_mul_pow2, Z.shiftr_div_pow2 by lia. change (2 ^ 2) with 4. lia.
Qed.

Lemma stack_size_bounds ssize :
  0 ≤ ssize ≤ 2147483648 → 400 ≤ stack_size ssize ≤ 2147483648 ∧ ssize ≤ stack_size ssize.
Proof.
  intros Hs. unfold stack_size. case_bool_decide as Hc; unfold MINSTK in *.
  - change (roundew 400) with 400. lia.
  - rewrite roundew_spec by lia. Z.to_euclidean_division_equations; lia.
Qed.

(** The table entry of a process that has just been created. *)
Definition created (p : procent) (priority base len top parent : Z) (name : list Z) : procent :=
  Procent PR_SUSP priority top base len (copy_name name (prname p)) (-1) parent (prmsg p) false
    (init_desc (prdesc p)).

Lemma InvQ_hp Q s h :
  InvQ Q s → (∃ l, heap_ok h l) → minheap h = minheap (hp s) → maxheap h = maxheap (hp s) →
  InvQ Q (set_hp h s).
Proof. intros (Hc & ? & ? & ?) ? ? ?. split_and!; try done. by apply core_set_hp. Qed.

Lemma InvQ_nextpid Q s n : InvQ Q s → 0 ≤ n ≤ NPROC → InvQ Q (set_nextpid n s).
Proof. intros (Hc & ? & ? & ?) ?. split_and!; try done. by apply core_set_nextpid. Qed.

Lemma InvQ_prcount Q s n : InvQ Q s → InvQ Q (set_prcount n s).
Proof. intros H0. eapply InvQ_csim; [|by destruct H0 as (? & ? & ? & ?)|done]. by split. Qed.

(** A free slot may be filled with a suspended process. *)
Lemma InvQ_fill Q s pid p p' :
  InvQ Q s → proctab s !! pid = Some p → prstate p = PR_FREE → prstate p' = PR_SUSP →
  -32768 ≤ prprio p' < 32768 → stk_ok (hp s) (prstkbase p') (prstklen p') →
  InvQ Q (set_proctab (<[pid := p']> (proctab s)) s).
Proof.
  intros (Hc & Hsc & Hr & Hd) Hp Hf Hst Hprio Hstk.
  pose proof (is_table_bound _ _ _ _ (c_procs _ _ _ Hc) Hp) as Hpid.
  split_and!; try done.
  - eapply (core_drop _ _ pid p'); [|apply lookup_insert_eq|by unfold qof; rewrite Hst|].
    + apply core_setproc_detached; try done; [|congruence].
      eapply core_detach; [done..|]. unfold qof. by rewrite Hf.
    + intros ->. destruct (c_null _ _ _ Hc p ltac:(done) Hp); congruence.
  - apply running_insert; [done|]. intros ->. destruct Hr as (pc & ? & ?). congruence.
Qed.

(** The part of create after the process slot is found. *)
Lemma create_fill {A} Q s l pid p x n procaddr priority len parent name args (k : M A) :
  InvQ Q s → heap_ok (hp s) l → proctab s !! pid = Some p → prstate p = PR_FREE →
  -32768 ≤ priority < 32768 → 0 < len ≤ 2147483648 → n = roundmb len →
  x mod 8 = 0 → minheap (hp s) ≤ x → x + n ≤ maxheap (hp s) →
  (∀ y, x ≤ y < x + n → ¬ free_at l y) →
  let words := create_words procaddr args in
  let top := x + n - 4 in
  4 * Z.of_nat (length words) + 4 ≤ n →
  ∃ h, let s' := set_hp h (set_proctab (<[pid := created p priority top len
          (top - 4 * Z.of_nat (length words)) parent name]> (proctab s)) s) in
    (setproc pid (λ p, Procent PR_SUSP priority (prstkptr p) top len
        (copy_name name (prname p)) (-1) parent (prmsg p) false
        (init_desc (prdesc p)));;
     hwrite (st top STACKMAGIC);;
     saddr ← push_all words top;
     setproc pid (set_prstkptr saddr);;
     k) s = k s' ∧
    InvQ Q s' ∧ heap_ok h l ∧ mem h = stack_mem words top (<[top := STACKMAGIC]> (mem (hp s))).
Proof.
  intros HQ Hok Hp Hf Hprio Hlen -> Hx8 Hlo Hhi Hnf words top Hfit.
  pose proof (hk_min _ _ Hok). pose proof (hk_max _ _ Hok).
  destruct (roundmb_bounds len) as (Hrb & Hrm & _); [lia|].
  assert (top mod 4 = 0) as Ht4 by (unfold top; Z.to_euclidean_division_equations; lia).
  destruct (st_heap_ok (hp s) l top STACKMAGIC) as (h1 & Hst & Hok1 & Hmin & Hmax & Hm);
    [done|apply Hnf; lia|lia|done|].
  set (p1 := Procent PR_SUSP priority (prstkptr p) top len
        (copy_name name (prname p)) (-1) parent (prmsg p) false
        (init_desc (prdesc p))).
  set (s1 := set_proctab (<[pid := p1]> (proctab s)) s).
  destruct (push_all_spec words top (set_hp h1 s1) l x) as (h2 & Heq & Hok2 & Hmin2 & Hmax2 & Hm2);
    try done; try (cbn; lia). { intros y Hy. apply Hnf. lia. }
  cbn in Hmin2, Hmax2, Hm2. exists h2. cbv zeta. split_and!.
  - kred. erewrite setproc_some by done. kred. fold p1 s1. unfold hwrite at 1. kred. change (hp s1) with (hp s). rewrite Hst. kred.
    rewrite Heq. kred. erewrite setproc_some by (cbn; apply lookup_insert_eq). kred.
    unfold s1. kred. by rewrite insert_insert_eq.
  - apply (InvQ_hp Q (set_proctab _ s)); [|by exists l|cbn; congruence..].
    eapply InvQ_fill; [done..|]. right. split; [done|]. cbn. unfold top.
    replace (x + roundmb len - 4 + 4 - roundmb len) with x by lia. split_and!; lia.
  - done.
  - by rewrite Hm2, Hm.
Qed.

(** The three results of create: no stack, no slot (or a bad priority), or a
    suspended process with its stack laid out. *)
Lemma create_spec Q s l procaddr ssize priority name args :
  InvQ Q s → heap_ok (hp s) l → 0 ≤ ssize ≤ 2147483648 → -32768 ≤ priority < 32768 →
  let len := stack_size ssize in
  let words := create_words procaddr args in
  4 * Z.of_nat (length words) + 4 ≤ roundmb len →
  match alloc_last (roundmb len) l with
  | None => create procaddr ssize priority name args s = Done SYSERR (set_intr (intr s) s)
  | Some (x, l') =>
    let top := x + roundmb len - 4 in
    ∃ h1 np, heap_ok h1 l' ∧ hframe l (hp s) h1 ∧ 0 ≤ np ≤ NPROC ∧
      InvQ Q (set_nextpid np (set_hp h1 s)) ∧
      (((priority < 1 ∨ ∀ i p, proctab s !! i = Some p → prstate p ≠ PR_FREE) ∧
        create procaddr ssize priority name args s =
          Done SYSERR (set_intr (intr s) (set_nextpid np (set_hp h1 s)))) ∨
       (1 ≤ priority ∧ ∃ pid p h2, proctab s !! pid = Some p ∧ prstate p = PR_FREE ∧
        let p' := created p priority top len (top - 4 * Z.of_nat (length words)) (currpid s) name in
        let s' := set_hp h2 (set_proctab (<[pid := p']> (proctab s))
          (set_prcount (s32 (prcount s + 1)) (set_nextpid np s))) in
        create procaddr ssize priority name args s = Done pid (set_intr (intr s) s') ∧
        InvQ Q s' ∧ heap_ok h2 l' ∧
        mem h2 = stack_mem words top (<[top := STACKMAGIC]> (mem h1))))
  end.
Proof.
  intros HQ Hok Hss Hprio len words Hfit.
  destruct (stack_size_bounds ssize Hss) as [Hlen _]. fold len in Hlen.
  pose proof (getstk_spec (hp s) l len Hok ltac:(lia)) as Hget.
  destruct (alloc_last (roundmb len) l) as [[x l']|] eqn:Hal.
  2: { unfold create. kred. fold (stack_size ssize). fold len. erewrite hop_some by exact Hget.
       kred. rewrite bool_decide_eq_true_2 by done. kred. by destruct s. }
  destruct Hget as (h1 & Hget & Hok1 & Hfr).
  destruct (roundmb_bounds len) as (Hrb & Hrm & Hr8); [lia|].
  pose proof (alloc_last_taken _ _ _ _ _ _ (hk_wf _ _ Hok) Hr8 Hrm Hal) as Ht.
  pose proof (wfb_free _ _ _ x (hk_wf _ _ Hok) (tk_was_free _ _ _ _ _ _ Ht x ltac:(lia))) as Hx1.
  pose proof (wfb_free _ _ _ (x + roundmb len - 1) (hk_wf _ _ Hok)
    (tk_was_free _ _ _ _ _ _ Ht (x + roundmb len - 1) ltac:(lia))) as Hx2.
  pose proof (hk_min _ _ Hok) as Hmin. pose proof (hk_max _ _ Hok) as Hmax.
  destruct (newpid_spec (set_hp h1 (set_intr false s))) as (r & np & Hnp & Hnew & Hr).
  { destruct HQ as (Hc & _). apply Hc. }
  { destruct HQ as (Hc & _). apply Hc. }
  cbn in Hr. cbv zeta. exists h1, np. destruct Hfr as [Hf1 Hf2 Hf3].
  assert (InvQ Q (set_nextpid np (set_hp h1 s))) as HQ1.
  { apply InvQ_nextpid; [|done]. apply InvQ_hp; [done|by exists l'|done..]. }
  do 4 (split; [done|]).
  assert (create procaddr ssize priority name args s =
    (if bool_decide (r = SYSERR) || bool_decide (priority < 1) then restore (intr s);; ret SYSERR
     else
      modify (λ s, set_prcount (s32 (prcount s + 1)) s);;
      setproc r (λ p, Procent PR_SUSP priority (prstkptr p) (x + roundmb len - 4) len
        (copy_name name (prname p)) (-1) (currpid s) (prmsg p) false (init_desc (prdesc p)));;
      hwrite (st (x + roundmb len - 4) STACKMAGIC);;
      saddr ← push_all words (x + roundmb len - 4);
      setproc r (set_prstkptr saddr);;
      restore (intr s);;
      ret r) (set_nextpid np (set_hp h1 (set_intr false s)))) as Hrun.
  { unfold create. kred. fold (stack_size ssize). fold len. erewrite hop_some by exact Hget. kred.
    rewrite bool_decide_eq_false_2 by (change SYSERR_PTR with 4294967295; lia).
    kred. rewrite Hnew. kred. destruct (_ || _); [done|]. kred.
    match goal with |- context [setproc ?i ?f ?s] =>
      destruct (setproc_cases i f s) as [[s3 ->]| ->]; [|done] end. kred.
    match goal with |- context [hwrite ?f s3] =>
      destruct (hwrite_cases f s3) as [[s4 ->]| ->]; [|done] end. kred.
    apply (create_pushes procaddr args _ s4
      (λ saddr, setproc r (set_prstkptr saddr);; restore (intr s);; ret r)). }
  rewrite Hrun. destruct Hr as [[-> Hfull]|(p & Hp & Hpf)].
  { left. split; [by right|]. rewrite bool_decide_eq_true_2 by done. by kred. }
  pose proof (is_table_bound _ _ _ _ (c_procs _ _ _ (proj1 HQ)) Hp) as Hpid.
  rewrite (bool_decide_eq_false_2 (r = SYSERR)) by clia. cbn [orb].
  destruct (decide (priority < 1)) as [Hlow|Hlow].
  { left. split; [by left|]. rewrite bool_decide_eq_true_2 by done. by kred. }
  right. split; [lia|]. rewrite bool_decide_eq_false_2 by done. kred.
  set (s2 := set_prcount (s32 (prcount s + 1)) (set_nextpid np (set_hp h1 (set_intr false s)))).
  destruct (create_fill Q s2 l' r p x (roundmb len) procaddr priority len (currpid s) name args
    (restore (intr s);; ret r)) as (h2 & Heq & HQ2 & Hok2 & Hm2); try done; cbn; try lia.
  { eapply (InvQ_csim Q (set_nextpid np (set_hp h1 s))); [by split|apply HQ1|done]. }
  { apply (tk_align _ _ _ _ _ _ Ht). }
  { intros y Hy Hfree. by apply (tk_free _ _ _ _ _ _ Ht y) in Hfree as [_ ?]. }
  exists r, p, h2. split; [done|]. split; [done|]. cbv zeta.
  split; [etrans; [exact Heq|]; by kred|]. split; [|done]. apply (InvQ_intr (intr s)) in HQ2.
  eapply InvQ_csim; [|apply HQ2|exact HQ2]. by split.
Qed.

Lemma length_create_words procaddr args :
  Z.of_nat (length (create_words procaddr args)) = 15 + Z.max 0 (Z.of_nat (length args) - 4).
Proof.
  unfold create_words. rewrite !length_app, !length_rev, length_replicate, length_drop.
  unfold reg_args. rewrite length_fmap, length_seq. cbn [length]. lia.
Qed.

(** The words that create pushes fit in the stack unless the process has very
    many arguments. *)
Lemma create_fits procaddr ssize args :
  0 ≤ ssize ≤ 2147483648 → 4 * Z.of_nat (length args) + 48 ≤ stack_size ssize →
  4 * Z.of_nat (length (create_words procaddr args)) + 4 ≤ roundmb (stack_size ssize).
Proof.
  intros Hs Ha. destruct (stack_size_bounds ssize Hs) as [Hb _].
  destruct (roundmb_bounds (stack_size ssize)) as [Hr _]; [lia|].
  rewrite length_create_words. lia.
Qed.

Lemma create_safe procaddr ssize priority name args s :
  Inv s → 0 ≤ ssize ≤ 2147483648 → -32768 ≤ priority < 32768 →
  4 * Z.of_nat (length args) + 48 ≤ stack_size ssize →
  safe_call (create procaddr ssize priority name args) s.
Proof.
  intros HI Hs Hp Ha. pose proof HI as [Q HQ]. destruct (c_heap _ _ _ (proj1 HQ)) as [l Hok].
  pose proof (create_spec Q s l procaddr ssize priority name args HQ Hok Hs Hp
    (create_fits procaddr ssize args Hs Ha)) as Hc. cbv zeta in Hc. unfold safe_call.
  destruct (alloc_last _ l) as [[x l']|]; [|rewrite Hc; by apply (inv_back s)].
  destruct Hc as (h1 & np & _ & _ & _ & HQ1 & [[_ ->]|(_ & pid & p & h2 & _ & _ & -> & HQ2 & _)]);
    cbn; (split; [|done]); apply Inv_intr; by exists Q.
Qed.

(** ** kill *)

Lemma freestk_ok h l base len :
  heap_ok h l → stk_ok h base len →
  ∃ r h' l', freestk base len h = Some (r, h') ∧ heap_ok h' l' ∧
    minheap h' = minheap h ∧ maxheap h' = maxheap h.
Proof.
  intros Hok [[-> ->]|(Hlen & Hlo & Hm & Hhi)].
  { exists SYSERR, h, l. done. }
  pose proof (hk_min _ _ Hok). pose proof (hk_max _ _ Hok).
  destruct (roundmb_bounds len) as (Hr & Hr8 & Hr0); [lia|].
  assert (8 ≤ minheap h) as Hm8.
  { pose proof (hk_min _ _ Hok) as [? ?]. Z.to_euclidean_division_equations; lia. }
  unfold freestk. rewrite (u32_id (base - roundmb len)), u32_id by lia.
  replace (base - roundmb len + 4) with (base + 4 - roundmb len) by lia.
  destruct (freemem_spec h l (base + 4 - roundmb len) (roundmb len) Hok) as [[_ Heq]|Heq];
    try done; try lia.
  - rewrite (roundmb_fix (roundmb len)) by (done || lia). lia.
  - by exists SYSERR, h, l.
  - destruct Heq as (h' & l' & Heq & Hok' & _ & Hmin & Hmax & _). by exists OK, h', l'.
Qed.

(** The end of a process that is not running: out of its queue, and free. *)
Lemma free_detached Q s pid p :
  core (Some pid) Q s → semcnt Q s → running s → ndefers (Defer s) = 0 →
  proctab s !! pid = Some p → prstate p ≠ PR_CURR → pid ≠ NULLPROC → pid ≠ currpid s →
  InvQ Q (set_proctab (<[pid := set_prstate PR_FREE p]> (proctab s)) s).
Proof.
  intros Hc Hsc Hr Hd Hp Hst Hn Hcp.
  pose proof (is_table_bound _ _ _ _ (c_procs _ _ _ Hc) Hp) as Hpid.
  split_and!; try done; [|by apply running_insert].
  eapply (core_drop _ _ pid); [|apply lookup_insert_eq|done|done].
  apply core_setproc_detached; try done; [apply (c_prio _ _ _ Hc _ _ Hp)|].
  apply (c_stk _ _ _ Hc _ _ Hp).
Qed.

(** Taking a process out of the queue it is in is filtering all queues. *)
Lemma filter_out (pid : Z) (l : list Z) : pid ∉ l → filter (λ x, x ≠ pid) l = l.
Proof.
  induction l as [|x l IH]; [done|]. intros [Hx Hl]%not_elem_of_cons.
  rewrite filter_cons_True by done. by rewrite IH.
Qed.

Lemma queues_without t Q q l1 pid l2 :
  qsys t Q → Q !! q = Some (l1 ++ pid :: l2) →
  ∀ q' l, Q !! q' = Some l → <[q := l1 ++ l2]> Q !! q' = Some (filter (λ x, x ≠ pid) l).
Proof.
  intros Hq Hl q' l Hl'. destruct (decide (q' = q)) as [->|Hne].
  - rewrite lookup_insert_eq. rewrite Hl in Hl'. injection Hl' as <-. f_equal.
    pose proof (isq_nodup _ _ _ (qs_queue _ _ Hq _ _ Hl)) as [Hnin _]%NoDup_app_swap_mid.
    rewrite filter_app, filter_cons_False by tauto.
    rewrite !filter_out by set_solver. done.
  - rewrite lookup_insert_ne by done. rewrite filter_out; [done|].
    intros Hin. apply Hne. eapply (qs_disj _ _ Hq); [done|exact Hl|done|]. set_solver.
Qed.

(** What the switch of kill leaves of a process that is not running. *)
Record killed (pid : Z) (p : procent) (Q : gmap Z (list Z)) (s s' : kst) (Q' : gmap Z (list Z)) :
    Prop := Killed {
  kd_inv : InvQ Q' s';
  kd_proc : proctab s' = <[pid := set_prstate PR_FREE p]> (proctab s);
  kd_queues : ∀ q l, Q !! q = Some l → Q' !! q = Some (filter (λ x, x ≠ pid) l);
  kd_sems : semtab s' =
    match prstate p, semtab s !! prsem p with
    | PR_WAIT, Some e => <[prsem p := set_scount (scount e + 1) e]> (semtab s)
    | _, _ => semtab s
    end;
  kd_currpid : currpid s' = currpid s;
  kd_intr : intr s' = intr s }.

Lemma kill_state_spec Q s pid p :
  InvQ Q s → proctab s !! pid = Some p → pid ≠ NULLPROC → pid ≠ currpid s →
  ∃ s' Q', kill_state pid s = Done tt s' ∧ killed pid p Q s s' Q'.
Proof.
  intros HQ Hp Hn Hcp. pose proof HQ as (Hc & Hsc & Hr & Hd).
  assert (prstate p ≠ PR_CURR) as Hcur.
  { intros Hst. apply Hcp. by apply (c_curr _ _ _ Hc _ _ Hp). }
  unfold kill_state. kred. erewrite getproc_some by done. kred.
  assert (qof p = None → prstate p ≠ PR_WAIT →
    ∃ s' Q', setproc pid (set_prstate PR_FREE) s = Done tt s' ∧ killed pid p Q s s' Q') as Hnoq.
  { intros Hq Hw. erewrite setproc_some by done. eexists _, Q. split; [done|]. split; try done.
    - apply free_detached; try done. by eapply core_detach.
    - intros q l Hl. rewrite filter_out; [done|]. by eapply core_none_detached.
    - by destruct (prstate p). }
  destruct (prstate p) eqn:Hst; try (apply Hnoq; [by unfold qof; rewrite Hst|done]).
  - done.
  - (* ready *)
    destruct (take_out Q s pid p RDY Hc Hp) as (l1 & l2 & t' & Hl & Hg & Hc1 & _);
      [by unfold qof; rewrite Hst|].
    kred. erewrite qop_some by exact Hg. kred. erewrite setproc_some by done. cbn.
    eexists _, _. split; [done|]. split; [|done| |by rewrite Hst|done..].
    + apply (free_detached (<[RDY := l1 ++ l2]> Q) (set_queuetab t' s)); try done; [|congruence].
      by eapply semcnt_rdy; [|apply Hc|].
    + eapply queues_without; [apply Hc|done].
  - (* sleeping *)
    unfold kill_sleeper. destruct (core_unsleep Q s pid p Hc Hp) as (l1 & l2 & t' & Hl & Hu & Hc1 & _);
      [by left|]. kred. rewrite Hu. kred. erewrite setproc_some by done. cbn.
    eexists _, _. split; [done|]. split; [|done| |by rewrite Hst|done..].
    + apply (free_detached (<[SLP := l1 ++ l2]> Q) (set_queuetab t' s)); try done; [|congruence].
      by eapply semcnt_slp; [|apply Hc|].
    + eapply queues_without; [apply Hc|done].
  - (* waiting: the semaphore loses a waiter *)
    pose proof (c_prsem _ _ _ Hc _ _ ltac:(done) Hp Hst) as Hsem.
    destruct (core_sem _ _ _ _ Hc Hsem) as [e He].
    destruct (take_out Q s pid p (SEMQ (prsem p)) Hc Hp) as (l1 & l2 & t' & Hl & Hg & Hc1 & _);
      [by unfold qof; rewrite Hst|].
    pose proof (Hsc _ _ _ He Hl) as Hok. unfold sem_ok in Hok.
    destruct (sstate e) eqn:Hu; [by destruct l1|].
    pose proof (scount_bounds _ _ _ _ Hc Hsc He Hu) as Hb. unfold NPROC, INT_MAX in Hb.
    rewrite length_app in Hok. cbn [length] in Hok.
    kred. erewrite setsem_some by done. kred. rewrite s32_id by lia.
    erewrite qop_some by exact Hg. kred. erewrite setproc_some by done. cbn.
    set (s1 := set_semtab (<[prsem p := set_scount (scount e + 1) e]> (semtab s)) (set_queuetab t' s)).
    eexists _, _. split; [done|]. split; [|done| |by rewrite Hst, He|done..].
    + apply (free_detached (<[SEMQ (prsem p) := l1 ++ l2]> Q) s1); try done; [| |congruence].
      * apply (core_setsem _ _ (set_queuetab t' s)); [exact Hc1|done|]. exact (c_squeue _ _ _ Hc _ _ He).
      * eapply semcnt_update; [exact Hsc|apply Hc|done| |].
        -- intros i Hi _. rewrite lookup_insert_ne; [done|]. by intros ?%semq_inj.
        -- intros l3. rewrite lookup_insert_eq. intros [= <-]. unfold sem_ok. cbn.
           rewrite Hu, length_app. unfold INT_MAX in *. lia.
    + eapply queues_without; [apply Hc|done].
  - (* timed receive *)
    unfold kill_sleeper. destruct (core_unsleep Q s pid p Hc Hp) as (l1 & l2 & t' & Hl & Hu & Hc1 & _);
      [by right|]. kred. rewrite Hu. kred. erewrite setproc_some by done. cbn.
    eexists _, _. split; [done|]. split; [|done| |by rewrite Hst|done..].
    + apply (free_detached (<[SLP := l1 ++ l2]> Q) (set_queuetab t' s)); try done; [|congruence].
      by eapply semcnt_slp; [|apply Hc|].
    + eapply queues_without; [apply Hc|done].
Qed.

Lemma kill_state_wp pid s :
  Inv s → 0 ≤ pid < NPROC → pid ≠ NULLPROC →
  wp (currpid s) (kill_state pid s) (λ _ s', back (currpid s) (intr s) s').
Proof.
  intros HI Hpid Hn. pose proof HI as [Q HQ]. pose proof HQ as (Hc & Hsc & Hr & Hd).
  destruct (core_proc _ _ _ _ Hc Hpid) as [p Hp].
  destruct (decide (pid = currpid s)) as [->|Hne].
  - (* suicide: never dispatched again *)
    destruct Hr as (p' & Hp' & Hst). rewrite Hp in Hp'. injection Hp' as <-.
    unfold kill_state. kred. erewrite getproc_some by done. kred. rewrite Hst.
    kred. erewrite setproc_some by done. kred. apply wp_obind. set (s1 := set_proctab _ s).
    change (currpid s) with (currpid s1) at 1.
    eapply (resched_wp Q s1 (set_prstate PR_FREE p)); try done.
    + apply (core_park Q s p); try done; [apply (c_prio _ _ _ Hc _ _ Hp)|apply (c_stk _ _ _ Hc _ _ Hp)].
    + apply lookup_insert_eq.
  - destruct (kill_state_spec Q s pid p HQ Hp Hn Hne) as (s' & Q' & -> & Hk). cbn.
    split; [by exists Q'; apply Hk|]. split; apply Hk.
Qed.

Hypothesis close_ok : ∀ d, driver_ok (dvclose (devtab d)).

Lemma close_safe d s : Inv s → currpid s ≠ NULLPROC → safe_call (close d) s.
Proof. intros. by apply devcall_safe. Qed.

Lemma close_descs_wp ds pid s :
  Inv s → currpid s ≠ NULLPROC → 0 ≤ pid < NPROC →
  wp (currpid s) (close_descs ds pid s) (λ _ s', back (currpid s) (intr s) s').
Proof.
  revert s. induction ds as [|d ds IH]; intros s HI Hn Hpid; cbn [close_descs]; [by kred|]. kred.
  pose proof HI as [Q (Hc & _)]. destruct (core_proc _ _ _ _ Hc Hpid) as [p Hp].
  erewrite getproc_some by done. kred. apply wp_obind.
  eapply wp_mono; [by apply close_safe|]. cbn. intros _ s' (HI' & Hcp & Hi).
  rewrite <- Hcp, <- Hi. apply IH; [done|congruence|done].
Qed.

Lemma kill_safe pid s : Inv s → currpid s ≠ NULLPROC → safe_call (kill pid) s.
Proof.
  intros HI Hn. unfold safe_call, kill. kred.
  destruct (isbadpid (proctab s) pid) eqn:Hb; kred; [by apply (inv_back s)|]. cbn [orb].
  apply isbadpid_false in Hb as (Hpid & p & Hp & Hfree).
  case_bool_decide as Hnull; kred; [by apply (inv_back s)|].
  case_bool_decide; kred; [done|]. erewrite getproc_some by done. kred.
  set (s1 := set_prcount _ _). assert (Inv s1) as HI1.
  { eapply Inv_csim; [|by destruct HI as (? & ? & ? & ? & ?)|exact HI]. by split. }
  change (currpid s) with (currpid s1) in *.
  apply wp_obind. eapply wp_mono; [by apply send_safe|]. cbv beta.
  intros _ s2 (HI2 & Hcp2 & Hi2). change (currpid s1) with (currpid s) in *. rewrite <- Hcp2. kred.
  apply wp_obind. eapply wp_mono; [apply close_descs_wp; [done|rewrite Hcp2; done|done]|]. cbn.
  intros _ s3 (HI3 & Hcp3 & Hi3). kred.
  pose proof HI3 as [Q HQ]. pose proof HQ as (Hc & _). destruct (core_proc _ _ _ _ Hc Hpid) as [p3 Hp3].
  erewrite getproc_some by done. kred. destruct (c_heap _ _ _ Hc) as [l Hok].
  destruct (freestk_ok _ _ _ _ Hok (c_stk _ _ _ Hc _ _ Hp3)) as (r & h' & l' & Hfs & Hok' & Hmin & Hmax).
  erewrite hop_some by exact Hfs. kred. set (s4 := set_hp h' s3).
  assert (Inv s4) as HI4 by (exists Q; apply InvQ_hp; eauto).
  apply wp_obind. rewrite <- Hcp3. change (currpid s3) with (currpid s4).
  eapply wp_mono; [by apply kill_state_wp|]. cbv beta. intros _ s5 Hs5. kred. cbn.
  replace (currpid s) with (currpid s3) by (rewrite Hcp3, Hcp2; done).
  exact (back_intr _ _ (intr s) _ Hs5).
Qed.

End process.
