(* ===== verification/UserMem.v ===== *)
(** A caller's buffer: memory that the kernel writes to on behalf of a process, and
    that is not on the free list. *)

From S2P Require Import Prelude Types Heap ByteMem DevTypes Kernel KInv Process.

Lemma InvQ_dev Q s d : InvQ Q s → InvQ Q (set_dev d s).
Proof. intros HQ. inv_frame HQ. Qed.

Definition user_buf (h : heap) (l : list (Z * Z)) (a n : Z) : Prop :=
  ∀ i, a ≤ i < a + n → ¬ free_at l (i - i mod 4) ∧ minheap h ≤ i - i mod 4 < maxheap h.

Lemma word_aligned i : (i - i mod 4) mod 4 = 0.
Proof. Z.to_euclidean_division_equations; lia. Qed.

Lemma stb_user h l a b n :
  heap_ok h l → user_buf h l a n → 0 < n → 0 ≤ b < 256 →
  ∃ h', stb a b h = Some h' ∧ heap_ok h' l ∧ minheap h' = minheap h ∧ maxheap h' = maxheap h ∧
    ldb a h' = Some b ∧ (∀ i, i ≠ a → ldb i h' = ldb i h).
Proof.
  intros Hok Hbuf Hn Hb. destruct (Hbuf a ltac:(lia)) as [Hf Hr].
  assert (is_Some (ldb a h)) as Hs.
  { unfold ldb, ld. destruct (proj2 (hk_mem _ _ Hok (a - a mod 4))) as [w Hw].
    - split; [done|apply word_aligned].
    - rewrite Hw. by eexists. }
  destruct (stb_some a b h Hs Hb) as (h' & E & Ha & Ho). exists h'.
  assert (∃ w, stb a b h = st (a - a mod 4) w h) as (w & Ew).
  { unfold stb. unfold ldb in Hs. destruct (ld (a - a mod 4) h); [|by destruct Hs]. by eexists. }
  destruct (st_heap_ok h l _ w Hok Hf Hr (word_aligned a)) as (h2 & E2 & ? & ? & ? & _).
  assert (h2 = h') as -> by congruence. by split_and!.
Qed.

Lemma user_tail h l a n : user_buf h l a n → user_buf h l (a + 1) (n - 1).
Proof. intros Hb i Hi. apply Hb. lia. Qed.

Lemma user_ext h h' l a n :
  minheap h' = minheap h → maxheap h' = maxheap h → user_buf h l a n → user_buf h' l a n.
Proof. intros E1 E2 Hb i Hi. rewrite E1, E2. by apply Hb. Qed.

(** Storing a character in the caller's buffer. *)
Lemma put_user Q s l a b n :
  InvQ Q s → heap_ok (hp s) l → user_buf (hp s) l a n → 0 < n → 0 ≤ b < 256 →
  ∃ h', hwrite (stb a b) s = Done tt (set_hp h' s) ∧ InvQ Q (set_hp h' s) ∧ heap_ok h' l ∧
    user_buf h' l a n ∧ ldb a h' = Some b ∧ (∀ i, i ≠ a → ldb i h' = ldb i (hp s)).
Proof.
  intros HQ Hok Hb Hn Hbb. destruct (stb_user _ _ _ _ _ Hok Hb Hn Hbb) as (h' & E & Hok' & E1 & E2 & Ha & Ho).
  exists h'. unfold hwrite. rewrite E. split_and!; try done.
  - apply InvQ_hp; [done|by exists l|done..].
  - by eapply user_ext.
Qed.
