(* ===== verification/World.v ===== *)
(** The running system: processes that make system calls, and interrupts.

    A world is the kernel state together with the suspended kernel computations
    of the processes that are switched away from (what their kernel stacks
    hold).  A step is a system call of the current process, an interrupt, or
    the continuation of a system call of a process that has just been
    dispatched; each runs the kernel's code up to its end or up to the next
    context switch.  A process that is dispatched for the first time starts with
    the status word that create put on its stack, which enables interrupts; the
    null process enables them itself at the end of sysinit (Sysinit.v). *)

From S2P Require Import Prelude Types Queue Delta Heap Kernel KInv Sched Semaphore Clock Message Device Process.

Section world.
Context `{Platform}.

(** ** System calls *)

Inductive sysc :=
  | Resume (pid : Z) | Suspend (pid : Z) | Chprio (pid newprio : Z) | Getprio (pid : Z)
  | Yield
  | Wait (sem : Z) | Signal (sem : Z) | Signaln (sem count : Z)
  | Semcreate (count : Z) | Semdelete (sem : Z) | Semreset (sem count : Z) | Semcount (sem : Z)
  | Sleep (delay : Z) | Sleepms (delay : Z)
  | Send (pid msg : Z) | Receive | Recvclr | Recvtime (maxwait : Z)
  | Create (procaddr ssize priority : Z) (name args : list Z) | Kill (pid : Z).

Definition run (c : sysc) : M Z :=
  match c with
  | Resume pid => resume pid
  | Suspend pid => suspend pid
  | Chprio pid newprio => chprio pid newprio
  | Getprio pid => getprio pid
  | Yield => yield
  | Wait sem => wait sem
  | Signal sem => signal sem
  | Signaln sem count => signaln sem count
  | Semcreate count => semcreate count
  | Semdelete sem => semdelete sem
  | Semreset sem count => semreset sem count
  | Semcount sem => semcount sem
  | Sleep delay => sleep delay
  | Sleepms delay => sleepms delay
  | Send pid msg => send pid msg
  | Receive => receive
  | Recvclr => recvclr
  | Recvtime maxwait => recvtime maxwait
  | Create procaddr ssize priority name args => create procaddr ssize priority name args
  | Kill pid => kill pid
  end.

(** Calls that may block: the null process must not make them. *)
Definition may_block (c : sysc) : bool :=
  match c with
  | Wait _ | Sleep _ | Sleepms _ | Receive | Recvtime _ | Kill _ => true
  | _ => false
  end.

(** The conditions on the arguments: 32-bit counts that do not overflow a
    semaphore, 16-bit priorities, and arguments that fit on the new stack. *)
Definition legal (s : kst) (c : sysc) : Prop :=
  (may_block c = true → currpid s ≠ NULLPROC) ∧
  match c with
  | Chprio _ newprio => -32768 ≤ newprio < 32768
  | Signal sem => ∀ e, semtab s !! sem = Some e → scount e < INT_MAX
  | Signaln sem count => ∀ e, semtab s !! sem = Some e → scount e + count ≤ INT_MAX
  | Semcreate count | Semreset _ count => count ≤ INT_MAX
  | Create _ ssize priority _ args =>
      0 ≤ ssize ≤ 2147483648 ∧ -32768 ≤ priority < 32768 ∧
      4 * Z.of_nat (length args) + 48 ≤ stack_size ssize
  | _ => True
  end.

(** ** Worlds *)

Abbreviation conts := (gmap Z (kst → outcome Z)).

Inductive world := Running (s : kst) (ks : conts) | Halted | Crashed.

(** The computations of processes that are still alive. *)
Definition is_live (s : kst) (pid : Z) : bool := negb (isbadpid (proctab s) pid).

Definition prune (s : kst) (ks : conts) : conts :=
  filter (λ pk, is_live s pk.1 = true) ks.

(** ctxsw.S, the new process's side: its status word comes from its stack, and
    with it the interrupt mask (bit 7).  A process without a suspended call has
    not run before: its stack is the one that create made, with [start_status]. *)
Definition start_status : Z := 83.
Definition restore_status (cpsr : Z) (s : kst) : kst := set_intr (negb (Z.testbit cpsr 7)) s.
Definition dispatched (s : kst) (ks : conts) : kst :=
  match ks !! currpid s with
  | Some _ => s
  | None => restore_status start_status s
  end.

(** The world after process [p] ran the kernel with this outcome. *)
Definition settle (p : Z) (ks : conts) (o : outcome Z) : world :=
  match o with
  | Done _ s => Running s (prune s ks)
  | Switch s k => let ks := prune s (<[p := k]> ks) in Running (dispatched s ks) ks
  | Halt _ => Halted
  | Fault => Crashed
  end.

(** The interrupt handlers that are installed. *)
Context (vec : Z → option (Z → M unit)).

Inductive step : world → world → Prop :=
  | step_call s ks c :
      ks !! currpid s = None → legal s c →
      step (Running s ks) (settle (currpid s) ks (run c s))
  | step_irq s ks n :
      ks !! currpid s = None → intr s = true →
      step (Running s ks)
        (settle (currpid s) ks (obind (irq_except vec n s) (λ _ s', Done OK s')))
  | step_resume s ks k :
      ks !! currpid s = Some k →
      step (Running s ks) (settle (currpid s) (delete (currpid s) ks) (k s)).

Definition reachable (w w' : world) : Prop := rtc step w w'.

(** ** Safety *)

(** A suspended computation may be continued in any state that satisfies the
    invariant and in which its process runs; at its end interrupts are enabled. *)
Definition cont_ok (p : Z) (k : kst → outcome Z) : Prop :=
  ∀ s, Inv s → currpid s = p → wp p (k s) (λ _ s', back p true s').

(** Outside the kernel a process runs with interrupts enabled. *)
Definition world_ok (w : world) : Prop :=
  match w with
  | Running s ks => Inv s ∧ (ks !! currpid s = None → intr s = true) ∧ ∀ p k, ks !! p = Some k → cont_ok p k
  | Halted => True
  | Crashed => False
  end.

Hypothesis close_ok : ∀ d, driver_ok (dvclose (devtab d)).
Hypothesis vec_ok : ∀ i h, vec i = Some h → handler_ok (h i).

Lemma run_safe c s : Inv s → legal s c → safe_call (run c) s.
Proof.
  intros HI [Hb Ha]. destruct c; cbn [run may_block] in *; try specialize (Hb eq_refl).
  - by apply resume_safe.
  - by apply suspend_safe.
  - by apply chprio_safe.
  - by apply getprio_safe.
  - by apply yield_safe.
  - by apply wait_safe.
  - by apply signal_safe.
  - by apply signaln_safe.
  - by apply semcreate_safe.
  - by apply semdelete_safe.
  - by apply semreset_safe.
  - by apply semcount_safe.
  - by apply sleep_safe.
  - by apply sleepms_safe.
  - by apply send_safe.
  - by apply receive_safe.
  - by apply recvclr_safe.
  - by apply recvtime_safe.
  - destruct Ha as (? & ? & ?). by apply create_safe.
  - by apply kill_safe.
Qed.

Lemma prune_lookup s ks p k :
  prune s ks !! p = Some k → ks !! p = Some k ∧ live s p.
Proof.
  unfold prune. rewrite map_lookup_filter_Some. cbn. intros [Hk Hp]. split; [done|].
  unfold is_live in Hp. apply negb_true_iff, isbadpid_false in Hp as [_ Hp]. exact Hp.
Qed.

(** The stack of a new process ends with that status word. *)
Lemma create_status procaddr args :
  last (create_words procaddr args) = Some start_status.
Proof. unfold create_words. by rewrite !app_assoc, last_app. Qed.

Lemma dispatched_inv s ks : Inv s → Inv (dispatched s ks).
Proof. intros HI. unfold dispatched. destruct (ks !! _); [done|by apply Inv_intr]. Qed.

Lemma dispatched_currpid s ks : currpid (dispatched s ks) = currpid s.
Proof. unfold dispatched. by destruct (ks !! _). Qed.

Lemma dispatched_intr s ks : ks !! currpid s = None → intr (dispatched s ks) = true.
Proof. unfold dispatched. by intros ->. Qed.

Lemma settle_ok p ks o :
  wp p o (λ _ s', back p true s') → (∀ q k, ks !! q = Some k → cont_ok q k) →
  world_ok (settle p ks o).
Proof.
  intros Hw Hks. destruct o as [a s|s k|s|]; cbn in *; try done.
  - destruct Hw as (HI & _ & Hi). split_and!; [done..|]. intros q k [Hq _]%prune_lookup. by apply Hks.
  - destruct Hw as (HI & _ & Hk). split; [by apply dispatched_inv|]. split.
    { rewrite dispatched_currpid. apply dispatched_intr. }
    intros q k' [Hq Hl]%prune_lookup.
    rewrite lookup_insert in Hq. case_decide; subst; [|by apply Hks].
    injection Hq as <-. intros s' HI' Hc. by apply Hk.
Qed.

(** A call that returns with the mask of its caller. *)
Lemma safe_enabled {A} (m : M A) s (f : A → Z) :
  intr s = true → safe_call m s → wp (currpid s) (obind (m s) (λ a s', Done (f a) s')) (λ _ s', back (currpid s) true s').
Proof. intros Hi Hm. apply wp_obind. eapply wp_mono; [exact Hm|]. rewrite Hi. done. Qed.

Lemma step_ok w w' : world_ok w → step w w' → world_ok w'.
Proof.
  intros Hw Hst. destruct Hst as [s ks c Hk Hl|s ks n Hk Hi|s ks k Hk]; destruct Hw as (HI & Hen & Hks).
  - apply settle_ok; [|done]. eapply wp_mono; [by apply run_safe|]. by rewrite (Hen Hk).
  - apply settle_ok; [|done]. apply (safe_enabled _ _ (λ _, OK)); [done|by apply irq_except_safe].
  - apply settle_ok; [by apply (Hks (currpid s))|].
    intros q k'. rewrite lookup_delete. case_decide; [done|]. apply Hks.
Qed.

Lemma reachable_ok w w' : world_ok w → reachable w w' → world_ok w'.
Proof. intros Hw Hr. induction Hr; [done|]. by apply IHHr, (step_ok x). Qed.

End world.
