(* ===== verification/Sysinit.v ===== *)
(** Startup: sysinit and nulluser of system/initialize.c, with the kernel part of
    system/clkinit.c and bufinit.  The hardware set-up (platinit, the timer's
    registers, the exception vectors) is not part of the model; the state it
    starts from is the zeroed data segment. *)

From S2P Require Import Prelude Types Queue Delta Heap Kernel KInv Sched Semaphore Clock Message Device Process.
From S2P Require Import DevTypes World.

Definition NBPOOLS : Z := 20.
Definition NPORTS : Z := 30.
Definition MAXMARK : Z := 20.

(** ** The kernel's variables before sysinit: zero, except the statics that the
    source initialises ([nextqid = NPROC], [nextpid = 1]). *)
Definition zero_procent : procent :=
  Procent PR_FREE 0 0 0 0 (replicate 16 0) 0 0 0 false (vreplicate 5 0).

Definition bss (m : gmap Z Z) : kst :=
  Kst (table NQENT (λ _, QE 0 0 0)) NPROC
    (table NPROC (λ _, zero_procent))
    0 0 1 (table NSEM (λ _, Sentry S_FREE 0 0)) 0 (Defer_ 0 false) 0 0 0 0 0
    (Heap m (Memblk 0 0) 0 0) false
    (Bufpools (table NBPOOLS (λ _, Bpentry 0 0 0)) 0)
    (Portstate (table NPORTS (λ _, Ptentry 0 0 PT_FREE 0 0 0 0)) 0 0)
    (Markstate (table MAXMARK (λ _, 0)) 0 0) dev_bss.

Definition newqueue_call : M Z := λ s,
  match newqueue (nextqid s) (queuetab s) with
  | Some (q, n, t) => Done q (set_nextqid n (set_queuetab t s))
  | None => Fault
  end.

(** ** bufinit.c *)
Definition bufinit : M Z := modify (λ s, set_bufs (Bufpools (buftab (bufs s)) 0) s);; ret OK.

(** ** clkinit.c: the clock's variables *)
Definition clkinit : M unit :=
  q ← newqueue_call;
  modify (set_sleepq q);;
  modify (set_preempt QUANTUM);;
  modify (set_clktime 0);;
  modify (set_count1000 0).

(** ** initialize.c *)

(** [for (i = 0; i < NPROC; i++) ...] *)
Fixpoint proc_init_loop (n : nat) (i : Z) : M unit :=
  match n with
  | O => ret tt
  | S n =>
    setproc i (λ p, Procent PR_FREE 0 (prstkptr p) 0 (prstklen p) (<[0%nat := 0]> (prname p))
      (prsem p) (prparent p) (prmsg p) (prhasmsg p) (prdesc p));;
    proc_init_loop n (i + 1)
  end.

(** [for (i = 0; i < NSEM; i++) ...] *)
Fixpoint sem_init_loop (n : nat) (i : Z) : M unit :=
  match n with
  | O => ret tt
  | S n =>
    q ← newqueue_call;
    setsem i (λ _, Sentry S_FREE 0 q);;
    sem_init_loop n (i + 1)
  end.

(** [strncpy(prptr->prname, "prnull", 7)] *)
Definition prnull : list Z := [112; 114; 110; 117; 108; 108; 0].

(** sysinit after meminit and up to the loop that initialises the devices. *)
Definition init_vars : M unit :=
  modify (set_prcount 1);;
  modify (λ s, set_Defer (Defer_ 0 (attempt (Defer s))) s);;
  proc_init_loop (Z.to_nat NPROC) 0;;
  base ← hop (getstk NULLSTK);
  setproc NULLPROC (λ p, Procent PR_CURR 0 0 base NULLSTK (prnull ++ drop 7 (prname p))
    (prsem p) (prparent p) (prmsg p) (prhasmsg p) (prdesc p));;
  modify (set_currpid NULLPROC);;
  sem_init_loop (Z.to_nat NSEM) 0;;
  _ ← bufinit;
  q ← newqueue_call;
  modify (set_readylist q);;
  clkinit.
(** sysinit up to that loop; [linker_end] is the address the linker gives to
    [end]. *)
Definition sysinit_kernel (linker_end : Z) : M unit :=
  hwrite (meminit linker_end);;
  init_vars.

Section sysinit.
Context `{Platform}.

(** [for (i = 0; i < NDEVS; i++) init(i)] *)
Fixpoint dev_init_loop (n : nat) (i : Z) : M unit :=
  match n with
  | O => ret tt
  | S n => _ ← init i; dev_init_loop n (i + 1)
  end.

Definition sysinit (linker_end : Z) : M unit :=
  sysinit_kernel linker_end;;
  dev_init_loop (Z.to_nat NDEVS) 0.

(** nulluser up to [enable()].  What follows are calls of the null process, which
    are steps of the running system: net_init, and the creation of the startup
    process.  What it prints is left out. *)
Definition nulluser (linker_end : Z) : M Z :=
  sysinit linker_end;;
  enable;;
  ret OK.

(** The system when the null process has enabled interrupts. *)
Definition boot (linker_end : Z) (m : gmap Z Z) : world :=
  settle NULLPROC ∅ (nulluser linker_end (bss m)).

End sysinit.

(** * Specifications *)

Lemma set_proctab_same s m : proctab s = m → set_proctab m s = s.
Proof. intros <-. by destruct s. Qed.

(** The process loop leaves the zeroed table as it is. *)
Lemma proc_init_loop_spec n : ∀ i s,
  0 ≤ i → i + Z.of_nat n ≤ NPROC →
  (∀ j, 0 ≤ j < NPROC → proctab s !! j = Some zero_procent) →
  proc_init_loop n i s = Done tt s.
Proof.
  induction n as [|n IH]; intros i s Hi Hn Hp; [done|]. cbn [proc_init_loop]. kred.
  erewrite setproc_some by (apply Hp; lia). kred.
  rewrite set_proctab_same by (symmetry; apply insert_id; rewrite Hp by lia; done).
  apply IH; [lia..|done].
Qed.

Lemma newqueue_call_spec Q s :
  qsys (queuetab s) Q → Q !! nextqid s = None → NPROC ≤ nextqid s < NQENT - 1 →
  nextqid s mod 2 = 0 →
  ∃ t, newqueue_call s = Done (nextqid s) (set_nextqid (nextqid s + 2) (set_queuetab t s)) ∧
    qsys t (<[nextqid s := []]> Q).
Proof.
  intros Hs Hn Hr He. destruct (newqueue_spec (queuetab s) Q (nextqid s) Hs Hn) as (t & Heq & Hs' & _);
    [by apply isbadqid_false|done|]. exists t. unfold newqueue_call. by rewrite Heq.
Qed.

(** The queues after [n] calls of newqueue. *)
Definition queues_made (n : Z) (Q : gmap Z (list Z)) : Prop :=
  (∀ q, is_Some (Q !! q) ↔ NPROC ≤ q < NPROC + 2 * n ∧ q mod 2 = 0) ∧
  (∀ q l, Q !! q = Some l → l = []).

Lemma queues_made_next n Q :
  0 ≤ n → queues_made n Q →
  Q !! (NPROC + 2 * n) = None ∧ queues_made (n + 1) (<[NPROC + 2 * n := []]> Q).
Proof.
  intros Hn [Hd Hl]. split.
  - apply eq_None_not_Some. rewrite Hd. lia.
  - split.
    + intros q. rewrite lookup_insert. case_decide; subst.
      * split; [intros _|by eexists]. unfold NPROC in *. Z.to_euclidean_division_equations; lia.
      * rewrite Hd. unfold NPROC in *. Z.to_euclidean_division_equations; lia.
    + intros q l. rewrite lookup_insert. case_decide; [by intros [= <-]|apply Hl].
Qed.

Lemma newqueue_made n Q s :
  0 ≤ n ≤ NSEM + 1 → qsys (queuetab s) Q → queues_made n Q → nextqid s = NPROC + 2 * n →
  ∃ t Q', newqueue_call s = Done (NPROC + 2 * n)
      (set_nextqid (NPROC + 2 * (n + 1)) (set_queuetab t s)) ∧
    qsys t Q' ∧ queues_made (n + 1) Q'.
Proof.
  intros Hn Hs Hm Hq. destruct (queues_made_next n Q ltac:(lia) Hm) as [Hnone Hm'].
  destruct (newqueue_call_spec Q s Hs) as (t & Heq & Hs'); rewrite ?Hq; try done.
  - unfold NQENT, NPROC, NSEM in *. lia.
  - unfold NPROC. Z.to_euclidean_division_equations; lia.
  - rewrite Hq in *. exists t, (<[NPROC + 2 * n := []]> Q). split; [|done].
    replace (NPROC + 2 * (n + 1)) with (NPROC + 2 * n + 2) by lia. done.
Qed.

Lemma sem_init_loop_spec n : ∀ i Q s,
  0 ≤ i → i + Z.of_nat n = NSEM → qsys (queuetab s) Q → queues_made i Q →
  nextqid s = NPROC + 2 * i → is_table NSEM (semtab s) →
  (∀ j e, semtab s !! j = Some e → j < i → e = Sentry S_FREE 0 (SEMQ j)) →
  ∃ t Q' st, sem_init_loop n i s =
      Done tt (set_semtab st (set_nextqid (NPROC + 2 * NSEM) (set_queuetab t s))) ∧
    qsys t Q' ∧ queues_made NSEM Q' ∧ is_table NSEM st ∧
    (∀ j e, st !! j = Some e → e = Sentry S_FREE 0 (SEMQ j)).
Proof.
  induction n as [|n IH]; intros i Q s Hi Hn Hs Hm Hq Ht He; cbn [sem_init_loop].
  - assert (i = NSEM) as -> by lia. exists (queuetab s), Q, (semtab s). split.
    { rewrite <- Hq. by destruct s. }
    split_and!; try done. intros j e Hj. apply He; [done|]. by eapply is_table_bound.
  - destruct (newqueue_made i Q s) as (t & Q1 & Hnq & Hs1 & Hm1); try done; [lia|].
    kred. rewrite Hnq. kred. destruct (is_table_get _ _ i Ht ltac:(lia)) as [e0 He0].
    erewrite setsem_some by exact He0. kred.
    set (s1 := set_semtab _ _).
    destruct (IH (i + 1) Q1 s1) as (t2 & Q2 & st & Heq & ?); try done; [lia|lia| | |].
    + apply is_table_insert; [done|lia].
    + intros j e. cbn. rewrite lookup_insert. case_decide; [intros [= <-] _; by subst|].
      intros Hj Hlt. apply He; [done|lia].
    + exists t2, Q2, st. split; [|done]. exact Heq.
Qed.

(** A process table in which only the null process is used. *)
Lemma null_only pnull pid p :
  <[NULLPROC := pnull]> (table NPROC (λ _, zero_procent)) !! pid = Some p →
  (pid = NULLPROC ∧ p = pnull) ∨ (pid ≠ NULLPROC ∧ p = zero_procent).
Proof.
  rewrite lookup_insert. case_decide; [intros [= <-]; left; by subst|].
  intros Hp. right. split; [congruence|].
  pose proof (is_table_bound NPROC _ _ _ (is_table_table NPROC _) Hp) as Hb.
  rewrite table_lookup in Hp by done. by injection Hp.
Qed.

(** The conditions that make a state with empty queues an initial state. *)
Lemma initial_inv s Q pnull l :
  qsys (queuetab s) Q → queues_made (NSEM + 2) Q →
  proctab s = <[NULLPROC := pnull]> (table NPROC (λ _, zero_procent)) →
  prstate pnull = PR_CURR → prprio pnull = 0 →
  stk_ok (hp s) (prstkbase pnull) (prstklen pnull) →
  is_table NSEM (semtab s) →
  (∀ j e, semtab s !! j = Some e → e = Sentry S_FREE 0 (SEMQ j)) →
  readylist s = RDY → sleepq s = SLP → currpid s = NULLPROC →
  nextpid s = 1 → nextsem s = 0 → ndefers (Defer s) = 0 → heap_ok (hp s) l → Inv s.
Proof.
  intros Hs [Hd Hl] Hp Hcur Hprio Hstk Ht He Hr Hsl Hcp Hnp Hns Hdf Hok.
  exists Q. split_and!; [|  |exists pnull; rewrite Hcp, Hp, lookup_insert_eq; done|done].
  - split; try done.
    + intros q. rewrite Hd. unfold valid_q, SLP, RDY, NPROC, NSEM.
      Z.to_euclidean_division_equations; lia.
    + rewrite Hp. by apply is_table_insert; [apply is_table_table|].
    + intros j e Hj. by rewrite (He _ _ Hj).
    + intros pid p q lq _. rewrite Hp. intros [[-> ->]|[_ ->]]%null_only Hq;
        rewrite (Hl _ _ Hq); unfold qof; rewrite ?Hcur; cbn; split; try done;
        by intros ?%not_elem_of_nil.
    + intros pid p _. rewrite Hp. intros [[-> ->]|[_ ->]]%null_only; [congruence|done].
    + intros p _. rewrite Hp, lookup_insert_eq. intros [= <-]. by left.
    + intros pid p. rewrite Hp, Hcp. by intros [[-> ->]|[_ ->]]%null_only.
    + by rewrite Hcp.
    + intros pid p. rewrite Hp. intros [[-> ->]|[_ ->]]%null_only; cbn; lia.
    + intros lr Hlr. rewrite (Hl _ _ Hlr). constructor.
    + rewrite Hnp. unfold NPROC. lia.
    + rewrite Hns. unfold NSEM. lia.
    + by exists l.
    + intros pid p. rewrite Hp. intros [[-> ->]|[_ ->]]%null_only; [done|by left].
  - intros i e lq Hi Hq. rewrite (He _ _ Hi), (Hl _ _ Hq). done.
Qed.

(** What the kernel's variables are before sysinit turns to the devices. *)
Definition initial (s : kst) (a len : Z) : Prop :=
    Inv s ∧ currpid s = NULLPROC ∧ intr s = false ∧ prcount s = 1 ∧
    heap_ok (hp s) [(a, len)] ∧
    (∀ i se, semtab s !! i = Some se → sstate se = S_FREE) ∧
    (∀ pid p, proctab s !! pid = Some p → prstate p = PR_FREE ↔ pid ≠ NULLPROC) ∧
    dev s = dev_bss.

Lemma init_vars_inv m h1 a len :
  heap_ok h1 [(a, len)] → NULLSTK < len →
  ∃ s, init_vars (set_hp h1 (bss m)) = Done tt s ∧ initial s a (len - NULLSTK).
Proof.
  intros Hok Hbig. unfold init_vars, initial. kred.
  set (s1 := set_Defer _ _).
  assert (∀ j, 0 ≤ j < NPROC → proctab s1 !! j = Some zero_procent) as Hpt.
  { exact (table_lookup NPROC (λ _, zero_procent)). }
  rewrite proc_init_loop_spec; [|done|done|done]. kred.
  (* the null process's stack *)
  pose proof (getstk_spec h1 _ NULLSTK Hok ltac:(unfold NULLSTK; lia)) as Hg.
  change (roundmb NULLSTK) with 8192 in Hg. cbn [alloc_last] in Hg.
  unfold NULLSTK in Hbig.
  rewrite (bool_decide_eq_false_2 (8192 = _)), bool_decide_eq_true_2 in Hg by lia.
  destruct Hg as (h2 & Hg & Hok2 & [Hmin2 Hmax2 _]). erewrite hop_some by exact Hg. kred.
  set (base := _ + 8192 - 4) in *.
  erewrite setproc_some by (apply Hpt; done). kred.
  set (pnull := Procent PR_CURR 0 0 _ _ _ _ _ _ _ _).
  set (s2 := set_currpid _ _).
  assert (queues_made 0 ∅) as Hm0.
  { split; [|done]. intros q. rewrite lookup_empty. split; [by intros [? ?]|lia]. }
  destruct (sem_init_loop_spec (Z.to_nat NSEM) 0 ∅ s2) as
    (t3 & Q3 & st & Heq & Hs3 & Hm3 & Hst & Hste).
  { lia. }
  { by rewrite Z2Nat.id. }
  { apply qsys_empty. exact (is_table_table NQENT _). }
  { exact Hm0. }
  { reflexivity. }
  { exact (is_table_table NSEM _). }
  { intros j se Hj Hneg. pose proof (is_table_bound NSEM _ _ _ (is_table_table NSEM _) Hj). lia. }
  rewrite Heq. kred. unfold bufinit. kred.
  set (s3 := set_bufs _ _).
  destruct (newqueue_made NSEM Q3 s3) as (t4 & Q4 & Hnq4 & Hs4 & Hm4);
    [unfold NSEM; lia|exact Hs3|exact Hm3|reflexivity|].
  rewrite Hnq4. kred. unfold clkinit. kred.
  set (s4 := set_readylist _ _).
  destruct (newqueue_made (NSEM + 1) Q4 s4) as (t5 & Q5 & Hnq5 & Hs5 & Hm5);
    [unfold NSEM; lia|exact Hs4|exact Hm4|reflexivity|].
  rewrite Hnq5. kred. eexists. split; [reflexivity|].
  pose proof (hk_min _ _ Hok) as [Hpos _]. pose proof (hk_wf _ _ Hok) as Hwf. cbn in Hwf.
  match goal with |- Inv ?x ∧ _ => set (s5 := x) end.
  assert (proctab s5 = <[NULLPROC := pnull]> (table NPROC (λ _, zero_procent))) as Hp5 by reflexivity.
  assert (semtab s5 = st) as Hst5 by reflexivity.
  split; [|split_and!].
  - eapply (initial_inv _ Q5 pnull); [exact Hs5|exact Hm5|exact Hp5|reflexivity|reflexivity| |
      exact Hst|exact Hste|reflexivity|reflexivity|reflexivity|reflexivity|reflexivity|reflexivity|
      exact Hok2].
    right. cbn. change (roundmb NULLSTK) with 8192. change NULLSTK with 8192. unfold base. rewrite Hmin2, Hmax2.
    split_and!; try lia. Z.to_euclidean_division_equations; lia.
  - reflexivity.
  - reflexivity.
  - reflexivity.
  - exact Hok2.
  - intros i se Hi. rewrite Hst5 in Hi. by rewrite (Hste _ _ Hi).
  - intros pid p Hp. rewrite Hp5 in Hp.
    destruct (null_only _ _ _ Hp) as [[E ->]|[E ->]]; cbn [prstate zero_procent].
    + unfold pnull. cbn [prstate]. split; [discriminate|contradiction].
    + split; [intros _; exact E|reflexivity].
  - reflexivity.
Qed.

(** The state after sysinit, without its devices. *)
Lemma sysinit_inv e m :
  0 < e → e + 16384 ≤ MAXADDR → e mod 8 = 0 →
  (∀ a, is_Some (m !! a) ↔ e ≤ a < MAXADDR ∧ a mod 4 = 0) →
  ∃ s, sysinit_kernel e (bss m) = Done tt s ∧ initial s e (MAXADDR - e - NULLSTK).
Proof.
  intros He Hbig He8 Hm. unfold sysinit_kernel.
  destruct (meminit_spec e (Heap m (Memblk 0 0) 0 0)) as (h1 & Hmi & Hok & Hmin & Hmax);
    [unfold MAXADDR in *; lia|done|done|].
  assert (hwrite (meminit e) (bss m) = Done tt (set_hp h1 (bss m))) as Hw.
  { unfold hwrite. change (hp (bss m)) with (Heap m (Memblk 0 0) 0 0). by rewrite Hmi. }
  rewrite M_bind_eq, Hw. cbn [obind].
  apply (init_vars_inv m h1 e (MAXADDR - e) Hok). unfold NULLSTK. lia.
Qed.

(** * The devices *)

(** While the devices are initialised the null process runs with interrupts
    disabled, and no other process can run: those that there are are suspended. *)
Record booting (s : kst) : Prop := Booting {
  bt_inv : Inv s;
  bt_null : currpid s = NULLPROC;
  bt_intr : intr s = false;
  bt_quiet : ∀ pid p, proctab s !! pid = Some p → pid ≠ NULLPROC → prstate p = PR_FREE ∨ prstate p = PR_SUSP }.

Lemma initial_booting s a len : initial s a len → booting s.
Proof.
  intros (HI & Hcp & Hi & _ & _ & _ & Hfree & _). split; [done..|]. intros pid p Hp Hn. left. by eapply Hfree.
Qed.

Section devices.
Context `{Platform}.

(** The call of a device's function, in a state in which interrupts are disabled. *)
Lemma init_call d s :
  0 ≤ d < NDEVS → intr s = false →
  init d s = obind (dvinit (devtab d) s) (λ r s', Done r (set_intr false s')).
Proof.
  intros Hd Hi. unfold init, devcall. kred. rewrite (proj2 (isbaddev_false d) Hd), Hi.
  replace (set_intr false s) with s by (rewrite <-Hi; by destruct s). done.
Qed.

(** The loop over the devices, with a property [P i] of the state in which the first
    [i] devices are initialised. *)
Lemma dev_init_loop_ok (P : Z → kst → Prop) :
  (∀ i s, 0 ≤ i < NDEVS → booting s → P i s →
    (∃ s', dvinit (devtab i) s = Halt s') ∨
    ∃ r s', dvinit (devtab i) s = Done r s' ∧ booting s' ∧ P (i + 1) s') →
  ∀ n i s, 0 ≤ i → i + Z.of_nat n ≤ NDEVS → booting s → P i s →
  (∃ j s1 s', i ≤ j < i + Z.of_nat n ∧ booting s1 ∧ P j s1 ∧ dvinit (devtab j) s1 = Halt s' ∧ dev_init_loop n i s = Halt s') ∨
  ∃ s', dev_init_loop n i s = Done tt s' ∧ booting s' ∧ P (i + Z.of_nat n) s'.
Proof.
  intros HP. induction n as [|n IH]; intros i s Hi Hn Hs Hps; cbn [dev_init_loop].
  { right. exists s. by rewrite Z.add_0_r. }
  rewrite M_bind_eq, init_call by (apply Hs || lia).
  destruct (HP i s ltac:(lia) Hs Hps) as [[s' E]|(r & s' & E & Hs' & Hps')]; rewrite E; cbn [obind].
  { left. exists i, s, s'. split_and!; [lia..|done|done|done|done]. }
  replace (set_intr false s') with s' by (rewrite <-(bt_intr _ Hs'); by destruct s').
  replace (i + Z.of_nat (S n)) with (i + 1 + Z.of_nat n) by lia.
  destruct (IH (i + 1) s' ltac:(lia) ltac:(lia) Hs' Hps') as [(j & s1 & s2 & Hj & ?)|?]; [left|by right].
  exists j, s1, s2. split; [lia|done].
Qed.

(** Sysinit, with a property of the state in which the first devices are initialised. *)
Lemma sysinit_ok (P : Z → kst → Prop) e m :
  0 < e → e + 16384 ≤ MAXADDR → e mod 8 = 0 →
  (∀ a, is_Some (m !! a) ↔ e ≤ a < MAXADDR ∧ a mod 4 = 0) →
  (∀ s, sysinit_kernel e (bss m) = Done tt s → initial s e (MAXADDR - e - NULLSTK) → P 0 s) →
  (∀ i s, 0 ≤ i < NDEVS → booting s → P i s →
    (∃ s', dvinit (devtab i) s = Halt s') ∨
    ∃ r s', dvinit (devtab i) s = Done r s' ∧ booting s' ∧ P (i + 1) s') →
  (∃ j s1 s', 0 ≤ j < NDEVS ∧ booting s1 ∧ P j s1 ∧ dvinit (devtab j) s1 = Halt s' ∧ sysinit e (bss m) = Halt s') ∨
  ∃ s, sysinit e (bss m) = Done tt s ∧ booting s ∧ P NDEVS s.
Proof.
  intros He Hbig He8 Hm H0 HP. destruct (sysinit_inv e m He Hbig He8 Hm) as (s & Hs & Hini).
  unfold sysinit. rewrite M_bind_eq, Hs. cbn [obind].
  apply (dev_init_loop_ok P HP (Z.to_nat NDEVS) 0 s); [done..|by eapply initial_booting|by apply H0].
Qed.

(** A booted system: a driver has stopped the processor, or the null process runs
    with interrupts enabled. *)
Lemma boot_ok e m :
  (∃ s', sysinit e (bss m) = Halt s') ∨ (∃ s, sysinit e (bss m) = Done tt s ∧ booting s) →
  world_ok (boot e m) ∧
  ∀ s, sysinit e (bss m) = Done tt s → boot e m = Running (set_intr true s) ∅.
Proof.
  intros Hsys. unfold boot, nulluser. rewrite M_bind_eq. destruct Hsys as [[s' E]|(s & E & Hs)]; rewrite E; [done|].
  kred. split; [|intros s0 [= <-]; done].
  split; [by apply Inv_intr, Hs|]. split; [done|].
  intros p k. unfold prune. by rewrite map_filter_empty, lookup_empty.
Qed.
End devices.
