(* ===== verification/BufPool.v ===== *)
(** Buffer pools: system/mkbufpool.c, getbuf.c, freebuf.c.

    A pool is a table entry with the address of its first free buffer and the
    semaphore that counts the free buffers; the free buffers are linked through
    their first word.  A buffer in use has its pool's id in that word. *)

From S2P Require Import Prelude.
From S2P Require Import Types.
From S2P Require Import Queue.
From S2P Require Import Delta.
From S2P Require Import Heap.
From S2P Require Import Kernel.
From S2P Require Import KInv.
From S2P Require Import Sched.
From S2P Require Import Semaphore.
From S2P Require Import Clock.
From S2P Require Import Message.
From S2P Require Import Device.
From S2P Require Import Process.
From S2P Require Import Sysinit.

Definition BP_MINB : Z := 8.
Definition BP_MAXB : Z := 8192.
Definition BP_MAXN : Z := 2048.

(** [buftab[i]] *)
Definition getbp (i : Z) : M bpentry := λ s,
  match buftab (bufs s) !! i with Some b => Done b s | None => Fault end.
Definition setbp (i : Z) (b : bpentry) : M unit := λ s,
  match buftab (bufs s) !! i with
  | Some _ => Done tt (set_bufs (Bufpools (<[i := b]> (buftab (bufs s))) (nbpools (bufs s))) s)
  | None => Fault
  end.
Definition set_nbpools (n : Z) (s : kst) : kst := set_bufs (Bufpools (buftab (bufs s)) n) s.

(** ** mkbufpool.c *)

(** The loop that links the buffers; it returns the address of the last one. *)
Fixpoint link_bufs (n : nat) (bufsiz buf : Z) : M Z :=
  match n with
  | O => ret buf
  | S n =>
    let next := u32 (buf + bufsiz) in
    hwrite (st buf next);;
    link_bufs n bufsiz next
  end.

Definition mkbufpool (bufsiz numbufs : Z) : M Z :=
  mask ← disable;
  b ← gets bufs;
  if bool_decide (bufsiz < BP_MINB) || bool_decide (BP_MAXB < bufsiz)
     || bool_decide (numbufs < 1) || bool_decide (BP_MAXN < numbufs)
     || bool_decide (NBPOOLS ≤ nbpools b)
  then restore mask;; ret SYSERR
  else
    let bufsiz := Z.land (bufsiz + 3) (Z.lnot 3) in
    let nbytes := u32 (numbufs * (bufsiz + 4)) in
    buf ← hop (getmem nbytes);
    if bool_decide (s32 buf = SYSERR) then restore mask;; ret SYSERR
    else
      b ← gets bufs;
      let poolid := nbpools b in
      modify (set_nbpools (poolid + 1));;
      e ← getbp poolid;
      setbp poolid (Bpentry buf (bpsem e) bufsiz);;
      sem ← semcreate numbufs;
      setbp poolid (Bpentry buf sem bufsiz);;
      if bool_decide (sem = SYSERR) then
        _ ← hop (freemem buf nbytes);
        modify (λ s, set_nbpools (nbpools (bufs s) - 1) s);;
        restore mask;;
        ret SYSERR
      else
        buf ← link_bufs (Z.to_nat (numbufs - 1)) (bufsiz + 4) buf;
        hwrite (st buf 0);;
        restore mask;;
        ret poolid.

(** ** getbuf.c *)
Definition getbuf (poolid : Z) : M Z :=
  mask ← disable;
  b ← gets bufs;
  if bool_decide (poolid < 0) || bool_decide (nbpools b ≤ poolid)
  then restore mask;; ret SYSERR_PTR
  else
    bpptr ← getbp poolid;
    _ ← wait (bpsem bpptr);
    bpptr ← getbp poolid;
    let bufptr := bpnext bpptr in
    next ← hread (ld bufptr);
    setbp poolid (Bpentry next (bpsem bpptr) (bpsize bpptr));;
    hwrite (st bufptr (u32 poolid));;
    restore mask;;
    ret (u32 (bufptr + 4)).

(** ** freebuf.c *)
Definition freebuf (bufaddr : Z) : M Z :=
  mask ← disable;
  let bufaddr := u32 (bufaddr - 4) in
  w ← hread (ld bufaddr);
  let poolid := s32 w in
  b ← gets bufs;
  if bool_decide (poolid < 0) || bool_decide (nbpools b ≤ poolid)
  then restore mask;; ret SYSERR
  else
    bpptr ← getbp poolid;
    hwrite (st bufaddr (bpnext bpptr));;
    setbp poolid (Bpentry bufaddr (bpsem bpptr) (bpsize bpptr));;
    _ ← signal (bpsem bpptr);
    restore mask;;
    ret OK.

(** * Specifications *)

(** The free buffers of a pool, in the order in which getbuf gives them out. *)
Fixpoint bchain (m : gmap Z Z) (a : Z) (l : list Z) : Prop :=
  match l with
  | [] => a = 0
  | x :: r => a = x ∧ ∃ n, m !! x = Some n ∧ bchain m n r
  end.

Lemma bchain_frame m m' a l :
  bchain m a l → (∀ x, x ∈ l → m' !! x = m !! x) → bchain m' a l.
Proof.
  revert a. induction l as [|x l IH]; intros a; cbn; [done|].
  intros [-> (n & Hn & Hc)] He. split; [done|]. exists n. rewrite He by by left.
  split; [done|]. apply IH; [done|]. intros. apply He. by right.
Qed.

(** The buffers of a pool of [n] buffers of [sz] bytes at [x]. *)
Fixpoint pool_bufs (n : nat) (x sz : Z) : list Z :=
  match n with O => [] | S n => x :: pool_bufs n (x + sz) sz end.

Lemma elem_of_pool_bufs n x sz a :
  a ∈ pool_bufs n x sz → ∃ i, 0 ≤ i < Z.of_nat n ∧ a = x + i * sz.
Proof.
  revert x. induction n as [|n IH]; intros x; cbn; [by intros ?%not_elem_of_nil|].
  intros [-> | (i & Hi & ->)%IH]%elem_of_cons; [exists 0; lia|exists (i + 1); lia].
Qed.

(** Linking [n] buffers; the last one ends the chain. *)
Lemma link_bufs_spec {A} n : ∀ x sz s l (k : M A),
  heap_ok (hp s) l → minheap (hp s) ≤ x → 4 ≤ sz → sz mod 4 = 0 → x mod 4 = 0 →
  x + Z.of_nat n * sz + 4 ≤ maxheap (hp s) →
  (∀ y, x ≤ y < x + Z.of_nat n * sz + 4 → ¬ free_at l y) →
  ∃ h, (buf ← link_bufs n sz x; hwrite (st buf 0);; k) s = k (set_hp h s) ∧
    heap_ok h l ∧ minheap h = minheap (hp s) ∧ maxheap h = maxheap (hp s) ∧
    bchain (mem h) x (pool_bufs (S n) x sz) ∧
    (∀ a, a < x → mem h !! a = mem (hp s) !! a).
Proof.
  induction n as [|n IH]; intros x sz s l k Hok Hlo Hsz Hsz4 Hx4 Hhi Hf; cbn [link_bufs].
  - destruct (st_heap_ok (hp s) l x 0) as (h & Hst & Hok' & Hmin & Hmax & Hm); try done; [apply Hf; lia|lia|].
    exists h. split; [|split_and!; try done].
    + kred. unfold hwrite. rewrite Hst. by kred.
    + split; [done|]. exists 0. by rewrite Hm, lookup_insert_eq.
    + intros a Ha. rewrite Hm, lookup_insert_ne by lia. done.
  - pose proof (hk_max _ _ Hok). pose proof (hk_min _ _ Hok).
    rewrite u32_id by nia.
    destruct (st_heap_ok (hp s) l x (x + sz)) as (h & Hst & Hok' & Hmin & Hmax & Hm);
      try done; [apply Hf; lia|lia|].
    destruct (IH (x + sz) sz (set_hp h s) l k) as (h2 & Heq & Hok2 & Hmin2 & Hmax2 & Hc & Hfr);
      try done; cbn [hp set_hp]; try lia.
    + Z.to_euclidean_division_equations; lia.
    + intros y Hy. apply Hf. lia.
    + exists h2. cbn [hp set_hp] in *. split_and!; try congruence.
      * etrans; [|exact Heq]. kred. unfold hwrite at 1. rewrite Hst. by kred.
      * cbn [pool_bufs bchain]. split; [done|]. exists (x + sz).
        rewrite Hfr, Hm, lookup_insert_eq by lia. done.
      * intros a Ha. rewrite Hfr, Hm, lookup_insert_ne by lia. done.
Qed.

Lemma getbp_some i s b : buftab (bufs s) !! i = Some b → getbp i s = Done b s.
Proof. unfold getbp. by intros ->. Qed.

Lemma setbp_some i b s b' :
  buftab (bufs s) !! i = Some b' →
  setbp i b s = Done tt (set_bufs (Bufpools (<[i := b]> (buftab (bufs s))) (nbpools (bufs s))) s).
Proof. unfold setbp. by intros ->. Qed.

Lemma InvQ_bufs Q s b : InvQ Q s → InvQ Q (set_bufs b s).
Proof. intros H. eapply InvQ_csim; [|by destruct H as (? & ? & ? & ?)|done]. by split. Qed.

Lemma land_lnot3 y : Z.land y (Z.lnot 3) = 4 * (y / 4).
Proof.
  rewrite <- Z.ldiff_land. change 3 with (Z.ones 2). rewrite Z.ldiff_ones_r by lia.
  rewrite Z.shiftl_mul_pow2, Z.shiftr_div_pow2 by lia. change (2 ^ 2) with 4. lia.
Qed.

Lemma s32_syserr x : 0 ≤ x < 4294967295 → s32 x ≠ SYSERR.
Proof. intros Hx. unfold s32, SYSERR. Z.to_euclidean_division_equations; lia. Qed.

(** The size of a buffer and its header word. *)
Definition buf_stride (bufsiz : Z) : Z := 4 * ((bufsiz + 3) / 4) + 4.

Lemma buf_stride_bounds bufsiz :
  8 ≤ bufsiz ≤ 8192 → bufsiz + 4 ≤ buf_stride bufsiz ≤ 8196 ∧ buf_stride bufsiz mod 4 = 0.
Proof. intros. unfold buf_stride. Z.to_euclidean_division_equations; lia. Qed.

Lemma mkbufpool_bad bufsiz numbufs s :
  ¬ (8 ≤ bufsiz ≤ 8192 ∧ 1 ≤ numbufs ≤ 2048 ∧ nbpools (bufs s) < NBPOOLS) →
  mkbufpool bufsiz numbufs s = Done SYSERR s.
Proof.
  intros Hbad. unfold mkbufpool. kred. unfold BP_MINB, BP_MAXB, BP_MAXN.
  destruct (_ || _) eqn:E; [kred; by destruct s|]. bools. lia.
Qed.

(** The common part of mkbufpool: the memory is allocated. *)
Lemma mkbufpool_alloc Q s l bufsiz numbufs :
  InvQ Q s → heap_ok (hp s) l → 8 ≤ bufsiz ≤ 8192 → 1 ≤ numbufs ≤ 2048 →
  let n := numbufs * buf_stride bufsiz in
  u32 (numbufs * (Z.land (bufsiz + 3) (Z.lnot 3) + 4)) = n ∧ 0 < n ≤ 16785408 ∧
  match alloc_first (roundmb n) l with
  | None => getmem n (hp s) = Some (SYSERR_PTR, hp s)
  | Some (x, l') => ∃ h', getmem n (hp s) = Some (x, h') ∧ heap_ok h' l' ∧ hframe l (hp s) h' ∧
      InvQ Q (set_hp h' s) ∧ taken (minheap (hp s) - 1) (maxheap (hp s)) (roundmb n) x l l' ∧
      minheap (hp s) ≤ x ∧ x + roundmb n ≤ maxheap (hp s)
  end.
Proof.
  intros HQ Hok Hb Hn n. pose proof (buf_stride_bounds _ Hb) as [Hst Hst4].
  assert (0 < n ≤ 16785408) as Hnb by (unfold n; nia).
  split; [rewrite land_lnot3; fold (buf_stride bufsiz); by rewrite u32_id by (fold n; lia)|].
  split; [done|]. pose proof (getmem_spec (hp s) l n Hok ltac:(lia)) as Hg.
  destruct (alloc_first (roundmb n) l) as [[x l']|] eqn:Hal; [|done].
  destruct Hg as (h' & Hg & Hok' & Hfr). destruct (roundmb_bounds n) as (Hr1 & Hr8 & Hr0); [lia|].
  pose proof (alloc_first_taken _ _ _ _ _ _ (hk_wf _ _ Hok) Hr0 Hr8 Hal) as Ht.
  pose proof (wfb_free _ _ _ x (hk_wf _ _ Hok) (tk_was_free _ _ _ _ _ _ Ht x ltac:(lia))) as Hx1.
  pose proof (wfb_free _ _ _ (x + roundmb n - 1) (hk_wf _ _ Hok)
    (tk_was_free _ _ _ _ _ _ Ht (x + roundmb n - 1) ltac:(lia))) as Hx2.
  exists h'. pose proof Hfr as [Hmin Hmax _]. split_and!; try done; try lia.
  apply InvQ_hp; [done|by exists l'|done..].
Qed.

Lemma mkbufpool_spec Q s l bufsiz numbufs :
  InvQ Q s → heap_ok (hp s) l → is_table NBPOOLS (buftab (bufs s)) →
  0 ≤ nbpools (bufs s) < NBPOOLS → 8 ≤ bufsiz ≤ 8192 → 1 ≤ numbufs ≤ 2048 →
  let sz := buf_stride bufsiz in
  let id := nbpools (bufs s) in
  match alloc_first (roundmb (numbufs * sz)) l with
  | None => mkbufpool bufsiz numbufs s = Done SYSERR (set_intr (intr s) s)
  | Some (x, l') =>
    ((∀ i e, semtab s !! i = Some e → sstate e = S_USED) ∧
     ∃ s', mkbufpool bufsiz numbufs s = Done SYSERR s' ∧ InvQ Q s' ∧ heap_ok (hp s') l ∧
       nbpools (bufs s') = id) ∨
    (∃ r e s', semtab s !! r = Some e ∧ sstate e = S_FREE ∧
       mkbufpool bufsiz numbufs s = Done id s' ∧ InvQ Q s' ∧ heap_ok (hp s') l' ∧
       bchain (mem (hp s')) x (pool_bufs (Z.to_nat numbufs) x sz) ∧
       buftab (bufs s') = <[id := Bpentry x r (sz - 4)]> (buftab (bufs s)) ∧
       nbpools (bufs s') = id + 1 ∧
       semtab s' = <[r := Sentry S_USED numbufs (SEMQ r)]> (semtab s))
  end.
Proof.
  intros HQ Hok Htab Hid Hb Hn sz id.
  destruct (mkbufpool_alloc Q s l bufsiz numbufs HQ Hok Hb Hn) as (Hu & Hnb & Hg).
  fold sz in Hu, Hnb, Hg.
  pose proof (buf_stride_bounds _ Hb) as [Hst Hst4]. fold sz in Hst, Hst4.
  assert (bool_decide (bufsiz < BP_MINB) || bool_decide (BP_MAXB < bufsiz)
     || bool_decide (numbufs < 1) || bool_decide (BP_MAXN < numbufs)
     || bool_decide (NBPOOLS ≤ nbpools (bufs s)) = false) as Hguard.
  { unfold BP_MINB, BP_MAXB, BP_MAXN. rewrite !bool_decide_eq_false_2 by lia. done. }
  destruct (alloc_first _ l) as [[x l']|] eqn:Hal.
  2: { unfold mkbufpool. kred. rewrite Hguard. kred. rewrite Hu. erewrite hop_some by exact Hg.
       kred. rewrite bool_decide_eq_true_2 by done. kred. by destruct s. }
  destruct Hg as (h1 & Hg & Hok1 & Hfr & HQ1 & Ht & Hx1 & Hx2).
  pose proof (hk_min _ _ Hok). pose proof (hk_max _ _ Hok). pose proof Hfr as [Hmin Hmax _].
  destruct (roundmb_bounds (numbufs * sz)) as (Hr1 & Hr8 & Hr0); [lia|].
  destruct (is_table_get _ _ _ Htab Hid) as [b0 Hb0].
  set (b1 := Bufpools (<[id := Bpentry x (bpsem b0) (sz - 4)]> (buftab (bufs s))) (id + 1)).
  set (s1 := set_bufs b1 (set_hp h1 (set_intr false s))).
  assert (InvQ Q s1) as HQs1 by inv_frame HQ1.
  assert (mkbufpool bufsiz numbufs s = obind (semcreate numbufs s1) (λ sem,
    setbp id (Bpentry x sem (sz - 4));;
    if bool_decide (sem = SYSERR) then
      _ ← hop (freemem x (numbufs * sz));
      modify (λ s, set_nbpools (nbpools (bufs s) - 1) s);;
      restore (intr s);; ret SYSERR
    else
      buf ← link_bufs (Z.to_nat (numbufs - 1)) sz x;
      hwrite (st buf 0);;
      restore (intr s);; ret id)) as Hrun.
  { unfold mkbufpool. kred. rewrite Hguard. kred. rewrite Hu. erewrite hop_some by exact Hg.
    kred. rewrite bool_decide_eq_false_2 by (apply s32_syserr; lia). kred.
    erewrite getbp_some by exact Hb0. kred. erewrite setbp_some by exact Hb0. kred.
    rewrite land_lnot3. replace (4 * ((bufsiz + 3) / 4)) with (sz - 4) by (unfold sz, buf_stride; lia).
    by replace (sz - 4 + 4) with sz by lia. }
  destruct (semcreate_free Q s1 numbufs HQs1) as [(r & e & ns & He & Hf & Hsc & HQ2)|(ns & Hsc & HQ2 & Hall)];
    [unfold INT_MAX; lia|right|left]; rewrite Hrun, Hsc; cbn [obind].
  - kred. erewrite setbp_some by (cbn; apply lookup_insert_eq). kred.
    pose proof (is_table_bound _ _ _ _ (c_sems _ _ _ (proj1 HQs1)) He) as Hrb.
    rewrite bool_decide_eq_false_2 by clia.
    set (s2 := set_bufs _ _).
    destruct (link_bufs_spec (Z.to_nat (numbufs - 1)) x sz s2 l' (restore (intr s);; ret id))
      as (h2 & Heq & Hok2 & Hmin2 & Hmax2 & Hc & _); try done; cbn [hp s2 set_bufs].
    + change (minheap h1 ≤ x). lia.
    + lia.
    + pose proof (tk_align _ _ _ _ _ _ Ht). Z.to_euclidean_division_equations; lia.
    + change (x + Z.of_nat (Z.to_nat (numbufs - 1)) * sz + 4 ≤ maxheap h1). nia.
    + intros y Hy Hfree. apply (tk_free _ _ _ _ _ _ Ht) in Hfree as [_ Hno]. apply Hno. nia.
    + rewrite Heq. kred. exists r, e. eexists. split; [exact He|]. split; [done|]. split; [done|].
      cbn [hp bufs buftab nbpools semtab set_hp set_intr s2 set_bufs s1 b1].
      split; [|split_and!; try done; [|by rewrite insert_insert_eq]].
      * apply InvQ_intr, InvQ_hp; [|by exists l'|done..]. inv_frame HQ2.
      * by replace (S (Z.to_nat (numbufs - 1))) with (Z.to_nat numbufs) in Hc by lia.
  - split; [exact Hall|]. kred. erewrite setbp_some by (cbn; apply lookup_insert_eq). kred.
    rewrite bool_decide_eq_true_2 by done. kred.
    destruct (freemem_spec h1 l' x (numbufs * sz) Hok1) as [[(y & Hy & Hfree) _]|
      (h2 & l2 & Hfm & Hok2 & Hgiv & Hmin2 & Hmax2 & _)]; try lia.
    { apply (tk_align _ _ _ _ _ _ Ht). }
    { apply (tk_free _ _ _ _ _ _ Ht) in Hfree as [_ Hno]. lia. }
    erewrite hop_some by exact Hfm. kred. eexists. split; [reflexivity|].
    assert (l2 = l) as ->.
    { pose proof (hk_wf _ _ Hok2) as Hw2. rewrite Hmin2, Hmin in Hw2.
      eapply wfb_unique; [exact Hw2|exact (hk_wf _ _ Hok)|]. intros y. rewrite (Hgiv y), (tk_free _ _ _ _ _ _ Ht y).
      split; [|destruct (decide (x ≤ y < x + roundmb (numbufs * sz))); tauto].
      intros [[? _]|Hy]; [done|]. by apply (tk_was_free _ _ _ _ _ _ Ht). }
    split; [|split; [exact Hok2|]].
    + apply InvQ_intr. unfold set_nbpools. apply InvQ_bufs, InvQ_hp; [|by exists l|cbn; congruence..].
      inv_frame HQ2.
    + cbn. lia.
Qed.

(** ** getbuf and freebuf *)

Lemma hwrite_some f s h : f (hp s) = Some h → hwrite f s = Done tt (set_hp h s).
Proof. unfold hwrite. by intros ->. Qed.

Lemma hread_some {A} (f : heap → option A) s a : f (hp s) = Some a → hread f s = Done a s.
Proof. unfold hread. by intros ->. Qed.

(** A buffer of a pool: an allocated word of the heap. *)
Definition buf_ok (s : kst) (l : list (Z * Z)) (x : Z) : Prop :=
  minheap (hp s) ≤ x < maxheap (hp s) ∧ x mod 4 = 0 ∧ ¬ free_at l x.

Lemma getbuf_bad poolid s :
  poolid < 0 ∨ nbpools (bufs s) ≤ poolid → getbuf poolid s = Done SYSERR_PTR s.
Proof.
  intros Hb. unfold getbuf. kred.
  destruct (_ || _) eqn:E; [kred; by destruct s|]. bools. lia.
Qed.

(** getbuf when the pool has a free buffer: the first one is unlinked and gets
    the pool's id. *)
Lemma getbuf_spec Q s l poolid b e x r :
  InvQ Q s → heap_ok (hp s) l → 0 ≤ poolid < nbpools (bufs s) → nbpools (bufs s) ≤ NBPOOLS →
  buftab (bufs s) !! poolid = Some b → semtab s !! bpsem b = Some e → sstate e = S_USED →
  0 < scount e → bchain (mem (hp s)) (bpnext b) (x :: r) → x ∉ r → buf_ok s l x →
  ∃ n h, mem (hp s) !! x = Some n ∧
    let s' := set_hp h (set_bufs (Bufpools (<[poolid := Bpentry n (bpsem b) (bpsize b)]>
                (buftab (bufs s))) (nbpools (bufs s)))
              (set_semtab (<[bpsem b := set_scount (scount e - 1) e]> (semtab s)) s)) in
    getbuf poolid s = Done (x + 4) (set_intr (intr s) s') ∧ InvQ Q s' ∧ heap_ok h l ∧
    mem h = <[x := poolid]> (mem (hp s)) ∧ h = set_mem (mem h) (hp s) ∧ bchain (mem h) n r.
Proof.
  intros HQ Hok Hid Hnb Hb He Hu Hcnt Hch Hxr (Hx & Hx4 & Hxf).
  destruct Hch as (Hnext & n & Hn & Hch).
  pose proof (hk_max _ _ Hok) as Hmax. pose proof (hk_min _ _ Hok) as Hmin.
  destruct (st_heap_ok (hp s) l x poolid Hok Hxf Hx Hx4) as (h & Hst & Hok' & Hm1 & Hm2 & Hm).
  pose proof (InvQ_intr false _ _ HQ) as HQ0.
  destruct (wait_passes Q (set_intr false s) (bpsem b) e HQ0 He Hu Hcnt) as [Hw HQ1].
  exists n, h. split; [done|]. cbv zeta. split_and!; try done.
  - unfold getbuf. kred. rewrite !bool_decide_eq_false_2 by lia. cbn [orb]. kred.
    erewrite getbp_some by exact Hb. kred. rewrite Hw. kred. erewrite getbp_some by exact Hb. kred.
    rewrite Hnext. unfold ld. erewrite hread_some by exact Hn. kred.
    erewrite setbp_some by exact Hb. kred.
    rewrite (u32_id poolid) by (unfold NBPOOLS in *; lia).
    erewrite hwrite_some by exact Hst. kred. rewrite u32_id by lia. done.
  - apply InvQ_hp; [|by exists l|done..]. inv_frame HQ1.
  - rewrite st_spec in Hst; [injection Hst as <-; done|]. by eexists.
  - rewrite Hm. eapply bchain_frame; [exact Hch|]. intros y Hy.
    rewrite lookup_insert_ne; [done|]. by intros ->.
Qed.

(** freebuf of a buffer that carries the id of its pool, when no process waits
    for a buffer: it becomes the first free buffer. *)
Lemma freebuf_spec Q s l poolid b e x r :
  InvQ Q s → heap_ok (hp s) l → 0 ≤ poolid < nbpools (bufs s) → nbpools (bufs s) ≤ NBPOOLS →
  buftab (bufs s) !! poolid = Some b → semtab s !! bpsem b = Some e → sstate e = S_USED →
  0 ≤ scount e < INT_MAX → bchain (mem (hp s)) (bpnext b) r → x ∉ r → buf_ok s l x →
  mem (hp s) !! x = Some poolid →
  ∃ h,
    let s' := set_hp h (set_bufs (Bufpools (<[poolid := Bpentry x (bpsem b) (bpsize b)]>
                (buftab (bufs s))) (nbpools (bufs s)))
              (set_semtab (<[bpsem b := set_scount (scount e + 1) e]> (semtab s)) s)) in
    freebuf (x + 4) s = Done OK (set_intr (intr s) s') ∧ InvQ Q s' ∧ heap_ok h l ∧
    mem h = <[x := bpnext b]> (mem (hp s)) ∧ h = set_mem (mem h) (hp s) ∧
    bchain (mem h) x (x :: r).
Proof.
  intros HQ Hok Hid Hnb Hb He Hu Hcnt Hch Hxr (Hx & Hx4 & Hxf) Hw.
  pose proof (hk_max _ _ Hok) as Hmax. pose proof (hk_min _ _ Hok) as Hmin.
  destruct (st_heap_ok (hp s) l x (bpnext b) Hok Hxf Hx Hx4) as (h & Hst & Hok' & Hm1 & Hm2 & Hm).
  set (s1 := set_bufs (Bufpools (<[poolid := Bpentry x (bpsem b) (bpsize b)]>
                (buftab (bufs s))) (nbpools (bufs s))) (set_hp h (set_intr false s))).
  assert (InvQ Q s1) as HQ1.
  { apply InvQ_bufs, InvQ_hp; [by apply InvQ_intr|by exists l|done..]. }
  destruct (signal_passes Q s1 (bpsem b) e HQ1 He Hu Hcnt) as [Hsig HQ2].
  exists h. cbv zeta. split_and!; try done.
  - unfold freebuf. kred. replace (x + 4 - 4) with x by lia. rewrite u32_id by lia.
    unfold ld. erewrite hread_some by exact Hw. kred.
    rewrite s32_id by (unfold NBPOOLS in *; lia). rewrite !bool_decide_eq_false_2 by lia.
    cbn [orb]. kred. erewrite getbp_some by exact Hb. kred. erewrite hwrite_some by exact Hst. kred.
    erewrite setbp_some by exact Hb. kred. fold s1. rewrite Hsig. by kred.
  - inv_frame HQ2.
  - rewrite st_spec in Hst; [injection Hst as <-; done|]. by eexists.
  - rewrite Hm. cbn. split; [done|]. exists (bpnext b). split; [apply lookup_insert_eq|].
    eapply bchain_frame; [exact Hch|]. intros y Hy. rewrite lookup_insert_ne; [done|]. by intros ->.
Qed.
