(* ===== verification/Ports.v ===== *)
(** Ports: system/ptinit.c, ptcreate.c, ptsend.c, ptrecv.c, ptcount.c,
    ptdelete.c, ptreset.c, ptclear.c.

    A port holds a list of message nodes in heap memory, the message in a
    node's first word and the next node in its second; nodes that hold no
    message are on one free list.  The semaphores of a port count the space
    and the messages in it. *)

From S2P Require Import Prelude.
From S2P Require Import Types.
From S2P Require Import Queue.
From S2P Require Import Delta.
From S2P Require Import Heap.
From S2P Require Import Kernel.
From S2P Require Import KInv.
From S2P Require Import Sched.
From S2P Require Import Semaphore.
From S2P Require Import Clock.
From S2P Require Import Message.
From S2P Require Import Device.
From S2P Require Import Process.
From S2P Require Import Sysinit.
From S2P Require Import BufPool.

Definition isbadport (portid : Z) : bool :=
  bool_decide (portid < 0) || bool_decide (NPORTS ≤ portid).

(** Fields of a port. *)
Definition set_ptstate v p := Ptentry (ptssem p) (ptrsem p) v (ptmaxcnt p) (ptseq p) (pthead p) (pttail p).
Definition set_ptseq v p := Ptentry (ptssem p) (ptrsem p) (ptstate p) (ptmaxcnt p) v (pthead p) (pttail p).
Definition set_pthead v p := Ptentry (ptssem p) (ptrsem p) (ptstate p) (ptmaxcnt p) (ptseq p) v (pttail p).
Definition set_pttail v p := Ptentry (ptssem p) (ptrsem p) (ptstate p) (ptmaxcnt p) (ptseq p) (pthead p) v.
Definition set_ptssem v p := Ptentry v (ptrsem p) (ptstate p) (ptmaxcnt p) (ptseq p) (pthead p) (pttail p).
Definition set_ptrsem v p := Ptentry (ptssem p) v (ptstate p) (ptmaxcnt p) (ptseq p) (pthead p) (pttail p).
Definition set_ptmaxcnt v p := Ptentry (ptssem p) (ptrsem p) (ptstate p) v (ptseq p) (pthead p) (pttail p).

(** [porttab[i]] *)
Definition getpt (i : Z) : M ptentry := λ s,
  match porttab (ports s) !! i with Some p => Done p s | None => Fault end.
Definition setpt (i : Z) (f : ptentry → ptentry) : M unit := λ s,
  match porttab (ports s) !! i with
  | Some p => Done tt (set_ports (Portstate (<[i := f p]> (porttab (ports s)))
                                            (ptfree (ports s)) (ptnextid (ports s))) s)
  | None => Fault
  end.
Definition set_ptfree (v : Z) (s : kst) : kst :=
  set_ports (Portstate (porttab (ports s)) v (ptnextid (ports s))) s.
Definition set_ptnextid (v : Z) (s : kst) : kst :=
  set_ports (Portstate (porttab (ports s)) (ptfree (ports s)) v) s.

(** ** ptinit.c *)
Fixpoint pt_free_loop (n : nat) (i : Z) : M unit :=
  match n with
  | O => ret tt
  | S n => setpt i (λ p, set_ptseq 0 (set_ptstate PT_FREE p));; pt_free_loop n (i + 1)
  end.

(** [for (curr=next=ptfree; --maxmsgs > 0; curr=next) curr->ptnext = ++next;] *)
Fixpoint pt_link_loop (n : nat) (curr : Z) : M Z :=
  match n with
  | O => ret curr
  | S n =>
    let next := u32 (curr + 8) in
    hwrite (st (u32 (curr + 4)) next);;
    pt_link_loop n next
  end.

Definition ptinit (maxmsgs : Z) : M Z :=
  free ← hop (getmem (u32 (maxmsgs * 8)));
  modify (set_ptfree free);;
  (if bool_decide (free = SYSERR_PTR) then panic else ret tt);;
  pt_free_loop (Z.to_nat NPORTS) 0;;
  modify (set_ptnextid 0);;
  curr ← pt_link_loop (Z.to_nat (maxmsgs - 1)) free;
  hwrite (st (u32 (curr + 4)) 0);;
  ret OK.

(** ** ptcreate.c *)
Fixpoint ptcreate_loop (n : nat) (count : Z) : M Z :=
  match n with
  | O => ret SYSERR
  | S n =>
    ps ← gets ports;
    let ptnum := ptnextid ps in
    modify (set_ptnextid (if bool_decide (NPORTS ≤ ptnum + 1) then 0 else ptnum + 1));;
    ptptr ← getpt ptnum;
    if bool_decide (ptstate ptptr = PT_FREE) then
      setpt ptnum (set_ptstate PT_ALLOC);;
      ssem ← semcreate count;
      setpt ptnum (set_ptssem ssem);;
      rsem ← semcreate 0;
      setpt ptnum (set_ptrsem rsem);;
      setpt ptnum (λ p, set_pthead 0 (set_pttail 0 p));;
      setpt ptnum (λ p, set_ptseq (s32 (ptseq p + 1)) p);;
      setpt ptnum (set_ptmaxcnt (u16 count));;
      ret ptnum
    else ptcreate_loop n count
  end.

Definition ptcreate (count : Z) : M Z :=
  mask ← disable;
  if bool_decide (count < 0) then restore mask;; ret SYSERR
  else
    r ← ptcreate_loop (Z.to_nat NPORTS) count;
    restore mask;;
    ret r.

(** ** The check that opens the other calls *)
Definition port_alloc (portid : Z) : M bool :=
  if isbadport portid then ret false
  else p ← getpt portid; ret (bool_decide (ptstate p = PT_ALLOC)).

(** [wait(sem) == SYSERR || ptstate != PT_ALLOC || ptseq != seq] *)
Definition port_wait (portid sem seq : Z) : M bool :=
  r ← wait sem;
  if bool_decide (r = SYSERR) then ret false
  else
    p ← getpt portid;
    ret (bool_decide (ptstate p = PT_ALLOC) && bool_decide (ptseq p = seq)).

(** ** ptsend.c *)
Definition ptsend (portid msg : Z) : M Z :=
  mask ← disable;
  ok ← port_alloc portid;
  if negb ok then restore mask;; ret SYSERR
  else
    ptptr ← getpt portid;
    ok ← port_wait portid (ptssem ptptr) (ptseq ptptr);
    if negb ok then restore mask;; ret SYSERR
    else
      ps ← gets ports;
      (if bool_decide (ptfree ps = 0) then panic else ret tt);;
      let msgnode := ptfree ps in
      next ← hread (ld (u32 (msgnode + 4)));
      modify (set_ptfree next);;
      hwrite (st (u32 (msgnode + 4)) 0);;
      hwrite (st msgnode msg);;
      ptptr ← getpt portid;
      let tailnode := pttail ptptr in
      (if bool_decide (tailnode = 0) then
         setpt portid (λ p, set_pttail msgnode (set_pthead msgnode p))
       else
         hwrite (st (u32 (tailnode + 4)) msgnode);;
         setpt portid (set_pttail msgnode));;
      _ ← signal (ptrsem ptptr);
      restore mask;;
      ret OK.

(** ** ptrecv.c: an error is an unsigned result *)
Definition ptrecv (portid : Z) : M Z :=
  mask ← disable;
  ok ← port_alloc portid;
  if negb ok then restore mask;; ret (u32 SYSERR)
  else
    ptptr ← getpt portid;
    ok ← port_wait portid (ptrsem ptptr) (ptseq ptptr);
    if negb ok then restore mask;; ret (u32 SYSERR)
    else
      ptptr ← getpt portid;
      let msgnode := pthead ptptr in
      msg ← hread (ld msgnode);
      (if bool_decide (pthead ptptr = pttail ptptr)
       then setpt portid (λ p, set_pttail 0 (set_pthead 0 p))
       else
         next ← hread (ld (u32 (msgnode + 4)));
         setpt portid (set_pthead next));;
      ps ← gets ports;
      hwrite (st (u32 (msgnode + 4)) (ptfree ps));;
      modify (set_ptfree msgnode);;
      _ ← signal (ptssem ptptr);
      restore mask;;
      ret msg.

(** ** ptcount.c *)
Definition ptcount (portid : Z) : M Z :=
  mask ← disable;
  ok ← port_alloc portid;
  if negb ok then restore mask;; ret SYSERR
  else
    ptptr ← getpt portid;
    count ← semcount (ptrsem ptptr);
    count ← (if bool_decide (0 ≤ count) then
               sndcnt ← semcount (ptssem ptptr);
               ret (if bool_decide (sndcnt < 0) then s32 (count + - sndcnt) else count)
             else ret count);
    restore mask;;
    ret count.

(** ** ptclear.c: [dispose] is called with every message in the port. *)
Fixpoint pt_dispose_loop (fuel : nat) (dispose : Z → M Z) (walk : Z) : M unit :=
  match fuel with
  | O => fault
  | S fuel =>
    if bool_decide (walk = 0) then ret tt
    else
      msg ← hread (ld walk);
      _ ← dispose (s32 msg);
      next ← hread (ld (u32 (walk + 4)));
      pt_dispose_loop fuel dispose next
  end.

Definition ptclear (portid : Z) (newstate : ptstate_t) (dispose : Z → M Z) : M unit :=
  setpt portid (set_ptstate PT_LIMBO);;
  setpt portid (λ p, set_ptseq (s32 (ptseq p + 1)) p);;
  ptptr ← getpt portid;
  let walk := pthead ptptr in
  (if bool_decide (walk ≠ 0) then
     h ← gets hp;
     (* a message list has no more nodes than the memory has words *)
     pt_dispose_loop (S (size (mem h))) dispose walk;;
     ptptr ← getpt portid;
     ps ← gets ports;
     hwrite (st (u32 (pttail ptptr + 4)) (ptfree ps));;
     modify (set_ptfree (pthead ptptr))
   else ret tt);;
  (if bool_decide (newstate = PT_ALLOC) then
     setpt portid (λ p, set_pthead 0 (set_pttail 0 p));;
     ptptr ← getpt portid;
     _ ← semreset (ptssem ptptr) (ptmaxcnt ptptr);
     ptptr ← getpt portid;
     _ ← semreset (ptrsem ptptr) 0;
     ret tt
   else
     ptptr ← getpt portid;
     _ ← semdelete (ptssem ptptr);
     ptptr ← getpt portid;
     _ ← semdelete (ptrsem ptptr);
     ret tt);;
  setpt portid (set_ptstate newstate).

(** ** ptdelete.c, ptreset.c *)
Definition ptdelete (portid : Z) (disp : Z → M Z) : M Z :=
  mask ← disable;
  ok ← port_alloc portid;
  if negb ok then restore mask;; ret SYSERR
  else
    ptclear portid PT_FREE disp;;
    modify (set_ptnextid portid);;
    restore mask;;
    ret OK.

Definition ptreset (portid : Z) (disp : Z → M Z) : M Z :=
  mask ← disable;
  ok ← port_alloc portid;
  if negb ok then restore mask;; ret SYSERR
  else
    ptclear portid PT_ALLOC disp;;
    restore mask;;
    ret OK.

(** * Specifications *)

(** The messages of a port: nodes with their messages, first to last. *)
Fixpoint pchain (m : gmap Z Z) (a : Z) (q : list (Z * Z)) : Prop :=
  match q with
  | [] => a = 0
  | (n, v) :: r => a = n ∧ m !! n = Some v ∧ ∃ a', m !! (n + 4) = Some a' ∧ pchain m a' r
  end.

(** The free nodes. *)
Fixpoint fchain (m : gmap Z Z) (a : Z) (l : list Z) : Prop :=
  match l with
  | [] => a = 0
  | n :: r => a = n ∧ ∃ a', m !! (n + 4) = Some a' ∧ fchain m a' r
  end.

(** A node: two allocated words of the heap. *)
Definition node_ok (h : heap) (l : list (Z * Z)) (n : Z) : Prop :=
  minheap h ≤ n ∧ n + 8 ≤ maxheap h ∧ n mod 8 = 0 ∧ ¬ free_at l n ∧ ¬ free_at l (n + 4).

Record port_view (s : kst) (l : list (Z * Z)) (id : Z) (p : ptentry)
    (q : list (Z * Z)) (fl : list Z) : Prop := PortView {
  pv_id : 0 ≤ id < NPORTS;
  pv_entry : porttab (ports s) !! id = Some p;
  pv_alloc : ptstate p = PT_ALLOC;
  pv_msgs : pchain (mem (hp s)) (pthead p) q;
  pv_tail : pttail p = default 0 (fst <$> last q);
  pv_free : fchain (mem (hp s)) (ptfree (ports s)) fl;
  pv_nodup : NoDup (q.*1 ++ fl);
  pv_nodes : ∀ n, n ∈ q.*1 ++ fl → node_ok (hp s) l n }.

Lemma getpt_some i s p : porttab (ports s) !! i = Some p → getpt i s = Done p s.
Proof. unfold getpt. by intros ->. Qed.

Lemma setpt_some i f s p :
  porttab (ports s) !! i = Some p →
  setpt i f s = Done tt (set_ports (Portstate (<[i := f p]> (porttab (ports s)))
    (ptfree (ports s)) (ptnextid (ports s))) s).
Proof. unfold setpt. by intros ->. Qed.

Lemma node_apart n n' : n mod 8 = 0 → n' mod 8 = 0 → n ≠ n' + 4 ∧ n + 4 ≠ n'.
Proof. intros. split; intros ?; Z.to_euclidean_division_equations; lia. Qed.

Lemma node_store h l n v (k : Z) :
  heap_ok h l → node_ok h l n → k = 0 ∨ k = 4 →
  ∃ h', st (n + k) v h = Some h' ∧ heap_ok h' l ∧ minheap h' = minheap h ∧
    maxheap h' = maxheap h ∧ mem h' = <[n + k := v]> (mem h) ∧ (∀ n', node_ok h l n' → node_ok h' l n').
Proof.
  intros Hok (Hlo & Hhi & H8 & Hf & Hf4) Hk.
  destruct (st_heap_ok h l (n + k) v Hok) as (h' & Hst & Hok' & Hmin & Hmax & Hm).
  - destruct Hk as [-> | ->]; [by rewrite Z.add_0_r|done].
  - lia.
  - destruct Hk as [-> | ->]; Z.to_euclidean_division_equations; lia.
  - exists h'. split_and!; try done. intros n' (? & ? & ? & ? & ?).
    unfold node_ok. rewrite Hmin, Hmax. done.
Qed.

Lemma pchain_frame m m' a q :
  pchain m a q →
  (∀ n, n ∈ q.*1 → m' !! n = m !! n ∧ m' !! (n + 4) = m !! (n + 4)) → pchain m' a q.
Proof.
  revert a. induction q as [|[n v] q IH]; intros a; cbn; [done|].
  intros (-> & Hv & a' & Ha & Hc) He. destruct (He n) as [E1 E2]; [by left|].
  split; [done|]. rewrite E1, E2. split; [done|]. exists a'. split; [done|].
  apply IH; [done|]. intros. apply He. by right.
Qed.

Lemma fchain_frame m m' a l :
  fchain m a l → (∀ n, n ∈ l → m' !! (n + 4) = m !! (n + 4)) → fchain m' a l.
Proof.
  revert a. induction l as [|n l IH]; intros a; cbn; [done|].
  intros (-> & a' & Ha & Hc) He. split; [done|]. rewrite He by by left.
  exists a'. split; [done|]. apply IH; [done|]. intros. apply He. by right.
Qed.

(** Appending a node to a message list: the node is filled in and the last
    node is pointed at it. *)
Lemma pchain_snoc m m' a q t v0 n v :
  pchain m a (q ++ [(t, v0)]) → NoDup (q.*1 ++ [t]) →
  m' !! n = Some v → m' !! (n + 4) = Some 0 →
  (∀ x, x ∈ q.*1 ++ [t] → m' !! x = m !! x) →
  (∀ x, x ∈ q.*1 → m' !! (x + 4) = m !! (x + 4)) →
  m' !! (t + 4) = Some n →
  pchain m' a ((q ++ [(t, v0)]) ++ [(n, v)]).
Proof.
  intros Hc Hnd Hn Hn4 Hx Hx4 Ht. revert a Hc.
  induction q as [|[y w] q IH]; intros a; cbn.
  - intros (-> & Hv & a' & Ha & ->). rewrite Hx by (by left).
    do 2 (split; [done|]). exists n. split; [done|]. split; [done|]. split; [done|]. by exists 0.
  - cbn in Hnd, Hx, Hx4. apply NoDup_cons in Hnd as [_ Hnd].
    intros (-> & Hv & a' & Ha & Hc). rewrite Hx by (by left). rewrite Hx4 by (by left).
    do 2 (split; [done|]). exists a'. split; [done|]. apply IH; [done|..|done].
    + intros. apply Hx. by right.
    + intros. apply Hx4. by right.
Qed.

(** The heap and port parts of the state do not matter to the invariant. *)
Lemma InvQ_ports Q s ps : InvQ Q s → InvQ Q (set_ports ps s).
Proof. intros H. inv_frame H. Qed.

Lemma InvQ_store Q s h l :
  InvQ Q s → heap_ok h l → minheap h = minheap (hp s) → maxheap h = maxheap (hp s) →
  InvQ Q (set_hp h s).
Proof. intros HQ Hok ? ?. apply InvQ_hp; [done|by exists l|done..]. Qed.

Lemma port_alloc_ok s id p :
  0 ≤ id < NPORTS → porttab (ports s) !! id = Some p → ptstate p = PT_ALLOC →
  port_alloc id s = Done true s.
Proof.
  intros Hid Hp Ha. unfold port_alloc, isbadport. rewrite !bool_decide_eq_false_2 by lia.
  cbn [orb]. kred. erewrite getpt_some by exact Hp. kred. by rewrite bool_decide_eq_true_2.
Qed.

(** The wait of ptsend and ptrecv when the semaphore's count is positive. *)
Lemma port_wait_ok Q s id p sem e :
  InvQ Q s → porttab (ports s) !! id = Some p → ptstate p = PT_ALLOC →
  semtab s !! sem = Some e → sstate e = S_USED → 0 < scount e →
  let s' := set_semtab (<[sem := set_scount (scount e - 1) e]> (semtab s)) s in
  port_wait id sem (ptseq p) s = Done true (set_intr (intr s) s') ∧ InvQ Q s'.
Proof.
  intros HQ Hp Ha He Hu Hcnt s'. destruct (wait_passes Q s sem e HQ He Hu Hcnt) as [Hw HQ'].
  split; [|done]. unfold port_wait. kred. rewrite Hw. kred. rewrite bool_decide_eq_false_2 by done.
  kred. erewrite getpt_some by exact Hp. kred. rewrite !bool_decide_eq_true_2 by done. done.
Qed.

(** The store operations of ptsend on the nodes: take the free node [f], fill
    it, and append it to the list whose last node is [tail] (0 if none). *)
Definition send_mem (m : gmap Z Z) (f msg tail : Z) : gmap Z Z :=
  let m := <[f := msg]> (<[f + 4 := 0]> m) in
  if bool_decide (tail = 0) then m else <[tail + 4 := f]> m.

Lemma send_mem_views m a ta q f fl msg :
  pchain m a q → ta = default 0 (fst <$> last q) → fchain m f (f :: fl) →
  NoDup (q.*1 ++ f :: fl) → (∀ n, n ∈ q.*1 ++ f :: fl → n mod 8 = 0 ∧ 0 < n) →
  let m' := send_mem m f msg ta in
  pchain m' (if bool_decide (ta = 0) then f else a) (q ++ [(f, msg)]) ∧
  (∀ a', m !! (f + 4) = Some a' → fchain m a' fl → fchain m' a' fl).
Proof.
  intros Hq Hta Hf Hnd Hno m'.
  assert (f mod 8 = 0 ∧ 0 < f) as [Hf8 Hf0] by (apply Hno; set_solver).
  apply NoDup_app_swap_mid in Hnd as [Hfn Hnd'].
  destruct (decide (q = [])) as [->|Hne].
  - cbn in Hta. subst ta. unfold m', send_mem. rewrite bool_decide_eq_true_2 by done. split.
    + cbn. split; [done|]. rewrite lookup_insert_eq. split; [done|]. exists 0.
      rewrite lookup_insert_ne by lia. by rewrite lookup_insert_eq.
    + intros a' _ Hc. eapply fchain_frame; [exact Hc|]. intros n Hn.
      destruct (Hno n ltac:(set_solver)) as [Hn8 _].
      pose proof (node_apart n f Hn8 Hf8). rewrite !lookup_insert_ne; [done| |lia].
      intros E. assert (f = n) by lia. set_solver.
  - destruct (exists_last Hne) as (r & [t v0] & ->). rewrite last_snoc in Hta. cbn in Hta. subst ta.
    assert (t mod 8 = 0 ∧ 0 < t) as [Ht8 Ht0] by (apply Hno; rewrite fmap_app; set_solver).
    unfold m', send_mem. rewrite !(bool_decide_eq_false_2 (t = 0)) by lia.
    assert (t ≠ f) as Htf by (intros ->; apply Hfn; rewrite fmap_app; set_solver).
    pose proof (node_apart t f Ht8 Hf8) as [A1 A2].
    assert (∀ x, x ∈ r.*1 ++ t :: fl → x mod 8 = 0 ∧ x ≠ f) as Hxs.
    { intros x Hx. split; [apply Hno; rewrite fmap_app; set_solver|].
      intros ->. apply Hfn. rewrite fmap_app. set_solver. }
    rewrite fmap_app in Hnd'. cbn in Hnd'. rewrite <- app_assoc in Hnd'. cbn in Hnd'.
    split.
    + eapply pchain_snoc; [exact Hq| | | | | |].
      * rewrite (app_assoc r.*1 [t] fl) in Hnd'. by apply NoDup_app in Hnd' as (? & _).
      * rewrite lookup_insert_ne by lia. by rewrite lookup_insert_eq.
      * rewrite lookup_insert_ne by lia. rewrite lookup_insert_ne by lia. by rewrite lookup_insert_eq.
      * intros x Hx. destruct (Hxs x ltac:(set_solver)) as [Hx8 Hxf].
        pose proof (node_apart x t Hx8 Ht8). pose proof (node_apart x f Hx8 Hf8).
        rewrite !lookup_insert_ne by lia. done.
      * intros x Hx. destruct (Hxs x ltac:(set_solver)) as [Hx8 Hxf].
        pose proof (node_apart x t Hx8 Ht8). pose proof (node_apart x f Hx8 Hf8).
        assert (x ≠ t). { intros ->. apply NoDup_app_swap_mid in Hnd' as [Hnt _]. set_solver. }
        rewrite !lookup_insert_ne by lia. done.
      * by rewrite lookup_insert_eq.
    + intros a' _ Hc. eapply fchain_frame; [exact Hc|]. intros x Hx.
      destruct (Hxs x ltac:(set_solver)) as [Hx8 Hxf].
      pose proof (node_apart x t Hx8 Ht8). pose proof (node_apart x f Hx8 Hf8).
      assert (x ≠ t). { intros ->. apply NoDup_app_swap_mid in Hnd' as [Hnt _]. set_solver. }
      rewrite !lookup_insert_ne by lia. done.
Qed.

Lemma node_pos h l n : heap_ok h l → node_ok h l n → 8 ≤ n ∧ n + 8 < 4294967296.
Proof.
  intros Hok (Hlo & Hhi & H8 & _). pose proof (hk_min _ _ Hok) as [? ?].
  pose proof (hk_max _ _ Hok) as (? & ? & _). Z.to_euclidean_division_equations; lia.
Qed.

(** The heap operations of ptsend. *)
Lemma send_stores h l f msg tail :
  heap_ok h l → node_ok h l f → tail = 0 ∨ node_ok h l tail →
  ∃ h1 h2 h3, st (f + 4) 0 h = Some h1 ∧ st f msg h1 = Some h2 ∧
    (if bool_decide (tail = 0) then h3 = h2 else st (tail + 4) f h2 = Some h3) ∧
    heap_ok h3 l ∧ minheap h3 = minheap h ∧ maxheap h3 = maxheap h ∧
    mem h3 = send_mem (mem h) f msg tail ∧ (∀ n, node_ok h l n → node_ok h3 l n).
Proof.
  intros Hok Hf Ht.
  destruct (node_store h l f 0 4 Hok Hf) as (h1 & Hs1 & Hok1 & Hmin1 & Hmax1 & Hm1 & Hn1); [by right|].
  destruct (node_store h1 l f msg 0 Hok1 (Hn1 _ Hf)) as (h2 & Hs2 & Hok2 & Hmin2 & Hmax2 & Hm2 & Hn2);
    [by left|]. rewrite Z.add_0_r in Hs2, Hm2.
  destruct (decide (tail = 0)) as [Hz|Hz].
  - exists h1, h2, h2. rewrite bool_decide_eq_true_2 by done. split_and!; try done; try congruence.
    + unfold send_mem. rewrite bool_decide_eq_true_2 by done. by rewrite Hm2, Hm1.
    + auto.
  - destruct Ht as [|Ht]; [done|].
    destruct (node_store h2 l tail f 4 Hok2 (Hn2 _ (Hn1 _ Ht))) as (h3 & Hs3 & Hok3 & Hmin3 & Hmax3 & Hm3 & Hn3);
      [by right|].
    exists h1, h2, h3. rewrite bool_decide_eq_false_2 by done. split_and!; try done; try congruence.
    + unfold send_mem. rewrite bool_decide_eq_false_2 by done. by rewrite Hm3, Hm2, Hm1.
    + auto.
Qed.

(** The tail pointer of a port is null exactly when the port is empty. *)
Lemma tail_cases (h : heap) l (q : list (Z * Z)) :
  heap_ok h l → (∀ n, n ∈ q.*1 → node_ok h l n) →
  default 0 (fst <$> last q) = 0 ∧ q = [] ∨
  node_ok h l (default 0 (fst <$> last q)) ∧ default 0 (fst <$> last q) ≠ 0 ∧ q ≠ [].
Proof.
  intros Hok Hn. destruct (decide (q = [])) as [->|Hne]; [by left|]. right.
  destruct (exists_last Hne) as (r & [t v] & ->). rewrite last_snoc. cbn.
  assert (node_ok h l t) as Ht by (apply Hn; rewrite fmap_app; set_solver).
  pose proof (node_pos _ _ _ Hok Ht). split; [done|]. split; [lia|by destruct r].
Qed.

(** ptsend to a port with room and no waiting receiver: the message is
    appended. *)
Lemma ptsend_spec Q s l id p q f fl msg e1 e2 :
  InvQ Q s → heap_ok (hp s) l → port_view s l id p q (f :: fl) →
  semtab s !! ptssem p = Some e1 → sstate e1 = S_USED → 0 < scount e1 →
  semtab s !! ptrsem p = Some e2 → sstate e2 = S_USED → 0 ≤ scount e2 < INT_MAX →
  ptssem p ≠ ptrsem p →
  ∃ s' p', ptsend id msg s = Done OK s' ∧ InvQ Q s' ∧ heap_ok (hp s') l ∧
    port_view s' l id p' (q ++ [(f, msg)]) fl ∧
    ptssem p' = ptssem p ∧ ptrsem p' = ptrsem p ∧ ptseq p' = ptseq p ∧ intr s' = intr s ∧
    semtab s' = <[ptrsem p := set_scount (scount e2 + 1) e2]>
                  (<[ptssem p := set_scount (scount e1 - 1) e1]> (semtab s)).
Proof.
  intros HQ Hok [Hid Hp Ha Hq Ht Hf Hnd Hn] He1 Hu1 Hc1 He2 Hu2 Hc2 Hne.
  assert (node_ok (hp s) l f) as Hnf by (apply Hn; set_solver).
  pose proof (node_pos _ _ _ Hok Hnf) as Hpf.
  destruct Hf as (Hff & a' & Ha' & Hfl).
  assert (∀ n, n ∈ q.*1 → node_ok (hp s) l n) as Hnq by (intros; apply Hn; set_solver).
  pose proof (tail_cases _ _ q Hok Hnq) as Htail. rewrite <- Ht in Htail.
  destruct (send_stores (hp s) l f msg (pttail p) Hok Hnf) as
    (h1 & h2 & h3 & Hs1 & Hs2 & Hs3 & Hok3 & Hmin3 & Hmax3 & Hm3 & Hn3); [tauto|].
  destruct (send_mem_views (mem (hp s)) (pthead p) (pttail p) q f fl msg Hq Ht) as [Hv1 Hv2].
  { split; [done|]. by exists a'. }
  { done. }
  { intros n Hin. pose proof (Hn n Hin) as Hno. pose proof (node_pos _ _ _ Hok Hno).
    split; [apply Hno|lia]. }
  set (hd := if bool_decide (pttail p = 0) then f else pthead p) in *.
  set (p' := set_pttail f (set_pthead hd p)).
  set (s1 := set_semtab (<[ptssem p := set_scount (scount e1 - 1) e1]> (semtab s)) (set_intr false s)).
  set (s2 := set_ports (Portstate (<[id := p']> (porttab (ports s))) a' (ptnextid (ports s)))
    (set_hp h3 s1)).
  destruct (port_wait_ok Q (set_intr false s) id p (ptssem p) e1) as [Hw HQ1]; try done.
  { by apply InvQ_intr. }
  assert (InvQ Q s2) as HQ2 by (by apply InvQ_ports, (InvQ_store Q s1 h3 l)).
  destruct (signal_passes Q s2 (ptrsem p) e2) as [Hsig HQ3]; try done.
  { cbn. by rewrite lookup_insert_ne. }
  eexists _, p'. split; [|split; [exact (InvQ_intr (intr s) _ _ HQ3)|]].
  - unfold ptsend. kred. erewrite port_alloc_ok by done. kred. cbn [negb].
    kred. erewrite getpt_some by exact Hp. kred. rewrite Hw. kred. cbn [negb]. kred.
    rewrite bool_decide_eq_false_2 by (rewrite Hff; lia). kred. rewrite Hff.
    rewrite u32_id by lia. unfold ld. erewrite hread_some by exact Ha'. kred.
    erewrite hwrite_some by exact Hs1. kred. erewrite hwrite_some by exact Hs2. kred.
    erewrite getpt_some by exact Hp. kred.
    destruct (decide (pttail p = 0)) as [Hz|Hz].
    + rewrite bool_decide_eq_true_2 in Hs3 by done. rewrite bool_decide_eq_true_2 by done.
      erewrite setpt_some by exact Hp. kred.
      assert (set_pttail f (set_pthead f p) = p') as ->.
      { unfold p', hd. by rewrite bool_decide_eq_true_2. }
      subst h3. match goal with |- context [signal _ ?x] => change x with s2 end.
      rewrite Hsig. by kred.
    + rewrite bool_decide_eq_false_2 in Hs3 by done. rewrite bool_decide_eq_false_2 by done.
      destruct Htail as [[? _]|(Hnt & _)]; [done|]. pose proof (node_pos _ _ _ Hok Hnt).
      rewrite u32_id by lia. kred. erewrite hwrite_some by exact Hs3. kred.
      erewrite setpt_some by exact Hp. kred.
      assert (set_pttail f p = p') as ->.
      { unfold p', hd. rewrite bool_decide_eq_false_2 by done. by destruct p. }
      match goal with |- context [signal _ ?x] => change x with s2 end.
      rewrite Hsig. by kred.
  - cbn. split; [done|]. split; [|done]. split; cbn.
    + done.
    + by rewrite lookup_insert_eq.
    + done.
    + by rewrite Hm3.
    + by rewrite last_snoc.
    + rewrite Hm3. by apply Hv2.
    + rewrite fmap_app, <- app_assoc. done.
    + intros n Hin. apply Hn3, Hn. rewrite fmap_app in Hin. set_solver.
Qed.

(** The first node of a port is its last one exactly when there is no other. *)
Lemma head_is_tail n v (r : list (Z * Z)) :
  NoDup (n :: r.*1) → n = default 0 (fst <$> last ((n, v) :: r)) ↔ r = [].
Proof.
  intros [Hn _]%NoDup_cons. split; [|by intros ->].
  intros E. destruct (decide (r = [])) as [|Hne]; [done|].
  destruct (exists_last Hne) as (r' & [t w] & ->). rewrite app_comm_cons, last_snoc in E. cbn in E.
  subst. exfalso. apply Hn. rewrite fmap_app. set_solver.
Qed.

(** ptrecv from a port with a message and no waiting sender: the first message
    comes out and its node becomes the first free one. *)
Lemma ptrecv_spec Q s l id p n v r fl e1 e2 :
  InvQ Q s → heap_ok (hp s) l → port_view s l id p ((n, v) :: r) fl →
  semtab s !! ptrsem p = Some e2 → sstate e2 = S_USED → 0 < scount e2 →
  semtab s !! ptssem p = Some e1 → sstate e1 = S_USED → 0 ≤ scount e1 < INT_MAX →
  ptssem p ≠ ptrsem p →
  ∃ s' p', ptrecv id s = Done v s' ∧ InvQ Q s' ∧ heap_ok (hp s') l ∧
    port_view s' l id p' r (n :: fl) ∧
    ptssem p' = ptssem p ∧ ptrsem p' = ptrsem p ∧ ptseq p' = ptseq p ∧ intr s' = intr s ∧
    semtab s' = <[ptssem p := set_scount (scount e1 + 1) e1]>
                  (<[ptrsem p := set_scount (scount e2 - 1) e2]> (semtab s)).
Proof.
  intros HQ Hok [Hid Hp Ha Hq Ht Hf Hnd Hn] He2 Hu2 Hc2 He1 Hu1 Hc1 Hne.
  assert (node_ok (hp s) l n) as Hnn by (apply Hn; set_solver).
  pose proof (node_pos _ _ _ Hok Hnn) as Hpn.
  destruct Hq as (Hhd & Hv & a' & Ha' & Hq).
  destruct (node_store (hp s) l n (ptfree (ports s)) 4 Hok Hnn) as (h & Hst & Hok' & Hmin & Hmax & Hm & Hn');
    [by right|].
  cbn in Hnd. pose proof Hnd as [Hnr Hnd']%NoDup_cons.
  assert (NoDup (n :: r.*1)) as Hndr.
  { rewrite app_comm_cons in Hnd. by apply NoDup_app in Hnd as (? & _). }
  assert (∀ x, x ∈ r.*1 ++ fl → x ≠ n ∧ x mod 8 = 0) as Hxs.
  { intros x Hx. split; [by intros ->|]. apply (Hn x). cbn. by right. }
  set (p' := if bool_decide (r = []) then set_pttail 0 (set_pthead 0 p) else set_pthead a' p).
  set (s1 := set_semtab (<[ptrsem p := set_scount (scount e2 - 1) e2]> (semtab s)) (set_intr false s)).
  set (s2 := set_ports (Portstate (<[id := p']> (porttab (ports s))) n (ptnextid (ports s)))
    (set_hp h s1)).
  assert (ptssem p' = ptssem p ∧ ptrsem p' = ptrsem p ∧ ptseq p' = ptseq p ∧ ptstate p' = ptstate p) as Hp'.
  { unfold p'. by case_bool_decide. }
  destruct (port_wait_ok Q (set_intr false s) id p (ptrsem p) e2) as [Hw HQ1]; try done.
  { by apply InvQ_intr. }
  assert (InvQ Q s2) as HQ2 by (by apply InvQ_ports, (InvQ_store Q s1 h l)).
  destruct (signal_passes Q s2 (ptssem p) e1) as [Hsig HQ3]; try done.
  { cbn. by rewrite lookup_insert_ne. }
  eexists _, p'. split; [|split; [exact (InvQ_intr (intr s) _ _ HQ3)|]].
  - unfold ptrecv. kred. erewrite port_alloc_ok by done. kred. cbn [negb].
    kred. erewrite getpt_some by exact Hp. kred. rewrite Hw. kred. cbn [negb]. kred.
    erewrite getpt_some by exact Hp. kred. rewrite Hhd. unfold ld. erewrite hread_some by exact Hv. kred.
    rewrite u32_id by lia.
    destruct (decide (r = [])) as [->|Hr].
    + rewrite bool_decide_eq_true_2 by (rewrite Ht; done).
      erewrite setpt_some by exact Hp. kred. erewrite hwrite_some by exact Hst. kred.
      match goal with |- context [signal _ ?x] => change x with s2 end. rewrite Hsig. by kred.
    + rewrite bool_decide_eq_false_2.
      2: { rewrite Ht. intros E. by apply (head_is_tail n v r Hndr) in E. }
      kred. erewrite hread_some by exact Ha'. kred.
      erewrite setpt_some by exact Hp. kred. erewrite hwrite_some by exact Hst. kred.
      assert (set_pthead a' p = p') as Ep by (unfold p'; by rewrite bool_decide_eq_false_2).
      match goal with |- context [signal _ ?x] => change x with
        (set_ports (Portstate (<[id := set_pthead a' p]> (porttab (ports s))) n (ptnextid (ports s)))
          (set_hp h s1)) end.
      rewrite Ep. fold s2. rewrite Hsig. by kred.
  - split; [done|]. split; [|destruct Hp' as (? & ? & ? & ?); done]. split; cbn.
    + done.
    + by rewrite lookup_insert_eq.
    + destruct Hp' as (_ & _ & _ & ->). done.
    + rewrite Hm. assert (pchain (mem (hp s)) (pthead p') r) as Hq'.
      { unfold p'. case_bool_decide as Hr; [by rewrite Hr|done]. }
      eapply pchain_frame; [exact Hq'|]. intros x Hx.
      destruct (Hxs x ltac:(set_solver)) as [Hxn Hx8].
      pose proof (node_apart x n Hx8 (proj1 (proj2 (proj2 Hnn)))).
      rewrite !lookup_insert_ne by lia. done.
    + unfold p'. case_bool_decide as Hr; [by rewrite Hr|]. cbn. rewrite Ht.
      destruct (exists_last Hr) as (r' & [t w] & ->). by rewrite app_comm_cons, !last_snoc.
    + rewrite Hm. split; [done|]. exists (ptfree (ports s)). split; [by rewrite lookup_insert_eq|].
      eapply fchain_frame; [exact Hf|]. intros x Hx. destruct (Hxs x ltac:(set_solver)) as [Hxn Hx8].
      pose proof (node_apart x n Hx8 (proj1 (proj2 (proj2 Hnn)))).
      rewrite lookup_insert_ne by lia. done.
    + apply NoDup_app_swap_mid. done.
    + intros x Hx. apply Hn', Hn. cbn. set_solver.
Qed.
