(* ===== verification/Packet.v ===== *)
(** Packets: the fields of [struct netpacket] and [struct arppacket] (include/net.h,
    include/arp.h) in memory and in a local variable, the byte-order macros, and the
    conversions of header fields (eth_hton, arp_ntoh, ip_ntoh, udp_ntoh, icmp_ntoh
    and their inverses). *)

From S2P Require Import Prelude Types Heap ByteMem Words NetTypes DevTypes Kernel.

(** ** Fields, as offsets *)
Definition net_ethdst : nat := 0.
Definition net_ethsrc : nat := 6.
Definition net_ethtype : nat := 12.
Definition net_ipvh : nat := 14.
Definition net_iptos : nat := 15.
Definition net_iplen : nat := 16.
Definition net_ipid : nat := 18.
Definition net_ipfrag : nat := 20.
Definition net_ipttl : nat := 22.
Definition net_ipproto : nat := 23.
Definition net_ipcksum : nat := 24.
Definition net_ipsrc : nat := 26.
Definition net_ipdst : nat := 30.
Definition net_udpsport : nat := 34.
Definition net_udpdport : nat := 36.
Definition net_udplen : nat := 38.
Definition net_udpcksum : nat := 40.
Definition net_udpdata : nat := 42.
Definition net_ictype : nat := 34.
Definition net_iccode : nat := 35.
Definition net_iccksum : nat := 36.
Definition net_icident : nat := 38.
Definition net_icseq : nat := 40.
Definition net_icdata : nat := 42.
Definition arp_htype : nat := 14.
Definition arp_ptype : nat := 16.
Definition arp_hlen : nat := 18.
Definition arp_plen : nat := 19.
Definition arp_op : nat := 20.
Definition arp_sndha : nat := 22.
Definition arp_sndpa : nat := 28.
Definition arp_tarha : nat := 32.
Definition arp_tarpa : nat := 38.
(** [sizeof(struct arppacket)] *)
Definition ARPLEN : nat := 42.

(** ** Integers of a list of bytes, in the processor's (little-endian) order *)
Fixpoint le_val (l : list Z) : Z := match l with [] => 0 | b :: l => b + 256 * le_val l end.
Definition get8 (o : nat) (l : list Z) : Z := le_val (slice o 1 l).
Definition get16 (o : nat) (l : list Z) : Z := le_val (slice o 2 l).
Definition get32 (o : nat) (l : list Z) : Z := le_val (slice o 4 l).
Definition put8 (o : nat) (v : Z) (l : list Z) : list Z := splice o [u8 v] l.
Definition put16 (o : nat) (v : Z) (l : list Z) : list Z := splice o (le16 v) l.
Definition put32 (o : nat) (v : Z) (l : list Z) : list Z := splice o (le32 v) l.

(** ** The same in memory *)
Fixpoint ldbs (n : nat) (a : Z) (h : heap) : option (list Z) :=
  match n with
  | O => Some []
  | S n => b ← ldb a h; l ← ldbs n (a + 1) h; Some (b :: l)
  end.
Definition pkbytes (a : Z) (o n : nat) : M (list Z) := hread (ldbs n (a + Z.of_nat o)).
Definition pk8 (a : Z) (o : nat) : M Z := l ← pkbytes a o 1; ret (le_val l).
Definition pk16 (a : Z) (o : nat) : M Z := l ← pkbytes a o 2; ret (le_val l).
Definition pk32 (a : Z) (o : nat) : M Z := l ← pkbytes a o 4; ret (le_val l).
Definition setbytes (a : Z) (o : nat) (l : list Z) : M unit := hwrite (stbs l (a + Z.of_nat o)).
Definition set8 (a : Z) (o : nat) (v : Z) : M unit := setbytes a o [u8 v].
Definition set16 (a : Z) (o : nat) (v : Z) : M unit := setbytes a o (le16 v).
Definition set32 (a : Z) (o : nat) (v : Z) : M unit := setbytes a o (le32 v).

(** ** Byte order *)
Definition htons (x : Z) : Z := Z.lor (Z.land 255 (Z.shiftr x 8)) (Z.shiftl (Z.land 255 x) 8).
Definition htonl (x : Z) : Z :=
  Z.lor (Z.lor (Z.lor (Z.land (Z.shiftr x 24) 255) (Z.land (Z.shiftr x 8) 65280))
    (Z.land (u32 (Z.shiftl x 8)) 16711680)) (Z.land (u32 (Z.shiftl x 24)) 4278190080).
Definition ntohs := htons.
Definition ntohl := htonl.

(** The fields that a conversion converts; the conversions in the two directions are
    the same, as ntohs is htons and ntohl is htonl. *)
Inductive field := F16 (o : nat) | F32 (o : nat).

Definition conv_mem (a : Z) (f : field) : M unit :=
  match f with
  | F16 o => v ← pk16 a o; set16 a o (ntohs v)
  | F32 o => v ← pk32 a o; set32 a o (ntohl v)
  end.
Fixpoint convs_mem (a : Z) (fs : list field) : M unit :=
  match fs with [] => ret tt | f :: fs => conv_mem a f;; convs_mem a fs end.
Definition conv (f : field) (l : list Z) : list Z :=
  match f with
  | F16 o => put16 o (htons (get16 o l)) l
  | F32 o => put32 o (htonl (get32 o l)) l
  end.
Fixpoint convs (fs : list field) (l : list Z) : list Z :=
  match fs with [] => l | f :: fs => convs fs (conv f l) end.

Definition eth_fields : list field := [F16 net_ethtype].
Definition arp_fields : list field :=
  [F16 arp_htype; F16 arp_ptype; F16 arp_op; F32 arp_sndpa; F32 arp_tarpa].
Definition ip_fields : list field :=
  [F16 net_iplen; F16 net_ipid; F16 net_ipfrag; F32 net_ipsrc; F32 net_ipdst].
Definition udp_fields : list field := [F16 net_udpsport; F16 net_udpdport; F16 net_udplen].
Definition icmp_fields : list field := [F16 net_iccksum; F16 net_icident; F16 net_icseq].

Definition eth_hton (a : Z) : M unit := convs_mem a eth_fields.
Definition eth_ntoh (a : Z) : M unit := convs_mem a eth_fields.
Definition arp_ntoh (a : Z) : M unit := convs_mem a arp_fields.
(** arp_hton and eth_hton of a packet in a local variable. *)
Definition arp_hton (l : list Z) : list Z := convs arp_fields l.
Definition eth_hton_local (l : list Z) : list Z := convs eth_fields l.
Definition ip_ntoh (a : Z) : M unit := convs_mem a ip_fields.
Definition ip_hton (a : Z) : M unit := convs_mem a ip_fields.
Definition udp_ntoh (a : Z) : M unit := convs_mem a udp_fields.
Definition udp_hton (a : Z) : M unit := convs_mem a udp_fields.
Definition icmp_ntoh (a : Z) : M unit := convs_mem a icmp_fields.
Definition icmp_hton (a : Z) : M unit := convs_mem a icmp_fields.

(** ** ipcksum of ip.c *)
Fixpoint ipcksum_loop (n : nat) (a : Z) (o : nat) (cksum : Z) : M Z :=
  match n with
  | O => ret cksum
  | S n => word ← pk16 a o; ipcksum_loop n a (o + 2) (u32 (cksum + htons word))
  end.
Definition ipcksum (a : Z) : M Z :=
  cksum ← ipcksum_loop 10 a net_ipvh 0;
  let cksum := u32 (cksum + Z.shiftr cksum 16) in
  let cksum := Z.land 65535 (Z.lnot cksum) in
  let cksum := if bool_decide (cksum = 65535) then 0 else cksum in
  ret (u16 (Z.land 65535 cksum)).

(** ** icmp_cksum of icmp.c: [a] is the address of the first byte *)
Fixpoint icmp_cksum_loop (scount : nat) (sptr cksum : Z) : M (Z * Z) :=
  match scount with
  | O => ret (sptr, cksum)
  | S scount => word ← pk16 sptr 0; icmp_cksum_loop scount (sptr + 2) (u32 (cksum + ntohs word))
  end.
Definition icmp_cksum (buf buflen : Z) : M Z :=
  r ← icmp_cksum_loop (Z.to_nat (Z.shiftr buflen 1)) buf 0;
  let '(sptr, cksum) := r in
  cksum ← (if bool_decide (Z.land buflen 1 ≠ 0) then
             b ← pk8 sptr 0;
             ret (u32 (cksum + Z.land 65535 (Z.shiftl b 8)))
           else ret cksum);
  let cksum := u32 (cksum + Z.shiftr cksum 16) in
  let cksum := Z.land 65535 (Z.lnot cksum) in
  ret (u16 (Z.land 65535 cksum)).
