(* ===== verification/NetMem.v ===== *)
(** Packets in buffers: the pool of network buffers, who owns which buffer, and code
    that reads and writes the packet of one buffer. *)

From S2P Require Import Prelude Types Queue Heap ByteMem Words NetTypes DevTypes Kernel KInv Sched Semaphore Process UserMem Sysinit BufPool Packet.

(** ** Bytes in memory *)

Lemma bytes_in_app h a l1 l2 :
  bytes_in h a (l1 ++ l2) ↔ bytes_in h a l1 ∧ bytes_in h (a + Z.of_nat (length l1)) l2.
Proof.
  revert a. induction l1 as [|b l1 IH]; intros a; cbn [app bytes_in length].
  - rewrite Z.add_0_r. tauto.
  - rewrite IH. replace (a + 1 + Z.of_nat (length l1)) with (a + Z.of_nat (S (length l1))) by lia. tauto.
Qed.

Lemma ldbs_in h a l : bytes_in h a l → ldbs (length l) a h = Some l.
Proof.
  revert a. induction l as [|b l IH]; intros a; cbn [bytes_in length ldbs]; [done|].
  intros [Hb Hl]. rewrite Hb. cbn. by rewrite IH.
Qed.

Lemma slice_split o n (p : list Z) :
  (o + n ≤ length p)%nat → p = take o p ++ slice o n p ++ drop (o + n) p.
Proof. intros Ho. unfold slice. by rewrite <-drop_drop, !take_drop. Qed.

Lemma bytes_in_slice h a p o n :
  bytes_in h a p → (o + n ≤ length p)%nat → bytes_in h (a + Z.of_nat o) (slice o n p).
Proof.
  intros Hp Ho. rewrite (slice_split o n p Ho), !bytes_in_app in Hp. destruct Hp as (_ & Hp & _).
  rewrite length_take in Hp. by replace (o `min` length p)%nat with o in Hp by lia.
Qed.

Lemma ldbs_slice h a p o n :
  bytes_in h a p → (o + n ≤ length p)%nat → ldbs n (a + Z.of_nat o) h = Some (slice o n p).
Proof.
  intros Hp Ho. rewrite <-(length_slice o n p Ho) at 1. apply ldbs_in. by apply bytes_in_slice.
Qed.

(** Replacing a part of a block of bytes. *)
Lemma bytes_in_splice h h' a p o bs :
  bytes_in h a p → (o + length bs ≤ length p)%nat → bytes_in h' (a + Z.of_nat o) bs →
  (∀ i, ¬ a + Z.of_nat o ≤ i < a + Z.of_nat o + Z.of_nat (length bs) → ldb i h' = ldb i h) →
  bytes_in h' a (splice o bs p).
Proof.
  intros Hp Ho Hb Hfr. rewrite (slice_split o (length bs) p Ho), !bytes_in_app in Hp.
  destruct Hp as (H1 & _ & H3). rewrite length_take, length_slice in H3 by done.
  replace (o `min` length p)%nat with o in H3 by lia.
  unfold splice. rewrite !bytes_in_app, length_take. replace (o `min` length p)%nat with o by lia.
  split_and!; [|done|].
  - eapply bytes_in_ext; [|exact H1]. rewrite length_take. intros i Hi. apply Hfr. lia.
  - eapply bytes_in_ext; [|exact H3]. intros i Hi. apply Hfr. lia.
Qed.

(** The words that a store of bytes does not touch. *)
Lemma stb_word a b h h' w :
  stb a b h = Some h' → w ≠ a - a mod 4 → mem h' !! w = mem h !! w.
Proof.
  unfold stb, st, ld. intros Hs Hw. destruct (mem h !! (a - a mod 4)) as [v|] eqn:E; cbn in Hs; [|done].
  injection Hs as <-. cbn. by rewrite lookup_insert_ne.
Qed.

Lemma stbs_user l bs : ∀ a h,
  heap_ok h l → user_buf h l a (Z.of_nat (length bs)) → Forall byte bs →
  ∃ h', stbs bs a h = Some h' ∧ heap_ok h' l ∧ minheap h' = minheap h ∧ maxheap h' = maxheap h ∧
    bytes_in h' a bs ∧ (∀ i, ¬ a ≤ i < a + Z.of_nat (length bs) → ldb i h' = ldb i h) ∧
    (∀ w, w mod 4 = 0 → w + 4 ≤ a ∨ a + Z.of_nat (length bs) ≤ w → mem h' !! w = mem h !! w).
Proof.
  induction bs as [|b bs IH]; intros a h Hok Hu Hb; cbn [stbs bytes_in length] in *; [by exists h|].
  apply Forall_cons in Hb as [Hb Hbs].
  destruct (stb_user h l a b _ Hok Hu ltac:(lia) Hb) as (h1 & E1 & Hok1 & Hmin & Hmax & Ha & Ho).
  destruct (IH (a + 1) h1 Hok1) as (h2 & E2 & Hok2 & Hmin2 & Hmax2 & Hin & Hfr & Hw); [|done|].
  { eapply user_ext; [done..|]. replace (Z.of_nat (length bs)) with (Z.of_nat (S (length bs)) - 1) by lia.
    by apply user_tail. }
  exists h2. rewrite E1. cbn. split_and!; try done; try congruence.
  - rewrite Hfr by lia. done.
  - intros i Hi. rewrite Hfr, Ho by lia. done.
  - intros w Hw4 Hwr. pose proof (Z.mod_pos_bound a 4 ltac:(lia)).
    assert (w ≠ a - a mod 4) by (intros ->; lia). rewrite Hw.
    + by eapply stb_word.
    + done.
    + lia.
Qed.

(** ** Searching a table: the first entry that has property [p] *)
Inductive first_in {A} (t : gmap Z A) (p : A → bool) : option Z → Prop :=
  | First_in i e : t !! i = Some e → p e = true → (∀ j e', j < i → t !! j = Some e' → p e' = false) → first_in t p (Some i)
  | None_in : (∀ i e, t !! i = Some e → p e = false) → first_in t p None.

Lemma first_in_ext {A} (t : gmap Z A) p p' r : (∀ e, p e = p' e) → first_in t p r → first_in t p' r.
Proof.
  intros E [i e He Hp Hi|Hn].
  - econstructor; [exact He|by rewrite <-E|]. intros j e' Hj He'. rewrite <-E. by eapply Hi.
  - constructor. intros i e He. rewrite <-E. by eapply Hn.
Qed.

Lemma first_in_total {A} n (t : gmap Z A) p : is_table n t → ∃ r, first_in t p r.
Proof.
  intros Ht.
  assert (∀ k : nat, Z.of_nat k ≤ n →
    (∃ r, first_in t p (Some r)) ∨ ∀ i e, i < Z.of_nat k → t !! i = Some e → p e = false) as Hk.
  { induction k as [|k IH]; intros Hk.
    - right. intros i e Hi He. pose proof (is_table_bound _ _ _ _ Ht He). lia.
    - destruct IH as [?|Hb]; [lia|by left|]. destruct (is_table_get _ _ (Z.of_nat k) Ht ltac:(lia)) as [e He].
      destruct (p e) eqn:Hp; [left; exists (Z.of_nat k); by econstructor|]. right. intros i e' Hi He'.
      destruct (decide (i = Z.of_nat k)) as [->|]; [congruence|]. eapply Hb; [|done]. lia. }
  destruct (decide (0 ≤ n)).
  - destruct (Hk (Z.to_nat n) ltac:(lia)) as [[i Hi]|Hb]; [by exists (Some i)|]. exists None. constructor. intros i e He.
    pose proof (is_table_bound _ _ _ _ Ht He). eapply Hb; [|done]. lia.
  - exists None. constructor. intros i e He. pose proof (is_table_bound _ _ _ _ Ht He). lia.
Qed.

Lemma first_in_unique {A} (t : gmap Z A) p r r' : first_in t p r → first_in t p r' → r = r'.
Proof.
  intros [i e He Hp Hi|Hn] [j e' He' Hp' Hj|Hn']; try done.
  - destruct (Z.lt_total i j) as [Hl|[->|Hl]]; [|done|].
    + by rewrite (Hj _ _ Hl He) in Hp.
    + by rewrite (Hi _ _ Hl He') in Hp'.
  - by rewrite (Hn' _ _ He) in Hp.
  - by rewrite (Hn _ _ He') in Hp'.
Qed.

(** ** The pool of network buffers: [NB] buffers from [base] on; [psem] counts the
    free ones *)
Section pool.
Context (NB : nat) (base psem : Z).

(** A buffer and its header word. *)
Definition STRIDE : Z := 1520.
Definition pool : list Z := pool_bufs NB base STRIDE.

Record net_mem (s : kst) (l : list (Z * Z)) (F : list Z) : Prop := Net_mem {
  nm_heap : heap_ok (hp s) l;
  nm_pool : ∀ x, x ∈ pool → x mod 4 = 0 ∧ user_buf (hp s) l x STRIDE;
  nm_id : 0 ≤ netbufpool (net (dev s)) < nbpools (bufs s);
  nm_nb : nbpools (bufs s) ≤ NBPOOLS;
  nm_bufs : ∃ b, buftab (bufs s) !! netbufpool (net (dev s)) = Some b ∧ bpsem b = psem ∧
    bchain (mem (hp s)) (bpnext b) F;
  nm_sem : ∃ e, semtab s !! psem = Some e ∧ sstate e = S_USED ∧ scount e = Z.of_nat (length F);
  nm_nodup : NoDup F;
  nm_free : ∀ x, x ∈ F → x ∈ pool;
  nm_used : ∀ x, x ∈ pool → x ∉ F → mem (hp s) !! x = Some (netbufpool (net (dev s))) }.

Lemma pool_apart x y : x ∈ pool → y ∈ pool → x ≠ y → x + STRIDE ≤ y ∨ y + STRIDE ≤ x.
Proof.
  intros (i & Hi & ->)%elem_of_pool_bufs (j & Hj & ->)%elem_of_pool_bufs Hne. unfold STRIDE in *.
  assert (i < j ∨ j < i) as [?|?] by lia; [left|right]; nia.
Qed.

Lemma pool_word s l F x : net_mem s l F → x ∈ pool → buf_ok s l x.
Proof.
  intros Hm Hx. destruct (nm_pool _ _ _ Hm x Hx) as [Hx4 Hu]. destruct (Hu x) as [Hf Hr]; [unfold STRIDE; lia|].
  rewrite Hx4, Z.sub_0_r in Hf, Hr. by split.
Qed.

(** Changing parts of the state that [net_mem] does not read. *)
Lemma net_mem_frame s s' l F :
  net_mem s l F → hp s' = hp s → bufs s' = bufs s → semtab s' !! psem = semtab s !! psem →
  netbufpool (net (dev s')) = netbufpool (net (dev s)) → net_mem s' l F.
Proof.
  intros [] E1 E2 E3 E4. split; rewrite ?E1, ?E2, ?E3, ?E4; done.
Qed.

(** ** getbuf and freebuf of network buffers *)

(** The state after a call that changed the memory, the pools, the semaphores and the
    variables of the drivers and of the network. *)
Definition net_upd (s : kst) (h : heap) (b : bufpools) (t : gmap Z sentry) (d : devstate) : kst :=
  set_hp h (set_bufs b (set_semtab t (set_dev d s))).

(** The same memory, but for the header word of buffer [x]. *)
Definition same_but (x : Z) (h h' : heap) : Prop := ∀ i, ¬ x ≤ i < x + 4 → ldb i h' = ldb i h.

Lemma same_but_insert x v h : x mod 4 = 0 → same_but x h (set_mem (<[x := v]> (mem h)) h).
Proof.
  intros Hx i Hi. unfold ldb, ld. cbn. rewrite lookup_insert_ne; [done|].
  pose proof (Z.mod_pos_bound i 4 ltac:(lia)). intros ->. Z.to_euclidean_division_equations; lia.
Qed.

Lemma net_getbuf Q s l x F :
  InvQ Q s → net_mem s l (x :: F) →
  ∃ h b t, getbuf (netbufpool (net (dev s))) s = Done (x + 4) (net_upd s h b t (dev s)) ∧
    InvQ Q (net_upd s h b t (dev s)) ∧ net_mem (net_upd s h b t (dev s)) l F ∧
    same_but x (hp s) h ∧ (∀ i, i ≠ psem → t !! i = semtab s !! i).
Proof.
  intros HQ Hm. pose proof Hm as [Hh Hp Hid Hnb (b & Hb & Hbs & Hch) (e & He & Hu & Hc) Hnd Hf Hused].
  apply NoDup_cons in Hnd as [Hx Hnd]. pose proof (Hf x ltac:(by left)) as Hxp.
  destruct b as [nx sm sz]. cbn in Hbs, Hch. subst sm.
  destruct (getbuf_spec Q s l _ (Bpentry nx psem sz) e x F HQ Hh Hid Hnb Hb He Hu ltac:(cbn in Hc; lia) Hch Hx
    (pool_word _ _ _ _ Hm Hxp)) as (n & h & Hn & Hrun & HQ' & Hok & Hmem & Hh' & Hch').
  set (b' := Bufpools _ _) in *. set (t := <[bpsem _ := _]> _) in *.
  exists h, b', t. change (net_upd s h b' t (dev s)) with (set_hp h (set_bufs b' (set_semtab t (set_dev (dev s) s)))).
  assert (set_dev (dev s) s = s) as Ed by (by destruct s). rewrite Ed.
  assert (set_intr (intr s) (set_hp h (set_bufs b' (set_semtab t s))) = set_hp h (set_bufs b' (set_semtab t s)))
    as Ei by (by destruct s).
  rewrite Hrun, Ei. split; [done|]. split; [exact HQ'|]. split_and!.
  - split; cbn [hp bufs semtab dev set_hp set_bufs set_semtab nbpools buftab b' t]; try done.
    + intros y Hy. destruct (Hp y Hy) as [Hy4 Hyu]. split; [done|].
      eapply user_ext; [| |exact Hyu]; by rewrite Hh'.
    + eexists. split; [apply lookup_insert_eq|]. by split.
    + eexists. split; [apply lookup_insert_eq|]. split; [done|]. cbn in Hc |- *. lia.
    + intros y Hy. apply Hf. by right.
    + intros y Hy Hny. rewrite Hmem. destruct (decide (y = x)) as [->|Hne]; [by rewrite lookup_insert_eq|].
      rewrite lookup_insert_ne by done. apply Hused; [done|]. by intros [?|?]%elem_of_cons.
  - rewrite Hh', Hmem. apply same_but_insert. by destruct (Hp x Hxp).
  - intros i Hi. unfold t. by rewrite lookup_insert_ne.
Qed.

Lemma net_freebuf Q s l x F :
  InvQ Q s → net_mem s l F → x ∈ pool → x ∉ F → Z.of_nat (length F) < INT_MAX →
  ∃ h b t, freebuf (x + 4) s = Done OK (net_upd s h b t (dev s)) ∧
    InvQ Q (net_upd s h b t (dev s)) ∧ net_mem (net_upd s h b t (dev s)) l (x :: F) ∧
    same_but x (hp s) h ∧ (∀ i, i ≠ psem → t !! i = semtab s !! i).
Proof.
  intros HQ Hm Hxp Hx Hlen. pose proof Hm as [Hh Hp Hid Hnb (b & Hb & Hbs & Hch) (e & He & Hu & Hc) Hnd Hf Hused].
  destruct b as [nx sm sz]. cbn in Hbs, Hch. subst sm.
  destruct (freebuf_spec Q s l _ (Bpentry nx psem sz) e x F HQ Hh Hid Hnb Hb He Hu ltac:(lia) Hch Hx
    (pool_word _ _ _ _ Hm Hxp) (Hused x Hxp Hx)) as (h & Hrun & HQ' & Hok & Hmem & Hh' & Hch').
  set (b' := Bufpools _ _) in *. set (t := <[bpsem _ := _]> _) in *.
  exists h, b', t. change (net_upd s h b' t (dev s)) with (set_hp h (set_bufs b' (set_semtab t (set_dev (dev s) s)))).
  assert (set_dev (dev s) s = s) as Ed by (by destruct s). rewrite Ed.
  assert (set_intr (intr s) (set_hp h (set_bufs b' (set_semtab t s))) = set_hp h (set_bufs b' (set_semtab t s)))
    as Ei by (by destruct s).
  rewrite Hrun, Ei. split; [done|]. split; [exact HQ'|]. split_and!.
  - split; cbn [hp bufs semtab dev set_hp set_bufs set_semtab nbpools buftab b' t]; try done.
    + intros y Hy. destruct (Hp y Hy) as [Hy4 Hyu]. split; [done|].
      eapply user_ext; [| |exact Hyu]; by rewrite Hh'.
    + eexists. split; [apply lookup_insert_eq|]. split; [done|exact Hch'].
    + eexists. split; [apply lookup_insert_eq|]. split; [done|]. cbn. lia.
    + by apply NoDup_cons.
    + intros y [->|Hy]%elem_of_cons; [done|by apply Hf].
    + intros y Hy [Hne Hny]%not_elem_of_cons. rewrite Hmem, lookup_insert_ne by done. by apply Hused.
  - rewrite Hh', Hmem. apply same_but_insert. by destruct (Hp x Hxp).
  - intros i Hi. unfold t. by rewrite lookup_insert_ne.
Qed.

(** ** Code that works on the packet of one buffer *)

(** Buffer [x] is in use and holds packet [p]. *)
Record pkt_state (Q : gmap Z (list Z)) (s : kst) (l : list (Z * Z)) (F : list Z) (x : Z) (p : list Z) : Prop := Pkt_state {
  ps_inv : InvQ Q s;
  ps_mem : net_mem s l F;
  ps_in : x ∈ pool;
  ps_used : x ∉ F;
  ps_pkt : bytes_in (hp s) (x + 4) p;
  ps_len : length p = Z.to_nat PACKLEN }.

(** Memory outside the packet. *)
Definition outside (x : Z) (h h' : heap) : Prop := ∀ i, ¬ x + 4 ≤ i < x + 4 + PACKLEN → ldb i h' = ldb i h.

Lemma outside_refl x h : outside x h h.
Proof. done. Qed.
Lemma outside_trans x h1 h2 h3 : outside x h1 h2 → outside x h2 h3 → outside x h1 h3.
Proof. intros H1 H2 i Hi. by rewrite H2, H1. Qed.

(** [f] returns [a] and changes the packet from [p] to [p'], and nothing else. *)
Definition pruns {A} (x : Z) (f : M A) (p : list Z) (a : A) (p' : list Z) : Prop :=
  ∀ Q s l F, pkt_state Q s l F x p →
    ∃ h, f s = Done a (set_hp h s) ∧ pkt_state Q (set_hp h s) l F x p' ∧ outside x (hp s) h.

Lemma set_hp_id s : set_hp (hp s) s = s.
Proof. by destruct s. Qed.

Lemma pruns_ret {A} x (a : A) p : pruns x (ret a) p a p.
Proof. intros Q s l F Hs. exists (hp s). rewrite set_hp_id. by split_and!. Qed.

Lemma pruns_bind {A B} x (f : M A) (g : A → M B) p a p1 b p2 :
  pruns x f p a p1 → pruns x (g a) p1 b p2 → pruns x (f ≫= g) p b p2.
Proof.
  intros Hf Hg Q s l F Hs. destruct (Hf Q s l F Hs) as (h & E & Hs1 & Ho).
  destruct (Hg Q _ l F Hs1) as (h2 & E2 & Hs2 & Ho2). exists h2.
  split; [|split; [exact Hs2|by eapply outside_trans]]. rewrite M_bind_eq, E. cbn [obind]. rewrite E2. by destruct s.
Qed.

Lemma bytes_in_byte h a l : bytes_in h a l → Forall byte l.
Proof.
  revert a. induction l as [|b l IH]; intros a; cbn [bytes_in]; [constructor|]. intros [Hb Hl].
  constructor; [|by eapply IH]. unfold ldb in Hb. destruct (ld _ h); [|done]. injection Hb as <-. apply byte_of_range.
Qed.

Lemma ps_bytes Q s l F x p : pkt_state Q s l F x p → Forall byte p.
Proof. intros Hs. eapply bytes_in_byte, Hs. Qed.

(** Reading a field. *)
Lemma read_bytes Q s l F x p o n :
  pkt_state Q s l F x p → (o + n ≤ Z.to_nat PACKLEN)%nat → pkbytes (x + 4) o n s = Done (slice o n p) s.
Proof.
  intros Hs Ho. unfold pkbytes. apply hread_some. apply ldbs_slice; [apply Hs|]. by rewrite (ps_len _ _ _ _ _ _ Hs).
Qed.
Lemma read8 Q s l F x p o :
  pkt_state Q s l F x p → (o + 1 ≤ Z.to_nat PACKLEN)%nat → pk8 (x + 4) o s = Done (get8 o p) s.
Proof. intros Hs Ho. unfold pk8. by rewrite M_bind_eq, (read_bytes _ _ _ _ _ _ _ _ Hs Ho). Qed.
Lemma read16 Q s l F x p o :
  pkt_state Q s l F x p → (o + 2 ≤ Z.to_nat PACKLEN)%nat → pk16 (x + 4) o s = Done (get16 o p) s.
Proof. intros Hs Ho. unfold pk16. by rewrite M_bind_eq, (read_bytes _ _ _ _ _ _ _ _ Hs Ho). Qed.
Lemma read32 Q s l F x p o :
  pkt_state Q s l F x p → (o + 4 ≤ Z.to_nat PACKLEN)%nat → pk32 (x + 4) o s = Done (get32 o p) s.
Proof. intros Hs Ho. unfold pk32. by rewrite M_bind_eq, (read_bytes _ _ _ _ _ _ _ _ Hs Ho). Qed.

Lemma pruns_bytes x o n p :
  (o + n ≤ Z.to_nat PACKLEN)%nat → pruns x (pkbytes (x + 4) o n) p (slice o n p) p.
Proof.
  intros Ho Q s l F Hs. exists (hp s). rewrite set_hp_id. split_and!; try done. by eapply read_bytes.
Qed.

Lemma pruns_get {A} (g : list Z → A) x o n p :
  (o + n ≤ Z.to_nat PACKLEN)%nat →
  pruns x (l ← pkbytes (x + 4) o n; ret (g l)) p (g (slice o n p)) p.
Proof. intros Ho. eapply pruns_bind; [by apply pruns_bytes|apply pruns_ret]. Qed.

Lemma pruns_get8 x o p : (o + 1 ≤ Z.to_nat PACKLEN)%nat → pruns x (pk8 (x + 4) o) p (get8 o p) p.
Proof. apply (pruns_get le_val). Qed.
Lemma pruns_get16 x o p : (o + 2 ≤ Z.to_nat PACKLEN)%nat → pruns x (pk16 (x + 4) o) p (get16 o p) p.
Proof. apply (pruns_get le_val). Qed.
Lemma pruns_get32 x o p : (o + 4 ≤ Z.to_nat PACKLEN)%nat → pruns x (pk32 (x + 4) o) p (get32 o p) p.
Proof. apply (pruns_get le_val). Qed.

(** A store into the packet of a buffer keeps the pool. *)
Lemma net_mem_store s l F x h :
  net_mem s l F → x ∈ pool → heap_ok h l → minheap h = minheap (hp s) → maxheap h = maxheap (hp s) →
  (∀ w, w mod 4 = 0 → w + 4 ≤ x + 4 ∨ x + 4 + PACKLEN ≤ w → mem h !! w = mem (hp s) !! w) →
  net_mem (set_hp h s) l F.
Proof.
  intros Hm Hx Hok E1 E2 Hw. pose proof Hm as [Hh Hp Hid Hnb (b & Hb & Hbs & Hch) Hse Hnd Hf Hused].
  assert (∀ y, y ∈ pool → mem h !! y = mem (hp s) !! y) as Hy.
  { intros y Hy. apply Hw; [by destruct (Hp y Hy)|]. destruct (decide (y = x)) as [->|Hne]; [lia|].
    destruct (pool_apart y x Hy Hx Hne); unfold STRIDE, PACKLEN in *; lia. }
  split; cbn [hp set_hp bufs semtab dev]; try done.
  - intros y Hyp. destruct (Hp y Hyp). split; [done|]. by eapply user_ext.
  - exists b. split_and!; try done. eapply bchain_frame; [exact Hch|]. intros y Hyf. by apply Hy, Hf.
  - intros y Hyp Hyf. rewrite Hy by done. by apply Hused.
Qed.

Lemma pruns_set x o bs p :
  (o + length bs ≤ Z.to_nat PACKLEN)%nat → Forall byte bs → pruns x (setbytes (x + 4) o bs) p tt (splice o bs p).
Proof.
  intros Ho Hb Q s l F [HQ Hm Hx Hu Hp Hl]. destruct (nm_pool _ _ _ Hm x Hx) as [Hx4 Hbuf].
  assert (user_buf (hp s) l (x + 4 + Z.of_nat o) (Z.of_nat (length bs))) as Hub.
  { intros i Hi. apply Hbuf. unfold STRIDE, PACKLEN in *. lia. }
  destruct (stbs_user l bs _ _ (nm_heap _ _ _ Hm) Hub Hb) as (h & E & Hok & E1 & E2 & Hin & Hfr & Hw).
  assert (net_mem (set_hp h s) l F) as Hm'.
  { apply (net_mem_store s l F x h); try done. intros w Hw4 Hwr. apply Hw; [done|]. unfold PACKLEN in *. lia. }
  exists h. split; [|split].
  - unfold setbytes. apply hwrite_some. exact E.
  - split; try done.
    + apply InvQ_hp; [done|by exists l|done..].
    + cbn [hp set_hp]. eapply bytes_in_splice; [exact Hp|by rewrite Hl|done|done].
    + by rewrite length_splice by (by rewrite Hl).
  - intros i Hi. apply Hfr. unfold PACKLEN in *. lia.
Qed.
End pool.
