(* ===== verification/NetFmt.v ===== *)
(** What is in a packet: the byte order of fields, and the checksums, on lists of
    bytes. *)

From S2P Require Import Prelude Types Queue Heap ByteMem Words NetTypes DevTypes Kernel KInv Sched Semaphore BufPool Packet NetMem.

(** ** Byte order: a conversion reverses the bytes of each field *)

Lemma htons_bytes a b : byte a → byte b → htons (le_val [a; b]) = le_val [b; a].
Proof.
  unfold byte, htons. cbn [le_val]. intros Ha Hb. rewrite (Z.land_comm 255), (Z.land_comm 255).
  change 255 with (Z.ones 8). rewrite !Z.land_ones, Z.shiftr_div_pow2, Z.shiftl_mul_pow2 by lia.
  rewrite lor_low by (lia || by apply Z.mod_pos_bound). change (2 ^ 8) with 256.
  Z.to_euclidean_division_equations. lia.
Qed.

(** A byte of a word, moved to another place. *)
Lemma land_byte x k : 0 ≤ k → Z.land x (255 * 2 ^ k) = x / 2 ^ k mod 256 * 2 ^ k.
Proof.
  intros Hk. change 256 with (2 ^ 8). change 255 with (Z.ones 8).
  rewrite <-Z.land_ones, <-Z.shiftr_div_pow2, <-!Z.shiftl_mul_pow2 by lia.
  apply Z.bits_inj'. intros i Hi. rewrite Z.land_spec, !Z.shiftl_spec, Z.land_spec by lia.
  destruct (Z.lt_ge_cases i k).
  - by rewrite !(Z.testbit_neg_r _ (i - k)), andb_false_r by lia.
  - rewrite Z.shiftr_spec by lia. by replace (i - k + k) with i by lia.
Qed.

Lemma lor_bytes a b c d :
  byte a → byte b → byte c → byte d →
  Z.lor (Z.lor (Z.lor a (b * 2 ^ 8)) (c * 2 ^ 16)) (d * 2 ^ 24) = le_val [a; b; c; d].
Proof.
  unfold byte. cbn [le_val]. intros Ha Hb Hc Hd. rewrite (lor_low a b) by lia.
  change (2 ^ 8) with 256. rewrite (lor_low _ c) by lia. change (2 ^ 16) with 65536.
  rewrite (lor_low _ d) by lia. change (2 ^ 24) with 16777216. lia.
Qed.

Lemma htonl_bytes a b c d :
  byte a → byte b → byte c → byte d → htonl (le_val [a; b; c; d]) = le_val [d; c; b; a].
Proof.
  intros Ha Hb Hc Hd. rewrite <-(lor_bytes d c b a) by done. unfold byte, htonl, u32 in *. cbn [le_val].
  rewrite Z.shiftr_div_pow2, (Z.shiftr_div_pow2 _ 8), !Z.shiftl_mul_pow2 by lia.
  change 65280 with (255 * 2 ^ 8). change 16711680 with (255 * 2 ^ 16). change 4278190080 with (255 * 2 ^ 24).
  rewrite !land_byte by lia. change 255 with (Z.ones 8). rewrite Z.land_ones by lia.
  change (2 ^ 8) with 256. change (2 ^ 16) with 65536. change (2 ^ 24) with 16777216.
  repeat match goal with |- Z.lor _ _ = Z.lor _ _ => f_equal end; try f_equal.
  all: try (Z.to_euclidean_division_equations; lia).
Qed.

Lemma le16_val a b : byte a → byte b → le16 (le_val [a; b]) = [a; b].
Proof.
  unfold byte, le16, byte_of. cbn [le_val]. intros Ha Hb. change (256 ^ 0) with 1. change (256 ^ 1) with 256.
  f_equal; [|f_equal]; Z.to_euclidean_division_equations; lia.
Qed.

Lemma le32_val a b c d : byte a → byte b → byte c → byte d → le32 (le_val [a; b; c; d]) = [a; b; c; d].
Proof.
  unfold byte, le32, byte_of. cbn [le_val]. intros Ha Hb Hc Hd. change (256 ^ 0) with 1. change (256 ^ 1) with 256.
  change (256 ^ 2) with 65536. change (256 ^ 3) with 16777216.
  do 3 (f_equal; [Z.to_euclidean_division_equations; lia|]). f_equal. Z.to_euclidean_division_equations; lia.
Qed.

Definition f_off (f : field) : nat := match f with F16 o | F32 o => o end.
Definition f_len (f : field) : nat := match f with F16 _ => 2 | F32 _ => 4 end.

Lemma two_bytes l : length l = 2%nat → Forall byte l → ∃ a b, l = [a; b] ∧ byte a ∧ byte b.
Proof.
  intros Hl Hb. destruct l as [|a [|b [|? ?]]]; try discriminate Hl.
  apply Forall_cons in Hb as [? [? _]%Forall_cons]. eauto.
Qed.
Lemma four_bytes l :
  length l = 4%nat → Forall byte l → ∃ a b c d, l = [a; b; c; d] ∧ byte a ∧ byte b ∧ byte c ∧ byte d.
Proof.
  intros Hl Hb. destruct l as [|a [|b [|c [|d [|? ?]]]]]; try discriminate Hl.
  apply Forall_cons in Hb as [? [? [? [? _]%Forall_cons]%Forall_cons]%Forall_cons]. eauto 10.
Qed.

Lemma conv_rev f p :
  (f_off f + f_len f ≤ length p)%nat → Forall byte p →
  conv f p = splice (f_off f) (rev (slice (f_off f) (f_len f) p)) p.
Proof.
  intros Hl Hp. pose proof (length_slice (f_off f) (f_len f) p Hl) as Hs.
  pose proof (Forall_slice byte (f_off f) (f_len f) p Hp) as Hb.
  destruct f as [o|o]; cbn [conv f_off f_len] in *.
  - unfold put16, get16. destruct (two_bytes _ Hs Hb) as (a & b & -> & Ha & Hb').
    by rewrite htons_bytes, le16_val.
  - unfold put32, get32. destruct (four_bytes _ Hs Hb) as (a & b & c & d & -> & Ha & Hb' & Hc & Hd).
    by rewrite htonl_bytes, le32_val.
Qed.

(** ** Checksums *)

(** The sum of the 16-bit words in network order; an odd last byte counts as the high
    byte of a word. *)
Fixpoint be_sum (l : list Z) : Z :=
  match l with
  | [] => 0
  | [a] => 256 * a
  | a :: b :: l => (256 * a + b) + be_sum l
  end.

(** Induction two elements at a time. *)
Lemma pair_ind (P : list Z → Prop) :
  P [] → (∀ a, P [a]) → (∀ a b l, P l → P (a :: b :: l)) → ∀ l, P l.
Proof.
  intros H0 H1 H2. fix IH 1. intros [|a [|b l]]; [exact H0|apply H1|apply H2, IH].
Qed.

Lemma be_sum_bound l : Forall byte l → 0 ≤ be_sum l ≤ 65535 * ((Z.of_nat (length l) + 1) / 2).
Proof.
  induction l as [|a|a b l IH] using pair_ind; cbn [be_sum length]; intros Hl.
  - done.
  - apply Forall_cons in Hl as [Ha _]. unfold byte in Ha. change ((Z.of_nat 1 + 1) / 2) with 1. lia.
  - apply Forall_cons in Hl as [Ha [Hb Hl]%Forall_cons]. specialize (IH Hl). unfold byte in *.
    replace (Z.of_nat (S (S (length l))) + 1) with (Z.of_nat (length l) + 1 + 1 * 2) by lia.
    rewrite Z.div_add by lia. lia.
Qed.

Lemma be_sum_app l1 l2 : Nat.Even (length l1) → be_sum (l1 ++ l2) = be_sum l1 + be_sum l2.
Proof.
  induction l1 as [|a|a b l IH] using pair_ind; cbn [be_sum app length]; intros He.
  - lia.
  - destruct He as [k Hk]. lia.
  - rewrite IH; [lia|]. destruct He as [k Hk]. exists (k - 1)%nat. lia.
Qed.

(** The folded sum: the carries out of the low 16 bits are added once. *)
Definition fold16 (s : Z) : Z := (s + s / 65536) mod 65536.
Definition ip_ck (s : Z) : Z := if bool_decide (fold16 s = 0) then 0 else 65535 - fold16 s.
Definition icmp_ck (s : Z) : Z := 65535 - fold16 s.

Lemma fold16_range s : 0 ≤ fold16 s < 65536.
Proof. by apply Z.mod_pos_bound. Qed.

Lemma land_lnot16 x : Z.land 65535 (Z.lnot x) = 65535 - x mod 65536.
Proof.
  change 65535 with (Z.ones 16) at 1. rewrite Z.land_comm, Z.land_ones by lia. unfold Z.lnot.
  change (2 ^ 16) with 65536. Z.to_euclidean_division_equations. lia.
Qed.

(** The expression both functions end with. *)
Lemma fold_code s :
  0 ≤ s < 4294901760 → Z.land 65535 (Z.lnot (u32 (s + Z.shiftr s 16))) = 65535 - fold16 s.
Proof.
  intros Hs. rewrite land_lnot16, Z.shiftr_div_pow2 by lia. change (2 ^ 16) with 65536. unfold fold16.
  by rewrite u32_id by (Z.to_euclidean_division_equations; lia).
Qed.

Lemma land_u16 x : 0 ≤ x < 65536 → u16 (Z.land 65535 x) = x.
Proof.
  intros Hx. change 65535 with (Z.ones 16). rewrite Z.land_comm, Z.land_ones by lia. change (2 ^ 16) with 65536.
  rewrite (Z.mod_small x) by done. by apply u16_id.
Qed.

(** ** The same code on the packet of a buffer *)
Section pool.
Context (NB : nat) (base psem : Z).
Abbreviation pruns := (pruns NB base psem).
Abbreviation pkt_state := (pkt_state NB base psem).

(** The packet consists of bytes. *)
Lemma pruns_byte {A} x (f : M A) p a p' :
  (Forall byte p → length p = Z.to_nat PACKLEN → pruns x f p a p') → pruns x f p a p'.
Proof. intros H Q s l F Hs. apply H; [by eapply ps_bytes|apply Hs|done]. Qed.

Lemma le16_byte v : Forall byte (le16 v).
Proof. repeat constructor; apply byte_of_range. Qed.
Lemma le32_byte v : Forall byte (le32 v).
Proof. repeat constructor; apply byte_of_range. Qed.

Lemma pruns_set8 x o v p : (o + 1 ≤ Z.to_nat PACKLEN)%nat → pruns x (set8 (x + 4) o v) p tt (put8 o v p).
Proof. intros Ho. apply pruns_set; [exact Ho|]. repeat constructor; apply u8_range. Qed.
Lemma pruns_set16 x o v p : (o + 2 ≤ Z.to_nat PACKLEN)%nat → pruns x (set16 (x + 4) o v) p tt (put16 o v p).
Proof. intros Ho. apply pruns_set; [exact Ho|apply le16_byte]. Qed.
Lemma pruns_set32 x o v p : (o + 4 ≤ Z.to_nat PACKLEN)%nat → pruns x (set32 (x + 4) o v) p tt (put32 o v p).
Proof. intros Ho. apply pruns_set; [exact Ho|apply le32_byte]. Qed.

Lemma pruns_conv x f p : (f_off f + f_len f ≤ Z.to_nat PACKLEN)%nat → pruns x (conv_mem (x + 4) f) p tt (conv f p).
Proof.
  destruct f as [o|o]; cbn [f_off f_len conv_mem conv]; intros Ho.
  - eapply pruns_bind; [by apply pruns_get16|]. by apply pruns_set16.
  - eapply pruns_bind; [by apply pruns_get32|]. by apply pruns_set32.
Qed.

Lemma pruns_convs x fs : ∀ p,
  Forall (λ f, (f_off f + f_len f ≤ Z.to_nat PACKLEN)%nat) fs → pruns x (convs_mem (x + 4) fs) p tt (convs fs p).
Proof.
  induction fs as [|f fs IH]; intros p Hf; cbn [convs_mem convs]; [apply pruns_ret|].
  apply Forall_cons in Hf as [Hf Hfs]. eapply pruns_bind; [by apply pruns_conv|]. by apply IH.
Qed.

(** The words of a header, one after the other. *)
Lemma ipcksum_loop_done Q s l F x p n : ∀ o acc,
  pkt_state Q s l F x p → (o + 2 * n ≤ Z.to_nat PACKLEN)%nat → 0 ≤ acc → acc + 65536 * Z.of_nat n < 4294967296 →
  ipcksum_loop n (x + 4) o acc s = Done (acc + be_sum (slice o (2 * n) p)) s.
Proof.
  induction n as [|n IH]; intros o acc Hs Ho Ha Hb; cbn [ipcksum_loop].
  - change (slice o (2 * 0) p) with (@nil Z). cbn [be_sum]. by rewrite Z.add_0_r.
  - rewrite M_bind_eq, (read16 NB base psem _ _ _ _ _ _ o Hs) by lia. cbn [obind].
    pose proof (ps_len _ _ _ _ _ _ _ _ _ Hs) as Hl. pose proof (ps_bytes _ _ _ _ _ _ _ _ _ Hs) as Hp.
    assert (slice o (2 * S n) p = slice o 2 p ++ slice (o + 2) (2 * n) p) as Es.
    { unfold slice. rewrite <-(drop_drop p), take_take_drop.
      by replace (2 * S n)%nat with (2 + 2 * n)%nat by lia. }
    destruct (two_bytes (slice o 2 p)) as (a & b & E & Ha' & Hb').
    { apply length_slice. lia. } { by apply Forall_slice. }
    unfold byte in *. assert (htons (get16 o p) = 256 * a + b) as ->.
    { unfold get16. rewrite E, htons_bytes by done. cbn [le_val]. lia. }
    rewrite u32_id by lia. rewrite Es, E. cbn [app be_sum].
    replace (acc + (256 * a + b + _)) with (acc + (256 * a + b) + be_sum (slice (o + 2) (2 * n) p)) by lia.
    apply IH; try done; lia.
Qed.

Lemma be_sum_slice_bound o n p :
  (o + n ≤ length p)%nat → Forall byte p → Z.of_nat n ≤ 65535 → 0 ≤ be_sum (slice o n p) < 65536 * 65535.
Proof.
  intros Ho Hp Hn. pose proof (be_sum_bound _ (Forall_slice byte o n p Hp)) as Hb. rewrite length_slice in Hb by done.
  split; [lia|]. Z.to_euclidean_division_equations; lia.
Qed.

Lemma ipcksum_done Q s l F x p :
  pkt_state Q s l F x p → ipcksum (x + 4) s = Done (ip_ck (be_sum (slice net_ipvh 20 p))) s.
Proof.
  intros Hs. pose proof (ps_len _ _ _ _ _ _ _ _ _ Hs) as Hl.
  pose proof (be_sum_slice_bound net_ipvh 20 p ltac:(rewrite Hl; by apply Nat.leb_le) (ps_bytes _ _ _ _ _ _ _ _ _ Hs)
    ltac:(lia)) as Hb.
  unfold ipcksum. rewrite M_bind_eq, (ipcksum_loop_done _ _ _ _ _ _ 10 net_ipvh 0 Hs) by (by apply Nat.leb_le || lia).
  change (2 * 10)%nat with 20%nat. cbn [obind].
  rewrite Z.add_0_l. cbv zeta. rewrite fold_code by lia. unfold ip_ck. pose proof (fold16_range (be_sum (slice net_ipvh 20 p))).
  replace (bool_decide (65535 - _ = 65535)) with (bool_decide (fold16 (be_sum (slice net_ipvh 20 p)) = 0))
    by (apply bool_decide_ext; lia).
  by case_bool_decide; rewrite land_u16 by lia.
Qed.

(** Code that only reads the packet. *)
Lemma pruns_reads {A} x (f : M A) p a : (∀ Q s l F, pkt_state Q s l F x p → f s = Done a s) → pruns x f p a p.
Proof. intros Hf Q s l F Hs. exists (hp s). rewrite set_hp_id. split; [by eapply Hf|]. by split. Qed.

Lemma pruns_ipcksum x p : pruns x (ipcksum (x + 4)) p (ip_ck (be_sum (slice net_ipvh 20 p))) p.
Proof. apply pruns_reads. intros Q s l F Hs. by eapply ipcksum_done. Qed.
End pool.

(** The checksum of bytes anywhere in memory. *)
Lemma icmp_cksum_loop_spec n : ∀ a acc l s,
  bytes_in (hp s) a l → length l = (2 * n)%nat → 0 ≤ acc → acc + 65536 * Z.of_nat n < 4294967296 →
  icmp_cksum_loop n a acc s = Done (a + 2 * Z.of_nat n, acc + be_sum l) s.
Proof.
  induction n as [|n IH]; intros a acc l s Hin Hl Ha Hb; cbn [icmp_cksum_loop].
  - destruct l; [|done]. cbn. do 2 f_equal; lia.
  - destruct l as [|b0 [|b1 l]]; try (cbn in Hl; lia). cbn in Hl.
    pose proof (bytes_in_byte _ _ _ Hin) as [H0 [H1 _]%Forall_cons]%Forall_cons. unfold byte in *.
    assert (pk16 a 0 s = Done (le_val [b0; b1]) s) as E.
    { unfold pk16, pkbytes. rewrite M_bind_eq. erewrite hread_some; [done|].
      apply (ldbs_slice _ _ _ 0 2 Hin). cbn; lia. }
    rewrite M_bind_eq, E. cbn [obind]. unfold ntohs. rewrite htons_bytes by done. cbn [le_val].
    rewrite u32_id by lia. cbn [bytes_in] in Hin. destruct Hin as (_ & _ & Hin).
    rewrite (IH (a + 2) _ l) by (try lia; by replace (a + 2) with (a + 1 + 1) by lia).
    cbn [be_sum]. do 2 f_equal; lia.
Qed.

Lemma icmp_cksum_spec a l s :
  bytes_in (hp s) a l → Z.of_nat (length l) ≤ 65535 →
  icmp_cksum a (Z.of_nat (length l)) s = Done (icmp_ck (be_sum l)) s.
Proof.
  intros Hin Hl. pose proof (be_sum_bound l (bytes_in_byte _ _ _ Hin)) as Hb. unfold icmp_cksum.
  assert (0 ≤ be_sum l < 4294901760) as Hs by (Z.to_euclidean_division_equations; lia).
  rewrite Z.shiftr_div_pow2 by lia. change (2 ^ 1) with 2.
  assert (Z.land (Z.of_nat (length l)) 1 = Z.of_nat (length l) mod 2) as ->.
  { change 1 with (Z.ones 1). by rewrite Z.land_ones. }
  set (n := Z.to_nat (Z.of_nat (length l) / 2)).
  destruct (decide (length l = (2 * n)%nat)) as [He|He].
  - rewrite M_bind_eq, (icmp_cksum_loop_spec n a 0 l s) by (try done; lia). cbn [obind].
    rewrite bool_decide_eq_false_2 by (rewrite He; Z.to_euclidean_division_equations; lia). kred. cbv zeta.
    rewrite Z.add_0_l, fold_code by done. unfold icmp_ck. by rewrite land_u16 by (pose proof (fold16_range (be_sum l)); lia).
  - assert (length l = (2 * n + 1)%nat) as Ho by (unfold n in *; Z.to_euclidean_division_equations; lia).
    clearbody n. assert (∃ l1 c, l = l1 ++ [c] ∧ length l1 = (2 * n)%nat) as (l1 & c & -> & Hl1).
    { destruct l as [|c l] using rev_ind; [cbn in Ho; lia|]. exists l, c. rewrite length_app in Ho. cbn in Ho. split; [done|lia]. }
    apply bytes_in_app in Hin as [Hin1 [Hc _]]. rewrite Hl1 in Hc.
    rewrite M_bind_eq, (icmp_cksum_loop_spec n a 0 l1 s) by (try done; lia). cbn [obind].
    rewrite bool_decide_eq_true_2 by (rewrite Ho; Z.to_euclidean_division_equations; lia). kred.
    assert (pk8 (a + 2 * Z.of_nat n) 0 s = Done c s) as ->.
    { unfold pk8, pkbytes. rewrite M_bind_eq. erewrite hread_some.
      2: { cbn [ldbs]. rewrite Z.add_0_r. replace (a + 2 * Z.of_nat n) with (a + Z.of_nat (2 * n)) by lia.
           rewrite Hc. reflexivity. }
      cbn. do 2 f_equal. lia. }
    rewrite be_sum_app in * by (exists n; lia). cbn [be_sum] in *. kred.
    pose proof (be_sum_bound l1 (bytes_in_byte _ _ _ Hin1)) as Hb1.
    assert (byte c) as Hcb by (unfold ldb in Hc; destruct (ld _ _); [injection Hc as <-; apply byte_of_range|done]).
    unfold byte in Hcb. rewrite Z.shiftl_mul_pow2 by lia. change (2 ^ 8) with 256.
    assert (Z.land 65535 (c * 256) = 256 * c) as ->.
    { change 65535 with (Z.ones 16). rewrite Z.land_comm, Z.land_ones by lia. rewrite Z.mod_small by lia. lia. }
    rewrite (u32_id (_ + 256 * c)) by lia. rewrite Z.add_0_l, fold_code by lia.
    unfold icmp_ck. by rewrite land_u16 by (pose proof (fold16_range (be_sum l1 + 256 * c)); lia).
Qed.
