(* ===== verification/Eth.v ===== *)
(** The Ethernet driver: device/eth.  The descriptors of the two rings are shared with
    the DMA engine, which clears the flag [OWN] of a descriptor it is done with and
    moves on to the next one of its queue.  A buffer of the caller is given by the
    computation that copies from it ([rd]) or to it ([wr]). *)

From S2P Require Import Prelude Types Heap ByteMem Words NetTypes DevTypes Kernel KInv Sched Semaphore Device.

Definition ETHER0 : Z := 6.

(** ** Access to the variables *)
Definition getnet : M netstate := gets (λ s, net (dev s)).
Definition setnet (f : netstate → netstate) : M unit := modify (λ s, set_dev (set_net (f (net (dev s))) (dev s)) s).
Definition geteth : M ethcblk := gets (λ s, ethertab (net (dev s))).
Definition seteth (f : ethcblk → ethcblk) : M unit := setnet (λ n, set_ethertab (f (ethertab n)) n).

(** A descriptor of a ring. *)
Definition desc_at (ring : gmap Z eth_desc) (i : Z) : M eth_desc :=
  match ring !! i with Some d => ret d | None => fault end.

(** The end of the queue that starts at descriptor [i]. *)
Fixpoint last_desc (fuel : nat) (ring : gmap Z eth_desc) (i : Z) : option Z :=
  match fuel with
  | O => None
  | S fuel => d ← ring !! i; match d_next d with None => Some i | Some j => last_desc fuel ring j end
  end.
Definition chain_fuel (ring : gmap Z eth_desc) : nat := S (size ring).

(** Append descriptor [i] to the queue that starts at [hdp]; the ring and the head. *)
Definition enqueue_desc (ring : gmap Z eth_desc) (hdp : option Z) (i : Z) :
    option (gmap Z eth_desc * option Z) :=
  match hdp with
  | None => Some (ring, Some i)
  | Some h => prev ← last_desc (chain_fuel ring) ring h; Some (alter (set_d_next (Some i)) prev ring, hdp)
  end.
Definition lift {A} (o : option A) : M A := match o with Some a => ret a | None => fault end.

(** ** ethwrite.c *)
Definition TDS_NEW : Z :=
  Z.lor (Z.lor (Z.lor (Z.lor ETH_AM335X_TDS_SOP ETH_AM335X_TDS_EOP) ETH_AM335X_TDS_OWN) ETH_AM335X_TDS_DIR)
    ETH_AM335X_TDS_P1.

(** The descriptor of a frame: the frame is copied to the descriptor's buffer, and a
    short one is filled up with zeros to 60 bytes. *)
Definition frame_desc (d : eth_desc) (frame : list Z) (count : Z) : eth_desc :=
  let d := Eth_desc None (d_buffer d) count 0 count TDS_NEW in
  let d := set_d_buffer (splice 0 frame (d_buffer d)) d in
  if bool_decide (count < 60) then
    let d := set_d_buffer (splice (Z.to_nat count) (replicate (Z.to_nat (60 - count)) 0) (d_buffer d)) d in
    set_d_packlen 60 (set_d_buflen 60 d)
  else d.

Definition ethwrite (rd : Z → M (list Z)) (count : Z) : M Z :=
  ethptr ← geteth;
  _ ← wait (osem ethptr);
  ethptr ← geteth;
  let tail := txTail ethptr in
  tdescptr ← desc_at (txRing ethptr) tail;
  let count := if bool_decide (PACKLEN < count) then PACKLEN else count in
  frame ← rd count;
  let ring := <[tail := frame_desc tdescptr frame count]> (txRing ethptr) in
  r ← lift (enqueue_desc ring (tx_hdp ethptr) tail);
  seteth (λ e, set_tx_hdp r.2 (set_txRing r.1 e));;
  seteth (λ e, set_txTail (if bool_decide (txRingSize e ≤ txTail e + 1) then 0 else txTail e + 1) e);;
  ret count.

(** ** ethread.c *)
Definition ethread (wr : list Z → M unit) (count : Z) : M Z :=
  ethptr ← geteth;
  _ ← wait (isem ethptr);
  ethptr ← geteth;
  let head := rxHead ethptr in
  rdescptr ← desc_at (rxRing ethptr) head;
  let retval := if bool_decide (count < d_packlen rdescptr) then count else d_packlen rdescptr in
  wr (take (Z.to_nat retval) (d_buffer rdescptr));;
  let ring := <[head := Eth_desc None (d_buffer rdescptr) ETH_BUF_SIZE 0 0 ETH_AM335X_RDS_OWN]> (rxRing ethptr) in
  r ← lift (enqueue_desc ring (rx_hdp ethptr) head);
  seteth (λ e, set_rx_hdp r.2 (set_rxRing r.1 e));;
  seteth (λ e, set_rxHead (if bool_decide (rxRingSize e ≤ rxHead e + 1) then 0 else rxHead e + 1) e);;
  ret retval.

(** ** ethcontrol.c: the address that ETH_CTRL_GET_MAC copies *)
Definition ethcontrol (func : Z) (wr : list Z → M unit) : M Z :=
  if bool_decide (func = ETH_CTRL_GET_MAC) then
    ethptr ← geteth;
    wr (devAddress ethptr);;
    ret OK
  else ret SYSERR.

(** ** ethhandler.c *)
Definition owned (d : eth_desc) : bool := bool_decide (Z.land (d_stat d) ETH_AM335X_TDS_OWN ≠ 0).

Fixpoint eth_tx_loop (fuel : nat) : M unit :=
  match fuel with
  | O => fault
  | S fuel =>
    ethptr ← geteth;
    c ← semcount (osem ethptr);
    if bool_decide (c < txRingSize ethptr) then
      tdescptr ← desc_at (txRing ethptr) (txHead ethptr);
      if owned tdescptr then
        (if bool_decide (tx_hdp ethptr = None) then seteth (λ e, set_tx_hdp (Some (txHead e)) e) else ret tt)
      else
        seteth (λ e, set_txHead (if bool_decide (txRingSize e ≤ txHead e + 1) then 0 else txHead e + 1) e);;
        _ ← signal (osem ethptr);
        eth_tx_loop fuel
    else ret tt
  end.

Fixpoint eth_rx_loop (fuel : nat) : M unit :=
  match fuel with
  | O => fault
  | S fuel =>
    ethptr ← geteth;
    c ← semcount (isem ethptr);
    if bool_decide (c < rxRingSize ethptr) then
      rdescptr ← desc_at (rxRing ethptr) (rxTail ethptr);
      if owned rdescptr then
        (if bool_decide (rx_hdp ethptr = None) then seteth (λ e, set_rx_hdp (Some (rxTail e)) e) else ret tt)
      else
        seteth (λ e, set_rxTail (if bool_decide (rxRingSize e ≤ rxTail e + 1) then 0 else rxTail e + 1) e);;
        _ ← signal (isem ethptr);
        eth_rx_loop fuel
    else ret tt
  end.

(** Each pass of a loop adds 1 to a count that is below the size of the ring. *)
Definition ethhandler (xnum : Z) : M unit :=
  ethptr ← geteth;
  if bool_decide (xnum = ETH_AM335X_TXINT) then
    _ ← resched_cntl DEFER_START;
    c ← semcount (osem ethptr);
    eth_tx_loop (S (Z.to_nat (txRingSize ethptr - c)));;
    _ ← resched_cntl DEFER_STOP;
    ret tt
  else if bool_decide (xnum = ETH_AM335X_RXINT) then
    _ ← resched_cntl DEFER_START;
    c ← semcount (isem ethptr);
    eth_rx_loop (S (Z.to_nat (rxRingSize ethptr - c)));;
    _ ← resched_cntl DEFER_STOP;
    ret tt
  else ret tt.

(** ** The calls write, read and control of the device switch for ETHER0 *)
Definition ether_call (f : M Z) : M Z :=
  mask ← disable;
  if isbaddev ETHER0 then restore mask;; ret SYSERR
  else
    retval ← f;
    restore mask;;
    ret retval.
