(* ===== verification/Arp.v ===== *)
(** Address resolution: net/arp.c. *)

From S2P Require Import Prelude Types Queue Delta Heap ByteMem Words NetTypes DevTypes Kernel KInv Sched Semaphore Clock Message.
From S2P Require Import Device Process Sysinit BufPool Packet Eth.

(** [arpcache[i]] *)
Definition getarp (i : Z) : M arpentry := λ s,
  match arpcache (net (dev s)) !! i with Some e => Done e s | None => Fault end.
Definition setarp (i : Z) (f : arpentry → arpentry) : M unit :=
  e ← getarp i; setnet (λ n, set_arpcache (<[i := f e]> (arpcache n)) n).

(** A buffer on the stack, and one in memory. *)
Definition local_buf (l : list Z) (n : Z) : M (list Z) :=
  if bool_decide (n ≤ Z.of_nat (length l)) then ret (take (Z.to_nat n) l) else fault.
Definition mem_buf (a n : Z) : M (list Z) := pkbytes a 0 (Z.to_nat n).

(** [write(ETHER0, (char * )&apkt, sizeof(struct arppacket))] *)
Definition arp_write (apkt : list Z) : M Z := ether_call (ethwrite (local_buf apkt) (Z.of_nat ARPLEN)).

(** ** arp_init: entry 0 keeps the value it has *)
Fixpoint arp_init_loop (n : nat) (i : Z) : M unit :=
  match n with O => ret tt | S n => setarp i (set_arstate AR_FREE);; arp_init_loop n (i + 1) end.
Definition arp_init : M unit := arp_init_loop (Z.to_nat (ARP_SIZ - 1)) 1.

(** ** The loops over the cache: the first entry from [i] on that is looked for *)
Fixpoint arp_find (n : nat) (i : Z) (p : arpentry → bool) : M (option Z) :=
  match n with
  | O => ret None
  | S n => arptr ← getarp i; if p arptr then ret (Some i) else arp_find n (i + 1) p
  end.
Definition arp_search (p : arpentry → bool) : M (option Z) := arp_find (Z.to_nat ARP_SIZ) 0 p.
(** An entry in use with this address. *)
Definition arp_is (addr : Z) (e : arpentry) : bool :=
  negb (bool_decide (arstate e = AR_FREE)) && bool_decide (arpaddr e = addr).

(** ** arp_alloc *)
Definition arp_alloc : M Z :=
  f ← arp_search (λ e, bool_decide (arstate e = AR_FREE));
  match f with
  | Some slot => setarp slot (λ _, zero_arp);; ret slot
  | None =>
    r ← arp_search (λ e, bool_decide (arstate e = AR_RESOLVED));
    match r with
    | Some slot => setarp slot (λ _, zero_arp);; ret slot
    | None => ret SYSERR
    end
  end.

(** ** The packets that are put together field by field *)
Definition arp_make (dst src : list Z) (op : Z) (sndha : list Z) (sndpa : Z) (tarha : list Z) (tarpa : Z)
    (apkt : list Z) : list Z :=
  let p := splice net_ethdst dst apkt in
  let p := splice net_ethsrc src p in
  let p := put16 net_ethtype ETH_ARP p in
  let p := put16 arp_htype ARP_HTYPE p in
  let p := put16 arp_ptype ARP_PTYPE p in
  let p := put8 arp_hlen ARP_HALEN p in
  let p := put8 arp_plen ARP_PALEN p in
  let p := put16 arp_op op p in
  let p := splice arp_sndha sndha p in
  let p := put32 arp_sndpa sndpa p in
  let p := splice arp_tarha tarha p in
  let p := put32 arp_tarpa tarpa p in
  eth_hton_local (arp_hton p).
Definition arp_request (nd : network) (nxthop : Z) (apkt : list Z) : list Z :=
  arp_make (ethbcast nd) (ethucast nd) ARP_OP_REQ (ethucast nd) (ipucast nd) (replicate 6 0) nxthop apkt.
Definition arp_reply (nd : network) (sndha : list Z) (sndpa : Z) (apkt : list Z) : list Z :=
  arp_make sndha (ethucast nd) ARP_OP_RPLY (ethucast nd) (ipucast nd) sndha sndpa apkt.

(** The contents of an array on the stack that has not been written to: all of its
    bytes are written before it is used. *)
Definition fresh_apkt : list Z := replicate ARPLEN 0.

(** ** arp_resolve: [mac] is the address the result is copied to *)

(** Send the request and wait, up to [n] times; the last message. *)
Fixpoint arp_try (n : nat) (apkt : list Z) (msg : Z) : M Z :=
  match n with
  | O => ret msg
  | S n =>
    _ ← arp_write apkt;
    m ← recvtime ARP_TIMEOUT;
    let msg := s32 m in
    if bool_decide (msg = TIMEOUT) then arp_try n apkt msg else ret msg
  end.

Definition arp_resolve (nxthop mac : Z) : M Z :=
  n ← getnet;
  if bool_decide (nxthop = IP_BCAST) || bool_decide (nxthop = ipbcast (NetData n)) then
    setbytes mac 0 (ethbcast (NetData n));; ret OK
  else
    mask ← disable;
    i ← arp_search (arp_is nxthop);
    e ← (match i with Some i => e ← getarp i; ret (Some e) | None => ret None end);
    match e with
    | Some arptr =>
      if bool_decide (arstate arptr = AR_RESOLVED) then
        setbytes mac 0 (arhaddr arptr);; restore mask;; ret OK
      else restore mask;; ret SYSERR
    | None =>
      slot ← arp_alloc;
      if bool_decide (slot = SYSERR) then restore mask;; ret SYSERR
      else
        cur ← gets currpid;
        setarp slot (λ e, set_arpid cur (set_arpaddr nxthop (set_arstate AR_PENDING e)));;
        let apkt := arp_request (NetData n) nxthop fresh_apkt in
        m0 ← recvclr;
        msg ← arp_try (Z.to_nat ARP_RETRY) apkt (s32 m0);
        if bool_decide (msg = SYSERR) then restore mask;; ret SYSERR
        else if bool_decide (msg = TIMEOUT) then
          setarp slot (set_arstate AR_FREE);; restore mask;; ret TIMEOUT
        else
          arptr ← getarp slot;
          setbytes mac 0 (arhaddr arptr);;
          restore mask;;
          ret OK
    end.

(** ** arp_in *)

(** The code behind the notification of a process that waits for the sender's
    address: a reply is done with, and a request is answered. *)
Definition arp_in_answer (pktptr sndpa : Z) (sndha : list Z) (found : option Z) (mask : bool) : M unit :=
  op ← pk16 pktptr arp_op;
  n ← getnet;
  tarpa ← pk32 pktptr arp_tarpa;
  if bool_decide (op = ARP_OP_RPLY)
  then _ ← freebuf pktptr; restore mask
  else if negb (ipvalid (NetData n)) || bool_decide (tarpa ≠ ipucast (NetData n))
  then _ ← freebuf pktptr; restore mask
  else
    ok ← (match found with
          | Some _ => ret true
          | None =>
            slot ← arp_alloc;
            if bool_decide (slot = SYSERR) then ret false
            else
              setarp slot (λ e, set_arstate AR_RESOLVED (set_arhaddr sndha (set_arpaddr sndpa e)));;
              ret true
          end);
    if negb ok then _ ← freebuf pktptr; restore mask
    else
      n ← getnet;
      ha ← pkbytes pktptr arp_sndha 6;
      pa ← pk32 pktptr arp_sndpa;
      _ ← arp_write (arp_reply (NetData n) ha pa fresh_apkt);
      _ ← freebuf pktptr;
      restore mask.

Definition arp_in (pktptr : Z) : M unit :=
  arp_ntoh pktptr;;
  htype ← pk16 pktptr arp_htype;
  ptype ← pk16 pktptr arp_ptype;
  if bool_decide (htype ≠ ARP_HTYPE) || bool_decide (ptype ≠ ARP_PTYPE) then
    _ ← freebuf pktptr; ret tt
  else
    mask ← disable;
    sndpa ← pk32 pktptr arp_sndpa;
    found ← arp_search (arp_is sndpa);
    sndha ← pkbytes pktptr arp_sndha 6;
    (match found with
     | Some slot =>
       setarp slot (set_arhaddr sndha);;
       arptr ← getarp slot;
       if bool_decide (arstate arptr = AR_PENDING) then
         setarp slot (set_arstate AR_RESOLVED);;
         _ ← send (arpid arptr) OK;
         ret tt
       else ret tt
     | None => ret tt
     end);;
    arp_in_answer pktptr sndpa sndha found mask.
