(* ===== verification/NetEth.v ===== *)
(** The Ethernet driver as the protocol code uses it: handing over a frame, and the
    queue of frames that wait for the DMA engine. *)

From S2P Require Import Prelude Types Queue Heap ByteMem Words NetTypes DevTypes Kernel KInv Sched Semaphore Device Process UserMem BufPool Packet NetMem Eth Arp.

(** ** Handing over a frame *)

(** The control block after ethwrite of a frame. *)
Definition eth_put (frame : list Z) (count : Z) (e : ethcblk) : option ethcblk :=
  d ← txRing e !! txTail e;
  r ← enqueue_desc (<[txTail e := frame_desc d frame count]> (txRing e)) (tx_hdp e) (txTail e);
  let e := set_tx_hdp r.2 (set_txRing r.1 e) in
  Some (set_txTail (if bool_decide (txRingSize e ≤ txTail e + 1) then 0 else txTail e + 1) e).

(** The state after the variables of the network changed. *)
Definition with_net (f : netstate → netstate) (s : kst) : kst := set_dev (set_net (f (net (dev s))) (dev s)) s.

Lemma setnet_done f s : setnet f s = Done tt (with_net f s).
Proof. done. Qed.

Lemma getnet_done s : getnet s = Done (net (dev s)) s.
Proof. done. Qed.

Lemma lift_done {A} (o : option A) a s : o = Some a → lift o s = Done a s.
Proof. by intros ->. Qed.

(** One permit fewer of a semaphore. *)
Definition taken_sem (i : Z) (e : sentry) (t : gmap Z sentry) : gmap Z sentry := <[i := set_scount (scount e - 1) e]> t.

Lemma ethwrite_spec Q s rd count frame e e' :
  InvQ Q s → semtab s !! osem (ethertab (net (dev s))) = Some e → sstate e = S_USED → 0 < scount e →
  0 ≤ count ≤ PACKLEN →
  let s1 := set_semtab (taken_sem (osem (ethertab (net (dev s)))) e (semtab s)) s in
  rd count s1 = Done frame s1 → eth_put frame count (ethertab (net (dev s))) = Some e' →
  ethwrite rd count s = Done count (with_net (set_ethertab e') s1) ∧ InvQ Q (with_net (set_ethertab e') s1).
Proof.
  intros HQ He Hu Hc Hcnt s1 Hrd Hput.
  destruct (wait_passes Q s _ e HQ He Hu Hc) as [Hw HQ1].
  change (wait (osem (ethertab (net (dev s)))) s = Done OK (set_intr (intr s) s1)) in Hw.
  change (InvQ Q s1) in HQ1. split; [|by apply InvQ_dev].
  unfold eth_put in Hput. destruct (txRing _ !! txTail _) as [d|] eqn:Hd; [|done]. cbn in Hput.
  destruct (enqueue_desc _ _ _) as [r|] eqn:Hr; [|done]. cbn in Hput. injection Hput as <-.
  unfold ethwrite. rewrite M_bind_eq. unfold geteth. cbn [gets obind]. rewrite M_bind_eq, Hw. cbn [obind].
  assert (set_intr (intr s) s1 = s1) as -> by (by destruct s).
  rewrite M_bind_eq. cbn [gets obind]. unfold desc_at. change (ethertab (net (dev s1))) with (ethertab (net (dev s))).
  rewrite M_bind_eq, Hd. cbn [ret obind]. rewrite bool_decide_eq_false_2 by lia.
  rewrite M_bind_eq, Hrd. cbn [obind]. rewrite M_bind_eq, (lift_done _ _ _ Hr). cbn [obind]. by destruct s.
Qed.

(** ** The queue of frames that wait for the DMA engine *)

(** The descriptors [ps], each leading to the next one. *)
Fixpoint tx_chain (ring : gmap Z eth_desc) (h : option Z) (ps : list Z) : Prop :=
  match ps with
  | [] => h = None
  | i :: ps => h = Some i ∧ ∃ d, ring !! i = Some d ∧ tx_chain ring (d_next d) ps
  end.

Lemma tx_chain_ext ring ring' ps : ∀ h,
  (∀ i, i ∈ ps → ring' !! i = ring !! i) → tx_chain ring h ps → tx_chain ring' h ps.
Proof.
  induction ps as [|i ps IH]; intros h He; cbn [tx_chain]; [done|]. intros (-> & d & Hd & Hc). split; [done|].
  exists d. rewrite He by (by left). split; [done|]. apply IH; [|done]. intros j Hj. apply He. by right.
Qed.

Lemma last_desc_chain ring ps j : ∀ h n,
  tx_chain ring (Some h) (ps ++ [j]) → (length ps < n)%nat → last_desc n ring h = Some j.
Proof.
  induction ps as [|i ps IH]; intros h [|n] Hc Hn; cbn [app tx_chain length last_desc] in *; try lia;
    destruct Hc as ([= ->] & d & Hd & Hc); rewrite Hd; cbn.
  - by rewrite Hc.
  - destruct (d_next d) as [k|]; [apply IH; [done|lia]|]. by destruct ps; destruct Hc.
Qed.

(** Appending a descriptor that leads nowhere. *)
Lemma tx_chain_snoc ring ps j i d : ∀ h,
  tx_chain ring h (ps ++ [j]) → NoDup (ps ++ [j]) → i ∉ ps ++ [j] → ring !! i = Some d → d_next d = None →
  tx_chain (alter (set_d_next (Some i)) j ring) h ((ps ++ [j]) ++ [i]).
Proof.
  induction ps as [|k ps IH]; intros h Hc Hnd Hi Hd Hn; cbn [app tx_chain] in *;
    destruct Hc as (-> & d' & Hd' & Hc); split; try done; apply NoDup_cons in Hnd as [Hk Hnd];
    apply not_elem_of_cons in Hi as [Hik Hi].
  - exists (set_d_next (Some i) d'). split; [by rewrite lookup_alter_eq, Hd'|]. split; [done|]. exists d.
    by rewrite lookup_alter_ne by done.
  - exists d'. rewrite lookup_alter_ne; [|by intros ->; apply Hk, elem_of_app; right; left].
    split; [done|]. by apply IH.
Qed.

Lemma chain_in_ring ring ps : ∀ h, tx_chain ring h ps → ∀ i, i ∈ ps → is_Some (ring !! i).
Proof.
  induction ps as [|j ps IH]; intros h Hc i Hi; cbn [tx_chain] in *; [by apply not_elem_of_nil in Hi|].
  destruct Hc as (_ & d & Hd & Hc). apply elem_of_cons in Hi as [->|Hi]; [by rewrite Hd|by eapply IH].
Qed.

Lemma chain_size ring ps h : tx_chain ring h ps → NoDup ps → (length ps ≤ size ring)%nat.
Proof.
  intros Hc Hnd. rewrite <-size_dom, <-(size_list_to_set (C := gset Z) ps Hnd). apply subseteq_size.
  intros i Hi%elem_of_list_to_set. apply elem_of_dom. by eapply chain_in_ring.
Qed.

(** The [k] descriptors from position [a] on, around the ring of [n]. *)
Definition ring_idx (n a : Z) (k : nat) : list Z := (λ j, j mod n) <$> seqZ a (Z.of_nat k).

Lemma ring_idx_snoc n a k : ring_idx n a (S k) = ring_idx n a k ++ [(a + Z.of_nat k) mod n].
Proof.
  unfold ring_idx. rewrite Nat2Z.inj_succ, <-Z.add_1_r, seqZ_app by lia. by rewrite fmap_app.
Qed.

Lemma mod_apart n i j : 0 < n → i < j < i + n → i mod n ≠ j mod n.
Proof. intros Hn Hj E. Z.to_euclidean_division_equations. assert (q0 = q ∨ q0 ≠ q) as [->|?] by lia; nia. Qed.

Lemma ring_idx_fresh n a k : 0 < n → Z.of_nat k < n → (a + Z.of_nat k) mod n ∉ ring_idx n a k.
Proof.
  intros Hn Hk (j & E & Hj)%list_elem_of_fmap. apply elem_of_seqZ in Hj. symmetry in E. revert E. apply mod_apart; lia.
Qed.

Lemma ring_idx_nodup n a k : 0 < n → Z.of_nat k ≤ n → NoDup (ring_idx n a k).
Proof.
  induction k as [|k IH]; intros Hn Hk; [apply NoDup_nil_2|]. rewrite ring_idx_snoc. apply NoDup_app. split_and!.
  - apply IH; lia.
  - intros i Hi ->%list_elem_of_singleton. revert Hi. apply ring_idx_fresh; lia.
  - apply NoDup_singleton.
Qed.

(** What the engine sends from a descriptor: the bytes of the frame. *)
Definition desc_frame (d : eth_desc) : list Z := take (Z.to_nat (d_packlen d)) (d_buffer d).
(** A short frame is filled up with zeros. *)
Definition padded (frame : list Z) : list Z := frame ++ replicate (60 - length frame) 0.

(** The frames [fs] wait for the engine, first the oldest one, in consecutive places
    of the ring that end before [txTail]. *)
Record tx_queue (e : ethcblk) (fs : list (list Z)) : Prop := Tx_queue {
  tq_size : 0 < txRingSize e;
  tq_fit : Z.of_nat (length fs) ≤ txRingSize e;
  tq_ring : ∀ i, 0 ≤ i < txRingSize e → ∃ d, txRing e !! i = Some d ∧ length (d_buffer d) = Z.to_nat ETH_BUF_SIZE;
  tq_fs : ∃ a, let ps := ring_idx (txRingSize e) a (length fs) in
    txTail e = (a + Z.of_nat (length fs)) mod txRingSize e ∧ tx_chain (txRing e) (tx_hdp e) ps ∧
    Forall2 (λ i f, ∃ d, txRing e !! i = Some d ∧ desc_frame d = f) ps fs }.

Lemma frame_desc_frame d frame :
  length (d_buffer d) = Z.to_nat ETH_BUF_SIZE → (length frame ≤ Z.to_nat PACKLEN)%nat →
  let d' := frame_desc d frame (Z.of_nat (length frame)) in
  desc_frame d' = padded frame ∧ d_next d' = None ∧ length (d_buffer d') = Z.to_nat ETH_BUF_SIZE.
Proof.
  intros Hl Hf. unfold ETH_BUF_SIZE, PACKLEN in *. unfold frame_desc, desc_frame, padded. cbn zeta.
  cbn [d_buffer set_d_buffer d_packlen d_next set_d_packlen set_d_buflen].
  assert (length (splice 0 frame (d_buffer d)) = Z.to_nat 1518) as Hs by (rewrite length_splice; [done|lia]).
  case_bool_decide as Hc; cbn [d_buffer set_d_buffer d_packlen d_next set_d_packlen set_d_buflen].
  - rewrite length_splice by (rewrite length_replicate, Hs; lia). split_and!; try done.
    unfold splice. rewrite Nat2Z.id, take_0. cbn [app]. rewrite take_app_length.
    rewrite app_assoc. rewrite take_app_length'; [|rewrite length_app, length_replicate; lia].
    f_equal. f_equal. lia.
  - split_and!; try done. replace (60 - length frame)%nat with 0%nat by lia. cbn [replicate]. rewrite app_nil_r.
    unfold splice. rewrite Nat2Z.id, take_0. cbn [app]. apply take_app_length.
Qed.

Lemma chain_frames_ext (ring ring' : gmap Z eth_desc) ps fs :
  (∀ i d, i ∈ ps → ring !! i = Some d → ∃ d', ring' !! i = Some d' ∧ desc_frame d' = desc_frame d) →
  Forall2 (λ i f, ∃ d, ring !! i = Some d ∧ desc_frame d = f) ps fs →
  Forall2 (λ i f, ∃ d, ring' !! i = Some d ∧ desc_frame d = f) ps fs.
Proof.
  intros He Hf. induction Hf as [|i f ps fs (d & Hd & Hdf) Hf IH]; constructor.
  - destruct (He i d ltac:(by left) Hd) as (d' & ? & ?). exists d'. split; congruence.
  - apply IH. intros j d' Hj. apply He. by right.
Qed.

Lemma exists_last_or_nil {A} (l : list A) : l = [] ∨ ∃ l' a, l = l' ++ [a].
Proof. destruct l as [|a l _] using rev_ind; [by left|right; eauto]. Qed.

(** enqueue_desc on a chain of descriptors that all exist. *)
Lemma enqueue_chain ring hdp ps i d :
  tx_chain ring hdp ps → NoDup ps → i ∉ ps → ring !! i = Some d → d_next d = None →
  ∃ r, enqueue_desc ring hdp i = Some r ∧ tx_chain r.1 r.2 (ps ++ [i]) ∧
    (∀ j d', ring !! j = Some d' → ∃ d'', r.1 !! j = Some d'' ∧ desc_frame d'' = desc_frame d' ∧ d_buffer d'' = d_buffer d').
Proof.
  intros Hc Hnd Hi Hd Hn. destruct (exists_last_or_nil ps) as [->|(ps' & j & ->)].
  - cbn [tx_chain] in Hc. subst hdp. exists (ring, Some i). split; [done|]. cbn. split; [eauto|].
    intros k d' Hk. by exists d'.
  - destruct hdp as [h|]; [|by destruct ps'; destruct Hc].
    pose proof (chain_size _ _ _ Hc Hnd) as Hsz. rewrite length_app in Hsz. cbn in Hsz.
    exists (alter (set_d_next (Some i)) j ring, Some h). split; [|split; cbn [fst snd]].
    + unfold enqueue_desc, chain_fuel. rewrite (last_desc_chain ring ps' j h); [done|done|lia].
    + by apply (tx_chain_snoc ring ps' j i d).
    + intros k d' Hk. destruct (decide (k = j)) as [->|Hkj].
      * exists (set_d_next (Some i) d'). by rewrite lookup_alter_eq, Hk.
      * exists d'. by rewrite lookup_alter_ne.
Qed.

(** Handing over a frame puts it at the end of the queue. *)
Lemma eth_put_queue e fs frame :
  tx_queue e fs → Z.of_nat (length fs) < txRingSize e → (length frame ≤ Z.to_nat PACKLEN)%nat →
  ∃ e', eth_put frame (Z.of_nat (length frame)) e = Some e' ∧ tx_queue e' (fs ++ [padded frame]) ∧
    txRingSize e' = txRingSize e ∧ osem e' = osem e.
Proof.
  intros [Hn Hfit Hr (a & Ht & Hc & Hf)] Hlt Hl. cbv zeta in *.
  set (n := txRingSize e) in *. set (k := length fs) in *.
  pose proof (Z.mod_pos_bound (a + Z.of_nat k) n Hn) as Htr. rewrite <-Ht in Htr.
  destruct (Hr (txTail e) Htr) as (d & Hd & Hdl). destruct (frame_desc_frame d frame Hdl Hl) as (Hff & Hfn & Hfl).
  set (d1 := frame_desc d frame _) in *. set (ring := <[txTail e := d1]> (txRing e)).
  pose proof (ring_idx_fresh n a k Hn Hlt) as Hfr. rewrite <-Ht in Hfr.
  destruct (enqueue_chain ring (tx_hdp e) (ring_idx n a k) (txTail e) d1) as (r & Er & Hcr & Hsame); try done.
  { eapply tx_chain_ext; [|exact Hc]. intros i Hi. unfold ring. rewrite lookup_insert_ne; [done|]. by intros <-. }
  { apply ring_idx_nodup; lia. }
  { apply lookup_insert_eq. }
  eexists. split; [unfold eth_put; rewrite Hd; cbn; fold d1 ring; rewrite Er; cbn; reflexivity|].
  split; [|done]. split; cbn [txRingSize set_txTail set_tx_hdp set_txRing txRing tx_hdp txTail].
  - done.
  - fold n. rewrite length_app. cbn. lia.
  - fold n. intros i Hi. destruct (Hr i Hi) as (di & Hdi & Hli). destruct (decide (i = txTail e)) as [->|Hne].
    + destruct (Hsame (txTail e) d1) as (d2 & ? & _ & ?); [apply lookup_insert_eq|]. exists d2. split; [done|]. congruence.
    + destruct (Hsame i di) as (d2 & ? & _ & ?); [by unfold ring; rewrite lookup_insert_ne|]. exists d2. split; [done|]. congruence.
  - fold n. exists a. cbv zeta. rewrite length_app, Nat.add_1_r. fold k. rewrite ring_idx_snoc, <-Ht. split_and!.
    + assert ((a + Z.of_nat (S k)) mod n = (txTail e + 1) mod n) as ->.
      { rewrite Ht, Z.add_mod_idemp_l by lia. f_equal. lia. }
      case_bool_decide as Hw; [|by rewrite Z.mod_small by lia].
      replace (txTail e + 1) with n by lia. by rewrite Z.mod_same by lia.
    + exact Hcr.
    + apply Forall2_app.
      * eapply chain_frames_ext; [|exact Hf]. intros i di Hi Hdi. destruct (Hsame i di) as (d2 & ? & ? & _).
        { unfold ring. rewrite lookup_insert_ne; [done|]. by intros <-. }
        eauto.
      * constructor; [|constructor]. destruct (Hsame (txTail e) d1) as (d2 & ? & ? & _); [apply lookup_insert_eq|].
        exists d2. split; [done|]. congruence.
Qed.
