(* ===== verification/Udp.v ===== *)
(** The tables of UDP and ICMP endpoints: udp_init, udp_in, udp_register, udp_recv,
    udp_recvaddr and udp_release of net/udp.c; icmp_init, icmp_register, icmp_recv and
    icmp_release of net/icmp.c.  An endpoint has a circular queue of the addresses of
    packets that wait to be read. *)

From S2P Require Import Prelude Types Queue Delta Heap ByteMem Words NetTypes DevTypes Kernel KInv Sched Semaphore Clock Message.
From S2P Require Import Device Process Sysinit BufPool Packet Eth.

(** Elements of an array; another index is a fault. *)
Definition arr_get (l : list Z) (i : Z) : M Z :=
  if bool_decide (0 ≤ i) then lift (l !! Z.to_nat i) else fault.
Definition arr_set (l : list Z) (i v : Z) : M (list Z) :=
  if bool_decide (0 ≤ i < Z.of_nat (length l)) then ret (<[Z.to_nat i := v]> l) else fault.

(** [udptab[i]], [icmptab[i]] *)
Definition getud (i : Z) : M udpentry := λ s,
  match udptab (net (dev s)) !! i with Some e => Done e s | None => Fault end.
Definition setud (i : Z) (f : udpentry → udpentry) : M unit :=
  e ← getud i; setnet (λ n, set_udptab (<[i := f e]> (udptab n)) n).
Definition getic (i : Z) : M icmpentry := λ s,
  match icmptab (net (dev s)) !! i with Some e => Done e s | None => Fault end.
Definition setic (i : Z) (f : icmpentry → icmpentry) : M unit :=
  e ← getic i; setnet (λ n, set_icmptab (<[i := f e]> (icmptab n)) n).

(** ** udp_init *)
Fixpoint udp_init_loop (n : nat) (i : Z) : M unit :=
  match n with O => ret tt | S n => setud i (set_udstate UDP_FREE);; udp_init_loop n (i + 1) end.
Definition udp_init : M unit := udp_init_loop (Z.to_nat UDP_SLOTS) 0.

(** The first entry from [i] on that a loop looks for. *)
Fixpoint udp_find (n : nat) (i : Z) (p : udpentry → bool) : M (option Z) :=
  match n with
  | O => ret None
  | S n => udptr ← getud i; if p udptr then ret (Some i) else udp_find n (i + 1) p
  end.
Definition udp_search (p : udpentry → bool) : M (option Z) := udp_find (Z.to_nat UDP_SLOTS) 0 p.

(** ** udp_in *)

(** An entry that takes a packet with these ports and this source: it is in use, it
    matches, and its queue has room. *)
Definition udp_takes (dport sport src : Z) (e : udpentry) : bool :=
  negb (bool_decide (udstate e = UDP_FREE)) &&
  (bool_decide (dport = udlocport e) &&
   (bool_decide (udremport e = 0) || bool_decide (sport = udremport e)) &&
   (bool_decide (udremip e = 0) || bool_decide (src = udremip e))) &&
  bool_decide (udcount e < UDP_QSIZ).

Definition udp_in (pktptr : Z) : M unit :=
  mask ← disable;
  dport ← pk16 pktptr net_udpdport;
  sport ← pk16 pktptr net_udpsport;
  src ← pk32 pktptr net_ipsrc;
  f ← udp_search (udp_takes dport sport src);
  match f with
  | Some i =>
    setud i (λ e, set_udcount (udcount e + 1) e);;
    udptr ← getud i;
    q ← arr_set (udqueue udptr) (udtail udptr) pktptr;
    setud i (λ e, set_udtail (udtail e + 1) (set_udqueue q e));;
    setud i (λ e, if bool_decide (UDP_QSIZ ≤ udtail e) then set_udtail 0 e else e);;
    udptr ← getud i;
    (if bool_decide (udstate udptr = UDP_RECV) then
       setud i (set_udstate UDP_USED);;
       _ ← send (udpid udptr) OK;
       ret tt
     else ret tt);;
    restore mask
  | None => _ ← freebuf pktptr; restore mask
  end.

(** ** udp_register *)
Definition udp_is (remip remport locport : Z) (e : udpentry) : bool :=
  negb (bool_decide (udstate e = UDP_FREE)) &&
  (bool_decide (remport = udremport e) && bool_decide (locport = udlocport e) && bool_decide (remip = udremip e)).

Definition udp_register (remip remport locport : Z) : M Z :=
  mask ← disable;
  f ← udp_search (udp_is remip remport locport);
  match f with
  | Some _ => restore mask;; ret SYSERR
  | None =>
    f ← udp_search (λ e, bool_decide (udstate e = UDP_FREE));
    match f with
    | Some slot =>
      setud slot (λ e, Udpentry UDP_USED remip remport locport 0 0 0 (-1) (udqueue e));;
      restore mask;;
      ret slot
    | None => restore mask;; ret SYSERR
    end
  end.

Definition bad_slot (slot : Z) : bool := bool_decide (slot < 0) || bool_decide (UDP_SLOTS ≤ slot).

(** ** udp_recv and udp_recvaddr *)

(** Wait for a packet when there is none: the state of the entry says that a process
    waits, and udp_in sends it a message.  The result is what the message says. *)
Definition udp_wait (slot timeout : Z) : M Z :=
  udptr ← getud slot;
  if bool_decide (udcount udptr = 0) then
    cur ← gets currpid;
    setud slot (λ e, set_udpid cur (set_udstate UDP_RECV e));;
    _ ← recvclr;
    msg ← recvtime (s32 timeout);
    setud slot (set_udstate UDP_USED);;
    if bool_decide (msg = u32 TIMEOUT) then ret TIMEOUT
    else if bool_decide (msg ≠ OK) then ret SYSERR
    else ret OK
  else ret OK.

(** Take the packet from the queue. *)
Definition udp_head (slot : Z) : M Z :=
  udptr ← getud slot;
  pkt ← arr_get (udqueue udptr) (udhead udptr);
  setud slot (λ e, set_udhead (udhead e + 1) e);;
  setud slot (λ e, if bool_decide (UDP_QSIZ ≤ udhead e) then set_udhead 0 e else e);;
  ret pkt.

(** [for (i=0; i<n; i++) *dst++ = *src++] *)
Fixpoint copy_loop (n : nat) (src dst : Z) : M unit :=
  match n with
  | O => ret tt
  | S n => b ← hread (ldb src); hwrite (stb dst b);; copy_loop n (src + 1) (dst + 1)
  end.

(** Copy the data to the caller's buffer and free the packet; [len] bytes at most. *)
Definition udp_copy (pkt buff len : Z) : M Z :=
  udplen ← pk16 pkt net_udplen;
  let msglen := udplen - UDP_HDR_LEN in
  let msglen := if bool_decide (len < msglen) then len else msglen in
  copy_loop (Z.to_nat msglen) (pkt + Z.of_nat net_udpdata) buff;;
  _ ← freebuf pkt;
  ret msglen.

Definition udp_recv (slot buff len timeout : Z) : M Z :=
  mask ← disable;
  if bad_slot slot then restore mask;; ret SYSERR
  else
    udptr ← getud slot;
    if bool_decide (udstate udptr ≠ UDP_USED) then restore mask;; ret SYSERR
    else
      w ← udp_wait slot timeout;
      if bool_decide (w ≠ OK) then restore mask;; ret w
      else
        pkt ← udp_head slot;
        setud slot (λ e, set_udcount (udcount e - 1) e);;
        msglen ← udp_copy pkt buff len;
        restore mask;;
        ret msglen.

(** [remip] and [remport] are addresses: the sender's IP address and port go there. *)
Definition udp_recvaddr (slot remip remport buff len timeout : Z) : M Z :=
  mask ← disable;
  if bad_slot slot then restore mask;; ret SYSERR
  else
    udptr ← getud slot;
    if bool_decide (udstate udptr ≠ UDP_USED) then restore mask;; ret SYSERR
    else
      w ← udp_wait slot timeout;
      if bool_decide (w ≠ OK) then restore mask;; ret w
      else
        pkt ← udp_head slot;
        src ← pk32 pkt net_ipsrc;
        set32 remip 0 src;;
        sport ← pk16 pkt net_udpsport;
        set16 remport 0 sport;;
        setud slot (λ e, set_udcount (udcount e - 1) e);;
        msglen ← udp_copy pkt buff len;
        restore mask;;
        ret msglen.

(** ** udp_release *)
Fixpoint udp_drain (fuel : nat) (slot : Z) : M unit :=
  match fuel with
  | O => fault
  | S fuel =>
    udptr ← getud slot;
    if bool_decide (0 < udcount udptr) then
      pkt ← udp_head slot;
      _ ← freebuf pkt;
      setud slot (λ e, set_udcount (udcount e - 1) e);;
      udp_drain fuel slot
    else ret tt
  end.

Definition udp_release (slot : Z) : M Z :=
  mask ← disable;
  if bad_slot slot then restore mask;; ret SYSERR
  else
    udptr ← getud slot;
    if bool_decide (udstate udptr = UDP_FREE) then restore mask;; ret SYSERR
    else
      _ ← resched_cntl DEFER_START;
      (* the loop runs once for each packet of the queue *)
      udp_drain (S (Z.to_nat (udcount udptr))) slot;;
      setud slot (set_udstate UDP_FREE);;
      _ ← resched_cntl DEFER_STOP;
      restore mask;;
      ret OK.

(** ** icmp_init *)
Fixpoint icmp_init_loop (n : nat) (i : Z) : M unit :=
  match n with O => ret tt | S n => setic i (set_icstate ICMP_FREE);; icmp_init_loop n (i + 1) end.
Definition icmp_init : M unit := icmp_init_loop (Z.to_nat ICMP_SLOTS) 0.

(** ** icmp_register *)

(** The loop over the table: [None] when the address is registered already, and
    otherwise the first free slot, or -1. *)
Fixpoint icmp_scan (n : nat) (i remip freeslot : Z) : M (option Z) :=
  match n with
  | O => ret (Some freeslot)
  | S n =>
    icmptr ← getic i;
    if bool_decide (icstate icmptr = ICMP_FREE) then
      icmp_scan n (i + 1) remip (if bool_decide (freeslot = -1) then i else freeslot)
    else if bool_decide (icremip icmptr = remip) then ret None
    else icmp_scan n (i + 1) remip freeslot
  end.

Definition icmp_register (remip : Z) : M Z :=
  mask ← disable;
  f ← icmp_scan (Z.to_nat ICMP_SLOTS) 0 remip (-1);
  match f with
  | None => restore mask;; ret SYSERR
  | Some freeslot =>
    if bool_decide (freeslot = -1) then restore mask;; ret SYSERR
    else
      setic freeslot (λ e, Icmpentry ICMP_USED remip 0 0 0 (-1) (icqueue e));;
      restore mask;;
      ret freeslot
  end.

Definition bad_icmp (icmpid : Z) : bool := bool_decide (icmpid < 0) || bool_decide (ICMP_SLOTS ≤ icmpid).

(** Take a packet from the queue; the head is compared with ICMP_SLOTS. *)
Definition icmp_head (icmpid : Z) : M Z :=
  icmptr ← getic icmpid;
  pkt ← arr_get (icqueue icmptr) (ichead icmptr);
  setic icmpid (λ e, set_ichead (ichead e + 1) e);;
  setic icmpid (λ e, if bool_decide (ICMP_SLOTS ≤ ichead e) then set_ichead 0 e else e);;
  ret pkt.

(** ** icmp_recv *)
Definition icmp_recv (icmpid buff len timeout : Z) : M Z :=
  if bad_icmp icmpid then ret SYSERR
  else
    mask ← disable;
    icmptr ← getic icmpid;
    if bool_decide (icstate icmptr ≠ ICMP_USED) then restore mask;; ret SYSERR
    else
      w ← (if bool_decide (iccount icmptr = 0) then
             cur ← gets currpid;
             setic icmpid (λ e, set_icpid cur (set_icstate ICMP_RECV e));;
             _ ← recvclr;
             msg ← recvtime (s32 timeout);
             setic icmpid (set_icstate ICMP_USED);;
             if bool_decide (msg = u32 TIMEOUT) then ret TIMEOUT
             else if bool_decide (msg ≠ OK) then ret SYSERR
             else ret OK
           else ret OK);
      if bool_decide (w ≠ OK) then restore mask;; ret w
      else
        pkt ← icmp_head icmpid;
        setic icmpid (λ e, set_iccount (iccount e - 1) e);;
        iplen ← pk16 pkt net_iplen;
        let datalen := iplen - IP_HDR_LEN - ICMP_HDR_LEN in
        let n := Z.to_nat (Z.min datalen len) in
        copy_loop n (pkt + Z.of_nat net_icdata) buff;;
        _ ← freebuf pkt;
        restore mask;;
        ret (Z.of_nat n).

(** ** icmp_release *)
Fixpoint icmp_drain (fuel : nat) (icmpid : Z) : M unit :=
  match fuel with
  | O => fault
  | S fuel =>
    icmptr ← getic icmpid;
    if bool_decide (0 < iccount icmptr) then
      pkt ← icmp_head icmpid;
      _ ← freebuf pkt;
      setic icmpid (λ e, set_iccount (iccount e - 1) e);;
      icmp_drain fuel icmpid
    else ret tt
  end.

Definition icmp_release (icmpid : Z) : M Z :=
  mask ← disable;
  if bad_icmp icmpid then restore mask;; ret SYSERR
  else
    icmptr ← getic icmpid;
    if bool_decide (icstate icmptr ≠ ICMP_USED) then restore mask;; ret SYSERR
    else
      _ ← resched_cntl DEFER_START;
      icmp_drain (S (Z.to_nat (iccount icmptr))) icmpid;;
      setic icmpid (set_icstate ICMP_FREE);;
      _ ← resched_cntl DEFER_STOP;
      restore mask;;
      ret OK.
