(* ===== verification/Ip.v ===== *)
(** IP: net/ip.c, with icmp_mkpkt and icmp_in of net/icmp.c, which take part in the
    delivery of a packet to the local stack. *)

From S2P Require Import Prelude Types Queue Delta Heap ByteMem Words NetTypes DevTypes Kernel KInv Sched Semaphore Clock Message.
From S2P Require Import Device Process Sysinit BufPool Packet Eth Arp Udp.

(** ** icmp_mkpkt: the packet's address; without a buffer it does not return *)
Definition icmp_mkpkt (remip type ident seq buf len : Z) : M Z :=
  n ← getnet;
  pkt ← getbuf (netbufpool n);
  (if bool_decide (s32 pkt = SYSERR) then panic else ret tt);;
  n ← getnet;
  setbytes pkt net_ethsrc (ethucast (NetData n));;
  set16 pkt net_ethtype 2048;;
  set8 pkt net_ipvh 69;;
  set8 pkt net_iptos 0;;
  set16 pkt net_iplen (IP_HDR_LEN + ICMP_HDR_LEN + len);;
  set16 pkt net_ipid (ipident n);;
  setnet (λ n, set_ipident (u32 (ipident n + 1)) n);;
  set16 pkt net_ipfrag 0;;
  set8 pkt net_ipttl 255;;
  set8 pkt net_ipproto IP_ICMP;;
  set16 pkt net_ipcksum 0;;
  set32 pkt net_ipsrc (ipucast (NetData n));;
  set32 pkt net_ipdst remip;;
  set8 pkt net_ictype type;;
  set8 pkt net_iccode 0;;
  set16 pkt net_iccksum 0;;
  set16 pkt net_icident ident;;
  set16 pkt net_icseq seq;;
  copy_loop (Z.to_nat len) buf (pkt + Z.of_nat net_icdata);;
  ret pkt.

(** ** ip_enqueue *)
Definition setiq (f : iqentry → iqentry) : M unit := setnet (λ n, set_ipoqueue (f (ipoqueue n)) n).

Definition ip_enqueue (pktptr : Z) : M Z :=
  mask ← disable;
  n ← getnet;
  let iptr := ipoqueue n in
  c ← semcount (iqsem iptr);
  if bool_decide (IP_OQSIZ ≤ c) then
    _ ← freebuf pktptr;
    restore mask;;
    ret SYSERR
  else
    q ← arr_set (iqbuf iptr) (iqtail iptr) pktptr;
    setiq (λ r, set_iqtail (iqtail r + 1) (set_iqbuf q r));;
    setiq (λ r, if bool_decide (IP_OQSIZ ≤ iqtail r) then set_iqtail 0 r else r);;
    _ ← signal (iqsem iptr);
    restore mask;;
    ret OK.

(** ** icmp_in *)
Definition icmp_in (pkt : Z) : M unit :=
  mask ← disable;
  type ← pk8 pkt net_ictype;
  if bool_decide (type ≠ ICMP_ECHOREPLY) && bool_decide (type ≠ ICMP_ECHOREQST) then
    _ ← freebuf pkt; restore mask
  else if bool_decide (type = ICMP_ECHOREQST) then
    src ← pk32 pkt net_ipsrc;
    ident ← pk16 pkt net_icident;
    seq ← pk16 pkt net_icseq;
    iplen ← pk16 pkt net_iplen;
    replypkt ← icmp_mkpkt src ICMP_ECHOREPLY ident seq (pkt + Z.of_nat net_icdata)
                 (iplen - IP_HDR_LEN - ICMP_HDR_LEN);
    (if bool_decide (s32 replypkt ≠ SYSERR) then _ ← ip_enqueue replypkt; ret tt else ret tt);;
    _ ← freebuf pkt;
    restore mask
  else
    slot ← pk16 pkt net_icident;
    if bad_icmp slot then _ ← freebuf pkt; restore mask
    else
      icmptr ← getic slot;
      src ← pk32 pkt net_ipsrc;
      if bool_decide (icstate icmptr = ICMP_FREE) || bool_decide (src ≠ icremip icmptr) then
        _ ← freebuf pkt; restore mask
      else
        setic slot (λ e, set_iccount (iccount e + 1) e);;
        q ← arr_set (icqueue icmptr) (ictail icmptr) pkt;
        setic slot (λ e, set_ictail (ictail e + 1) (set_icqueue q e));;
        setic slot (λ e, if bool_decide (ICMP_QSIZ ≤ ictail e) then set_ictail 0 e else e);;
        icmptr ← getic slot;
        (if bool_decide (icstate icmptr = ICMP_RECV) then
           setic slot (set_icstate ICMP_USED);;
           _ ← send (icpid icmptr) OK;
           ret tt
         else ret tt);;
        restore mask.

(** ** ip_local *)
Definition ip_local (pktptr : Z) : M unit :=
  proto ← pk8 pktptr net_ipproto;
  if bool_decide (proto = IP_UDP) then udp_in pktptr
  else if bool_decide (proto = IP_ICMP) then icmp_in pktptr
  else _ ← freebuf pktptr; ret tt.

(** ** ip_out *)

(** The headers in network order, with their checksums. *)
Definition ip_encode (pktptr proto : Z) : M unit :=
  (if bool_decide (proto = IP_UDP) then
     set16 pktptr net_udpcksum 0;;
     udp_hton pktptr
   else if bool_decide (proto = IP_ICMP) then
     icmp_hton pktptr;;
     set16 pktptr net_iccksum 0;;
     iplen ← pk16 pktptr net_iplen;
     cksum ← icmp_cksum (pktptr + Z.of_nat net_ictype) (iplen - IP_HDR_LEN);
     set16 pktptr net_iccksum (Z.land 65535 (htons cksum))
   else ret tt);;
  ip_hton pktptr;;
  set16 pktptr net_ipcksum 0;;
  cksum ← ipcksum pktptr;
  set16 pktptr net_ipcksum (Z.land 65535 (htons cksum));;
  eth_hton pktptr.

Definition ip_out (pktptr : Z) : M Z :=
  iplen ← pk16 pktptr net_iplen;
  let pktlen := iplen + ETH_HDR_LEN in
  proto ← pk8 pktptr net_ipproto;
  ip_encode pktptr proto;;
  retval ← ether_call (ethwrite (mem_buf pktptr) pktlen);
  _ ← freebuf pktptr;
  ret (if bool_decide (retval = SYSERR) then SYSERR else OK).

(** The next hop: the destination itself when it is on the local network, and the
    router otherwise. *)
Definition next_hop (nd : network) (dest : Z) : Z :=
  if bool_decide (Z.land dest (ipmask nd) = ipprefix nd) then dest else iprouter nd.

(** ** ip_send: the error returns after next_hop do not restore the interrupt mask *)
Definition ip_send (pktptr : Z) : M Z :=
  mask ← disable;
  dest ← pk32 pktptr net_ipdst;
  n ← getnet;
  let nd := NetData n in
  if bool_decide (Z.land dest 4278190080 = 2130706432) then
    ip_local pktptr;; restore mask;; ret OK
  else if bool_decide (dest = ipucast nd) then
    ip_local pktptr;; restore mask;; ret OK
  else if bool_decide (dest = IP_BCAST) || bool_decide (dest = ipbcast nd) then
    setbytes pktptr net_ethdst (ethbcast nd);;
    retval ← ip_out pktptr;
    restore mask;;
    ret retval
  else
    let nxthop := next_hop nd dest in
    if bool_decide (nxthop = 0) then
      _ ← freebuf pktptr; ret SYSERR
    else
      retval ← arp_resolve nxthop (pktptr + Z.of_nat net_ethdst);
      if bool_decide (retval ≠ OK) then
        _ ← freebuf pktptr; ret SYSERR
      else
        retval ← ip_out pktptr;
        restore mask;;
        ret retval.

(** ** ip_in *)
Definition ip_in (pktptr : Z) : M unit :=
  c ← ipcksum pktptr;
  if bool_decide (c ≠ 0) then _ ← freebuf pktptr; ret tt
  else
    ip_ntoh pktptr;;
    vh ← pk8 pktptr net_ipvh;
    if bool_decide (vh ≠ 69) then _ ← freebuf pktptr; ret tt
    else
      proto ← pk8 pktptr net_ipproto;
      ok ← (if bool_decide (proto = IP_UDP) then udp_ntoh pktptr;; ret true
            else if bool_decide (proto = IP_ICMP) then
              iplen ← pk16 pktptr net_iplen;
              c ← icmp_cksum (pktptr + Z.of_nat net_ictype) (iplen - IP_HDR_LEN);
              if bool_decide (c ≠ 0) then ret false
              else icmp_ntoh pktptr;; ret true
            else ret true);
      if negb ok then _ ← freebuf pktptr; ret tt
      else
        dst ← pk32 pktptr net_ipdst;
        n ← getnet;
        let nd := NetData n in
        if bool_decide (dst = IP_BCAST) then ip_local pktptr
        else if negb (ipvalid nd) then
          if bool_decide (proto = IP_UDP) then ip_local pktptr
          else _ ← freebuf pktptr; ret tt
        else if bool_decide (dst = ipucast nd) || bool_decide (dst = ipbcast nd) || bool_decide (dst = IP_BCAST)
        then ip_local pktptr
        else _ ← freebuf pktptr; ret tt.

(** ** ipout: one pass of the loop of the process *)
Definition ipout_pass : M unit :=
  n ← getnet;
  _ ← wait (iqsem (ipoqueue n));
  n ← getnet;
  let ipqptr := ipoqueue n in
  pktptr ← arr_get (iqbuf ipqptr) (iqhead ipqptr);
  setiq (λ r, set_iqhead (iqhead r + 1) r);;
  setiq (λ r, if bool_decide (IP_OQSIZ ≤ iqhead r) then set_iqhead 0 r else r);;
  let nd := NetData n in
  setbytes pktptr net_ethsrc (ethucast nd);;
  destip ← pk32 pktptr net_ipdst;
  if bool_decide (destip = IP_BCAST) || bool_decide (destip = ipbcast nd) then
    _ ← freebuf pktptr; ret tt
  else if bool_decide (destip = ipucast nd) then ip_local pktptr
  else
    let nxthop := next_hop nd destip in
    if bool_decide (nxthop = 0) then _ ← freebuf pktptr; ret tt
    else
      retval ← arp_resolve nxthop (pktptr + Z.of_nat net_ethdst);
      if bool_decide (retval ≠ OK) then _ ← freebuf pktptr; ret tt
      else _ ← ip_out pktptr; ret tt.
