(* ===== verification/Net.v ===== *)
(** The network's callers and its processes: udp_send and udp_sendto of net/udp.c,
    icmp_send of net/icmp.c, and net/net.c. *)

From S2P Require Import Prelude Types Queue Delta Heap ByteMem Words NetTypes DevTypes Kernel KInv Sched Semaphore Clock Message.
From S2P Require Import Device Process Sysinit BufPool Packet Eth Arp Udp Ip.

(** ** udp_send and udp_sendto *)

(** The header fields and the data, which both functions put into a new packet. *)
Definition udp_fill (pkt ident locip remip locport remport buff len : Z) : M unit :=
  n ← getnet;
  let pktlen := Z.of_nat net_udpdata + len in
  setbytes pkt net_ethsrc (ethucast (NetData n));;
  set16 pkt net_ethtype 2048;;
  set8 pkt net_ipvh 69;;
  set8 pkt net_iptos 0;;
  set16 pkt net_iplen (pktlen - ETH_HDR_LEN);;
  set16 pkt net_ipid ident;;
  set16 pkt net_ipfrag 0;;
  set8 pkt net_ipttl 255;;
  set8 pkt net_ipproto IP_UDP;;
  set16 pkt net_ipcksum 0;;
  set32 pkt net_ipsrc locip;;
  set32 pkt net_ipdst remip;;
  set16 pkt net_udpsport locport;;
  set16 pkt net_udpdport remport;;
  set16 pkt net_udplen (u16 (UDP_HDR_LEN + len));;
  set16 pkt net_udpcksum 0;;
  copy_loop (Z.to_nat len) buff (pkt + Z.of_nat net_udpdata).

Definition udp_send (slot buff len : Z) : M Z :=
  mask ← disable;
  if bad_slot slot then restore mask;; ret SYSERR
  else
    udptr ← getud slot;
    if bool_decide (udstate udptr = UDP_FREE) then restore mask;; ret SYSERR
    else
      let remip := udremip udptr in
      if bool_decide (remip = 0) then restore mask;; ret SYSERR
      else
        n ← getnet;
        let locip := ipucast (NetData n) in
        let remport := udremport udptr in
        let locport := udlocport udptr in
        pkt ← getbuf (netbufpool n);
        if bool_decide (s32 pkt = SYSERR) then restore mask;; ret SYSERR
        else
          n ← getnet;
          setnet (λ n, set_udp_ident (u16 (udp_ident n + 1)) n);;
          udp_fill pkt (udp_ident n) locip remip locport remport buff len;;
          _ ← ip_send pkt;
          restore mask;;
          ret OK.

Definition udp_sendto (slot remip remport buff len : Z) : M Z :=
  mask ← disable;
  if bad_slot slot then restore mask;; ret SYSERR
  else
    udptr ← getud slot;
    if bool_decide (udstate udptr = UDP_FREE) then restore mask;; ret SYSERR
    else
      n ← getnet;
      pkt ← getbuf (netbufpool n);
      if bool_decide (s32 pkt = SYSERR) then restore mask;; ret SYSERR
      else
        n ← getnet;
        udptr ← getud slot;
        setnet (λ n, set_udpto_ident (u16 (udpto_ident n + 1)) n);;
        udp_fill pkt (udpto_ident n) (ipucast (NetData n)) remip (udlocport udptr) remport buff len;;
        _ ← ip_send pkt;
        restore mask;;
        ret OK.

(** ** icmp_send: the interrupt mask is not restored when there is no packet *)
Definition icmp_send (remip type ident seq buf len : Z) : M Z :=
  mask ← disable;
  pkt ← icmp_mkpkt remip type ident seq buf len;
  if bool_decide (s32 pkt = SYSERR) then ret SYSERR
  else
    retval ← ip_send pkt;
    restore mask;;
    ret retval.

(** ** getport *)
Definition getport : M Z :=
  setnet (λ n, set_netportseed (u32 (1103515245 * netportseed n + 12345)) n);;
  n ← getnet;
  ret (u16 (50000 + u16 (Z.shiftr (netportseed n) 16) `mod` 15535)).

(** ** netin: one pass of the loop of the process *)

(** A frame that has arrived. *)
Definition netin_frame (pkt : Z) : M unit :=
  eth_ntoh pkt;;
  ethtype ← pk16 pkt net_ethtype;
  if bool_decide (ethtype = ETH_ARP) then arp_in pkt
  else if bool_decide (ethtype = ETH_IP) then ip_in pkt
  else _ ← freebuf pkt; ret tt.

Definition netin_pass : M unit :=
  n ← getnet;
  pkt ← getbuf (netbufpool n);
  retval ← ether_call (ethread (setbytes pkt 0) PACKLEN);
  (if bool_decide (retval = SYSERR) then panic else ret tt);;
  netin_frame pkt.

(** ** net_init *)
Section net_init.
Context `{Platform}.

(** The addresses and the names of the processes ipout and netin; [ticks] is the
    value that getticks reads from the timer. *)
Context (ipout netin : Z) (ipout_name netin_name : list Z).

Definition nbufs : Z := UDP_SLOTS * UDP_QSIZ + ICMP_SLOTS * ICMP_QSIZ + 1.

Definition net_init (ticks : Z) : M unit :=
  setnet (set_NetData zero_network);;
  _ ← ether_call (ethcontrol ETH_CTRL_GET_MAC (λ l, setnet (λ n, set_NetData (set_ethucast l (NetData n)) n)));
  setnet (λ n, set_NetData (set_ethbcast (replicate 6 255) (NetData n)) n);;
  setnet (set_netportseed ticks);;
  p ← mkbufpool PACKLEN nbufs;
  setnet (set_netbufpool p);;
  arp_init;;
  udp_init;;
  icmp_init;;
  setiq (λ r, set_iqtail 0 (set_iqhead 0 r));;
  sem ← semcreate 0;
  setiq (set_iqsem sem);;
  if bool_decide (sem = SYSERR) then panic
  else
    p ← create ipout NETSTK NETPRIO ipout_name [];
    _ ← resume p;
    p ← create netin NETSTK NETPRIO netin_name [];
    _ ← resume p;
    ret tt.
End net_init.
