(* ===== verification/NetWire.v ===== *)
(** Packets on the wire: what ip_out makes of a packet and what ip_in makes of it
    again. *)

From S2P Require Import Prelude Types Queue Heap ByteMem Words NetTypes DevTypes Kernel KInv Sched Semaphore BufPool Packet NetMem NetFmt Eth Arp Udp Ip.

(** ** Conversions as reversals of the bytes of fields *)
Definition rev_at (f : field) (p : list Z) : list Z :=
  splice (f_off f) (rev (slice (f_off f) (f_len f) p)) p.
Fixpoint revs (fs : list field) (p : list Z) : list Z :=
  match fs with [] => p | f :: fs => revs fs (rev_at f p) end.

Lemma convs_revs fs : ∀ p,
  Forall (λ f, (f_off f + f_len f ≤ length p)%nat) fs → Forall byte p →
  convs fs p = revs fs p ∧ Forall byte (convs fs p) ∧ length (convs fs p) = length p.
Proof.
  induction fs as [|f fs IH]; intros p Hf Hp; cbn [convs revs]; [done|].
  apply Forall_cons in Hf as [Hf Hfs]. rewrite conv_rev by done. fold (rev_at f p).
  assert (length (rev_at f p) = length p) as El.
  { apply length_splice. rewrite length_rev, length_slice by done. done. }
  destruct (IH (rev_at f p)) as (E & Hb & Hl).
  - by rewrite El.
  - apply Forall_splice; [|done]. apply Forall_rev. by apply Forall_slice.
  - rewrite E in *. split_and!; congruence.
Qed.

(** A 16-bit number stored in network order. *)
Lemma le16_htons c : 0 ≤ c < 65536 → le16 (Z.land 65535 (htons c)) = [c / 256; c mod 256].
Proof.
  intros Hc. assert (byte (c mod 256) ∧ byte (c / 256)) as [H1 H2].
  { unfold byte. Z.to_euclidean_division_equations. lia. }
  assert (c = le_val [c mod 256; c / 256]) as E by (cbn [le_val]; Z.to_euclidean_division_equations; lia).
  assert (htons c = le_val [c / 256; c mod 256]) as -> by (rewrite E at 1; by rewrite htons_bytes).
  assert (0 ≤ le_val [c / 256; c mod 256] < 65536) as Hr by (unfold byte in *; cbn [le_val]; lia).
  change 65535 with (Z.ones 16). rewrite Z.land_comm, Z.land_ones, Z.mod_small by (change (2 ^ 16) with 65536; lia).
  by apply le16_val.
Qed.

(** ** Checksums verify *)

Lemma fold16_cases s :
  0 ≤ s → let h := s / 65536 in let l := s mod 65536 in
  s = 65536 * h + l ∧ 0 ≤ h ∧ 0 ≤ l < 65536 ∧ fold16 s = (l + h) mod 65536.
Proof.
  intros Hs h l. pose proof (Z.div_mod s 65536 ltac:(lia)) as E. fold h l in E.
  pose proof (Z.mod_pos_bound s 65536 ltac:(lia)) as Hl. fold l in Hl.
  split_and!; try lia. unfold fold16. fold h. rewrite E at 1.
  replace (65536 * h + l + h) with (l + h + h * 65536) by lia. by rewrite Z.mod_add.
Qed.

Lemma fold16_parts h l : 0 ≤ h → 0 ≤ l < 65536 → fold16 (65536 * h + l) = (l + h) mod 65536.
Proof.
  intros Hh Hl. unfold fold16. replace ((65536 * h + l) / 65536) with h by (apply Z.div_unique with l; lia).
  replace (65536 * h + l + h) with (l + h + h * 65536) by lia. by rewrite Z.mod_add.
Qed.

Lemma ip_ck_range s : 0 ≤ ip_ck s < 65536.
Proof. unfold ip_ck. pose proof (fold16_range s). case_bool_decide; lia. Qed.
Lemma icmp_ck_range s : 0 ≤ icmp_ck s < 65536.
Proof. unfold icmp_ck. pose proof (fold16_range s). lia. Qed.

(** ipcksum accepts every header whose checksum it computed. *)
Lemma ip_ck_verifies s : 0 ≤ s < 65536 * 65535 → ip_ck (s + ip_ck s) = 0.
Proof.
  intros Hs. destruct (fold16_cases s ltac:(lia)) as (E & Hh & Hl & Ef).
  set (h := s / 65536) in *. set (l := s mod 65536) in *. clearbody h l. subst s.
  unfold ip_ck at 2. rewrite Ef. case_bool_decide as H0.
  { unfold ip_ck. rewrite Z.add_0_r, Ef. by rewrite bool_decide_eq_true_2. }
  unfold ip_ck. destruct (Z.lt_ge_cases (l + h) 65536).
  - rewrite (Z.mod_small (l + h)) in * by lia.
    replace (65536 * h + l + (65535 - (l + h))) with (65536 * h + (65535 - h)) by lia.
    rewrite fold16_parts by lia. replace (65535 - h + h) with 65535 by lia. done.
  - assert ((l + h) mod 65536 = l + h - 65536) as Em by (rewrite <-(Z.mod_add _ (-1)) by lia; apply Z.mod_small; lia).
    rewrite Em. replace (65536 * h + l + _) with (65536 * (h + 1) + (65535 - h)) by lia.
    rewrite fold16_parts by lia. replace (65535 - h + (h + 1)) with (0 + 1 * 65536) by lia.
    rewrite Z.mod_add by lia. done.
Qed.

(** The carry that the code loses: folding leaves another one. *)
Definition late_carry (s : Z) : Prop := 65536 ≤ s mod 65536 + s / 65536.

(** icmp_cksum accepts a message whose checksum it computed unless a carry was lost. *)
Lemma icmp_ck_verifies s :
  0 ≤ s < 65536 * 65535 → icmp_ck (s + icmp_ck s) = 0 ↔ ¬ late_carry s.
Proof.
  intros Hs. destruct (fold16_cases s ltac:(lia)) as (E & Hh & Hl & Ef). unfold late_carry.
  set (h := s / 65536) in *. set (l := s mod 65536) in *. clearbody h l. subst s.
  unfold icmp_ck. rewrite Ef. destruct (Z.lt_ge_cases (l + h) 65536).
  - rewrite (Z.mod_small (l + h)) by lia.
    replace (65536 * h + l + (65535 - (l + h))) with (65536 * h + (65535 - h)) by lia.
    rewrite fold16_parts by lia. replace (65535 - h + h) with 65535 by lia. change (65535 mod 65536) with 65535. lia.
  - assert ((l + h) mod 65536 = l + h - 65536) as -> by (rewrite <-(Z.mod_add _ (-1)) by lia; apply Z.mod_small; lia).
    replace (65536 * h + l + _) with (65536 * (h + 1) + (65535 - h)) by lia.
    rewrite fold16_parts by lia. replace (65535 - h + (h + 1)) with (0 + 1 * 65536) by lia.
    rewrite Z.mod_add by lia. change (0 mod 65536) with 0. lia.
Qed.

(** A sum with a correct checksum (RFC 1071): 65535 divides it. *)
Definition rfc_sum (s : Z) : Prop := s mod 65535 = 0.

Lemma rfc_parts h l : rfc_sum (65536 * h + l) ↔ (l + h) mod 65535 = 0.
Proof.
  unfold rfc_sum. replace (65536 * h + l) with (l + h + h * 65535) by lia. by rewrite Z.mod_add.
Qed.

(** Both functions accept every packet with a correct checksum. *)
Lemma ck_accepts s : 0 < s < 65536 * 65535 → rfc_sum s → ip_ck s = 0 ∧ icmp_ck s = 0.
Proof.
  intros Hs Hr. destruct (fold16_cases s ltac:(lia)) as (E & Hh & Hl & Ef).
  set (h := s / 65536) in *. set (l := s mod 65536) in *. clearbody h l. subst s.
  rewrite rfc_parts in Hr. assert (l + h = 65535) as Hlh.
  { apply Z.mod_divide in Hr as [k Hk]; [|lia]. assert (k = 1) by nia. lia. }
  unfold ip_ck, icmp_ck. rewrite Ef, Hlh. done.
Qed.

(** The checksum that they compute is correct unless a carry was lost. *)
Lemma ck_correct s :
  0 < s < 65536 * 65535 →
  (rfc_sum (s + ip_ck s) ↔ ¬ late_carry s) ∧ (rfc_sum (s + icmp_ck s) ↔ ¬ late_carry s).
Proof.
  intros Hs. destruct (fold16_cases s ltac:(lia)) as (E & Hh & Hl & Ef). unfold late_carry.
  set (h := s / 65536) in *. set (l := s mod 65536) in *. clearbody h l. subst s.
  unfold ip_ck, icmp_ck. rewrite Ef.
  assert (rfc_sum (65536 * h + l + (65535 - (l + h) mod 65536)) ↔ ¬ 65536 ≤ l + h) as Hi.
  { destruct (Z.lt_ge_cases (l + h) 65536).
    - rewrite (Z.mod_small (l + h)) by lia.
      replace (65536 * h + l + (65535 - (l + h))) with (65536 * h + (65535 - h)) by lia.
      rewrite rfc_parts. replace (65535 - h + h) with 65535 by lia. rewrite Z.mod_same by lia. split; [lia|done].
    - assert ((l + h) mod 65536 = l + h - 65536) as -> by (rewrite <-(Z.mod_add _ (-1)) by lia; apply Z.mod_small; lia).
      replace (65536 * h + l + _) with (65536 * (h + 1) + (65535 - h)) by lia.
      rewrite rfc_parts. replace (65535 - h + (h + 1)) with (1 + 1 * 65535) by lia.
      rewrite Z.mod_add by lia. change (1 mod 65535) with 1. lia. }
  split; [|exact Hi]. case_bool_decide as H0; [|exact Hi]. rewrite Z.add_0_r.
  assert (l + h = 65536 ∨ l + h = 0) as Hc.
  { apply Z.mod_divide in H0 as [k Hk]; [|lia]. assert (k = 0 ∨ k = 1) as [-> | ->] by nia; lia. }
  destruct Hc as [Hc|Hc]; [|lia]. rewrite rfc_parts, Hc. change (65536 mod 65535) with 1. lia.
Qed.

(** ** Packets in host order and frames *)

Definition hdr_sum (p : list Z) : Z := be_sum (slice net_ipvh 20 p).
Definition icmp_sum (p : list Z) : Z := be_sum (slice net_ictype (Z.to_nat (get16 net_iplen p - IP_HDR_LEN)) p).

(** What ip_out does to the packet. *)
Definition enc_proto (p : list Z) : list Z :=
  if bool_decide (get8 net_ipproto p = IP_UDP) then convs udp_fields (put16 net_udpcksum 0 p)
  else if bool_decide (get8 net_ipproto p = IP_ICMP) then
    let p := put16 net_iccksum 0 (convs icmp_fields p) in
    put16 net_iccksum (Z.land 65535 (htons (icmp_ck (icmp_sum p)))) p
  else p.
Definition enc_ip (p : list Z) : list Z :=
  let p := put16 net_ipcksum 0 (convs ip_fields p) in
  put16 net_ipcksum (Z.land 65535 (htons (ip_ck (hdr_sum p)))) p.
Definition wire (p : list Z) : list Z := convs eth_fields (enc_ip (enc_proto p)).

(** An IP packet in host order, not longer than its buffer. *)
Record ip_packet (p : list Z) : Prop := Ip_packet {
  ik_len : length p = Z.to_nat PACKLEN;
  ik_bytes : Forall byte p;
  ik_iplen : IP_HDR_LEN ≤ get16 net_iplen p ≤ 1500 }.

(** The bytes of the headers, one by one. *)
Ltac header p Hl :=
  let r := fresh "r" in
  do 42 (destruct p as [|? p]; [discriminate Hl|]);
  rename p into r.

(** A list of bytes that are known to be bytes, or were cut out of a number. *)
Tactic Notation "all_bytes" :=
  repeat first [apply Forall_nil; exact I | apply Forall_cons; split];
  first [assumption | apply byte_of_range | unfold byte; lia | idtac].
Ltac bytes_of H := repeat (apply Forall_cons in H as [? H]).

Definition fits (f : field) : Prop := (f_off f + f_len f ≤ 42)%nat.
Lemma all_fit : Forall fits eth_fields ∧ Forall fits arp_fields ∧ Forall fits ip_fields ∧ Forall fits udp_fields ∧
  Forall fits icmp_fields.
Proof. split_and!; repeat constructor; by apply Nat.leb_le. Qed.

Lemma fits_len fs (p : list Z) n :
  Forall fits fs → length p = n → (42 ≤ n)%nat → Forall (λ f, (f_off f + f_len f ≤ length p)%nat) fs.
Proof. intros Hf -> Hn. eapply Forall_impl; [exact Hf|]. intros f Hfit. unfold fits in Hfit. lia. Qed.

Lemma packlen_42 : (42 ≤ Z.to_nat PACKLEN)%nat.
Proof. by apply Nat.leb_le. Qed.

(** A conversion twice is none; a conversion keeps the length and the bytes. *)
Lemma convs_ok fs p :
  Forall fits fs → (42 ≤ length p)%nat → Forall byte p →
  convs fs p = revs fs p ∧ Forall byte (convs fs p) ∧ length (convs fs p) = length p.
Proof. intros Hf Hl Hp. apply convs_revs; [|done]. by eapply fits_len. Qed.

(** The header that ip_out completes passes ipcksum. *)
Lemma enc_ip_sum p :
  length p = Z.to_nat PACKLEN → Forall byte p →
  ∃ s, 0 ≤ s < 65536 * 65535 ∧ hdr_sum (enc_ip p) = s + ip_ck s ∧ Forall byte (enc_ip p) ∧
    length (enc_ip p) = Z.to_nat PACKLEN.
Proof.
  intros Hl Hp. unfold enc_ip. destruct (convs_ok ip_fields p) as (_ & Hb & Hlen).
  { apply all_fit. } { rewrite Hl. apply packlen_42. } { done. }
  set (q := convs ip_fields p) in *. clearbody q. rewrite Hl in Hlen. clear Hl Hp p.
  header q Hlen. bytes_of Hb. unfold hdr_sum, put16, slice, splice, net_ipvh, net_ipcksum.
  cbn [length le16 take drop app Nat.add].
  change (byte_of 0 0) with 0. change (byte_of 1 0) with 0.
  match goal with |- context [ip_ck (be_sum ?l)] =>
    assert (Forall byte l) as Hl by all_bytes;
    pose proof (be_sum_bound l Hl) as Hs; change ((Z.of_nat (length l) + 1) / 2) with 10 in Hs;
    set (s := be_sum l) in *
  end.
  exists s. split; [lia|].
  pose proof (le16_htons (ip_ck s) (ip_ck_range s)) as E. unfold le16 in E. injection E as E0 E1.
  split; [|split].
  - cbn [be_sum]. rewrite E0, E1. unfold s. cbn [be_sum].
    pose proof (Z.div_mod (ip_ck s) 256 ltac:(lia)). subst s. cbn [be_sum] in *. lia.
  - all_bytes.
  - done.
Qed.

(** ** Decoding *)

Ltac explicit q Hl Hb := header q Hl; bytes_of Hb.
(** Conversions of a packet whose header is written out. *)
Ltac conv_simpl :=
  repeat match goal with
  | |- context [convs ?fs (?z :: ?p)] =>
    let Hf := fresh in let Hn := fresh in let Hb := fresh in
    assert (Forall fits fs) as Hf by apply all_fit;
    assert (42 ≤ length (z :: p))%nat as Hn by (cbn [length]; lia);
    assert (Forall byte (z :: p)) as Hb by all_bytes;
    rewrite (proj1 (convs_ok fs (z :: p) Hf Hn Hb)); clear Hf Hn Hb;
    let q := eval cbv [revs rev_at f_off f_len slice splice eth_fields arp_fields ip_fields udp_fields icmp_fields
      arp_htype arp_ptype arp_op arp_sndpa arp_tarpa net_ethtype net_iplen net_ipid net_ipfrag net_ipsrc net_ipdst net_udpsport net_udpdport net_udplen
      net_iccksum net_icident net_icseq take drop app rev length Nat.add] in (revs fs (z :: p)) in
    change (revs fs (z :: p)) with q;
    unfold splice; cbn [length rev take drop app Nat.add]
  end.

Lemma eth_conv p :
  length p = Z.to_nat PACKLEN → Forall byte p → convs eth_fields (convs eth_fields p) = p.
Proof. intros Hl Hb. explicit p Hl Hb. by conv_simpl. Qed.

Lemma dec_ip p :
  length p = Z.to_nat PACKLEN → Forall byte p →
  ∃ a b, byte a ∧ byte b ∧ convs ip_fields (enc_ip p) = splice net_ipcksum [a; b] p.
Proof.
  intros Hl Hb. unfold enc_ip. set (c := Z.land 65535 _). clearbody c.
  exists (byte_of 0 c), (byte_of 1 c). split; [apply byte_of_range|]. split; [apply byte_of_range|].
  explicit p Hl Hb. unfold put16, le16. conv_simpl. unfold net_ipcksum. cbn [take drop app length Nat.add].
  by conv_simpl.
Qed.

Lemma dec_udp p a b :
  length p = Z.to_nat PACKLEN → Forall byte p → byte a → byte b →
  convs udp_fields (splice net_ipcksum [a; b] (convs udp_fields p)) = splice net_ipcksum [a; b] p.
Proof.
  intros Hl Hp Ha Hb. explicit p Hl Hp. conv_simpl. unfold net_ipcksum. cbn [take drop app length Nat.add].
  by conv_simpl.
Qed.

Lemma dec_icmp p a b c :
  length p = Z.to_nat PACKLEN → Forall byte p → byte a → byte b → 0 ≤ c < 65536 →
  convs icmp_fields (splice net_ipcksum [a; b] (put16 net_iccksum (Z.land 65535 (htons c))
    (put16 net_iccksum 0 (convs icmp_fields p)))) = splice net_ipcksum [a; b] (put16 net_iccksum c p).
Proof.
  intros Hl Hp Ha Hb Hc. explicit p Hl Hp. conv_simpl. unfold put16. rewrite le16_htons by done.
  assert (le16 c = [c mod 256; c / 256]) as ->.
  { unfold le16, byte_of. change (256 ^ 0) with 1. change (256 ^ 1) with 256. rewrite Z.div_1_r.
    do 2 f_equal. apply Z.mod_small. Z.to_euclidean_division_equations; lia. }
  assert (byte (c mod 256) ∧ byte (c / 256)) as [Hc1 Hc2] by (unfold byte; Z.to_euclidean_division_equations; lia).
  unfold net_ipcksum, net_iccksum, splice. cbn [take drop app length Nat.add le16]. conv_simpl. reflexivity.
Qed.
