(* ===== verification/NetIp.v ===== *)
(** The operations on IP packets: ip_encode writes the frame, ip_out hands it to the
    Ethernet driver and frees the buffer, ip_in takes a received frame apart. *)

From S2P Require Import Prelude Types Queue Heap ByteMem Words NetTypes DevTypes Kernel KInv Sched Semaphore Device Process UserMem.
From S2P Require Import BufPool Packet NetMem NetFmt Eth Arp NetEth Udp Ip NetWire.

(** Fields that an update elsewhere leaves alone. *)
Lemma slice_splice_other o n o' bs (p : list Z) :
  (o' + length bs ≤ length p)%nat → (o + n ≤ o' ∨ o' + length bs ≤ o)%nat → slice o n (splice o' bs p) = slice o n p.
Proof.
  intros Hl Ho. apply list_eq. intros i. unfold slice. rewrite !lookup_take. case_decide as Hi; [|done].
  rewrite !lookup_drop, lookup_splice by done. rewrite decide_False by lia. done.
Qed.

Lemma slice_convs o n fs p :
  Forall (λ f, f_off f + f_len f ≤ length p ∧ (o + n ≤ f_off f ∨ f_off f + f_len f ≤ o))%nat fs → Forall byte p →
  slice o n (convs fs p) = slice o n p.
Proof.
  intros Hf Hp. revert p Hf Hp. induction fs as [|f fs IH]; intros p Hf Hp; cbn [convs]; [done|].
  apply Forall_cons in Hf as [[Hl Ho] Hfs]. rewrite (conv_rev f p Hl Hp).
  assert (length (rev (slice (f_off f) (f_len f) p)) = f_len f) as Hr by (by rewrite length_rev, length_slice).
  rewrite IH.
  - by rewrite slice_splice_other by (rewrite Hr; lia).
  - by rewrite length_splice by (rewrite Hr; lia).
  - apply Forall_splice; [|done]. by apply Forall_rev, Forall_slice.
Qed.

(** Fields of the IP header that the encapsulated protocol's conversion leaves alone. *)
Lemma length_le16 v : length (le16 v) = 2%nat.
Proof. done. Qed.

Lemma slice_enc_proto o n p :
  length p = Z.to_nat PACKLEN → Forall byte p → (o + n ≤ 34)%nat →
  slice o n (enc_proto p) = slice o n p ∧ length (enc_proto p) = length p ∧ Forall byte (enc_proto p).
Proof.
  intros Hl Hp Ho. pose proof packlen_42 as H42. unfold enc_proto, put16.
  assert (Forall byte (splice net_udpcksum (le16 0) p) ∧ length (splice net_udpcksum (le16 0) p) = length p) as [Hb1 Hl1].
  { split; [apply Forall_splice; [apply le16_byte|done]|]. apply length_splice. rewrite ?length_le16; unfold net_udpcksum; lia. }
  destruct (convs_ok udp_fields _ (proj1 (proj2 (proj2 (proj2 all_fit)))) ltac:(by rewrite Hl1, Hl) Hb1) as (_ & Hb2 & Hl2).
  destruct (convs_ok icmp_fields p (proj2 (proj2 (proj2 (proj2 all_fit)))) ltac:(by rewrite Hl) Hp) as (_ & Hb3 & Hl3).
  case_bool_decide; [|case_bool_decide; [|done]].
  - split_and!; [|congruence|done]. rewrite slice_convs; [|rewrite Hl1|done].
    + apply slice_splice_other; rewrite ?length_le16; unfold net_udpcksum; lia.
    + repeat (apply Forall_cons; split); [..|apply Forall_nil; exact I]; cbn [f_off f_len];
        unfold net_udpsport, net_udpdport, net_udplen; lia.
  - set (c := Z.land 65535 _). clearbody c. set (q := convs icmp_fields p) in *.
    assert (length (splice net_iccksum (le16 0) q) = length q) as Hl4
      by (apply length_splice; rewrite ?length_le16; unfold net_iccksum; lia).
    split_and!.
    + rewrite slice_splice_other; [|rewrite Hl4; rewrite ?length_le16; unfold net_iccksum; lia|rewrite ?length_le16; unfold net_iccksum; lia].
      rewrite slice_splice_other; [|rewrite ?length_le16; unfold net_iccksum; lia|rewrite ?length_le16; unfold net_iccksum; lia].
      apply slice_convs; [|done].
      repeat (apply Forall_cons; split); [..|apply Forall_nil; exact I]; cbn [f_off f_len];
        unfold net_iccksum, net_icident, net_icseq; lia.
    + rewrite length_splice by (rewrite Hl4; rewrite ?length_le16; unfold net_iccksum; lia). congruence.
    + do 2 (apply Forall_splice; [apply le16_byte|]). done.
Qed.

(** The sum of an ICMP message with its checksum filled in. *)
Definition icmp_cleared (p : list Z) : list Z := put16 net_iccksum 0 (convs icmp_fields p).
Lemma be_sum_iccksum n a b q :
  (4 ≤ n)%nat → (34 + n ≤ length q)%nat → slice net_iccksum 2 q = [0; 0] →
  be_sum (slice net_ictype n (splice net_iccksum [a; b] q)) = be_sum (slice net_ictype n q) + (256 * a + b).
Proof.
  intros Hn Hl Hz. assert (∀ q', (34 + n ≤ length q')%nat →
    slice net_ictype n q' = slice net_ictype 2 q' ++ slice net_iccksum 2 q' ++ slice 38 (n - 4) q') as Hsp.
  { intros q' Hq'. unfold slice, net_ictype, net_iccksum.
    assert (drop 38 q' = drop 2 (drop 36 q')) as -> by (by rewrite drop_drop).
    assert (drop 36 q' = drop 2 (drop 34 q')) as -> by (by rewrite drop_drop).
    rewrite take_take_drop, take_take_drop. f_equal. lia. }
  rewrite !Hsp; [|done|by rewrite length_splice by (cbn; unfold net_iccksum; lia)].
  rewrite slice_splice_other by (cbn; unfold net_ictype, net_iccksum; lia).
  rewrite (slice_splice_other 38) by (cbn; unfold net_iccksum; lia).
  assert (slice net_iccksum 2 (splice net_iccksum [a; b] q) = [a; b]) as ->.
  { unfold slice, splice. rewrite drop_app_length'; [done|]. rewrite length_take. unfold net_iccksum. lia. }
  rewrite Hz. assert (Nat.Even (length (slice net_ictype 2 q))) as He.
  { rewrite length_slice by (unfold net_ictype; lia). by exists 1%nat. }
  rewrite (be_sum_app _ ([a; b] ++ _) He), (be_sum_app _ ([0; 0] ++ _) He). cbn [app be_sum]. lia.
Qed.

Section pool.
Context (NB : nat) (base psem : Z).
Abbreviation pruns := (pruns NB base psem).
Abbreviation pkt_state := (pkt_state NB base psem).
Abbreviation net_mem := (net_mem NB base psem).
Abbreviation pool := (pool NB base).

Lemma pruns_fields x fs p : Forall fits fs → pruns x (convs_mem (x + 4) fs) p tt (convs fs p).
Proof.
  intros Hf. apply pruns_convs. eapply Forall_impl; [exact Hf|]. intros f Hfit. unfold fits in Hfit.
  pose proof packlen_42. lia.
Qed.

(** The checksum of a part of the packet. *)
Lemma icmp_cksum_done Q s l F x p o n :
  pkt_state Q s l F x p → Z.of_nat o + n ≤ PACKLEN → 0 ≤ n →
  icmp_cksum (x + 4 + Z.of_nat o) n s = Done (icmp_ck (be_sum (slice o (Z.to_nat n) p))) s.
Proof.
  intros Hs Ho Hn.
  assert (o + Z.to_nat n ≤ length p)%nat as Hlen by (rewrite (ps_len _ _ _ _ _ _ _ _ _ Hs); unfold PACKLEN in *; lia).
  pose proof (icmp_cksum_spec (x + 4 + Z.of_nat o) (slice o (Z.to_nat n) p) s) as Hk.
  rewrite (length_slice _ _ _ Hlen), Z2Nat.id in Hk by done. apply Hk; [|unfold PACKLEN in *; lia].
  apply bytes_in_slice; [apply Hs|done].
Qed.

Lemma pruns_icmp_cksum x o n p :
  Z.of_nat o + n ≤ PACKLEN → 0 ≤ n →
  pruns x (icmp_cksum (x + 4 + Z.of_nat o) n) p (icmp_ck (be_sum (slice o (Z.to_nat n) p))) p.
Proof. intros Ho Hn. apply pruns_reads. intros Q s l F Hs. by eapply icmp_cksum_done. Qed.

(** ** ip_encode *)

Lemma pruns_enc_ip x p :
  pruns x (ip_hton (x + 4);; set16 (x + 4) net_ipcksum 0;; cksum ← ipcksum (x + 4);
           set16 (x + 4) net_ipcksum (Z.land 65535 (htons cksum));; eth_hton (x + 4)) p tt (convs eth_fields (enc_ip p)).
Proof.
  eapply pruns_bind; [apply pruns_fields, all_fit|].
  eapply pruns_bind; [apply pruns_set16; by apply Nat.leb_le|].
  eapply pruns_bind; [apply pruns_ipcksum|].
  eapply pruns_bind; [apply pruns_set16; by apply Nat.leb_le|]. apply pruns_fields, all_fit.
Qed.

Lemma pruns_encode x p : ip_packet p → pruns x (ip_encode (x + 4) (get8 net_ipproto p)) p tt (wire p).
Proof.
  intros [Hl Hp Hn]. unfold ip_encode, wire, enc_proto. case_bool_decide as Hu; [|case_bool_decide as Hi].
  - eapply pruns_bind; [|apply pruns_enc_ip].
    eapply pruns_bind; [apply pruns_set16; by apply Nat.leb_le|]. apply pruns_fields, all_fit.
  - eapply pruns_bind; [|apply pruns_enc_ip].
    eapply pruns_bind; [apply pruns_fields, all_fit|].
    eapply pruns_bind; [apply pruns_set16; by apply Nat.leb_le|].
    eapply pruns_bind; [apply pruns_get16; by apply Nat.leb_le|].
    set (p1 := put16 net_iccksum 0 (convs icmp_fields p)).
    assert (get16 net_iplen p1 = get16 net_iplen p) as E.
    { destruct (convs_ok icmp_fields p) as (_ & _ & Hcl); [apply all_fit|rewrite Hl; apply packlen_42|done|].
      unfold p1, get16, put16. rewrite slice_splice_other.
      - f_equal. apply slice_convs; [|done].
        pose proof packlen_42. rewrite Hl. unfold icmp_fields.
        repeat (apply Forall_cons; split); [..|apply Forall_nil; exact I]; cbn [f_off f_len];
          unfold net_iplen, net_iccksum, net_icident, net_icseq; lia.
      - rewrite Hcl, Hl. by apply Nat.leb_le.
      - unfold net_iplen, net_iccksum. lia. }
    eapply pruns_bind.
    + apply pruns_icmp_cksum; rewrite E; unfold IP_HDR_LEN, PACKLEN, net_ictype in *; lia.
    + apply pruns_set16; by apply Nat.leb_le.
  - eapply pruns_bind; [apply pruns_ret|apply pruns_enc_ip].
Qed.

Lemma pruns_done {A} x (f : M A) p a p' Q s l F :
  pruns x f p a p' → pkt_state Q s l F x p →
  ∃ h, f s = Done a (set_hp h s) ∧ pkt_state Q (set_hp h s) l F x p' ∧ outside x (hp s) h.
Proof. intros Hf Hs. by apply Hf. Qed.

(** ** Sending a frame *)

(** The state after the driver took a frame. *)
Definition frame_sent (e : sentry) (e' : ethcblk) (s : kst) : kst :=
  with_net (set_ethertab e') (set_semtab (taken_sem (osem (ethertab (net (dev s)))) e (semtab s)) s).

(** [c] places of the driver's ring are free and the frames [fs] wait. *)
Record tx_state (s : kst) (c : Z) (fs : list (list Z)) : Prop := Tx_state {
  tx_sem : ∃ e, semtab s !! osem (ethertab (net (dev s))) = Some e ∧ sstate e = S_USED ∧ scount e = c;
  tx_frames : tx_queue (ethertab (net (dev s))) fs;
  tx_free : c + Z.of_nat (length fs) ≤ txRingSize (ethertab (net (dev s))) }.

(** The semaphore of the places has a count above zero. *)
Definition tx_place (s : kst) (e : sentry) : Prop :=
  semtab s !! osem (ethertab (net (dev s))) = Some e ∧ sstate e = S_USED ∧ 0 < scount e.

Lemma ether_write_spec Q s rd n frame e e' :
  InvQ Q s → tx_place s e → 0 ≤ n ≤ PACKLEN →
  (∀ s', hp s' = hp s → rd n s' = Done frame s') → eth_put frame n (ethertab (net (dev s))) = Some e' →
  ether_call (ethwrite rd n) s = Done n (frame_sent e e' s) ∧ InvQ Q (frame_sent e e' s).
Proof.
  intros HQ (He & Hu & Hc) Hn Hrd Hput. unfold ether_call. kred. change (isbaddev ETHER0) with false. kred.
  destruct (ethwrite_spec Q (set_intr false s) rd n frame e e' (InvQ_intr _ _ _ HQ) He Hu Hc Hn) as [E HQ'].
  { by apply Hrd. } { exact Hput. }
  rewrite E. kred. split.
  - by destruct s.
  - unfold frame_sent. apply (InvQ_intr (intr s)) in HQ'. by destruct s.
Qed.

Lemma pkt_state_frame Q Q' s s' l F x p :
  pkt_state Q s l F x p → InvQ Q' s' → hp s' = hp s → bufs s' = bufs s → semtab s' !! psem = semtab s !! psem →
  netbufpool (net (dev s')) = netbufpool (net (dev s)) → pkt_state Q' s' l F x p.
Proof.
  intros [HQ Hm Hx Hu Hp Hl] HQ' E1 E2 E3 E4. split; try done; [by eapply net_mem_frame|by rewrite E1].
Qed.

Lemma pkt_state_intr Q s l F x p b : pkt_state Q s l F x p → pkt_state Q (set_intr b s) l F x p.
Proof. intros Hs. eapply pkt_state_frame; [exact Hs|apply InvQ_intr, Hs|done..]. Qed.

Lemma send_frame Q s l F x w n e e' :
  pkt_state Q s l F x w → tx_place s e → osem (ethertab (net (dev s))) ≠ psem → 0 ≤ n ≤ PACKLEN →
  eth_put (take (Z.to_nat n) w) n (ethertab (net (dev s))) = Some e' →
  ether_call (ethwrite (mem_buf (x + 4)) n) s = Done n (frame_sent e e' s) ∧ pkt_state Q (frame_sent e e' s) l F x w.
Proof.
  intros Hs He Hne Hn Hput. pose proof (ps_inv _ _ _ _ _ _ _ _ _ Hs) as HQ.
  destruct (ether_write_spec Q s (mem_buf (x + 4)) n (take (Z.to_nat n) w) e e' HQ He Hn) as [E HQ']; [|done|].
  - intros s' Eh. unfold mem_buf, pkbytes. apply hread_some. rewrite Eh.
    rewrite (ldbs_slice (hp s) (x + 4) w 0); [done|apply Hs|].
    rewrite (ps_len _ _ _ _ _ _ _ _ _ Hs). unfold PACKLEN in *. lia.
  - split; [exact E|]. eapply pkt_state_frame; [exact Hs|exact HQ'|done|done| |done].
    cbn. unfold taken_sem. by rewrite lookup_insert_ne.
Qed.

(** Freeing the buffer of a packet. *)
Lemma free_packet Q s l F x p :
  pkt_state Q s l F x p → Z.of_nat (length F) < INT_MAX →
  ∃ h b t, freebuf (x + 4) s = Done OK (net_upd s h b t (dev s)) ∧ InvQ Q (net_upd s h b t (dev s)) ∧
    net_mem (net_upd s h b t (dev s)) l (x :: F) ∧ same_but x (hp s) h ∧ (∀ i, i ≠ psem → t !! i = semtab s !! i).
Proof. intros [HQ Hm Hx Hu Hp Hl] Hlen. by apply net_freebuf. Qed.

(** ** ip_out *)

(** What a call that transmitted the packet of buffer [x] leaves: the frame is at the
    end of the driver's queue, the buffer is free, and no other memory has changed. *)
Record transmitted (Q : gmap Z (list Z)) (s s' : kst) (l : list (Z * Z)) (F : list Z) (x : Z) (frame : list Z) : Prop := Transmitted {
  tm_inv : InvQ Q s';
  tm_mem : net_mem s' l (x :: F);
  tm_eth : ∃ e', dev s' = set_net (set_ethertab e' (net (dev s))) (dev s);
  tm_queue : ∀ c fs, tx_state s c fs → tx_state s' (c - 1) (fs ++ [padded frame]);
  tm_heap : ∀ i, ¬ x ≤ i < x + STRIDE → ldb i (hp s') = ldb i (hp s);
  tm_rest : s' = net_upd s (hp s') (bufs s') (semtab s') (dev s') }.

(** The frame of packet [p]. *)
Definition ip_frame (p : list Z) : list Z := take (Z.to_nat (get16 net_iplen p + ETH_HDR_LEN)) (wire p).

Lemma ip_out_spec Q s l F x p c fs :
  pkt_state Q s l F x p → ip_packet p → tx_state s c fs → 0 < c → osem (ethertab (net (dev s))) ≠ psem →
  Z.of_nat (length F) < INT_MAX → ∃ s', ip_out (x + 4) s = Done OK s' ∧ transmitted Q s s' l F x (ip_frame p).
Proof.
  intros Hs Hp [(e & He & Hu & <-) Hq Hfree] Hc Hne Hlen. pose proof Hp as [Hl Hb Hn]. unfold ip_out, ip_frame.
  assert (tx_place s e) as Hpl by done.
  rewrite M_bind_eq, (read16 NB base psem _ _ _ _ _ _ net_iplen Hs) by (by apply Nat.leb_le). cbn [obind]. cbv zeta.
  rewrite M_bind_eq, (read8 NB base psem _ _ _ _ _ _ net_ipproto Hs) by (by apply Nat.leb_le). cbn [obind].
  destruct (pruns_encode x p Hp Q _ l F Hs) as (h2 & E2 & Hs2 & Ho2). rewrite M_bind_eq, E2. cbn [obind].
  set (n := get16 net_iplen p + ETH_HDR_LEN). set (w := wire p) in *. set (s2 := set_hp h2 _) in *.
  assert (0 ≤ n ≤ PACKLEN) as Hnr by (unfold n, ETH_HDR_LEN, PACKLEN, IP_HDR_LEN in *; lia).
  assert (length (take (Z.to_nat n) w) = Z.to_nat n) as Hw.
  { rewrite length_take, (ps_len _ _ _ _ _ _ _ _ _ Hs2). unfold PACKLEN in *. lia. }
  destruct (eth_put_queue _ _ (take (Z.to_nat n) w) Hq) as (e' & He' & Hq' & Hsz & Hos); [lia|rewrite Hw; unfold PACKLEN in *; lia|].
  rewrite Hw, Z2Nat.id in He' by lia.
  destruct (send_frame Q s2 l F x w n e e' Hs2 Hpl Hne Hnr He') as [E3 Hs3]. rewrite M_bind_eq, E3. cbn [obind].
  destruct (free_packet _ _ _ _ _ _ Hs3 Hlen) as (h & b & t & E4 & HQ & Hm & Hsame & Ht).
  rewrite M_bind_eq, E4. cbn [obind]. rewrite bool_decide_eq_false_2 by (unfold SYSERR; lia).
  eexists. split; [reflexivity|]. split; try done.
  - by exists e'.
  - intros c fs' [(e2 & He2 & _ & <-) Hq2 Hf2]. assert (e2 = e) as -> by congruence. split; cbn.
    + exists (set_scount (scount e - 1) e). rewrite Hos, Ht by done. cbn. unfold taken_sem. by rewrite lookup_insert_eq.
    + destruct (eth_put_queue _ _ (take (Z.to_nat n) w) Hq2) as (e2 & He2' & Hq2' & _); [lia|rewrite Hw; unfold PACKLEN in *; lia|].
      rewrite Hw, Z2Nat.id, He' in He2' by lia. by injection He2' as <-.
    + rewrite length_app, Hsz. cbn. lia.
  - intros i Hi. cbn [hp net_upd set_hp]. rewrite Hsame by (unfold STRIDE in Hi; lia).
    change (hp (frame_sent e e' s2)) with h2. apply Ho2. unfold STRIDE, PACKLEN in *. lia.
Qed.

(** ** ip_in *)

(** The packets that ip_in delivers to the local stack. *)
Definition accepts (nd : network) (proto dst : Z) : bool :=
  bool_decide (dst = IP_BCAST) ||
  (if ipvalid nd then bool_decide (dst = ipucast nd) || bool_decide (dst = ipbcast nd)
   else bool_decide (proto = IP_UDP)).

(** What ip_in makes of the frame of packet [p]: [p] itself, with other checksums. *)
Definition decoded (a b : Z) (p : list Z) : list Z :=
  splice net_ipcksum [a; b]
    (if bool_decide (get8 net_ipproto p = IP_UDP) then put16 net_udpcksum 0 p
     else if bool_decide (get8 net_ipproto p = IP_ICMP)
     then put16 net_iccksum (icmp_ck (icmp_sum (icmp_cleared p))) p
     else p).

(** The part of ip_in after the header's conversion, on a packet [q]. *)
Definition discard (pktptr : Z) : M unit := _ ← freebuf pktptr; ret tt.

(** A step of the code on the packet: run it and go on with the rest. *)
Ltac pkt_step H :=
  let h := fresh "h" in let E := fresh "E" in let Hs := fresh "Hs" in let Ho := fresh "Ho" in
  destruct H as (h & E & Hs & Ho); rewrite M_bind_eq, E; cbn [obind]; clear E.

Lemma ip_head Q s l F x p :
  pkt_state Q s l F x (enc_ip p) → length p = Z.to_nat PACKLEN → Forall byte p → get8 net_ipvh p = 69 →
  ∃ a b h, byte a ∧ byte b ∧ pkt_state Q (set_hp h s) l F x (splice net_ipcksum [a; b] p) ∧ outside x (hp s) h ∧
    ∀ (k : M unit) (r : M unit),
      (c ← ipcksum (x + 4);
       if bool_decide (c ≠ 0) then r
       else ip_ntoh (x + 4);; vh ← pk8 (x + 4) net_ipvh; if bool_decide (vh ≠ 69) then r else k) s = k (set_hp h s).
Proof.
  intros Hs Hl Hb Hvh. destruct (dec_ip p Hl Hb) as (a & b & Ha & Hbb & Ed). exists a, b.
  destruct (enc_ip_sum p Hl Hb) as (sm & Hsm & Esum & Hb2 & Hl2).
  destruct (pruns_ipcksum NB base psem x _ Q s l F Hs) as (h1 & E1 & Hs1 & Ho1).
  unfold hdr_sum in Esum. rewrite Esum, ip_ck_verifies in E1 by done.
  destruct (pruns_fields x ip_fields (enc_ip p) ltac:(apply all_fit) Q _ l F Hs1) as (h2 & E2 & Hs2 & Ho2).
  rewrite Ed in Hs2.
  destruct (pruns_get8 NB base psem x net_ipvh _ ltac:(by apply Nat.leb_le) Q _ l F Hs2) as (h3 & E3 & Hs3 & Ho3).
  unfold get8 in E3. rewrite slice_splice_other in E3;
    [|rewrite Hl; by apply Nat.leb_le|left; by apply Nat.leb_le].
  fold (get8 net_ipvh p) in E3. rewrite Hvh in E3.
  exists h3. split; [done|]. split; [done|]. split; [exact Hs3|].
  split; [by do 2 (eapply outside_trans; [eassumption|])|]. intros k r.
  rewrite M_bind_eq, E1. cbn [obind]. rewrite bool_decide_eq_false_2 by lia.
  unfold ip_ntoh. rewrite M_bind_eq, E2. cbn [obind]. rewrite M_bind_eq, E3. cbn [obind].
  by rewrite bool_decide_eq_false_2 by lia.
Qed.

(** The last part: delivery. *)
Lemma ip_deliver Q s l F x q :
  pkt_state Q s l F x q →
  ∃ h, pkt_state Q (set_hp h s) l F x q ∧ outside x (hp s) h ∧
    (dst ← pk32 (x + 4) net_ipdst; n ← getnet;
     let nd := NetData n in
     if bool_decide (dst = IP_BCAST) then ip_local (x + 4)
     else if negb (ipvalid nd) then
       if bool_decide (get8 net_ipproto q = IP_UDP) then ip_local (x + 4) else discard (x + 4)
     else if bool_decide (dst = ipucast nd) || bool_decide (dst = ipbcast nd) || bool_decide (dst = IP_BCAST)
     then ip_local (x + 4) else discard (x + 4)) s =
    (if accepts (NetData (net (dev s))) (get8 net_ipproto q) (get32 net_ipdst q) then ip_local (x + 4)
     else discard (x + 4)) (set_hp h s).
Proof.
  intros Hs. destruct (pruns_get32 NB base psem x net_ipdst q ltac:(by apply Nat.leb_le) Q s l F Hs) as (h & E & Hs' & Ho).
  exists h. split; [done|]. split; [done|]. rewrite M_bind_eq, E. cbn [obind]. rewrite M_bind_eq, getnet_done. cbn [obind].
  cbv zeta. change (net (dev (set_hp h s))) with (net (dev s)). unfold accepts.
  destruct (bool_decide (get32 net_ipdst q = IP_BCAST)); [done|]. cbn [orb]. rewrite orb_false_r.
  by destruct (ipvalid _).
Qed.
(** The encapsulated protocol: the packet without its checksums' changes, or nothing
    when the checksum of an ICMP message does not verify. *)
Definition lost_icmp (p : list Z) : Prop :=
  get8 net_ipproto p = IP_ICMP ∧ late_carry (icmp_sum (icmp_cleared p)).

Lemma icmp_enc_sum p a b :
  ip_packet p → 28 ≤ get16 net_iplen p → get8 net_ipproto p = IP_ICMP →
  be_sum (slice net_ictype (Z.to_nat (get16 net_iplen p - IP_HDR_LEN)) (splice net_ipcksum [a; b] (enc_proto p))) =
  icmp_sum (icmp_cleared p) + icmp_ck (icmp_sum (icmp_cleared p)) ∧ 0 ≤ icmp_sum (icmp_cleared p) < 65536 * 65535.
Proof.
  intros [Hl Hb Hn] Hi Hp. unfold IP_HDR_LEN in *. set (n := Z.to_nat (get16 net_iplen p - 20)).
  destruct (slice_enc_proto 0 0 p Hl Hb ltac:(lia)) as (_ & Hle & Hbe).
  assert (34 + n ≤ Z.to_nat PACKLEN)%nat as Hn2 by (unfold n, PACKLEN; lia).
  rewrite slice_splice_other; [|rewrite Hle, Hl; by apply Nat.leb_le|right; by apply Nat.leb_le].
  unfold enc_proto. rewrite Hp. rewrite bool_decide_eq_false_2, bool_decide_eq_true_2 by done.
  fold (icmp_cleared p). set (q := icmp_cleared p).
  assert (length q = Z.to_nat PACKLEN ∧ Forall byte q ∧ slice net_iccksum 2 q = [0; 0] ∧
    get16 net_iplen q = get16 net_iplen p) as (Hq & Hbq & Hz & Hg).
  { destruct (convs_ok icmp_fields p) as (_ & Hb3 & Hl3); [apply all_fit|rewrite Hl; apply packlen_42|done|].
    pose proof packlen_42. unfold q, icmp_cleared, put16. split_and!.
    - by rewrite length_splice by (rewrite length_le16; unfold net_iccksum; lia); rewrite Hl3.
    - apply Forall_splice; [apply le16_byte|done].
    - unfold slice, splice. rewrite drop_app_length'; [done|]. rewrite length_take. unfold net_iccksum. lia.
    - unfold get16. f_equal. rewrite slice_splice_other by (rewrite length_le16; unfold net_iccksum, net_iplen; lia).
      apply slice_convs; [|done].
      repeat (apply Forall_cons; split); [..|apply Forall_nil; exact I]; cbn [f_off f_len];
        unfold net_iplen, net_iccksum, net_icident, net_icseq; lia. }
  assert (icmp_sum q = be_sum (slice net_ictype n q)) as Es.
  { unfold icmp_sum, n, IP_HDR_LEN. by rewrite Hg. }
  split.
  - unfold put16 at 1. rewrite le16_htons by apply icmp_ck_range.
    rewrite be_sum_iccksum; [|unfold n; lia|by rewrite Hq|done]. rewrite <-Es.
    pose proof (Z.div_mod (icmp_ck (icmp_sum q)) 256 ltac:(lia)). lia.
  - rewrite Es. pose proof (be_sum_bound _ (Forall_slice byte net_ictype n q Hbq)) as Hs.
    rewrite length_slice in Hs by (unfold net_ictype; lia). split; [lia|].
    eapply Z.le_lt_trans; [apply Hs|]. unfold PACKLEN in Hn2. Z.to_euclidean_division_equations; lia.
Qed.

Lemma ip_proto Q s l F x p a b :
  pkt_state Q s l F x (splice net_ipcksum [a; b] (enc_proto p)) → byte a → byte b →
  ip_packet p → (get8 net_ipproto p = IP_ICMP → 28 ≤ get16 net_iplen p) →
  ∃ (ok : bool) q h, (if ok then ¬ lost_icmp p ∧ q = decoded a b p else lost_icmp p) ∧
    pkt_state Q (set_hp h s) l F x q ∧ outside x (hp s) h ∧
    ∀ k : Z → bool → M unit,
      (proto ← pk8 (x + 4) net_ipproto;
       ok ← (if bool_decide (proto = IP_UDP) then udp_ntoh (x + 4);; ret true
             else if bool_decide (proto = IP_ICMP) then
               iplen ← pk16 (x + 4) net_iplen;
               c ← icmp_cksum (x + 4 + Z.of_nat net_ictype) (iplen - IP_HDR_LEN);
               if bool_decide (c ≠ 0) then ret false
               else icmp_ntoh (x + 4);; ret true
             else ret true);
       k proto ok) s = k (get8 net_ipproto p) ok (set_hp h s).
Proof.
  intros Hs Ha Hb Hp Hi. pose proof Hp as [Hl Hbp Hn]. set (q := splice net_ipcksum [a; b] (enc_proto p)) in *.
  assert (∀ o n, (o + n ≤ 24 ∧ o + n ≤ 34)%nat → slice o n q = slice o n p) as Hsl.
  { intros o n Ho. destruct (slice_enc_proto o n p Hl Hbp ltac:(lia)) as (E & Hle & _). unfold q.
    rewrite slice_splice_other; [done|rewrite Hle, Hl; by apply Nat.leb_le|unfold net_ipcksum; lia]. }
  destruct (pruns_get8 NB base psem x net_ipproto _ ltac:(by apply Nat.leb_le) Q s l F Hs) as (h1 & E1 & Hs1 & Ho1).
  unfold get8 in E1. rewrite Hsl in E1 by (unfold net_ipproto; lia). fold (get8 net_ipproto p) in E1.
  unfold lost_icmp, decoded. destruct (decide (get8 net_ipproto p = IP_UDP)) as [Hu|Hu].
  - assert (get8 net_ipproto p ≠ IP_ICMP) as Hni by (rewrite Hu; done).
    assert (q = splice net_ipcksum [a; b] (convs udp_fields (put16 net_udpcksum 0 p))) as Eq.
    { unfold q, enc_proto. by rewrite bool_decide_eq_true_2. }
    destruct (pruns_fields x udp_fields q ltac:(apply all_fit) Q _ l F Hs1) as (h2 & E2 & Hs2 & Ho2).
    rewrite Eq, dec_udp in Hs2; [|unfold put16; rewrite length_splice; [done|rewrite Hl; by apply Nat.leb_le]|
      apply Forall_splice; [apply le16_byte|done]|done|done].
    exists true, (splice net_ipcksum [a; b] (put16 net_udpcksum 0 p)), h2. split_and!; try tauto.
    + by rewrite bool_decide_eq_true_2.
    + by eapply outside_trans.
    + intros k. rewrite M_bind_eq, E1. cbn [obind]. rewrite bool_decide_eq_true_2 by done.
      rewrite M_bind_eq, M_bind_eq. unfold udp_ntoh. rewrite E2. done.
  - destruct (decide (get8 net_ipproto p = IP_ICMP)) as [Hic|Hic].
    + destruct (icmp_enc_sum p a b Hp (Hi Hic) Hic) as [Esum Hsm]. fold q in Esum.
      destruct (pruns_get16 NB base psem x net_iplen _ ltac:(by apply Nat.leb_le) Q _ l F Hs1) as (h2 & E2 & Hs2 & Ho2).
      unfold get16 in E2. rewrite Hsl in E2 by (unfold net_iplen; lia). fold (get16 net_iplen p) in E2.
      destruct (pruns_icmp_cksum x net_ictype (get16 net_iplen p - IP_HDR_LEN) q
        ltac:(unfold net_ictype, PACKLEN, IP_HDR_LEN in *; lia) ltac:(unfold IP_HDR_LEN in *; lia) Q _ l F Hs2)
        as (h3 & E3 & Hs3 & Ho3). rewrite Esum in E3.
      set (s0 := icmp_sum (icmp_cleared p)) in *.
      destruct (decide (icmp_ck (s0 + icmp_ck s0) = 0)) as [Hc|Hc].
      * pose proof (proj1 (icmp_ck_verifies s0 Hsm) Hc) as Hnl. rewrite Hc in E3.
        destruct (pruns_fields x icmp_fields q ltac:(apply all_fit) Q _ l F Hs3) as (h4 & E4 & Hs4 & Ho4).
        assert (q = splice net_ipcksum [a; b] (put16 net_iccksum (Z.land 65535 (htons (icmp_ck s0)))
          (put16 net_iccksum 0 (convs icmp_fields p)))) as Eq.
        { unfold q, enc_proto. rewrite bool_decide_eq_false_2, bool_decide_eq_true_2 by done. done. }
        rewrite Eq, dec_icmp in Hs4; try done; [|apply icmp_ck_range].
        exists true, (splice net_ipcksum [a; b] (put16 net_iccksum (icmp_ck s0) p)), h4. split_and!; try tauto.
        -- by rewrite bool_decide_eq_false_2, bool_decide_eq_true_2.
        -- by do 3 (eapply outside_trans; [eassumption|]).
        -- intros k. rewrite M_bind_eq, E1. cbn [obind]. rewrite bool_decide_eq_false_2, bool_decide_eq_true_2 by done.
           rewrite M_bind_eq, M_bind_eq, E2. cbn [obind]. rewrite M_bind_eq, E3. cbn [obind].
           rewrite bool_decide_eq_false_2 by lia. unfold icmp_ntoh. rewrite M_bind_eq, E4. done.
      * assert (late_carry s0) as Hlc.
        { destruct (decide (65536 ≤ s0 mod 65536 + s0 / 65536)) as [|Hno]; [done|].
          destruct Hc. by apply (icmp_ck_verifies s0 Hsm). }
        exists false, q, h3. split_and!; try done.
        -- by do 2 (eapply outside_trans; [eassumption|]).
        -- intros k. rewrite M_bind_eq, E1. cbn [obind]. rewrite bool_decide_eq_false_2, bool_decide_eq_true_2 by done.
           rewrite M_bind_eq, M_bind_eq, E2. cbn [obind]. rewrite M_bind_eq, E3. cbn [obind].
           by rewrite bool_decide_eq_true_2.
    + exists true, q, h1. split_and!; try tauto.
      * unfold q, enc_proto. by rewrite !bool_decide_eq_false_2 by done.
      * intros k. rewrite M_bind_eq, E1. cbn [obind]. by rewrite !bool_decide_eq_false_2 by done.
Qed.
(** Fields below the encapsulated protocol, and not the header's checksum. *)
Lemma slice_decoded o n a b p :
  length p = Z.to_nat PACKLEN → (o + n ≤ 34)%nat → (o + n ≤ 24 ∨ 26 ≤ o)%nat → slice o n (decoded a b p) = slice o n p.
Proof.
  intros Hl Ho Ho'. pose proof packlen_42. unfold decoded, put16.
  assert (∀ o' v, (o' + 2 ≤ 42)%nat → length (splice o' (le16 v) p) = Z.to_nat PACKLEN) as Hlen.
  { intros o' v Hov. rewrite length_splice; [done|rewrite length_le16; lia]. }
  rewrite slice_splice_other; [| |cbn [length]; unfold net_ipcksum; lia].
  - case_bool_decide; [|case_bool_decide; [|done]];
      apply slice_splice_other; rewrite length_le16; unfold net_udpcksum, net_iccksum; lia.
  - case_bool_decide; [|case_bool_decide]; rewrite ?Hlen by (unfold net_udpcksum, net_iccksum; lia);
      cbn [length]; unfold net_ipcksum; lia.
Qed.

Lemma ip_in_spec Q s l F x p :
  pkt_state Q s l F x (enc_ip (enc_proto p)) → ip_packet p → get8 net_ipvh p = 69 →
  (get8 net_ipproto p = IP_ICMP → 28 ≤ get16 net_iplen p) →
  ∃ q h, pkt_state Q (set_hp h s) l F x q ∧ outside x (hp s) h ∧
    ((lost_icmp p ∧ ip_in (x + 4) s = discard (x + 4) (set_hp h s)) ∨
     (¬ lost_icmp p ∧ (∃ a b, byte a ∧ byte b ∧ q = decoded a b p) ∧
      ip_in (x + 4) s = (if accepts (NetData (net (dev s))) (get8 net_ipproto p) (get32 net_ipdst p)
                         then ip_local (x + 4) else discard (x + 4)) (set_hp h s))).
Proof.
  intros Hs Hp Hvh Hi. pose proof Hp as [Hl Hb Hn].
  destruct (slice_enc_proto net_ipvh 1 p Hl Hb ltac:(by apply Nat.leb_le)) as (Ev & Hle & Hbe).
  destruct (ip_head Q s l F x (enc_proto p) Hs) as (a & b & h1 & Ha & Hb1 & Hs1 & Ho1 & E1).
  { congruence. } { done. } { unfold get8. by rewrite Ev. }
  destruct (ip_proto Q _ l F x p a b Hs1 Ha Hb1 Hp Hi) as (ok & q & h2 & Hok & Hs2 & Ho2 & E2).
  assert (outside x (hp s) h2) as Ho by (by eapply outside_trans).
  change (set_hp h2 (set_hp h1 s)) with (set_hp h2 s) in *. destruct ok.
  - destruct Hok as [Hnl ->]. destruct (ip_deliver Q _ l F x _ Hs2) as (h3 & Hs3 & Ho3 & E3).
    change (set_hp h3 (set_hp h2 s)) with (set_hp h3 s) in *. exists (decoded a b p), h3.
    split; [exact Hs3|]. split; [by eapply outside_trans|]. right. split; [done|]. split; [eauto|].
    assert (get8 net_ipproto (decoded a b p) = get8 net_ipproto p) as Eg.
    { unfold get8. rewrite slice_decoded; [done|done|by apply Nat.leb_le|left; by apply Nat.leb_le]. }
    assert (get32 net_ipdst (decoded a b p) = get32 net_ipdst p) as Ed.
    { unfold get32. rewrite slice_decoded; [done|done|by apply Nat.leb_le|right; by apply Nat.leb_le]. }
    rewrite Eg, Ed in E3. unfold ip_in. rewrite E1, E2. exact E3.
  - exists q, h2. split; [done|]. split; [done|]. left. split; [done|].
    unfold ip_in. rewrite E1, E2. done.
Qed.
End pool.
#[global] Arguments pkt_state_intr {NB base psem}.
