(* ===== verification/NetPath.v ===== *)
(** From one machine to another: the frame that ip_out transmits, read into a buffer
    of the receiver, is the packet that was sent. *)

From S2P Require Import Prelude Types Queue Heap ByteMem Words NetTypes DevTypes Kernel KInv Sched Semaphore Device Process UserMem.
From S2P Require Import BufPool Packet NetMem NetFmt Eth Arp NetEth Udp Ip Net NetWire NetIp.

(** ** Encoding reads and writes the packet only, not the bytes behind it *)

Lemma slice_app_l o n (a r : list Z) : (o + n ≤ length a)%nat → slice o n (a ++ r) = slice o n a.
Proof. intros Hl. unfold slice. rewrite drop_app_le by lia. apply take_app_le. rewrite length_drop. lia. Qed.

Lemma splice_app_l o bs (a r : list Z) : (o + length bs ≤ length a)%nat → splice o bs (a ++ r) = splice o bs a ++ r.
Proof. intros Hl. unfold splice. rewrite take_app_le, drop_app_le by lia. by rewrite !app_assoc. Qed.

Lemma conv_app f (a r : list Z) : (f_off f + f_len f ≤ length a)%nat → conv f (a ++ r) = conv f a ++ r.
Proof.
  destruct f as [o|o]; cbn [f_off f_len conv]; intros Hl; unfold put16, put32, get16, get32;
    by rewrite slice_app_l, splice_app_l by done.
Qed.

Lemma convs_app fs : ∀ (a r : list Z),
  Forall fits fs → (42 ≤ length a)%nat → Forall byte a → convs fs (a ++ r) = convs fs a ++ r.
Proof.
  induction fs as [|f fs IH]; intros a r Hf Hl Hb; cbn [convs]; [done|]. apply Forall_cons in Hf as [Hff Hf].
  unfold fits in Hff. rewrite conv_app by lia. destruct (convs_ok [f] a) as (_ & Hb' & Hl'); cbn [convs] in *; [|done..|].
  - by apply Forall_singleton.
  - apply IH; [done|lia|done].
Qed.

Lemma enc_ip_app (a r : list Z) : (42 ≤ length a)%nat → Forall byte a → enc_ip (a ++ r) = enc_ip a ++ r.
Proof.
  intros Hl Hb. destruct (convs_ok ip_fields a ltac:(apply all_fit) Hl Hb) as (_ & _ & Hl').
  unfold enc_ip, put16, hdr_sum. rewrite convs_app by (done || apply all_fit).
  assert (∀ v, length (splice net_ipcksum (le16 v) (convs ip_fields a)) = length a) as Hs.
  { intros v. by rewrite length_splice by (rewrite length_le16; unfold net_ipcksum; lia). }
  rewrite (splice_app_l _ _ (convs _ _)), slice_app_l by (rewrite ?Hs, ?length_le16; unfold net_ipcksum, net_ipvh; lia).
  by rewrite splice_app_l by (rewrite ?Hs, ?length_le16; unfold net_ipcksum; lia).
Qed.

Lemma get16_app o (a r : list Z) : (o + 2 ≤ length a)%nat → get16 o (a ++ r) = get16 o a.
Proof. intros Hl. unfold get16. by rewrite slice_app_l. Qed.

(** The prefix of a packet that its length field covers. *)
Record ip_prefix (a : list Z) : Prop := Ip_prefix {
  ix_len : Z.of_nat (length a) = get16 net_iplen a + ETH_HDR_LEN;
  ix_min : (42 ≤ length a)%nat;
  ix_byte : Forall byte a }.

Lemma icmp_cleared_len (a : list Z) :
  (42 ≤ length a)%nat → Forall byte a →
  get16 net_iplen (icmp_cleared a) = get16 net_iplen a ∧ length (icmp_cleared a) = length a ∧ Forall byte (icmp_cleared a).
Proof.
  intros Hl Hb. destruct (convs_ok icmp_fields a ltac:(apply all_fit) Hl Hb) as (_ & Hb' & Hl').
  unfold icmp_cleared, put16. split_and!.
  - unfold get16. rewrite slice_splice_other by (rewrite length_le16; unfold net_iccksum, net_iplen; lia).
    f_equal. apply slice_convs; [|done].
    repeat (apply Forall_cons; split); [..|apply Forall_nil; exact I]; cbn [f_off f_len];
      unfold net_iplen, net_iccksum, net_icident, net_icseq; lia.
  - by rewrite length_splice by (rewrite length_le16; unfold net_iccksum; lia).
  - apply Forall_splice; [apply le16_byte|done].
Qed.

Lemma icmp_cleared_app (a r : list Z) :
  (42 ≤ length a)%nat → Forall byte a → icmp_cleared (a ++ r) = icmp_cleared a ++ r.
Proof.
  intros Hl Hb. unfold icmp_cleared, put16. rewrite convs_app by (done || apply all_fit).
  apply splice_app_l. destruct (convs_ok icmp_fields a ltac:(apply all_fit) Hl Hb) as (_ & _ & ->).
  rewrite length_le16. unfold net_iccksum. lia.
Qed.

Lemma icmp_sum_app (a r : list Z) : ip_prefix a → icmp_sum (icmp_cleared (a ++ r)) = icmp_sum (icmp_cleared a).
Proof.
  intros [Hn Hl Hb]. unfold ETH_HDR_LEN in Hn. destruct (icmp_cleared_len a Hl Hb) as (Hg & Hlq & _).
  rewrite icmp_cleared_app by done. unfold icmp_sum. rewrite get16_app by (unfold net_iplen; lia). rewrite Hg.
  by rewrite slice_app_l by (unfold net_ictype, IP_HDR_LEN; lia).
Qed.

Lemma enc_proto_app (a r : list Z) : ip_prefix a → enc_proto (a ++ r) = enc_proto a ++ r.
Proof.
  intros [Hn Hl Hb]. unfold ETH_HDR_LEN in Hn. unfold enc_proto, get8.
  rewrite slice_app_l by (unfold net_ipproto; lia). fold (get8 net_ipproto a).
  case_bool_decide; [|case_bool_decide; [|done]].
  - unfold put16. rewrite splice_app_l by (rewrite length_le16; unfold net_udpcksum; lia).
    apply convs_app; [apply all_fit| |apply Forall_splice; [apply le16_byte|done]].
    rewrite length_splice by (rewrite length_le16; unfold net_udpcksum; lia). lia.
  - fold (icmp_cleared (a ++ r)). fold (icmp_cleared a). destruct (icmp_cleared_len a Hl Hb) as (Hg & Hlq & Hbq).
    rewrite icmp_sum_app, icmp_cleared_app by done.
    unfold put16. apply splice_app_l. rewrite length_le16. unfold net_iccksum. lia.
Qed.

Lemma enc_proto_ok (a : list Z) :
  (42 ≤ length a)%nat → Forall byte a → length (enc_proto a) = length a ∧ Forall byte (enc_proto a).
Proof.
  intros Hl Hb. unfold enc_proto. case_bool_decide; [|case_bool_decide; [|done]].
  - destruct (convs_ok udp_fields (put16 net_udpcksum 0 a)) as (_ & Hb2 & ->); [apply all_fit|..]; unfold put16.
    + by rewrite length_splice by (rewrite length_le16; unfold net_udpcksum; lia).
    + apply Forall_splice; [apply le16_byte|done].
    + by rewrite length_splice by (rewrite length_le16; unfold net_udpcksum; lia).
  - fold (icmp_cleared a). destruct (icmp_cleared_len a Hl Hb) as (_ & Hlq & Hbq). unfold put16. split.
    + by rewrite length_splice by (rewrite length_le16; unfold net_iccksum; lia).
    + apply Forall_splice; [apply le16_byte|done].
Qed.

Lemma enc_ip_ok (a : list Z) :
  (42 ≤ length a)%nat → Forall byte a → length (enc_ip a) = length a ∧ Forall byte (enc_ip a).
Proof.
  intros Hl Hb. destruct (convs_ok ip_fields a ltac:(apply all_fit) Hl Hb) as (_ & Hb' & Hl'). unfold enc_ip, put16.
  assert (∀ v, length (splice net_ipcksum (le16 v) (convs ip_fields a)) = length a) as Hs.
  { intros v. by rewrite length_splice by (rewrite length_le16; unfold net_ipcksum; lia). }
  split.
  - rewrite length_splice; [done|]. rewrite Hs, length_le16. unfold net_ipcksum. lia.
  - by do 2 (apply Forall_splice; [apply le16_byte|]).
Qed.

(** Fields before the IP header. *)
Lemma slice_enc_ip o n (a : list Z) :
  (42 ≤ length a)%nat → Forall byte a → (o + n ≤ net_ipvh)%nat → slice o n (enc_ip a) = slice o n a.
Proof.
  intros Hl Hb Ho. destruct (convs_ok ip_fields a ltac:(apply all_fit) Hl Hb) as (_ & Hb' & Hl'). unfold enc_ip, put16.
  assert (∀ v, length (splice net_ipcksum (le16 v) (convs ip_fields a)) = length a) as Hs.
  { intros v. by rewrite length_splice by (rewrite length_le16; unfold net_ipcksum; lia). }
  unfold net_ipvh in Ho.
  do 2 rewrite slice_splice_other by (rewrite ?Hs, ?length_le16; unfold net_ipcksum; lia).
  apply slice_convs; [|done].
  repeat (apply Forall_cons; split); [..|apply Forall_nil; exact I]; cbn [f_off f_len];
    unfold net_iplen, net_ipid, net_ipfrag, net_ipsrc, net_ipdst; lia.
Qed.

(** The frame of a packet is the encoding of its prefix, whatever follows it in the
    buffer. *)
Lemma wire_app (a r : list Z) : ip_prefix a → wire (a ++ r) = wire a ++ r ∧ length (wire a) = length a.
Proof.
  intros Ha. pose proof Ha as [Hn Hl Hb]. unfold wire. rewrite enc_proto_app by done.
  destruct (enc_proto_ok a Hl Hb) as [Hl1 Hb1]. destruct (enc_ip_ok (enc_proto a)) as [Hl2 Hb2]; [by rewrite Hl1|done|].
  rewrite enc_ip_app by (rewrite ?Hl1; done).
  destruct (convs_ok eth_fields (enc_ip (enc_proto a))) as (_ & _ & Hl3); [apply all_fit|rewrite Hl2, Hl1; lia|done|].
  rewrite Hl3, Hl2. split; [|done]. apply convs_app; [apply all_fit|rewrite Hl2, Hl1; lia|done].
Qed.

Lemma ip_frame_prefix (p : list Z) :
  ip_packet p → 28 ≤ get16 net_iplen p →
  let a := take (Z.to_nat (get16 net_iplen p + ETH_HDR_LEN)) p in ip_prefix a ∧ ip_frame p = wire a.
Proof.
  intros [Hl Hb Hn] H28 a. unfold ETH_HDR_LEN, PACKLEN in *.
  assert (p = a ++ drop (Z.to_nat (get16 net_iplen p + 14)) p) as E by (symmetry; apply take_drop).
  assert (length a = Z.to_nat (get16 net_iplen p + 14)) as Hla.
  { unfold a. rewrite length_take, Hl. lia. }
  assert (get16 net_iplen p = get16 net_iplen a) as Eg.
  { rewrite E at 1. apply get16_app. unfold net_iplen. lia. }
  assert (ip_prefix a) as Ha.
  { split; [rewrite <-Eg; unfold ETH_HDR_LEN; lia|lia|by apply Forall_take]. }
  split; [done|]. unfold ip_frame, ETH_HDR_LEN. rewrite E at 2. destruct (wire_app a (drop (Z.to_nat (get16 net_iplen p + 14)) p) Ha) as [-> Hw].
  by rewrite take_app_length' by lia.
Qed.

Lemma get8_app o (a r : list Z) : (o + 1 ≤ length a)%nat → get8 o (a ++ r) = get8 o a.
Proof. intros Hl. unfold get8. by rewrite slice_app_l. Qed.
Lemma get32_app o (a r : list Z) : (o + 4 ≤ length a)%nat → get32 o (a ++ r) = get32 o a.
Proof. intros Hl. unfold get32. by rewrite slice_app_l. Qed.

Lemma lost_icmp_app (a r : list Z) : ip_prefix a → lost_icmp (a ++ r) ↔ lost_icmp a.
Proof.
  intros Ha. pose proof (ix_min _ Ha). unfold lost_icmp. rewrite icmp_sum_app by done.
  by rewrite get8_app by (unfold net_ipproto; lia).
Qed.

Lemma decoded_app c d (a r : list Z) : ip_prefix a → decoded c d (a ++ r) = decoded c d a ++ r.
Proof.
  intros Ha. pose proof (ix_min _ Ha) as Hl. unfold decoded. rewrite get8_app by (unfold net_ipproto; lia).
  rewrite icmp_sum_app by done. unfold put16. case_bool_decide; [|case_bool_decide].
  all: rewrite ?(splice_app_l _ (le16 _)) by (rewrite length_le16; unfold net_udpcksum, net_iccksum; lia).
  all: apply splice_app_l; rewrite ?length_splice by (rewrite length_le16; unfold net_udpcksum, net_iccksum; lia).
  all: unfold net_ipcksum; cbn [length]; lia.
Qed.

(** ** The receiver *)
Section pool.
Context (NB : nat) (base psem : Z).
Abbreviation pkt_state := (pkt_state NB base psem).

(** What the receiver makes of packet [a]: it hands [q] to the local stack, when the
    packet is for it, and discards it otherwise. *)
Inductive received (s : kst) (x : Z) (a r : list Z) : list Z → M unit → Prop :=
  | Received_lost q : lost_icmp a → received s x a r q (discard (x + 4))
  | Received_other c d : ¬ lost_icmp a → accepts (NetData (net (dev s))) (get8 net_ipproto a) (get32 net_ipdst a) = false →
      received s x a r (decoded c d a ++ r) (discard (x + 4))
  | Received_local c d : ¬ lost_icmp a → accepts (NetData (net (dev s))) (get8 net_ipproto a) (get32 net_ipdst a) = true →
      byte c → byte d → received s x a r (decoded c d a ++ r) (ip_local (x + 4)).

Lemma netin_receives Q s l F x a r :
  pkt_state Q s l F x (wire a ++ r) → ip_prefix a → get16 net_ethtype a = ETH_IP → get8 net_ipvh a = 69 →
  get16 net_iplen a ≤ 1500 →
  ∃ q h f, received s x a r q f ∧ pkt_state Q (set_hp h s) l F x q ∧ outside x (hp s) h ∧
    netin_frame (x + 4) s = f (set_hp h s).
Proof.
  intros Hs Ha Het Hvh Hmax. destruct (wire_app a r Ha) as [Ew Hlw]. pose proof Ha as [Hn Hl Hb].
  pose proof (ps_bytes _ _ _ _ _ _ _ _ _ Hs) as Hbr. apply Forall_app in Hbr as [_ Hbr].
  set (p := a ++ r). assert (length p = Z.to_nat PACKLEN) as Hlp.
  { unfold p. rewrite length_app, <-Hlw, <-length_app. apply Hs. }
  assert (ip_packet p) as Hp.
  { unfold ETH_HDR_LEN in Hn. split; [done|by apply Forall_app|].
    unfold p. rewrite get16_app by (unfold net_iplen; lia). unfold IP_HDR_LEN. lia. }
  destruct (enc_proto_ok p) as [Hl1 Hb1]; [rewrite Hlp; apply packlen_42|apply Hp|].
  destruct (enc_ip_ok (enc_proto p)) as [Hl2 Hb2]; [rewrite Hl1, Hlp; apply packlen_42|done|].
  destruct (pruns_fields NB base psem x eth_fields (wire a ++ r) ltac:(apply all_fit) Q s l F Hs) as (h1 & E1 & Hs1 & Ho1).
  rewrite <-Ew in Hs1. unfold wire at 1 in Hs1. fold p in Hs1. rewrite eth_conv in Hs1; [|congruence|done].
  destruct (ip_in_spec NB base psem Q _ l F x p Hs1 Hp) as (q & h2 & Hs2 & Ho2 & Hcase).
  { unfold p. by rewrite get8_app by (unfold net_ipvh; lia). }
  { intros _. unfold p. rewrite get16_app by (unfold net_iplen; lia). unfold ETH_HDR_LEN in Hn. lia. }
  change (set_hp h2 (set_hp h1 s)) with (set_hp h2 s) in *.
  assert (netin_frame (x + 4) s = ip_in (x + 4) (set_hp h1 s)) as En.
  { unfold netin_frame, eth_ntoh. rewrite M_bind_eq, E1. cbn [obind].
    rewrite M_bind_eq, (read16 NB base psem _ _ _ _ _ _ net_ethtype Hs1) by (by apply Nat.leb_le). cbn [obind].
    assert (get16 net_ethtype (enc_ip (enc_proto p)) = ETH_IP) as ->; [|done].
    unfold get16. rewrite slice_enc_ip by (rewrite ?Hl1, ?Hlp; done || apply packlen_42 || (unfold net_ethtype, net_ipvh; lia)).
    destruct (slice_enc_proto net_ethtype 2 p Hlp ltac:(apply Hp) ltac:(by apply Nat.leb_le)) as (-> & _).
    fold (get16 net_ethtype p). unfold p. by rewrite get16_app by (unfold net_ethtype; lia). }
  rewrite En. destruct Hcase as [[Hlost E2]|(Hnl & (c & d & Hc & Hd & ->) & E2)].
  - exists q, h2, (discard (x + 4)). split; [constructor; by apply (lost_icmp_app a r)|].
    split; [done|]. split; [by eapply outside_trans|done].
  - unfold p in Hnl, Hs2, E2. rewrite lost_icmp_app in Hnl by done. rewrite decoded_app in Hs2 by done.
    rewrite get8_app, get32_app in E2 by (unfold net_ipproto, net_ipdst; lia).
    change (NetData (net (dev (set_hp h1 s)))) with (NetData (net (dev s))) in E2.
    destruct (accepts _ _ _) eqn:Hac.
    + exists (decoded c d a ++ r), h2, (ip_local (x + 4)). split; [by constructor|].
      split; [done|]. split; [by eapply outside_trans|done].
    + exists (decoded c d a ++ r), h2, (discard (x + 4)). split; [by constructor|].
      split; [done|]. split; [by eapply outside_trans|done].
Qed.
End pool.
