(* ===== verification/Tty.v ===== *)
(** The tty driver: device/tty/ttyinit.c, ttygetc.c, ttyread.c, ttyputc.c,
    ttywrite.c, ttycontrol.c (the upper half, called by processes) and
    ttyhandler.c, ttyhandle_in.c, ttyhandle_out.c, ttykickout.c (the lower half,
    called by interrupts).  The halves share the three buffers of the control
    block; the counts of the input and the output semaphore tell how much of
    the first two is in use. *)

From S2P Require Import Prelude Types Heap ByteMem DevTypes Kernel KInv Sched Semaphore.

(** ** Characters *)
Definition TY_BACKSP : Z := 8.
Definition TY_BACKSP2 : Z := 127.
Definition TY_BELL : Z := 7.
Definition TY_EOFCH : Z := 4.
Definition TY_BLANK : Z := 32.
Definition TY_NEWLINE : Z := 10.
Definition TY_RETURN : Z := 13.
Definition TY_STOPCH : Z := 19.
Definition TY_STRTCH : Z := 17.
Definition TY_KILLCH : Z := 21.
Definition TY_UPARROW : Z := 94.

(** ** Access to the control block and to the UART's registers *)

Definition set_tty (m : Z) (t : ttycblk) (s : kst) : kst :=
  set_dev (set_ttytab (<[m := t]> (ttytab (dev s))) (dev s)) s.

Definition gettty (m : Z) : M ttycblk := λ s,
  match ttytab (dev s) !! m with Some t => Done t s | None => Fault end.
Definition ttyop {A} (m : Z) (f : ttycblk → option (A * ttycblk)) : M A := λ s,
  match ttytab (dev s) !! m with
  | Some t => match f t with Some (a, t') => Done a (set_tty m t' s) | None => Fault end
  | None => Fault
  end.
Definition settty (m : Z) (f : ttycblk → ttycblk) : M unit := ttyop m (λ t, Some (tt, f t)).

Definition setuart (f : uart_csreg → uart_csreg) : M unit :=
  modify (λ s, set_dev (set_uart (f (uart (dev s))) (dev s)) s).

(** Reading and writing [csrptr->buffer]. *)
Definition uart_read : M Z := λ s,
  let u := uart (dev s) in
  match u_rx u with
  | c :: r => Done (u8 c) (set_dev (set_uart (set_u_rx r u) (dev s)) s)
  | [] => Done 0 s
  end.
Definition uart_write (c : Z) : M unit := setuart (λ u, set_u_tx (u_tx u ++ [c]) u).

(** [*tail++ = c], [c = *head++]: outside the buffer, a fault. *)
Definition store (c : Z) (r : tyring) : option tyring :=
  if bool_decide (0 ≤ rtail r < Z.of_nat (length (rbuff r)))
  then Some (Ring (rhead r) (rtail r + 1) (<[Z.to_nat (rtail r) := c]> (rbuff r)))
  else None.
Definition fetch (r : tyring) : option (Z * tyring) :=
  if bool_decide (0 ≤ rhead r) then
    c ← rbuff r !! Z.to_nat (rhead r);
    Some (c, Ring (rhead r + 1) (rtail r) (rbuff r))
  else None.
(** [if (tail >= &buff[n]) tail = buff;] and the same for the head *)
Definition wrap_tail (n : Z) (r : tyring) : tyring :=
  if bool_decide (n ≤ rtail r) then Ring (rhead r) 0 (rbuff r) else r.
Definition wrap_head (n : Z) (r : tyring) : tyring :=
  if bool_decide (n ≤ rhead r) then Ring 0 (rtail r) (rbuff r) else r.

Definition put_in (ch : Z) (t : ttycblk) : option (unit * ttycblk) :=
  r ← store ch (tyi t); Some (tt, set_tyi (wrap_tail TY_IBUFLEN r) t).
Definition put_out (ch : Z) (t : ttycblk) : option (unit * ttycblk) :=
  r ← store ch (tyo t); Some (tt, set_tyo (wrap_tail TY_OBUFLEN r) t).
Definition put_echo (ch : Z) (t : ttycblk) : option (unit * ttycblk) :=
  r ← store ch (tye t); Some (tt, set_tye (wrap_tail TY_EBUFLEN r) t).
Definition get_in (t : ttycblk) : option (Z * ttycblk) :=
  '(c, r) ← fetch (tyi t); Some (c, set_tyi (wrap_head TY_IBUFLEN r) t).
Definition get_out (t : ttycblk) : option (Z * ttycblk) :=
  '(c, r) ← fetch (tyo t); Some (c, set_tyo (wrap_head TY_OBUFLEN r) t).
Definition get_echo (t : ttycblk) : option (Z * ttycblk) :=
  '(c, r) ← fetch (tye t); Some (c, set_tye (wrap_head TY_EBUFLEN r) t).

(** ** ttykickout.c *)
Definition UART_IER_ERBFI : Z := 1.
Definition UART_IER_ETBEI : Z := 2.
Definition ttykickout : M unit := setuart (set_u_ier (Z.lor UART_IER_ERBFI UART_IER_ETBEI)).

(** ** ttyhandle_in.c *)

Definition eputc (ch : Z) (m : Z) : M unit :=
  ttyop m (put_echo ch);;
  ttykickout.

Definition echoch (ch : Z) (m : Z) : M unit :=
  t ← gettty m;
  if (bool_decide (ch = TY_NEWLINE) || bool_decide (ch = TY_RETURN)) && tyecrlf (tyopts t) then
    eputc TY_RETURN m;; eputc TY_NEWLINE m
  else if (bool_decide (ch < TY_BLANK) || bool_decide (ch = 127)) && tyevis (tyopts t) then
    eputc TY_UPARROW m;; eputc (u8 (ch + 64)) m
  else eputc ch m.

Definition when (b : bool) (c : M unit) : M unit := if b then c else ret tt.

(** [tyitail -= k], wrapped around *)
Definition back_tail (k : Z) (r : tyring) : tyring :=
  let t := rtail r - k in
  Ring (rhead r) (if bool_decide (t < 0) then t + TY_IBUFLEN else t) (rbuff r).

(** [ch = *tyitail], outside the buffer a fault *)
Definition peek_tail (r : tyring) : option Z :=
  if bool_decide (0 ≤ rtail r) then rbuff r !! Z.to_nat (rtail r) else None.

Definition erase1 (m : Z) : M unit :=
  settty m (λ t, set_tyi (back_tail 1 (tyi t)) t);;
  ch ← ttyop m (λ t, c ← peek_tail (tyi t); Some (c, t));
  t ← gettty m;
  let o := tyopts t in
  let rub := eputc TY_BLANK m;; eputc TY_BACKSP m in
  if tyiecho t then
    if bool_decide (ch < TY_BLANK) || bool_decide (ch = 127) then
      when (tyevis o) (eputc TY_BACKSP m;; when (tyieback o) rub);;
      eputc TY_BACKSP m;;
      when (tyieback o) rub
    else
      eputc TY_BACKSP m;;
      when (tyieback o) rub
  else ret tt.

(** [avail = semcount(tyisem); if (avail < 0) avail = 0;] *)
Definition in_avail (t : ttycblk) : M Z :=
  avail ← semcount (tyisem t);
  ret (if bool_decide (avail < 0) then 0 else avail).

(** cbreak mode: echo, but no line editing *)
Definition in_cbreak (m ch avail : Z) : M unit :=
  t ← gettty m;
  if bool_decide (TY_IBUFLEN ≤ avail) then eputc (tyifullc (tyopts t)) m
  else
    ttyop m (put_in ch);;
    when (tyiecho t) (echoch ch m);;
    _ ← signal (tyisem t);
    ret tt.

(** cooked mode: the line being typed is made available at its end *)
Definition in_cooked (m ch : Z) : M unit :=
  t ← gettty m;
  let o := tyopts t in
  if bool_decide (ch = tyikillc o) && tyikill o then
    settty m (λ t, set_tyi (back_tail (tyicursor t) (tyi t)) t);;
    settty m (set_tyicursor 0);;
    eputc TY_RETURN m;;
    eputc TY_NEWLINE m
  else if (bool_decide (ch = tyierasec o) || bool_decide (ch = tyierasec2 o)) && tyierase o then
    if bool_decide (0 < tyicursor t) then
      settty m (set_tyicursor (tyicursor t - 1));;
      erase1 m
    else ret tt
  else if bool_decide (ch = TY_NEWLINE) || bool_decide (ch = TY_RETURN) then
    when (tyiecho t) (echoch ch m);;
    ttyop m (put_in ch);;
    _ ← signaln (tyisem t) (tyicursor t + 1);
    settty m (set_tyicursor 0)
  else
    avail ← in_avail t;
    if bool_decide (TY_IBUFLEN - 1 ≤ avail + tyicursor t) then eputc (tyifullc o) m
    else if bool_decide (ch = tyeofch o) && tyeof o then
      when (tyiecho t) (echoch ch m);;
      if bool_decide (tyicursor t ≠ 0) then ret tt
      else
        ttyop m (λ t, r ← store ch (tyi t); Some (tt, set_tyi r t));;
        _ ← signal (tyisem t);
        ret tt
    else
      when (tyiecho t) (echoch ch m);;
      settty m (λ t, set_tyicursor (tyicursor t + 1) t);;
      ttyop m (put_in ch).

Definition ttyhandle_in (m : Z) : M unit :=
  ch ← uart_read;
  t ← gettty m;
  let o := tyopts t in
  avail ← in_avail t;
  if bool_decide (tyimode t = TY_IMRAW) then
    if bool_decide (TY_IBUFLEN ≤ avail) then ret tt
    else
      ttyop m (put_in ch);;
      _ ← signal (tyisem t);
      ret tt
  else
    let ch := if bool_decide (ch = TY_RETURN) && tyicrlf o then TY_NEWLINE else ch in
    if tyoflow o && bool_decide (ch = tyostart o) then
      settty m (set_tyoheld false);;
      ttykickout
    else if tyoflow o && bool_decide (ch = tyostop o) then
      settty m (set_tyoheld true)
    else
      settty m (set_tyoheld false);;
      if bool_decide (tyimode t = TY_IMCBREAK) then in_cbreak m ch avail
      else in_cooked m ch.

(** ** ttyhandle_out.c *)
Definition UART_FIFO_SIZE : Z := 64.

(** [while ((uspace > 0) && tyehead != tyetail)]: the space that is left *)
Fixpoint echo_loop (uspace : nat) (m : Z) : M nat :=
  match uspace with
  | O => ret O
  | S n =>
    t ← gettty m;
    if bool_decide (rhead (tye t) = rtail (tye t)) then ret uspace
    else
      c ← ttyop m get_echo;
      uart_write c;;
      echo_loop n m
  end.

(** [while ((uspace > 0) && (avail > 0))]: the characters sent *)
Fixpoint out_loop (uspace : nat) (m avail ochars : Z) : M Z :=
  match uspace with
  | O => ret ochars
  | S n =>
    if bool_decide (0 < avail) then
      c ← ttyop m get_out;
      uart_write c;;
      out_loop n m (avail - 1) (ochars + 1)
    else ret ochars
  end.

(** [(tyehead == tyetail) && (semcount(tyosem) >= TY_OBUFLEN)] *)
Definition out_idle (m : Z) : M bool :=
  t ← gettty m;
  if bool_decide (rhead (tye t) = rtail (tye t)) then
    c ← semcount (tyosem t);
    ret (bool_decide (TY_OBUFLEN ≤ c))
  else ret false.

Definition out_off : M unit :=
  setuart (λ u, set_u_ier (Z.land (u_ier u) (Z.lnot UART_IER_ETBEI)) u).

Definition ttyhandle_out (m : Z) : M unit :=
  t ← gettty m;
  if tyoheld t then ret tt
  else
    idle ← out_idle m;
    if idle : bool then out_off
    else
      lvl ← gets (λ s, txfifo_lvl (uart (dev s)));
      let uspace := s32 (UART_FIFO_SIZE - lvl) in
      left ← echo_loop (Z.to_nat uspace) m;
      c ← semcount (tyosem t);
      ochars ← out_loop left m (TY_OBUFLEN - c) 0;
      (if bool_decide (0 < ochars) then _ ← signaln (tyosem t) ochars; ret tt else ret tt);;
      idle ← out_idle m;
      if idle : bool then out_off else ret tt.

(** ** ttyhandler.c: [iir] is the value read from the interrupt identification
    register and [lsr] the one read from the line status register; its DR bit is
    set as long as there are characters to read.  The console has minor number 0. *)
Definition UART_IIR_IRQ : Z := 1.
Definition UART_IIR_IDMASK : Z := 14.
Definition UART_IIR_THRE : Z := 2.
Definition UART_IIR_RDA : Z := 4.
Definition UART_IIR_RLSI : Z := 6.
Definition UART_IIR_RTO : Z := 12.
Definition UART_LSR_BI : Z := 16.

(** [while ((csrptr->lsr & UART_LSR_DR) != 0) ttyhandle_in(typtr, csrptr);] every
    turn reads one character, so their number bounds the turns. *)
Fixpoint rx_loop (fuel : nat) (m : Z) : M unit :=
  match fuel with
  | O => ret tt
  | S fuel =>
    rx ← gets (λ s, u_rx (uart (dev s)));
    match rx with
    | [] => ret tt
    | _ :: _ => ttyhandle_in m;; rx_loop fuel m
    end
  end.

Definition ttyhandler (iir lsr : Z) : M unit :=
  if bool_decide (Z.land iir UART_IIR_IRQ ≠ 0) then ret tt
  else
    let iir := Z.land iir UART_IIR_IDMASK in
    if bool_decide (iir = UART_IIR_RLSI) then
      if bool_decide (Z.land lsr UART_LSR_BI ≠ 0) then _ ← uart_read; ret tt else ret tt
    else if bool_decide (iir = UART_IIR_RDA) || bool_decide (iir = UART_IIR_RTO) then
      _ ← resched_cntl DEFER_START;
      n ← gets (λ s, length (u_rx (uart (dev s))));
      rx_loop n 0;;
      _ ← resched_cntl DEFER_STOP;
      ret tt
    else if bool_decide (iir = UART_IIR_THRE) then ttyhandle_out 0
    else ret tt.

(** ** ttyinit.c; the UART's registers other than the interrupt enable register
    are set there once and read nowhere. *)
Definition init_opts : ttyopts :=
  Ttyopts true true true true true TY_BACKSP TY_BACKSP2 true TY_EOFCH true TY_KILLCH
    true TY_STOPCH TY_STRTCH true TY_BELL.

Definition ttyinit (m : Z) : M Z :=
  isem ← semcreate 0;
  osem ← semcreate TY_OBUFLEN;
  settty m (λ t, Ttycblk (Ring 0 0 (rbuff (tyi t))) isem (Ring 0 0 (rbuff (tyo t))) osem
    (Ring 0 0 (rbuff (tye t))) TY_IMCOOKED true 0 false init_opts);;
  ttykickout;;
  ret OK.

(** ** ttygetc.c, ttyputc.c *)
Definition ttygetc (m : Z) : M Z :=
  t ← gettty m;
  _ ← wait (tyisem t);
  ch ← ttyop m get_in;
  t ← gettty m;
  if bool_decide (tyimode t = TY_IMCOOKED) && tyeof (tyopts t) && bool_decide (ch = tyeofch (tyopts t))
  then ret EOF
  else ret ch.

(** ttyputc after the test for a newline. *)
Definition put_char (m ch : Z) : M Z :=
  t ← gettty m;
  _ ← wait (tyosem t);
  ttyop m (put_out ch);;
  ttykickout;;
  ret OK.

(** The recursive call is for a return character, which is not a newline. *)
Definition ttyputc (m ch : Z) : M Z :=
  t ← gettty m;
  (if bool_decide (ch = TY_NEWLINE) && tyocrlf (tyopts t)
   then _ ← put_char m TY_RETURN; ret tt else ret tt);;
  put_char m ch.

(** ** ttyread.c, ttywrite.c *)
Fixpoint read_chars (n : nat) (m buff : Z) : M unit :=
  match n with
  | O => ret tt
  | S n =>
    c ← ttygetc m;
    hwrite (stb buff c);;
    read_chars n m (u32 (buff + 1))
  end.

Fixpoint read_line (n : nat) (m buff nread ch : Z) : M Z :=
  match n with
  | O => ret nread
  | S n =>
    if bool_decide (ch ≠ TY_NEWLINE) && bool_decide (ch ≠ TY_RETURN) then
      c ← ttygetc m;
      hwrite (stb buff c);;
      read_line n m (u32 (buff + 1)) (nread + 1) (u8 c)
    else ret nread
  end.

Definition ttyread (m buff count : Z) : M Z :=
  if bool_decide (count < 0) then ret SYSERR
  else
    t ← gettty m;
    if bool_decide (tyimode t ≠ TY_IMCOOKED) then
      count ← (if bool_decide (count = 0) then semcount (tyisem t) else ret count);
      if bool_decide (count = 0) then ret 0
      else
        read_chars (Z.to_nat count) m buff;;
        ret (Z.max 0 count)
    else
      firstch ← ttygetc m;
      if bool_decide (firstch = EOF) then ret EOF
      else
        hwrite (stb buff firstch);;
        read_line (Z.to_nat (count - 1)) m (u32 (buff + 1)) 1 (u8 firstch).

Fixpoint write_chars (n : nat) (m buff : Z) : M unit :=
  match n with
  | O => ret tt
  | S n =>
    c ← hread (ldb buff);
    _ ← ttyputc m c;
    write_chars n m (u32 (buff + 1))
  end.

Definition ttywrite (m buff count : Z) : M Z :=
  if bool_decide (count < 0) then ret SYSERR
  else if bool_decide (count = 0) then ret OK
  else
    write_chars (Z.to_nat count) m buff;;
    ret OK.

(** ** ttycontrol.c *)
Definition TC_NEXTC : Z := 3.
Definition TC_MODER : Z := 4.
Definition TC_MODEC : Z := 5.
Definition TC_MODEK : Z := 6.
Definition TC_ICHARS : Z := 8.
Definition TC_ECHO : Z := 9.
Definition TC_NOECHO : Z := 10.

Definition ttycontrol (m func : Z) : M Z :=
  t ← gettty m;
  if bool_decide (func = TC_NEXTC) then
    _ ← wait (tyisem t);
    ch ← ttyop m (λ t, c ← peek_tail (tyi t); Some (c, t));
    _ ← signal (tyisem t);
    ret ch
  else if bool_decide (func = TC_MODER) then settty m (set_tyimode TY_IMRAW);; ret OK
  else if bool_decide (func = TC_MODEC) then settty m (set_tyimode TY_IMCOOKED);; ret OK
  else if bool_decide (func = TC_MODEK) then settty m (set_tyimode TY_IMCBREAK);; ret OK
  else if bool_decide (func = TC_ICHARS) then semcount (tyisem t)
  else if bool_decide (func = TC_ECHO) then settty m (set_tyiecho true);; ret OK
  else if bool_decide (func = TC_NOECHO) then settty m (set_tyiecho false);; ret OK
  else ret SYSERR.
