(* ===== verification/Ring.v ===== *)
(** The circular buffers of the tty driver hold lists of characters. *)

From S2P Require Import Prelude Types Heap ByteMem DevTypes Kernel KInv Sched Semaphore Tty.

(** The buffer holds [l], from the head on, around the end of the array. *)
Record ring_view (N : Z) (r : tyring) (l : list Z) : Prop := Ring_view {
  rv_len : Z.of_nat (length (rbuff r)) = N;
  rv_head : 0 ≤ rhead r < N;
  rv_cap : Z.of_nat (length l) ≤ N;
  rv_tail : rtail r = (rhead r + Z.of_nat (length l)) mod N;
  rv_at : ∀ i c, l !! i = Some c → rbuff r !! Z.to_nat ((rhead r + Z.of_nat i) mod N) = Some c }.

Lemma mod_wrap x N : 0 ≤ x < 2 * N → x mod N = if bool_decide (N ≤ x) then x - N else x.
Proof.
  intros Hx. case_bool_decide.
  - symmetry. apply (Z.mod_unique_pos _ _ 1); lia.
  - apply Z.mod_small. lia.
Qed.

(** Reduce the positions of a ring of [N] places to linear arithmetic. *)
Ltac ring_pos := repeat (rewrite mod_wrap by lia); repeat case_bool_decide; try lia.

Lemma ring_put N r l c :
  ring_view N r l → Z.of_nat (length l) < N →
  ∃ r', store c r = Some r' ∧ ring_view N (wrap_tail N r') (l ++ [c]).
Proof.
  intros [Hlen Hh Hc Ht Hat] Hn. unfold store.
  assert (0 ≤ rtail r < N) as Htr by (rewrite Ht; apply Z.mod_pos_bound; lia).
  rewrite bool_decide_eq_true_2 by lia. eexists. split; [done|].
  assert (∀ t, t = (rhead r + Z.of_nat (length (l ++ [c]))) mod N →
    ring_view N (Ring (rhead r) t (<[Z.to_nat (rtail r):=c]> (rbuff r))) (l ++ [c])) as Hv.
  { intros t ->. split; cbn; [by rewrite length_insert|done| |done|].
    - rewrite length_app; cbn. lia.
    - intros i d Hi. apply lookup_app_Some in Hi as [Hi|[Hi Hd]].
      + pose proof (lookup_lt_Some _ _ _ Hi) as Hil. rewrite list_lookup_insert_ne; [by apply Hat|].
        rewrite Ht. ring_pos.
      + destruct (i - length l)%nat as [|k] eqn:Hk; [|by destruct k]. cbn in Hd. injection Hd as <-.
        assert (i = length l) as -> by lia. rewrite <-Ht, list_lookup_insert_eq; [done|lia]. }
  unfold wrap_tail; cbn. case_bool_decide as Hw; cbn; apply Hv; rewrite length_app; cbn; revert Hw; rewrite Ht; ring_pos.
Qed.

Lemma ring_get N r c l :
  ring_view N r (c :: l) → ∃ r', fetch r = Some (c, r') ∧ ring_view N (wrap_head N r') l.
Proof.
  intros [Hlen Hh Hc Ht Hat]. cbn in Hc, Ht. unfold fetch. rewrite bool_decide_eq_true_2 by lia.
  pose proof (Hat 0%nat c eq_refl) as H0. rewrite Z.add_0_r, Z.mod_small in H0 by lia. rewrite H0.
  eexists. split; [done|].
  assert (∀ h, h = (rhead r + 1) mod N → ring_view N (Ring h (rtail r) (rbuff r)) l) as Hv.
  { intros h ->. split; cbn; [done|apply Z.mod_pos_bound; lia|lia| |].
    - rewrite Ht, Zplus_mod_idemp_l. f_equal. lia.
    - intros i d Hi. rewrite Zplus_mod_idemp_l. rewrite <-(Hat (S i) d) by done. do 3 f_equal. lia. }
  unfold wrap_head; cbn. case_bool_decide as Hw; cbn; apply Hv; ring_pos.
Qed.

Lemma ring_back r l1 l2 :
  ring_view TY_IBUFLEN r (l1 ++ l2) → Z.of_nat (length l2) < TY_IBUFLEN →
  ring_view TY_IBUFLEN (back_tail (Z.of_nat (length l2)) r) l1.
Proof.
  intros [Hlen Hh Hc Ht Hat] Hl2. rewrite length_app in *. unfold TY_IBUFLEN in *.
  unfold back_tail. split; cbn; [done|done|lia| |].
  - rewrite Ht. unfold TY_IBUFLEN. ring_pos.
  - intros i c Hi. apply Hat. by apply lookup_app_l_Some.
Qed.

Lemma ring_peek r l c :
  ring_view TY_IBUFLEN r (l ++ [c]) → peek_tail (back_tail 1 r) = Some c.
Proof.
  intros Hv. pose proof (ring_back r l [c] Hv ltac:(done)) as Hb. change (Z.of_nat (length [c])) with 1 in Hb.
  destruct Hv as [Hlen Hh Hc Ht Hat]. rewrite length_app in *. cbn in Hc. unfold peek_tail.
  rewrite (rv_tail _ _ _ Hb). cbn. unfold TY_IBUFLEN in *.
  rewrite bool_decide_eq_true_2 by (apply Z.mod_pos_bound; lia). apply Hat.
  rewrite lookup_app_r, Nat.sub_diag by lia. done.
Qed.

Lemma ring_empty N r l :
  ring_view N r l → Z.of_nat (length l) < N →
  bool_decide (rhead r = rtail r) = bool_decide (l = []).
Proof.
  intros [Hlen Hh Hc Ht _] Hn. apply bool_decide_ext. rewrite Ht. destruct l as [|c l]; cbn in *.
  - rewrite Z.mod_small by lia. split; [done|lia].
  - split; [|done]. ring_pos.
Qed.

Lemma ring_tail_range N r l : ring_view N r l → 0 < N → 0 ≤ rtail r < N.
Proof. intros [_ _ _ -> _] ?. by apply Z.mod_pos_bound. Qed.
