(* ===== verification/NetArp.v ===== *)
(** The ARP cache: searching it, and sending a packet to an address it resolves. *)

From S2P Require Import Prelude Types Queue Heap ByteMem Words NetTypes DevTypes Kernel KInv Sched Semaphore Message Device Process UserMem.
From S2P Require Import BufPool Packet NetMem NetFmt Eth Arp NetEth Udp Ip NetWire NetIp.

(** ** The table *)

Lemma getarp_done i e s : arpcache (net (dev s)) !! i = Some e → getarp i s = Done e s.
Proof. unfold getarp. by intros ->. Qed.

(** The state with another entry [i]. *)
Definition with_arp (i : Z) (e : arpentry) (s : kst) : kst := with_net (λ n, set_arpcache (<[i := e]> (arpcache n)) n) s.

Lemma setarp_done i e f s : arpcache (net (dev s)) !! i = Some e → setarp i f s = Done tt (with_arp i (f e) s).
Proof. intros He. unfold setarp. rewrite M_bind_eq, (getarp_done _ _ _ He). done. Qed.

Lemma arp_find_spec p s n : ∀ i,
  is_table ARP_SIZ (arpcache (net (dev s))) → i + Z.of_nat n = ARP_SIZ → 0 ≤ i →
  (∀ j e, j < i → arpcache (net (dev s)) !! j = Some e → p e = false) →
  ∃ r, arp_find n i p s = Done r s ∧ first_in (arpcache (net (dev s))) p r.
Proof.
  induction n as [|n IH]; intros i Ht Hi H0 Hb; cbn [arp_find].
  - exists None. split; [done|]. constructor. intros j e He. pose proof (is_table_bound _ _ _ _ Ht He). eapply Hb; [|done]. lia.
  - destruct (is_table_get _ _ i Ht ltac:(lia)) as [e He]. rewrite M_bind_eq, (getarp_done _ _ _ He). cbn [obind].
    destruct (p e) eqn:Hp; [exists (Some i); split; [done|by econstructor]|].
    apply IH; try done; try lia. intros j e' Hj He'. destruct (decide (j = i)) as [->|]; [congruence|]. eapply Hb; [|done]. lia.
Qed.

Lemma arp_search_spec p s :
  is_table ARP_SIZ (arpcache (net (dev s))) →
  ∃ r, arp_search p s = Done r s ∧ first_in (arpcache (net (dev s))) p r.
Proof. intros Ht. apply arp_find_spec; try done. intros j e Hj He. pose proof (is_table_bound _ _ _ _ Ht He). lia. Qed.

(** An invariant of the cache: no address has two entries. *)
Definition arp_distinct (t : gmap Z arpentry) : Prop :=
  ∀ i j e e', t !! i = Some e → t !! j = Some e' → arstate e ≠ AR_FREE → arstate e' ≠ AR_FREE →
    arpaddr e = arpaddr e' → i = j.

(** An entry that replaces another one keeps it, when no entry has its address. *)
Lemma arp_distinct_insert t i e :
  arp_distinct t → (∀ j e', j ≠ i → t !! j = Some e' → arp_is (arpaddr e) e' = false) → arp_distinct (<[i := e]> t).
Proof.
  intros Ht Hn.
  assert (∀ j e', j ≠ i → t !! j = Some e' → arstate e' ≠ AR_FREE → arpaddr e' ≠ arpaddr e) as Hne.
  { intros j e' Hj He' Hu Ha. specialize (Hn j e' Hj He'). unfold arp_is in Hn.
    rewrite andb_false_iff, negb_false_iff, bool_decide_eq_true, bool_decide_eq_false in Hn. tauto. }
  intros j k ej ek Hj Hk Huj Huk Ha.
  apply lookup_insert_Some in Hj as [[<- <-]|[Hij Hj]], Hk as [[<- <-]|[Hik Hk]]; try done.
  - by destruct (Hne k ek ltac:(done) Hk Huk).
  - by destruct (Hne j ej ltac:(done) Hj Huj).
  - by apply (Ht j k ej ek).
Qed.

Lemma arp_distinct_free t i : arp_distinct t → arp_distinct (<[i := zero_arp]> t).
Proof.
  intros Ht j k ej ek Hj Hk Huj Huk Ha.
  apply lookup_insert_Some in Hj as [[<- <-]|[Hij Hj]]; [done|].
  apply lookup_insert_Some in Hk as [[<- <-]|[Hik Hk]]; [done|]. by apply (Ht j k ej ek).
Qed.

(** ** arp_alloc *)

(** The entry that arp_alloc takes: a free one, or else one that is resolved. *)
Definition is_free (e : arpentry) : bool := bool_decide (arstate e = AR_FREE).
Definition is_resolved (e : arpentry) : bool := bool_decide (arstate e = AR_RESOLVED).
Inductive arp_choice (t : gmap Z arpentry) : option Z → Prop :=
  | Choose_free i : first_in t is_free (Some i) → arp_choice t (Some i)
  | Choose_resolved r : first_in t is_free None → first_in t is_resolved r → arp_choice t r.

Lemma arp_alloc_spec s :
  is_table ARP_SIZ (arpcache (net (dev s))) →
  ∃ r, arp_choice (arpcache (net (dev s))) r ∧
    arp_alloc s = Done (default SYSERR r) (match r with Some i => with_arp i zero_arp s | None => s end).
Proof.
  intros Ht. unfold arp_alloc.
  destruct (arp_search_spec is_free s Ht) as (r & E & Hr). unfold is_free in E. rewrite M_bind_eq, E. cbn [obind].
  destruct r as [i|].
  - exists (Some i). split; [by constructor|]. inversion Hr as [? e He|]; subst.
    by rewrite M_bind_eq, (setarp_done _ _ _ _ He).
  - destruct (arp_search_spec is_resolved s Ht) as (r2 & E2 & Hr2). unfold is_resolved in E2.
    rewrite M_bind_eq, E2. cbn [obind]. exists r2. split; [by constructor 2|]. destruct r2 as [i|]; [|done].
    inversion Hr2 as [? e He|]; subst. by rewrite M_bind_eq, (setarp_done _ _ _ _ He).
Qed.

Lemma arp_choice_unique t r r' : arp_choice t r → arp_choice t r' → r = r'.
Proof.
  intros [i Hi|? Hi1 Hi2] [j Hj|? Hj1 Hj2].
  - by rewrite (first_in_unique _ _ _ _ Hj Hi).
  - by pose proof (first_in_unique _ _ _ _ Hj1 Hi).
  - by pose proof (first_in_unique _ _ _ _ Hi1 Hj).
  - by rewrite (first_in_unique _ _ _ _ Hj2 Hi2).
Qed.

Lemma arp_is_spec a e : arp_is a e = true ↔ arstate e ≠ AR_FREE ∧ arpaddr e = a.
Proof. unfold arp_is. by rewrite andb_true_iff, negb_true_iff, bool_decide_eq_false, bool_decide_eq_true. Qed.

(** An entry in use for address [pa], and the loops' test for it. *)
Definition entry_for (pa : Z) (e : arpentry) : bool := bool_decide (arstate e ≠ AR_FREE ∧ arpaddr e = pa).

Lemma entry_for_spec pa e : entry_for pa e = true ↔ arstate e ≠ AR_FREE ∧ arpaddr e = pa.
Proof. apply bool_decide_eq_true. Qed.

Lemma arp_is_entry pa e : arp_is pa e = entry_for pa e.
Proof. apply eq_true_iff_eq. by rewrite arp_is_spec, entry_for_spec. Qed.

(** The entry of a sender whose hardware address is known. *)
Definition resolved_to (ha : list Z) (e : arpentry) : arpentry := Arpentry AR_RESOLVED (arpaddr e) (arpid e) ha.

(** What a request for this machine with sender [pa], [ha] does to the cache, and the
    process that is told; nothing when there is no entry to take. *)
Inductive arp_learn (t : gmap Z arpentry) (pa : Z) (ha : list Z) : option (gmap Z arpentry * option Z) → Prop :=
  | Learn_update i e : first_in t (entry_for pa) (Some i) → t !! i = Some e → arstate e = AR_RESOLVED →
      arp_learn t pa ha (Some (<[i := resolved_to ha e]> t, None))
  | Learn_pending i e : first_in t (entry_for pa) (Some i) → t !! i = Some e → arstate e = AR_PENDING →
      arp_learn t pa ha (Some (<[i := resolved_to ha e]> t, Some (arpid e)))
  | Learn_new i : first_in t (entry_for pa) None → arp_choice t (Some i) →
      arp_learn t pa ha (Some (<[i := Arpentry AR_RESOLVED pa 0 ha]> t, None))
  | Learn_full : first_in t (entry_for pa) None → arp_choice t None → arp_learn t pa ha None.

(** Every cache is in one of the cases. *)
Lemma arp_choice_total t : is_table ARP_SIZ t → ∃ r, arp_choice t r.
Proof.
  intros Ht. destruct (first_in_total ARP_SIZ t is_free Ht) as [[i|] Hr]; [eexists; by apply Choose_free|].
  destruct (first_in_total ARP_SIZ t is_resolved Ht) as [r Hr']. exists r. by apply Choose_resolved.
Qed.

Lemma arp_learn_total t pa ha : is_table ARP_SIZ t → ∃ r, arp_learn t pa ha r.
Proof.
  intros Ht. destruct (first_in_total ARP_SIZ t (entry_for pa) Ht) as [[i|] Hr].
  - inversion Hr as [? e He Hp _|]; subst. apply entry_for_spec in Hp as [Hu _].
    destruct (arstate e) eqn:Hst; [done|eexists; by eapply Learn_pending|eexists; by eapply Learn_update].
  - destruct (arp_choice_total t Ht) as [[i|] Hc]; [eexists; by apply Learn_new|eexists; by apply Learn_full].
Qed.

(** An entry for the sender's address takes its hardware address. *)
Lemma arp_resolve_entry t pa ha i e :
  is_table ARP_SIZ t → first_in t (entry_for pa) (Some i) → t !! i = Some e →
  let t' := <[i := resolved_to ha e]> t in
  is_table ARP_SIZ t' ∧ (arp_distinct t → arp_distinct t') ∧
  ∃ i e, first_in t' (entry_for pa) (Some i) ∧ t' !! i = Some e ∧ arstate e = AR_RESOLVED ∧ arhaddr e = ha.
Proof.
  intros Ht Hi He t'. subst t'. inversion Hi as [? e1 He1 Hp Hb|]; subst. rewrite He in He1. injection He1 as <-.
  apply entry_for_spec in Hp as [Hu Ha]. split; [by apply is_table_insert; [|eapply is_table_bound]|]. split.
  - intros Hd. apply arp_distinct_insert; [done|]. intros j e' Hj He'. cbn [arpaddr resolved_to].
    apply not_true_is_false. intros [Hu' Ha']%arp_is_spec. apply Hj. by apply (Hd j i e' e).
  - exists i, (resolved_to ha e). split; [|split; [apply lookup_insert_eq|done]].
    econstructor; [apply lookup_insert_eq|by apply entry_for_spec|]. intros j e' Hj.
    rewrite lookup_insert_ne by lia. by apply Hb.
Qed.

(** The cache after arp_in: no address gets two entries, and the sender's address
    resolves to the hardware address it gave. *)
Lemma arp_learn_ok t pa ha t' note :
  is_table ARP_SIZ t → arp_learn t pa ha (Some (t', note)) →
  is_table ARP_SIZ t' ∧ (arp_distinct t → arp_distinct t') ∧
  ∃ i e, first_in t' (entry_for pa) (Some i) ∧ t' !! i = Some e ∧ arstate e = AR_RESOLVED ∧ arhaddr e = ha.
Proof.
  intros Ht Hl. inversion Hl as [i e Hi He Hr|i e Hi He Hr|i Hn Hc|]; subst; [by apply arp_resolve_entry..|].
  inversion Hn as [|Hno]; subst.
  assert (∃ e, t !! i = Some e) as [e He].
  { inversion Hc as [j Hj|r0 _ Hj]; subst; inversion Hj; subst; eauto. }
  split; [by apply is_table_insert; [|eapply is_table_bound]|]. split.
  - intros Hd. apply arp_distinct_insert; [done|]. intros j e' Hj He'. rewrite arp_is_entry. by apply (Hno j).
  - eexists i, _. split; [|split; [apply lookup_insert_eq|done]].
    econstructor; [apply lookup_insert_eq|by apply entry_for_spec|]. intros j e' Hj.
    rewrite lookup_insert_ne by lia. by apply Hno.
Qed.

(** ** The packets that arp_resolve and arp_in make *)

Lemma le_val_le32 v : uint32 v → le_val (le32 v) = v.
Proof.
  intros Hv. unfold uint32 in Hv. unfold le32, le_val, byte_of.
  change (256 ^ 0) with 1. change (256 ^ 1) with 256. change (256 ^ 2) with 65536. change (256 ^ 3) with 16777216.
  Z.to_euclidean_division_equations; lia.
Qed.

Lemma le_val_range l : length l = 4%nat → Forall byte l → uint32 (le_val l).
Proof.
  intros Hl Hb. destruct (four_bytes l Hl Hb) as (a & b & c & d & -> & ? & ? & ? & ?).
  unfold uint32, byte in *. cbn [le_val]. lia.
Qed.

(** The fields of the packet, in the order of the code, before the conversions. *)
Record arp_fields_are (dst src : list Z) (op : Z) (sha : list Z) (spa : Z) (tha : list Z) (tpa : Z) (q : list Z) : Prop := Arp_fields_are {
  af_dst : slice net_ethdst 6 q = dst;
  af_src : slice net_ethsrc 6 q = src;
  af_type : get16 net_ethtype q = ETH_ARP;
  af_htype : get16 arp_htype q = ARP_HTYPE;
  af_ptype : get16 arp_ptype q = ARP_PTYPE;
  af_op : get16 arp_op q = op;
  af_sndha : slice arp_sndha 6 q = sha;
  af_sndpa : get32 arp_sndpa q = spa;
  af_tarha : slice arp_tarha 6 q = tha;
  af_tarpa : get32 arp_tarpa q = tpa }.

Definition mac_addr (l : list Z) : Prop := length l = 6%nat ∧ Forall byte l.

(** The receiver of an ARP packet converts it back. *)
Lemma arp_make_fields dst src op sha spa tha tpa :
  mac_addr dst → mac_addr src → mac_addr sha → mac_addr tha → uint32 spa → uint32 tpa → byte op →
  arp_fields_are dst src op sha spa tha tpa
    (convs arp_fields (convs eth_fields (arp_make dst src op sha spa tha tpa fresh_apkt))).
Proof.
  intros [H1 B1] [H2 B2] [H3 B3] [H4 B4] Hs Ht Hop.
  pose proof (le_val_le32 spa Hs) as Es. pose proof (le_val_le32 tpa Ht) as Et. unfold uint32 in Hs, Ht.
  assert (le16 op = [op; 0]) as Eo.
  { unfold le16, byte_of. change (256 ^ 0) with 1. change (256 ^ 1) with 256. unfold byte in Hop.
    do 2 f_equal; Z.to_euclidean_division_equations; lia. }
  unfold le32 in Es, Et.
  unfold arp_make, eth_hton_local, arp_hton.
  destruct dst as [|? [|? [|? [|? [|? [|? [|? ?]]]]]]]; try discriminate H1.
  destruct src as [|? [|? [|? [|? [|? [|? [|? ?]]]]]]]; try discriminate H2.
  destruct sha as [|? [|? [|? [|? [|? [|? [|? ?]]]]]]]; try discriminate H3.
  destruct tha as [|? [|? [|? [|? [|? [|? [|? ?]]]]]]]; try discriminate H4.
  bytes_of B1. bytes_of B2. bytes_of B3. bytes_of B4.
  unfold put32, put16, put8. rewrite Eo.
  change (le16 ETH_ARP) with [6; 8]. change (le16 ARP_HTYPE) with [1; 0]. change (le16 ARP_PTYPE) with [0; 8].
  change (u8 ARP_HALEN) with 6. change (u8 ARP_PALEN) with 4. unfold fresh_apkt, splice, le32.
  cbn [length take drop app Nat.add replicate ARPLEN net_ethdst net_ethsrc net_ethtype arp_htype arp_ptype arp_hlen
    arp_plen arp_op arp_sndha arp_sndpa arp_tarha arp_tarpa].
  conv_simpl. split; try done; unfold get16; cbn; lia.
Qed.

(** ** arp_resolve without waiting *)

Definition is_bcast (nd : network) (a : Z) : bool := bool_decide (a = IP_BCAST) || bool_decide (a = ipbcast nd).

(** The hardware address that is known for the next hop [a]. *)
Inductive resolves (n : netstate) (a : Z) : list Z → Prop :=
  | Resolves_bcast : is_bcast (NetData n) a = true → resolves n a (ethbcast (NetData n))
  | Resolves_entry i e : is_bcast (NetData n) a = false → first_in (arpcache n) (arp_is a) (Some i) →
      arpcache n !! i = Some e → arstate e = AR_RESOLVED → resolves n a (arhaddr e).

(** Address [a] is not resolved and no request for it is sent: one is being waited
    for, or all entries of the cache are waited for. *)
Inductive unresolvable (n : netstate) (a : Z) : Prop :=
  | Unres_pending i e : is_bcast (NetData n) a = false → first_in (arpcache n) (arp_is a) (Some i) →
      arpcache n !! i = Some e → arstate e = AR_PENDING → unresolvable n a
  | Unres_full : is_bcast (NetData n) a = false → first_in (arpcache n) (arp_is a) None →
      (∀ i e, arpcache n !! i = Some e → arstate e = AR_PENDING) → unresolvable n a.

(** The lookup at the start of arp_resolve. *)
Lemma arp_lookup a r s :
  is_table ARP_SIZ (arpcache (net (dev s))) → first_in (arpcache (net (dev s))) (arp_is a) r →
  arp_search (arp_is a) s = Done r s.
Proof.
  intros Ht Hr. destruct (arp_search_spec (arp_is a) s Ht) as (r' & E & Hr'). by rewrite (first_in_unique _ _ _ _ Hr Hr').
Qed.

Section pool.
Context (NB : nat) (base psem : Z).
Abbreviation pkt_state := (pkt_state NB base psem).
Abbreviation transmitted := (transmitted NB base psem).
Abbreviation net_mem := (net_mem NB base psem).

Lemma arp_resolve_known Q s l F x p o a mac :
  pkt_state Q s l F x p → is_table ARP_SIZ (arpcache (net (dev s))) → resolves (net (dev s)) a mac →
  (o + length mac ≤ Z.to_nat PACKLEN)%nat → Forall byte mac →
  ∃ h, arp_resolve a (x + 4 + Z.of_nat o) s = Done OK (set_hp h s) ∧
    pkt_state Q (set_hp h s) l F x (splice o mac p) ∧ outside x (hp s) h.
Proof.
  intros Hs Ht Hr Ho Hb. unfold arp_resolve. rewrite M_bind_eq, getnet_done. cbn [obind].
  assert (∀ s, setbytes (x + 4 + Z.of_nat o) 0 mac s = setbytes (x + 4) o mac s) as Eset.
  { intros s0. unfold setbytes. by rewrite Z.add_0_r. }
  destruct Hr as [Hbc|i e Hbc Hf He Hres]; unfold is_bcast in Hbc; rewrite Hbc.
  - destruct (pruns_set NB base psem x o _ p Ho Hb Q s l F Hs) as (h & E & Hs' & Ho').
    exists h. by rewrite M_bind_eq, Eset, E.
  - kred. rewrite (arp_lookup a (Some i) (set_intr false s) Ht Hf). cbn [obind].
    rewrite M_bind_eq, M_bind_eq, (getarp_done _ _ (set_intr false s) He). cbn [ret obind].
    rewrite bool_decide_eq_true_2 by done.
    destruct (pruns_set NB base psem x o _ p Ho Hb Q _ l F (pkt_state_intr _ _ _ _ _ _ false Hs)) as (h & E & Hs' & Ho').
    exists h. rewrite M_bind_eq, Eset, E. kred. split; [by destruct s|]. split; [|exact Ho'].
    apply (pkt_state_intr _ _ _ _ _ _ (intr s)) in Hs'. by destruct s.
Qed.

Lemma arp_resolve_fails s a mac :
  is_table ARP_SIZ (arpcache (net (dev s))) → unresolvable (net (dev s)) a → arp_resolve a mac s = Done SYSERR s.
Proof.
  intros Ht Hr. unfold arp_resolve. rewrite M_bind_eq, getnet_done. cbn [obind].
  destruct Hr as [i e Hbc Hf He Hp|Hbc Hf Hp]; unfold is_bcast in Hbc; rewrite Hbc; kred.
  - rewrite (arp_lookup a (Some i) (set_intr false s) Ht Hf). cbn [obind].
    rewrite M_bind_eq, M_bind_eq, (getarp_done _ _ (set_intr false s) He). cbn [ret obind].
    rewrite bool_decide_eq_false_2 by (by rewrite Hp). kred. by destruct s.
  - rewrite (arp_lookup a None (set_intr false s) Ht Hf). cbn [ret obind]. rewrite M_bind_eq. cbn [ret obind].
    destruct (arp_alloc_spec (set_intr false s) Ht) as (r & Hc & E).
    assert (r = None) as ->.
    { destruct Hc as [i Hi|[i|] _ Hi]; [..|done]; inversion Hi as [? e He Hq _|]; subst;
        specialize (Hp _ _ He); unfold is_free, is_resolved in Hq; rewrite Hp in Hq; discriminate Hq. }
    rewrite M_bind_eq, E. cbn [default obind]. rewrite bool_decide_eq_true_2 by done. kred. by destruct s.
Qed.

(** ** ip_send *)

(** What ip_send does with a packet for address [dest] of another machine: the
    hardware address it sends it to, or nothing. *)
Inductive route (n : netstate) (dest : Z) : option (list Z) → Prop :=
  | Route_bcast : is_bcast (NetData n) dest = true → route n dest (Some (ethbcast (NetData n)))
  | Route_none : is_bcast (NetData n) dest = false → next_hop (NetData n) dest = 0 → route n dest None
  | Route_hop mac : is_bcast (NetData n) dest = false → next_hop (NetData n) dest ≠ 0 →
      resolves n (next_hop (NetData n) dest) mac → route n dest (Some mac)
  | Route_fail : is_bcast (NetData n) dest = false → next_hop (NetData n) dest ≠ 0 →
      unresolvable n (next_hop (NetData n) dest) → route n dest None.

(** Address [dest] is this machine. *)
Definition is_local (nd : network) (dest : Z) : bool :=
  bool_decide (Z.land dest 4278190080 = 2130706432) || bool_decide (dest = ipucast nd).

Lemma ip_send_head Q s l F x p :
  pkt_state Q s l F x p → is_local (NetData (net (dev s))) (get32 net_ipdst p) = false →
  ip_send (x + 4) s =
    (let nd := NetData (net (dev s)) in let dest := get32 net_ipdst p in
     if is_bcast nd dest then
       setbytes (x + 4) net_ethdst (ethbcast nd);; retval ← ip_out (x + 4); restore (intr s);; ret retval
     else if bool_decide (next_hop nd dest = 0) then _ ← freebuf (x + 4); ret SYSERR
     else
       retval ← arp_resolve (next_hop nd dest) (x + 4 + Z.of_nat net_ethdst);
       if bool_decide (retval ≠ OK) then _ ← freebuf (x + 4); ret SYSERR
       else retval ← ip_out (x + 4); restore (intr s);; ret retval) (set_intr false s).
Proof.
  intros Hs Hl. unfold is_local in Hl. apply orb_false_iff in Hl as [Hl1 Hl2].
  unfold ip_send. kred.
  rewrite (read32 NB base psem _ _ _ _ _ _ net_ipdst (pkt_state_intr _ _ _ _ _ _ false Hs)) by (by apply Nat.leb_le).
  cbn [obind]. rewrite M_bind_eq, getnet_done. cbn [obind]. cbv zeta.
  change (net (dev (set_intr false s))) with (net (dev s)). by rewrite Hl1, Hl2.
Qed.

Lemma ip_packet_mac p mac : ip_packet p → length mac = 6%nat → Forall byte mac → ip_packet (splice net_ethdst mac p).
Proof.
  intros [Hl Hb Hn] Hm Hmb. unfold PACKLEN in *. split.
  - rewrite length_splice; [done|]. rewrite Hm, Hl. by apply Nat.leb_le.
  - by apply Forall_splice.
  - unfold get16. rewrite slice_splice_other; [exact Hn| |right]; rewrite Hm, ?Hl; by apply Nat.leb_le.
Qed.

Lemma tx_state_frame s s' c fs :
  semtab s' = semtab s → ethertab (net (dev s')) = ethertab (net (dev s)) → tx_state s c fs → tx_state s' c fs.
Proof. intros E1 E2 [Hs Hq Hf]. split; by rewrite ?E1, ?E2. Qed.

(** A transmission that was done with interrupts disabled, after changes to the packet. *)
Lemma transmitted_intr s h Q s2 l F x frame :
  transmitted Q (set_hp h (set_intr false s)) s2 l F x frame → outside x (hp s) h →
  transmitted Q s (set_intr (intr s) s2) l F x frame.
Proof.
  intros [HQ Hm He Hq Hh Hr] Ho. split.
  - by apply InvQ_intr.
  - eapply net_mem_frame; [exact Hm|done..].
  - exact He.
  - intros c fs Htx. eapply tx_state_frame; [..|apply Hq]; [done..|]. by eapply tx_state_frame; [..|exact Htx].
  - intros i Hi. cbn [hp set_intr]. rewrite Hh by done. apply Ho. unfold STRIDE, PACKLEN in *. lia.
  - cbn [hp bufs semtab dev set_intr]. rewrite Hr at 1. by destruct s.
Qed.

(** The error returns: the packet is freed, and interrupts stay disabled. *)
Definition stuck (Q : gmap Z (list Z)) (s s' : kst) (l : list (Z * Z)) (F : list Z) (x : Z) : Prop :=
  InvQ Q s' ∧ net_mem s' l (x :: F) ∧ intr s' = false ∧ same_but x (hp s) (hp s') ∧
  s' = set_intr false (net_upd s (hp s') (bufs s') (semtab s') (dev s)).

Lemma discard_stuck Q s l F x p :
  pkt_state Q s l F x p → Z.of_nat (length F) < INT_MAX →
  ∃ s', (_ ← freebuf (x + 4); ret SYSERR) (set_intr false s) = Done SYSERR s' ∧ stuck Q s s' l F x.
Proof.
  intros Hs Hlen. destruct (free_packet NB base psem _ _ _ _ _ _ (pkt_state_intr _ _ _ _ _ _ false Hs) Hlen)
    as (h & b & t & E & HQ & Hm & Hsame & Ht).
  eexists. split; [rewrite M_bind_eq, E; reflexivity|]. split_and!; try done.
Qed.

Lemma ip_send_route Q s l F x p r c fs :
  pkt_state Q s l F x p → ip_packet p → is_table ARP_SIZ (arpcache (net (dev s))) →
  is_local (NetData (net (dev s))) (get32 net_ipdst p) = false → route (net (dev s)) (get32 net_ipdst p) r →
  tx_state s c fs → 0 < c → osem (ethertab (net (dev s))) ≠ psem → Z.of_nat (length F) < INT_MAX →
  match r with
  | Some mac => length mac = 6%nat → Forall byte mac →
      ∃ s', ip_send (x + 4) s = Done OK s' ∧ transmitted Q s s' l F x (ip_frame (splice net_ethdst mac p))
  | None => ∃ s', ip_send (x + 4) s = Done SYSERR s' ∧ stuck Q s s' l F x
  end.
Proof.
  intros Hs Hp Ht Hloc Hr Htx Hc Hne Hlen. rewrite (ip_send_head _ _ _ _ _ _ Hs Hloc). cbv zeta.
  pose proof (pkt_state_intr _ _ _ _ _ _ false Hs) as Hs1. set (s1 := set_intr false s) in *.
  assert (∀ mac h, length mac = 6%nat → Forall byte mac →
    pkt_state Q (set_hp h s1) l F x (splice net_ethdst mac p) → outside x (hp s) h →
    ∃ s', (retval ← ip_out (x + 4); restore (intr s);; ret retval) (set_hp h s1) = Done OK s' ∧
      transmitted Q s s' l F x (ip_frame (splice net_ethdst mac p))) as Hout.
  { intros mac h Hm Hmb Hs2 Ho.
    destruct (ip_out_spec NB base psem Q _ l F x _ c fs Hs2 (ip_packet_mac p mac Hp Hm Hmb)) as (s2 & E2 & Htm);
      [by eapply tx_state_frame; [..|exact Htx]|done..|].
    exists (set_intr (intr s) s2). split; [by rewrite M_bind_eq, E2|]. by apply (transmitted_intr s h). }
  destruct Hr as [Hb|Hb Hn|mac Hb Hn Hres|Hb Hn Hun]; rewrite Hb.
  - intros Hm Hmb. destruct (pruns_set NB base psem x net_ethdst (ethbcast (NetData (net (dev s)))) p
      ltac:(rewrite Hm; by apply Nat.leb_le) Hmb Q s1 l F Hs1) as (h & E & Hs2 & Ho).
    rewrite M_bind_eq, E. by apply Hout.
  - rewrite bool_decide_eq_true_2 by done. by eapply discard_stuck.
  - intros Hm Hmb. rewrite bool_decide_eq_false_2 by done.
    destruct (arp_resolve_known Q s1 l F x p net_ethdst _ mac Hs1 Ht Hres ltac:(rewrite Hm; by apply Nat.leb_le) Hmb)
      as (h & E & Hs2 & Ho). rewrite M_bind_eq, E. cbn [obind]. rewrite bool_decide_eq_false_2 by tauto. by apply Hout.
  - rewrite bool_decide_eq_false_2 by done.
    rewrite M_bind_eq, (arp_resolve_fails s1 _ _ Ht Hun). cbn [obind]. rewrite bool_decide_eq_true_2 by done.
    by eapply discard_stuck.
Qed.

(** ** arp_in *)

(** The state with another cache. *)
Definition with_cache (t : gmap Z arpentry) (s : kst) : kst := with_net (set_arpcache t) s.

(** A request for the hardware address of this machine. *)
Record arp_asks (nd : network) (q : list Z) : Prop := Arp_asks {
  aa_htype : get16 arp_htype q = ARP_HTYPE;
  aa_ptype : get16 arp_ptype q = ARP_PTYPE;
  aa_op : get16 arp_op q ≠ ARP_OP_RPLY;
  aa_valid : ipvalid nd = true;
  aa_target : get32 arp_tarpa q = ipucast nd }.

(** The part of arp_in that enters a new sender in the cache. *)
Lemma arp_in_new s pa ha t :
  is_table ARP_SIZ (arpcache (net (dev s))) → first_in (arpcache (net (dev s))) (entry_for pa) None →
  arp_learn (arpcache (net (dev s))) pa ha t →
  (slot ← arp_alloc;
   if bool_decide (slot = SYSERR) then ret false
   else setarp slot (λ e, set_arstate AR_RESOLVED (set_arhaddr ha (set_arpaddr pa e)));; ret true) s =
  Done (bool_decide (is_Some t)) (match t with Some (t, _) => with_cache t s | None => s end).
Proof.
  intros Ht Hn Hl. destruct (arp_alloc_spec s Ht) as (r & Hr & E). rewrite M_bind_eq, E. cbn [obind].
  inversion Hl as [i e Hi|i e Hi|i _ Hc|_ Hc]; subst.
  - by pose proof (first_in_unique _ _ _ _ Hi Hn).
  - by pose proof (first_in_unique _ _ _ _ Hi Hn).
  - apply (arp_choice_unique _ _ _ Hr) in Hc as ->. cbn [default].
    assert (∃ e, arpcache (net (dev s)) !! i = Some e) as [e He].
    { inversion Hr as [j Hj|r0 _ Hj]; subst; inversion Hj; subst; eauto. }
    pose proof (is_table_bound _ _ _ _ Ht He). rewrite (bool_decide_eq_false_2 (i = SYSERR)) by (unfold SYSERR; lia).
    rewrite M_bind_eq, (setarp_done i zero_arp) by apply lookup_insert_eq. cbn [ret obind].
    rewrite bool_decide_eq_true_2 by done. unfold with_cache, with_arp, with_net. destruct s. cbn.
    unfold set_dev, set_net, set_arpcache. cbn. by rewrite insert_insert_eq.
  - apply (arp_choice_unique _ _ _ Hr) in Hc as ->. cbn [default]. rewrite bool_decide_eq_true_2 by done.
    rewrite bool_decide_eq_false_2; [done|]. by intros [? ?].
Qed.

(** Sending a packet that is in an array on the stack. *)
Lemma arp_write_spec Q s apkt c fs :
  InvQ Q s → tx_state s c fs → 0 < c → length apkt = ARPLEN →
  ∃ e e', arp_write apkt s = Done 42 (frame_sent e e' s) ∧ InvQ Q (frame_sent e e' s) ∧
    tx_state (frame_sent e e' s) (c - 1) (fs ++ [padded apkt]) ∧ osem e' = osem (ethertab (net (dev s))).
Proof.
  intros HQ [(e & He & Hu & <-) Hq Hfree] Hc Hl.
  destruct (eth_put_queue _ _ apkt Hq) as (e' & He' & Hq' & Hsz & Hos); [lia|rewrite Hl; by apply Nat.leb_le|].
  assert (tx_place s e) as Hpl by done. rewrite Hl in He'. exists e, e'.
  destruct (ether_write_spec Q s (local_buf apkt) 42 apkt e e' HQ Hpl) as [E HQ'].
  - unfold PACKLEN. lia.
  - intros s' _. unfold local_buf. rewrite bool_decide_eq_true_2 by (rewrite Hl; done). by rewrite take_ge by (rewrite Hl; done).
  - exact He'.
  - split; [exact E|]. split; [exact HQ'|]. split; [|exact Hos]. split; cbn.
    + exists (set_scount (scount e - 1) e). rewrite Hos. unfold taken_sem. by rewrite lookup_insert_eq.
    + exact Hq'.
    + rewrite length_app, Hsz. cbn. lia.
Qed.

Lemma length_arp_make dst src op sha spa tha tpa :
  length dst = 6%nat → length src = 6%nat → length sha = 6%nat → length tha = 6%nat →
  length (arp_make dst src op sha spa tha tpa fresh_apkt) = ARPLEN.
Proof.
  intros H1 H2 H3 H4. unfold arp_make, eth_hton_local, arp_hton.
  destruct dst as [|? [|? [|? [|? [|? [|? [|? ?]]]]]]]; try discriminate H1.
  destruct src as [|? [|? [|? [|? [|? [|? [|? ?]]]]]]]; try discriminate H2.
  destruct sha as [|? [|? [|? [|? [|? [|? [|? ?]]]]]]]; try discriminate H3.
  destruct tha as [|? [|? [|? [|? [|? [|? [|? ?]]]]]]]; try discriminate H4. reflexivity.
Qed.

(** The packet is freed, and the mask restored. *)
Lemma discard_restore Q s l F x p b :
  pkt_state Q s l F x p → Z.of_nat (length F) < INT_MAX →
  ∃ s', (_ ← freebuf (x + 4); restore b) s = Done tt s' ∧ InvQ Q s' ∧ net_mem s' l (x :: F) ∧ intr s' = b ∧
    dev s' = dev s ∧ (∀ i, i ≠ psem → semtab s' !! i = semtab s !! i) ∧
    proctab s' = proctab s ∧ queuetab s' = queuetab s.
Proof.
  intros Hs Hlen. destruct (free_packet NB base psem _ _ _ _ _ _ Hs Hlen) as (h & b' & t & E & HQ & Hm & Hsame & Ht).
  eexists. split; [rewrite M_bind_eq, E; reflexivity|]. split_and!; try done.
  - by apply InvQ_intr.
  - eapply net_mem_frame; [exact Hm|done..].
Qed.

(** Telling the process that waits for an address. *)
Definition notify (note : option Z) : M unit :=
  match note with Some pid => _ ← send pid OK; ret tt | None => ret tt end.

(** The part of arp_in that updates the entry of a known sender. *)
Lemma arp_in_update s pa ha t note i :
  first_in (arpcache (net (dev s))) (entry_for pa) (Some i) →
  arp_learn (arpcache (net (dev s))) pa ha (Some (t, note)) →
  (setarp i (set_arhaddr ha);;
   arptr ← getarp i;
   if bool_decide (arstate arptr = AR_PENDING) then
     setarp i (set_arstate AR_RESOLVED);; _ ← send (arpid arptr) OK; ret tt
   else ret tt) s = notify note (with_cache t s).
Proof.
  intros Hr Hl. inversion Hl as [j e Hi He Hst|j e Hi He Hst|j Hn|]; subst.
  - pose proof (first_in_unique _ _ _ _ Hr Hi) as [= ->]. rewrite M_bind_eq, (setarp_done _ _ _ _ He). cbn [obind].
    rewrite M_bind_eq, (getarp_done j (set_arhaddr ha e)) by apply lookup_insert_eq. cbn [obind].
    rewrite bool_decide_eq_false_2 by (cbn; by rewrite Hst). destruct e. cbn in Hst. by subst.
  - pose proof (first_in_unique _ _ _ _ Hr Hi) as [= ->]. rewrite M_bind_eq, (setarp_done _ _ _ _ He). cbn [obind].
    rewrite M_bind_eq, (getarp_done j (set_arhaddr ha e)) by apply lookup_insert_eq. cbn [obind].
    rewrite bool_decide_eq_true_2 by done. rewrite M_bind_eq, (setarp_done j (set_arhaddr ha e)) by apply lookup_insert_eq.
    cbn [obind notify arpid set_arhaddr]. destruct s. unfold with_arp, with_cache, with_net, set_dev, set_net, set_arpcache.
    cbn. by rewrite insert_insert_eq.
  - by pose proof (first_in_unique _ _ _ _ Hr Hn).
Qed.

Lemma pkt_state_cache Q s l F x p t : pkt_state Q s l F x p → pkt_state Q (with_cache t s) l F x p.
Proof. intros Hs. eapply pkt_state_frame; [exact Hs|apply InvQ_dev, Hs|done..]. Qed.

(** Answering: the rest of arp_in once the sender is in the cache. *)
Lemma arp_in_answers Q s l F x p c fs b :
  pkt_state Q s l F x p → tx_state s c fs → 0 < c → osem (ethertab (net (dev s))) ≠ psem →
  Z.of_nat (length F) < INT_MAX → length (ethucast (NetData (net (dev s)))) = 6%nat →
  let reply := arp_reply (NetData (net (dev s))) (slice arp_sndha 6 p) (get32 arp_sndpa p) fresh_apkt in
  ∃ s', (n ← getnet; ha ← pkbytes (x + 4) arp_sndha 6; pa ← pk32 (x + 4) arp_sndpa;
         _ ← arp_write (arp_reply (NetData n) ha pa fresh_apkt); _ ← freebuf (x + 4); restore b) s = Done tt s' ∧
    InvQ Q s' ∧ net_mem s' l (x :: F) ∧ intr s' = b ∧ arpcache (net (dev s')) = arpcache (net (dev s)) ∧
    tx_state s' (c - 1) (fs ++ [padded reply]) ∧ proctab s' = proctab s ∧ queuetab s' = queuetab s.
Proof.
  intros Hs Htx Hc Hne Hlen Hu reply. rewrite M_bind_eq, getnet_done. cbn [obind].
  rewrite M_bind_eq, (read_bytes NB base psem _ _ _ _ _ _ arp_sndha 6 Hs) by (by apply Nat.leb_le). cbn [obind].
  rewrite M_bind_eq, (read32 NB base psem _ _ _ _ _ _ arp_sndpa Hs) by (by apply Nat.leb_le). cbn [obind].
  assert (length (slice arp_sndha 6 p) = 6%nat) as Hha.
  { apply length_slice. rewrite (ps_len _ _ _ _ _ _ _ _ _ Hs). by apply Nat.leb_le. }
  destruct (arp_write_spec Q s reply c fs (ps_inv _ _ _ _ _ _ _ _ _ Hs) Htx Hc) as (e & e' & E & HQ & Htx' & Hos).
  { exact (length_arp_make _ _ _ _ _ _ _ Hha Hu Hu Hha). }
  rewrite M_bind_eq. fold reply. rewrite E. cbn [obind].
  assert (pkt_state Q (frame_sent e e' s) l F x p) as Hs2.
  { eapply pkt_state_frame; [exact Hs|exact HQ|done|done| |done]. cbn. unfold taken_sem. by rewrite lookup_insert_ne. }
  destruct (discard_restore Q _ l F x p b Hs2 Hlen) as (s' & E2 & HQ2 & Hm & Hi & Hd & Hsem & Hp & Hq').
  exists s'. split; [exact E2|]. split; [done|]. split; [done|]. split; [done|]. rewrite Hd. split; [done|]. split; [|done].
  destruct Htx' as [Hse Hq Hf]. split; rewrite Hd; [|done..]. rewrite Hsem; [done|]. cbn. by rewrite Hos.
Qed.

(** What a process that answers a request has: the request in a buffer, and a place
    for the reply. *)
Record can_answer (Q : gmap Z (list Z)) (s : kst) (l : list (Z * Z)) (F : list Z) (x : Z) (q : list Z)
    (c : Z) (fs : list (list Z)) : Prop := Can_answer {
  an_pkt : pkt_state Q s l F x q;
  an_asks : arp_asks (NetData (net (dev s))) q;
  an_mac : mac_addr (ethucast (NetData (net (dev s))));
  an_ip : uint32 (ipucast (NetData (net (dev s))));
  an_tx : tx_state s c fs;
  an_place : 0 < c;
  an_sems : osem (ethertab (net (dev s))) ≠ psem;
  an_room : Z.of_nat (length F) < INT_MAX }.

Lemma can_answer_frame Q Q' s s' l F x q c fs :
  can_answer Q s l F x q c fs → InvQ Q' s' → hp s' = hp s → bufs s' = bufs s → semtab s' = semtab s →
  NetData (net (dev s')) = NetData (net (dev s)) → netbufpool (net (dev s')) = netbufpool (net (dev s)) →
  ethertab (net (dev s')) = ethertab (net (dev s)) → can_answer Q' s' l F x q c fs.
Proof.
  intros [Hs Ha Hm Hip Htx Hc Ho Hl] HQ' E1 E2 E3 E4 E5 E6. split; try done; rewrite ?E4, ?E6; try done.
  - eapply pkt_state_frame; [exact Hs|done|done|done|by rewrite E3|done].
  - by eapply tx_state_frame.
Qed.

Lemma can_answer_cache Q s l F x q c fs t : can_answer Q s l F x q c fs → can_answer Q (with_cache t s) l F x q c fs.
Proof. intros Ha. eapply can_answer_frame; [exact Ha|apply InvQ_dev, Ha|done..]. Qed.

(** The request [q] in buffer [x] is answered: behind the frames [fs] there is a reply
    that, converted by its receiver, gives the sender this machine's addresses; the
    buffer is free, the cache and the processes are those of [s] and the mask is [b]. *)
Record answered (Q : gmap Z (list Z)) (s : kst) (l : list (Z * Z)) (F : list Z) (x : Z) (q : list Z)
    (c : Z) (fs : list (list Z)) (b : bool) (s' : kst) : Prop := Answered {
  ad_inv : InvQ Q s';
  ad_mem : net_mem s' l (x :: F);
  ad_intr : intr s' = b;
  ad_cache : arpcache (net (dev s')) = arpcache (net (dev s));
  ad_procs : proctab s' = proctab s ∧ queuetab s' = queuetab s;
  ad_reply : ∃ reply, tx_state s' (c - 1) (fs ++ [padded reply]) ∧
    let nd := NetData (net (dev s)) in let ha := slice arp_sndha 6 q in let pa := get32 arp_sndpa q in
    arp_fields_are ha (ethucast nd) ARP_OP_RPLY (ethucast nd) (ipucast nd) ha pa
      (convs arp_fields (convs eth_fields reply)) }.

Lemma can_answer_answers Q s l F x q c fs b :
  can_answer Q s l F x q c fs →
  ∃ s', (n ← getnet; ha ← pkbytes (x + 4) arp_sndha 6; pa ← pk32 (x + 4) arp_sndpa;
         _ ← arp_write (arp_reply (NetData n) ha pa fresh_apkt); _ ← freebuf (x + 4); restore b) s = Done tt s' ∧
    answered Q s l F x q c fs b s'.
Proof.
  intros [Hs Ha Hmac Hip Htx Hc Ho Hl].
  destruct (arp_in_answers Q s l F x q c fs b Hs Htx Hc Ho Hl (proj1 Hmac)) as (s' & E & HQ & Hm & Hi & Hcache & Hq & Hprocs).
  exists s'. split; [exact E|]. split; try done. eexists. split; [exact Hq|].
  pose proof (ps_len _ _ _ _ _ _ _ _ _ Hs) as Hlen. pose proof (ps_bytes _ _ _ _ _ _ _ _ _ Hs) as Hb.
  apply arp_make_fields; try done.
  - split; [apply length_slice; rewrite Hlen; by apply Nat.leb_le|by apply Forall_slice].
  - split; [apply length_slice; rewrite Hlen; by apply Nat.leb_le|by apply Forall_slice].
  - apply le_val_range; [apply length_slice; rewrite Hlen; by apply Nat.leb_le|by apply Forall_slice].
Qed.

Lemma arp_answer_head Q s l F x q c fs pa ha found b :
  can_answer Q s l F x q c fs →
  arp_in_answer (x + 4) pa ha found b s =
    (ok ← (match found with
           | Some _ => ret true
           | None =>
             slot ← arp_alloc;
             if bool_decide (slot = SYSERR) then ret false
             else setarp slot (λ e, set_arstate AR_RESOLVED (set_arhaddr ha (set_arpaddr pa e)));; ret true
           end);
     if negb ok then _ ← freebuf (x + 4); restore b
     else n ← getnet; ha ← pkbytes (x + 4) arp_sndha 6; pa ← pk32 (x + 4) arp_sndpa;
       _ ← arp_write (arp_reply (NetData n) ha pa fresh_apkt); _ ← freebuf (x + 4); restore b) s.
Proof.
  intros [Hs [_ _ Hop Hval Htgt] _ _ _ _ _ _]. unfold arp_in_answer.
  rewrite M_bind_eq, (read16 NB base psem _ _ _ _ _ _ arp_op Hs) by (by apply Nat.leb_le). cbn [obind].
  rewrite M_bind_eq, getnet_done. cbn [obind].
  rewrite M_bind_eq, (read32 NB base psem _ _ _ _ _ _ arp_tarpa Hs) by (by apply Nat.leb_le). cbn [obind].
  rewrite (bool_decide_eq_false_2 _ Hop), Hval, Htgt. cbn [negb orb].
  by rewrite (bool_decide_eq_false_2 (ipucast _ ≠ ipucast _)) by tauto.
Qed.

Lemma arp_answer_found Q s l F x q c fs pa ha i b :
  can_answer Q s l F x q c fs →
  ∃ s', arp_in_answer (x + 4) pa ha (Some i) b s = Done tt s' ∧ answered Q s l F x q c fs b s'.
Proof.
  intros Ha. rewrite (arp_answer_head _ _ _ _ _ _ _ _ pa ha (Some i) b Ha). rewrite M_bind_eq. cbn [ret obind negb].
  by apply can_answer_answers.
Qed.

Lemma arp_answer_new Q s l F x q c fs pa ha b t :
  can_answer Q s l F x q c fs → is_table ARP_SIZ (arpcache (net (dev s))) →
  first_in (arpcache (net (dev s))) (entry_for pa) None → arp_learn (arpcache (net (dev s))) pa ha t →
  ∃ s', arp_in_answer (x + 4) pa ha None b s = Done tt s' ∧
    match t with
    | Some (t, _) => answered Q (with_cache t s) l F x q c fs b s'
    | None => InvQ Q s' ∧ net_mem s' l (x :: F) ∧ intr s' = b ∧ dev s' = dev s
    end.
Proof.
  intros Ha Ht Hn Hl. rewrite (arp_answer_head _ _ _ _ _ _ _ _ pa ha None b Ha).
  rewrite M_bind_eq, (arp_in_new s pa ha t Ht Hn Hl). cbn [obind]. destruct t as [[t note]|].
  - rewrite bool_decide_eq_true_2 by done. cbn [negb].
    by apply can_answer_answers, can_answer_cache.
  - rewrite bool_decide_eq_false_2 by (by intros [? ?]). cbn [negb].
    destruct Ha as [Hs _ _ _ _ _ _ Hlen]. destruct (discard_restore Q s l F x q b Hs Hlen) as (s' & E & HQ & Hm & Hi & Hd & _ & _).
    by exists s'.
Qed.

(** ** A request *)

(** Arp_in up to the search. *)
Lemma arp_in_head Q s l F x p c fs :
  let q := convs arp_fields p in let pa := get32 arp_sndpa q in let ha := slice arp_sndha 6 q in
  pkt_state Q s l F x p → is_table ARP_SIZ (arpcache (net (dev s))) →
  (∀ h, pkt_state Q (set_hp h s) l F x q → can_answer Q (set_hp h s) l F x q c fs) →
  ∃ h r, let s1 := set_intr false (set_hp h s) in
    can_answer Q s1 l F x q c fs ∧ outside x (hp s) h ∧ first_in (arpcache (net (dev s))) (entry_for pa) r ∧
    arp_in (x + 4) s =
      obind (match r with
             | Some i =>
               setarp i (set_arhaddr ha);;
               arptr ← getarp i;
               if bool_decide (arstate arptr = AR_PENDING) then
                 setarp i (set_arstate AR_RESOLVED);; _ ← send (arpid arptr) OK; ret tt
               else ret tt
             | None => ret tt
             end s1) (λ _, arp_in_answer (x + 4) pa ha r (intr s)).
Proof.
  intros q pa ha Hs Ht Hcan. unfold arp_in, arp_ntoh.
  destruct (pruns_fields NB base psem x arp_fields p ltac:(apply all_fit) Q s l F Hs) as (h & E & Hs1 & Ho).
  fold q in Hs1. pose proof (Hcan h Hs1) as Ha1.
  assert (can_answer Q (set_intr false (set_hp h s)) l F x q c fs) as Ha2.
  { eapply can_answer_frame; [exact Ha1|apply InvQ_intr, Ha1|done..]. }
  destruct (arp_search_spec (arp_is pa) (set_intr false (set_hp h s)) Ht) as (r & Er & Hr).
  exists h, r. split; [exact Ha2|]. split; [exact Ho|]. split; [by eapply first_in_ext; [apply arp_is_entry|]|].
  destruct (an_asks _ _ _ _ _ _ _ _ Ha1) as [Hht Hpt _ _ _].
  rewrite M_bind_eq, E. cbn [obind].
  rewrite M_bind_eq, (read16 NB base psem _ _ _ _ _ _ arp_htype Hs1) by (by apply Nat.leb_le). cbn [obind].
  rewrite M_bind_eq, (read16 NB base psem _ _ _ _ _ _ arp_ptype Hs1) by (by apply Nat.leb_le). cbn [obind].
  rewrite Hht, Hpt. rewrite !bool_decide_eq_false_2 by tauto. cbn [orb].
  pose proof (an_pkt _ _ _ _ _ _ _ _ Ha2) as Hs2. kred. set (s2 := set_intr false (set_hp h s)) in *.
  rewrite (read32 NB base psem _ _ _ _ _ _ arp_sndpa Hs2) by (by apply Nat.leb_le). cbn [obind]. fold pa.
  rewrite M_bind_eq, Er. cbn [obind].
  rewrite M_bind_eq, (read_bytes NB base psem _ _ _ _ _ _ arp_sndha 6 Hs2) by (by apply Nat.leb_le). cbn [obind]. fold ha.
  by rewrite M_bind_eq.
Qed.

(** Behind the notification. *)
Lemma notify_answer Q s l F x q c fs pa ha i b pid :
  can_answer Q s l F x q c fs →
  let rest := λ _, arp_in_answer (x + 4) pa ha (Some i) b in
  match send pid OK s with
  | Done _ s2 => dev s2 = dev s ∧
      ∃ Q' s', obind (notify (Some pid) s) rest = Done tt s' ∧ answered Q' s2 l F x q c fs b s'
  | Switch s2 k => ∃ k', obind (notify (Some pid) s) rest = Switch s2 k' ∧
      ∀ s3 a s4 Q4 l4 F4 c4 fs4, k s3 = Done a s4 → can_answer Q4 s4 l4 F4 x q c4 fs4 →
        ∃ s', k' s3 = Done tt s' ∧ answered Q4 s4 l4 F4 x q c4 fs4 b s'
  | _ => False
  end.
Proof.
  intros Ha rest. pose proof (ps_inv _ _ _ _ _ _ _ _ _ (an_pkt _ _ _ _ _ _ _ _ Ha)) as HQ.
  pose proof (send_safe pid OK s ltac:(by exists Q)) as Hsafe. pose proof (keeps_send pid OK s) as Hk.
  unfold notify. rewrite M_bind_eq. unfold safe_call in Hsafe.
  destruct (send pid OK s) as [a s2|s2 k|s2|]; [|..|done|done]; cbn [obind ret].
  - destruct Hsafe as ([Q' HQ'] & _), Hk as [E1 E2 E3 E4].
    assert (can_answer Q' s2 l F x q c fs) as Ha2 by (eapply can_answer_frame; [exact Ha|done..|by rewrite E4|by rewrite E4|by rewrite E4]).
    split; [exact E4|]. exists Q'. by apply arp_answer_found.
  - eexists. split; [reflexivity|]. intros s3 a s4 Q4 l4 F4 c4 fs4 E Ha4. cbv beta. rewrite E. cbn [obind ret].
    by apply arp_answer_found.
Qed.

Lemma arp_in_request Q s l F x p c fs t :
  let q := convs arp_fields p in let pa := get32 arp_sndpa q in let ha := slice arp_sndha 6 q in
  pkt_state Q s l F x p → is_table ARP_SIZ (arpcache (net (dev s))) →
  (∀ h, pkt_state Q (set_hp h s) l F x q → can_answer Q (set_hp h s) l F x q c fs) →
  arp_learn (arpcache (net (dev s))) pa ha t →
  match t with
  | None => ∃ s', arp_in (x + 4) s = Done tt s' ∧ InvQ Q s' ∧ net_mem s' l (x :: F) ∧ intr s' = intr s ∧ dev s' = dev s
  | Some (t, note) => ∃ h, let s1 := with_cache t (set_intr false (set_hp h s)) in
      can_answer Q s1 l F x q c fs ∧ outside x (hp s) h ∧
      match note with
      | None => ∃ s', arp_in (x + 4) s = Done tt s' ∧ answered Q s1 l F x q c fs (intr s) s'
      | Some pid =>
        match send pid OK s1 with
        | Done _ s2 => dev s2 = dev s1 ∧
            ∃ Q' s', arp_in (x + 4) s = Done tt s' ∧ answered Q' s2 l F x q c fs (intr s) s'
        | Switch s2 k => ∃ k', arp_in (x + 4) s = Switch s2 k' ∧
            ∀ s3 a s4 Q4 l4 F4 c4 fs4, k s3 = Done a s4 → can_answer Q4 s4 l4 F4 x q c4 fs4 →
              ∃ s', k' s3 = Done tt s' ∧ answered Q4 s4 l4 F4 x q c4 fs4 (intr s) s'
        | _ => False
        end
      end
  end.
Proof.
  intros q pa ha Hs Ht Hcan Hl. destruct (arp_in_head Q s l F x p c fs Hs Ht Hcan) as (h & r & Ha & Ho & Hr & E).
  fold q pa ha in Ha, Hr, E. rewrite E. clear E. set (s1 := set_intr false (set_hp h s)) in *.
  destruct r as [i|].
  - destruct t as [[t note]|]; [|by inversion Hl as [| | |Hn]; pose proof (first_in_unique _ _ _ _ Hr Hn)].
    rewrite (arp_in_update s1 pa ha t note i Hr Hl). exists h. split; [by apply can_answer_cache|]. split; [done|].
    destruct note as [pid|]; [eapply notify_answer, can_answer_cache, Ha|]. eapply arp_answer_found, can_answer_cache, Ha.
  - destruct (arp_answer_new Q s1 l F x q c fs pa ha (intr s) t Ha Ht Hr Hl) as (s' & E & Hres). cbn [ret obind].
    destruct t as [[t [pid|]]|].
    + by inversion Hl as [|j e Hj| |]; pose proof (first_in_unique _ _ _ _ Hr Hj).
    + exists h. split; [by apply can_answer_cache|]. split; [done|]. by exists s'.
    + by exists s'.
Qed.
End pool.
