(* ===== verification/NetIcmp.v ===== *)
(** ICMP endpoints: the head of an endpoint's queue is compared with the number of
    endpoints (ICMP_SLOTS, 10), and not with the length of the queue (ICMP_QSIZ, 8). *)

From S2P Require Import Prelude Types Queue Heap ByteMem Words NetTypes DevTypes Kernel KInv Sched Semaphore Clock Message Device Process.
From S2P Require Import BufPool Packet NetMem Eth Arp NetEth Udp.

Lemma getic_done i e s : icmptab (net (dev s)) !! i = Some e → getic i s = Done e s.
Proof. unfold getic. by intros ->. Qed.

(** The state with another entry [i]. *)
Definition with_ic (i : Z) (e : icmpentry) (s : kst) : kst := with_net (λ n, set_icmptab (<[i := e]> (icmptab n)) n) s.

Lemma setic_done i e f s : icmptab (net (dev s)) !! i = Some e → setic i f s = Done tt (with_ic i (f e) s).
Proof. intros He. unfold setic. rewrite M_bind_eq, (getic_done _ _ _ He). done. Qed.

Lemma with_ic_at i e s : icmptab (net (dev (with_ic i e s))) !! i = Some e.
Proof. apply lookup_insert_eq. Qed.

Lemma with_ic_twice i e e' s : with_ic i e' (with_ic i e s) = with_ic i e' s.
Proof. unfold with_ic, with_net. destruct s. cbn. unfold set_dev, set_net, set_icmptab. cbn. by rewrite insert_insert_eq. Qed.

(** Taking the packet at the head: within the queue the head moves on, and it is not
    wrapped around at the end of the queue. *)
Lemma icmp_head_spec i e s :
  icmptab (net (dev s)) !! i = Some e → Z.of_nat (length (icqueue e)) = ICMP_QSIZ → 0 ≤ ichead e ≤ ICMP_QSIZ →
  icmp_head i s = match icqueue e !! Z.to_nat (ichead e) with
                  | Some a => Done a (with_ic i (set_ichead (ichead e + 1) e) s)
                  | None => Fault
                  end.
Proof.
  intros He Hl Hh. unfold icmp_head. rewrite M_bind_eq, (getic_done _ _ _ He). cbn [obind].
  rewrite M_bind_eq. unfold arr_get. rewrite bool_decide_eq_true_2 by lia.
  destruct (icqueue e !! Z.to_nat (ichead e)) as [a|]; [|done]. cbn [lift ret obind].
  rewrite M_bind_eq, (setic_done _ _ _ _ He). cbn [obind].
  rewrite M_bind_eq, (setic_done _ _ _ _ (with_ic_at _ _ _)). cbn [ret obind]. rewrite with_ic_twice.
  unfold ICMP_QSIZ, ICMP_SLOTS in *. cbn [ichead set_ichead]. by rewrite bool_decide_eq_false_2 by lia.
Qed.

(** Taking [n] packets. *)
Fixpoint icmp_heads (n : nat) (icmpid : Z) : M (list Z) :=
  match n with O => ret [] | S n => pkt ← icmp_head icmpid; r ← icmp_heads n icmpid; ret (pkt :: r) end.

Lemma icmp_heads_spec i n : ∀ e s,
  icmptab (net (dev s)) !! i = Some e → Z.of_nat (length (icqueue e)) = ICMP_QSIZ → 0 ≤ ichead e →
  ichead e + Z.of_nat n ≤ ICMP_QSIZ →
  icmp_heads n i s = Done (slice (Z.to_nat (ichead e)) n (icqueue e)) (with_ic i (set_ichead (ichead e + Z.of_nat n) e) s).
Proof.
  induction n as [|n IH]; intros e s He Hl H0 Hn; cbn [icmp_heads].
  - rewrite Z.add_0_r. unfold slice. rewrite take_0. unfold with_ic, with_net. destruct s as [??????????????????? d], e.
    cbn in *. unfold set_dev, set_net, set_icmptab. cbn. rewrite insert_id by done. by destruct d as [????? []].
  - rewrite M_bind_eq, (icmp_head_spec _ _ _ He Hl) by lia.
    destruct (lookup_lt_is_Some_2 (icqueue e) (Z.to_nat (ichead e)) ltac:(lia)) as [a Ha]. rewrite Ha. cbn [obind].
    rewrite M_bind_eq, (IH (set_ichead (ichead e + 1) e) _ (with_ic_at _ _ _)); cbn [icqueue ichead set_ichead]; [|done|lia|lia].
    cbn [ret obind]. rewrite with_ic_twice. f_equal; [|f_equal].
    + unfold slice. rewrite (drop_S _ _ _ Ha). cbn [take]. do 2 f_equal. f_equal. lia.
    + unfold set_ichead. cbn. f_equal. lia.
Qed.

(** Icmp_recv with the head at the end of the queue reads behind the array. *)
Lemma icmp_recv_faults i e s buff len timeout :
  icmptab (net (dev s)) !! i = Some e → 0 ≤ i < ICMP_SLOTS → icstate e = ICMP_USED → iccount e ≠ 0 →
  Z.of_nat (length (icqueue e)) = ICMP_QSIZ → ichead e = ICMP_QSIZ → icmp_recv i buff len timeout s = Fault.
Proof.
  intros He Hi Hu Hc Hl Hh. unfold icmp_recv, bad_icmp. rewrite !bool_decide_eq_false_2 by lia. cbn [orb]. kred.
  rewrite (getic_done _ _ (set_intr false s) He). cbn [obind]. rewrite bool_decide_eq_false_2 by tauto.
  rewrite bool_decide_eq_false_2 by done. rewrite M_bind_eq. cbn [ret obind]. rewrite bool_decide_eq_false_2 by tauto.
  rewrite M_bind_eq, (icmp_head_spec i e (set_intr false s) He Hl) by (rewrite Hh; done).
  rewrite Hh. rewrite (lookup_ge_None_2 (icqueue e)) by (unfold ICMP_QSIZ in *; lia). done.
Qed.
