(* ===== verification/NetUdp.v ===== *)
(** UDP endpoints: the queue of an endpoint holds packets in order of arrival;
    udp_in appends, udp_recv takes the first one and copies its data. *)

From S2P Require Import Prelude Types Queue Heap ByteMem Words NetTypes DevTypes Kernel KInv Sched Semaphore Clock Message Device Process UserMem.
From S2P Require Import BufPool Packet NetMem NetFmt Eth NetEth Udp NetWire NetIp Tty Ring.

(** ** Copying data *)

(** The loop that copies [n] bytes is a store of the bytes that are there, when the
    source and the destination do not overlap. *)
Lemma copy_loop_stbs bs : ∀ src dst s h,
  bytes_in (hp s) src bs → stbs bs dst (hp s) = Some h →
  (src + Z.of_nat (length bs) ≤ dst ∨ dst + Z.of_nat (length bs) ≤ src) →
  copy_loop (length bs) src dst s = Done tt (set_hp h s).
Proof.
  induction bs as [|b bs IH]; intros src dst s h Hb Hst Hd; cbn [bytes_in stbs length copy_loop] in *.
  - injection Hst as <-. by rewrite set_hp_id.
  - destruct Hb as [Hb Hbs]. destruct (stb dst b (hp s)) as [h1|] eqn:E1; [|done]. cbn in Hst.
    rewrite M_bind_eq, (hread_some _ _ _ Hb). cbn [obind].
    rewrite M_bind_eq, (hwrite_some _ _ _ E1). cbn [obind].
    rewrite (IH (src + 1) (dst + 1) (set_hp h1 s) h); [done| |exact Hst|lia].
    cbn [hp set_hp]. eapply bytes_in_ext; [|exact Hbs]. intros i Hi.
    assert (∃ w, ld (dst - dst mod 4) (hp s) = Some w) as [w Hw].
    { unfold stb in E1. destruct (ld _ (hp s)) as [w|]; [by exists w|done]. }
    assert (byte b) as Hbb by (eapply Forall_inv, (bytes_in_byte (hp s) src (b :: bs)); by split).
    destruct (stb_some dst b (hp s)) as (h1' & E1' & _ & Hfr); [|done|].
    { unfold ldb. rewrite Hw. by eexists. }
    rewrite E1 in E1'. injection E1' as <-. apply Hfr. lia.
Qed.

(** ** The table *)

Lemma getud_done i e s : udptab (net (dev s)) !! i = Some e → getud i s = Done e s.
Proof. unfold getud. by intros ->. Qed.

(** The state with another entry [i]. *)
Definition with_ud (i : Z) (e : udpentry) (s : kst) : kst := with_net (λ n, set_udptab (<[i := e]> (udptab n)) n) s.

Lemma setud_done i e f s : udptab (net (dev s)) !! i = Some e → setud i f s = Done tt (with_ud i (f e) s).
Proof. intros He. unfold setud. rewrite M_bind_eq, (getud_done _ _ _ He). done. Qed.

Lemma with_ud_at i e s : udptab (net (dev (with_ud i e s))) !! i = Some e.
Proof. apply lookup_insert_eq. Qed.

Lemma with_ud_twice i e e' s : with_ud i e' (with_ud i e s) = with_ud i e' s.
Proof. unfold with_ud, with_net. destruct s. cbn. unfold set_dev, set_net, set_udptab. cbn. by rewrite insert_insert_eq. Qed.

Lemma udp_find_spec p s n : ∀ i,
  is_table UDP_SLOTS (udptab (net (dev s))) → i + Z.of_nat n = UDP_SLOTS → 0 ≤ i →
  (∀ j e, j < i → udptab (net (dev s)) !! j = Some e → p e = false) →
  ∃ r, udp_find n i p s = Done r s ∧ first_in (udptab (net (dev s))) p r.
Proof.
  induction n as [|n IH]; intros i Ht Hi H0 Hb; cbn [udp_find].
  - exists None. split; [done|]. constructor. intros j e He. pose proof (is_table_bound _ _ _ _ Ht He). eapply Hb; [|done]. lia.
  - destruct (is_table_get _ _ i Ht ltac:(lia)) as [e He]. rewrite M_bind_eq, (getud_done _ _ _ He). cbn [obind].
    destruct (p e) eqn:Hp; [exists (Some i); split; [done|by econstructor]|].
    apply IH; try done; try lia. intros j e' Hj He'. destruct (decide (j = i)) as [->|]; [congruence|]. eapply Hb; [|done]. lia.
Qed.

Lemma udp_search_spec p s :
  is_table UDP_SLOTS (udptab (net (dev s))) →
  ∃ r, udp_search p s = Done r s ∧ first_in (udptab (net (dev s))) p r.
Proof. intros Ht. apply udp_find_spec; try done. intros j e Hj He. pose proof (is_table_bound _ _ _ _ Ht He). lia. Qed.

(** ** The queue of an entry *)

Definition ud_ring (e : udpentry) : tyring := Ring (udhead e) (udtail e) (udqueue e).

(** The packets that wait, oldest first. *)
Record ud_queue (e : udpentry) (ws : list Z) : Prop := Ud_queue {
  uq_ring : ring_view UDP_QSIZ (ud_ring e) ws;
  uq_count : udcount e = Z.of_nat (length ws) }.

(** The entry with one packet more, and with one less. *)
Definition wrap8 (i : Z) : Z := if bool_decide (UDP_QSIZ ≤ i) then 0 else i.
Definition pushed (a : Z) (e : udpentry) : udpentry :=
  set_udtail (wrap8 (udtail e + 1)) (set_udqueue (<[Z.to_nat (udtail e) := a]> (udqueue e)) (set_udcount (udcount e + 1) e)).
Definition popped (e : udpentry) : udpentry := set_udcount (udcount e - 1) (set_udhead (wrap8 (udhead e + 1)) e).

Lemma pushed_queue a e ws :
  ud_queue e ws → Z.of_nat (length ws) < UDP_QSIZ → ud_queue (pushed a e) (ws ++ [a]).
Proof.
  intros [Hr Hc] Hn. destruct (ring_put _ _ _ a Hr Hn) as (r' & Hst & Hv). split.
  - unfold store in Hst. case_bool_decide; [|done]. injection Hst as <-. unfold wrap_tail in Hv. cbn in Hv.
    unfold pushed, wrap8, ud_ring. cbn. by case_bool_decide.
  - cbn. rewrite length_app. cbn. lia.
Qed.

Lemma popped_queue a e ws :
  ud_queue e (a :: ws) →
  ud_queue (popped e) ws ∧ udqueue e !! Z.to_nat (udhead e) = Some a ∧ 0 ≤ udhead e < UDP_QSIZ.
Proof.
  intros [Hr Hc]. destruct (ring_get _ _ _ _ Hr) as (r' & Hf & Hv). pose proof (rv_head _ _ _ Hr) as Hh. cbn in Hh.
  unfold fetch in Hf. cbn in Hf. rewrite bool_decide_eq_true_2 in Hf by lia.
  destruct (udqueue e !! Z.to_nat (udhead e)) as [c|] eqn:Hq; [|done]. injection Hf as <- <-. split; [|done]. split.
  - unfold wrap_head in Hv. cbn in Hv. unfold popped, wrap8, ud_ring. cbn. by case_bool_decide.
  - cbn. rewrite Hc. cbn. lia.
Qed.

Section pool.
Context (NB : nat) (base psem : Z).
Abbreviation pkt_state := (pkt_state NB base psem).
Abbreviation net_mem := (net_mem NB base psem).
Abbreviation pool := (pool NB base).

Lemma pkt_state_net Q s l F x p f :
  pkt_state Q s l F x p → netbufpool (f (net (dev s))) = netbufpool (net (dev s)) → pkt_state Q (with_net f s) l F x p.
Proof.
  intros Hs E. eapply pkt_state_frame; [exact Hs|apply InvQ_dev, Hs|done..].
Qed.

(** ** udp_in *)

(** The conditions under which an endpoint takes packet [p]: it is in use, its local
    port is the packet's destination port, its remote port and address, when they are
    given, are the packet's source, and its queue has room. *)
Record endpoint_takes (p : list Z) (e : udpentry) : Prop := Endpoint_takes {
  et_used : udstate e ≠ UDP_FREE;
  et_port : udlocport e = get16 net_udpdport p;
  et_remport : udremport e = 0 ∨ udremport e = get16 net_udpsport p;
  et_remip : udremip e = 0 ∨ udremip e = get32 net_ipsrc p;
  et_room : udcount e < UDP_QSIZ }.

#[export] Instance endpoint_takes_dec p e : Decision (endpoint_takes p e).
Proof.
  refine (cast_if (decide (udstate e ≠ UDP_FREE ∧ udlocport e = get16 net_udpdport p ∧
    (udremport e = 0 ∨ udremport e = get16 net_udpsport p) ∧ (udremip e = 0 ∨ udremip e = get32 net_ipsrc p) ∧
    udcount e < UDP_QSIZ))); [abstract (split; tauto)|abstract (intros []; tauto)].
Defined.

Definition ud_match (p : list Z) (e : udpentry) : bool := bool_decide (endpoint_takes p e).

(** The test of udp_in decides that. *)
Lemma udp_takes_ok p e :
  udp_takes (get16 net_udpdport p) (get16 net_udpsport p) (get32 net_ipsrc p) e = ud_match p e.
Proof.
  unfold ud_match. apply eq_true_iff_eq. unfold udp_takes.
  rewrite !andb_true_iff, !orb_true_iff, negb_true_iff, bool_decide_eq_false, !bool_decide_eq_true.
  split; [intros ((? & (? & ?) & ?) & ?); split; (done || (intuition congruence))|intros []; intuition congruence].
Qed.

(** Reading the addresses of the packet. *)
Lemma udp_in_read Q s l F x p :
  pkt_state Q s l F x p → is_table UDP_SLOTS (udptab (net (dev s))) →
  ∃ r, first_in (udptab (net (dev s))) (ud_match p) r ∧ ∀ k : option Z → M unit,
    (dport ← pk16 (x + 4) net_udpdport; sport ← pk16 (x + 4) net_udpsport; src ← pk32 (x + 4) net_ipsrc;
     f ← udp_search (udp_takes dport sport src); k f) s = k r s.
Proof.
  intros Hs Ht. destruct (udp_search_spec (udp_takes (get16 net_udpdport p) (get16 net_udpsport p) (get32 net_ipsrc p)) s Ht)
    as (r & Er & Hr). exists r. split; [by eapply first_in_ext; [apply udp_takes_ok|]|]. intros k.
  rewrite M_bind_eq, (read16 NB base psem _ _ _ _ _ _ net_udpdport Hs) by (by apply Nat.leb_le). cbn [obind].
  rewrite M_bind_eq, (read16 NB base psem _ _ _ _ _ _ net_udpsport Hs) by (by apply Nat.leb_le). cbn [obind].
  rewrite M_bind_eq, (read32 NB base psem _ _ _ _ _ _ net_ipsrc Hs) by (by apply Nat.leb_le). cbn [obind].
  rewrite M_bind_eq. by rewrite Er.
Qed.

Lemma ud_match_used p e : ud_match p e = true → udstate e ≠ UDP_FREE ∧ udcount e < UDP_QSIZ.
Proof. unfold ud_match. rewrite bool_decide_eq_true. by intros []. Qed.

(** A packet for an endpoint with room is appended to its queue; the process that
    waits for one gets a message. *)
Lemma udp_in_takes Q s l F x p i e ws :
  pkt_state Q s l F x p → is_table UDP_SLOTS (udptab (net (dev s))) →
  first_in (udptab (net (dev s))) (ud_match p) (Some i) → udptab (net (dev s)) !! i = Some e → ud_queue e ws →
  ud_queue (pushed (x + 4) e) (ws ++ [x + 4]) ∧
  udp_in (x + 4) s =
    (if bool_decide (udstate e = UDP_RECV)
     then (_ ← send (udpid e) OK; restore (intr s)) (with_ud i (set_udstate UDP_USED (pushed (x + 4) e)) (set_intr false s))
     else Done tt (with_ud i (pushed (x + 4) e) s)).
Proof.
  intros Hs Ht Hf He Hq. assert (ud_match p e = true) as Hm.
  { inversion Hf as [j e' He' Hp _|]; subst. congruence. }
  destruct (ud_match_used _ _ Hm) as [Hu Hc]. pose proof Hq as [Hr Hcnt].
  pose proof (ring_tail_range _ _ _ Hr ltac:(done)) as Htl. cbn in Htl. pose proof (rv_len _ _ _ Hr) as Hlen. cbn in Hlen.
  split; [apply pushed_queue; [done|lia]|]. unfold udp_in. kred.
  destruct (udp_in_read Q (set_intr false s) l F x p (pkt_state_intr _ _ _ _ _ _ _ Hs) Ht) as (r & Hr1 & E).
  pose proof (first_in_unique _ _ _ _ Hr1 Hf) as ->.
  etrans; [apply (E (λ f, match f with Some _ => _ | None => _ end))|]. cbv beta iota. clear E. set (s1 := set_intr false s).
  assert (udptab (net (dev s1)) !! i = Some e) as He1 by exact He.
  rewrite M_bind_eq, (setud_done _ _ _ _ He1). cbn [obind].
  rewrite M_bind_eq, (getud_done _ _ _ (with_ud_at _ _ _)). cbn [obind]. cbn [udqueue udtail set_udcount].
  rewrite M_bind_eq. unfold arr_set. rewrite bool_decide_eq_true_2 by lia. cbn [ret obind].
  rewrite M_bind_eq, (setud_done _ _ _ _ (with_ud_at _ _ _)). cbn [obind].
  rewrite M_bind_eq, (setud_done _ _ _ _ (with_ud_at _ _ _)). cbn [obind]. rewrite !with_ud_twice.
  assert (∀ e' : udpentry, (if bool_decide (UDP_QSIZ ≤ udtail (set_udtail (udtail e + 1) e'))
     then set_udtail 0 (set_udtail (udtail e + 1) e') else set_udtail (udtail e + 1) e') = set_udtail (wrap8 (udtail e + 1)) e') as Ew.
  { intros e'. unfold wrap8. cbn. by case_bool_decide. }
  cbn [udtail set_udcount]. rewrite Ew. change (set_udtail (wrap8 _) _) with (pushed (x + 4) e).
  rewrite M_bind_eq, (getud_done _ _ _ (with_ud_at _ _ _)). cbn [obind].
  change (udstate (pushed (x + 4) e)) with (udstate e). change (udpid (pushed (x + 4) e)) with (udpid e).
  case_bool_decide as Hrecv.
  - rewrite M_bind_eq, M_bind_eq, (setud_done _ _ _ _ (with_ud_at _ _ _)). cbn [obind]. rewrite with_ud_twice.
    rewrite !M_bind_eq, obind_assoc. done.
  - kred. unfold with_ud, with_net, s1. by destruct s.
Qed.

(** A packet that no endpoint takes is discarded. *)
Lemma udp_in_drops Q s l F x p :
  pkt_state Q s l F x p → is_table UDP_SLOTS (udptab (net (dev s))) →
  first_in (udptab (net (dev s))) (ud_match p) None → Z.of_nat (length F) < INT_MAX →
  ∃ h b t, udp_in (x + 4) s = Done tt (net_upd s h b t (dev s)) ∧ InvQ Q (net_upd s h b t (dev s)) ∧
    net_mem (net_upd s h b t (dev s)) l (x :: F) ∧ same_but x (hp s) h ∧ (∀ i, i ≠ psem → t !! i = semtab s !! i).
Proof.
  intros Hs Ht Hf Hlen. pose proof (pkt_state_intr _ _ _ _ _ _ false Hs) as Hs1.
  destruct (free_packet NB base psem _ _ _ _ _ _ Hs1 Hlen) as (h2 & b & t & E2 & HQ & Hm & Hsame & Ht2).
  exists h2, b, t. split; [|split_and!].
  - unfold udp_in. kred.
    destruct (udp_in_read Q _ l F x p Hs1 Ht) as (r & Hr1 & E).
    pose proof (first_in_unique _ _ _ _ Hr1 Hf) as ->.
    etrans; [apply (E (λ f, match f with Some _ => _ | None => _ end))|]. cbv beta iota. rewrite M_bind_eq, E2. kred. by destruct s.
  - apply (InvQ_intr (intr s)) in HQ. by destruct s.
  - eapply net_mem_frame; [exact Hm|done..].
  - exact Hsame.
  - exact Ht2.
Qed.

(** ** udp_recv *)

(** A caller's buffer of [n] bytes outside the pool. *)
Definition user_apart (s : kst) (l : list (Z * Z)) (a n : Z) : Prop :=
  user_buf (hp s) l a n ∧ ∀ y, y ∈ pool → a + n ≤ y ∨ y + STRIDE ≤ a.

(** Copying bytes out of the packet. *)
Lemma copy_out Q s l F x p o n buff :
  pkt_state Q s l F x p → user_apart s l buff (Z.of_nat n) → (o + n ≤ Z.to_nat PACKLEN)%nat →
  ∃ h, copy_loop n (x + 4 + Z.of_nat o) buff s = Done tt (set_hp h s) ∧ pkt_state Q (set_hp h s) l F x p ∧
    bytes_in h buff (slice o n p) ∧ (∀ i, ¬ buff ≤ i < buff + Z.of_nat n → ldb i h = ldb i (hp s)).
Proof.
  intros [HQ Hm Hx Hu Hp Hl] [Hub Hap] Ho.
  assert (length (slice o n p) = n) as Hn by (apply length_slice; by rewrite Hl).
  destruct (stbs_user l (slice o n p) buff _ (nm_heap _ _ _ _ _ _ Hm)) as (h & E & Hok & E1 & E2 & Hin & Hfr & Hw).
  { by rewrite Hn. } { apply Forall_slice. by eapply bytes_in_byte. }
  rewrite Hn in Hfr, Hw. exists h. split; [|split; [|done]].
  - rewrite <-Hn. apply copy_loop_stbs; [|done|].
    + apply bytes_in_slice; [done|by rewrite Hl].
    + rewrite Hn. destruct (Hap x Hx); unfold STRIDE, PACKLEN in *; lia.
  - split; try done.
    + apply InvQ_hp; [done|by exists l|done..].
    + pose proof Hm as [Hh Hpl Hid Hnb (b & Hb & Hbs & Hch) Hse Hnd Hf Hused].
      assert (∀ y, y ∈ pool → mem h !! y = mem (hp s) !! y) as Hy.
      { intros y Hy. apply Hw; [by destruct (Hpl y Hy)|]. destruct (Hap y Hy), (Hpl y Hy); unfold STRIDE in *.
        - right. lia.
        - left. lia. }
      split; cbn [hp set_hp bufs semtab dev]; try done.
      * intros y Hyp. destruct (Hpl y Hyp). split; [done|]. by eapply user_ext.
      * exists b. split_and!; try done. eapply bchain_frame; [exact Hch|]. intros y Hyf. by apply Hy, Hf.
      * intros y Hyp Hyf. rewrite Hy by done. by apply Hused.
    + cbn [hp set_hp]. eapply bytes_in_ext; [|exact Hp]. intros i Hi. rewrite Hl in Hi. apply Hfr.
      destruct (Hap x Hx); unfold STRIDE, PACKLEN in *; lia.
Qed.

(** The bytes of packet [p] that a caller with room for [len] gets. *)
Definition udp_data (len : Z) (p : list Z) : list Z :=
  slice net_udpdata (Z.to_nat (Z.min len (get16 net_udplen p - UDP_HDR_LEN))) p.

(** Taking the first packet of an endpoint's queue. *)
Lemma udp_take s i e a ws :
  udptab (net (dev s)) !! i = Some e → ud_queue e (a :: ws) →
  (pkt ← udp_head i; setud i (λ e, set_udcount (udcount e - 1) e);; ret pkt) s = Done a (with_ud i (popped e) s).
Proof.
  intros He Hq. destruct (popped_queue _ _ _ Hq) as (_ & Ha & Hh).
  unfold udp_head. rewrite M_bind_eq, M_bind_eq, (getud_done _ _ _ He). cbn [obind].
  rewrite M_bind_eq. unfold arr_get. rewrite bool_decide_eq_true_2 by lia. rewrite (lift_done _ _ _ Ha). cbn [obind].
  rewrite M_bind_eq, (setud_done _ _ _ _ He). cbn [obind].
  rewrite M_bind_eq, (setud_done _ _ _ _ (with_ud_at _ _ _)). cbn [obind ret].
  rewrite M_bind_eq, (setud_done _ _ _ _ (with_ud_at _ _ _)). cbn [obind ret]. rewrite !with_ud_twice.
  unfold popped, wrap8. cbn. by case_bool_decide.
Qed.

Lemma udp_copy_spec Q s l F x p buff len :
  pkt_state Q s l F x p → Z.of_nat (length F) < INT_MAX →
  0 ≤ len → UDP_HDR_LEN ≤ get16 net_udplen p ≤ PACKLEN - 34 →
  user_apart s l buff (Z.of_nat (length (udp_data len p))) →
  ∃ h b t, udp_copy (x + 4) buff len s = Done (Z.of_nat (length (udp_data len p))) (net_upd s h b t (dev s)) ∧
    InvQ Q (net_upd s h b t (dev s)) ∧ net_mem (net_upd s h b t (dev s)) l (x :: F) ∧
    bytes_in h buff (udp_data len p) ∧ (∀ i, i ≠ psem → t !! i = semtab s !! i) ∧
    (∀ i, ¬ x ≤ i < x + STRIDE → ¬ buff ≤ i < buff + Z.of_nat (length (udp_data len p)) → ldb i h = ldb i (hp s)).
Proof.
  intros Hs Hlen H0 Hn Hap. pose proof (ps_len _ _ _ _ _ _ _ _ _ Hs) as Hl. unfold UDP_HDR_LEN, PACKLEN in *.
  assert (length (udp_data len p) = Z.to_nat (Z.min len (get16 net_udplen p - UDP_HDR_LEN))) as Hd.
  { apply length_slice. rewrite Hl. unfold net_udpdata, UDP_HDR_LEN. lia. }
  destruct (copy_out Q _ l F x p net_udpdata (length (udp_data len p)) buff Hs Hap) as (h1 & E1 & Hs1 & Hin & Hfr).
  { rewrite Hd. unfold net_udpdata, PACKLEN, UDP_HDR_LEN. lia. }
  destruct (free_packet NB base psem _ _ _ _ _ _ Hs1 Hlen) as (h2 & b & t & E2 & HQ & Hm & Hsame & Ht).
  assert ((if bool_decide (len < get16 net_udplen p - UDP_HDR_LEN) then len else get16 net_udplen p - UDP_HDR_LEN) =
    Z.of_nat (length (udp_data len p))) as En.
  { rewrite Hd. unfold UDP_HDR_LEN in *. case_bool_decide; lia. }
  exists h2, b, t. split_and!.
  - unfold udp_copy. rewrite M_bind_eq, (read16 NB base psem _ _ _ _ _ _ net_udplen Hs) by (by apply Nat.leb_le).
    cbn [obind]. cbv zeta. rewrite En, Nat2Z.id. rewrite M_bind_eq, E1. cbn [obind]. rewrite M_bind_eq, E2. done.
  - exact HQ.
  - exact Hm.
  - assert (slice net_udpdata (length (udp_data len p)) p = udp_data len p) as Es by (unfold udp_data at 2; by rewrite Hd).
    rewrite Es in Hin. eapply bytes_in_ext; [|exact Hin]. intros i Hi. apply Hsame.
    pose proof (ps_in _ _ _ _ _ _ _ _ _ Hs) as Hx. destruct (proj2 Hap x Hx); unfold STRIDE in *; lia.
  - exact Ht.
  - intros i Hi1 Hi2. rewrite Hsame by (unfold STRIDE in *; lia). by apply Hfr.
Qed.

(** The branches of udp_recv that return without a packet. *)
Lemma udp_recv_refuses s slot buff len timeout :
  is_table UDP_SLOTS (udptab (net (dev s))) →
  (∀ e, udptab (net (dev s)) !! slot = Some e → udstate e ≠ UDP_USED) →
  udp_recv slot buff len timeout s = Done SYSERR s.
Proof.
  intros Ht He. unfold udp_recv. kred. unfold bad_slot. destruct (decide (0 ≤ slot < UDP_SLOTS)) as [Hi|Hi].
  - rewrite !bool_decide_eq_false_2 by lia. cbn [orb]. destruct (is_table_get _ _ slot Ht Hi) as [e Hget].
    rewrite M_bind_eq, (getud_done _ _ (set_intr false s) Hget). cbn [obind].
    rewrite bool_decide_eq_true_2 by (by apply He). kred. by destruct s.
  - assert (bool_decide (slot < 0) || bool_decide (UDP_SLOTS ≤ slot) = true) as ->.
    { apply orb_true_iff. rewrite !bool_decide_eq_true. lia. }
    kred. by destruct s.
Qed.

(** With a packet in the queue udp_recv returns it at once. *)
Lemma udp_recv_queued Q s l F x p slot e ws buff len timeout :
  pkt_state Q s l F x p → is_table UDP_SLOTS (udptab (net (dev s))) → Z.of_nat (length F) < INT_MAX →
  udptab (net (dev s)) !! slot = Some e → udstate e = UDP_USED → ud_queue e ((x + 4) :: ws) →
  0 ≤ len → UDP_HDR_LEN ≤ get16 net_udplen p ≤ PACKLEN - 34 →
  user_apart s l buff (Z.of_nat (length (udp_data len p))) →
  ∃ h b t, let s' := net_upd s h b t (dev (with_ud slot (popped e) s)) in
    udp_recv slot buff len timeout s = Done (Z.of_nat (length (udp_data len p))) s' ∧
    InvQ Q s' ∧ net_mem s' l (x :: F) ∧ ud_queue (popped e) ws ∧
    bytes_in h buff (udp_data len p) ∧ (∀ i, i ≠ psem → t !! i = semtab s !! i) ∧
    (∀ i, ¬ x ≤ i < x + STRIDE → ¬ buff ≤ i < buff + Z.of_nat (length (udp_data len p)) → ldb i h = ldb i (hp s)).
Proof.
  intros Hs Ht Hlen He Hu Hq H0 Hn Hap. pose proof (is_table_bound _ _ _ _ Ht He) as Hi.
  destruct (popped_queue _ _ _ Hq) as (Hq' & Ha & Hh).
  set (s1 := with_ud slot (popped e) (set_intr false s)).
  assert (pkt_state Q s1 l F x p) as Hs1 by (apply pkt_state_net; [by apply pkt_state_intr|done]).
  destruct (udp_copy_spec Q s1 l F x p buff len Hs1 Hlen H0 Hn Hap) as (h & b & t & E & HQ & Hm & Hin & Hsem & Hfr).
  exists h, b, t. cbv zeta. split_and!; try done.
  - unfold udp_recv. kred. unfold bad_slot. rewrite !bool_decide_eq_false_2 by lia. cbn [orb].
    rewrite M_bind_eq, (getud_done _ _ (set_intr false s) He). cbn [obind]. rewrite bool_decide_eq_false_2 by tauto.
    rewrite M_bind_eq. unfold udp_wait at 1. rewrite M_bind_eq, (getud_done _ _ (set_intr false s) He). cbn [obind].
    rewrite bool_decide_eq_false_2 by (rewrite (uq_count _ _ Hq); cbn; lia). cbn [ret obind].
    rewrite bool_decide_eq_false_2 by tauto.
    pose proof (udp_take (set_intr false s) slot e (x + 4) ws He Hq) as Et. fold s1 in Et.
    rewrite M_bind_eq in Et |- *. destruct (udp_head slot (set_intr false s)) as [a s2| | |]; [|done..]. cbn [obind] in Et |- *.
    rewrite M_bind_eq in Et |- *. destruct (setud slot _ s2) as [[] s3| | |]; [|done..]. cbn [obind ret] in Et |- *.
    injection Et as -> ->. rewrite M_bind_eq, E. kred. unfold s1. by destruct s.
  - apply (InvQ_intr (intr s)) in HQ. by destruct s.
  - eapply net_mem_frame; [exact Hm|done..].
Qed.
End pool.
