(* ===== verification/CString.v ===== *)
(** The string library: lib/strlen.c, strnlen.c, strcmp.c, strncmp.c, strcpy.c,
    strncpy.c, strncat.c, strchr.c, strrchr.c, strstr.c, memcpy.c, memset.c,
    bzero.c, memcmp.c, atoi.c, atol.c, abs.c, labs.c, and system/getdev.c.

    Memory is a map from addresses to bytes (0..255: [char] is unsigned on this
    machine); an access outside it is a fault ([None]).  A loop over a string
    stops at the latest when it leaves memory, which bounds its fuel. *)

From S2P Require Import Prelude Types.

Abbreviation bmem := (gmap Z Z).

Definition bst (a v : Z) (m : bmem) : option bmem := _ ← m !! a; Some (<[a := v]> m).

Definition str_fuel (m : bmem) : nat := S (size m).

(** ** strlen.c, strnlen.c *)
Fixpoint strlen_loop (fuel : nat) (m : bmem) (str len : Z) : option Z :=
  match fuel with
  | O => None
  | S fuel =>
    c ← m !! str;
    if bool_decide (c ≠ 0) then strlen_loop fuel m (str + 1) (s32 (len + 1)) else Some len
  end.
Definition strlen (m : bmem) (str : Z) : option Z := strlen_loop (str_fuel m) m str 0.

(** [while ( *s++ && n < len) n++;]: [n] is compared as unsigned *)
Fixpoint strnlen_loop (fuel : nat) (m : bmem) (s len n : Z) : option Z :=
  match fuel with
  | O => None
  | S fuel =>
    c ← m !! s;
    if bool_decide (c ≠ 0) && bool_decide (u32 n < len)
    then strnlen_loop fuel m (s + 1) len (s32 (n + 1)) else Some n
  end.
Definition strnlen (m : bmem) (s len : Z) : option Z := strnlen_loop (str_fuel m) m s len 0.

(** ** strcmp.c, strncmp.c, memcmp.c *)
Fixpoint strcmp_loop (fuel : nat) (m : bmem) (str1 str2 : Z) : option Z :=
  match fuel with
  | O => None
  | S fuel =>
    c1 ← m !! str1; c2 ← m !! str2;
    if bool_decide (c1 = c2) then
      if bool_decide (c1 = 0) then Some 0 else strcmp_loop fuel m (str1 + 1) (str2 + 1)
    else Some (if bool_decide (c1 < c2) then -1 else 1)
  end.
Definition strcmp (m : bmem) (str1 str2 : Z) : option Z := strcmp_loop (str_fuel m) m str1 str2.

(** [while (--n >= 0 && *s1 == *s2++) ...]; the recursion is on [n]. *)
Fixpoint strncmp_loop (n : nat) (m : bmem) (s1 s2 : Z) : option Z :=
  match n with
  | O => Some 0
  | S n =>
    c1 ← m !! s1; c2 ← m !! s2;
    if bool_decide (c1 = c2) then
      if bool_decide (c1 = 0) then Some 0 else strncmp_loop n m (s1 + 1) (s2 + 1)
    else Some (c1 - c2)
  end.
Definition strncmp (m : bmem) (s1 s2 n : Z) : option Z := strncmp_loop (Z.to_nat n) m s1 s2.

Fixpoint memcmp_loop (n : nat) (m : bmem) (c1 c2 : Z) : option Z :=
  match n with
  | O => Some 0
  | S n =>
    b1 ← m !! c1; b2 ← m !! c2;
    if bool_decide (b1 ≠ b2) then Some (b1 - b2) else memcmp_loop n m (c1 + 1) (c2 + 1)
  end.
Definition memcmp (m : bmem) (s1 s2 n : Z) : option Z := memcmp_loop (Z.to_nat n) m s1 s2.

(** ** strcpy.c, strncpy.c, strncat.c *)
Fixpoint strcpy_loop (fuel : nat) (tar src : Z) (m : bmem) : option bmem :=
  match fuel with
  | O => None
  | S fuel =>
    c ← m !! src; m ← bst tar c m;
    if bool_decide (c ≠ 0) then strcpy_loop fuel (tar + 1) (src + 1) m else Some m
  end.
Definition strcpy (m : bmem) (tar src : Z) : option (Z * bmem) :=
  m ← strcpy_loop (str_fuel m) tar src m; Some (0, m).

(** The padding loop of strncpy. *)
Fixpoint pad_loop (n : nat) (s1 : Z) (m : bmem) : option bmem :=
  match n with
  | O => Some m
  | S n => m ← bst s1 0 m; pad_loop n (s1 + 1) m
  end.
Fixpoint strncpy_loop (n : nat) (s1 s2 : Z) (m : bmem) : option bmem :=
  match n with
  | O => Some m
  | S n =>
    c ← m !! s2; m ← bst s1 c m;
    if bool_decide (c = 0) then pad_loop n (s1 + 1) m
    else strncpy_loop n (s1 + 1) (s2 + 1) m
  end.
Definition strncpy (m : bmem) (s1 s2 n : Z) : option (Z * bmem) :=
  m ← strncpy_loop (Z.to_nat n) s1 s2 m; Some (s1, m).

(** [while ( *s1++ ) ; --s1;] *)
Fixpoint find_end (fuel : nat) (m : bmem) (s1 : Z) : option Z :=
  match fuel with
  | O => None
  | S fuel => c ← m !! s1; if bool_decide (c ≠ 0) then find_end fuel m (s1 + 1) else Some s1
  end.
(** [while ( ( *s1++ = *s2++ ) ) if (--n < 0) { *--s1 = 0; break; }] *)
Fixpoint strncat_loop (fuel : nat) (s1 s2 n : Z) (m : bmem) : option bmem :=
  match fuel with
  | O => None
  | S fuel =>
    c ← m !! s2; m ← bst s1 c m;
    if bool_decide (c ≠ 0) then
      if bool_decide (n - 1 < 0) then bst s1 0 m
      else strncat_loop fuel (s1 + 1) (s2 + 1) (n - 1) m
    else Some m
  end.
Definition strncat (m : bmem) (s1 s2 n : Z) : option (Z * bmem) :=
  e ← find_end (str_fuel m) m s1;
  m ← strncat_loop (str_fuel m) e s2 n m; Some (s1, m).

(** ** strchr.c, strrchr.c: 0 is the null pointer *)
Fixpoint strchr_loop (fuel : nat) (m : bmem) (s c : Z) : option Z :=
  match fuel with
  | O => None
  | S fuel =>
    x ← m !! s;
    if bool_decide (x ≠ 0) then
      if bool_decide (x = u8 c) then Some s else strchr_loop fuel m (s + 1) c
    else Some (if bool_decide (u8 c = x) then s else 0)
  end.
Definition strchr (m : bmem) (s c : Z) : option Z := strchr_loop (str_fuel m) m s c.

Fixpoint strrchr_loop (fuel : nat) (m : bmem) (s c r : Z) : option Z :=
  match fuel with
  | O => None
  | S fuel =>
    x ← m !! s;
    if bool_decide (x ≠ 0) then
      strrchr_loop fuel m (s + 1) c (if bool_decide (x = u8 c) then s else r)
    else Some (if bool_decide (u8 c = x) then s else r)
  end.
Definition strrchr (m : bmem) (s c : Z) : option Z := strrchr_loop (str_fuel m) m s c 0.

(** ** strstr.c *)

(** The inner loop: it returns where [cr] stops. *)
Fixpoint match_loop (fuel : nat) (m : bmem) (cq cr : Z) : option Z :=
  match fuel with
  | O => None
  | S fuel =>
    x ← m !! cq;
    if bool_decide (x ≠ 0) then
      y ← m !! cr;
      if bool_decide (y ≠ 0) then
        if bool_decide (x ≠ y) then Some cr else match_loop fuel m (cq + 1) (cr + 1)
      else Some cr
    else Some cr
  end.
Fixpoint strstr_loop (fuel : nat) (m : bmem) (cs ct : Z) : option Z :=
  match fuel with
  | O => None
  | S fuel =>
    x ← m !! cs;
    if bool_decide (x ≠ 0) then
      y ← m !! ct;
      if bool_decide (x = y) then
        cr ← match_loop (str_fuel m) m cs ct;
        z ← m !! cr;
        if bool_decide (z = 0) then Some cs else strstr_loop fuel m (cs + 1) ct
      else strstr_loop fuel m (cs + 1) ct
    else Some 0
  end.
Definition strstr (m : bmem) (cs ct : Z) : option Z := strstr_loop (str_fuel m) m cs ct.

(** ** memcpy.c, memset.c, bzero.c *)
Fixpoint memcpy_loop (n : nat) (dst src : Z) (m : bmem) : option bmem :=
  match n with
  | O => Some m
  | S n => c ← m !! src; m ← bst dst c m; memcpy_loop n (dst + 1) (src + 1) m
  end.
Definition memcpy (m : bmem) (s ct n : Z) : option (Z * bmem) :=
  m ← memcpy_loop (Z.to_nat n) s ct m; Some (s, m).

Fixpoint memset_loop (n : nat) (cp c : Z) (m : bmem) : option bmem :=
  match n with
  | O => Some m
  | S n => m ← bst cp (u8 c) m; memset_loop n (cp + 1) c m
  end.
Definition memset (m : bmem) (s c n : Z) : option (Z * bmem) :=
  m ← memset_loop (Z.to_nat n) s c m; Some (s, m).

Definition bzero (m : bmem) (p len : Z) : option bmem :=
  if bool_decide (len ≤ 0) then Some m else memset_loop (Z.to_nat len) p 0 m.

(** ** atoi.c, atol.c ([long] has 32 bits), abs.c, labs.c *)

(** The first loop: blanks and tabs, then a sign; [(p, f)]. *)
Fixpoint skip_loop (fuel : nat) (m : bmem) (p : Z) : option (Z * bool) :=
  match fuel with
  | O => None
  | S fuel =>
    c ← m !! p;
    if bool_decide (c = 32) || bool_decide (c = 9) then skip_loop fuel m (p + 1)
    else if bool_decide (c = 45) then Some (p + 1, true)
    else if bool_decide (c = 43) then Some (p + 1, false)
    else Some (p, false)
  end.
Definition is_digit (c : Z) : bool := bool_decide (48 ≤ c) && bool_decide (c ≤ 57).
Fixpoint digits_loop (fuel : nat) (m : bmem) (p n : Z) : option Z :=
  match fuel with
  | O => None
  | S fuel =>
    c ← m !! p;
    if is_digit c then digits_loop fuel m (p + 1) (s32 (s32 (s32 (n * 10) + c) - 48)) else Some n
  end.
Definition atoi (m : bmem) (p : Z) : option Z :=
  '(p, f) ← skip_loop (str_fuel m) m p;
  n ← digits_loop (str_fuel m) m p 0;
  Some (if f : bool then s32 (- n) else n).
Definition atol : bmem → Z → option Z := atoi.

Definition abs (arg : Z) : Z := if bool_decide (arg < 0) then s32 (- arg) else arg.
Definition labs : Z → Z := abs.

(** ** getdev.c: the loop over the device table; [dvname i] is the address of
    the name of device [i]. *)
Definition DEVNAMLEN : Z := 16.
Fixpoint getdev_loop (n : nat) (id : Z) (m : bmem) (devname : Z) (dvname : Z → Z) : option Z :=
  match n with
  | O => Some SYSERR
  | S n =>
    r ← strncmp m devname (dvname id) DEVNAMLEN;
    if bool_decide (r ≠ 0) then Some id else getdev_loop n (id + 1) m devname dvname
  end.
Definition getdev (m : bmem) (devname : Z) (dvname : Z → Z) : option Z :=
  getdev_loop (Z.to_nat NDEVS) 0 m devname dvname.

(** * Specifications *)

(** The string [s] (no null byte inside) is at address [a]. *)
Fixpoint cstring (m : bmem) (a : Z) (s : list Z) : Prop :=
  match s with
  | [] => m !! a = Some 0
  | c :: s => m !! a = Some c ∧ c ≠ 0 ∧ cstring m (a + 1) s
  end.

(** The bytes [l] are at address [a]. *)
Fixpoint bytes_at (m : bmem) (a : Z) (l : list Z) : Prop :=
  match l with
  | [] => True
  | c :: l => m !! a = Some c ∧ bytes_at m (a + 1) l
  end.

(** Memory with the bytes [l] written at [a]. *)
Fixpoint write_bytes (l : list Z) (a : Z) (m : bmem) : bmem :=
  match l with
  | [] => m
  | c :: l => write_bytes l (a + 1) (<[a := c]> m)
  end.

(** [n] addresses from [a] on can be stored to. *)
Definition mapped (m : bmem) (a n : Z) : Prop := ∀ i, a ≤ i < a + n → is_Some (m !! i).

Lemma bst_mapped m a n v : mapped m a n → 0 < n → bst a v m = Some (<[a := v]> m).
Proof. intros Hm Hn. destruct (Hm a) as [w Hw]; [lia|]. unfold bst. by rewrite Hw. Qed.

Lemma mapped_insert m a n b v : mapped m a n → mapped (<[b := v]> m) a n.
Proof. intros Hm i Hi. rewrite lookup_insert. case_decide; [by eexists|by apply Hm]. Qed.

Lemma mapped_tail m a n : mapped m a n → mapped m (a + 1) (n - 1).
Proof. intros Hm i Hi. apply Hm. lia. Qed.

Lemma write_bytes_out l a m i : ¬ (a ≤ i < a + Z.of_nat (length l)) → write_bytes l a m !! i = m !! i.
Proof.
  revert a m. induction l as [|c l IH]; intros a m Hi; cbn [write_bytes length] in *; [done|].
  rewrite IH by lia. apply lookup_insert_ne. lia.
Qed.

Lemma write_bytes_at l a m : bytes_at (write_bytes l a m) a l.
Proof.
  revert a m. induction l as [|c l IH]; intros a m; cbn; [done|].
  split; [|apply IH]. rewrite write_bytes_out by lia. apply lookup_insert_eq.
Qed.

Lemma cstring_bytes m a s : cstring m a s → bytes_at m a (s ++ [0]).
Proof.
  revert a. induction s as [|c s IH]; intros a; cbn; [done|].
  intros (? & _ & ?). split; [done|]. by apply IH.
Qed.

Lemma bytes_cstring m a s : bytes_at m a (s ++ [0]) → Forall (λ c, c ≠ 0) s → cstring m a s.
Proof.
  revert a. induction s as [|c s IH]; intros a; cbn; [by intros [? _]|].
  intros [? ?] [? ?]%Forall_cons. split_and!; [done..|]. by apply IH.
Qed.

Lemma bytes_frame m m' a l :
  (∀ i, a ≤ i < a + Z.of_nat (length l) → m' !! i = m !! i) → bytes_at m a l → bytes_at m' a l.
Proof.
  revert a. induction l as [|c l IH]; intros a Hm; cbn in *; [done|]. intros [Hc Hl].
  split; [rewrite Hm by lia; done|]. apply IH; [|done]. intros i Hi. apply Hm. lia.
Qed.

Lemma cstring_nonnull m a s : cstring m a s → Forall (λ c, c ≠ 0) s.
Proof.
  revert a. induction s as [|c s IH]; intros a; cbn; [constructor|].
  intros (_ & ? & ?). constructor; [done|]. by eapply IH.
Qed.

(** A string is shorter than memory, so the loops over it have fuel enough. *)
Lemma bytes_size m a l : bytes_at m a l → (length l ≤ size m)%nat.
Proof.
  intros Hl.
  assert (list_to_set (C := gset Z) (seqZ a (Z.of_nat (length l))) ⊆ dom m) as Hs.
  { intros i Hi%elem_of_list_to_set%elem_of_seqZ. apply elem_of_dom.
    revert a Hl Hi. induction l as [|c l IH]; intros a Hl Hi; cbn in *; [lia|].
    destruct Hl as [Hc Hl]. destruct (decide (i = a)) as [->|]; [by eexists|].
    eapply IH; [exact Hl|lia]. }
  apply subseteq_size in Hs. rewrite size_dom in Hs.
  rewrite size_list_to_set in Hs by apply NoDup_seqZ. by rewrite length_seqZ, Nat2Z.id in Hs.
Qed.

Lemma cstring_fuel m a s : cstring m a s → (length s < str_fuel m)%nat.
Proof. intros H%cstring_bytes%bytes_size. rewrite length_app in H. cbn in H. unfold str_fuel. lia. Qed.

(** One step along a string. *)
Ltac cstep H := destruct H as (? & ? & ?).

(** ** strlen, strnlen *)

Lemma strlen_loop_spec s : ∀ fuel m a n,
  cstring m a s → (length s < fuel)%nat → 0 ≤ n → n + Z.of_nat (length s) ≤ INT_MAX →
  strlen_loop fuel m a n = Some (n + Z.of_nat (length s)).
Proof.
  unfold INT_MAX. induction s as [|c s IH]; intros [|fuel] m a n Hs Hf Hn Hmax; cbn in *; try lia.
  - rewrite Hs. cbn. rewrite bool_decide_eq_false_2 by congruence. f_equal. lia.
  - destruct Hs as (Hc & Hc0 & Hs). rewrite Hc. cbn. rewrite bool_decide_eq_true_2 by done.
    rewrite s32_id by lia. rewrite (IH fuel m (a + 1)) by (done || lia). f_equal. lia.
Qed.

Lemma strlen_ok m a s :
  cstring m a s → Z.of_nat (length s) ≤ INT_MAX → strlen m a = Some (Z.of_nat (length s)).
Proof. intros Hs Hmax. unfold strlen. rewrite (strlen_loop_spec s) by (done || lia || by eapply cstring_fuel). done. Qed.

Lemma strnlen_loop_spec s : ∀ fuel m a len n,
  cstring m a s → (length s < fuel)%nat → 0 ≤ n ≤ len → len ≤ INT_MAX →
  strnlen_loop fuel m a len n = Some (Z.min (n + Z.of_nat (length s)) len).
Proof.
  unfold INT_MAX. induction s as [|c s IH]; intros [|fuel] m a len n Hs Hf Hn Hmax; cbn in *; try lia.
  - rewrite Hs. cbn. rewrite bool_decide_eq_false_2 by congruence. cbn. f_equal. lia.
  - destruct Hs as (Hc & Hc0 & Hs). rewrite Hc. cbn. rewrite bool_decide_eq_true_2 by done.
    cbn [andb]. rewrite u32_id by lia. case_bool_decide.
    + rewrite s32_id by lia. rewrite (IH fuel m (a + 1)) by (done || lia). f_equal. lia.
    + f_equal. lia.
Qed.

Lemma strnlen_ok m a s len :
  cstring m a s → 0 ≤ len ≤ INT_MAX → strnlen m a len = Some (Z.min (Z.of_nat (length s)) len).
Proof. intros Hs Hl. unfold strnlen. rewrite (strnlen_loop_spec s) by (done || lia || by eapply cstring_fuel). done. Qed.

(** ** strcmp, strncmp: lexicographic order *)

(** [s] comes before [t]: at the first difference its byte is smaller, or it
    ends first. *)
Fixpoint lex_lt (s t : list Z) : Prop :=
  match s, t with
  | [], _ :: _ => True
  | x :: s, y :: t => x < y ∨ (x = y ∧ lex_lt s t)
  | _, [] => False
  end.

(** All characters are positive bytes. *)
Definition chars (s : list Z) : Prop := Forall (λ c, 0 < c < 256) s.

Lemma strcmp_loop_spec s : ∀ t fuel m a b,
  cstring m a s → cstring m b t → chars s → chars t → (length s < fuel)%nat →
  ∃ r, strcmp_loop fuel m a b = Some r ∧
    (r = 0 ∧ s = t ∨ r = -1 ∧ lex_lt s t ∨ r = 1 ∧ lex_lt t s).
Proof.
  induction s as [|x s IH]; intros [|y t] [|fuel] m a b Hs Ht Cs Ct Hf; cbn in *; try lia.
  - rewrite Hs, Ht. cbn. rewrite bool_decide_eq_true_2 by done. exists 0. auto.
  - destruct Ht as (Hy & Hy0 & Ht). apply Forall_cons in Ct as [? Ct]. rewrite Hs, Hy. cbn.
    rewrite bool_decide_eq_false_2, bool_decide_eq_true_2 by lia. exists (-1). auto.
  - destruct Hs as (Hx & Hx0 & Hs). apply Forall_cons in Cs as [? Cs]. rewrite Hx, Ht. cbn.
    rewrite !bool_decide_eq_false_2 by lia. exists 1. auto.
  - destruct Hs as (Hx & Hx0 & Hs), Ht as (Hy & Hy0 & Ht). rewrite Hx, Hy. cbn.
    apply Forall_cons in Cs as [? Cs]. apply Forall_cons in Ct as [? Ct].
    case_bool_decide as Hxy.
    + subst. rewrite bool_decide_eq_false_2 by done.
      destruct (IH t fuel m (a + 1) (b + 1)) as (r & Hr & Hcase); try done; [lia|].
      exists r. split; [done|]. naive_solver.
    + case_bool_decide; [exists (-1)|exists 1]; (split; [done|]); [right; left|right; right];
        (split; [done|]); left; lia.
Qed.

Lemma strcmp_ok m a b s t :
  cstring m a s → cstring m b t → chars s → chars t →
  ∃ r, strcmp m a b = Some r ∧ (r = 0 ∧ s = t ∨ r = -1 ∧ lex_lt s t ∨ r = 1 ∧ lex_lt t s).
Proof. intros Hs Ht Cs Ct. eapply strcmp_loop_spec; try done. by eapply cstring_fuel. Qed.

Lemma strncmp_loop_spec n : ∀ s t m a b,
  cstring m a s → cstring m b t → chars s → chars t →
  ∃ r, strncmp_loop n m a b = Some r ∧
    (r = 0 ∧ take n s = take n t ∨ r < 0 ∧ lex_lt (take n s) (take n t) ∨
     0 < r ∧ lex_lt (take n t) (take n s)).
Proof.
  induction n as [|n IH]; intros s t m a b Hs Ht Cs Ct; cbn [strncmp_loop].
  { exists 0. rewrite !take_0. auto. }
  destruct s as [|x s], t as [|y t]; cbn in *.
  - rewrite Hs, Ht. cbn. rewrite bool_decide_eq_true_2 by done. exists 0. auto.
  - destruct Ht as (Hy & Hy0 & Ht). apply Forall_cons in Ct as [? Ct]. rewrite Hs, Hy. cbn.
    rewrite bool_decide_eq_false_2 by lia. eexists. split; [done|]. right; left. split; [lia|done].
  - destruct Hs as (Hx & Hx0 & Hs). apply Forall_cons in Cs as [? Cs]. rewrite Hx, Ht. cbn.
    rewrite !bool_decide_eq_false_2 by lia. eexists. split; [done|]. right; right. split; [lia|done].
  - destruct Hs as (Hx & Hx0 & Hs), Ht as (Hy & Hy0 & Ht). rewrite Hx, Hy. cbn.
    apply Forall_cons in Cs as [? Cs]. apply Forall_cons in Ct as [? Ct].
    case_bool_decide as Hxy.
    + subst. rewrite bool_decide_eq_false_2 by done.
      destruct (IH s t m (a + 1) (b + 1)) as (r & Hr & [[-> ->]|[[? ?]|[? ?]]]); try done;
        eexists; (split; [exact Hr|]); [by left|right; left|right; right]; auto.
    + eexists. split; [done|]. right. destruct (decide (x < y)); [left|right];
        (split; [lia|]); left; lia.
Qed.

Lemma strncmp_ok m a b s t n :
  cstring m a s → cstring m b t → chars s → chars t →
  let k := Z.to_nat n in
  ∃ r, strncmp m a b n = Some r ∧
    (r = 0 ∧ take k s = take k t ∨ r < 0 ∧ lex_lt (take k s) (take k t) ∨
     0 < r ∧ lex_lt (take k t) (take k s)).
Proof. intros. by apply strncmp_loop_spec. Qed.

(** ** Copying *)

Lemma cstring_insert m a s i v :
  cstring m a s → i < a ∨ a + Z.of_nat (length s) < i → cstring (<[i := v]> m) a s.
Proof.
  revert a. induction s as [|c s IH]; intros a; cbn [cstring length].
  - intros Hs Hi. rewrite lookup_insert_ne by lia. done.
  - intros (Hc & ? & Hs) Hi. rewrite lookup_insert_ne by lia. split_and!; try done. apply IH; [done|lia].
Qed.

Lemma bytes_insert m a l i v :
  bytes_at m a l → i < a ∨ a + Z.of_nat (length l) ≤ i → bytes_at (<[i := v]> m) a l.
Proof.
  revert a. induction l as [|c l IH]; intros a; cbn [bytes_at length]; [done|].
  intros [Hc Hl] Hi. rewrite lookup_insert_ne by lia. split; [done|]. apply IH; [done|lia].
Qed.

(** Two regions of memory that do not overlap. *)
Definition apart (a n b k : Z) : Prop := a + n ≤ b ∨ b + k ≤ a.

Lemma strcpy_loop_spec s : ∀ fuel tar src m,
  cstring m src s → (length s < fuel)%nat → mapped m tar (Z.of_nat (length s) + 1) →
  apart tar (Z.of_nat (length s) + 1) src (Z.of_nat (length s) + 1) →
  strcpy_loop fuel tar src m = Some (write_bytes (s ++ [0]) tar m).
Proof.
  unfold apart. induction s as [|c s IH]; intros [|fuel] tar src m Hs Hf Hm Ha;
    cbn [length strcpy_loop cstring app write_bytes] in *; try lia.
  - rewrite Hs. cbn. erewrite bst_mapped by (done || lia). cbn. by rewrite bool_decide_eq_false_2 by congruence.
  - destruct Hs as (Hc & Hc0 & Hs). rewrite Hc. cbn. erewrite bst_mapped by (done || lia). cbn.
    rewrite bool_decide_eq_true_2 by done. apply IH; [|lia| |lia].
    + apply cstring_insert; [done|lia].
    + apply mapped_insert. intros i Hi. apply Hm. lia.
Qed.

Lemma strcpy_ok m tar src s :
  let n := Z.of_nat (length s) + 1 in
  cstring m src s → mapped m tar n → apart tar n src n →
  strcpy m tar src = Some (0, write_bytes (s ++ [0]) tar m) ∧
  cstring (write_bytes (s ++ [0]) tar m) tar s.
Proof.
  intros n Hs Hm Ha. split.
  - unfold strcpy. by rewrite (strcpy_loop_spec s) by (done || by eapply cstring_fuel).
  - apply bytes_cstring; [apply write_bytes_at|by eapply cstring_nonnull].
Qed.

Lemma pad_loop_spec n : ∀ a m,
  mapped m a (Z.of_nat n) → pad_loop n a m = Some (write_bytes (replicate n 0) a m).
Proof.
  induction n as [|n IH]; intros a m Hm; cbn [pad_loop replicate write_bytes]; [done|].
  erewrite bst_mapped by (done || lia). cbn. apply IH, mapped_insert. intros i Hi. apply Hm. lia.
Qed.

(** What strncpy writes: the first [n] characters, padded with nulls. *)
Definition padded (n : nat) (s : list Z) : list Z := take n s ++ replicate (n - length s) 0.

Lemma strncpy_loop_spec n : ∀ s s1 s2 m,
  cstring m s2 s → mapped m s1 (Z.of_nat n) →
  apart s1 (Z.of_nat n) s2 (Z.of_nat (length s) + 1) →
  strncpy_loop n s1 s2 m = Some (write_bytes (padded n s) s1 m).
Proof.
  unfold apart, padded. induction n as [|n IH]; intros s s1 s2 m Hs Hm Ha; [done|].
  cbn [strncpy_loop]. destruct s as [|c s]; cbn [cstring] in Hs.
  - rewrite Hs. cbn [mbind option_bind]. erewrite bst_mapped by (done || lia).
    cbn [mbind option_bind]. rewrite bool_decide_eq_true_2 by done.
    rewrite pad_loop_spec; [by rewrite take_nil|]. apply mapped_insert. intros i Hi. apply Hm. lia.
  - destruct Hs as (Hc & Hc0 & Hs). cbn [length] in Ha. rewrite Hc. cbn [mbind option_bind].
    erewrite bst_mapped by (done || lia). cbn [mbind option_bind].
    rewrite bool_decide_eq_false_2 by done. rewrite (IH s); [done| | |lia].
    + apply cstring_insert; [done|lia].
    + apply mapped_insert. intros i Hi. apply Hm. lia.
Qed.

Lemma strncpy_ok m s1 s2 s n :
  0 ≤ n → cstring m s2 s → mapped m s1 n → apart s1 n s2 (Z.of_nat (length s) + 1) →
  strncpy m s1 s2 n = Some (s1, write_bytes (padded (Z.to_nat n) s) s1 m).
Proof.
  intros Hn Hs Hm Ha. unfold strncpy.
  rewrite (strncpy_loop_spec _ s) by (rewrite ?Z2Nat.id by lia; done). done.
Qed.

Lemma find_end_spec s : ∀ fuel m a,
  cstring m a s → (length s < fuel)%nat → find_end fuel m a = Some (a + Z.of_nat (length s)).
Proof.
  induction s as [|c s IH]; intros [|fuel] m a Hs Hf; cbn [length find_end cstring] in *; try lia.
  - rewrite Hs. cbn. rewrite bool_decide_eq_false_2 by congruence. f_equal. lia.
  - destruct Hs as (Hc & Hc0 & Hs). rewrite Hc. cbn. rewrite bool_decide_eq_true_2 by done.
    rewrite IH by (done || lia). f_equal. lia.
Qed.

Lemma strncat_loop_spec s : ∀ fuel s1 s2 n m,
  cstring m s2 s → (length s < fuel)%nat → 0 ≤ n →
  mapped m s1 (Z.min n (Z.of_nat (length s)) + 1) →
  apart s1 (Z.min n (Z.of_nat (length s)) + 1) s2 (Z.of_nat (length s) + 1) →
  strncat_loop fuel s1 s2 n m = Some (write_bytes (take (Z.to_nat n) s ++ [0]) s1 m).
Proof.
  unfold apart. induction s as [|c s IH]; intros [|fuel] s1 s2 n m Hs Hf Hn Hm Ha;
    cbn [length strncat_loop cstring] in *; try lia.
  - rewrite Hs. cbn [mbind option_bind]. erewrite bst_mapped by (done || lia).
    cbn [mbind option_bind]. rewrite bool_decide_eq_false_2 by congruence. by rewrite take_nil.
  - destruct Hs as (Hc & Hc0 & Hs). rewrite Hc. cbn [mbind option_bind].
    erewrite bst_mapped by (done || lia). cbn [mbind option_bind].
    rewrite bool_decide_eq_true_2 by done. case_bool_decide.
    + replace n with 0 in * by lia. change (Z.to_nat 0) with 0%nat. rewrite take_0. cbn.
      erewrite bst_mapped by first [by apply mapped_insert, Hm | lia]. cbn. by rewrite insert_insert_eq.
    + rewrite (IH fuel); [| |lia|lia| |lia].
      * by replace (Z.to_nat n) with (S (Z.to_nat (n - 1))) by lia.
      * apply cstring_insert; [done|lia].
      * apply mapped_insert. intros i Hi. apply Hm. lia.
Qed.

(** strncat appends at most [n] characters and a null. *)
Lemma strncat_ok m s1 s2 s t n :
  let k := Z.min n (Z.of_nat (length t)) + 1 in
  let e := s1 + Z.of_nat (length s) in
  0 ≤ n → cstring m s1 s → cstring m s2 t → mapped m e k → apart e k s2 (Z.of_nat (length t) + 1) →
  strncat m s1 s2 n = Some (s1, write_bytes (take (Z.to_nat n) t ++ [0]) e m).
Proof.
  intros k e Hn Hs Ht Hm Ha. unfold strncat.
  rewrite (find_end_spec s) by (done || by eapply cstring_fuel). cbn [mbind option_bind].
  rewrite (strncat_loop_spec t) by (done || by eapply cstring_fuel). done.
Qed.

Lemma memcpy_loop_spec l : ∀ dst src m,
  bytes_at m src l → mapped m dst (Z.of_nat (length l)) →
  apart dst (Z.of_nat (length l)) src (Z.of_nat (length l)) →
  memcpy_loop (length l) dst src m = Some (write_bytes l dst m).
Proof.
  unfold apart. induction l as [|c l IH]; intros dst src m Hl Hm Ha;
    cbn [length memcpy_loop bytes_at write_bytes] in *; [done|].
  destruct Hl as [Hc Hl]. rewrite Hc. cbn. erewrite bst_mapped by (done || lia). cbn.
  apply IH; [|apply mapped_insert; intros i Hi; apply Hm; lia|lia].
  apply bytes_insert; [done|lia].
Qed.

Lemma memcpy_ok m s ct l n :
  n = Z.of_nat (length l) → bytes_at m ct l → mapped m s n → apart s n ct n →
  memcpy m s ct n = Some (s, write_bytes l s m).
Proof. intros -> Hl Hm Ha. unfold memcpy. rewrite Nat2Z.id. by rewrite memcpy_loop_spec. Qed.

Lemma memset_loop_spec n : ∀ a c m,
  mapped m a (Z.of_nat n) → memset_loop n a c m = Some (write_bytes (replicate n (u8 c)) a m).
Proof.
  induction n as [|n IH]; intros a c m Hm; cbn [memset_loop replicate write_bytes]; [done|].
  erewrite bst_mapped by (done || lia). cbn. apply IH, mapped_insert. intros i Hi. apply Hm. lia.
Qed.

Lemma memset_ok m s c n :
  0 ≤ n → mapped m s n → memset m s c n = Some (s, write_bytes (replicate (Z.to_nat n) (u8 c)) s m).
Proof. intros Hn Hm. unfold memset. rewrite memset_loop_spec; [done|by rewrite Z2Nat.id]. Qed.

(** bzero is memset with 0. *)
Lemma bzero_memset m p len : 0 ≤ len → bzero m p len = snd <$> memset m p 0 len.
Proof.
  intros Hl. unfold bzero, memset. case_bool_decide.
  - by replace len with 0 by lia.
  - by destruct (memset_loop _ _ _ _).
Qed.

Lemma memcmp_loop_spec l1 : ∀ l2 m a b,
  bytes_at m a l1 → bytes_at m b l2 → length l1 = length l2 →
  ∃ r, memcmp_loop (length l1) m a b = Some r ∧
    (r = 0 ∧ l1 = l2 ∨ r < 0 ∧ lex_lt l1 l2 ∨ 0 < r ∧ lex_lt l2 l1).
Proof.
  induction l1 as [|x l1 IH]; intros [|y l2] m a b H1 H2 Hlen; cbn in *; try done.
  { exists 0. auto. }
  destruct H1 as [Hx H1], H2 as [Hy H2]. rewrite Hx, Hy. cbn. case_bool_decide as Hxy.
  - eexists. split; [done|]. right. destruct (decide (x < y)); [left|right]; (split; [lia|]); left; lia.
  - assert (x = y) as -> by lia.
    destruct (IH l2 m (a + 1) (b + 1)) as (r & Hr & [[-> ->]|[[? ?]|[? ?]]]); try done; [lia|..];
      eexists; (split; [exact Hr|]); [by left|right; left|right; right]; auto.
Qed.

Lemma memcmp_ok m a b l1 l2 n :
  n = Z.of_nat (length l1) → bytes_at m a l1 → bytes_at m b l2 → length l1 = length l2 →
  ∃ r, memcmp m a b n = Some r ∧
    (r = 0 ∧ l1 = l2 ∨ r < 0 ∧ lex_lt l1 l2 ∨ 0 < r ∧ lex_lt l2 l1).
Proof. intros -> H1 H2 Hl. unfold memcmp. rewrite Nat2Z.id. by apply memcmp_loop_spec. Qed.

(** ** Searching *)

(** The position of the first, and of the last, [c] in [l]. *)
Fixpoint first_pos (c : Z) (l : list Z) : option Z :=
  match l with
  | [] => None
  | x :: l => if bool_decide (x = c) then Some 0 else Z.succ <$> first_pos c l
  end.

Fixpoint last_pos (c : Z) (l : list Z) : option Z :=
  match l with
  | [] => None
  | x :: l =>
    match last_pos c l with
    | Some i => Some (Z.succ i)
    | None => if bool_decide (x = c) then Some 0 else None
    end
  end.

(** The address a search returns. *)
Definition at_pos (a : Z) (p : option Z) : Z := match p with Some i => a + i | None => 0 end.

(** Both search functions treat the final null as a character of the string. *)
Lemma strchr_loop_spec s : ∀ fuel m a c,
  cstring m a s → (length s < fuel)%nat →
  strchr_loop fuel m a c = Some (at_pos a (first_pos (u8 c) (s ++ [0]))).
Proof.
  induction s as [|x s IH]; intros [|fuel] m a c Hs Hf; cbn in *; try lia.
  - rewrite Hs. cbn. repeat case_bool_decide; cbn; try congruence; f_equal; lia.
  - destruct Hs as (Hx & Hx0 & Hs). rewrite Hx. cbn. rewrite bool_decide_eq_true_2 by done.
    case_bool_decide; [cbn; f_equal; lia|]. rewrite IH by (done || lia). f_equal.
    destruct (first_pos (u8 c) (s ++ [0])); cbn; lia.
Qed.

Lemma strchr_ok m a s c :
  cstring m a s → strchr m a c = Some (at_pos a (first_pos (u8 c) (s ++ [0]))).
Proof. intros Hs. apply strchr_loop_spec; [done|by eapply cstring_fuel]. Qed.

Lemma strrchr_loop_spec s : ∀ fuel m a c r,
  cstring m a s → (length s < fuel)%nat →
  strrchr_loop fuel m a c r =
    Some (match last_pos (u8 c) (s ++ [0]) with Some i => a + i | None => r end).
Proof.
  induction s as [|x s IH]; intros [|fuel] m a c r Hs Hf; cbn in *; try lia.
  - rewrite Hs. cbn. repeat case_bool_decide; cbn; try congruence; f_equal; lia.
  - destruct Hs as (Hx & Hx0 & Hs). rewrite Hx. cbn. rewrite bool_decide_eq_true_2 by done.
    rewrite IH by (done || lia). f_equal.
    destruct (last_pos (u8 c) (s ++ [0])); cbn; [lia|]. by case_bool_decide; [rewrite Z.add_0_r|].
Qed.

Lemma strrchr_ok m a s c :
  cstring m a s → strrchr m a c = Some (at_pos a (last_pos (u8 c) (s ++ [0]))).
Proof. intros Hs. unfold strrchr. by rewrite (strrchr_loop_spec s) by (done || by eapply cstring_fuel). Qed.

(** [t] is a prefix of [s]. *)
Fixpoint is_prefix (t s : list Z) : bool :=
  match t, s with
  | [], _ => true
  | y :: t, x :: s => bool_decide (x = y) && is_prefix t s
  | _ :: _, [] => false
  end.

(** The first position in [s] at which [t] occurs, the end excluded. *)
Fixpoint find_sub (t s : list Z) : option Z :=
  match s with
  | [] => None
  | _ :: s' => if is_prefix t s then Some 0 else Z.succ <$> find_sub t s'
  end.

Lemma match_loop_spec t : ∀ s fuel m a b,
  cstring m a s → cstring m b t → (length t < fuel)%nat →
  ∃ i, match_loop fuel m a b = Some (b + i) ∧
    (is_prefix t s = true ∧ m !! (b + i) = Some 0 ∨
     is_prefix t s = false ∧ ∃ z, m !! (b + i) = Some z ∧ z ≠ 0).
Proof.
  induction t as [|y t IH]; intros [|x s] [|fuel] m a b Hs Ht Hf; cbn [length match_loop cstring] in *; try lia.
  - rewrite Hs. cbn. exists 0. rewrite Z.add_0_r. auto.
  - destruct Hs as (Hx & Hx0 & Hs). rewrite Hx, Ht. cbn. rewrite bool_decide_eq_true_2 by done.
    exists 0. rewrite Z.add_0_r. auto.
  - destruct Ht as (Hy & Hy0 & Ht). rewrite Hs. cbn. exists 0. rewrite Z.add_0_r. split; [done|].
    right. split; [done|]. by exists y.
  - destruct Ht as (Hy & Hy0 & Ht), Hs as (Hx & Hx0 & Hs). rewrite Hx, Hy. cbn [mbind option_bind].
    rewrite !(bool_decide_eq_true_2 (_ ≠ 0)) by done. cbn [is_prefix].
    destruct (decide (x = y)) as [->|Hxy].
    + rewrite (bool_decide_eq_false_2 (y ≠ y)), (bool_decide_eq_true_2 (y = y)) by auto. cbn [andb].
      destruct (IH s fuel m (a + 1) (b + 1) Hs Ht) as (i & -> & Hi); [lia|].
      exists (1 + i). by replace (b + (1 + i)) with (b + 1 + i) by lia.
    + rewrite (bool_decide_eq_true_2 (x ≠ y)), (bool_decide_eq_false_2 (x = y)) by done. cbn [andb].
      exists 0. rewrite Z.add_0_r. split; [done|]. right. split; [done|]. by exists y.
Qed.

(** strstr finds the first occurrence of a string that is not empty. *)
Lemma strstr_loop_spec s : ∀ fuel m a b t,
  cstring m a s → cstring m b t → t ≠ [] → (length s < fuel)%nat →
  strstr_loop fuel m a b = Some (at_pos a (find_sub t s)).
Proof.
  induction s as [|x s IH]; intros [|fuel] m a b t Hs Ht Hne Hf; cbn [length strstr_loop] in *; try lia.
  - cbn in Hs. rewrite Hs. done.
  - pose proof Hs as (Hx & Hx0 & Hs'). rewrite Hx. cbn [mbind option_bind].
    rewrite bool_decide_eq_true_2 by done. destruct t as [|y t]; [done|].
    pose proof Ht as (Hy & Hy0 & Ht'). rewrite Hy. cbn [mbind option_bind].
    assert (strstr_loop fuel m (a + 1) b = Some (at_pos (a + 1) (find_sub (y :: t) s))) as Hrec.
    { apply IH; [done..|lia]. }
    assert (at_pos (a + 1) (find_sub (y :: t) s) = at_pos a (Z.succ <$> find_sub (y :: t) s)) as Hat.
    { destruct (find_sub (y :: t) s); cbn; lia. }
    cbn [find_sub]. destruct (decide (x = y)) as [->|Hxy].
    + rewrite (bool_decide_eq_true_2 (y = y)) by done.
      destruct (match_loop_spec (y :: t) (y :: s) (str_fuel m) m a b Hs Ht) as (i & Hi & [[Hp Hz]|(Hp & z & Hz & Hz0)]);
        [by eapply cstring_fuel|..]; rewrite Hi; cbn [mbind option_bind]; rewrite Hz;
        cbn [mbind option_bind]; rewrite Hp.
      * rewrite bool_decide_eq_true_2 by done. cbn. f_equal. lia.
      * rewrite bool_decide_eq_false_2 by done. by rewrite Hrec, Hat.
    + rewrite bool_decide_eq_false_2 by done. cbn [is_prefix].
      rewrite bool_decide_eq_false_2 by done. cbn [andb]. by rewrite Hrec, Hat.
Qed.

Lemma strstr_ok m a b s t :
  cstring m a s → cstring m b t → t ≠ [] → strstr m a b = Some (at_pos a (find_sub t s)).
Proof. intros Hs Ht Hne. apply strstr_loop_spec; try done. by eapply cstring_fuel. Qed.

(** An empty string is not found, not even at the start. *)
Lemma strstr_empty_loop s : ∀ fuel m a b,
  cstring m a s → m !! b = Some 0 → (length s < fuel)%nat → strstr_loop fuel m a b = Some 0.
Proof.
  induction s as [|x s IH]; intros [|fuel] m a b Hs Hb Hf; cbn [length strstr_loop cstring] in *; try lia.
  - by rewrite Hs.
  - destruct Hs as (Hx & Hx0 & Hs). rewrite Hx, Hb. cbn [mbind option_bind].
    rewrite bool_decide_eq_true_2 by done. rewrite bool_decide_eq_false_2 by done. apply IH; [done..|lia].
Qed.

(** ** Numbers *)

(** The value of decimal digits. *)
Definition dec_value (n : Z) (ds : list Z) : Z := foldl (λ n c, n * 10 + (c - 48)) n ds.

Definition digits (ds : list Z) : Prop := Forall (λ c, 48 ≤ c ≤ 57) ds.

Lemma dec_value_le ds : ∀ n, 0 ≤ n → digits ds → n ≤ dec_value n ds.
Proof.
  induction ds as [|c ds IH]; intros n Hn Hd; cbn; [lia|].
  apply Forall_cons in Hd as [? Hd]. specialize (IH (n * 10 + (c - 48)) ltac:(lia) Hd).
  unfold dec_value in IH. lia.
Qed.

Lemma s32_digit n c :
  - 2147483648 ≤ n * 10 + c - 48 < 2147483648 → s32 (s32 (s32 (n * 10) + c) - 48) = n * 10 + (c - 48).
Proof.
  intros H.
  assert (∀ a b, s32 (s32 a + b) = s32 (a + b)) as Hs.
  { intros a b. unfold s32. f_equal.
    replace (a + b + 2147483648) with (a + 2147483648 + b) by lia.
    rewrite <-(Zplus_mod_idemp_l (a + 2147483648) b).
    replace ((a + 2147483648) mod 4294967296 - 2147483648 + b + 2147483648)
      with ((a + 2147483648) mod 4294967296 + b) by lia. done. }
  replace (s32 (s32 (n * 10) + c) - 48) with (s32 (s32 (n * 10) + c) + - 48) by lia.
  rewrite Hs, <-Z.add_assoc, Hs, s32_id; lia.
Qed.

(** Reading digits, up to the first other byte [z]; the result is the value of
    the digits as long as that is an [int]. *)
Lemma digits_loop_spec ds : ∀ fuel m p n z,
  bytes_at m p (ds ++ [z]) → digits ds → is_digit z = false → (length ds < fuel)%nat →
  0 ≤ n → dec_value n ds ≤ INT_MAX →
  digits_loop fuel m p n = Some (dec_value n ds).
Proof.
  unfold INT_MAX.
  induction ds as [|c ds IH]; intros [|fuel] m p n z Hb Hd Hz Hf Hn Hmax; cbn [app bytes_at length digits_loop] in *; try lia.
  - destruct Hb as [-> _]. cbn. by rewrite Hz.
  - destruct Hb as [Hc Hb]. apply Forall_cons in Hd as [Hcd Hd]. rewrite Hc. cbn [mbind option_bind].
    cbn [dec_value foldl] in Hmax |- *. fold (dec_value (n * 10 + (c - 48)) ds) in Hmax |- *.
    pose proof (dec_value_le ds (n * 10 + (c - 48)) ltac:(lia) Hd).
    assert (is_digit c = true) as -> by (unfold is_digit; rewrite !bool_decide_eq_true_2 by lia; done).
    rewrite s32_digit by lia. eapply IH; [done..|lia|lia|lia].
Qed.

(** Blanks and tabs. *)
Definition blanks (bs : list Z) : Prop := Forall (λ c, c = 32 ∨ c = 9) bs.

(** An optional sign. *)
Inductive sign : list Z → bool → Prop :=
  | sign_none : sign [] false
  | sign_plus : sign [43] false
  | sign_minus : sign [45] true.

Lemma skip_loop_spec bs sg f ds z : ∀ fuel m p,
  bytes_at m p (bs ++ sg ++ ds ++ [z]) → blanks bs → sign sg f → ds ≠ [] → digits ds →
  (length bs < fuel)%nat →
  skip_loop fuel m p = Some (p + Z.of_nat (length bs + length sg), f).
Proof.
  induction bs as [|c bs IH]; intros [|fuel] m p Hb Hbs Hsg Hne Hd Hf; cbn [app length bytes_at skip_loop] in *; try lia.
  - destruct ds as [|d ds]; [done|]. apply Forall_cons in Hd as [Hd _].
    destruct Hsg; cbn in Hb; destruct Hb as [-> _]; cbn [mbind option_bind]; [|cbn; f_equal; f_equal; lia..].
    do 4 rewrite bool_decide_eq_false_2 by lia. cbn. f_equal; f_equal; lia.
  - destruct Hb as [-> Hb]. apply Forall_cons in Hbs as [Hc Hbs]. cbn [mbind option_bind].
    assert (bool_decide (c = 32) || bool_decide (c = 9) = true) as ->.
    { destruct Hc as [-> | ->]; done. }
    rewrite IH by (done || lia). f_equal; f_equal; lia.
Qed.

Lemma bytes_at_app m p l1 l2 :
  bytes_at m p (l1 ++ l2) ↔ bytes_at m p l1 ∧ bytes_at m (p + Z.of_nat (length l1)) l2.
Proof.
  revert p. induction l1 as [|c l1 IH]; intros p; cbn [app bytes_at length].
  { rewrite Z.add_0_r. tauto. }
  rewrite IH. replace (p + Z.of_nat (S (length l1))) with (p + 1 + Z.of_nat (length l1)) by lia. tauto.
Qed.

(** atoi reads blanks, a sign and a decimal number. *)
Lemma atoi_ok m p bs sg f ds z :
  bytes_at m p (bs ++ sg ++ ds ++ [z]) → blanks bs → sign sg f → ds ≠ [] → digits ds →
  is_digit z = false → dec_value 0 ds ≤ INT_MAX →
  atoi m p = Some (if f then - dec_value 0 ds else dec_value 0 ds).
Proof.
  intros Hb Hbs Hsg Hne Hd Hz Hmax. unfold atoi. pose proof (bytes_size _ _ _ Hb) as Hsz.
  rewrite !length_app in Hsz.
  rewrite (skip_loop_spec bs sg f ds z) by (done || (unfold str_fuel; lia)).
  cbn [mbind option_bind].
  apply bytes_at_app in Hb as [_ Hb]. apply bytes_at_app in Hb as [_ Hb].
  erewrite digits_loop_spec; [|..|exact Hmax]; [|by rewrite Nat2Z.inj_add, Z.add_assoc|done|done| |done].
  2: { unfold str_fuel. lia. }
  pose proof (dec_value_le ds 0 ltac:(lia) Hd). unfold INT_MAX in Hmax.
  cbn [mbind option_bind]. destruct f; [|done]. by rewrite s32_id by lia.
Qed.

(** ** getdev *)

(** getdev answers with the first device whose name differs from the one asked
    for in the first DEVNAMLEN characters. *)
Lemma getdev_loop_spec (names : list (list Z)) : ∀ id m devname dvname s,
  cstring m devname s → chars s →
  (∀ i t, names !! i = Some t → cstring m (dvname (id + Z.of_nat i)) t ∧ chars t) →
  getdev_loop (length names) id m devname dvname =
    Some (match list_find (λ t, take 16 t ≠ take 16 s) names with
          | Some (i, _) => id + Z.of_nat i | None => SYSERR end).
Proof.
  induction names as [|t names IH]; intros id m devname dvname s Hs Cs Hn; [done|].
  cbn [length getdev_loop].
  destruct (Hn O t eq_refl) as [Ht Ct]. rewrite Z.add_0_r in Ht.
  destruct (strncmp_ok m devname (dvname id) s t DEVNAMLEN Hs Ht Cs Ct) as (r & -> & Hr).
  change (Z.to_nat DEVNAMLEN) with 16%nat in Hr. cbn [mbind option_bind list_find].
  assert (∀ l, ¬ lex_lt l l) as Hirr.
  { induction l as [|x l IHl]; cbn; [tauto|]. intros [?|[_ ?]]; [lia|tauto]. }
  destruct Hr as [[-> Heq]|[[? Hlt]|[? Hlt]]].
  - rewrite bool_decide_eq_false_2 by auto. rewrite decide_False by auto.
    rewrite (IH (id + 1) m devname dvname s Hs Cs).
    2: { intros i u Hu. destruct (Hn (S i) u Hu) as [??]. split; [|done].
         by replace (id + 1 + Z.of_nat i) with (id + Z.of_nat (S i)) by lia. }
    f_equal. destruct (list_find _ names) as [[i u]|]; cbn; [lia|done].
  - rewrite bool_decide_eq_true_2 by lia. rewrite decide_True; [f_equal; lia|].
    intros Heq. rewrite Heq in Hlt. by apply Hirr in Hlt.
  - rewrite bool_decide_eq_true_2 by lia. rewrite decide_True; [f_equal; lia|].
    intros Heq. rewrite Heq in Hlt. by apply Hirr in Hlt.
Qed.

(** ** Writing bytes *)

Lemma write_bytes_app l1 l2 a m :
  write_bytes (l1 ++ l2) a m = write_bytes l2 (a + Z.of_nat (length l1)) (write_bytes l1 a m).
Proof.
  revert a m. induction l1 as [|c l1 IH]; intros a m; cbn; [by rewrite Z.add_0_r|].
  rewrite IH. f_equal. lia.
Qed.

Lemma write_bytes_insert l a m b v :
  ¬ (a ≤ b < a + Z.of_nat (length l)) → write_bytes l a (<[b := v]> m) = <[b := v]> (write_bytes l a m).
Proof.
  revert a m. induction l as [|c l IH]; intros a m Hb; cbn [write_bytes length] in *; [done|].
  rewrite insert_insert_ne by lia. by rewrite IH by lia.
Qed.

Lemma write_bytes_comm l1 l2 a b m :
  apart a (Z.of_nat (length l1)) b (Z.of_nat (length l2)) →
  write_bytes l1 a (write_bytes l2 b m) = write_bytes l2 b (write_bytes l1 a m).
Proof.
  revert a m. induction l1 as [|c l1 IH]; intros a m Hd; cbn [write_bytes length] in *; [done|].
  unfold apart in *. rewrite <-write_bytes_insert by lia. apply IH. lia.
Qed.

Lemma write_bytes_twice l1 l2 a m :
  length l1 = length l2 → write_bytes l2 a (write_bytes l1 a m) = write_bytes l2 a m.
Proof.
  revert l2 a m. induction l1 as [|c l1 IH]; intros [|d l2] a m Hl; cbn in *; try done. injection Hl as Hl.
  rewrite <-write_bytes_insert by lia. rewrite insert_insert_eq. by apply IH.
Qed.

(** Writing over a part of what was written. *)
Lemma write_bytes_over P l l' R a m :
  length l' = length l →
  write_bytes l' (a + Z.of_nat (length P)) (write_bytes (P ++ l ++ R) a m) =
  write_bytes (P ++ l' ++ R) a m.
Proof.
  intros Hl. rewrite !write_bytes_app, Hl.
  rewrite write_bytes_comm by (unfold apart; lia). by rewrite write_bytes_twice.
Qed.

Lemma bytes_at_mid P l R a m :
  bytes_at (write_bytes (P ++ l ++ R) a m) (a + Z.of_nat (length P)) l.
Proof.
  pose proof (write_bytes_at (P ++ l ++ R) a m) as H.
  by apply bytes_at_app in H as [_ [H _]%bytes_at_app].
Qed.

Lemma write_bytes_id l a m : bytes_at m a l → write_bytes l a m = m.
Proof.
  revert a m. induction l as [|x l IH]; intros a m; cbn; [done|]. intros [Hx Hl].
  rewrite insert_id by done. by apply IH.
Qed.

(** A buffer that is filled from its start on: [n] bytes at [a] can be stored to, and
    [l] is what has been stored. *)
Lemma write_bytes_dom l : ∀ a n m,
  mapped m a n → Z.of_nat (length l) ≤ n → dom (write_bytes l a m) = dom m.
Proof.
  induction l as [|c l IH]; intros a n m Hm Hl; cbn in *; [done|].
  rewrite (IH _ (n - 1)); [|by apply mapped_tail, mapped_insert|lia].
  rewrite dom_insert_L. destruct (Hm a) as [v Hv]; [lia|].
  apply elem_of_dom_2 in Hv. set_solver.
Qed.

Lemma write_bytes_size l a n m :
  mapped m a n → Z.of_nat (length l) ≤ n → size (write_bytes l a m) = size m.
Proof. intros Hm Hl. by rewrite <-!size_dom, (write_bytes_dom l a n m). Qed.

Lemma bytes_at_apart l a n m p s :
  bytes_at m p s → apart p (Z.of_nat (length s)) a n → Z.of_nat (length l) ≤ n →
  bytes_at (write_bytes l a m) p s.
Proof.
  intros Hs Ha Hl. eapply bytes_frame; [|done]. intros i Hi. apply write_bytes_out.
  unfold apart in Ha. lia.
Qed.

Lemma bst_next l a n m c :
  mapped m a n → Z.of_nat (length l) < n →
  bst (a + Z.of_nat (length l)) c (write_bytes l a m) = Some (write_bytes (l ++ [c]) a m).
Proof.
  intros Hm Hl. unfold bst.
  assert (is_Some (write_bytes l a m !! (a + Z.of_nat (length l)))) as [v ->].
  { apply elem_of_dom. rewrite (write_bytes_dom l a n) by (done || lia). apply elem_of_dom, Hm. lia. }
  cbn. by rewrite write_bytes_app.
Qed.

(** [mapped] by evaluation. *)
Lemma mapped_check m a n : forallb (λ i, bool_decide (is_Some (m !! i))) (seqZ a n) = true → mapped m a n.
Proof.
  intros H i Hi. rewrite forallb_forall in H.
  apply (bool_decide_eq_true_1 _), H, list_elem_of_In, elem_of_seqZ. lia.
Qed.
