(* ===== verification/Qsort.v ===== *)
(** lib/qsort.c: the in-place quicksort of an array of [es]-byte elements, byte
    by byte as the code exchanges them, and the proof that it sorts.

    The static variables [qscmp] and [qses] are set once by qsort and only read
    below it: they are parameters of the functions here.  A comparison function
    gets two addresses and reads memory. *)

From stdpp Require Import sorting.
From S2P Require Import Prelude Types CString.

Section qsort.
Context (qscmp : bmem → Z → Z → option Z) (qses : Z).

(** [do { ... } while (--n);]: the number of rounds is [qses], as an unsigned
    number (the functions are not called with 0). *)
Fixpoint qsexc_loop (n : nat) (ri rj : Z) (m : bmem) : option bmem :=
  match n with
  | O => Some m
  | S n =>
    c ← m !! ri; v ← m !! rj;
    m ← bst ri v m; m ← bst rj c m;
    qsexc_loop n (ri + 1) (rj + 1) m
  end.
Definition qsexc (i j : Z) (m : bmem) : option bmem := qsexc_loop (Z.to_nat (u32 qses)) i j m.

Fixpoint qstexc_loop (n : nat) (ri rj rk : Z) (m : bmem) : option bmem :=
  match n with
  | O => Some m
  | S n =>
    c ← m !! ri;
    v ← m !! rk; m ← bst ri v m;
    v ← m !! rj; m ← bst rk v m;
    m ← bst rj c m;
    qstexc_loop n (ri + 1) (rj + 1) (rk + 1) m
  end.
Definition qstexc (i j k : Z) (m : bmem) : option bmem :=
  qstexc_loop (Z.to_nat (u32 qses)) i j k m.

(** The two places where the partition goes on: the head of the [for] and the
    label [loop]. *)
Inductive qs_label := qs_for | qs_loop.

(** The [for] of qs1: it ends at the last test of [i == lp], with [lp], [hp]
    and the memory of that time. *)
Fixpoint qs_part (fuel : nat) (at_ : qs_label) (i j lp hp : Z) (m : bmem) : option (Z * Z * bmem) :=
  match fuel with
  | O => None
  | S fuel =>
    let loop :=
      if bool_decide (hp < j) then
        c ← qscmp m hp j;
        if bool_decide (c = 0) then
          m ← qsexc (hp + qses) j m;
          qs_part fuel qs_loop i j lp (hp + qses) m
        else if bool_decide (0 < c) then
          if bool_decide (i = lp) then
            m ← qstexc i (hp + qses) j m;
            qs_part fuel qs_loop (lp + qses) j (lp + qses) (hp + qses) m
          else
            m ← qsexc i j m;
            qs_part fuel qs_for (i + qses) (j - qses) lp hp m
        else qs_part fuel qs_loop i (j - qses) lp hp m
      else if bool_decide (i = lp) then Some (lp, hp, m)
      else
        m ← qstexc j (lp - qses) i m;
        qs_part fuel qs_for i (hp - qses) (lp - qses) (hp - qses) m in
    match at_ with
    | qs_loop => loop
    | qs_for =>
      if bool_decide (i < lp) then
        c ← qscmp m i lp;
        if bool_decide (c = 0) then
          m ← qsexc i (lp - qses) m;
          qs_part fuel qs_for i j (lp - qses) hp m
        else if bool_decide (c < 0) then qs_part fuel qs_for (i + qses) j lp hp m
        else loop
      else loop
    end
  end.

(** One round of the code behind the label [start]: [None] when the array has
    at most one element, and otherwise the middle part and the memory. *)
Definition qs_split (a l : Z) (m : bmem) : option (option (Z * Z) * bmem) :=
  let n := u32 (l - a) in
  if bool_decide (n ≤ u32 qses) then Some (None, m)
  else
    let n2 := u32 (u32 qses * (n / u32 (2 * qses))) in
    '(lp, hp, m) ← qs_part (S (Z.to_nat n)) qs_for a (l - qses) (a + n2) (a + n2) m;
    Some (Some (lp, hp), m).

(** The code from the label [start] on; [rec] is the recursive call, which sorts
    the smaller of the two other parts before [goto start] turns to the larger
    one. *)
Fixpoint qs_start (rec : Z → Z → bmem → option bmem) (fuel : nat) (a l : Z) (m : bmem) : option bmem :=
  match fuel with
  | O => None
  | S fuel =>
    '(r, m) ← qs_split a l m;
    match r with
    | None => Some m
    | Some (lp, hp) =>
      if bool_decide (l - hp ≤ lp - a) then
        m ← rec (hp + qses) l m; qs_start rec fuel a lp m
      else
        m ← rec a lp m; qs_start rec fuel (hp + qses) l m
    end
  end.

(** [depth] bounds the number of calls that are active at a time. *)
Fixpoint qs1 (depth : nat) (a l : Z) (m : bmem) : option bmem :=
  match depth with
  | O => None
  | S depth => qs_start (qs1 depth) (S (Z.to_nat (u32 (l - a)))) a l m
  end.

Definition qsort (depth : nat) (a n : Z) (m : bmem) : option bmem :=
  qs1 depth a (a + u32 (n * qses)) m.
End qsort.

(** * Exchanging blocks *)

Lemma qsexc_loop_apart x : ∀ y i j m,
  length y = length x → bytes_at m i x → bytes_at m j y →
  apart i (Z.of_nat (length x)) j (Z.of_nat (length x)) →
  qsexc_loop (length x) i j m = Some (write_bytes x j (write_bytes y i m)).
Proof.
  induction x as [|c x IH]; intros [|d y] i j m Hl Hx Hy Ha; cbn in *; try done. injection Hl as Hl.
  destruct Hx as [Hc Hx], Hy as [Hd Hy]. unfold apart in *. rewrite Hc, Hd. cbn.
  unfold bst. rewrite Hc. cbn. rewrite lookup_insert_ne, Hd by lia. cbn.
  rewrite (IH y); [|done| | |lia].
  - rewrite write_bytes_insert by lia. done.
  - eapply bytes_frame; [|exact Hx]. intros k Hk. by rewrite !lookup_insert_ne by lia.
  - eapply bytes_frame; [|exact Hy]. intros k Hk. by rewrite !lookup_insert_ne by lia.
Qed.

Lemma qsexc_loop_self x : ∀ i m, bytes_at m i x → qsexc_loop (length x) i i m = Some m.
Proof.
  induction x as [|c x IH]; intros i m Hx; cbn in *; [done|]. destruct Hx as [Hc Hx].
  rewrite Hc. cbn. unfold bst. rewrite Hc. cbn. rewrite lookup_insert_eq. cbn.
  rewrite !insert_id by (rewrite ?insert_id; done). by apply IH.
Qed.

Lemma qstexc_loop_apart x : ∀ y z i j k m,
  length y = length x → length z = length x →
  bytes_at m i x → bytes_at m j y → bytes_at m k z →
  apart i (Z.of_nat (length x)) j (Z.of_nat (length x)) →
  apart i (Z.of_nat (length x)) k (Z.of_nat (length x)) →
  apart j (Z.of_nat (length x)) k (Z.of_nat (length x)) →
  qstexc_loop (length x) i j k m = Some (write_bytes x j (write_bytes y k (write_bytes z i m))).
Proof.
  induction x as [|c x IH]; intros [|d y] [|e z] i j k m Hl Hl' Hx Hy Hz H1 H2 H3; cbn in *; try done.
  injection Hl as Hl. injection Hl' as Hl'.
  destruct Hx as [Hc Hx], Hy as [Hd Hy], Hz as [He Hz]. unfold apart in *. rewrite Hc, He. cbn.
  unfold bst. rewrite Hc. cbn. rewrite (lookup_insert_ne m i j), Hd by lia. cbn.
  rewrite (lookup_insert_ne m i k), He by lia. cbn. rewrite !lookup_insert_ne, Hd by lia. cbn.
  assert (∀ l a, bytes_at m (a + 1) l → length l = length x →
    a + 1 + Z.of_nat (length l) ≤ i ∨ i < a + 1 → a + 1 + Z.of_nat (length l) ≤ j ∨ j < a + 1 →
    a + 1 + Z.of_nat (length l) ≤ k ∨ k < a + 1 →
    bytes_at (<[j:=c]> (<[k:=d]> (<[i:=e]> m))) (a + 1) l) as Hfr.
  { intros l a Hl0 Hll ? ? ?. eapply bytes_frame; [|exact Hl0]. intros q Hq. by rewrite !lookup_insert_ne by lia. }
  rewrite (IH y z) by (done || lia || (apply Hfr; (done || lia))).
  rewrite (write_bytes_insert z) by lia. rewrite (write_bytes_insert y) by lia.
  rewrite (write_bytes_insert z) by lia. done.
Qed.

(** The last two blocks may be the same: then two blocks are exchanged. *)
Lemma qstexc_loop_same n : ∀ i j m,
  i ≠ j → qstexc_loop n i j j m = qsexc_loop n i j m.
Proof.
  induction n as [|n IH]; intros i j m Hij; cbn; [done|].
  destruct (m !! i) as [c|] eqn:Hc; [|done]. cbn. destruct (m !! j) as [d|] eqn:Hd; [|done]. cbn.
  unfold bst. rewrite Hc. cbn. rewrite (lookup_insert_ne m i j), Hd by done. cbn.
  rewrite lookup_insert_eq. cbn. rewrite insert_insert_eq. by apply IH; lia.
Qed.

Lemma qsexc_loop_sym n : ∀ i j m, i ≠ j → qsexc_loop n j i m = qsexc_loop n i j m.
Proof.
  induction n as [|n IH]; intros i j m Hij; cbn; [done|]. unfold bst.
  destruct (m !! i) as [c|] eqn:Hc, (m !! j) as [d|] eqn:Hd; cbn; try done; rewrite ?Hc, ?Hd; cbn; try done.
  rewrite !lookup_insert_ne, Hc, Hd by done. cbn.
  rewrite (insert_insert_ne m i j) by done. apply IH. lia.
Qed.

(** * Arrays of elements *)

Section arr.
Context (es : nat) (a : Z) (m0 : bmem).
Hypothesis Hes : (0 < es)%nat.

(** Elements of [es] bytes. *)
Definition elems (xs : list (list Z)) : Prop := Forall (λ x, length x = es) xs.

#[export] Instance elems_perm : Proper ((≡ₚ) ==> iff) elems.
Proof. intros xs ys H. unfold elems. by rewrite H. Qed.

(** The address behind the elements [xs] at the start of the array, and memory with
    the array [xs]. *)
Definition addr (xs : list (list Z)) : Z := a + Z.of_nat es * Z.of_nat (length xs).
Definition arr (xs : list (list Z)) : bmem := write_bytes (concat xs) a m0.

Lemma length_elems xs : elems xs → length (concat xs) = (es * length xs)%nat.
Proof. induction 1 as [|x xs Hx _ IH]; cbn; [lia|]. rewrite length_app, Hx, IH. lia. Qed.

Lemma addr_concat xs : elems xs → addr xs = a + Z.of_nat (length (concat xs)).
Proof. intros H. unfold addr. rewrite length_elems by done. lia. Qed.

Lemma addr_app xs ys : addr (xs ++ ys) = addr xs + Z.of_nat es * Z.of_nat (length ys).
Proof. unfold addr. rewrite length_app. lia. Qed.

Lemma arr_elem P x R : elems P → bytes_at (arr (P ++ x :: R)) (addr P) x.
Proof. intros HP. rewrite addr_concat by done. unfold arr. rewrite concat_app. cbn. apply bytes_at_mid. Qed.

(** Storing another element. *)
Lemma arr_store P x x' R :
  elems P → length x' = length x →
  write_bytes x' (addr P) (arr (P ++ x :: R)) = arr (P ++ x' :: R).
Proof.
  intros HP Hx. rewrite addr_concat by done. unfold arr. rewrite !concat_app. cbn.
  by apply write_bytes_over.
Qed.

Lemma qsexc_arr P x Q y R :
  elems (P ++ x :: Q ++ y :: R) → Z.of_nat es < 2 ^ 32 →
  qsexc (Z.of_nat es) (addr P) (addr (P ++ x :: Q)) (arr (P ++ x :: Q ++ y :: R)) =
    Some (arr (P ++ y :: Q ++ x :: R)).
Proof.
  intros H Hw. pose proof H as (HP & [Hx (HQ & [Hy HR]%Forall_cons)%Forall_app]%Forall_cons)%Forall_app.
  assert (elems (P ++ x :: Q)) as HPQ by (apply Forall_app; auto).
  assert (elems (P ++ y :: Q)) as HPQ' by (apply Forall_app; auto).
  unfold qsexc. rewrite u32_id, Nat2Z.id by lia.
  rewrite <-Hx at 1. rewrite (qsexc_loop_apart x y).
  - rewrite (arr_store P x y) by (done || congruence).
    replace (addr (P ++ x :: Q)) with (addr (P ++ y :: Q)) by (unfold addr; rewrite !length_app; done).
    pose proof (arr_store (P ++ y :: Q) y x R HPQ' ltac:(congruence)) as E.
    rewrite <-!app_assoc in E. f_equal. exact E.
  - congruence.
  - by apply arr_elem.
  - pose proof (arr_elem (P ++ x :: Q) y R HPQ) as E. rewrite <-app_assoc in E. exact E.
  - unfold apart. rewrite addr_app, Hx. cbn [length]. lia.
Qed.

Lemma qsexc_arr_self P x R :
  elems (P ++ x :: R) → Z.of_nat es < 2 ^ 32 →
  qsexc (Z.of_nat es) (addr P) (addr P) (arr (P ++ x :: R)) = Some (arr (P ++ x :: R)).
Proof.
  intros (HP & [Hx _]%Forall_cons)%Forall_app Hw. unfold qsexc. rewrite u32_id, Nat2Z.id by lia.
  rewrite <-Hx at 1. apply qsexc_loop_self. by apply arr_elem.
Qed.

(** Three elements, the first two addresses in ascending order. *)
Lemma qstexc_arr P x Q y S z R :
  elems (P ++ x :: Q ++ y :: S ++ z :: R) → Z.of_nat es < 2 ^ 32 →
  let i := addr P in let j := addr (P ++ x :: Q) in let k := addr (P ++ x :: Q ++ y :: S) in
  qstexc (Z.of_nat es) i j k (arr (P ++ x :: Q ++ y :: S ++ z :: R)) =
    Some (arr (P ++ z :: Q ++ x :: S ++ y :: R)) ∧
  qstexc (Z.of_nat es) k j i (arr (P ++ x :: Q ++ y :: S ++ z :: R)) =
    Some (arr (P ++ y :: Q ++ z :: S ++ x :: R)).
Proof.
  intros H Hw i j k.
  pose proof H as (HP & [Hx (HQ & [Hy (HS & [Hz HR]%Forall_cons)%Forall_app]%Forall_cons)%Forall_app]%Forall_cons)%Forall_app.
  assert (∀ u, length u = es → elems (P ++ u :: Q)) as HPQ by (intros; apply Forall_app; auto).
  assert (∀ u v, length u = es → length v = es → elems (P ++ u :: Q ++ v :: S)) as HPQS.
  { intros. apply Forall_app; split; [done|]. constructor; [done|]. apply Forall_app; auto. }
  assert (∀ u, j = addr (P ++ u :: Q)) as Hj by (intros; unfold j, addr; by rewrite !length_app).
  assert (∀ u v, k = addr (P ++ u :: Q ++ v :: S)) as Hk.
  { intros; unfold k, addr. by rewrite !length_app; cbn; rewrite !length_app. }
  assert (∀ u v w l v', length u = es → length v = es → length v' = length v → length w = es →
    write_bytes v' j (arr (P ++ u :: Q ++ v :: S ++ w :: l)) = arr (P ++ u :: Q ++ v' :: S ++ w :: l)) as Wj.
  { intros u v w l v' Hu Hv Hv' Hw'. rewrite (Hj u).
    pose proof (arr_store (P ++ u :: Q) v v' (S ++ w :: l) (HPQ u Hu) Hv') as E.
    rewrite <-!app_assoc in E. exact E. }
  assert (∀ u v w l w', length u = es → length v = es → length w' = length w →
    write_bytes w' k (arr (P ++ u :: Q ++ v :: S ++ w :: l)) = arr (P ++ u :: Q ++ v :: S ++ w' :: l)) as Wk.
  { intros u v w l w' Hu Hv Hw'. rewrite (Hk u v).
    pose proof (arr_store (P ++ u :: Q ++ v :: S) w w' l (HPQS u v Hu Hv) Hw') as E.
    rewrite <-!app_assoc in E. cbn in E. rewrite <-!app_assoc in E. exact E. }
  assert (bytes_at (arr (P ++ x :: Q ++ y :: S ++ z :: R)) j y) as By.
  { pose proof (arr_elem (P ++ x :: Q) y (S ++ z :: R) (HPQ x Hx)) as E.
    rewrite <-app_assoc in E. exact E. }
  assert (bytes_at (arr (P ++ x :: Q ++ y :: S ++ z :: R)) k z) as Bz.
  { pose proof (arr_elem (P ++ x :: Q ++ y :: S) z R (HPQS x y Hx Hy)) as E.
    rewrite <-app_assoc in E. cbn in E. rewrite <-app_assoc in E. exact E. }
  assert (i + Z.of_nat es ≤ j) by (unfold j; rewrite addr_app; cbn [length]; lia).
  assert (j + Z.of_nat es ≤ k).
  { unfold j, k. rewrite !addr_app. cbn [length]. rewrite length_app. cbn [length]. lia. }
  unfold qstexc. rewrite u32_id, Nat2Z.id by lia. split.
  - rewrite <-Hx at 1. rewrite (qstexc_loop_apart x y z);
      try (done || congruence || (by apply arr_elem) || (unfold apart; rewrite Hx; lia)).
    rewrite (arr_store P x z), Wk, Wj by (done || congruence). done.
  - rewrite <-Hz at 1. rewrite (qstexc_loop_apart z y x);
      try (done || congruence || (by apply arr_elem) || (unfold apart; rewrite Hz; lia)).
    rewrite Wk, (arr_store P x y), Wj by (done || congruence). done.
Qed.

(** Two addresses the same. *)
Lemma qstexc_arr_same P x Q y R :
  elems (P ++ x :: Q ++ y :: R) → Z.of_nat es < 2 ^ 32 →
  let i := addr P in let j := addr (P ++ x :: Q) in
  qstexc (Z.of_nat es) i j j (arr (P ++ x :: Q ++ y :: R)) = Some (arr (P ++ y :: Q ++ x :: R)) ∧
  qstexc (Z.of_nat es) j i i (arr (P ++ x :: Q ++ y :: R)) = Some (arr (P ++ y :: Q ++ x :: R)).
Proof.
  intros H Hw i j. assert (i < j) by (unfold j; rewrite addr_app; cbn [length]; lia).
  unfold qstexc. rewrite !qstexc_loop_same by lia.
  pose proof (qsexc_arr P x Q y R H Hw) as E. split; [exact E|].
  rewrite <-E. unfold qsexc. apply qsexc_loop_sym. subst i j. lia.
Qed.

(** The same for arrays given up to reassociation. *)
Lemma arr_at P x R l q : l = P ++ x :: R → q = addr P → elems l → bytes_at (arr l) q x.
Proof. intros -> -> [HP _]%Forall_app. by apply arr_elem. Qed.

Lemma qsexc_at P x Q y R l l' i j :
  l = P ++ x :: Q ++ y :: R → l' = P ++ y :: Q ++ x :: R → i = addr P → j = addr (P ++ x :: Q) →
  elems l → Z.of_nat es < 2 ^ 32 → qsexc (Z.of_nat es) i j (arr l) = Some (arr l').
Proof. intros -> -> -> ->. apply qsexc_arr. Qed.

Lemma qsexc_at_self P x R l i j :
  l = P ++ x :: R → i = addr P → j = addr P →
  elems l → Z.of_nat es < 2 ^ 32 → qsexc (Z.of_nat es) i j (arr l) = Some (arr l).
Proof. intros -> -> ->. apply qsexc_arr_self. Qed.

Lemma qstexc_at_up P x Q y S z R l l' i j k :
  l = P ++ x :: Q ++ y :: S ++ z :: R → l' = P ++ z :: Q ++ x :: S ++ y :: R →
  i = addr P → j = addr (P ++ x :: Q) → k = addr (P ++ x :: Q ++ y :: S) →
  elems l → Z.of_nat es < 2 ^ 32 → qstexc (Z.of_nat es) i j k (arr l) = Some (arr l').
Proof. intros -> -> -> -> -> He Hw. by apply qstexc_arr. Qed.

Lemma qstexc_at_down P x Q y S z R l l' i j k :
  l = P ++ x :: Q ++ y :: S ++ z :: R → l' = P ++ y :: Q ++ z :: S ++ x :: R →
  i = addr P → j = addr (P ++ x :: Q) → k = addr (P ++ x :: Q ++ y :: S) →
  elems l → Z.of_nat es < 2 ^ 32 → qstexc (Z.of_nat es) k j i (arr l) = Some (arr l').
Proof. intros -> -> -> -> -> He Hw. by apply qstexc_arr. Qed.

Lemma qstexc_at_same P x Q y R l l' i j :
  l = P ++ x :: Q ++ y :: R → l' = P ++ y :: Q ++ x :: R → i = addr P → j = addr (P ++ x :: Q) →
  elems l → Z.of_nat es < 2 ^ 32 →
  qstexc (Z.of_nat es) i j j (arr l) = Some (arr l') ∧ qstexc (Z.of_nat es) j i i (arr l) = Some (arr l').
Proof. intros -> -> -> ->. apply qstexc_arr_same. Qed.
End arr.

(** Reassociating lists, and comparing addresses. *)
Ltac list_eq := repeat (rewrite <-app_assoc || cbn [app]); reflexivity.
Ltac addr_eq := subst; unfold addr; repeat (rewrite length_app || cbn [length]); nia.

(** * The partition *)

(** What the caller's comparison function is for: it compares the elements at two
    addresses, by a preorder. *)
Class Comparison (es : nat) (fc : bmem → Z → Z → option Z) (c : list Z → list Z → Z) := {
  cmp_run m i j x y :
    bytes_at m i x → bytes_at m j y → length x = es → length y = es → fc m i j = Some (c x y);
  cmp_opp x y : length x = es → length y = es → c x y < 0 ↔ 0 < c y x;
  cmp_trans x y z : length x = es → length y = es → length z = es →
    c x y ≤ 0 → c y z ≤ 0 → c x z ≤ 0 }.

Section part.
Context (es : nat) (a : Z) (m0 : bmem) (fc : bmem → Z → Z → option Z) (c : list Z → list Z → Z).
Context `{!Comparison es fc c}.
Hypothesis Hes : (0 < es)%nat.
Hypothesis Hw : Z.of_nat es < 2 ^ 32.

Abbreviation elems := (elems es).
Abbreviation addr := (addr es a).
Abbreviation arr := (arr a m0).
Abbreviation w := (Z.of_nat es).

Lemma cmp_zero x y : length x = es → length y = es → c x y = 0 → c y x = 0.
Proof. intros Hx Hy H. pose proof (cmp_opp x y Hx Hy). pose proof (cmp_opp y x Hy Hx). lia. Qed.

(** Comparing with an element equivalent to the pivot. *)
Lemma cmp_pivot x e p :
  length x = es → length e = es → length p = es → c e p = 0 → Z.sgn (c x e) = Z.sgn (c x p).
Proof.
  intros Hx He Hp Hep. pose proof (cmp_zero e p He Hp Hep) as Hpe.
  pose proof (cmp_trans x e p Hx He Hp). pose proof (cmp_trans x p e Hx Hp He).
  pose proof (cmp_trans e p x He Hp Hx). pose proof (cmp_trans p e x Hp He Hx).
  pose proof (cmp_opp x e Hx He). pose proof (cmp_opp e x He Hx).
  pose proof (cmp_opp x p Hx Hp). pose proof (cmp_opp p x Hp Hx).
  destruct (Z.sgn_spec (c x e)) as [[? ->]|[[? ->]|[? ->]]],
    (Z.sgn_spec (c x p)) as [[? ->]|[[? ->]|[? ->]]]; lia.
Qed.

Lemma cmp_pivot_l x e p :
  length x = es → length e = es → length p = es → c e p = 0 → Z.sgn (c e x) = - Z.sgn (c x p).
Proof.
  intros Hx He Hp Hep. rewrite <-(cmp_pivot x e p) by done.
  pose proof (cmp_opp x e Hx He). pose proof (cmp_opp e x He Hx).
  destruct (Z.sgn_spec (c x e)) as [[? ->]|[[? ->]|[? ->]]],
    (Z.sgn_spec (c e x)) as [[? ->]|[[? ->]|[? ->]]]; lia.
Qed.

Definition below (p : list Z) (xs : list (list Z)) : Prop := Forall (λ x, c x p < 0) xs.
Definition same (p : list Z) (xs : list (list Z)) : Prop := Forall (λ x, c x p = 0) xs.
Definition above (p : list Z) (xs : list (list Z)) : Prop := Forall (λ x, 0 < c x p) xs.

(** The array [A ++ U ++ E ++ V ++ B] while it is partitioned: [A] is below the pivot,
    [E] the same, [B] above it; [U] and [V] have not been looked at, but for the
    first element of [U] at the label [loop]. *)
Definition part_pre (p : list Z) (at_ : qs_label) A U E V B : Prop :=
  elems (A ++ U ++ E ++ V ++ B) ∧ below p A ∧ same p E ∧ above p B ∧ E ≠ [] ∧
  (at_ = qs_loop → ∀ u U', U = u :: U' → 0 < c u p).

Definition part_post (p : list Z) xs (r : option (Z * Z * bmem)) : Prop :=
  ∃ A E B, r = Some (addr A, addr (A ++ E) - w, arr (A ++ E ++ B)) ∧
    E ≠ [] ∧ below p A ∧ same p E ∧ above p B ∧ A ++ E ++ B ≡ₚ xs.

Definition part_ok (p : list Z) (fuel : nat) (at_ : qs_label) : Prop :=
  ∀ A U E V B l i j lp hp xs,
    part_pre p at_ A U E V B → (length U + length V < fuel)%nat → l = A ++ U ++ E ++ V ++ B →
    i = addr A → j = addr (A ++ U ++ E ++ V) - w →
    lp = addr (A ++ U) → hp = addr (A ++ U ++ E) - w → xs ≡ₚ l →
    part_post p xs (qs_part fc w fuel at_ i j lp hp (arr l)).

#[export] Instance below_perm p : Proper ((≡ₚ) ==> iff) (below p).
Proof. intros xs ys H. unfold below. by rewrite H. Qed.
#[export] Instance above_perm p : Proper ((≡ₚ) ==> iff) (above p).
Proof. intros xs ys H. unfold above. by rewrite H. Qed.

Lemma part_for fuel i j lp hp m :
  qs_part fc w (S fuel) qs_for i j lp hp m =
  if bool_decide (i < lp) then
    c ← fc m i lp;
    if bool_decide (c = 0) then
      m ← qsexc w i (lp - w) m; qs_part fc w fuel qs_for i j (lp - w) hp m
    else if bool_decide (c < 0) then qs_part fc w fuel qs_for (i + w) j lp hp m
    else qs_part fc w (S fuel) qs_loop i j lp hp m
  else qs_part fc w (S fuel) qs_loop i j lp hp m.
Proof. reflexivity. Qed.

(** The comparison of the elements that two segments start with. *)
Lemma part_cmp P x R P' y R' l q q' :
  elems l → l = P ++ x :: R → l = P' ++ y :: R' → q = addr P → q' = addr P' →
  fc (arr l) q q' = Some (c x y) ∧ length x = es ∧ length y = es.
Proof.
  intros He E1 E2 Hq Hq'.
  assert (length x = es) by (rewrite E1 in He; by apply Forall_app in He as [_ [? _]%Forall_cons]).
  assert (length y = es) by (rewrite E2 in He; by apply Forall_app in He as [_ [? _]%Forall_cons]).
  split; [|done]. apply cmp_run; [by eapply (arr_at es a m0 Hes P)|by eapply (arr_at es a m0 Hes P')|done..].
Qed.

(** Permutations of segments and elements. *)
Ltac perm_eq :=
  repeat (rewrite <-app_assoc || cbn [app]);
  repeat match goal with
  | |- ?P ++ ?l ≡ₚ ?P ++ ?l' => apply Permutation_app_head
  end; solve_Permutation.

Ltac len_tac := repeat progress (rewrite ?length_app in *; cbn [length] in *); lia.

(** Segments of element lists have elements. *)
Ltac elems_tac :=
  unfold part_pre, elems, below, same, above in *;
  repeat progress (rewrite ?Forall_app, ?Forall_cons, ?Forall_nil in *);
  destruct_and?; split_and?; try (done || lia).

(** At [for]: the first element of [U] is compared with the first of [E]. *)
Lemma part_for_step p fuel :
  length p = es → part_ok p fuel qs_for → part_ok p (S fuel) qs_loop → part_ok p (S fuel) qs_for.
Proof.
  intros Hp IHf IHl A U E V B l i j lp hp xs Hpre Hf Hl Hi Hj Hlp Hhp Hxs.
  pose proof Hpre as (He & HA & HE & HB & HE0 & _).
  rewrite part_for. destruct U as [|u U].
  { rewrite bool_decide_eq_false_2 by addr_eq. eapply (IHl A [] E V B); try done. }
  destruct E as [|e E]; [done|]. rewrite bool_decide_eq_true_2 by addr_eq.
  destruct (part_cmp A u (U ++ (e :: E) ++ V ++ B) (A ++ u :: U) e (E ++ V ++ B)
    l i lp) as (-> & Hu & Hel); [by subst|subst; list_eq|subst; list_eq|done|done|].
  apply Forall_cons in HE as [Hep HE]. pose proof (cmp_pivot u e p Hu Hel Hp Hep) as Hsg.
  cbn [mbind option_bind].
  destruct (Z.sgn_spec (c u e)) as [[Hs Hs']|[[Hs Hs']|[Hs Hs']]]; rewrite Hs' in Hsg.
  - rewrite bool_decide_eq_false_2 by lia. rewrite bool_decide_eq_false_2 by lia.
    eapply (IHl A (u :: U) (e :: E) V B); try done. split_and!; try done; [by constructor|].
    intros _ ? ? [= <- <-]. lia.
  - rewrite bool_decide_eq_true_2 by lia.
    destruct U as [|u' U _] using rev_ind.
    + rewrite (qsexc_at_self es a m0 Hes A u (e :: E ++ V ++ B) l i (lp - w));
        [cbn [mbind option_bind]|by subst|done|addr_eq|by subst|done].
      eapply (IHf A [] (u :: e :: E) V B); try (done || addr_eq || (subst; list_eq)); [|cbn in *; lia].
      elems_tac.
    + rewrite (qsexc_at es a m0 Hes A u U u' (e :: E ++ V ++ B) l (A ++ u' :: U ++ u :: e :: E ++ V ++ B));
        [cbn [mbind option_bind]|subst; list_eq|done|done|addr_eq|by subst|done].
      eapply (IHf A (u' :: U) (u :: e :: E) V B); try (done || addr_eq || (subst; list_eq)).
      * elems_tac.
      * len_tac.
      * rewrite Hxs, Hl. perm_eq.
  - rewrite bool_decide_eq_false_2, bool_decide_eq_true_2 by lia.
    eapply (IHf (A ++ [u]) U (e :: E) V B); try (done || addr_eq || (subst; list_eq)); [|cbn in *; lia].
    elems_tac.
Qed.

Lemma part_loop fuel i j lp hp m :
  qs_part fc w (S fuel) qs_loop i j lp hp m =
  if bool_decide (hp < j) then
    c ← fc m hp j;
    if bool_decide (c = 0) then
      m ← qsexc w (hp + w) j m; qs_part fc w fuel qs_loop i j lp (hp + w) m
    else if bool_decide (0 < c) then
      if bool_decide (i = lp) then
        m ← qstexc w i (hp + w) j m; qs_part fc w fuel qs_loop (lp + w) j (lp + w) (hp + w) m
      else m ← qsexc w i j m; qs_part fc w fuel qs_for (i + w) (j - w) lp hp m
    else qs_part fc w fuel qs_loop i (j - w) lp hp m
  else if bool_decide (i = lp) then Some (lp, hp, m)
  else m ← qstexc w j (lp - w) i m; qs_part fc w fuel qs_for i (hp - w) (lp - w) (hp - w) m.
Proof. reflexivity. Qed.

(** At [loop], with nothing left behind the middle part: the partition ends, or
    an element above the pivot goes there. *)
Lemma part_loop_end p fuel A U E B l i j lp hp xs :
  length p = es → part_ok p fuel qs_for →
  part_pre p qs_loop A U E [] B → (length U < S fuel)%nat → l = A ++ U ++ E ++ B →
  i = addr A → j = addr (A ++ U ++ E) - w → lp = addr (A ++ U) → hp = addr (A ++ U ++ E) - w →
  xs ≡ₚ l → part_post p xs (qs_part fc w (S fuel) qs_loop i j lp hp (arr l)).
Proof.
  intros Hp IHf Hpre Hf Hl Hi Hj Hlp Hhp Hxs. rewrite part_loop.
  rewrite bool_decide_eq_false_2 by lia. pose proof Hpre as (He & HA & HE & HB & HE0 & HU).
  assert (elems l) as Hel by (subst; exact He).
  destruct U as [|u U].
  { rewrite bool_decide_eq_true_2 by addr_eq. exists A, E, B. subst. rewrite app_nil_r.
    split_and!; (done || by symmetry). }
  specialize (HU eq_refl u U eq_refl). rewrite bool_decide_eq_false_2 by addr_eq.
  destruct E as [|e E _] using rev_ind; [done|]. destruct U as [|u' U _] using rev_ind.
  - assert (lp - w = i) as -> by addr_eq.
    destruct (qstexc_at_same es a m0 Hes A u E e B l (A ++ e :: E ++ u :: B) i j) as [_ ->];
      [subst; list_eq|done|done|addr_eq|done|done|].
    cbn [mbind option_bind].
    eapply (IHf A [] (e :: E) [] (u :: B)); try (done || addr_eq || (subst; list_eq)).
    + elems_tac.
    + len_tac.
    + rewrite Hxs, Hl. perm_eq.
  - rewrite (qstexc_at_down es a m0 Hes A u U u' E e B l (A ++ u' :: U ++ e :: E ++ u :: B));
      [cbn [mbind option_bind]|subst; list_eq|done|done|addr_eq|addr_eq|done|done].
    eapply (IHf A (u' :: U) (e :: E) [] (u :: B)); try (done || addr_eq || (subst; list_eq)).
    + elems_tac.
    + len_tac.
    + rewrite Hxs, Hl. perm_eq.
Qed.

(** At [loop]: the last element of [E] against the last one of [V], which is the
    same as the pivot. *)
Lemma part_loop_same p fuel A U E e V v B l i j lp hp xs :
  part_ok p fuel qs_loop →
  part_pre p qs_loop A U (E ++ [e]) (V ++ [v]) B → (length U + length (V ++ [v]) < S fuel)%nat →
  l = A ++ U ++ (E ++ [e]) ++ (V ++ [v]) ++ B → c v p = 0 →
  i = addr A → j = addr (A ++ U ++ (E ++ [e]) ++ V) → lp = addr (A ++ U) →
  hp = addr (A ++ U ++ E ++ [e]) - w → xs ≡ₚ l →
  part_post p xs (m ← qsexc w (hp + w) j (arr l); qs_part fc w fuel qs_loop i j lp (hp + w) m).
Proof.
  intros IHl Hpre Hf Hl Hv Hi Hj Hlp Hhp Hxs.
  assert (elems l) as Hel by (subst; apply Hpre).
  destruct V as [|y V].
  - rewrite (qsexc_at_self es a m0 Hes (A ++ U ++ E ++ [e]) v B l (hp + w) j);
      [cbn [mbind option_bind]|subst; list_eq|addr_eq|addr_eq|done|done].
    eapply (IHl A U (E ++ [e; v]) [] B); try (done || addr_eq || (subst; list_eq)); [|len_tac].
    destruct Hpre as (? & ? & ? & ? & _ & HU). split_and!; try done; try elems_tac.
    by destruct E.
  - rewrite (qsexc_at es a m0 Hes (A ++ U ++ E ++ [e]) y V v B l
      (A ++ U ++ E ++ e :: v :: V ++ y :: B));
      [cbn [mbind option_bind]|subst; list_eq|list_eq|addr_eq|addr_eq|done|done].
    eapply (IHl A U (E ++ [e; v]) (V ++ [y]) B); try (done || addr_eq || (subst; list_eq)).
    + destruct Hpre as (? & ? & ? & ? & _ & HU). split_and!; try done; try elems_tac. by destruct E.
    + len_tac.
    + rewrite Hxs, Hl. perm_eq.
Qed.

(** ... and is below it. *)
Lemma part_loop_below p fuel A U E e V v B l i j lp hp xs :
  (∀ at_, part_ok p fuel at_) →
  part_pre p qs_loop A U (E ++ [e]) (V ++ [v]) B → (length U + length (V ++ [v]) < S fuel)%nat →
  l = A ++ U ++ (E ++ [e]) ++ (V ++ [v]) ++ B → c v p < 0 →
  i = addr A → j = addr (A ++ U ++ (E ++ [e]) ++ V) → lp = addr (A ++ U) →
  hp = addr (A ++ U ++ E ++ [e]) - w → xs ≡ₚ l →
  part_post p xs
    (if bool_decide (i = lp) then
       m ← qstexc w i (hp + w) j (arr l); qs_part fc w fuel qs_loop (lp + w) j (lp + w) (hp + w) m
     else m ← qsexc w i j (arr l); qs_part fc w fuel qs_for (i + w) (j - w) lp hp m).
Proof.
  intros IH Hpre Hf Hl Hv Hi Hj Hlp Hhp Hxs.
  assert (elems l) as Hel by (subst; apply Hpre).
  pose proof Hpre as (_ & _ & _ & _ & _ & HU). destruct U as [|u U].
  - rewrite bool_decide_eq_true_2 by addr_eq.
    assert (∃ x Q, E ++ [e] = x :: Q) as (x & Q & EQ) by (destruct E; by eexists _, _).
    rewrite EQ in *. destruct V as [|y V].
    + assert (hp + w = j) as -> by addr_eq.
      destruct (qstexc_at_same es a m0 Hes A x Q v B l (A ++ v :: Q ++ x :: B) i j) as [-> _];
        [subst; list_eq|done|done|addr_eq|done|done|]. cbn [mbind option_bind].
      eapply (IH qs_loop (A ++ [v]) [] (Q ++ [x]) [] B); try (done || addr_eq || (subst; list_eq)).
      * split_and!; try done; try elems_tac. by destruct Q.
      * len_tac.
      * rewrite Hxs, Hl. perm_eq.
    + rewrite (qstexc_at_up es a m0 Hes A x Q y V v B l (A ++ v :: Q ++ x :: V ++ y :: B));
        [cbn [mbind option_bind]|subst; list_eq|done|done|addr_eq|addr_eq|done|done].
      eapply (IH qs_loop (A ++ [v]) [] (Q ++ [x]) (V ++ [y]) B); try (done || addr_eq || (subst; list_eq)).
      * split_and!; try done; try elems_tac. by destruct Q.
      * len_tac.
      * rewrite Hxs, Hl. perm_eq.
  - specialize (HU eq_refl u U eq_refl). rewrite bool_decide_eq_false_2 by addr_eq.
    rewrite (qsexc_at es a m0 Hes A u (U ++ (E ++ [e]) ++ V) v B l
      (A ++ v :: (U ++ (E ++ [e]) ++ V) ++ u :: B));
      [cbn [mbind option_bind]|subst; list_eq|done|done|addr_eq|done|done].
    eapply (IH qs_for (A ++ [v]) U (E ++ [e]) V (u :: B)); try (done || addr_eq || (subst; list_eq)).
    + split_and!; try done; elems_tac.
    + len_tac.
    + rewrite Hxs, Hl. perm_eq.
Qed.

Lemma part_loop_step p fuel :
  length p = es → (∀ at_, part_ok p fuel at_) → part_ok p (S fuel) qs_loop.
Proof.
  intros Hp IH A U E V B l i j lp hp xs Hpre Hf Hl Hi Hj Hlp Hhp Hxs.
  destruct V as [|v V _] using rev_ind.
  { eapply (part_loop_end p fuel A U E B); try (done || len_tac); subst; by rewrite ?app_nil_r. }
  pose proof Hpre as (He & HA & HE & HB & HE0 & HU).
  destruct E as [|e E _] using rev_ind; [done|].
  rewrite part_loop. rewrite bool_decide_eq_true_2 by addr_eq.
  destruct (part_cmp (A ++ U ++ E) e ((V ++ [v]) ++ B) (A ++ U ++ (E ++ [e]) ++ V) v B l hp j)
    as (-> & Hel & Hvl); [by subst|subst; list_eq|subst; list_eq|addr_eq|addr_eq|].
  assert (c e p = 0) as Hep by elems_tac.
  pose proof (cmp_pivot_l v e p Hvl Hel Hp Hep) as Hsg. cbn [mbind option_bind].
  destruct (Z.sgn_spec (c e v)) as [[Hs Hs']|[[Hs Hs']|[Hs Hs']]]; rewrite Hs' in Hsg.
  - rewrite bool_decide_eq_false_2, bool_decide_eq_true_2 by lia.
    eapply (part_loop_below p fuel A U E e V v B); (done || addr_eq || lia).
  - rewrite bool_decide_eq_true_2 by lia.
    eapply (part_loop_same p fuel A U E e V v B); (done || addr_eq || lia).
  - rewrite bool_decide_eq_false_2, bool_decide_eq_false_2 by lia.
    eapply (IH qs_loop A U (E ++ [e]) V (v :: B)); try (done || addr_eq || (subst; list_eq)).
    + split_and!; try done; elems_tac.
    + len_tac.
Qed.

(** The partition comes to an end, and does what it is for. *)
Lemma qs_part_ok p fuel at_ : length p = es → part_ok p fuel at_.
Proof.
  intros Hp. revert at_. induction fuel as [|fuel IH]; intros at_.
  { intros ? ? ? ? ? ? ? ? ? ? ? ? ?. lia. }
  assert (part_ok p (S fuel) qs_loop) as Hl by (by apply part_loop_step).
  destruct at_; [by apply part_for_step|done].
Qed.
End part.

(** * Sorting *)

Lemma addr_len es a xs : addr es a xs = a + Z.of_nat es * Z.of_nat (length xs).
Proof. reflexivity. Qed.

#[export] Instance addr_perm es a : Proper ((≡ₚ) ==> eq) (addr es a).
Proof. intros xs ys H. by rewrite !addr_len, H. Qed.

Section sort.
Context (es : nat) (fc : bmem → Z → Z → option Z) (c : list Z → list Z → Z).
Context `{!Comparison es fc c}.
Hypothesis Hes : (0 < es)%nat.
Hypothesis Hw : Z.of_nat es < 2 ^ 31.

Abbreviation elems := (elems es).
Abbreviation addr := (addr es).
Abbreviation w := (Z.of_nat es).

Definition in_order : list (list Z) → Prop := StronglySorted (λ x y, c x y ≤ 0).

(** The elements fit in the 31-bit range of a difference of two pointers. *)
Definition fits (xs : list (list Z)) : Prop := w * Z.of_nat (length xs) < 2 ^ 31.

(** [f] sorts the elements [xs], wherever they are in memory; it sorts the arrays
    of fewer than [K] elements. *)
Definition sorts_list (f : Z → Z → bmem → option bmem) (xs : list (list Z)) : Prop :=
  ∀ a m, ∃ ys, f a (addr a xs) (arr a m xs) = Some (arr a m ys) ∧ ys ≡ₚ xs ∧ in_order ys.
Definition sorts (f : Z → Z → bmem → option bmem) (K : nat) : Prop :=
  ∀ xs, elems xs → fits xs → (length xs < K)%nat → sorts_list f xs.

(** An array as an array in front of, and behind, the rest of memory. *)
Lemma arr_tail a m A B : elems A → arr a m (A ++ B) = arr (addr a A) (arr a m A) B.
Proof.
  intros HA. unfold arr. rewrite concat_app, write_bytes_app. f_equal.
  symmetry. by apply (addr_concat es a).
Qed.

Lemma arr_head a m A B : elems A → arr a m (A ++ B) = arr a (arr (addr a A) m B) A.
Proof.
  intros HA. rewrite arr_tail by done. unfold arr. apply write_bytes_comm.
  unfold apart. rewrite (addr_concat es a Hes A HA). lia.
Qed.

Lemma addr_from a A B : addr (addr a A) B = addr a (A ++ B).
Proof. rewrite ?addr_len. rewrite length_app. lia. Qed.

Lemma qs_split_small a m xs :
  elems xs → fits xs → (length xs ≤ 1)%nat →
  qs_split fc w a (addr a xs) (arr a m xs) = Some (None, arr a m xs).
Proof.
  intros He Hf Hl. unfold fits in Hf. unfold qs_split.
  rewrite bool_decide_eq_true_2; [done|]. rewrite ?addr_len.
  destruct xs as [|x [|? ?]]; cbn [length] in *; try lia; rewrite !u32_id by lia; lia.
Qed.

Lemma qs_split_ok a m xs :
  elems xs → fits xs → (2 ≤ length xs)%nat →
  ∃ p A E B, qs_split fc w a (addr a xs) (arr a m xs) =
      Some (Some (addr a A, addr a (A ++ E) - w), arr a m (A ++ E ++ B)) ∧
    length p = es ∧ E ≠ [] ∧ below c p A ∧ same c p E ∧ above c p B ∧ A ++ E ++ B ≡ₚ xs.
Proof.
  intros He Hf Hl. unfold fits in Hf.
  destruct (lookup_lt_is_Some_2 xs (length xs / 2)) as [p Hp].
  { apply Nat.div_lt; lia. }
  pose proof (take_drop_middle _ _ _ Hp) as Hxs.
  set (U := take (length xs / 2) xs) in *. set (V := drop (S (length xs / 2)) xs) in *.
  assert (length U = length xs / 2)%nat as HU.
  { unfold U. rewrite length_take. pose proof (Nat.div_lt (length xs) 2). lia. }
  assert (length p = es) as Hpe by (by eapply Forall_lookup_1 in He).
  exists p. unfold qs_split.
  assert (addr a xs - a = w * Z.of_nat (length xs)) as -> by (rewrite ?addr_len; lia).
  assert (2 * w ≤ w * Z.of_nat (length xs)) by nia.
  rewrite !(u32_id (w * _)), (u32_id w), (u32_id (2 * w)) by lia.
  rewrite bool_decide_eq_false_2 by nia.
  rewrite (Z.mul_comm 2 w), Z.div_mul_cancel_l by lia.
  pose proof (Nat2Z.inj_div (length xs) 2) as Hdiv. change (Z.of_nat 2) with 2 in Hdiv.
  rewrite <-Hdiv, <-HU.
  assert (length U < length xs)%nat by (rewrite HU; apply Nat.div_lt; lia).
  rewrite u32_id by nia.
  destruct (qs_part_ok es a m fc c Hes ltac:(lia) p (S (Z.to_nat (w * Z.of_nat (length xs)))) qs_for Hpe
    [] U [p] V [] xs a (addr a xs - w) (a + w * Z.of_nat (length U)) (a + w * Z.of_nat (length U)) xs)
    as (A & E & B & -> & HE & HA & HEp & HB & HP).
  - split_and!; try done; [| |constructor; [|done]|].
    + cbn [app]. by rewrite app_nil_r, Hxs.
    + by constructor.
    + pose proof (cmp_opp p p Hpe Hpe). lia.
    + by constructor.
  - rewrite Nat2Z.inj_lt, Nat2Z.inj_succ, Z2Nat.id, Nat2Z.inj_add by lia.
    assert (length xs = length U + S (length V))%nat by (rewrite <-Hxs, length_app; done). nia.
  - cbn [app]. by rewrite app_nil_r, Hxs.
  - by rewrite addr_len, Z.mul_0_r, Z.add_0_r.
  - cbn [app]. by rewrite Hxs.
  - done.
  - cbn [app]. rewrite addr_len, length_app. cbn [length]. lia.
  - done.
  - exists A, E, B. by split_and!.
Qed.

(** The two outer parts sorted, the whole is. *)
Lemma in_order_parts p A E B A' B' :
  length p = es → elems (A ++ E ++ B) → below c p A → same c p E → above c p B →
  A' ≡ₚ A → B' ≡ₚ B → in_order A' → in_order B' → in_order (A' ++ E ++ B').
Proof.
  intros Hp (HeA & [HeE HeB]%Forall_app)%Forall_app HA HE HB HPA HPB SA SB.
  rewrite <-HPA in HA, HeA. rewrite <-HPB in HB, HeB.
  unfold Qsort.elems, below, same, above in *. rewrite Forall_forall in HA, HE, HB, HeA, HeE, HeB.
  assert (∀ x y, length x = es → length y = es → c x p ≤ 0 → 0 ≤ c y p → c x y ≤ 0) as Hxy.
  { intros x y Hx Hy Hxp Hyp. apply (cmp_trans x p y Hx Hp Hy Hxp).
    pose proof (cmp_opp p y Hp Hy). pose proof (cmp_opp y p Hy Hp). lia. }
  apply StronglySorted_app. split_and!; [|done|apply StronglySorted_app; split_and!; [| |done]].
  - intros x y Hx Hy. apply Hxy; [by apply HeA| |by specialize (HA x Hx); lia|].
    + apply elem_of_app in Hy as [Hy|Hy]; [by apply HeE|by apply HeB].
    + apply elem_of_app in Hy as [Hy|Hy]; [by rewrite HE|by specialize (HB y Hy); lia].
  - intros x y Hx Hy. apply Hxy; [by apply HeE|by apply HeB|by rewrite HE|by specialize (HB y Hy); lia].
  - clear HPA HPB SA SB. induction E as [|x E IH]; [constructor|].
    constructor.
    + apply IH; intros; [apply HeE|apply HE]; by constructor.
    + apply Forall_forall. intros y Hy. apply Hxy; try apply HeE; try (by constructor).
      * rewrite HE; [done|by constructor].
      * rewrite HE; [done|by constructor].
Qed.

(** Sorting the part in front of, or behind, the rest. *)
Lemma sorts_head f a m A R :
  sorts_list f A → elems A →
  ∃ A', f a (addr a A) (arr a m (A ++ R)) = Some (arr a m (A' ++ R)) ∧ A' ≡ₚ A ∧ in_order A'.
Proof.
  intros Hf HA. destruct (Hf a (arr (addr a A) m R)) as (A' & E & HP & HS).
  exists A'. split; [|done]. rewrite arr_head by done. rewrite E. f_equal.
  rewrite arr_head by (by rewrite HP). by rewrite (addr_perm _ _ _ _ HP).
Qed.

Lemma sorts_tail f a m A B :
  sorts_list f B → elems A →
  ∃ B', f (addr a A) (addr a (A ++ B)) (arr a m (A ++ B)) = Some (arr a m (A ++ B')) ∧
    B' ≡ₚ B ∧ in_order B'.
Proof.
  intros Hf HA. destruct (Hf (addr a A) (arr a m A)) as (B' & E & HP & HS).
  exists B'. split; [|done]. rewrite arr_tail, <-addr_from by done. rewrite E. by rewrite arr_tail.
Qed.

Lemma fits_le xs ys : (length xs ≤ length ys)%nat → fits ys → fits xs.
Proof. unfold fits. nia. Qed.

(** The loop over [start], when the recursive call sorts arrays of half the size. *)
Lemma qs_start_ok rec K :
  ((1 < K)%nat → sorts rec K) →
  ∀ fuel xs, elems xs → fits xs → (length xs < 2 * K)%nat → (length xs < fuel)%nat →
  sorts_list (qs_start fc w rec fuel) xs.
Proof.
  intros Hrec fuel. induction fuel as [|fuel IH]; intros xs He Hf HK Hfu a m; [lia|].
  cbn [qs_start]. destruct (decide (length xs ≤ 1)%nat) as [Hl|Hl].
  { rewrite qs_split_small by done. exists xs. split_and!; [done..|].
    destruct xs as [|x [|? ?]]; [constructor|repeat constructor|cbn in Hl; lia]. }
  destruct (qs_split_ok a m xs He Hf ltac:(lia)) as (p & A & E & B & -> & Hp & HE0 & HA & HE & HB & HP).
  cbn [mbind option_bind]. specialize (Hrec ltac:(lia)).
  rewrite <-HP in He. pose proof He as (HeA & [HeE HeB]%Forall_app)%Forall_app.
  pose proof (Permutation_length HP) as Hlen. rewrite !length_app in Hlen.
  assert (0 < length E)%nat by (destruct E; [done|cbn; lia]).
  assert (addr a xs = addr a ((A ++ E) ++ B)) as Hend.
  { rewrite !addr_len, !length_app. f_equal. f_equal. lia. }
  assert (elems (A ++ E)) as HeAE by (by apply Forall_app).
  rewrite Z.sub_add. rewrite Hend, app_assoc.
  case_bool_decide as Hle; rewrite !addr_len, !length_app in Hle.
  - destruct (sorts_tail rec a m (A ++ E) B) as (B' & -> & HPB & HSB); try done.
    { apply Hrec; [done| |nia]. by eapply (fits_le _ xs); [lia|]. }
    cbn [mbind option_bind]. rewrite <-app_assoc.
    destruct (sorts_head (qs_start fc w rec fuel) a m A (E ++ B')) as (A' & -> & HPA & HSA); try done.
    { apply IH; [done| |lia..]. by eapply (fits_le _ xs); [lia|]. }
    exists (A' ++ E ++ B'). split_and!; [done|by rewrite HPA, HPB, HP|by eapply in_order_parts].
  - rewrite <-app_assoc.
    destruct (sorts_head rec a m A (E ++ B)) as (A' & -> & HPA & HSA); try done.
    { apply Hrec; [done| |nia]. by eapply (fits_le _ xs); [lia|]. }
    cbn [mbind option_bind]. rewrite (app_assoc A' E B).
    assert (addr a (A ++ E) = addr a (A' ++ E)) as -> by (by rewrite HPA).
    assert (addr a (A ++ E ++ B) = addr a ((A' ++ E) ++ B)) as -> by (by rewrite HPA, app_assoc).
    destruct (sorts_tail (qs_start fc w rec fuel) a m (A' ++ E) B) as (B' & -> & HPB & HSB).
    { apply IH; [done| |lia..]. by eapply (fits_le _ xs); [lia|]. }
    { apply Forall_app. split; [by rewrite HPA|done]. }
    exists (A' ++ E ++ B'). rewrite <-!app_assoc.
    split_and!; [done|by rewrite HPA, HPB, HP|by eapply in_order_parts].
Qed.

(** Below [depth] active calls, arrays of fewer than [2 ^ depth] elements are
    sorted. *)
Lemma qs1_ok depth : (0 < depth)%nat → sorts (qs1 fc w depth) (2 ^ depth).
Proof.
  induction depth as [|depth IH]; [lia|]. intros _ xs He Hf HK a m. cbn [qs1].
  eapply (qs_start_ok (qs1 fc w depth) (2 ^ depth)); try done.
  - intros H1. apply IH. destruct depth; [cbn in H1; lia|lia].
  - unfold fits in Hf. rewrite addr_len, u32_id by lia. nia.
Qed.

(** Qsort on an array in memory. *)
Lemma qsort_ok depth a n m xs :
  elems xs → n = Z.of_nat (length xs) → bytes_at m a (concat xs) → w * n < 2 ^ 31 →
  (0 < depth)%nat → (length xs < 2 ^ depth)%nat →
  ∃ ys, qsort fc w depth a n m = Some (write_bytes (concat ys) a m) ∧ ys ≡ₚ xs ∧ in_order ys.
Proof.
  intros He -> Hb Hf Hd HK. destruct (qs1_ok depth Hd xs He Hf HK a m) as (ys & E & HP & HS).
  exists ys. split; [|done]. unfold qsort. rewrite u32_id by lia.
  unfold arr in E. rewrite (write_bytes_id (concat xs)), addr_len in E by done.
  by rewrite Z.mul_comm.
Qed.
End sort.
