(* ===== verification/Printf.v ===== *)
(** Formatted output: lib/fdoprnt.c and lib/sprintf.c.

    The function that fdoprnt calls for each character is a parameter, with the
    state it works on; the format and the arguments of %s are read from the memory
    of that state.  The array [string] is a table of the bytes that have been
    written: reading another one (it is not initialised) or writing behind its
    end is a fault.  The arguments are the 32-bit words of the va_list. *)

From S2P Require Import Prelude Types CString.

(** ** The conversions *)

(** [for (i = top; temp[i] == '0'; i--);]; [temp[0]] is not '0'. *)
Fixpoint prt_top (i : nat) (temp : list Z) : nat :=
  match i with
  | O => O
  | S i' => if bool_decide (temp !! i = Some 48) then prt_top i' temp else i
  end.

(** [if (i == 0) i++; while (i >= 0) *str++ = temp[i--];]: the bytes stored. *)
Definition prt_copy (temp : list Z) : list Z :=
  let i := prt_top (length temp - 1) temp in
  let i := if bool_decide (i = O) then 1%nat else i in
  reverse (take (S i) temp).

Fixpoint prtl10_loop (n : nat) (num : Z) : list Z :=
  match n with
  | O => []
  | S n => u8 (Z.rem num 10 + 48) :: prtl10_loop n (Z.quot num 10)
  end.
Definition prtl10 (num : Z) : list Z := prt_copy (0 :: prtl10_loop 10 num).

(** [temp[i] = (num & mask) ...; num = num >> k], with the digits [dig]. *)
Fixpoint prtl_shift (n : nat) (dig : Z → Z) (k num : Z) : list Z :=
  match n with
  | O => []
  | S n => dig num :: prtl_shift n dig k (Z.shiftr num k)
  end.

Definition oct_dig (num : Z) : Z := Z.land num 7 + 48.
Definition hex_dig (up : bool) (num : Z) : Z :=
  let d := Z.land num 15 in
  if bool_decide (d < 10) then d + 48 else d - 10 + (if up then 65 else 97).
Definition bin_dig (num : Z) : Z := if bool_decide (Z.rem num 2 = 0) then 48 else 49.

(** [temp[11] &= '3'] *)
Definition prtl8 (num : Z) : list Z :=
  prt_copy (alter (λ c, Z.land c 51) 11%nat (0 :: prtl_shift 11 oct_dig 3 num)).
Definition prtl16 (num : Z) : list Z := prt_copy (0 :: prtl_shift 8 (hex_dig false) 4 num).
Definition prtX16 (num : Z) : list Z := prt_copy (0 :: prtl_shift 8 (hex_dig true) 4 num).
Definition prtl2 (num : Z) : list Z := prt_copy (0 :: prtl_shift 32 bin_dig 1 num).

(** ** fdoprnt.c *)

Definition MAXSTR : Z := 80.

(** Where [str] points: to [string], to memory, or to the text "(null)". *)
Inductive strref := StrLocal | StrPtr (a : Z) | StrNull.
Definition null_text : list Z := [40; 110; 117; 108; 108; 41; 0].

(** The array [string] of 20 bytes. *)
Abbreviation strbuf := (gmap Z Z).
Fixpoint sb_write (l : list Z) (i : Z) (b : strbuf) : option strbuf :=
  match l with
  | [] => Some b
  | c :: l => if bool_decide (i < 20) then sb_write l (i + 1) (<[i := c]> b) else None
  end.

Section fdoprnt.
Context {St : Type} (mem : St → bmem) (func : Z → St → option St).

Definition str_get (str : strref) (string : strbuf) (i : Z) (s : St) : option Z :=
  match str with
  | StrLocal => string !! i
  | StrPtr a => mem s !! (a + i)
  | StrNull => null_text !! Z.to_nat i
  end.

(** [while ('0' <= *fmt && *fmt <= '9') v = v * 10 + *fmt++ - '0';] *)
Fixpoint fmt_num (fuel : nat) (m : bmem) (fmt v : Z) : option (Z * Z) :=
  match fuel with
  | O => None
  | S fuel =>
    c ← m !! fmt;
    if is_digit c then fmt_num fuel m (fmt + 1) (s32 (s32 (s32 (v * 10) + c) - 48))
    else Some (v, fmt)
  end.

Definition va_arg (ap : list Z) : option (Z * list Z) :=
  match ap with [] => None | x :: ap => Some (x, ap) end.

(** A field width or maximum: an argument, or a number of the format. *)
Definition fmt_field (m : bmem) (fmt : Z) (ap : list Z) : option (Z * Z * list Z) :=
  c ← m !! fmt;
  if bool_decide (c = 42) then '(v, ap) ← va_arg ap; Some (s32 v, fmt + 1, ap)
  else '(v, fmt) ← fmt_num (str_fuel m) m fmt 0; Some (v, fmt, ap).

(** What the characters between the percent sign and the conversion say. *)
Record flags := Flags { leftjust : bool; fill : Z; fmin : Z; fmax : Z }.

Definition fmt_limits (m : bmem) (fmt : Z) (ap : list Z) (lj : bool) (fl : Z)
    : option (flags * Z * list Z) :=
  '(mn, fmt, ap) ← fmt_field m fmt ap;
  c ← m !! fmt;
  if bool_decide (c = 46) then
    '(mx, fmt, ap) ← fmt_field m (fmt + 1) ap;
    Some (Flags lj fl mn mx, fmt, ap)
  else Some (Flags lj fl mn 0, fmt, ap).

Definition fmt_flags (m : bmem) (fmt : Z) (ap : list Z) : option (flags * Z * list Z) :=
  c ← m !! fmt;
  let lj := bool_decide (c = 45) in
  let fmt := if lj then fmt + 1 else fmt in
  c ← m !! fmt;
  let zero := bool_decide (c = 48) in
  let fmt := if zero then fmt + 1 else fmt in
  fmt_limits m fmt ap lj (if zero then 48 else 32).

(** [while (larg < 0) { larg -= 1000000000L; ++digit1; }] on 32 bits: four rounds
    suffice. *)
Fixpoint u_loop (n : nat) (larg digit1 : Z) : Z * Z :=
  match n with
  | O => (larg, digit1)
  | S n => if bool_decide (larg < 0) then u_loop n (s32 (larg - 1000000000)) (digit1 + 1)
           else (larg, digit1)
  end.

(** The conversions to [string]: the bytes stored there, and the sign. *)
Definition convert_num (f larg : Z) : option (list Z * bool) :=
  if bool_decide (f = 100) then
    let sign := bool_decide (larg < 0) in
    Some (prtl10 (if sign then s32 (- larg) else larg), sign)
  else if bool_decide (f = 117) then
    let '(larg, digit1) := u_loop 4 larg 0 in
    Some (alter (λ c, u8 (c + digit1)) 0%nat (prtl10 larg), false)
  else if bool_decide (f = 111) then Some (prtl8 larg, false)
  else if bool_decide (f = 88) then Some (prtX16 larg, false)
  else if bool_decide (f = 120) then Some (prtl16 larg, false)
  else if bool_decide (f = 98) then Some (prtl2 larg, false)
  else None.

(** The [switch]: [str], [string], the flags as it changes them, the sign. *)
Definition convert (f : Z) (fl : flags) (string : strbuf) (ap : list Z) (s : St)
    : option (strref * strbuf * flags * bool * list Z * St) :=
  let nomax := Flags (leftjust fl) (fill fl) (fmin fl) 0 in
  if bool_decide (f = 99) then
    '(v, ap) ← va_arg ap;
    string ← sb_write [u8 v; 0] 0 string;
    Some (StrLocal, string, Flags (leftjust fl) 32 (fmin fl) 0, false, ap, s)
  else if bool_decide (f = 115) then
    '(v, ap) ← va_arg ap;
    Some (if bool_decide (v = 0) then StrNull else StrPtr v, string,
      Flags (leftjust fl) 32 (fmin fl) (fmax fl), false, ap, s)
  else if bool_decide (f ∈ [100; 117; 111; 88; 120; 98]) then
    '(v, ap) ← va_arg ap;
    '(l, sign) ← convert_num f (s32 v);
    string ← sb_write l 0 string;
    Some (StrLocal, string, if bool_decide (f = 100) then fl else nomax, sign, ap, s)
  else
    s ← func f s;
    Some (StrLocal, string, fl, false, ap, s).

(** [for (length = 0; str[length] != 0; length++);] *)
Fixpoint len_loop (fuel : nat) (str : strref) (string : strbuf) (length : Z) (s : St) : option Z :=
  match fuel with
  | O => None
  | S fuel =>
    c ← str_get str string length s;
    if bool_decide (c = 0) then Some length else len_loop fuel str string (length + 1) s
  end.

Fixpoint emit_fill (n : nat) (c : Z) (s : St) : option St :=
  match n with
  | O => Some s
  | S n => s ← func c s; emit_fill n c s
  end.

Fixpoint emit_str (n : nat) (i : Z) (str : strref) (string : strbuf) (s : St) : option St :=
  match n with
  | O => Some s
  | S n => c ← str_get str string i s; s ← func c s; emit_str n (i + 1) str string s
  end.

(** A limit out of range counts as none. *)
Definition in_range (v : Z) : Z := if bool_decide (MAXSTR < v) || bool_decide (v < 0) then 0 else v.

(** The number of characters of the string, and of fill characters. *)
Definition widths (fl : flags) (sign : bool) (len : Z) : Z * Z :=
  let mn := in_range (fmin fl) in
  let mx := in_range (fmax fl) in
  if bool_decide (mx ≠ 0) || bool_decide (mn ≠ 0) then
    let len := if bool_decide (mx ≠ 0) && bool_decide (mx < len) then mx else len in
    let leading := if bool_decide (mn ≠ 0) then mn - len else 0 in
    (len, if sign then leading - 1 else leading)
  else (len, 0).

(** From the length on: the output of a directive. *)
Definition output (str : strref) (string : strbuf) (fl : flags) (sign : bool) (s : St) : option St :=
  len ← len_loop (21 + str_fuel (mem s)) str string 0 s;
  let '(len, leading) := widths fl sign len in
  s ← (if sign && bool_decide (fill fl = 48) then func 45 s else Some s);
  s ← (if leftjust fl then Some s else emit_fill (Z.to_nat leading) (fill fl) s);
  s ← (if sign && bool_decide (fill fl = 32) then func 45 s else Some s);
  s ← emit_str (Z.to_nat len) 0 str string s;
  if leftjust fl then emit_fill (Z.to_nat leading) (fill fl) s else Some s.

Fixpoint fdoprnt_loop (fuel : nat) (fmt : Z) (ap : list Z) (string : strbuf) (s : St) : option St :=
  match fuel with
  | O => None
  | S fuel =>
    c ← mem s !! fmt;
    if bool_decide (c ≠ 37) then
      if bool_decide (c = 0) then Some s
      else s ← func c s; fdoprnt_loop fuel (fmt + 1) ap string s
    else
      let fmt := fmt + 1 in
      c ← mem s !! fmt;
      if bool_decide (c = 37) then s ← func c s; fdoprnt_loop fuel (fmt + 1) ap string s
      else
        '(fl, fmt, ap) ← fmt_flags (mem s) fmt ap;
        f ← mem s !! fmt;
        if bool_decide (f = 0) then func 37 s
        else
          '(str, string, fl, sign, ap, s) ← convert f fl string ap s;
          s ← output str string fl sign s;
          fdoprnt_loop fuel (fmt + 1) ap string s
  end.

Definition fdoprnt (fmt : Z) (ap : list Z) (s : St) : option St :=
  fdoprnt_loop (str_fuel (mem s)) fmt ap ∅ s.
End fdoprnt.

(** ** sprintf.c: the state is memory and the pointer [s] of sprintf. *)
Record sprst := Sprst { smem : bmem; sptr : Z }.

Definition sprntf (c : Z) (s : sprst) : option sprst :=
  m ← bst (sptr s) (u8 c) (smem s); Some (Sprst m (sptr s + 1)).

Definition sprintf (m : bmem) (str fmt : Z) (ap : list Z) : option (Z * bmem) :=
  s ← fdoprnt smem sprntf fmt ap (Sprst m str);
  m ← bst (sptr s) 0 (smem s);
  Some (str, m).

Example sprintf_example :
  let m := write_bytes [37; 48; 53; 100; 32; 37; 120; 33; 0] 100 (write_bytes (replicate 20 0) 16 ∅) in
  (λ r, (λ i, default 0 (r.2 !! i)) <$> seqZ 16 12) <$> sprintf m 16 100 [u32 (-42); 3054] =
    Some [45; 48; 48; 52; 50; 32; 98; 101; 101; 33; 0; 0].
Proof. vm_compute. reflexivity. Qed.
