(* ===== verification/PrintfSpec.v ===== *)
(** What formatted output prints: the numerals, and sprintf against a description
    of formats ([piece]) with the text that each piece stands for. *)

From S2P Require Import Prelude Types CString Printf.

(** * Numerals *)

(** The digits of [n] in base [b], the most significant one first; [fuel] digits
    more than one are enough. *)
Fixpoint num_digits (fuel : nat) (b n : Z) : list Z :=
  match fuel with
  | O => [n]
  | S fuel => if bool_decide (n < b) then [n] else num_digits fuel b (n / b) ++ [n mod b]
  end.

(** The [k] digits of [n] from the least significant one on. *)
Fixpoint le_digits (k : nat) (b n : Z) : list Z :=
  match k with
  | O => []
  | S k => n mod b :: le_digits k b (n / b)
  end.

Lemma length_le_digits k b n : length (le_digits k b n) = k.
Proof. revert n. induction k as [|k IH]; intros n; cbn; [done|]. by rewrite IH. Qed.

Lemma le_digits_mod k b n : 0 < b → le_digits k b (n mod b ^ Z.of_nat k) = le_digits k b n.
Proof.
  intros Hb. revert n. induction k as [|k IH]; intros n; cbn [le_digits]; [done|].
  rewrite Nat2Z.inj_succ, Z.pow_succ_r by lia.
  assert (0 < b ^ Z.of_nat k) by (apply Z.pow_pos_nonneg; lia).
  rewrite Z.rem_mul_r by lia.
  rewrite <-(IH (n / b)). f_equal.
  - rewrite Z.mul_comm, Z.mod_add by lia. apply Z.mod_mod. lia.
  - rewrite Z.mul_comm, Z.div_add, Z.div_small by (try apply Z.mod_pos_bound; lia). done.
Qed.

Lemma le_digits_zero k b ch : 0 < b → ch 0 = 48 → ch <$> le_digits k b 0 = replicate k 48.
Proof.
  intros Hb Hc. induction k as [|k IH]; [done|].
  cbn [le_digits fmap list_fmap replicate]. by rewrite Z.mod_0_l, Z.div_0_l, Hc, <-IH by lia.
Qed.

Lemma prt_top_zeros k : prt_top k (0 :: replicate k 48) = O.
Proof.
  assert (∀ i, (i ≤ k)%nat → prt_top i (0 :: replicate k 48) = O) as H; [|by apply H].
  induction i as [|i IH]; intros Hi; cbn [prt_top]; [done|].
  change ((0 :: replicate k 48) !! S i) with (replicate k 48 !! i).
  rewrite lookup_replicate_2 by lia. rewrite bool_decide_eq_true_2 by done. apply IH. lia.
Qed.

Lemma prt_top_le i t : (prt_top i t ≤ i)%nat.
Proof. induction i as [|i IH]; cbn; [lia|]. case_bool_decide; lia. Qed.

(** One more digit at the least significant end. *)
Lemma prt_top_cons i c t :
  prt_top i (0 :: t) ≠ O → prt_top (S i) (0 :: c :: t) = S (prt_top i (0 :: t)).
Proof.
  induction i as [|i IH]; [done|]. intros Hne.
  change (prt_top (S (S i)) (0 :: c :: t)) with
    (if bool_decide (t !! i = Some 48) then prt_top (S i) (0 :: c :: t) else S (S i)).
  cbn [prt_top] in Hne |- *. change ((0 :: t) !! S i) with (t !! i) in *.
  case_bool_decide; [|done]. by apply IH.
Qed.

Lemma prt_top_cons_zero i c t :
  prt_top i (0 :: t) = O → prt_top (S i) (0 :: c :: t) = prt_top 1 (0 :: c :: t).
Proof.
  induction i as [|i IH]; [done|]. intros Hz.
  change (prt_top (S (S i)) (0 :: c :: t)) with
    (if bool_decide (t !! i = Some 48) then prt_top (S i) (0 :: c :: t) else S (S i)).
  cbn [prt_top] in Hz. change ((0 :: t) !! S i) with (t !! i) in *.
  case_bool_decide; [|done]. by apply IH.
Qed.

Lemma prt_copy_cons c t :
  prt_copy (0 :: c :: t) =
  match prt_top (length t) (0 :: t) with
  | O => [c; 0]
  | S _ as j => reverse (take j t) ++ [c; 0]
  end.
Proof.
  unfold prt_copy. replace (length (0%Z :: c :: t) - 1)%nat with (S (length t)) by (cbn; lia).
  destruct (prt_top (length t) (0%Z :: t)) as [|j] eqn:Ej.
  - rewrite prt_top_cons_zero by done. pose proof (prt_top_le 1 (0%Z :: c :: t)).
    case_bool_decide; [done|]. by replace (prt_top 1 (0%Z :: c :: t)) with 1%nat by lia.
  - rewrite prt_top_cons by congruence. rewrite bool_decide_eq_false_2 by lia. rewrite Ej.
    cbn [take]. rewrite !reverse_cons. by rewrite <-app_assoc.
Qed.

(** The digits of a number less than [b ^ (k + 1)], printed by [ch]. *)
Lemma prt_copy_num b ch k : ∀ n,
  2 ≤ b → (∀ d, 0 ≤ d < b → ch d = 48 ↔ d = 0) → 0 ≤ n < b ^ Z.of_nat (S k) →
  prt_copy (0 :: (ch <$> le_digits (S k) b n)) = (ch <$> num_digits k b n) ++ [0] ∧
  (0 < n → prt_top (S k) (0 :: (ch <$> le_digits (S k) b n)) ≠ O).
Proof.
  induction k as [|k IH]; intros n Hb Hch Hn.
  - change (Z.of_nat 1) with 1 in Hn. rewrite Z.pow_1_r in Hn. cbn. rewrite Z.mod_small by lia. split.
    + unfold prt_copy. cbn. repeat case_bool_decide; try done.
    + intros Hpos. rewrite bool_decide_eq_false_2; [done|]. intros [= H%Hch]; lia.
  - rewrite Nat2Z.inj_succ, Z.pow_succ_r in Hn by lia.
    pose proof (Z.mod_pos_bound n b ltac:(lia)) as Hm.
    assert (0 ≤ n / b < b ^ Z.of_nat (S k)) as Hd.
    { split; [apply Z.div_pos; lia|]. apply Z.div_lt_upper_bound; lia. }
    destruct (IH (n / b) Hb Hch Hd) as [E1 E2].
    remember (le_digits (S k) b (n / b)) as t eqn:Et.
    assert (le_digits (S (S k)) b n = n mod b :: t) as -> by (by rewrite Et).
    assert (length t = S k) as Hlt by (subst; apply length_le_digits).
    cbn [fmap list_fmap num_digits]. rewrite prt_copy_cons, length_fmap, Hlt.
    change (list_fmap Z Z ch t) with (ch <$> t).
    case_bool_decide as Hnb.
    + assert (n / b = 0) as Hz by (apply Z.div_small; lia). rewrite Hz in Et.
      assert (ch <$> t = replicate (S k) 48) as Ez.
      { rewrite Et. apply le_digits_zero; [lia|]. apply Hch; lia. }
      rewrite Ez. rewrite prt_top_zeros. rewrite Z.mod_small by lia. split; [done|].
      intros Hpos. rewrite prt_top_cons_zero by apply prt_top_zeros. cbn.
      rewrite bool_decide_eq_false_2; [done|]. intros [=H%Hch]; lia.
    + assert (0 < n / b) by (apply Z.div_str_pos; lia).
      specialize (E2 ltac:(lia)). split.
      * unfold prt_copy in E1. cbn [length] in E1. rewrite length_fmap, Hlt in E1.
        replace (S (S k) - 1)%nat with (S k) in E1 by lia.
        rewrite bool_decide_eq_false_2 in E1 by done. cbn [take] in E1.
        rewrite reverse_cons in E1. apply app_inj_2 in E1 as [E1 _]; [|done].
        destruct (prt_top (S k) (0 :: (ch <$> t))) as [|j] eqn:Ej; [done|].
        rewrite E1, fmap_app. cbn. by rewrite <-app_assoc.
      * intros _. rewrite prt_top_cons by done. done.
Qed.

(** All the digits but the first, when there are more than [k]. *)
Lemma num_digits_full b k : ∀ n,
  2 ≤ b → b ^ Z.of_nat k ≤ n → num_digits k b n = n / b ^ Z.of_nat k :: reverse (le_digits k b n).
Proof.
  induction k as [|k IH]; intros n Hb Hn.
  - cbn. by rewrite Z.div_1_r.
  - rewrite Nat2Z.inj_succ, Z.pow_succ_r in * by lia.
    assert (0 < b ^ Z.of_nat k) by (apply Z.pow_pos_nonneg; lia).
    cbn [num_digits le_digits]. rewrite bool_decide_eq_false_2 by nia.
    rewrite IH by (try apply Z.div_le_lower_bound; nia).
    rewrite reverse_cons, Z.div_div by lia. done.
Qed.

(** The characters of digits. *)
Definition dec_char (d : Z) : Z := d + 48.
Definition hex_char (up : bool) (d : Z) : Z :=
  if bool_decide (d < 10) then d + 48 else d - 10 + (if up then 65 else 97).

(** The numeral of [n] in base [b]. *)
Definition numeral (b : Z) (ch : Z → Z) (n : Z) : list Z := ch <$> num_digits 40 b n.

Lemma num_digits_fuel b k k' : ∀ n,
  2 ≤ b → 0 ≤ n < b ^ Z.of_nat (S k) → (k ≤ k')%nat → num_digits k' b n = num_digits k b n.
Proof.
  revert k'. induction k as [|k IH]; intros k' n Hb Hn Hk.
  - change (Z.of_nat 1) with 1 in Hn. rewrite Z.pow_1_r in Hn.
    destruct k'; cbn; [done|]. by rewrite bool_decide_eq_true_2 by lia.
  - destruct k' as [|k']; [lia|]. cbn [num_digits]. case_bool_decide; [done|].
    rewrite Nat2Z.inj_succ, Z.pow_succ_r in Hn by lia.
    rewrite IH; [done|lia| |lia]. split; [apply Z.div_pos; lia|]. apply Z.div_lt_upper_bound; lia.
Qed.

Lemma prt_numeral b ch k n :
  2 ≤ b → (∀ d, 0 ≤ d < b → ch d = 48 ↔ d = 0) → 0 ≤ n < b ^ Z.of_nat (S k) → (k ≤ 40)%nat →
  prt_copy (0 :: (ch <$> le_digits (S k) b n)) = numeral b ch n ++ [0].
Proof.
  intros Hb Hch Hn Hk. rewrite (proj1 (prt_copy_num b ch k n Hb Hch Hn)).
  unfold numeral. by rewrite (num_digits_fuel b k 40).
Qed.

Lemma num_digits_bound b k : ∀ n,
  2 ≤ b → 0 ≤ n < b ^ Z.of_nat (S k) → Forall (λ d, 0 ≤ d < b) (num_digits k b n).
Proof.
  induction k as [|k IH]; intros n Hb Hn.
  - change (Z.of_nat 1) with 1 in Hn. rewrite Z.pow_1_r in Hn. by constructor; [|constructor].
  - cbn [num_digits]. case_bool_decide; [constructor; [lia|constructor]|].
    rewrite Nat2Z.inj_succ, Z.pow_succ_r in Hn by lia.
    apply Forall_app. split.
    + apply IH; [done|]. split; [apply Z.div_pos; lia|]. apply Z.div_lt_upper_bound; lia.
    + constructor; [apply Z.mod_pos_bound; lia|constructor].
Qed.

Lemma num_digits_nonempty k b n : num_digits k b n ≠ [].
Proof. destruct k; cbn; [done|]. case_bool_decide; [done|]. by destruct (num_digits k b (n / b)). Qed.

(** A decimal numeral has its value, and no zeros in front. *)
Lemma dec_value_app l : ∀ n l', dec_value n (l ++ l') = dec_value (dec_value n l) l'.
Proof. induction l as [|c l IH]; intros n l'; cbn; [done|]. apply IH. Qed.

Lemma num_digits_value k : ∀ n, dec_value 0 (dec_char <$> num_digits k 10 n) = n.
Proof.
  unfold dec_char. induction k as [|k IH]; intros n; cbn [num_digits].
  - cbn. lia.
  - case_bool_decide; [cbn; lia|]. rewrite fmap_app, dec_value_app, IH. cbn.
    pose proof (Z.div_mod n 10 ltac:(lia)). lia.
Qed.

Lemma num_digits_head k b : ∀ n,
  2 ≤ b → 0 < n → ∃ d ds, num_digits k b n = d :: ds ∧ 0 < d.
Proof.
  induction k as [|k IH]; intros n Hb Hn; cbn [num_digits]; [by exists n, []|].
  case_bool_decide; [by exists n, []|].
  destruct (IH (n / b) Hb) as (d & ds & -> & Hd); [apply Z.div_str_pos; lia|]. by exists d, (ds ++ [n mod b]).
Qed.

(** ** The conversions *)

Lemma dec_char_zero d : 0 ≤ d < 10 → dec_char d = 48 ↔ d = 0.
Proof. unfold dec_char. lia. Qed.
Lemma hex_char_zero up d : 0 ≤ d < 16 → hex_char up d = 48 ↔ d = 0.
Proof. unfold hex_char. case_bool_decide; destruct up; lia. Qed.

Lemma prtl10_loop_ok n : ∀ num, 0 ≤ num → prtl10_loop n num = dec_char <$> le_digits n 10 num.
Proof.
  induction n as [|n IH]; intros num Hn; cbn; [done|].
  rewrite Z.rem_mod_nonneg, Z.quot_div_nonneg by lia.
  pose proof (Z.mod_pos_bound num 10 ltac:(lia)). unfold u8, dec_char at 1.
  rewrite Z.mod_small by lia. f_equal. apply IH, Z.div_pos; lia.
Qed.

Lemma prtl10_ok n : 0 ≤ n < 10 ^ 10 → prtl10 n = numeral 10 dec_char n ++ [0].
Proof.
  intros Hn. unfold prtl10. rewrite prtl10_loop_ok by lia.
  apply prt_numeral; [lia|apply dec_char_zero|done|lia].
Qed.

Lemma prtl_shift_ok n dig ch k : ∀ num,
  0 ≤ k → (∀ x, dig x = ch (x mod 2 ^ k)) →
  prtl_shift n dig k num = ch <$> le_digits n (2 ^ k) num.
Proof.
  induction n as [|n IH]; intros num Hk Hd; cbn; [done|].
  rewrite Hd. f_equal. rewrite Z.shiftr_div_pow2 by done. by apply IH.
Qed.

Lemma u32_digits n k b : b ^ Z.of_nat k = 2 ^ 32 → 0 < b → le_digits k b n = le_digits k b (u32 n).
Proof. intros Hk Hb. change (u32 n) with (n mod 2 ^ 32). by rewrite <-Hk, le_digits_mod. Qed.

Lemma hex_dig_ok up x : hex_dig up x = hex_char up (x mod 2 ^ 4).
Proof. unfold hex_dig, hex_char. change 15 with (Z.ones 4). by rewrite Z.land_ones by lia. Qed.
Lemma oct_dig_ok x : oct_dig x = dec_char (x mod 2 ^ 3).
Proof. unfold oct_dig, dec_char. change 7 with (Z.ones 3). by rewrite Z.land_ones by lia. Qed.
Lemma bin_dig_ok x : bin_dig x = dec_char (x mod 2 ^ 1).
Proof.
  unfold bin_dig, dec_char. change (2 ^ 1) with 2. pose proof (Z.mod_pos_bound x 2 ltac:(lia)).
  case_bool_decide as H1; Z.to_euclidean_division_equations; lia.
Qed.

Lemma prtl16_ok n : prtl16 n = numeral 16 (hex_char false) (u32 n) ++ [0].
Proof.
  unfold prtl16. rewrite (prtl_shift_ok 8 _ (hex_char false)) by (done || apply hex_dig_ok).
  change (2 ^ 4) with 16. rewrite u32_digits by done.
  apply prt_numeral; [done|apply hex_char_zero|apply u32_range|lia].
Qed.

Lemma prtX16_ok n : prtX16 n = numeral 16 (hex_char true) (u32 n) ++ [0].
Proof.
  unfold prtX16. rewrite (prtl_shift_ok 8 _ (hex_char true)) by (done || apply hex_dig_ok).
  change (2 ^ 4) with 16. rewrite u32_digits by done.
  apply prt_numeral; [done|apply hex_char_zero|apply u32_range|lia].
Qed.

Lemma prtl2_ok n : prtl2 n = numeral 2 dec_char (u32 n) ++ [0].
Proof.
  unfold prtl2. rewrite (prtl_shift_ok 32 _ dec_char) by (done || apply bin_dig_ok).
  change (2 ^ 1) with 2. rewrite u32_digits by done.
  apply prt_numeral; [done|intros; apply dec_char_zero; lia|apply u32_range|lia].
Qed.

Lemma le_digits_snoc k b : ∀ n, 0 < b →
  le_digits (S k) b n = le_digits k b n ++ [(n / b ^ Z.of_nat k) mod b].
Proof.
  induction k as [|k IH]; intros n Hb.
  - cbn. by rewrite Z.div_1_r.
  - change (le_digits (S (S k)) b n) with (n mod b :: le_digits (S k) b (n / b)).
    assert (0 < b ^ Z.of_nat k) by (apply Z.pow_pos_nonneg; lia).
    rewrite IH by done. rewrite Z.div_div by lia. by rewrite Nat2Z.inj_succ, Z.pow_succ_r by lia.
Qed.

(** The eleventh octal digit has two bits. *)
Lemma oct_top d : 0 ≤ d < 8 → Z.land (dec_char d) 51 = dec_char (d mod 4).
Proof.
  intros Hd. assert (d = 0 ∨ d = 1 ∨ d = 2 ∨ d = 3 ∨ d = 4 ∨ d = 5 ∨ d = 6 ∨ d = 7)
    as [->|[->|[->|[->|[->|[->|[->| ->]]]]]]] by lia; reflexivity.
Qed.

Lemma prtl8_ok n : prtl8 n = numeral 8 dec_char (u32 n) ++ [0].
Proof.
  unfold prtl8. rewrite (prtl_shift_ok 11 _ dec_char) by (done || apply oct_dig_ok).
  change (2 ^ 3) with 8. rewrite le_digits_snoc, fmap_app by done.
  change (0 :: ?l ++ ?x) with ((0 :: l) ++ x).
  assert (length (0 :: (dec_char <$> le_digits 10 8 n)) = 11%nat) as Hl by reflexivity.
  rewrite alter_app_r_alt, Hl by (by rewrite Hl).
  change (alter ?f (11 - 11)%nat (dec_char <$> [?x])) with [f (dec_char x)]. cbv beta.
  rewrite oct_top by (apply Z.mod_pos_bound; lia).
  rewrite <-(prt_numeral 8 dec_char 10 (u32 n));
    [|lia|intros; apply dec_char_zero; lia|pose proof (u32_range n); lia|lia].
  assert (le_digits 10 8 (u32 n) = le_digits 10 8 n) as E1.
  { rewrite <-(le_digits_mod 10 8 n), <-(le_digits_mod 10 8 (u32 n)) by done. f_equal.
    unfold u32. change (8 ^ Z.of_nat 10) with 1073741824. Z.to_euclidean_division_equations; lia. }
  assert ((u32 n / 8 ^ Z.of_nat 10) mod 8 = ((n / 8 ^ Z.of_nat 10) mod 8) mod 4) as E2.
  { unfold u32. change (8 ^ Z.of_nat 10) with 1073741824. Z.to_euclidean_division_equations; lia. }
  by rewrite (le_digits_snoc 10 8 (u32 n)), E1, E2, fmap_app by done.
Qed.

(** %u prints the argument as an unsigned number. *)
Lemma u_loop_ok n :
  -2147483648 ≤ n < 2147483648 →
  let '(r, d) := u_loop 4 n 0 in
  0 ≤ d ≤ 3 ∧ 0 ≤ r < 2147483648 ∧ u32 n = r + d * 1000000000 ∧ (d ≠ 0 → 1000000000 ≤ r).
Proof.
  intros Hn. cbn [u_loop]. unfold u32, s32.
  repeat (case_bool_decide; [|Z.to_euclidean_division_equations; lia]).
  Z.to_euclidean_division_equations; lia.
Qed.

Lemma numeral_fuel b ch k n :
  2 ≤ b → 0 ≤ n < b ^ Z.of_nat (S k) → (k ≤ 40)%nat → numeral b ch n = ch <$> num_digits k b n.
Proof. intros Hb Hn Hk. unfold numeral. by rewrite (num_digits_fuel b k 40). Qed.

Lemma length_num_digits k b : ∀ n, (length (num_digits k b n) ≤ S k)%nat.
Proof.
  induction k as [|k IH]; intros n; cbn [num_digits]; [done|]. case_bool_decide; cbn; [lia|].
  rewrite length_app. cbn. specialize (IH (n / b)). lia.
Qed.

Lemma numeral_length b ch k n :
  2 ≤ b → 0 ≤ n < b ^ Z.of_nat (S k) → (k ≤ 40)%nat → (length (numeral b ch n) ≤ S k)%nat.
Proof.
  intros Hb Hn Hk. rewrite (numeral_fuel b ch k) by done. rewrite length_fmap. apply length_num_digits.
Qed.

Lemma numeral_u n :
  -2147483648 ≤ n < 2147483648 →
  let '(r, d) := u_loop 4 n 0 in
  alter (λ c, u8 (c + d)) 0%nat (prtl10 r) = numeral 10 dec_char (u32 n) ++ [0].
Proof.
  intros Hn. pose proof (u_loop_ok n Hn) as H. destruct (u_loop 4 n 0) as [r d].
  destruct H as (Hd & Hr & Hu & Hbig). rewrite prtl10_ok by lia.
  rewrite !(numeral_fuel 10 dec_char 9) by (rewrite ?Hu; lia).
  pose proof (num_digits_bound 10 9 r ltac:(lia) ltac:(lia)) as Hb.
  destruct (decide (d = 0)) as [->|Hd0].
  - rewrite Hu, Z.mul_0_l, Z.add_0_r.
    destruct (num_digits 9 10 r) as [|x xs] eqn:E; [by apply num_digits_nonempty in E|].
    apply Forall_cons in Hb as [Hx _]. cbn. unfold dec_char at 1 3, u8.
    rewrite Z.add_0_r, Z.mod_small by lia. done.
  - specialize (Hbig Hd0). rewrite !num_digits_full by (rewrite ?Hu; lia).
    rewrite <-(le_digits_mod 9 10 (u32 n)), <-(le_digits_mod 9 10 r) by lia.
    change (10 ^ Z.of_nat 9) with 1000000000 in *.
    assert (u32 n mod 1000000000 = r mod 1000000000) as -> by (rewrite Hu; apply Z.mod_add; lia).
    assert (u32 n / 1000000000 = r / 1000000000 + d) as -> by (rewrite Hu; apply Z.div_add; lia).
    cbn [fmap list_fmap app alter list_alter]. f_equal. unfold dec_char, u8.
    rewrite Z.mod_small; [lia|]. Z.to_euclidean_division_equations; lia.
Qed.

(** * Formats *)

(** What a conversion prints. *)
Inductive conv :=
  | CDec (n : Z) | CUns (n : Z) | COct (n : Z) | CHex (up : bool) (n : Z) | CBin (n : Z)
  | CChr (c : Z) | CStr (a : Z) (s : list Z).

Definition conv_char (cv : conv) : Z :=
  match cv with
  | CDec _ => 100 | CUns _ => 117 | COct _ => 111 | CHex up _ => if up then 88 else 120 | CBin _ => 98
  | CChr _ => 99 | CStr _ _ => 115
  end.
Definition conv_arg (cv : conv) : Z :=
  match cv with
  | CDec n | CUns n | COct n | CHex _ n | CBin n | CChr n | CStr n _ => n
  end.
(** The minus sign, and the characters behind it. *)
Definition conv_sign (cv : conv) : bool :=
  match cv with CDec n => bool_decide (n < 0) | _ => false end.
Definition conv_body (cv : conv) : list Z :=
  match cv with
  | CDec n => numeral 10 dec_char (Z.abs n)
  | CUns n => numeral 10 dec_char (u32 n)
  | COct n => numeral 8 dec_char (u32 n)
  | CHex up n => numeral 16 (hex_char up) (u32 n)
  | CBin n => numeral 2 dec_char (u32 n)
  | CChr c => if bool_decide (u8 c = 0) then [] else [u8 c]
  | CStr a s => if bool_decide (a = 0) then [40; 110; 117; 108; 108; 41] else s
  end.
(** Characters and strings are not filled with zeros; only strings and signed
    numbers are cut off. *)
Definition conv_fill (cv : conv) (fl : Z) : Z :=
  match cv with CChr _ | CStr _ _ => 32 | _ => fl end.
Definition conv_max (cv : conv) (mx : Z) : Z :=
  match cv with CDec _ | CStr _ _ => mx | _ => 0 end.

(** The field: a sign, the characters (of which [mx] at most, unless it is 0),
    filled up to [mn] characters.  Zeros go behind the sign. *)
Definition field (lj : bool) (fl mn mx : Z) (sg : bool) (body : list Z) : list Z :=
  let mn := in_range mn in
  let mx := in_range mx in
  let body := if bool_decide (mx ≠ 0) then take (Z.to_nat mx) body else body in
  let sgn := if sg then [45] else [] in
  let n := if bool_decide (mn ≠ 0) then mn - Z.of_nat (length body + length sgn) else 0 in
  let fills := replicate (Z.to_nat n) fl in
  if bool_decide (fl = 48) then sgn ++ (if lj then body ++ fills else fills ++ body)
  else if lj then sgn ++ body ++ fills else fills ++ sgn ++ body.

(** A piece of a format: a character, "%%", or a directive with its flags, the
    digits of the width, and those of the maximum. *)
Inductive piece :=
  | PLit (c : Z) | PPct | PConv (lj zero : bool) (width : list Z) (max : option (list Z)) (cv : conv).

Definition render (p : piece) : list Z :=
  match p with
  | PLit c => [c]
  | PPct => [37; 37]
  | PConv lj zero width max cv =>
    [37] ++ (if lj then [45] else []) ++ (if zero then [48] else []) ++ width ++
      (match max with Some ds => 46 :: ds | None => [] end) ++ [conv_char cv]
  end.
Definition piece_args (p : piece) : list Z :=
  match p with PConv _ _ _ _ cv => [conv_arg cv] | _ => [] end.
Definition piece_text (p : piece) : list Z :=
  match p with
  | PLit c => [c]
  | PPct => [37]
  | PConv lj zero width max cv =>
    field lj (conv_fill cv (if zero then 48 else 32)) (dec_value 0 width)
      (conv_max cv (match max with Some ds => dec_value 0 ds | None => 0 end))
      (conv_sign cv) (conv_body cv)
  end.

Definition text (ps : list piece) : list Z := concat (piece_text <$> ps).
Definition format (ps : list piece) : list Z := concat (render <$> ps).
Definition arguments (ps : list piece) : list Z := concat (piece_args <$> ps).

(** What the conversions support. *)
Definition conv_ok (m : bmem) (dst room : Z) (cv : conv) : Prop :=
  match cv with
  | CDec n => -2147483648 < n < 2147483648
  | CUns n | COct n | CHex _ n => -2147483648 ≤ n < 2147483648
  | CBin n => 0 ≤ n < 2 ^ 19
  | CChr c => -2147483648 ≤ c < 2147483648
  | CStr a s => a ≠ 0 → cstring m a s ∧ chars s ∧ apart a (Z.of_nat (length s) + 1) dst room
  end.

Definition piece_ok (m : bmem) (dst room : Z) (p : piece) : Prop :=
  match p with
  | PLit c => 0 < c < 256 ∧ c ≠ 37
  | PPct => True
  | PConv lj zero width max cv =>
    digits width ∧ dec_value 0 width ≤ INT_MAX ∧ (zero = false → ∀ ds, width ≠ 48 :: ds) ∧
    (∀ ds, max = Some ds → digits ds ∧ dec_value 0 ds ≤ INT_MAX) ∧ conv_ok m dst room cv
  end.

(** * The conversions store what they print *)

Lemma convert_num_ok m dst room cv :
  conv_ok m dst room cv → (∀ c, cv ≠ CChr c) → (∀ a s, cv ≠ CStr a s) →
  convert_num (conv_char cv) (s32 (conv_arg cv)) = Some (conv_body cv ++ [0], conv_sign cv) ∧
  (length (conv_body cv) ≤ 19)%nat.
Proof.
  intros Hok Hc Hs.
  destruct cv as [n|n|n|up n|n|c|a s]; cbn [conv_ok conv_char conv_arg conv_body conv_sign] in *;
    try (by destruct (Hc c)); try (by destruct (Hs a s)); rewrite s32_id by lia.
  - unfold convert_num. rewrite bool_decide_eq_true_2 by done. split.
    + assert ((if bool_decide (n < 0) then s32 (- n) else n) = Z.abs n) as ->.
      { case_bool_decide; [rewrite s32_id|]; lia. }
      rewrite prtl10_ok by lia. done.
    + pose proof (numeral_length 10 dec_char 9 (Z.abs n)). lia.
  - unfold convert_num. cbn [bool_decide]. change (bool_decide (117 = 100)) with false.
    change (bool_decide (117 = 117)) with true. cbn iota.
    pose proof (numeral_u n ltac:(lia)) as E. destruct (u_loop 4 n 0) as [r d]. rewrite E.
    split; [done|]. pose proof (numeral_length 10 dec_char 9 (u32 n)). pose proof (u32_range n). lia.
  - change (convert_num 111 n) with (Some (prtl8 n, false)). rewrite prtl8_ok. split; [done|].
    pose proof (numeral_length 8 dec_char 10 (u32 n)). pose proof (u32_range n). lia.
  - pose proof (numeral_length 16 (hex_char up) 7 (u32 n)). pose proof (u32_range n).
    destruct up; [change (convert_num 88 n) with (Some (prtX16 n, false)); rewrite prtX16_ok|
      change (convert_num 120 n) with (Some (prtl16 n, false)); rewrite prtl16_ok]; (split; [done|lia]).
  - change (convert_num 98 n) with (Some (prtl2 n, false)). rewrite prtl2_ok. split; [done|].
    pose proof (numeral_length 2 dec_char 18 (u32 n)). rewrite u32_id in * by lia. lia.
Qed.

Lemma sb_write_ok l : ∀ i b, i + Z.of_nat (length l) ≤ 20 → sb_write l i b = Some (write_bytes l i b).
Proof.
  induction l as [|c l IH]; intros i b Hi; cbn in *; [done|].
  rewrite bool_decide_eq_true_2 by lia. apply IH. lia.
Qed.

(** * Running the directives *)

Section run.
Context (m0 : bmem) (dst room : Z).
Hypothesis Hroom : mapped m0 dst room.

(** The state in which the text [l] has been printed. *)
Definition printed (l : list Z) : sprst := Sprst (write_bytes l dst m0) (dst + Z.of_nat (length l)).

Lemma sprntf_ok l c :
  Z.of_nat (length l) < room → 0 ≤ c < 256 → sprntf c (printed l) = Some (printed (l ++ [c])).
Proof.
  intros Hl Hc. unfold sprntf, printed. cbn [smem sptr]. rewrite (bst_next l dst room) by done.
  cbn [mbind option_bind]. unfold u8. rewrite Z.mod_small by lia. do 2 f_equal. rewrite length_app. cbn. lia.
Qed.

Lemma emit_fill_ok n c : ∀ l,
  Z.of_nat (length l + n) ≤ room → 0 ≤ c < 256 →
  emit_fill sprntf n c (printed l) = Some (printed (l ++ replicate n c)).
Proof.
  induction n as [|n IH]; intros l Hl Hc; cbn [emit_fill replicate]; [by rewrite app_nil_r|].
  rewrite sprntf_ok by (done || lia). cbn [mbind option_bind].
  rewrite IH, <-app_assoc by (rewrite ?length_app; cbn; lia). done.
Qed.

(** The text [body] is where [str] points, whatever has been printed. *)
Definition str_text (str : strref) (string : strbuf) (body : list Z) : Prop :=
  ∀ l i c, Z.of_nat (length l) ≤ room → (body ++ [0]) !! i = Some c →
    str_get smem str string (Z.of_nat i) (printed l) = Some c.

Lemma emit_str_ok str string body n : ∀ i l,
  str_text str string body → chars body → (i + n ≤ length body)%nat → Z.of_nat (length l + n) ≤ room →
  emit_str smem sprntf n (Z.of_nat i) str string (printed l) = Some (printed (l ++ take n (drop i body))).
Proof.
  induction n as [|n IH]; intros i l Ht Hc Hi Hl; cbn [emit_str take]; [by rewrite take_0, app_nil_r|].
  destruct (lookup_lt_is_Some_2 body i ltac:(lia)) as [c Hx].
  rewrite (Ht l i c) by (lia || by apply lookup_app_l_Some). cbn [mbind option_bind].
  assert (0 < c < 256) by exact (Forall_lookup_1 _ _ _ _ Hc Hx).
  rewrite sprntf_ok by lia. cbn [mbind option_bind].
  replace (Z.of_nat i + 1) with (Z.of_nat (S i)) by lia.
  rewrite IH by (done || rewrite ?length_app; cbn; lia).
  rewrite (drop_S body c i) by done. by rewrite <-app_assoc.
Qed.

Lemma len_loop_ok str string body l : ∀ fuel i,
  str_text str string body → Forall (λ c, c ≠ 0) body → Z.of_nat (length l) ≤ room →
  (i ≤ length body)%nat → (length body - i < fuel)%nat →
  len_loop smem fuel str string (Z.of_nat i) (printed l) = Some (Z.of_nat (length body)).
Proof.
  induction fuel as [|fuel IH]; intros i Ht Hz Hl Hi Hf; [lia|]. cbn [len_loop].
  destruct (decide (i = length body)) as [->|Hne].
  - rewrite (Ht l _ 0); [done|lia|by rewrite list_lookup_middle].
  - destruct (lookup_lt_is_Some_2 body i ltac:(lia)) as [c Hx].
    rewrite (Ht l i c) by (lia || by apply lookup_app_l_Some). cbn [mbind option_bind].
    rewrite bool_decide_eq_false_2 by exact (Forall_lookup_1 _ _ _ _ Hz Hx).
    replace (Z.of_nat i + 1) with (Z.of_nat (S i)) by lia. apply IH; (done || lia).
Qed.

(** The characters of a field, and their number. *)
Definition cut (mx : Z) (body : list Z) : list Z :=
  if bool_decide (in_range mx ≠ 0) then take (Z.to_nat (in_range mx)) body else body.
Definition fills (mn : Z) (sg : bool) (body : list Z) : nat :=
  Z.to_nat (if bool_decide (in_range mn ≠ 0)
            then in_range mn - Z.of_nat (length body + length (if sg then [45] else [])) else 0).

Lemma field_alt lj fl mn mx sg body :
  field lj fl mn mx sg body =
  let sgn := if sg then [45] else [] in
  let f := replicate (fills mn sg (cut mx body)) fl in
  if bool_decide (fl = 48) then sgn ++ (if lj then cut mx body ++ f else f ++ cut mx body)
  else if lj then sgn ++ cut mx body ++ f else f ++ sgn ++ cut mx body.
Proof. reflexivity. Qed.

Lemma cut_take mx body : cut mx body = take (length (cut mx body)) body.
Proof.
  unfold cut. case_bool_decide; [|by rewrite firstn_all]. rewrite length_take.
  destruct (decide (Z.to_nat (in_range mx) ≤ length body)%nat).
  - by rewrite Nat.min_l.
  - rewrite Nat.min_r by lia. by rewrite !take_ge by lia.
Qed.

Lemma widths_ok fl sg body :
  let '(len, leading) := widths fl sg (Z.of_nat (length body)) in
  len = Z.of_nat (length (cut (fmax fl) body)) ∧
  Z.to_nat leading = fills (fmin fl) sg (cut (fmax fl) body).
Proof.
  unfold widths, fills, cut.
  assert (∀ v, 0 ≤ in_range v) as Hr by (intros v; unfold in_range; repeat case_bool_decide; cbn; lia).
  pose proof (Hr (fmin fl)). pose proof (Hr (fmax fl)).
  destruct (bool_decide (in_range (fmax fl) ≠ 0)) eqn:Ex; cbn [orb andb].
  - split.
    + rewrite length_take. repeat case_bool_decide; lia.
    + rewrite length_take. repeat case_bool_decide; destruct sg; cbn; lia.
  - repeat case_bool_decide; destruct sg; cbn; split; (done || lia).
Qed.

(** What a directive prints. *)
Lemma output_ok str string fl sg body l :
  str_text str string body → chars body → (length body < 21 + str_fuel m0)%nat →
  (fill fl = 32 ∨ fill fl = 48) →
  let out := field (leftjust fl) (fill fl) (fmin fl) (fmax fl) sg body in
  Z.of_nat (length (l ++ out)) ≤ room →
  output smem sprntf str string fl sg (printed l) = Some (printed (l ++ out)).
Proof.
  intros Ht Hc Hf Hfill out Hl. unfold output. subst out. rewrite field_alt in *. cbn zeta in *.
  assert (Forall (λ c, c ≠ 0) body) as Hz by (eapply Forall_impl; [exact Hc|cbn; lia]).
  rewrite length_app in Hl. cbn [printed smem].
  assert (str_fuel (write_bytes l dst m0) = str_fuel m0) as ->
    by (unfold str_fuel; by rewrite (write_bytes_size l dst room) by (done || lia)).
  rewrite (len_loop_ok str string body l _ 0) by (done || lia). cbn [mbind option_bind].
  pose proof (widths_ok fl sg body) as Hw. destruct (widths fl sg _) as [len leading].
  destruct Hw as [-> ->]. rewrite Nat2Z.id.
  set (n := fills _ _ _) in *. set (b := cut (fmax fl) body) in *.
  assert (b = take (length b) (drop 0 body)) as Hb by apply cut_take.
  assert (0 + length b ≤ length body)%nat as Hlb.
  { rewrite Hb, drop_0, length_take. lia. }
  assert (∀ l', Z.of_nat (length l' + length b) ≤ room →
    emit_str smem sprntf (length b) 0 str string (printed l') = Some (printed (l' ++ b))) as He.
  { intros l' Hl'. rewrite Hb at 2. by apply (emit_str_ok str string body (length b) 0). }
  destruct Hfill as [Hfl|Hfl]; rewrite Hfl in *;
    [change (bool_decide (32 = 48)) with false in *; change (bool_decide (32 = 32)) with true in *
    |change (bool_decide (48 = 48)) with true in *; change (bool_decide (48 = 32)) with false in *];
    destruct sg, (leftjust fl); cbn [andb];
    repeat progress (rewrite ?length_app, ?length_replicate in Hl; cbn [length] in Hl);
    repeat progress (rewrite ?sprntf_ok, ?emit_fill_ok, ?He
      by (rewrite ?length_app; cbn [length]; rewrite ?length_app, ?length_replicate; cbn [length]; lia);
      cbn [mbind option_bind]);
    by rewrite <-?app_assoc.
Qed.
(** ** The flags *)

Lemma bytes_at_lookup m l : ∀ a i c, bytes_at m a l → l !! i = Some c → m !! (a + Z.of_nat i) = Some c.
Proof.
  induction l as [|x l IH]; intros a [|i] c Hl Hi; cbn in *; try done; destruct Hl as [Hx Hl].
  - by rewrite Z.add_0_r, Hx.
  - replace (a + Z.of_nat (S i)) with (a + 1 + Z.of_nat i) by lia. by apply IH.
Qed.

Lemma is_digit_true c : 48 ≤ c ≤ 57 → is_digit c = true.
Proof. intros H. unfold is_digit. by rewrite !bool_decide_eq_true_2 by lia. Qed.

Lemma fmt_num_ok ds c : ∀ fuel m p v,
  bytes_at m p (ds ++ [c]) → digits ds → is_digit c = false → (length ds < fuel)%nat →
  0 ≤ v → dec_value v ds ≤ INT_MAX →
  fmt_num fuel m p v = Some (dec_value v ds, p + Z.of_nat (length ds)).
Proof.
  unfold INT_MAX.
  induction ds as [|x ds IH]; intros [|fuel] m p v Hb Hd Hc Hf Hv Hmax; cbn [app bytes_at length fmt_num] in *; try lia.
  - destruct Hb as [-> _]. cbn. rewrite Hc. do 2 f_equal. lia.
  - destruct Hb as [-> Hb]. apply Forall_cons in Hd as [Hx Hd]. cbn [mbind option_bind].
    change (dec_value v (x :: ds)) with (dec_value (v * 10 + (x - 48)) ds) in *.
    pose proof (dec_value_le ds (v * 10 + (x - 48)) ltac:(lia) Hd).
    rewrite is_digit_true, s32_digit by lia. rewrite IH by (done || lia). do 2 f_equal. lia.
Qed.

(** The characters that end a number. *)
Definition field_end (c : Z) : Prop := is_digit c = false ∧ c ≠ 42.

Lemma fmt_field_ok m p ds c ap :
  bytes_at m p (ds ++ [c]) → digits ds → field_end c → dec_value 0 ds ≤ INT_MAX →
  fmt_field m p ap = Some (dec_value 0 ds, p + Z.of_nat (length ds), ap).
Proof.
  intros Hb Hd [Hc Hc'] Hmax. unfold fmt_field.
  assert (∃ x, m !! p = Some x ∧ x ≠ 42) as (x & -> & Hx).
  { destruct ds as [|x ds]; [by exists c; destruct Hb|]. exists x. destruct Hb as [? _].
    apply Forall_cons in Hd as [? _]. split; [done|lia]. }
  cbn [mbind option_bind]. rewrite bool_decide_eq_false_2 by done.
  rewrite (fmt_num_ok ds c) by (done || lia || (apply bytes_size in Hb; rewrite length_app in Hb; unfold str_fuel; cbn in Hb; lia)).
  done.
Qed.

(** One more character of the format. *)
Lemma bytes_at_cons m p c l : bytes_at m p (c :: l) ↔ m !! p = Some c ∧ bytes_at m (p + 1) l.
Proof. done. Qed.

Definition max_digits (max : option (list Z)) : list Z :=
  match max with Some ds => 46 :: ds | None => [] end.
Definition max_value (max : option (list Z)) : Z :=
  match max with Some ds => dec_value 0 ds | None => 0 end.
Definition limits_ok (width : list Z) (max : option (list Z)) : Prop :=
  digits width ∧ dec_value 0 width ≤ INT_MAX ∧
  ∀ ds, max = Some ds → digits ds ∧ dec_value 0 ds ≤ INT_MAX.

Lemma fmt_limits_ok m p lj fl width max cc ap :
  bytes_at m p ((width ++ max_digits max) ++ [cc]) → field_end cc → cc ≠ 46 → limits_ok width max →
  fmt_limits m p ap lj fl =
    Some (Flags lj fl (dec_value 0 width) (max_value max),
      p + Z.of_nat (length (width ++ max_digits max)), ap).
Proof.
  intros Hq Hcc Hc (Hw & Hwm & Hmax). unfold fmt_limits. destruct max as [ds|]; cbn [max_digits max_value] in *.
  - destruct (Hmax ds eq_refl) as [Hd Hdm]. rewrite <-app_assoc in Hq. cbn [app] in Hq.
    pose proof Hq as Hq'. rewrite cons_middle, app_assoc in Hq'. apply bytes_at_app in Hq' as [Hq' _].
    rewrite (fmt_field_ok m p width 46) by done. cbn [mbind option_bind].
    apply bytes_at_app in Hq as [_ [-> Hq2]]. cbn [mbind option_bind].
    rewrite bool_decide_eq_true_2 by done.
    rewrite (fmt_field_ok m _ ds cc) by done. cbn [mbind option_bind].
    do 3 f_equal. rewrite length_app. cbn. lia.
  - rewrite app_nil_r in *. rewrite (fmt_field_ok m p width cc) by done. cbn [mbind option_bind].
    apply bytes_at_app in Hq as [_ [-> _]]. cbn [mbind option_bind].
    by rewrite bool_decide_eq_false_2.
Qed.

(** The first character of a text that may be empty. *)
Lemma fmt_flags_ok m p lj zero width max cc ap :
  let spec := (if lj : bool then [45] else []) ++ (if zero : bool then [48] else []) ++ width ++ max_digits max in
  bytes_at m p (spec ++ [cc]) → field_end cc → cc ≠ 45 → cc ≠ 46 → cc ≠ 48 →
  limits_ok width max → (zero = false → ∀ ds, width ≠ 48 :: ds) →
  fmt_flags m p ap =
    Some (Flags lj (if zero then 48 else 32) (dec_value 0 width) (max_value max),
      p + Z.of_nat (length spec), ap).
Proof.
  intros spec Hb Hcc H1 H2 H3 Hlim Hz. subst spec. unfold fmt_flags.
  assert (∃ x tl, (width ++ max_digits max) ++ [cc] = x :: tl ∧ x ≠ 45 ∧ (zero = false → x ≠ 48))
    as (x & tl & Ex & Hx & Hx0).
  { destruct Hlim as (Hw & _). destruct width as [|x width].
    - destruct max as [ds|]; [by exists 46, (ds ++ [cc])|by exists cc, []].
    - exists x, (width ++ max_digits max ++ [cc]). apply Forall_cons in Hw as [? _].
      rewrite <-app_assoc. split_and!; [done|lia|]. intros -> ->. by apply (Hz eq_refl width). }
  rewrite <-!app_assoc in Hb. rewrite (app_assoc width) in Hb.
  destruct lj, zero; cbn [app] in Hb |- *; repeat (apply bytes_at_cons in Hb as [? Hb]);
    pose proof Hb as Hbx; rewrite Ex in Hbx; destruct Hbx as [Hbx _];
    repeat (match goal with H : m !! ?a = Some _ |- context [m !! ?a] => rewrite H end;
            cbn [mbind option_bind]; rewrite ?(bool_decide_eq_true_2 (_ = _)), ?(bool_decide_eq_false_2 (_ = _)) by (done || auto);
            cbn iota).
  all: rewrite (fmt_limits_ok m _ _ _ width max cc ap) by done; do 3 f_equal; cbn [length]; lia.
Qed.

(** ** The conversions *)

Lemma numeral_chars b ch k n :
  2 ≤ b → 0 ≤ n < b ^ Z.of_nat (S k) → (k ≤ 40)%nat →
  (∀ d, 0 ≤ d < b → 0 < ch d < 256) → chars (numeral b ch n).
Proof.
  intros Hb Hn Hk Hc. rewrite (numeral_fuel b ch k) by done.
  apply Forall_fmap. eapply Forall_impl; [by apply num_digits_bound|]. intros d Hd. by apply Hc.
Qed.

Lemma conv_chars m cv : conv_ok m dst room cv → chars (conv_body cv).
Proof.
  assert (∀ d, 0 ≤ d < 10 → 0 < dec_char d < 256) as Hd by (unfold dec_char; lia).
  assert (∀ up d, 0 ≤ d < 16 → 0 < hex_char up d < 256) as Hh.
  { intros up d ?. unfold hex_char. case_bool_decide; destruct up; lia. }
  destruct cv as [n|n|n|up n|n|c|a s]; cbn [conv_ok conv_body]; intros Hok;
    try pose proof (u32_range n).
  - apply (numeral_chars 10 _ 9); try done; lia.
  - apply (numeral_chars 10 _ 9); try done; lia.
  - apply (numeral_chars 8 _ 10); try lia. intros; apply Hd; lia.
  - apply (numeral_chars 16 _ 7); try lia. apply Hh.
  - apply (numeral_chars 2 _ 31); try lia. intros; apply Hd; lia.
  - case_bool_decide; [constructor|]. pose proof (u8_range c). constructor; [lia|constructor].
  - case_bool_decide as Ha; [repeat constructor; done|by apply Hok].
Qed.

Lemma str_local string body : (length body ≤ 19)%nat →
  ∃ string', sb_write (body ++ [0]) 0 string = Some string' ∧ str_text StrLocal string' body.
Proof.
  intros Hl. exists (write_bytes (body ++ [0]) 0 string). split.
  - apply sb_write_ok. rewrite length_app. cbn. lia.
  - intros l i c _ Hi. cbn. apply (bytes_at_lookup _ (body ++ [0]) 0 i); [apply write_bytes_at|done].
Qed.

Lemma convert_ok cv fl string ap l :
  conv_ok m0 dst room cv →
  ∃ str string',
    convert sprntf (conv_char cv) fl string (conv_arg cv :: ap) (printed l) =
      Some (str, string', Flags (leftjust fl) (conv_fill cv (fill fl)) (fmin fl) (conv_max cv (fmax fl)),
        conv_sign cv, ap, printed l) ∧
    str_text str string' (conv_body cv) ∧ (length (conv_body cv) < 21 + str_fuel m0)%nat.
Proof.
  intros Hok. assert ((∃ c, cv = CChr c) ∨ (∃ a s, cv = CStr a s) ∨
    ((∀ c, cv ≠ CChr c) ∧ ∀ a s, cv ≠ CStr a s)) as [[c ->]|[(a & s & ->)|[Hc Hs]]].
  { destruct cv; [right; right; split; congruence..|left; by eexists|right; left; by eexists _, _]. }
  - cbn [conv_char conv_arg conv_fill conv_max conv_sign conv_body].
    exists StrLocal, (write_bytes [u8 c; 0] 0 string). split_and!.
    + unfold convert. rewrite bool_decide_eq_true_2 by done. cbn [va_arg mbind option_bind].
      by rewrite sb_write_ok.
    + intros l' i x _ Hi. case_bool_decide as E.
      * destruct i as [|i]; [|done]. injection Hi as <-. cbn. by rewrite lookup_insert_ne, lookup_insert_eq, E.
      * apply (bytes_at_lookup _ ([u8 c] ++ [0]) 0 i); [apply (write_bytes_at [u8 c; 0])|done].
    + case_bool_decide; cbn; lia.
  - cbn [conv_char conv_arg conv_fill conv_max conv_sign conv_body conv_ok] in *.
    exists (if bool_decide (a = 0) then StrNull else StrPtr a), string. split_and!; [done| |].
    + intros l' i x Hl Hi. case_bool_decide as Ha; cbn.
      * by rewrite Nat2Z.id.
      * destruct (Hok Ha) as (Hs & _ & Hap). apply (bytes_at_lookup _ (s ++ [0])); [|done].
        apply (bytes_at_apart l' dst room); [by apply cstring_bytes|by rewrite length_app, Nat2Z.inj_add|done].
    + case_bool_decide as Ha; [cbn; lia|]. destruct (Hok Ha) as (Hs & _). apply cstring_fuel in Hs. lia.
  - destruct (convert_num_ok m0 dst room cv Hok Hc Hs) as [E Hlen].
    destruct (str_local string (conv_body cv) Hlen) as (string' & Es & Ht).
    exists StrLocal, string'. split_and!; [|done|lia].
    assert (conv_char cv ∈ [100; 117; 111; 88; 120; 98] ∧ conv_char cv ≠ 99 ∧ conv_char cv ≠ 115) as (Hin & H1 & H2).
    { destruct cv as [| | |[]| | |]; [..|by destruct (Hc c)|by destruct (Hs a s)];
        (split; [by apply (bool_decide_unpack _); vm_compute|done]). }
    unfold convert. rewrite bool_decide_eq_false_2, bool_decide_eq_false_2, bool_decide_eq_true_2 by done.
    cbn [va_arg mbind option_bind]. rewrite E. cbn [mbind option_bind]. rewrite Es. cbn [mbind option_bind].
    destruct fl as [lj fi mn mx].
    by destruct cv as [| | |[]| | |].
Qed.

(** ** The format *)

Lemma conv_char_ok cv :
  field_end (conv_char cv) ∧ conv_char cv ≠ 45 ∧ conv_char cv ≠ 46 ∧ conv_char cv ≠ 48 ∧
  conv_char cv ≠ 37 ∧ conv_char cv ≠ 0.
Proof. destruct cv as [| | |[]| | |]; by vm_compute. Qed.

(** The first character of a directive is not a percent sign. *)
Lemma directive_head lj zero width max cv :
  digits width → (zero = false → ∀ ds, width ≠ 48 :: ds) →
  ∃ x tl, ((if lj : bool then [45] else []) ++ (if zero : bool then [48] else []) ++ width ++ max_digits max) ++
    [conv_char cv] = x :: tl ∧ x ≠ 37.
Proof.
  intros Hw Hz. destruct lj; [by eexists 45, _|]. destruct zero; [by eexists 48, _|].
  destruct width as [|x width]; cbn [app].
  - destruct max as [ds|]; [by eexists 46, _|]. exists (conv_char cv), []. split; [done|apply conv_char_ok].
  - apply Forall_cons in Hw as [Hx _]. eexists x, _. split; [done|lia].
Qed.

(** The memory of the format is not printed to. *)
Lemma printed_bytes l p s :
  bytes_at m0 p s → apart p (Z.of_nat (length s)) dst room → Z.of_nat (length l) ≤ room →
  bytes_at (smem (printed l)) p s.
Proof. apply bytes_at_apart. Qed.

Lemma fdoprnt_conv lj zero width max cv fuel p ap string l :
  let pc := PConv lj zero width max cv in
  piece_ok m0 dst room pc → bytes_at m0 p (render pc) → apart p (Z.of_nat (length (render pc))) dst room →
  Z.of_nat (length (l ++ piece_text pc)) ≤ room →
  ∃ string', fdoprnt_loop smem sprntf (S fuel) p (piece_args pc ++ ap) string (printed l) =
    fdoprnt_loop smem sprntf fuel (p + Z.of_nat (length (render pc))) ap string' (printed (l ++ piece_text pc)).
Proof.
  intros pc (Hw & Hwm & Hz & Hmax & Hcv) Hb Ha Hl.
  pose proof (printed_bytes l p _ Hb Ha ltac:(rewrite length_app in Hl; lia)) as Hbl.
  set (spec := (if lj then [45] else []) ++ (if zero then [48] else []) ++ width ++ max_digits max).
  assert (render pc = 37 :: spec ++ [conv_char cv]) as Er.
  { subst spec. cbn. by rewrite <-!app_assoc. }
  rewrite Er in Hbl. apply bytes_at_cons in Hbl as [H37 Hbl].
  cbn [fdoprnt_loop]. rewrite H37. cbn [mbind option_bind]. rewrite bool_decide_eq_false_2 by auto.
  destruct (directive_head lj zero width max cv Hw Hz) as (x & tl & Ex & Hx). fold spec in Ex.
  pose proof Hbl as Hbx. rewrite Ex in Hbx. destruct Hbx as [-> _]. cbn [mbind option_bind].
  rewrite bool_decide_eq_false_2 by done. cbn [piece_args pc app].
  destruct (conv_char_ok cv) as (C1 & C2 & C3 & C4 & C5 & C6).
  rewrite (fmt_flags_ok _ (p + 1) lj zero width max (conv_char cv)) by done.
  fold spec. cbn [mbind option_bind].
  apply bytes_at_app in Hbl as [_ [-> _]]. cbn [mbind option_bind].
  rewrite bool_decide_eq_false_2 by done.
  destruct (convert_ok cv (Flags lj (if zero then 48 else 32) (dec_value 0 width) (max_value max)) string ap l Hcv)
    as (str & string' & -> & Ht & Hlen). cbn [mbind option_bind leftjust fill fmin fmax].
  rewrite (output_ok str string' _ _ (conv_body cv) l); try done.
  - cbn [mbind option_bind leftjust fill fmin fmax]. exists string'.
    rewrite Er. cbn [length]. rewrite length_app. cbn [length].
    replace (p + 1 + Z.of_nat (length spec) + 1) with (p + Z.of_nat (S (length spec + 1))) by lia. done.
  - by eapply conv_chars.
  - cbn. destruct cv, zero; auto.
Qed.

Lemma fdoprnt_loop_ok ps : ∀ fuel p string l,
  Forall (piece_ok m0 dst room) ps → bytes_at m0 p (format ps ++ [0]) →
  apart p (Z.of_nat (length (format ps ++ [0]))) dst room →
  (length (format ps) < fuel)%nat → Z.of_nat (length (l ++ text ps)) ≤ room →
  fdoprnt_loop smem sprntf fuel p (arguments ps) string (printed l) = Some (printed (l ++ text ps)).
Proof.
  induction ps as [|pc ps IH]; intros fuel p string l Hok Hb Ha Hf Hl.
  - destruct fuel as [|fuel]; [cbn in Hf; lia|]. cbn [text fmap list_fmap concat] in *. rewrite app_nil_r in *.
    pose proof (printed_bytes l p _ Hb Ha Hl) as [H0 _].
    cbn [fdoprnt_loop]. rewrite H0. done.
  - apply Forall_cons in Hok as [Hpc Hok].
    change (text (pc :: ps)) with (piece_text pc ++ text ps) in *.
    change (format (pc :: ps)) with (render pc ++ format ps) in *.
    change (arguments (pc :: ps)) with (piece_args pc ++ arguments ps).
    rewrite app_assoc in Hl |- *. rewrite <-app_assoc in Hb, Ha.
    assert (0 < length (render pc))%nat by (destruct pc; cbn; lia).
    pose proof Hb as [Hb1 Hb2]%bytes_at_app.
    rewrite !length_app in Ha, Hf. cbn [length] in Ha. unfold apart in Ha.
    destruct fuel as [|fuel]; [lia|].
    assert (∃ string', fdoprnt_loop smem sprntf (S fuel) p (piece_args pc ++ arguments ps) string (printed l) =
      fdoprnt_loop smem sprntf fuel (p + Z.of_nat (length (render pc))) (arguments ps) string'
        (printed (l ++ piece_text pc))) as [string' ->].
    { pose proof (printed_bytes l p _ Hb1) as Hbl. unfold apart in Hbl.
      rewrite !length_app in Hl. destruct pc as [c| |lj zero width max cv].
      - exists string. destruct Hpc as [Hc Hc37]. destruct Hbl as [Hc0 _]; [lia|lia|].
        cbn [fdoprnt_loop render piece_text piece_args app length] in *. rewrite Hc0.
        cbn [mbind option_bind]. rewrite bool_decide_eq_true_2, bool_decide_eq_false_2 by lia.
        by rewrite sprntf_ok by lia.
      - exists string. destruct Hbl as (Hc0 & Hc1 & _); [lia|lia|].
        cbn [fdoprnt_loop render piece_text piece_args app length] in *. rewrite Hc0.
        cbn [mbind option_bind]. rewrite bool_decide_eq_false_2 by auto. rewrite Hc1.
        cbn [mbind option_bind]. rewrite bool_decide_eq_true_2 by done. rewrite sprntf_ok by lia.
        cbn [mbind option_bind]. by replace (p + 1 + 1) with (p + 2) by lia.
      - apply fdoprnt_conv; try done; [unfold apart; lia|rewrite length_app; lia]. }
    apply IH; try done; [|lia]. unfold apart. lia.
Qed.
End run.

(** Sprintf writes the text and a null, and nothing else. *)
Lemma sprintf_ok m str fmt ps :
  let room := Z.of_nat (length (text ps)) + 1 in
  mapped m str room → Forall (piece_ok m str room) ps →
  bytes_at m fmt (format ps ++ [0]) → apart fmt (Z.of_nat (length (format ps)) + 1) str room →
  sprintf m str fmt (arguments ps) = Some (str, write_bytes (text ps ++ [0]) str m).
Proof.
  intros room Hm Hok Hb Ha. unfold sprintf, fdoprnt. cbn [smem].
  replace (Sprst m str) with (printed m str []) by (unfold printed; cbn; f_equal; lia).
  rewrite (fdoprnt_loop_ok m str room Hm ps) by
    (done || (rewrite ?length_app, ?Nat2Z.inj_add; done) ||
     (cbn [app]; lia) || (apply bytes_size in Hb; rewrite length_app in Hb; unfold str_fuel; cbn in *; lia)).
  cbn [mbind option_bind app printed smem sptr].
  by rewrite (bst_next (text ps) str room) by (done || lia).
Qed.

(** * Reading back *)

Lemma numeral_digits n : 0 ≤ n < 10 ^ 10 → digits (numeral 10 dec_char n) ∧ numeral 10 dec_char n ≠ [].
Proof.
  intros Hn. rewrite (numeral_fuel 10 dec_char 9) by lia. split.
  - apply Forall_fmap. eapply Forall_impl; [by apply num_digits_bound|]. unfold dec_char. cbn. lia.
  - intros H%fmap_nil_inv. by apply num_digits_nonempty in H.
Qed.

Lemma numeral_value n : dec_value 0 (numeral 10 dec_char n) = n.
Proof. apply num_digits_value. Qed.

Lemma dec_value_zeros k : dec_value 0 (replicate k 48) = 0.
Proof. induction k as [|k IH]; [done|]. exact IH. Qed.

(** A signed number in a field, blanks or zeros in front, is read by atoi. *)
Lemma dec_field_atoi m p n zero width :
  INT_MIN < n ≤ INT_MAX →
  bytes_at m p (piece_text (PConv false zero width None (CDec n)) ++ [0]) → atoi m p = Some n.
Proof.
  intros Hn Hb. unfold INT_MIN, INT_MAX in Hn. cbn [piece_text conv_sign conv_body conv_max conv_fill] in Hb.
  rewrite field_alt in Hb. change (cut 0 ?l) with l in Hb. cbn zeta in Hb.
  set (sg := bool_decide (n < 0)) in *. set (ds := numeral 10 dec_char (Z.abs n)) in *.
  destruct (numeral_digits (Z.abs n) ltac:(lia)) as [Hd Hne]. fold ds in Hd, Hne.
  pose proof (numeral_value (Z.abs n)) as Hv. fold ds in Hv.
  assert (∃ f, f = sg ∧ sign (if sg then [45] else []) f) as (f & Hf & Hsg)
    by (exists sg; split; [done|]; destruct sg; constructor).
  assert ((if f then - Z.abs n else Z.abs n) = n) as Hres.
  { subst f sg. case_bool_decide; lia. }
  destruct zero.
  - change (bool_decide (48 = 48)) with true in Hb. cbn iota in Hb.
    rewrite (atoi_ok m p [] (if sg then [45] else []) f (replicate (fills (dec_value 0 width) sg ds) 48 ++ ds) 0); try done.
    + by rewrite dec_value_app, dec_value_zeros, Hv, Hres.
    + cbn [app]. rewrite <-!app_assoc in *. done.
    + constructor.
    + by intros [_ ?]%app_eq_nil.
    + apply Forall_app. split; [|done]. apply Forall_replicate. lia.
    + rewrite dec_value_app, dec_value_zeros, Hv. unfold INT_MAX. lia.
  - change (bool_decide (32 = 48)) with false in Hb. cbn iota in Hb.
    rewrite (atoi_ok m p (replicate (fills (dec_value 0 width) sg ds) 32) (if sg then [45] else []) f ds 0); try done.
    + by rewrite Hv, Hres.
    + rewrite <-!app_assoc in Hb. done.
    + apply Forall_replicate. by left.
    + rewrite Hv. unfold INT_MAX. lia.
Qed.

(** * A numeral that does not fit *)

Lemma num_digits_long b k : ∀ fuel n,
  2 ≤ b → b ^ Z.of_nat k ≤ n → (k ≤ fuel)%nat → (S k ≤ length (num_digits fuel b n))%nat.
Proof.
  induction k as [|k IH]; intros fuel n Hb Hn Hk.
  - pose proof (num_digits_nonempty fuel b n). destruct (num_digits fuel b n); [done|cbn; lia].
  - destruct fuel as [|fuel]; [lia|]. rewrite Nat2Z.inj_succ, Z.pow_succ_r in Hn by lia.
    assert (0 < b ^ Z.of_nat k) by (apply Z.pow_pos_nonneg; lia).
    cbn [num_digits]. rewrite bool_decide_eq_false_2 by nia. rewrite length_app. cbn [length].
    specialize (IH fuel (n / b) Hb). rewrite Nat.add_1_r. apply le_n_S, IH; [|lia].
    apply Z.div_le_lower_bound; lia.
Qed.

Lemma sb_write_full l : ∀ i b, i ≤ 20 < i + Z.of_nat (length l) → sb_write l i b = None.
Proof.
  induction l as [|c l IH]; intros i b Hi; cbn [sb_write length] in *; [lia|].
  case_bool_decide; [|done]. apply IH. lia.
Qed.

Lemma fdoprnt_bin_fault m dst fmt n :
  bytes_at m fmt [37; 98; 0] → 2 ^ 19 ≤ n < 2 ^ 31 → sprintf m dst fmt [n] = None.
Proof.
  intros Hb Hn. pose proof (bytes_size _ _ _ Hb) as Hsz. cbn [length] in Hsz.
  unfold sprintf, fdoprnt, str_fuel. cbn [smem].
  destruct Hb as (H1 & H2 & _). cbn [fdoprnt_loop smem]. rewrite H1. cbn [mbind option_bind].
  rewrite bool_decide_eq_false_2 by auto. rewrite H2. cbn [mbind option_bind].
  rewrite bool_decide_eq_false_2 by lia.
  rewrite (fmt_flags_ok m (fmt + 1) false false [] None 98);
    [|by split|by vm_compute|done..|by split_and!; [constructor|done|]|done].
  cbn [mbind option_bind length app max_digits]. rewrite Z.add_0_r, H2. cbn [mbind option_bind].
  rewrite bool_decide_eq_false_2 by lia. unfold convert.
  change (bool_decide (98 = 99)) with false. change (bool_decide (98 = 115)) with false.
  rewrite bool_decide_eq_true_2 by (by apply (bool_decide_unpack _); vm_compute).
  cbn iota. cbn [va_arg mbind option_bind]. rewrite s32_id by lia.
  change (convert_num 98 n) with (Some (prtl2 n, false)). rewrite prtl2_ok. cbn [mbind option_bind].
  rewrite sb_write_full; [done|]. rewrite length_app, u32_id by lia. unfold numeral.
  rewrite length_fmap. pose proof (num_digits_long 2 19 40 n). cbn [length]. lia.
Qed.
