(* ===== verification/Dotted.v ===== *)
(** net/dot2ip.c: the dotted decimal form of an IP address, read back from what
    sprintf prints. *)

From S2P Require Import Prelude Types CString Printf PrintfSpec.

(** The characters of a segment, four at most: [None] for an error, or the address
    behind them, the value and the last character. *)
Fixpoint dot_seg (k : nat) (nch : Z) (m : bmem) (dotted val ch : Z) : option (option (Z * Z * Z)) :=
  match k with
  | O => Some (Some (dotted, val, ch))
  | S k =>
    ch ← m !! dotted;
    let dotted := dotted + 1 in
    if bool_decide (ch = 0) || bool_decide (ch = 46) then
      if bool_decide (nch = 0) then Some None else Some (Some (dotted, val, ch))
    else if bool_decide (ch < 48) || bool_decide (57 < ch) then Some None
    else dot_seg k (nch + 1) m dotted (10 * val + (ch - 48)) ch
  end.

(** The segments, four at most: the number of them ([seg]), the address, the last
    character. *)
Fixpoint dot_loop (k : nat) (seg : Z) (m : bmem) (dotted ipaddr ch : Z) : option (option (Z * Z * Z)) :=
  match k with
  | O => Some (Some (seg, ipaddr, ch))
  | S k =>
    r ← dot_seg 4 0 m dotted 0 ch;
    match r with
    | None => Some None
    | Some (dotted, val, ch) =>
      if bool_decide (255 < val) then Some None
      else
        let ipaddr := Z.lor (u32 (Z.shiftl ipaddr 8)) val in
        if bool_decide (ch = 0) then Some (Some (seg, ipaddr, ch))
        else dot_loop k (seg + 1) m dotted ipaddr ch
    end
  end.

(** The result, and what is stored in [*result] (only when it is [OK]). *)
Definition dot2ip (m : bmem) (dotted : Z) : option (Z * option Z) :=
  r ← dot_loop 4 0 m dotted 0 0;
  match r with
  | None => Some (SYSERR, None)
  | Some (seg, ipaddr, ch) =>
    if bool_decide (seg ≠ 3) || bool_decide (ch ≠ 0) then Some (SYSERR, None)
    else Some (OK, Some ipaddr)
  end.

(** * Reading a segment *)

Lemma dot_seg_ok ds e : ∀ k nch m p v ch,
  bytes_at m p (ds ++ [e]) → digits ds → (e = 0 ∨ e = 46) → (length ds < k)%nat → 0 ≤ nch →
  0 < nch + Z.of_nat (length ds) →
  dot_seg k nch m p v ch = Some (Some (p + Z.of_nat (length ds) + 1, dec_value v ds, e)).
Proof.
  induction ds as [|c ds IH]; intros [|k] nch m p v ch Hb Hd He Hk Hn Hp; cbn [length dot_seg app] in *; try lia.
  - destruct Hb as [-> _]. cbn [mbind option_bind].
    assert (bool_decide (e = 0) || bool_decide (e = 46) = true) as -> by (destruct He as [-> | ->]; done).
    rewrite bool_decide_eq_false_2 by lia. do 4 f_equal. lia.
  - destruct Hb as [-> Hb]. apply Forall_cons in Hd as [Hc Hd]. cbn [mbind option_bind].
    rewrite !(bool_decide_eq_false_2 (c = _)), !(bool_decide_eq_false_2 (_ < _)) by lia. cbn [orb].
    rewrite IH by (done || lia). do 4 f_equal; [lia|]. cbn. f_equal. lia.
Qed.

(** The four numbers of an address, as sprintf prints them. *)
Definition octet (x : Z) : list Z := numeral 10 dec_char x.

Lemma octet_ok x : 0 ≤ x < 256 →
  digits (octet x) ∧ dec_value 0 (octet x) = x ∧ (0 < length (octet x) ≤ 3)%nat.
Proof.
  intros Hx. destruct (numeral_digits x ltac:(lia)) as [Hd Hn]. split_and!; [done|apply numeral_value| |].
  - unfold octet. destruct (numeral 10 dec_char x); [done|cbn; lia].
  - apply (numeral_length 10 dec_char 2); lia.
Qed.

Lemma dot_seg_octet x e m p ch :
  0 ≤ x < 256 → (e = 0 ∨ e = 46) → bytes_at m p (octet x ++ [e]) →
  dot_seg 4 0 m p 0 ch = Some (Some (p + Z.of_nat (length (octet x)) + 1, x, e)).
Proof.
  intros Hx He Hb. destruct (octet_ok x Hx) as (Hd & Hv & Hl).
  rewrite (dot_seg_ok (octet x) e) by (done || lia). by rewrite Hv.
Qed.

(** A further byte of an address. *)
Lemma ip_byte ip x : 0 ≤ ip < 2 ^ 24 → 0 ≤ x < 256 → Z.lor (u32 (Z.shiftl ip 8)) x = ip * 256 + x.
Proof.
  intros Hip Hx. rewrite Z.shiftl_mul_pow2 by lia. rewrite u32_id by lia.
  rewrite Z.lor_comm, lor_low by lia. lia.
Qed.

(** A segment that is not the last one. *)
Lemma dot_loop_octet k seg m p ip ch x :
  0 ≤ x < 256 → 0 ≤ ip < 2 ^ 24 → bytes_at m p (octet x ++ [46]) →
  dot_loop (S k) seg m p ip ch =
    dot_loop k (seg + 1) m (p + Z.of_nat (length (octet x)) + 1) (ip * 256 + x) 46.
Proof.
  intros Hx Hip Hb. cbn [dot_loop]. rewrite (dot_seg_octet x 46) by auto. cbn [mbind option_bind].
  rewrite bool_decide_eq_false_2 by lia. rewrite ip_byte by done. done.
Qed.

Definition dotted_text (a b c d : Z) : list Z :=
  octet a ++ [46] ++ octet b ++ [46] ++ octet c ++ [46] ++ octet d.

(** Every address in dotted form is read. *)
Lemma dot2ip_ok m p a b c d :
  0 ≤ a < 256 → 0 ≤ b < 256 → 0 ≤ c < 256 → 0 ≤ d < 256 →
  bytes_at m p (dotted_text a b c d ++ [0]) →
  dot2ip m p = Some (OK, Some (a * 2 ^ 24 + b * 2 ^ 16 + c * 2 ^ 8 + d)).
Proof.
  intros Ha Hb Hc Hd Hm. unfold dotted_text in Hm. rewrite <-!app_assoc in Hm.
  assert (∀ q x l, bytes_at m q (octet x ++ [46] ++ l) →
    bytes_at m q (octet x ++ [46]) ∧ bytes_at m (q + Z.of_nat (length (octet x)) + 1) l) as Hs.
  { intros q x l H. apply bytes_at_app in H as [H1 H2]. apply bytes_at_app in H2 as [H2 H3].
    split; [by apply bytes_at_app|exact H3]. }
  apply Hs in Hm as [H1 Hm]. apply Hs in Hm as [H2 Hm]. apply Hs in Hm as [H3 H4].
  unfold dot2ip. rewrite (dot_loop_octet 3 0 m p 0 0 a), (dot_loop_octet 2 _ m _ _ _ b),
    (dot_loop_octet 1 _ m _ _ _ c) by (done || lia).
  cbn [dot_loop]. rewrite (dot_seg_octet d 0) by auto. cbn [mbind option_bind].
  rewrite bool_decide_eq_false_2 by lia. rewrite ip_byte by lia.
  change (bool_decide (0 = 0)) with true. cbn [mbind option_bind]. cbn.
  do 3 f_equal. lia.
Qed.

(** A segment of four digits ends without a dot: the comment of dot2ip.c asks for one
    to three digits and for dots. *)
Lemma dot2ip_no_dots :
  dot2ip (write_bytes ([48; 48; 48; 49; 48; 48; 48; 50; 48; 48; 48; 51; 52] ++ [0]) 8 ∅) 8 =
    Some (OK, Some (1 * 2 ^ 24 + 2 * 2 ^ 16 + 3 * 2 ^ 8 + 4)).
Proof. vm_compute. reflexivity. Qed.

(** The format with which xsh_netinfo.c prints an address, "%d.%d.%d.%d". *)
Definition dotted_pieces (a b c d : Z) : list piece :=
  let num x := PConv false false [] None (CDec x) in
  [num a; PLit 46; num b; PLit 46; num c; PLit 46; num d].

Lemma dec_piece_text x : 0 ≤ x → piece_text (PConv false false [] None (CDec x)) = octet x.
Proof.
  intros Hx. cbn [piece_text conv_sign conv_body conv_max conv_fill].
  rewrite Z.abs_eq, bool_decide_eq_false_2 by lia. reflexivity.
Qed.

Lemma dotted_pieces_text a b c d :
  0 ≤ a → 0 ≤ b → 0 ≤ c → 0 ≤ d → text (dotted_pieces a b c d) = dotted_text a b c d.
Proof.
  intros Ha Hb Hc Hd. unfold text, dotted_pieces, dotted_text.
  cbn [fmap list_fmap concat]. rewrite !dec_piece_text by lia.
  cbn [piece_text]. by rewrite app_nil_r.
Qed.

Lemma dotted_pieces_ok m str room a b c d :
  0 ≤ a < 256 → 0 ≤ b < 256 → 0 ≤ c < 256 → 0 ≤ d < 256 →
  Forall (piece_ok m str room) (dotted_pieces a b c d).
Proof.
  intros. repeat constructor; try lia; try done.
Qed.

(** What sprintf makes of an address, dot2ip reads. *)
Lemma sprintf_dot2ip m str fmt a b c d :
  let ps := dotted_pieces a b c d in
  let room := Z.of_nat (length (dotted_text a b c d)) + 1 in
  0 ≤ a < 256 → 0 ≤ b < 256 → 0 ≤ c < 256 → 0 ≤ d < 256 →
  mapped m str room → bytes_at m fmt (format ps ++ [0]) →
  apart fmt (Z.of_nat (length (format ps)) + 1) str room →
  ∃ m', sprintf m str fmt (arguments ps) = Some (str, m') ∧
    dot2ip m' str = Some (OK, Some (a * 2 ^ 24 + b * 2 ^ 16 + c * 2 ^ 8 + d)).
Proof.
  intros ps room Ha Hb Hc Hd Hm Hf Hap.
  assert (text ps = dotted_text a b c d) as Ht by (apply dotted_pieces_text; lia).
  eexists. split.
  - apply (sprintf_ok m str fmt ps); rewrite ?Ht; try done. by apply dotted_pieces_ok.
  - apply dot2ip_ok; try done. rewrite Ht. apply write_bytes_at.
Qed.
