(* ===== verification/Shell.v ===== *)
(** The shell's lexical analyser: shell/lexan.c and the constants of shell.h.

    The line and the token buffer are in a memory of bytes; the arrays of token
    indices and token types are tables, and a store outside them is a fault. *)

From S2P Require Import Prelude Types DevTypes CString.

Definition SHELL_BUFLEN : Z := TY_IBUFLEN + 1.
Definition SHELL_MAXTOK : Z := 32.
Definition SH_NEWLINE : Z := 10.
Definition SH_AMPER : Z := 38.
Definition SH_BLANK : Z := 32.
Definition SH_TAB : Z := 9.
Definition SH_SQUOTE : Z := 39.
Definition SH_DQUOTE : Z := 34.
Definition SH_LESS : Z := 60.
Definition SH_GREATER : Z := 62.
Definition SH_TOK_AMPER : Z := 0.
Definition SH_TOK_LESS : Z := 1.
Definition SH_TOK_GREATER : Z := 2.
Definition SH_TOK_OTHER : Z := 3.

(** What lexan writes: the token buffer (in memory), [tok], [toktyp] and [*tlen]. *)
Record lexst := Lexst { lmem : bmem; ltok : gmap Z Z; ltoktyp : gmap Z Z; ltlen : Z }.

Definition set_tok (i v : Z) (s : lexst) : option lexst :=
  _ ← ltok s !! i; Some (Lexst (lmem s) (<[i := v]> (ltok s)) (ltoktyp s) (ltlen s)).
Definition set_toktyp (i v : Z) (s : lexst) : option lexst :=
  _ ← ltoktyp s !! i; Some (Lexst (lmem s) (ltok s) (<[i := v]> (ltoktyp s)) (ltlen s)).
Definition set_tokbuf (a v : Z) (s : lexst) : option lexst :=
  m ← bst a v (lmem s); Some (Lexst m (ltok s) (ltoktyp s) (ltlen s)).
Definition set_tlen (v : Z) (s : lexst) : lexst := Lexst (lmem s) (ltok s) (ltoktyp s) v.

Definition is_blank (c : Z) : bool := bool_decide (c = SH_BLANK) || bool_decide (c = SH_TAB).
Definition is_end (c : Z) : bool := bool_decide (c = SH_NEWLINE) || bool_decide (c = 0).

(** [while ( ( *p == SH_BLANK) || ( *p == SH_TAB) ) p++;] *)
Fixpoint lex_skip (fuel : nat) (m : bmem) (p : Z) : option Z :=
  match fuel with
  | O => None
  | S fuel => c ← m !! p; if is_blank c then lex_skip fuel m (p + 1) else Some p
  end.

(** The loop that copies a quoted string; the last character read, [p], [tbindex]. *)
Fixpoint lex_quoted (fuel : nat) (quote tokbuf p tbindex : Z) (s : lexst)
    : option (Z * Z * Z * lexst) :=
  match fuel with
  | O => None
  | S fuel =>
    ch ← lmem s !! p;
    if bool_decide (ch ≠ quote) && bool_decide (ch ≠ SH_NEWLINE) && bool_decide (ch ≠ 0) then
      s ← set_tokbuf (tokbuf + tbindex) ch s;
      lex_quoted fuel quote tokbuf (p + 1) (tbindex + 1) s
    else Some (ch, p + 1, tbindex, s)
  end.

(** The characters that go on with a token that is not quoted. *)
Definition is_word (ch : Z) : bool :=
  bool_decide (ch ≠ SH_NEWLINE) && bool_decide (ch ≠ 0) && bool_decide (ch ≠ SH_LESS) &&
  bool_decide (ch ≠ SH_GREATER) && bool_decide (ch ≠ SH_BLANK) && bool_decide (ch ≠ SH_TAB) &&
  bool_decide (ch ≠ SH_AMPER) && bool_decide (ch ≠ SH_SQUOTE) && bool_decide (ch ≠ SH_DQUOTE).

Fixpoint lex_word (fuel : nat) (tokbuf p tbindex : Z) (s : lexst) : option (Z * Z * Z * lexst) :=
  match fuel with
  | O => None
  | S fuel =>
    ch ← lmem s !! p;
    if is_word ch then
      s ← set_tokbuf (tokbuf + tbindex) ch s;
      lex_word fuel tokbuf (p + 1) (tbindex + 1) s
    else Some (ch, p, tbindex, s)
  end.

(** The type of a token of one character. *)
Definition op_type (ch : Z) : option Z :=
  if bool_decide (ch = SH_AMPER) then Some SH_TOK_AMPER
  else if bool_decide (ch = SH_LESS) then Some SH_TOK_LESS
  else if bool_decide (ch = SH_GREATER) then Some SH_TOK_GREATER
  else None.

Definition is_quote (ch : Z) : bool := bool_decide (ch = SH_SQUOTE) || bool_decide (ch = SH_DQUOTE).

(** A token that starts with [ch] at [p]: where the line goes on, and [tbindex], or
    [None] for a syntax error. *)
Definition lex_token (ch tokbuf p ntok tbindex : Z) (s : lexst) : option (option (Z * Z) * lexst) :=
  s ← set_tok ntok tbindex s;
  match op_type ch with
  | Some t =>
    s ← set_toktyp ntok t s;
    s ← set_tokbuf (tokbuf + tbindex) ch s;
    s ← set_tokbuf (tokbuf + (tbindex + 1)) 0 s;
    Some (Some (p + 1, tbindex + 2), s)
  | None =>
    s ← set_toktyp ntok SH_TOK_OTHER s;
    if is_quote ch then
      '(ch2, p, tbindex, s) ← lex_quoted (str_fuel (lmem s)) ch tokbuf (p + 1) tbindex s;
      if bool_decide (ch2 ≠ ch) then Some (None, s)
      else
        s ← set_tokbuf (tokbuf + tbindex) 0 s;
        Some (Some (p, tbindex + 1), s)
    else
      s ← set_tokbuf (tokbuf + tbindex) ch s;
      '(ch, p, tbindex, s) ← lex_word (str_fuel (lmem s)) tokbuf (p + 1) (tbindex + 1) s;
      if is_quote ch || bool_decide (ch = SH_LESS) || bool_decide (ch = SH_GREATER) then Some (None, s)
      else
        s ← set_tokbuf (tokbuf + tbindex) 0 s;
        Some (Some (p, tbindex + 1), s)
  end.

(** The loop over the tokens: the number of tokens, or [SYSERR]. *)
Fixpoint lexan_loop (fuel : nat) (tokbuf p ntok tbindex : Z) (s : lexst) : option (Z * lexst) :=
  match fuel with
  | O => None
  | S fuel =>
    c ← lmem s !! p;
    if is_end c then Some (ntok, set_tlen tbindex s)
    else if bool_decide (SHELL_MAXTOK ≤ ntok) then Some (SYSERR, s)
    else
      p ← lex_skip (str_fuel (lmem s)) (lmem s) p;
      ch ← lmem s !! p;
      if is_end ch then Some (ntok, set_tlen tbindex s)
      else
        '(r, s) ← lex_token ch tokbuf p ntok tbindex s;
        match r with
        | None => Some (SYSERR, s)
        | Some (p, tbindex) => lexan_loop fuel tokbuf p (ntok + 1) tbindex s
        end
  end.

(** [len] is not used. *)
Definition lexan (line len tokbuf : Z) (s : lexst) : option (Z * lexst) :=
  lexan_loop (str_fuel (lmem s)) tokbuf line 0 0 s.
