(* ===== verification/ShellLex.v ===== *)
(** The lexical analyser of the shell against the grammar of command lines:
    [lexes] says which tokens a line consists of, and lexan finds them. *)

From S2P Require Import Prelude Types CString Shell.

(** * The grammar *)

(** A token: its type and its characters (without the quotes). *)
Abbreviation token := (Z * list Z)%type.

Definition words (w : list Z) : Prop := Forall (λ c, is_word c = true) w.

(** A token that is not quoted is followed by a blank, an ampersand or nothing. *)
Definition word_end (rest : list Z) : Prop :=
  ∀ c r, rest = c :: r → is_blank c = true ∨ c = SH_AMPER.

Inductive lexes : list Z → list token → Prop :=
  | lexes_end b : blanks b → lexes b []
  | lexes_op b c t rest toks :
      blanks b → op_type c = Some t → lexes rest toks → lexes (b ++ c :: rest) ((t, [c]) :: toks)
  | lexes_quoted b q str rest toks :
      blanks b → is_quote q = true → q ∉ str → lexes rest toks →
      lexes (b ++ q :: str ++ q :: rest) ((SH_TOK_OTHER, str) :: toks)
  | lexes_word b c w rest toks :
      blanks b → words (c :: w) → word_end rest → lexes rest toks →
      lexes (b ++ c :: w ++ rest) ((SH_TOK_OTHER, c :: w) :: toks).

(** The characters of a line: no newline, no null. *)
Definition line_chars (cs : list Z) : Prop := Forall (λ c, is_end c = false) cs.

(** The token buffer: the tokens one after the other, each with a null. *)
Definition tokdata (toks : list token) : list Z := concat ((λ t, t.2 ++ [0]) <$> toks).

(** ** Splitting a line *)

(** The characters that must not follow a token directly. *)
Definition bad_follow (c : Z) : bool :=
  is_quote c || bool_decide (c = SH_LESS) || bool_decide (c = SH_GREATER).

(** A character is one of the nine special ones, or belongs to a word. *)
Lemma char_cases c :
  (c = 10 ∨ c = 0 ∨ c = 60 ∨ c = 62 ∨ c = 32 ∨ c = 9 ∨ c = 38 ∨ c = 39 ∨ c = 34) ∨
  (is_word c = true ∧ is_blank c = false ∧ is_quote c = false ∧ is_end c = false ∧ op_type c = None ∧
   bad_follow c = false ∧ c ≠ SH_AMPER ∧ c ≠ 32 ∧ c ≠ 9).
Proof.
  destruct (decide (c = 10 ∨ c = 0 ∨ c = 60 ∨ c = 62 ∨ c = 32 ∨ c = 9 ∨ c = 38 ∨ c = 39 ∨ c = 34)) as [H|H];
    [by left|right].
  unfold is_word, is_blank, bad_follow, is_quote, is_end, op_type, SH_NEWLINE, SH_AMPER, SH_BLANK, SH_TAB,
    SH_SQUOTE, SH_DQUOTE, SH_LESS, SH_GREATER.
  rewrite !(bool_decide_eq_false_2 (c = _)), !(bool_decide_eq_true_2 (c ≠ _)) by lia.
  split_and!; (done || lia).
Qed.

Ltac char_tac c :=
  destruct (char_cases c) as [[->|[->|[->|[->|[->|[->|[->|[->| ->]]]]]]]]|(?&?&?&?&?&?&?&?&?)];
  try done; try (by vm_compute); try congruence; auto.

(** The kinds of characters exclude one another. *)
Lemma word_kind c : is_word c = true → op_type c = None ∧ is_quote c = false ∧ is_blank c = false.
Proof. intros H. split_and!; char_tac c. Qed.
Lemma quote_kind c : is_quote c = true → op_type c = None ∧ is_word c = false ∧ is_blank c = false.
Proof. intros H. split_and!; char_tac c. Qed.
Lemma op_kind c t : op_type c = Some t → is_quote c = false ∧ is_word c = false ∧ is_blank c = false.
Proof. intros H. split_and!; char_tac c. Qed.
Lemma end_kind c : is_end c = true → is_quote c = false ∧ is_word c = false ∧ op_type c = None.
Proof. intros H. split_and!; char_tac c. Qed.
Lemma other_kind c : is_end c = false → is_blank c = false → op_type c = None → is_quote c = false → is_word c = true.
Proof. intros H1 H2 H3 H4. char_tac c. Qed.

Lemma follow_good c :
  is_word c = false → is_end c = false → bad_follow c = false → is_blank c = true ∨ c = SH_AMPER.
Proof. intros H1 H2 H3. char_tac c. Qed.
Lemma follow_bad c : bad_follow c = true → is_blank c = false ∧ c ≠ SH_AMPER.
Proof. intros H. split; char_tac c. Qed.
Lemma is_blank_end c : is_end c = true → is_blank c = false.
Proof. intros H. char_tac c. Qed.
Lemma end_follow c : is_end c = true → bad_follow c = false.
Proof. intros H. char_tac c. Qed.

Lemma is_blank_true c : is_blank c = true ↔ c = 32 ∨ c = 9.
Proof. split; [|by intros [-> | ->]]. intros H. char_tac c. Qed.

Lemma split_span (f : Z → bool) cs :
  ∃ b r, cs = b ++ r ∧ Forall (λ c, f c = true) b ∧ ∀ c r', r = c :: r' → f c = false.
Proof.
  induction cs as [|c cs (b & r & -> & Hb & Hr)]; [by exists [], []|].
  destruct (f c) eqn:Hc.
  - exists (c :: b), r. split_and!; [done|by constructor|done].
  - exists [], (c :: b ++ r). split_and!; [done|constructor|]. by intros ? ? [= <- <-].
Qed.

Lemma span_unique (f : Z → bool) b b' r r' :
  Forall (λ c, f c = true) b → Forall (λ c, f c = true) b' →
  (∀ c q, r = c :: q → f c = false) →
  (∀ c q, r' = c :: q → f c = false) →
  b ++ r = b' ++ r' → b = b' ∧ r = r'.
Proof.
  revert b'. induction b as [|c b IH]; intros [|c' b'] Hb Hb' Hr Hr' E; cbn in *.
  - done.
  - apply Forall_cons in Hb' as [? _]. by rewrite (Hr c' _ E) in *.
  - apply Forall_cons in Hb as [? _]. by rewrite (Hr' c _ (eq_sym E)) in *.
  - injection E as -> E. apply Forall_cons in Hb as [_ ?]. apply Forall_cons in Hb' as [_ ?].
    by destruct (IH b') as [-> ->].
Qed.

Lemma blanks_bool b : blanks b ↔ Forall (λ c, is_blank c = true) b.
Proof. unfold blanks. apply Forall_iff. intros c. by rewrite is_blank_true. Qed.

Lemma split_first (q : Z) cs : q ∈ cs → ∃ str rest, cs = str ++ q :: rest ∧ q ∉ str.
Proof.
  induction cs as [|c cs IH]; [by intros ?%elem_of_nil|]. intros [->|Hq]%elem_of_cons.
  - exists [], cs. split; [done|apply not_elem_of_nil].
  - destruct (decide (c = q)) as [->|Hne].
    + exists [], cs. split; [done|apply not_elem_of_nil].
    + destruct (IH Hq) as (str & rest & -> & Hn). exists (c :: str), rest.
      split; [done|]. apply not_elem_of_cons. auto.
Qed.

Lemma first_unique (q : Z) s s' r r' :
  q ∉ s → q ∉ s' → s ++ q :: r = s' ++ q :: r' → s = s' ∧ r = r'.
Proof.
  revert s'. induction s as [|c s IH]; intros [|c' s'] Hs Hs' E; cbn in *.
  - by injection E as ->.
  - injection E as -> _. by destruct Hs'; constructor.
  - injection E as -> _. by destruct Hs; constructor.
  - injection E as -> E. apply not_elem_of_cons in Hs as [_ ?]. apply not_elem_of_cons in Hs' as [_ ?].
    by destruct (IH s') as [-> ->].
Qed.

(** The tokens of a line that starts with [b ++ c :: r], [c] not a blank. *)
Lemma lexes_inv b c r toks :
  blanks b → is_blank c = false → lexes (b ++ c :: r) toks →
  (∃ t toks', op_type c = Some t ∧ toks = ((t, [c]) :: toks') ∧ lexes r toks') ∨
  (∃ str rest toks', is_quote c = true ∧ (r = str ++ c :: rest) ∧ (c ∉ str) ∧
     toks = ((SH_TOK_OTHER, str) :: toks') ∧ lexes rest toks') ∨
  (∃ w rest toks', words (c :: w) ∧ r = w ++ rest ∧ word_end rest ∧
     toks = ((SH_TOK_OTHER, c :: w) :: toks') ∧ lexes rest toks').
Proof.
  intros Hb Hc Hl. apply blanks_bool in Hb.
  assert (∀ b' c' r', blanks b' → is_blank c' = false → b' ++ c' :: r' = b ++ c :: r →
    c' = c ∧ r' = r) as Hu.
  { intros b' c' r' Hb' Hc' E. apply blanks_bool in Hb'.
    destruct (span_unique is_blank b' b (c' :: r') (c :: r)) as [_ E']; try done;
      [by intros ? ? [= <- <-]..|]. by injection E' as -> ->. }
  remember (b ++ c :: r) as cs eqn:Ecs. destruct Hl as [b' Hb'|b' c' t rest toks Hb' Ht Hl|
    b' q str rest toks Hb' Hq Hn Hl|b' c' w rest toks Hb' Hw He Hl].
  - subst. apply blanks_bool, Forall_app in Hb' as [_ [? _]%Forall_cons]. congruence.
  - destruct (Hu b' c' rest) as [-> ->]; [done| |done|].
    { by apply op_kind in Ht as (_ & _ & ?). }
    left. by exists t, toks.
  - destruct (Hu b' q (str ++ q :: rest)) as [-> <-]; [done| |done|].
    { by apply quote_kind in Hq as (_ & _ & ?). }
    right. left. by exists str, rest, toks.
  - destruct (Hu b' c' (w ++ rest)) as [-> <-]; [done| |done|].
    { apply Forall_cons in Hw as [Hw _]. by apply word_kind in Hw as (_ & _ & ?). }
    right. right. by exists w, rest, toks.
Qed.

(** * Running lexan *)

(** The line at [p] and the room for the tokens. *)
Section lex.
Context (m0 : bmem) (tokbuf room : Z).
Hypothesis Hroom : mapped m0 tokbuf room.

(** The memory in which the bytes [l] are in the token buffer. *)
Definition tbmem (l : list Z) : bmem := write_bytes l tokbuf m0.

(** The line keeps its characters. *)
Lemma tbmem_line l p s :
  bytes_at m0 p s → apart p (Z.of_nat (length s)) tokbuf room → Z.of_nat (length l) ≤ room →
  bytes_at (tbmem l) p s.
Proof. apply bytes_at_apart. Qed.

(** Storing the next byte of the token buffer. *)
Lemma set_tokbuf_ok l c s :
  lmem s = tbmem l → Z.of_nat (length l) < room →
  set_tokbuf (tokbuf + Z.of_nat (length l)) c s =
    Some (Lexst (tbmem (l ++ [c])) (ltok s) (ltoktyp s) (ltlen s)).
Proof. intros Hs Hl. unfold set_tokbuf. rewrite Hs. unfold tbmem. by rewrite (bst_next l tokbuf room). Qed.

Lemma lex_skip_ok b c : ∀ fuel m p,
  blanks b → is_blank c = false → bytes_at m p (b ++ [c]) → (length b < fuel)%nat →
  lex_skip fuel m p = Some (p + Z.of_nat (length b)).
Proof.
  induction b as [|x b IH]; intros [|fuel] m p Hb Hc Hm Hf; cbn in *; try lia; destruct Hm as [Hx Hm].
  - rewrite Hx. cbn. rewrite Hc. f_equal. lia.
  - apply Forall_cons in Hb as [?%is_blank_true Hb]. rewrite Hx. cbn. rewrite H.
    rewrite IH by (done || lia). f_equal. lia.
Qed.

Lemma lex_quoted_ok str e q : ∀ fuel l p s,
  lmem s = tbmem l → bytes_at m0 p (str ++ [e]) → line_chars str → q ∉ str →
  (e = q ∨ is_end e = true) → (length str < fuel)%nat →
  Z.of_nat (length l + length str) ≤ room →
  apart p (Z.of_nat (length str) + 1) tokbuf room →
  lex_quoted fuel q tokbuf p (Z.of_nat (length l)) s =
    Some (e, p + Z.of_nat (length str) + 1, Z.of_nat (length (l ++ str)),
      Lexst (tbmem (l ++ str)) (ltok s) (ltoktyp s) (ltlen s)).
Proof.
  induction str as [|c str IH]; intros [|fuel] l p s Hs Hm Hcs Hq He Hf Hl Ha; cbn [length] in *; try lia.
  - cbn in *. destruct Hm as [Hm _]. unfold apart in Ha.
    rewrite Hs. unfold tbmem at 1. rewrite write_bytes_out, Hm by lia. cbn.
    rewrite app_nil_r, Z.add_0_r. destruct s; cbn in *; subst.
    destruct He as [->|He]; [by rewrite bool_decide_eq_false_2 by auto|].
    replace (bool_decide (e ≠ q) && bool_decide (e ≠ SH_NEWLINE) && bool_decide (e ≠ 0)) with false; [done|].
    unfold is_end in He. repeat case_bool_decide; naive_solver.
  - cbn in Hm. destruct Hm as [Hx Hm]. apply Forall_cons in Hcs as [Hc Hcs].
    apply not_elem_of_cons in Hq as [Hcq Hq]. unfold apart in Ha. cbn [lex_quoted].
    rewrite Hs. unfold tbmem at 1. rewrite write_bytes_out, Hx by lia. cbn [mbind option_bind].
    replace (bool_decide (c ≠ q) && bool_decide (c ≠ SH_NEWLINE) && bool_decide (c ≠ 0)) with true.
    2: { unfold is_end in Hc. repeat case_bool_decide; naive_solver. }
    rewrite (set_tokbuf_ok l) by (done || lia). cbn [mbind option_bind].
    replace (Z.of_nat (length l) + 1) with (Z.of_nat (length (l ++ [c]))) by (rewrite length_app; cbn; lia).
    rewrite IH; try done; try lia.
    + rewrite <-app_assoc. cbn. do 4 f_equal; lia.
    + rewrite length_app. cbn. lia.
    + unfold apart. lia.
Qed.

Lemma lex_word_ok str e : ∀ fuel l p s,
  lmem s = tbmem l → bytes_at m0 p (str ++ [e]) → words str → is_word e = false →
  (length str < fuel)%nat → Z.of_nat (length l + length str) ≤ room →
  apart p (Z.of_nat (length str) + 1) tokbuf room →
  lex_word fuel tokbuf p (Z.of_nat (length l)) s =
    Some (e, p + Z.of_nat (length str), Z.of_nat (length (l ++ str)),
      Lexst (tbmem (l ++ str)) (ltok s) (ltoktyp s) (ltlen s)).
Proof.
  induction str as [|c str IH]; intros [|fuel] l p s Hs Hm Hcs He Hf Hl Ha; cbn [length] in *; try lia.
  - cbn in Hm. destruct Hm as [Hm _]. unfold apart in Ha. cbn [lex_word].
    rewrite Hs. unfold tbmem at 1. rewrite write_bytes_out, Hm by lia. cbn [mbind option_bind].
    rewrite He, app_nil_r, Z.add_0_r. destruct s; cbn in *; by subst.
  - cbn in Hm. destruct Hm as [Hx Hm]. apply Forall_cons in Hcs as [Hc Hcs].
    unfold apart in Ha. cbn [lex_word].
    rewrite Hs. unfold tbmem at 1. rewrite write_bytes_out, Hx by lia. cbn [mbind option_bind].
    rewrite Hc. rewrite (set_tokbuf_ok l) by (done || lia). cbn [mbind option_bind].
    replace (Z.of_nat (length l) + 1) with (Z.of_nat (length (l ++ [c]))) by (rewrite length_app; cbn; lia).
    rewrite IH; try done; try lia.
    + rewrite <-app_assoc. cbn. do 4 f_equal; lia.
    + rewrite length_app. cbn. lia.
    + unfold apart. lia.
Qed.

(** ** The tokens found so far *)

Definition is_tab (tb : gmap Z Z) : Prop := ∀ i, 0 ≤ i < SHELL_MAXTOK → is_Some (tb !! i).

Definition lex_inv (toks : list token) (s : lexst) : Prop :=
  lmem s = tbmem (tokdata toks) ∧ is_tab (ltok s) ∧ is_tab (ltoktyp s) ∧
  ∀ i t, toks !! i = Some t →
    ltok s !! Z.of_nat i = Some (Z.of_nat (length (tokdata (take i toks)))) ∧
    ltoktyp s !! Z.of_nat i = Some t.1.

Lemma tokdata_snoc toks t : tokdata (toks ++ [t]) = tokdata toks ++ t.2 ++ [0].
Proof. unfold tokdata. rewrite fmap_app, concat_app. cbn. by rewrite app_nil_r. Qed.

Lemma is_tab_insert tb i v : is_tab tb → is_tab (<[i := v]> tb).
Proof. intros H j Hj. rewrite lookup_insert. case_decide; [by eexists|by apply H]. Qed.

(** One more token. *)
Lemma lex_inv_push toks t s l tl :
  lex_inv toks s → l = tokdata (toks ++ [t]) →
  let n := Z.of_nat (length toks) in
  lex_inv (toks ++ [t]) (Lexst (tbmem l) (<[n := Z.of_nat (length (tokdata toks))]> (ltok s))
    (<[n := t.1]> (ltoktyp s)) tl).
Proof.
  intros (_ & H1 & H2 & H3) -> n. split_and!; [done|by apply is_tab_insert..|].
  intros i t' Hi. cbn. destruct (decide (i = length toks)) as [->|Hne].
  - rewrite list_lookup_middle in Hi by done. injection Hi as <-.
    rewrite !lookup_insert_eq, take_app_length. done.
  - assert (i < length toks)%nat as Hlt.
    { apply lookup_lt_Some in Hi. rewrite length_app in Hi. cbn in Hi. lia. }
    rewrite lookup_app_l in Hi by done. rewrite !lookup_insert_ne by lia.
    rewrite take_app_le by lia. by apply H3.
Qed.

Lemma set_tok_inv toks s v :
  lex_inv toks s → Z.of_nat (length toks) < SHELL_MAXTOK →
  set_tok (Z.of_nat (length toks)) v s =
    Some (Lexst (lmem s) (<[Z.of_nat (length toks) := v]> (ltok s)) (ltoktyp s) (ltlen s)).
Proof. intros (_ & H & _) Hl. unfold set_tok. destruct (H (Z.of_nat (length toks))) as [? ->]; [lia|done]. Qed.

Lemma set_toktyp_ok i v s :
  is_tab (ltoktyp s) → 0 ≤ i < SHELL_MAXTOK →
  set_toktyp i v s = Some (Lexst (lmem s) (ltok s) (<[i := v]> (ltoktyp s)) (ltlen s)).
Proof. intros H Hi. unfold set_toktyp. by destruct (H i Hi) as [? ->]. Qed.

(** The result for the rest [cs] of the line, when [toks] have been found: all the
    tokens, or an error, when the rest has no tokens, or too many. *)
Definition lex_done (toks : list token) (cs : list Z) (r : option (Z * lexst)) : Prop :=
  (∃ new s', lexes cs new ∧ Z.of_nat (length (toks ++ new)) ≤ SHELL_MAXTOK ∧
     r = Some (Z.of_nat (length (toks ++ new)), s') ∧ lex_inv (toks ++ new) s' ∧
     ltlen s' = Z.of_nat (length (tokdata (toks ++ new)))) ∨
  (∃ s' l, r = Some (SYSERR, s') ∧ lmem s' = tbmem l ∧ Z.of_nat (length l) ≤ room ∧
     ∀ new, lexes cs new → SHELL_MAXTOK ≤ Z.of_nat (length (toks ++ new))).

Lemma lex_done_cons toks t cs rest r :
  lex_done (toks ++ [t]) rest r →
  (∀ new, lexes rest new → lexes cs (t :: new)) →
  (∀ new, lexes cs new → ∃ new', new = t :: new' ∧ lexes rest new') →
  lex_done toks cs r.
Proof.
  intros [(new & s' & Hl & Hn & Hr & Hi & Ht)|(s' & l & Hr & Hs & Hlen & Hn)] H1 H2.
  - left. exists (t :: new), s'. rewrite <-app_assoc in *. by split_and!; [apply H1|..].
  - right. exists s', l. split_and!; [done..|]. intros new (new' & -> & Hl)%H2.
    specialize (Hn new' Hl). by rewrite <-app_assoc in Hn.
Qed.

(** An error at a token with which no line can go on. *)
Lemma lex_done_error toks cs s' l :
  lmem s' = tbmem l → Z.of_nat (length l) ≤ room → (∀ new, ¬ lexes cs new) →
  lex_done toks cs (Some (SYSERR, s')).
Proof. intros Hs Hl Hn. right. exists s', l. split_and!; [done..|]. intros new H. by destruct (Hn new). Qed.

(** ** One token *)

(** The rest [cs] of the line is at [p], and there is room for its tokens. *)
Definition lex_pre (toks : list token) (cs : list Z) (z p : Z) (s : lexst) : Prop :=
  lex_inv toks s ∧ bytes_at m0 p (cs ++ [z]) ∧ line_chars cs ∧ is_end z = true ∧
  Z.of_nat (length (tokdata toks)) + Z.of_nat (length cs) + SHELL_MAXTOK ≤ room + Z.of_nat (length toks) ∧
  apart p (Z.of_nat (length cs) + 1) tokbuf room.

(** What a token amounts to: the line goes on with [rest] behind it, or there is
    a syntax error. *)
Definition token_done (toks : list token) (cs : list Z) (z : Z)
    (r : option (option (Z * Z) * lexst)) : Prop :=
  (∃ t rest p s', r = Some (Some (p, Z.of_nat (length (tokdata (toks ++ [t])))), s') ∧
     lex_pre (toks ++ [t]) rest z p s' ∧ (length rest < length cs)%nat ∧
     (∀ new, lexes rest new → lexes cs (t :: new)) ∧
     (∀ new, lexes cs new → ∃ new', new = t :: new' ∧ lexes rest new')) ∨
  (∃ s' l, r = Some (None, s') ∧ lmem s' = tbmem l ∧ Z.of_nat (length l) ≤ room ∧ ∀ new, ¬ lexes cs new).

Lemma lex_op_ok toks b c cs z p s t :
  blanks b → op_type c = Some t → Z.of_nat (length toks) < SHELL_MAXTOK →
  lex_pre toks (b ++ c :: cs) z (p - Z.of_nat (length b)) s →
  token_done toks (b ++ c :: cs) z
    (lex_token c tokbuf p (Z.of_nat (length toks)) (Z.of_nat (length (tokdata toks))) s).
Proof.
  intros Hb Hc Hn (Hi & Hm & Hcs & Hz & Hr & Ha). pose proof Hi as (Hs & _ & Ht & _).
  rewrite length_app in Hr, Ha. cbn [length] in Hr, Ha. unfold apart, SHELL_MAXTOK in *.
  unfold lex_token. rewrite (set_tok_inv toks) by done. cbn [mbind option_bind]. rewrite Hc.
  rewrite set_toktyp_ok by (done || unfold SHELL_MAXTOK; lia). cbn [mbind option_bind].
  rewrite (set_tokbuf_ok (tokdata toks)) by (done || lia). cbn [mbind option_bind].
  replace (Z.of_nat (length (tokdata toks)) + 1) with (Z.of_nat (length (tokdata toks ++ [c])))
    by (rewrite length_app; cbn; lia).
  rewrite (set_tokbuf_ok (tokdata toks ++ [c])) by (done || rewrite length_app; cbn; lia).
  cbn [mbind option_bind lmem ltok ltoktyp ltlen].
  left. exists (t, [c]), cs, (p + 1). eexists. split_and!.
  - replace (Z.of_nat (length (tokdata toks)) + 2) with (Z.of_nat (length (tokdata (toks ++ [(t, [c])]))))
      by (rewrite tokdata_snoc, length_app; cbn; lia).
    reflexivity.
  - split_and!.
    + apply lex_inv_push; [done|]. by rewrite tokdata_snoc, <-app_assoc.
    + rewrite <-app_assoc in Hm. apply bytes_at_app in Hm as [_ [_ Hm]].
      by replace (p + 1) with (p - Z.of_nat (length b) + Z.of_nat (length b) + 1) by lia.
    + by apply Forall_app in Hcs as [_ [_ ?]%Forall_cons].
    + done.
    + rewrite tokdata_snoc, !length_app. cbn. unfold SHELL_MAXTOK. lia.
    + unfold apart. lia.
  - rewrite length_app. cbn. lia.
  - intros new. by apply lexes_op.
  - intros new [(t' & new' & Ht' & -> & Hl)|[(? & ? & ? & Hq & _)|(? & ? & ? & Hw & _)]]%lexes_inv.
    + exists new'. split; [congruence|done].
    + apply quote_kind in Hq as (? & _). congruence.
    + apply Forall_cons in Hw as [Hw _]. apply word_kind in Hw as (? & _). congruence.
    + done.
    + by apply op_kind in Hc as (_ & _ & ?).
Qed.

(** The fuel of the loops over a token. *)
Lemma tb_fuel l p str :
  bytes_at m0 p str → Z.of_nat (length l) ≤ room → (length str ≤ size (tbmem l))%nat.
Proof. intros Hs Hl. unfold tbmem. rewrite (write_bytes_size l tokbuf room) by done. by eapply bytes_size. Qed.

(** The end of a token that is not an operator. *)
Lemma lex_other_ok toks b c w tail rest cs z p p' s :
  blanks b → Z.of_nat (length toks) < SHELL_MAXTOK → cs = b ++ c :: tail ++ rest →
  (length w ≤ S (length tail))%nat →
  lex_pre toks cs z p s → p' = p + Z.of_nat (length b) + 1 + Z.of_nat (length tail) →
  (∀ new, lexes rest new → lexes cs ((SH_TOK_OTHER, w) :: new)) →
  (∀ new, lexes cs new → ∃ new', new = (SH_TOK_OTHER, w) :: new' ∧ lexes rest new') →
  token_done toks cs z
    (s ← set_tokbuf (tokbuf + Z.of_nat (length (tokdata toks ++ w))) 0
       (Lexst (tbmem (tokdata toks ++ w))
         (<[Z.of_nat (length toks) := Z.of_nat (length (tokdata toks))]> (ltok s))
         (<[Z.of_nat (length toks) := SH_TOK_OTHER]> (ltoktyp s)) (ltlen s));
     Some (Some (p', Z.of_nat (length (tokdata toks ++ w)) + 1), s)).
Proof.
  intros Hb Hn -> Hw (Hi & Hm & Hcs & Hz & Hr & Ha) -> H1 H2. unfold apart, SHELL_MAXTOK in *.
  rewrite !length_app in Hr, Ha. cbn [length] in Hr, Ha. rewrite !length_app in Hr, Ha.
  rewrite (set_tokbuf_ok (tokdata toks ++ w)) by (done || rewrite length_app; lia).
  cbn [mbind option_bind ltok ltoktyp ltlen].
  left. exists (SH_TOK_OTHER, w), rest, (p + Z.of_nat (length b) + 1 + Z.of_nat (length tail)). eexists.
  split_and!; [| | |done|done].
  - replace (Z.of_nat (length (tokdata toks ++ w)) + 1)
      with (Z.of_nat (length (tokdata (toks ++ [(SH_TOK_OTHER, w)]))))
      by (rewrite tokdata_snoc, !length_app; cbn; lia).
    reflexivity.
  - split_and!.
    + apply lex_inv_push; [done|]. by rewrite tokdata_snoc, <-app_assoc.
    + rewrite <-app_assoc in Hm. apply bytes_at_app in Hm as [_ [_ Hm]].
      rewrite <-app_assoc in Hm. apply bytes_at_app in Hm as [_ Hm]. done.
    + by apply Forall_app in Hcs as [_ [_ [_ ?]%Forall_app]%Forall_cons].
    + done.
    + rewrite tokdata_snoc, !length_app. cbn. unfold SHELL_MAXTOK. lia.
    + unfold apart. lia.
  - rewrite length_app. cbn. rewrite length_app. lia.
Qed.

Lemma lex_quote_ok toks b c cs z p s :
  blanks b → is_quote c = true → Z.of_nat (length toks) < SHELL_MAXTOK →
  lex_pre toks (b ++ c :: cs) z p s →
  token_done toks (b ++ c :: cs) z
    (lex_token c tokbuf (p + Z.of_nat (length b)) (Z.of_nat (length toks)) (Z.of_nat (length (tokdata toks))) s).
Proof.
  intros Hb Hc Hn Hpre. pose proof Hpre as (Hi & Hm & Hcs & Hz & Hr & Ha).
  pose proof Hi as (Hs & _ & Ht & _).
  rewrite length_app in Hr, Ha. cbn [length] in Hr, Ha. unfold apart, SHELL_MAXTOK in *.
  assert (op_type c = None) as Hop by (by apply quote_kind).
  assert (is_blank c = false) as Hbl by (by apply quote_kind).
  rewrite <-app_assoc in Hm. apply bytes_at_app in Hm as [_ [_ Hm]].
  apply Forall_app in Hcs as [_ [_ Hcs]%Forall_cons].
  unfold lex_token. rewrite (set_tok_inv toks) by done. cbn [mbind option_bind]. rewrite Hop.
  rewrite set_toktyp_ok by (done || unfold SHELL_MAXTOK; lia). cbn [mbind option_bind].
  rewrite Hc. cbn [lmem ltok ltoktyp ltlen]. rewrite Hs.
  destruct (decide (c ∈ cs)) as [(str & rest & -> & Hns)%split_first|Hnot].
  - rewrite length_app in Hr, Ha. cbn [length] in Hr, Ha.
    rewrite <-app_assoc in Hm. cbn [app] in Hm. rewrite cons_middle, app_assoc in Hm.
    apply bytes_at_app in Hm as [Hm _]. apply Forall_app in Hcs as [Hcs _].
    pose proof (tb_fuel (tokdata toks) _ _ Hm ltac:(lia)) as Hfu. rewrite length_app in Hfu. cbn in Hfu.
    rewrite (lex_quoted_ok str c c) by (done || auto || (unfold str_fuel, apart; lia)).
    cbn [mbind option_bind lmem ltok ltoktyp ltlen]. rewrite bool_decide_eq_false_2 by auto.
    eapply (lex_other_ok toks b c str (str ++ [c]) rest); try done.
    + by rewrite <-app_assoc.
    + rewrite length_app. cbn. lia.
    + rewrite length_app. cbn. lia.
    + intros new Hl. by apply lexes_quoted.
    + intros new [(t' & new' & Ht' & _)|[(str' & rest' & new' & _ & E & Hn' & -> & Hl)|(? & ? & ? & Hw & _)]]%lexes_inv;
        try done; try congruence.
      * destruct (first_unique c str str' rest rest') as [-> ->]; [done..|]. by exists new'.
      * apply Forall_cons in Hw as [Hw _]. apply quote_kind in Hc as (_ & ? & _). congruence.
  - pose proof (tb_fuel (tokdata toks) _ _ Hm ltac:(lia)) as Hfu. rewrite length_app in Hfu. cbn in Hfu.
    rewrite (lex_quoted_ok cs z c) by (done || auto || (unfold str_fuel, apart; lia)).
    cbn [mbind option_bind]. rewrite bool_decide_eq_true_2.
    2: { intros ->. apply end_kind in Hz as (? & _). congruence. }
    right. eexists _, (tokdata toks ++ cs). split_and!; [done|done|rewrite length_app; lia|].
    intros new [(t' & new' & Ht' & _)|[(str' & rest' & new' & _ & -> & _)|(? & ? & ? & Hw & _)]]%lexes_inv;
      try done; try congruence.
    + apply Hnot, elem_of_app. right. constructor.
    + apply Forall_cons in Hw as [Hw _]. apply quote_kind in Hc as (_ & ? & _). congruence.
Qed.

(** The character behind a word. *)
Lemma next_char rest z :
  is_end z = true → line_chars rest → (∀ c r, rest = c :: r → is_word c = false) →
  ∃ e tl, rest ++ [z] = e :: tl ∧ is_word e = false ∧
    (bad_follow e = false → word_end rest) ∧ (bad_follow e = true → ¬ word_end rest).
Proof.
  intros Hz Hcs Hr. destruct rest as [|e rest].
  - exists z, []. split_and!; [done|by apply end_kind|by intros _ ? ?|].
    intros H. by rewrite end_follow in H.
  - exists e, (rest ++ [z]). pose proof (Hr e rest eq_refl) as He. apply Forall_cons in Hcs as [Hce _].
    split_and!; [done..| |].
    + intros H ? ? [= <- <-]. by apply follow_good.
    + intros [? ?]%follow_bad Hwe. destruct (Hwe e rest eq_refl); congruence.
Qed.

Lemma lex_plain_ok toks b c cs z p s :
  blanks b → is_word c = true → Z.of_nat (length toks) < SHELL_MAXTOK →
  lex_pre toks (b ++ c :: cs) z p s →
  token_done toks (b ++ c :: cs) z
    (lex_token c tokbuf (p + Z.of_nat (length b)) (Z.of_nat (length toks)) (Z.of_nat (length (tokdata toks))) s).
Proof.
  intros Hb Hc Hn Hpre. pose proof Hpre as (Hi & Hm & Hcs & Hz & Hr & Ha).
  pose proof Hi as (Hs & _ & Ht & _).
  rewrite length_app in Hr, Ha. cbn [length] in Hr, Ha. unfold apart, SHELL_MAXTOK in *.
  assert (op_type c = None) as Hop by (by apply word_kind).
  assert (is_quote c = false) as Hq by (by apply word_kind).
  assert (is_blank c = false) as Hbl by (by apply word_kind).
  rewrite <-app_assoc in Hm. apply bytes_at_app in Hm as [_ [_ Hm]].
  apply Forall_app in Hcs as [_ [_ Hcs]%Forall_cons].
  unfold lex_token. rewrite (set_tok_inv toks) by done. cbn [mbind option_bind]. rewrite Hop.
  rewrite set_toktyp_ok by (done || unfold SHELL_MAXTOK; lia). cbn [mbind option_bind].
  rewrite Hq. rewrite (set_tokbuf_ok (tokdata toks)) by (done || lia). cbn [mbind option_bind lmem ltok ltoktyp ltlen].
  destruct (split_span is_word cs) as (w & rest & -> & Hw & Hrest).
  rewrite length_app in Hr, Ha. apply Forall_app in Hcs as [_ Hcs].
  destruct (next_char rest z) as (e & tl & Ee & He & He1 & He2); [done..|].
  rewrite <-app_assoc, Ee in Hm. rewrite cons_middle, app_assoc in Hm.
  apply bytes_at_app in Hm as [Hm _].
  replace (Z.of_nat (length (tokdata toks)) + 1) with (Z.of_nat (length (tokdata toks ++ [c])))
    by (rewrite length_app; cbn; lia).
  pose proof (tb_fuel (tokdata toks ++ [c]) _ _ Hm) as Hfu. rewrite !length_app in Hfu. cbn [length] in Hfu.
  rewrite (lex_word_ok w e) by (done || (rewrite ?length_app; unfold str_fuel, apart; cbn [length]; lia)).
  cbn [mbind option_bind lmem ltok ltoktyp ltlen]. fold (bad_follow e).
  assert (∀ new, lexes (b ++ c :: w ++ rest) new → word_end rest ∧
    ∃ new', new = (SH_TOK_OTHER, c :: w) :: new' ∧ lexes rest new') as Hinv.
  { intros new [(t' & new' & Ht' & _)|[(? & ? & ? & Hq' & _)|(w' & rest' & new' & Hw' & E & Hwe & -> & Hl)]]%lexes_inv;
      try done; try congruence.
    assert (w = w' ∧ rest = rest') as [-> ->]; [|split; [done|by exists new']].
    apply Forall_cons in Hw' as [_ Hw']. apply (span_unique is_word); try done.
    intros c' r' ->. destruct (Hwe c' r' eq_refl) as [?| ->]; [|done].
    destruct (is_word c') eqn:Hwc; [|done]. apply word_kind in Hwc as (_ & _ & ?). congruence. }
  destruct (bad_follow e) eqn:Hbad.
  - right. eexists _, ((tokdata toks ++ [c]) ++ w). split_and!; [done|done|rewrite !length_app; cbn; lia|].
    intros new [Hwe _]%Hinv. by apply (He2 eq_refl).
  - rewrite <-app_assoc. cbn [app].
    eapply (lex_other_ok toks b c (c :: w) w rest); try done.
    + intros new Hl. apply lexes_word; try done; [by constructor|by apply He1].
    + intros new Hl. by apply Hinv.
Qed.

Lemma lex_token_ok toks b c cs z p s :
  blanks b → is_blank c = false → Z.of_nat (length toks) < SHELL_MAXTOK →
  lex_pre toks (b ++ c :: cs) z p s →
  token_done toks (b ++ c :: cs) z
    (lex_token c tokbuf (p + Z.of_nat (length b)) (Z.of_nat (length toks)) (Z.of_nat (length (tokdata toks))) s).
Proof.
  intros Hb Hc Hn Hpre. destruct (op_type c) as [t|] eqn:Hop.
  { eapply lex_op_ok; try done. by replace (p + _ - _) with p by lia. }
  destruct (is_quote c) eqn:Hq; [by apply lex_quote_ok|]. apply lex_plain_ok; try done.
  destruct Hpre as (_ & _ & Hcs & _). apply Forall_app in Hcs as [_ [He _]%Forall_cons].
  by apply other_kind.
Qed.

(** ** The line *)

Lemma lexan_loop_ok z : ∀ fuel toks cs p s,
  lex_pre toks cs z p s → Z.of_nat (length toks) ≤ SHELL_MAXTOK → (length cs < fuel)%nat →
  lex_done toks cs
    (lexan_loop fuel tokbuf p (Z.of_nat (length toks)) (Z.of_nat (length (tokdata toks))) s).
Proof.
  induction fuel as [|fuel IH]; intros toks cs p s Hpre Hn Hf; [lia|].
  pose proof Hpre as (Hi & Hm & Hcs & Hz & Hr & Ha). pose proof Hi as (Hs & _ & Ht & _).
  assert (bytes_at (lmem s) p (cs ++ [z])) as Hml.
  { rewrite Hs. apply tbmem_line; [done| |unfold SHELL_MAXTOK in *; lia].
    rewrite length_app. unfold apart in *. cbn [length]. lia. }
  assert (∀ new, length new = 0%nat → lexes cs new → lex_done toks cs
    (Some (Z.of_nat (length toks), set_tlen (Z.of_nat (length (tokdata toks))) s))) as Hend.
  { intros [|] [=] Hl. left. exists [], (set_tlen (Z.of_nat (length (tokdata toks))) s).
    rewrite app_nil_r. by split_and!. }
  cbn [lexan_loop]. destruct cs as [|c0 cs].
  { destruct Hml as [-> _]. cbn [mbind option_bind]. rewrite Hz. apply (Hend []); [done|].
    apply (lexes_end []). constructor. }
  pose proof Hml as [Hc0 _]. rewrite Hc0. cbn [mbind option_bind]. clear Hc0.
  pose proof Hcs as [-> _]%Forall_cons. case_bool_decide as Hmax.
  { right. exists s, (tokdata toks). split_and!; [done..|unfold SHELL_MAXTOK in *; lia|].
    intros new _. rewrite length_app. lia. }
  revert Hpre Hm Hml Hcs Hend Hf. generalize (c0 :: cs). clear c0 cs Hr Ha.
  intros cs Hpre Hm Hml Hcs Hend Hf.
  destruct (split_span is_blank cs) as (b & r & -> & Hb & Hrb). apply blanks_bool in Hb.
  assert (∃ c tl, r ++ [z] = c :: tl ∧ is_blank c = false) as (c & tl & Er & Hc).
  { destruct r as [|c r]; [by exists z, []; split; [|apply is_blank_end]|].
    exists c, (r ++ [z]). split; [done|by eapply Hrb]. }
  rewrite <-app_assoc, Er in Hml. rewrite cons_middle, app_assoc in Hml.
  apply bytes_at_app in Hml as [Hml _].
  pose proof (bytes_size _ _ _ Hml) as Hfu. rewrite length_app in Hfu. cbn in Hfu.
  rewrite (lex_skip_ok b c) by (done || unfold str_fuel; lia). cbn [mbind option_bind].
  apply bytes_at_app in Hml as [_ [-> _]]. cbn [mbind option_bind].
  destruct r as [|c' r].
  { injection Er as <- _. rewrite Hz. apply (Hend []); [done|]. rewrite app_nil_r. by apply lexes_end. }
  injection Er as -> _. pose proof Hcs as [_ [-> _]%Forall_cons]%Forall_app.
  destruct (lex_token_ok toks b c r z p s Hb Hc ltac:(lia) Hpre)
    as [(t & rest & p' & s' & -> & Hpre' & Hlt & H1 & H2)|(s' & l & -> & Hs' & Hl & Hno)];
    cbn [mbind option_bind].
  - eapply lex_done_cons; [|done..].
    replace (Z.of_nat (length toks) + 1) with (Z.of_nat (length (toks ++ [t]))) by (rewrite length_app; cbn; lia).
    apply IH; [done|rewrite length_app; cbn; lia|lia].
  - by eapply lex_done_error.
Qed.
End lex.

(** Lexan on a line in memory, and an empty token buffer. *)
Lemma lexan_ok s line len cs z tokbuf room :
  bytes_at (lmem s) line (cs ++ [z]) → line_chars cs → is_end z = true →
  is_tab (ltok s) → is_tab (ltoktyp s) →
  Z.of_nat (length cs) + SHELL_MAXTOK ≤ room → mapped (lmem s) tokbuf room →
  apart line (Z.of_nat (length cs) + 1) tokbuf room →
  lex_done (lmem s) tokbuf room [] cs (lexan line len tokbuf s).
Proof.
  intros Hm Hcs Hz H1 H2 Hr Hroom Ha. unfold lexan.
  apply (lexan_loop_ok (lmem s) tokbuf room Hroom z _ [] cs line s).
  - split_and!; try done. cbn. lia.
  - done.
  - apply bytes_size in Hm. rewrite length_app in Hm. cbn in Hm. unfold str_fuel. lia.
Qed.

Lemma word_end_head c r : word_end (c :: r) → is_word c = false.
Proof.
  intros Hwe. destruct (Hwe c r eq_refl) as [Hb| ->]; [|done].
  destruct (is_word c) eqn:Hc; [|done]. apply word_kind in Hc as (_ & _ & ?). congruence.
Qed.

(** The tokens take at most a byte each more than the line. *)
Lemma lexes_length cs toks :
  lexes cs toks → (length (tokdata toks) ≤ length cs + length toks)%nat.
Proof.
  induction 1; unfold tokdata in *; cbn [fmap list_fmap concat length] in *;
    repeat progress (rewrite ?length_app; cbn [length snd app]); lia.
Qed.

Lemma tokdata_split toks i t :
  toks !! i = Some t →
  tokdata toks = tokdata (take i toks) ++ (t.2 ++ [0]) ++ tokdata (drop (S i) toks).
Proof.
  intros Hi. rewrite <-(take_drop_middle _ _ _ Hi) at 1.
  unfold tokdata. rewrite fmap_app, concat_app. done.
Qed.

(** A line has the tokens of at most one reading. *)
Lemma lexes_unique cs toks toks' : lexes cs toks → lexes cs toks' → toks = toks'.
Proof.
  intros H. revert toks'. induction H as [b Hb|b c t rest toks Hb Hc Hl IH|b q str rest toks Hb Hq Hn Hl IH|
    b c w rest toks Hb Hw He Hl IH]; intros toks' H'.
  - destruct H' as [| b' c' t| b' q|b' c' w]; [done|exfalso..]; apply Forall_app in Hb as [_ [Hc' _]%Forall_cons].
    + assert (is_blank c' = true) as E by (by apply is_blank_true). apply op_kind in H0 as (_ & _ & ?). congruence.
    + assert (is_blank q = true) as E by (by apply is_blank_true). apply quote_kind in H0 as (_ & _ & ?). congruence.
    + assert (is_blank c' = true) as E by (by apply is_blank_true).
      apply Forall_cons in H0 as [(_ & _ & ?)%word_kind _]. congruence.
  - apply lexes_inv in H' as [(t' & new & Ht & -> & Hl')|[(? & ? & ? & Hq & _)|(? & ? & ? & Hw & _)]]; [|exfalso..|done|].
    + rewrite (IH new Hl'). congruence.
    + apply op_kind in Hc as (? & _). congruence.
    + apply Forall_cons in Hw as [(? & _)%word_kind _]. congruence.
    + by apply op_kind in Hc as (_ & _ & ?).
  - apply lexes_inv in H' as [(t' & new & Ht & _)|[(str' & rest' & new & _ & E & Hn' & -> & Hl')|(? & ? & ? & Hw & _)]];
      [exfalso| |exfalso|done|].
    + apply quote_kind in Hq as (? & _). congruence.
    + apply first_unique in E as [-> ->]; try done. by rewrite (IH new Hl').
    + apply Forall_cons in Hw as [(_ & ? & _)%word_kind _]. congruence.
    + by apply quote_kind in Hq as (_ & _ & ?).
  - pose proof Hw as [(Hop & Hnq & Hnb)%word_kind Hw']%Forall_cons.
    apply lexes_inv in H' as [(t' & new & Ht & _)|[(? & ? & ? & Hq & _)|(w' & rest' & new & Hw2 & E & He' & -> & Hl')]];
      try done; try congruence.
    apply (span_unique is_word) in E as [-> ->]; [by rewrite (IH new Hl')|done|by apply Forall_cons in Hw2 as [_ ?]| |].
    + intros c' r ->. by apply (word_end_head _ r).
    + intros c' r ->. by apply (word_end_head _ r).
Qed.
