(* ===== verification/LfsDisk.v ===== *)
(** The disk of the local file system: the RAM disk driver (device/ram), the
    calls through which the file system reaches it, and the format of the
    structures of include/lfilesys.h on the disk. *)

From S2P Require Import Prelude Types ByteMem Words DevTypes Heap Kernel KInv Device.

(** ** The RAM disk

    ramread and ramwrite move whole blocks: [Ram] maps block numbers to blocks.
    The array holds [RM_BLKS] of them; another block number is a fault. *)

Definition RAM0 : Z := 9.
Definition LF_DISK_DEV : Z := RAM0.

Definition setRam (f : gmap Z (list Z) → gmap Z (list Z)) : M unit :=
  modify (λ s, set_dev (set_Ram (f (Ram (dev s))) (dev s)) s).

Definition ramread (blk : Z) : M (Z * list Z) := λ s,
  match Ram (dev s) !! blk with Some b => Done (OK, b) s | None => Fault end.
Definition ramwrite (buff : list Z) (blk : Z) : M Z := λ s,
  match Ram (dev s) !! blk with Some _ => (setRam (<[blk := buff]>);; ret OK) s | None => Fault end.
Definition ramopen : M Z := ret RAM0.
Definition ramclose : M Z := ret OK.

(** memcpy copies upwards, byte by byte: [n] bytes from place [i] to place [j]. *)
Fixpoint copy_up (n i j : nat) (l : list Z) : list Z :=
  match n with
  | O => l
  | S n => copy_up n (S i) (S j) (<[j := default 0 (l !! i)]> l)
  end.
Definition hopeless : list Z := [104; 111; 112; 101; 108; 101; 115; 115].
Definition raminit : M Z :=
  setRam (λ _,
    let n := Z.to_nat (RM_BLKSIZ * RM_BLKS) in
    let disk := copy_up (n - 8) 0 8 (hopeless ++ replicate (n - 8) 0) in
    table RM_BLKS (λ i, slice (Z.to_nat (RM_BLKSIZ * i)) 512 disk));;
  ret OK.

(** ** read and write of the device switch, for a disk and a buffer of the kernel

    The descriptor of the RAM disk leads to the driver above; the disk drivers
    behind other descriptors are not modelled. *)

Definition disk_call {A} (disk : Z) (bad : A) (f : M A) : M A :=
  mask ← disable;
  if isbaddev disk then restore mask;; ret bad
  else
    r ← (if bool_decide (disk = RAM0) then f else fault);
    restore mask;;
    ret r.

(** The buffer keeps its contents [old] when the call fails. *)
Definition read_block (disk : Z) (old : list Z) (blk : Z) : M (Z * list Z) :=
  disk_call disk (SYSERR, old) (ramread blk).
Definition write_block (disk : Z) (buff : list Z) (blk : Z) : M Z :=
  disk_call disk SYSERR (ramwrite buff blk).
Definition close_disk (disk : Z) : M Z := disk_call disk SYSERR ramclose.

(** ** The structures on the disk *)

Definition enc_iblk (B : lfiblk) : list Z := le32 (ib_next B) ++ le32 (ib_offset B) ++ words (ib_dba B).
Definition dec_iblk (b : list Z) : lfiblk :=
  Lfiblk (int_at b 0) (word_at b 4) ((λ i, int_at b (8 + 4 * i)) <$> seq 0 16).

Definition enc_ldentry (e : ldentry) : list Z := le32 (ld_size e) ++ le32 (ld_ilist e) ++ ld_name e.
Definition dec_ldentry (b : list Z) : ldentry := Ldentry (word_at b 0) (int_at b 4) (slice 8 16 b).

Definition enc_lfdir (d : lfdir) : list Z :=
  le32 (lfd_fsysid d) ++ le16 (lfd_vers d) ++ le16 (lfd_subvers d) ++ le32 (lfd_allzeros d) ++
  le32 (lfd_allones d) ++ le32 (lfd_dfree d) ++ le32 (lfd_ifree d) ++ le32 (lfd_nfiles d) ++
  concat (enc_ldentry <$> lfd_files d) ++ le32 (lfd_revid d).
Definition dec_lfdir (b : list Z) : lfdir :=
  Lfdir (word_at b 0) (half_at b 4) (half_at b 6) (word_at b 8) (word_at b 12) (int_at b 16)
    (int_at b 20) (int_at b 24) ((λ i, dec_ldentry (slice (28 + 24 * i) 24 b)) <$> seq 0 20)
    (word_at b 508).

(** A block on the free list starts with the number of the next one. *)
Definition lf_nextdb (b : list Z) : Z := int_at b 0.
Definition enc_lfdbfree (next : Z) (unused : list Z) : list Z := le32 next ++ unused.

(** ib2sect, ib2disp *)
Definition ib2sect (ib : Z) : Z := Z.quot ib 7 + LF_AREA_IB.
Definition ib2disp (ib : Z) : Z := Z.rem ib 7 * 72.

(** ** Well-formed structures: every field in the range of its C type *)

Record iblk_wf (B : lfiblk) : Prop := Iblk_wf {
  iw_next : int32 (ib_next B);
  iw_offset : uint32 (ib_offset B);
  iw_dba : Forall int32 (ib_dba B);
  iw_len : length (ib_dba B) = 16%nat }.

Record ldentry_wf (e : ldentry) : Prop := Ldentry_wf {
  lw_size : uint32 (ld_size e);
  lw_ilist : int32 (ld_ilist e);
  lw_name : length (ld_name e) = 16%nat }.

Record lfdir_wf (d : lfdir) : Prop := Lfdir_wf {
  dw_fsysid : uint32 (lfd_fsysid d);
  dw_vers : int16 (lfd_vers d);
  dw_subvers : int16 (lfd_subvers d);
  dw_allzeros : uint32 (lfd_allzeros d);
  dw_allones : uint32 (lfd_allones d);
  dw_dfree : int32 (lfd_dfree d);
  dw_ifree : int32 (lfd_ifree d);
  dw_nfiles : int32 (lfd_nfiles d);
  dw_files : Forall ldentry_wf (lfd_files d);
  dw_len : length (lfd_files d) = 20%nat;
  dw_revid : uint32 (lfd_revid d) }.

(** ** Encoding and decoding *)

Lemma length_enc_iblk B : iblk_wf B → length (enc_iblk B) = 72%nat.
Proof. intros [_ _ _ Hl]. unfold enc_iblk. rewrite !length_app, length_words, Hl. done. Qed.

Lemma dec_enc_iblk B r : iblk_wf B → dec_iblk (enc_iblk B ++ r) = B.
Proof.
  intros [Hn Ho Hd Hl]. destruct B as [nx off dba]. cbn in Hn, Ho, Hd, Hl. unfold dec_iblk, enc_iblk. cbn [ib_next ib_offset ib_dba].
  rewrite <-!app_assoc. f_equal.
  - by apply int32_here.
  - rewrite word_at_app by (cbn; lia). by apply uint32_here.
  - apply list_eq. intros i. rewrite list_lookup_fmap.
    destruct (decide (i < 16)%nat) as [Hi|Hi].
    + rewrite lookup_seq_lt by done. cbn [fmap option_fmap option_map].
      destruct (lookup_lt_is_Some_2 dba i) as [x Hx]; [lia|]. rewrite Hx. f_equal.
      rewrite !int_at_app by (rewrite ?length_le32; lia). rewrite !length_le32.
      replace (8 + 4 * (0 + i) - 4 - 4)%nat with (4 * i)%nat by lia. by apply words_at.
    + rewrite lookup_seq_ge by lia. symmetry. apply lookup_ge_None. lia.
Qed.

Lemma length_enc_ldentry e : ldentry_wf e → length (enc_ldentry e) = 24%nat.
Proof. intros [_ _ Hl]. unfold enc_ldentry. rewrite !length_app, Hl. done. Qed.

Lemma dec_enc_ldentry e : ldentry_wf e → dec_ldentry (enc_ldentry e) = e.
Proof.
  intros [Hs Hi Hl]. destruct e as [sz il nm]. cbn in Hs, Hi, Hl. unfold dec_ldentry, enc_ldentry. cbn [ld_size ld_ilist ld_name].
  f_equal.
  - by apply uint32_here.
  - rewrite int_at_app by (cbn; lia). by apply int32_here.
  - unfold slice. rewrite app_assoc, drop_app_length' by done. by apply take_ge; lia.
Qed.

Lemma length_entries l :
  Forall ldentry_wf l → length (concat (enc_ldentry <$> l)) = (24 * length l)%nat.
Proof. intros Hl. apply length_concat. intros e He. apply length_enc_ldentry. by eapply Forall_forall in Hl. Qed.

(** The directory fills a block. *)
Lemma length_enc_lfdir d : lfdir_wf d → length (enc_lfdir d) = 512%nat.
Proof.
  intros Hw. unfold enc_lfdir. rewrite !length_app, length_entries by apply Hw.
  by rewrite (dw_len _ Hw).
Qed.

(** Walk over the fields before the one that is read. *)
Ltac skip_fields :=
  repeat (first [rewrite word_at_app by (cbn; lia) | rewrite int_at_app by (cbn; lia)
    | rewrite half_at_app by (cbn; lia)]; cbn [length le32 le16 Nat.sub]).

Lemma dec_enc_lfdir d : lfdir_wf d → dec_lfdir (enc_lfdir d) = d.
Proof.
  intros Hw. pose proof Hw as [H1 H2 H3 H4 H5 H6 H7 H8 H9 H10 H11].
  destruct d as [id v sv z o df fr nf fs rv]. cbn in H1, H2, H3, H4, H5, H6, H7, H8, H9, H10, H11.
  unfold dec_lfdir, enc_lfdir.
  cbn [lfd_fsysid lfd_vers lfd_subvers lfd_allzeros lfd_allones lfd_dfree lfd_ifree lfd_nfiles lfd_files lfd_revid].
  f_equal.
  - by apply uint32_here.
  - skip_fields. by apply half_at_here.
  - skip_fields. by apply half_at_here.
  - skip_fields. by apply uint32_here.
  - skip_fields. by apply uint32_here.
  - skip_fields. by apply int32_here.
  - skip_fields. by apply int32_here.
  - skip_fields. by apply int32_here.
  - apply list_eq. intros i. rewrite list_lookup_fmap.
    destruct (decide (i < 20)%nat) as [Hi|Hi].
    + rewrite lookup_seq_lt by done. cbn [fmap option_fmap option_map Nat.add].
      destruct (lookup_lt_is_Some_2 fs i) as [e He]; [lia|]. rewrite He. f_equal.
      do 8 (rewrite slice_app_skip by (cbn; lia); cbn [length le32 le16 Nat.sub]).
      rewrite Nat.sub_0_r.
      rewrite (slice_concat enc_ldentry 24 fs _ i e); [|intros y Hy; apply length_enc_ldentry; by eapply Forall_forall in H9|done].
      apply dec_enc_ldentry. by eapply Forall_lookup_1 in H9.
    + rewrite lookup_seq_ge by lia. symmetry. apply lookup_ge_None. lia.
  - skip_fields. rewrite word_at_app by (rewrite length_entries by done; rewrite H10; lia).
    rewrite length_entries, H10 by done. change (508 - 4 - 2 - 2 - 4 - 4 - 4 - 4 - 4 - 24 * 20)%nat with 0%nat.
    rewrite <-(app_nil_r (le32 rv)). by apply uint32_here.
Qed.

(** ** Index blocks in their sectors *)

Definition ib_at (R : gmap Z (list Z)) (n : Z) : option lfiblk :=
  b ← R !! ib2sect n; Some (dec_iblk (slice (Z.to_nat (ib2disp n)) 72 b)).
Definition put_ib (n : Z) (B : lfiblk) (R : gmap Z (list Z)) : gmap Z (list Z) :=
  alter (splice (Z.to_nat (ib2disp n)) (enc_iblk B)) (ib2sect n) R.

(** All blocks of the disk have their size. *)
Definition disk_ok (R : gmap Z (list Z)) : Prop := ∀ i b, R !! i = Some b → length b = 512%nat.

Lemma ib2_eq n : 0 ≤ n → ib2sect n = n / 7 + 1 ∧ ib2disp n = n mod 7 * 72.
Proof. intros Hn. unfold ib2sect, ib2disp, LF_AREA_IB. by rewrite Z.quot_div_nonneg, Z.rem_mod_nonneg by lia. Qed.

Lemma ib2disp_fits n : 0 ≤ n → (Z.to_nat (ib2disp n) + 72 ≤ 512)%nat.
Proof. intros Hn. destruct (ib2_eq n Hn) as [_ ->]. pose proof (Z.mod_pos_bound n 7). lia. Qed.

(** Two index blocks of one sector do not overlap. *)
Lemma ib2disp_apart n n' :
  0 ≤ n → 0 ≤ n' → n ≠ n' → ib2sect n = ib2sect n' →
  (Z.to_nat (ib2disp n') + 72 ≤ Z.to_nat (ib2disp n) ∨ Z.to_nat (ib2disp n) + 72 ≤ Z.to_nat (ib2disp n'))%nat.
Proof.
  intros Hn Hn' Hne He. destruct (ib2_eq n Hn) as [E1 ->], (ib2_eq n' Hn') as [E2 ->].
  pose proof (Z.mod_pos_bound n 7). pose proof (Z.mod_pos_bound n' 7).
  pose proof (Z.div_mod n 7). pose proof (Z.div_mod n' 7). lia.
Qed.

Lemma disk_ok_insert R i b : disk_ok R → length b = 512%nat → disk_ok (<[i := b]> R).
Proof. intros HR Hb j c. rewrite lookup_insert. case_decide; [by intros [= <-]|apply HR]. Qed.

Lemma put_ib_ok R n B : disk_ok R → 0 ≤ n → iblk_wf B → disk_ok (put_ib n B R).
Proof.
  intros HR Hn HB i b. unfold put_ib. rewrite lookup_alter. case_decide as He; [|apply HR].
  subst i. destruct (R !! ib2sect n) as [c|] eqn:Hc; [|done]. intros [= <-].
  rewrite length_splice; [by eapply HR|]. rewrite (HR _ _ Hc), length_enc_iblk by done. by apply ib2disp_fits.
Qed.

Lemma ib_at_put R n B b :
  disk_ok R → 0 ≤ n → iblk_wf B → R !! ib2sect n = Some b → ib_at (put_ib n B R) n = Some B.
Proof.
  intros HR Hn HB Hb. unfold ib_at, put_ib. rewrite lookup_alter_eq, Hb.
  cbn [fmap option_fmap option_map mbind option_bind]. f_equal.
  pose proof (length_enc_iblk B HB) as Hl.
  assert (slice (Z.to_nat (ib2disp n)) 72 (splice (Z.to_nat (ib2disp n)) (enc_iblk B) b) = enc_iblk B) as ->.
  - rewrite <-Hl. apply slice_splice. rewrite Hl, (HR _ _ Hb). by apply ib2disp_fits.
  - rewrite <-(app_nil_r (enc_iblk B)). by apply dec_enc_iblk.
Qed.

Lemma ib_at_put_ne R n n' B :
  disk_ok R → 0 ≤ n → 0 ≤ n' → n ≠ n' → iblk_wf B → ib_at (put_ib n B R) n' = ib_at R n'.
Proof.
  intros HR Hn Hn' Hne HB. unfold ib_at, put_ib. rewrite lookup_alter. case_decide as He; [|done].
  rewrite <-He. destruct (R !! ib2sect n) as [b|] eqn:Hb; [|done].
  cbn [fmap option_fmap option_map mbind option_bind]. do 2 f_equal.
  pose proof (length_enc_iblk B HB) as Hl. apply slice_splice_ne; rewrite Hl.
  - rewrite (HR _ _ Hb). by apply ib2disp_fits.
  - by apply ib2disp_apart.
Qed.

Lemma put_ib_other R n B k : k ≠ ib2sect n → put_ib n B R !! k = R !! k.
Proof. intros Hk. unfold put_ib. by rewrite lookup_alter_ne. Qed.

Lemma put_ib_dom R n B k : is_Some (put_ib n B R !! k) ↔ is_Some (R !! k).
Proof. unfold put_ib. rewrite lookup_alter. case_decide; [|done]. subst. by rewrite fmap_is_Some. Qed.

(** Writing another block leaves the index block. *)
Lemma ib_at_insert R n k b : k ≠ ib2sect n → ib_at (<[k := b]> R) n = ib_at R n.
Proof. intros Hk. unfold ib_at. by rewrite lookup_insert_ne. Qed.

(** A block of bytes that holds nothing else than what was encoded is decoded to
    what it encodes: the next free block. *)
Lemma lf_nextdb_enc n r : int32 n → lf_nextdb (enc_lfdbfree n r) = n.
Proof. apply int32_here. Qed.

(** ** Every block has a meaning

    Whatever bytes a block holds, its fields are in the range of their types, and
    writing the structure back gives the same bytes. *)

Lemma words_slice b n : ∀ k, (8 + 4 * k + 4 * n ≤ length b)%nat → Forall byte b →
  words ((λ i, int_at b (8 + 4 * i)) <$> seq k n) = slice (8 + 4 * k) (4 * n) b.
Proof.
  induction n as [|n IH]; intros k Hl Hb; [done|]. cbn [seq fmap list_fmap]. rewrite words_cons, IH by (done || lia).
  rewrite le32_int_at by (done || lia). replace (8 + 4 * S k)%nat with (8 + 4 * k + 4)%nat by lia.
  rewrite slice_app. f_equal. lia.
Qed.

Lemma enc_dec_iblk b : length b = 72%nat → Forall byte b → iblk_wf (dec_iblk b) ∧ enc_iblk (dec_iblk b) = b.
Proof.
  intros Hl Hb. split.
  - split; unfold dec_iblk; cbn [ib_next ib_offset ib_dba]; [apply int32_s32|apply word_at_spec; [lia|done]| |by rewrite length_fmap, length_seq].
    apply Forall_forall. intros x (i & -> & _)%list_elem_of_fmap. apply int32_s32.
  - unfold enc_iblk, dec_iblk. cbn [ib_next ib_offset ib_dba].
    rewrite le32_int_at, le32_word_at, words_slice by (done || lia). change (8 + 4 * 0)%nat with 8%nat.
    rewrite slice_app, slice_app. cbn [Nat.add Nat.mul]. rewrite <-Hl. apply slice_all.
Qed.

Lemma enc_dec_ldentry b : length b = 24%nat → Forall byte b → ldentry_wf (dec_ldentry b) ∧ enc_ldentry (dec_ldentry b) = b.
Proof.
  intros Hl Hb. split.
  - split; cbn [dec_ldentry ld_size ld_ilist ld_name]; [apply word_at_spec; [lia|done]|apply int32_s32|apply length_slice; lia].
  - unfold enc_ldentry, dec_ldentry. cbn [ld_size ld_ilist ld_name].
    rewrite le32_int_at, le32_word_at by (done || lia). rewrite slice_app, slice_app.
    cbn [Nat.add]. rewrite <-Hl. apply slice_all.
Qed.

Lemma entries_slice b n : ∀ k, (28 + 24 * k + 24 * n ≤ length b)%nat → Forall byte b →
  concat (enc_ldentry <$> ((λ i, dec_ldentry (slice (28 + 24 * i) 24 b)) <$> seq k n)) = slice (28 + 24 * k) (24 * n) b.
Proof.
  induction n as [|n IH]; intros k Hl Hb; [done|]. cbn [seq fmap list_fmap concat]. rewrite IH by (done || lia).
  destruct (enc_dec_ldentry (slice (28 + 24 * k) 24 b)) as [_ ->]; [apply length_slice; lia|by apply Forall_slice|].
  replace (28 + 24 * S k)%nat with (28 + 24 * k + 24)%nat by lia. rewrite slice_app. f_equal. lia.
Qed.

Lemma enc_dec_lfdir b : length b = 512%nat → Forall byte b → lfdir_wf (dec_lfdir b) ∧ enc_lfdir (dec_lfdir b) = b.
Proof.
  intros Hl Hb.
  assert (∀ o, (o + 4 ≤ 512)%nat → uint32 (word_at b o)) as Hw by (intros; apply word_at_spec; [lia|done]).
  assert (∀ o, (o + 2 ≤ 512)%nat → int16 (half_at b o)) as Hh by (intros; apply half_at_spec; [lia|done]).
  split.
  - split; unfold dec_lfdir; cbn [lfd_fsysid lfd_vers lfd_subvers lfd_allzeros lfd_allones lfd_dfree lfd_ifree lfd_nfiles lfd_files lfd_revid];
      try apply int32_s32; try (apply Hw; lia); try (apply Hh; lia).
    + apply Forall_forall. intros e (i & -> & Hi)%list_elem_of_fmap. apply elem_of_seq in Hi.
      apply enc_dec_ldentry; [apply length_slice; lia|by apply Forall_slice].
    + by rewrite length_fmap, length_seq.
  - unfold enc_lfdir, dec_lfdir.
    cbn [lfd_fsysid lfd_vers lfd_subvers lfd_allzeros lfd_allones lfd_dfree lfd_ifree lfd_nfiles lfd_files lfd_revid].
    rewrite !le32_int_at, !le32_word_at, entries_slice by (done || lia).
    assert (∀ o, (o + 2 ≤ 512)%nat → le16 (half_at b o) = slice o 2 b) as Eh by (intros; apply half_at_spec; [lia|done]).
    rewrite !Eh by lia. change (28 + 24 * 0)%nat with 28%nat.
    rewrite !slice_app. cbn [Nat.add Nat.mul]. rewrite <-Hl. apply slice_all.
Qed.
