(* ===== verification/Lfs.v ===== *)
(** The local file system: device/lfs.  The master device (lfsinit, lfsopen)
    keeps the directory in memory; a slave device (the lfl files) holds, for an
    open file, the index block and the data block of the current position. *)

From S2P Require Import Prelude Types Heap ByteMem Words DevTypes Kernel KInv Sched Semaphore Device LfsDisk.

(** ** Access to the global variables *)

Definition getlf : M lfdata := gets (λ s, Lf_data (dev s)).
Definition setlf (f : lfdata → lfdata) : M unit :=
  modify (λ s, set_dev (set_Lf_data (f (Lf_data (dev s))) (dev s)) s).
Definition getdir : M lfdir := gets (λ s, lf_dir (Lf_data (dev s))).
Definition setdir (f : lfdir → lfdir) : M unit := setlf (λ d, set_lf_dir (f (lf_dir d)) d).

Definition getlfl (m : Z) : M lflcblk := λ s,
  match lfltab (dev s) !! m with Some f => Done f s | None => Fault end.
Definition setlfl (m : Z) (f : lflcblk → lflcblk) : M unit := λ s,
  match lfltab (dev s) !! m with
  | Some c => Done tt (set_dev (set_lfltab (<[m := f c]> (lfltab (dev s))) (dev s)) s)
  | None => Fault
  end.

(** The entries of the directory; [lfdirptr] is a pointer to one of them. *)
Definition getent (j : Z) : M ldentry := λ s,
  if bool_decide (0 ≤ j) then
    match lfd_files (lf_dir (Lf_data (dev s))) !! Z.to_nat j with Some e => Done e s | None => Fault end
  else Fault.
Definition setent (j : Z) (f : ldentry → ldentry) : M unit := λ s,
  if bool_decide (0 ≤ j) then
    match lfd_files (lf_dir (Lf_data (dev s))) !! Z.to_nat j with
    | Some e => setdir (λ d, set_lfd_files (<[Z.to_nat j := f e]> (lfd_files d)) d) s
    | None => Fault
    end
  else Fault.
Definition getptr (f : lflcblk) : M Z := match lfdirptr f with Some j => ret j | None => fault end.

(** [write(Lf_data.lf_dskdev, (char * ) &Lf_data.lf_dir, LF_AREA_DIR)] *)
Definition write_dir (disk : Z) : M Z := dir ← getdir; write_block disk (enc_lfdir dir) LF_AREA_DIR.

Definition set_ld_name (v : list Z) (r : ldentry) : ldentry := Ldentry (ld_size r) (ld_ilist r) v.
Definition set_lfname (v : list Z) (r : lflcblk) : lflcblk :=
  Lflcblk (lfstate r) (lfdev r) (lfmutex r) (lfdirptr r) (lfmode r) (lfpos r) v (lfinum r)
    (lfiblock r) (lfdnum r) (lfdblock r) (lfbyte r) (lfibdirty r) (lfdbdirty r).

(** ** Index blocks: lfibclear.c, lfibget.c, lfibput.c, lfiballoc.c *)

Definition lfibclear (offset : Z) : lfiblk :=
  Lfiblk LF_INULL (u32 offset) (replicate (Z.to_nat LF_IBLEN) LF_DNULL).

(** A buffer that was not read would be copied uninitialised. *)
Definition lfibget (diskdev inum : Z) : M lfiblk :=
  r ← read_block diskdev [] (ib2sect inum);
  let '(st, dbuff) := r in
  if bool_decide (st = SYSERR) then fault
  else ret (dec_iblk (slice (Z.to_nat (ib2disp inum)) 72 dbuff)).

Definition lfibput (diskdev inum : Z) (ibuff : lfiblk) : M Z :=
  let diskblock := ib2sect inum in
  r ← read_block diskdev [] diskblock;
  let '(st, dbuff) := r in
  if bool_decide (st = SYSERR) then ret SYSERR
  else
    _ ← write_block diskdev (splice (Z.to_nat (ib2disp inum)) (enc_iblk ibuff) dbuff) diskblock;
    ret OK.

Definition lfiballoc : M Z :=
  lf ← getlf;
  let ibnum := lfd_ifree (lf_dir lf) in
  (if bool_decide (ibnum = LF_INULL) then panic else ret tt);;
  iblock ← lfibget (lf_dskdev lf) ibnum;
  setdir (set_lfd_ifree (ib_next iblock));;
  _ ← write_dir (lf_dskdev lf);
  setlf (set_lf_dirdirty false);;
  ret ibnum.

(** ** Data blocks: lfdballoc.c, lfdbfree.c *)

Definition DFILL : Z := 43.

(** [dbuff] is the block that is left in the buffer. *)
Definition lfdballoc (dbuff : list Z) : M (Z * list Z) :=
  lf ← getlf;
  let dnum := lfd_dfree (lf_dir lf) in
  (if bool_decide (dnum = LF_DNULL) then panic else ret tt);;
  r ← read_block (lf_dskdev lf) dbuff dnum;
  let '(retval, dbuff) := r in
  (if bool_decide (retval = SYSERR) then panic else ret tt);;
  setdir (set_lfd_dfree (lf_nextdb dbuff));;
  _ ← write_dir (lf_dskdev lf);
  setlf (set_lf_dirdirty false);;
  ret (dnum, replicate (Z.to_nat LF_BLKSIZ) DFILL).

(** lf_unused of the local buffer is not initialised: [unused] is what the stack
    holds there. *)
Definition lfdbfree (unused : list Z) (diskdev dnum : Z) : M Z :=
  dir ← getdir;
  let buf := enc_lfdbfree (lfd_dfree dir) unused in
  setdir (set_lfd_dfree dnum);;
  _ ← write_block diskdev buf dnum;
  _ ← write_dir diskdev;
  ret OK.

(** ** lfflush.c *)

Definition when (b : bool) (c : M unit) : M unit := if b then c else ret tt.

Definition lfflush (m : Z) : M Z :=
  f ← getlfl m;
  if bool_decide (lfstate f = LF_FREE) then ret SYSERR
  else
    lf ← getlf;
    when (lf_dirdirty lf) (_ ← write_dir (lf_dskdev lf); setlf (set_lf_dirdirty false));;
    when (lfdbdirty f)
      (_ ← write_block (lf_dskdev lf) (lfdblock f) (lfdnum f);
       setlfl m (set_lfdbdirty false));;
    when (lfibdirty f)
      (_ ← lfibput (lf_dskdev lf) (lfinum f) (lfiblock f);
       setlfl m (set_lfibdirty false));;
    ret OK.

(** ** lfsetup.c *)

(** The first index block: of a file that has one, or a new one. *)
Definition setup_first (m : Z) : M unit :=
  f ← getlfl m;
  j ← getptr f;
  lf ← getlf;
  ld ← getent j;
  let ibnum := ld_ilist ld in
  ibnum ← (if bool_decide (ibnum = LF_INULL) then
      ibnum ← lfiballoc;
      setlfl m (set_lfiblock (lfibclear 0));;
      setent j (set_ld_ilist ibnum);;
      setlfl m (set_lfibdirty true);;
      ret ibnum
    else
      B ← lfibget (lf_dskdev lf) ibnum;
      setlfl m (set_lfiblock B);;
      ret ibnum);
  setlfl m (set_lfinum ibnum).

(** [while ((lfptr->lfpos & ~LF_IMASK) > ibptr->ib_offset)]: one turn *)
Definition setup_next (m : Z) : M unit :=
  f ← getlfl m;
  lf ← getlf;
  let ib := lfiblock f in
  (if bool_decide (ib_next ib = LF_INULL) then
    ibnum ← lfiballoc;
    let ib := set_ib_next ibnum ib in
    setlfl m (set_lfiblock ib);;
    _ ← lfibput (lf_dskdev lf) (lfinum f) ib;
    setlfl m (set_lfinum ibnum);;
    setlfl m (set_lfiblock (lfibclear (u32 (ib_offset ib + LF_IDATA))));;
    setlfl m (set_lfibdirty true)
  else
    let ibnum := ib_next ib in
    B ← lfibget (lf_dskdev lf) ibnum;
    setlfl m (set_lfiblock B);;
    setlfl m (set_lfinum ibnum));;
  setlfl m (set_lfdnum LF_DNULL).

(** The offsets of the index blocks of a file grow by LF_IDATA; [fuel] is the
    number of turns that takes.  A chain on which more turns are made is not that
    of a file: a fault. *)
Fixpoint setup_loop (fuel : nat) (m : Z) : M unit :=
  f ← getlfl m;
  if bool_decide (ib_offset (lfiblock f) < Z.ldiff (lfpos f) LF_IMASK) then
    match fuel with
    | O => fault
    | S fuel => setup_next m;; setup_loop fuel m
    end
  else ret tt.

(** The data block and the byte pointer. *)
Definition setup_data (m : Z) : M unit :=
  f ← getlfl m;
  lf ← getlf;
  let dindex := Z.shiftr (Z.land (lfpos f) LF_IMASK) 9 in
  match ib_dba (lfiblock f) !! Z.to_nat dindex with
  | None => fault
  | Some dnum =>
    dnum ← (if bool_decide (dnum = LF_DNULL) then
        r ← lfdballoc (lfdblock f);
        let '(dnum, dbuff) := r in
        setlfl m (set_lfdblock dbuff);;
        setlfl m (λ f, set_lfiblock (set_ib_dba (<[Z.to_nat dindex := dnum]> (ib_dba (lfiblock f))) (lfiblock f)) f);;
        setlfl m (set_lfibdirty true);;
        ret dnum
      else if bool_decide (dnum ≠ lfdnum f) then
        r ← read_block (lf_dskdev lf) (lfdblock f) dnum;
        setlfl m (set_lfdblock r.2);;
        setlfl m (set_lfdbdirty false);;
        ret dnum
      else ret dnum);
    setlfl m (set_lfdnum dnum);;
    setlfl m (set_lfbyte (Z.land (lfpos f) LF_DMASK))
  end.

(** lfsetup while it holds the mutex of the directory. *)
Definition lfsetup_locked (m : Z) : M unit :=
  f ← getlfl m;
  (if lfibdirty f || lfdbdirty f then _ ← lfflush m; ret tt else ret tt);;
  (if bool_decide (lfinum f = LF_INULL) then setup_first m
   else if bool_decide (lfpos f < ib_offset (lfiblock f)) then
     j ← getptr f;
     lf ← getlf;
     ld ← getent j;
     B ← lfibget (lf_dskdev lf) (ld_ilist ld);
     setlfl m (set_lfiblock B);;
     setlfl m (set_lfinum (ld_ilist ld))
   else ret tt);;
  setup_loop (Z.to_nat (lfpos f / LF_IDATA)) m;;
  setup_data m.

Definition lfsetup (m : Z) : M Z :=
  lf ← getlf;
  _ ← wait (lf_mutex lf);
  lfsetup_locked m;;
  _ ← signal (lf_mutex lf);
  ret OK.
