(* ===== verification/Lfl.v ===== *)
(** The operations of the local file system: the slave device of an open file
    (lflinit.c, lflgetc.c, lflputc.c, lflseek.c, lflread.c, lflwrite.c, lflclose.c,
    lflcontrol.c, lftruncate.c) and the master device and its utilities (lfsinit.c,
    lfgetmode.c, lfsopen.c, lfscheck.c, lfsckfmt.c, lfscreate.c). *)

From S2P Require Import Prelude Types Heap ByteMem Words DevTypes Kernel KInv Sched Semaphore Device LfsDisk Lfs.

(** ** One byte at a position: lflgetc.c, lflputc.c, lflseek.c *)

(** Set up the blocks of the current position when the pointer is outside. *)
Definition need_setup (m : Z) : M unit :=
  f ← getlfl m;
  if bool_decide (LF_BLKSIZ ≤ lfbyte f) then _ ← lfsetup m; ret tt else ret tt.

(** [*lfptr->lfbyte]: outside the block, a fault *)
Definition byte_ptr (f : lflcblk) : option nat :=
  if bool_decide (0 ≤ lfbyte f < Z.of_nat (length (lfdblock f))) then Some (Z.to_nat (lfbyte f)) else None.

Definition lflgetc (m : Z) : M Z :=
  f ← getlfl m;
  _ ← wait (lfmutex f);
  f ← getlfl m;
  if bool_decide (lfstate f ≠ LF_USED) then _ ← signal (lfmutex f); ret SYSERR
  else
    j ← getptr f;
    ld ← getent j;
    if bool_decide (ld_size ld ≤ lfpos f) then _ ← signal (lfmutex f); ret EOF
    else
      need_setup m;;
      f ← getlfl m;
      match byte_ptr f ≫= λ i, lfdblock f !! i with
      | None => fault
      | Some b =>
        let onebyte := Z.land 255 b in
        setlfl m (set_lfbyte (lfbyte f + 1));;
        setlfl m (set_lfpos (u32 (lfpos f + 1)));;
        _ ← signal (lfmutex f);
        ret onebyte
      end.

Definition lflputc (m ch : Z) : M Z :=
  f ← getlfl m;
  _ ← wait (lfmutex f);
  f ← getlfl m;
  if bool_decide (lfstate f ≠ LF_USED) then _ ← signal (lfmutex f); ret SYSERR
  else
    j ← getptr f;
    ld ← getent j;
    if bool_decide (ld_size ld < lfpos f) then _ ← signal (lfmutex f); ret SYSERR
    else
      need_setup m;;
      f ← getlfl m;
      ld ← getent j;
      (if bool_decide (ld_size ld ≤ lfpos f) then
         setent j (set_ld_size (u32 (ld_size ld + 1)));;
         setlf (set_lf_dirdirty true)
       else ret tt);;
      match byte_ptr f with
      | None => fault
      | Some i =>
        setlfl m (set_lfdblock (<[i := u8 ch]> (lfdblock f)));;
        setlfl m (set_lfbyte (lfbyte f + 1));;
        setlfl m (set_lfpos (u32 (lfpos f + 1)));;
        setlfl m (set_lfdbdirty true);;
        _ ← signal (lfmutex f);
        ret OK
      end.

Definition lflseek (m offset : Z) : M Z :=
  f ← getlfl m;
  _ ← wait (lfmutex f);
  f ← getlfl m;
  if bool_decide (lfstate f ≠ LF_USED) then _ ← signal (lfmutex f); ret SYSERR
  else
    j ← getptr f;
    ld ← getent j;
    if bool_decide (ld_size ld < offset) then _ ← signal (lfmutex f); ret SYSERR
    else
      setlfl m (set_lfpos offset);;
      setlfl m (set_lfbyte LF_BLKSIZ);;
      _ ← signal (lfmutex f);
      ret OK.

(** ** lflread.c, lflwrite.c *)

Fixpoint lflread_loop (n : nat) (m buff numread : Z) : M Z :=
  match n with
  | O => ret numread
  | S n =>
    nxtbyte ← lflgetc m;
    if bool_decide (nxtbyte = SYSERR) then ret SYSERR
    else if bool_decide (nxtbyte = EOF) then
      if bool_decide (numread = 0) then ret EOF else ret numread
    else
      hwrite (stb buff (Z.land 255 nxtbyte));;
      lflread_loop n m (u32 (buff + 1)) (numread + 1)
  end.
Definition lflread (m buff count : Z) : M Z :=
  if bool_decide (count < 0) then ret SYSERR else lflread_loop (Z.to_nat count) m buff 0.

Fixpoint lflwrite_loop (n : nat) (m buff count : Z) : M Z :=
  match n with
  | O => ret count
  | S n =>
    c ← hread (ldb buff);
    r ← lflputc m c;
    if bool_decide (r = SYSERR) then ret SYSERR else lflwrite_loop n m (u32 (buff + 1)) count
  end.
Definition lflwrite (m buff count : Z) : M Z :=
  if bool_decide (count < 0) then ret SYSERR else lflwrite_loop (Z.to_nat count) m buff count.

(** ** lftruncate.c *)

Section truncate.
Context (unused : list Z).

(** Free the data blocks of an index block. *)
Fixpoint free_dbs (diskdev : Z) (l : list Z) : M unit :=
  match l with
  | [] => ret tt
  | nextdb :: l =>
    (if bool_decide (nextdb ≠ LF_DNULL) then _ ← lfdbfree unused diskdev nextdb; ret tt else ret tt);;
    free_dbs diskdev l
  end.

(** No chain has more index blocks than the disk has room for. *)
Definition trunc_fuel : nat := Z.to_nat (7 * RM_BLKS).

Fixpoint trunc_loop (fuel : nat) (diskdev nextib ifree : Z) : M unit :=
  if bool_decide (nextib = ifree) then ret tt
  else
    match fuel with
    | O => fault
    | S fuel =>
      B ← lfibget diskdev nextib;
      free_dbs diskdev (ib_dba B);;
      let next := if bool_decide (ib_next B = LF_INULL) then ifree else ib_next B in
      _ ← lfibput diskdev nextib (Lfiblk next 0 (replicate (Z.to_nat LF_IBLEN) LF_DNULL));
      trunc_loop fuel diskdev next ifree
    end.

Definition lftruncate (m : Z) : M Z :=
  f ← getlfl m;
  j ← getptr f;
  ld ← getent j;
  if bool_decide (ld_size ld = 0) then ret OK
  else
    (if lfibdirty f || lfdbdirty f then _ ← lfflush m; ret tt else ret tt);;
    setlfl m (set_lfpos 0);;
    setlfl m (set_lfinum LF_INULL);;
    setlfl m (set_lfdnum LF_DNULL);;
    setlfl m (set_lfbyte LF_BLKSIZ);;
    lf ← getlf;
    let ifree := lfd_ifree (lf_dir lf) in
    ld ← getent j;
    let firstib := ld_ilist ld in
    setent j (set_ld_ilist LF_INULL);;
    setent j (set_ld_size 0);;
    setlf (set_lf_dirdirty true);;
    trunc_loop trunc_fuel (lf_dskdev lf) firstib ifree;;
    setdir (set_lfd_ifree firstib);;
    setlf (set_lf_dirdirty true);;
    ret OK.

(** ** lflcontrol.c, lflclose.c, lflinit.c *)

Definition lflcontrol (m func arg1 arg2 : Z) : M Z :=
  f ← getlfl m;
  _ ← wait (lfmutex f);
  f ← getlfl m;
  if bool_decide (lfstate f ≠ LF_USED) then _ ← signal (lfmutex f); ret SYSERR
  else if bool_decide (func = LF_CTL_TRUNC) then
    lf ← getlf;
    _ ← wait (lf_mutex lf);
    retval ← lftruncate m;
    _ ← signal (lf_mutex lf);
    _ ← signal (lfmutex f);
    ret retval
  else _ ← signal (lfmutex f); ret SYSERR.
End truncate.

Definition lflclose (m : Z) : M Z :=
  f ← getlfl m;
  _ ← wait (lfmutex f);
  f ← getlfl m;
  if bool_decide (lfstate f ≠ LF_USED) then _ ← signal (lfmutex f); ret SYSERR
  else
    lf ← getlf;
    (if lf_dirdirty lf || lfdbdirty f || lfibdirty f then _ ← lfflush m; ret tt else ret tt);;
    setlfl m (set_lfstate LF_FREE);;
    _ ← signal (lfmutex f);
    ret OK.

Definition lflinit (m dvnum : Z) : M Z :=
  mutex ← semcreate 1;
  setlfl m (λ f, Lflcblk LF_FREE dvnum mutex None (lfmode f) 0 (replicate (Z.to_nat LF_NAME_LEN) 0)
    LF_INULL zero_iblk 0 (replicate (Z.to_nat LF_BLKSIZ) 0) LF_BLKSIZ false false);;
  ret OK.

(** ** lfsinit.c, lfgetmode.c *)

Definition lfsinit : M Z :=
  mutex ← semcreate 1;
  setlf (λ _, Lfdata LF_DISK_DEV mutex zero_dir false false);;
  ret OK.

(** Each letter is accepted once, and only one of [o] and [n]: the fourth
    character is the null or an error. *)
Fixpoint lfgetmode_loop (fuel : nat) (mode mbits : Z) : M (option Z) :=
  match fuel with
  | O => fault
  | S fuel =>
    ch ← hread (ldb mode);
    let next bits := lfgetmode_loop fuel (u32 (mode + 1)) (Z.lor mbits bits) in
    let has b := bool_decide (Z.land mbits b ≠ 0) in
    if bool_decide (ch = 0) then ret (Some mbits)
    else if bool_decide (ch = 114) then if has LF_MODE_R then ret None else next LF_MODE_R
    else if bool_decide (ch = 119) then if has LF_MODE_W then ret None else next LF_MODE_W
    else if bool_decide (ch = 111) then
      if has LF_MODE_O || has LF_MODE_N then ret None else next LF_MODE_O
    else if bool_decide (ch = 110) then
      if has LF_MODE_O || has LF_MODE_N then ret None else next LF_MODE_N
    else ret None
  end.

Definition lfgetmode (mode : Z) : M Z :=
  r ← lfgetmode_loop 4 mode 0;
  match r with
  | None => ret SYSERR
  | Some mbits =>
    ret (if bool_decide (Z.land mbits LF_MODE_RW = 0) then Z.lor mbits LF_MODE_RW else mbits)
  end.

(** ** lfscheck.c *)

Definition LFS_REVID : Z :=
  Z.lor (Z.lor (Z.lor (Z.land (Z.shiftr LFS_ID 24) 255) (Z.land (Z.shiftr LFS_ID 8) 65280))
    (Z.land (Z.shiftl LFS_ID 8) 16711680)) (Z.land (Z.shiftl LFS_ID 24) 4278190080).

Definition lfscheck (dir : lfdir) : Z :=
  if bool_decide (lfd_fsysid dir ≠ LFS_ID) || bool_decide (lfd_allzeros dir ≠ 0)
     || bool_decide (lfd_allones dir ≠ 4294967295) then SYSERR
  else if bool_decide (lfd_revid dir ≠ LFS_REVID) then SYSERR
  else if bool_decide (lfd_nfiles dir < 0) then SYSERR
  else OK.

(** ** lfsopen.c *)

Definition name_char (name i : Z) : M Z := hread (ldb (u32 (name + i))).

(** The length check: the place of the null, or LF_NAME_LEN. *)
Fixpoint name_len (n : nat) (name i : Z) : M Z :=
  match n with
  | O => ret i
  | S n => c ← name_char name i; if bool_decide (c = 0) then ret i else name_len n name (i + 1)
  end.

(** Is the name (a string shorter than [n]) the one in the buffer [cmp]? *)
Fixpoint name_is (n : nat) (name i : Z) (cmp : list Z) : M bool :=
  match n with
  | O => fault
  | S n =>
    c ← name_char name i;
    match cmp with
    | [] => fault
    | x :: cmp =>
      if bool_decide (c = 0) then ret (bool_decide (x = 0))
      else if bool_decide (c ≠ x) then ret false
      else name_is n name (i + 1) cmp
    end
  end.

(** Copy the name, with its null, to the start of the buffer [to]. *)
Fixpoint name_copy (n : nat) (name i : Z) (to : list Z) : M (list Z) :=
  match n with
  | O => fault
  | S n =>
    c ← name_char name i;
    match to with
    | [] => fault
    | _ :: to =>
      if bool_decide (c = 0) then ret (c :: to)
      else r ← name_copy n name (i + 1) to; ret (c :: r)
    end
  end.

(** Search the slaves: [None] when the file is open, else the first free slave. *)
Fixpoint find_slave (n : nat) (name i lfnext : Z) : M (option Z) :=
  match n with
  | O => ret (Some lfnext)
  | S n =>
    f ← getlfl i;
    if bool_decide (lfstate f = LF_FREE) then
      find_slave n name (i + 1) (if bool_decide (lfnext = SYSERR) then i else lfnext)
    else
      same ← name_is 16 name 0 (lfname f);
      if same : bool then ret None else find_slave n name (i + 1) lfnext
  end.

(** Search the directory: the index of the file, if it is there. *)
Fixpoint find_file (n : nat) (name i : Z) : M (option Z) :=
  match n with
  | O => ret None
  | S n =>
    ld ← getent i;
    same ← name_is 16 name 0 (ld_name ld);
    if same : bool then ret (Some i) else find_file n name (i + 1)
  end.

(** The directory is in memory, or read now; false when it cannot be used. *)
Definition load_dir : M bool :=
  lf ← getlf;
  if lf_dirpresent lf then ret true
  else
    r ← read_block (lf_dskdev lf) (enc_lfdir (lf_dir lf)) LF_AREA_DIR;
    let '(retval, b) := r in
    if bool_decide (retval = SYSERR) then ret false
    else
      setdir (λ _, dec_lfdir b);;
      if bool_decide (lfscheck (dec_lfdir b) = SYSERR) then ret false
      else setlf (set_lf_dirpresent true);; ret true.

(** The entry to open: found, or added at the end; [None] is an error. *)
Definition open_entry (name mbits : Z) : M (option Z) :=
  dir ← getdir;
  found ← find_file (Z.to_nat (lfd_nfiles dir)) name 0;
  match found with
  | None =>
    if bool_decide (Z.land mbits LF_MODE_O ≠ 0) then ret None
    else if bool_decide (LF_NUM_DIR_ENT ≤ lfd_nfiles dir) then ret None
    else
      let j := lfd_nfiles dir in
      setdir (set_lfd_nfiles (j + 1));;
      setent j (set_ld_size 0);;
      ld ← getent j;
      nm ← name_copy 16 name 0 (ld_name ld);
      setent j (set_ld_name nm);;
      setent j (set_ld_ilist LF_INULL);;
      ret (Some j)
  | Some j => if bool_decide (Z.land mbits LF_MODE_N ≠ 0) then ret None else ret (Some j)
  end.

(** The slave at the start of the file, without blocks. *)
Definition open_slave (j mbits : Z) (nm : list Z) (f : lflcblk) : lflcblk :=
  Lflcblk LF_USED (lfdev f) (lfmutex f) (Some j) (Z.land mbits LF_MODE_RW) 0 nm LF_INULL
    (lfiblock f) LF_DNULL (lfdblock f) LF_BLKSIZ false false.

Definition lfsopen (name mode : Z) : M Z :=
  len ← name_len 16 name 0;
  if bool_decide (LF_NAME_LEN ≤ len) then ret SYSERR
  else
    mbits ← lfgetmode mode;
    if bool_decide (mbits = SYSERR) then ret SYSERR
    else
      slave ← find_slave (Z.to_nat Nlfl) name 0 SYSERR;
      match slave with
      | None => ret SYSERR
      | Some lfnext =>
        if bool_decide (lfnext = SYSERR) then ret SYSERR
        else
          lf ← getlf;
          _ ← wait (lf_mutex lf);
          present ← load_dir;
          if negb present then _ ← signal (lf_mutex lf); ret SYSERR
          else
            ent ← open_entry name mbits;
            match ent with
            | None => _ ← signal (lf_mutex lf); ret SYSERR
            | Some j =>
              f ← getlfl lfnext;
              nm ← name_copy 16 name 0 (lfname f);
              setlfl lfnext (open_slave j mbits nm);;
              _ ← signal (lf_mutex lf);
              ret (lfdev f)
            end
      end.

(** ** lfscreate.c *)

(** [for (i = ...; i < lfiblks-1; i++)]: the list of the free index blocks *)
Fixpoint create_ibs (n : nat) (disk i : Z) : M Z :=
  match n with
  | O => ret i
  | S n =>
    _ ← lfibput disk i (set_ib_next (i + 1) (lfibclear 0));
    create_ibs n disk (i + 1)
  end.
Fixpoint create_dbs (n : nat) (disk dbindex : Z) : M Z :=
  match n with
  | O => ret dbindex
  | S n =>
    _ ← write_block disk (enc_lfdbfree (dbindex + 1) (replicate 508 0)) dbindex;
    create_dbs n disk (dbindex + 1)
  end.

Definition new_dir (dfree : Z) : lfdir :=
  Lfdir LFS_ID 0 0 0 4294967295 dfree 0 0 (replicate 20 (Ldentry 0 0 (replicate 16 0))) LFS_REVID.

Definition lfscreate (disk lfiblks dsiz : Z) : M Z :=
  let sectors := dsiz / LF_BLKSIZ in
  let ibpersector := LF_BLKSIZ / 72 in
  let ibsectors := u32 (lfiblks + (ibpersector - 1)) / ibpersector in
  let lfiblks := s32 (ibsectors * ibpersector) in
  if bool_decide (sectors / 2 < ibsectors) then ret SYSERR
  else
    let dbindex := ibsectors + 1 in
    let dblks := u32 (sectors - ibsectors - 1) in
    retval ← write_block disk (enc_lfdir (new_dir dbindex)) LF_AREA_DIR;
    if bool_decide (retval = SYSERR) then ret SYSERR
    else
      i ← create_ibs (Z.to_nat (lfiblks - 1)) disk 0;
      _ ← lfibput disk i (set_ib_next LF_INULL (lfibclear 0));
      dbindex ← create_dbs (Z.to_nat (u32 (dblks - 1))) disk dbindex;
      _ ← write_block disk (enc_lfdbfree LF_DNULL (replicate 508 0)) dbindex;
      _ ← close_disk disk;
      ret OK.

(** ** lfsckfmt.c: the numbers of free blocks, which the source prints *)

Definition ck_fuel : nat := Z.to_nat (7 * RM_BLKS + 1).

Fixpoint count_ibs (fuel : nat) (disk nextib lfiblks : Z) : M Z :=
  if bool_decide (nextib = LF_INULL) then ret lfiblks
  else
    match fuel with
    | O => fault
    | S fuel => B ← lfibget disk nextib; count_ibs fuel disk (ib_next B) (lfiblks + 1)
    end.
Fixpoint count_dbs (fuel : nat) (disk nextdb : Z) (dblock : list Z) (dblks : Z) : M Z :=
  if bool_decide (nextdb = LF_DNULL) then ret dblks
  else
    match fuel with
    | O => fault
    | S fuel =>
      r ← read_block disk dblock nextdb;
      count_dbs fuel disk (lf_nextdb r.2) r.2 (dblks + 1)
    end.

Definition lfsckfmt (disk : Z) : M (Z * (Z * Z)) :=
  r ← read_block disk (enc_lfdir zero_dir) LF_AREA_DIR;
  let '(retval, b) := r in
  (if bool_decide (retval = SYSERR) then panic else ret tt);;
  let dir := dec_lfdir b in
  (if bool_decide (lfscheck dir = SYSERR) then panic else ret tt);;
  lfiblks ← count_ibs ck_fuel disk (lfd_ifree dir) 0;
  dblks ← count_dbs ck_fuel disk (lfd_dfree dir) [] 0;
  ret (OK, (lfiblks, dblks)).
