(* ===== verification/LfsRun.v ===== *)
(** Running the file system's code: computations that change only the drivers'
    variables, and what the calls on blocks do to these. *)

From S2P Require Import Prelude Types ByteMem Words DevTypes Heap Kernel KInv Sched Semaphore Device LfsDisk Lfs.

(** [f] takes the drivers' variables from [d] to [d'] and returns [a]; it changes
    nothing else and does not stop on the way. *)
Definition runs {A} (f : M A) (d : devstate) (a : A) (d' : devstate) : Prop :=
  ∀ s, dev s = d → f s = Done a (set_dev d' s).

Lemma set_dev_id s : set_dev (dev s) s = s.
Proof. by destruct s. Qed.

Lemma runs_ret {A} (a : A) d : runs (ret a) d a d.
Proof. intros s <-. by rewrite set_dev_id. Qed.

Lemma runs_bind {A B} (f : M A) (g : A → M B) d d1 d2 a b :
  runs f d a d1 → runs (g a) d1 b d2 → runs (f ≫= g) d b d2.
Proof. intros Hf Hg s Hs. kred. rewrite (Hf s Hs). cbn [obind]. by rewrite (Hg (set_dev d1 s) eq_refl). Qed.

Lemma runs_eq {A} (f : M A) d a d1 d2 : runs f d a d1 → d1 = d2 → runs f d a d2.
Proof. by intros ? <-. Qed.

Lemma runs_at {A} (f : M A) d d0 a d' : d = d0 → runs f d0 a d' → runs f d a d'.
Proof. by intros ->. Qed.

Lemma runs_getlf d : runs getlf d (Lf_data d) d.
Proof. intros s <-. unfold getlf, gets. by rewrite set_dev_id. Qed.

Lemma runs_getdir d : runs getdir d (lf_dir (Lf_data d)) d.
Proof. intros s <-. unfold getdir, gets. by rewrite set_dev_id. Qed.

Lemma runs_setlf f d : runs (setlf f) d tt (set_Lf_data (f (Lf_data d)) d).
Proof. by intros s <-. Qed.

Lemma runs_setdir f d :
  runs (setdir f) d tt (set_Lf_data (set_lf_dir (f (lf_dir (Lf_data d))) (Lf_data d)) d).
Proof. by intros s <-. Qed.

Lemma runs_getlfl d m f : lfltab d !! m = Some f → runs (getlfl m) d f d.
Proof. intros Hf s <-. unfold getlfl. by rewrite Hf, set_dev_id. Qed.

Lemma runs_setlfl d m f g :
  lfltab d !! m = Some f → runs (setlfl m g) d tt (set_lfltab (<[m := g f]> (lfltab d)) d).
Proof. intros Hf s <-. unfold setlfl. by rewrite Hf. Qed.

Lemma runs_getent d j e :
  0 ≤ j → lfd_files (lf_dir (Lf_data d)) !! Z.to_nat j = Some e → runs (getent j) d e d.
Proof. intros Hj He s <-. unfold getent. by rewrite bool_decide_eq_true_2, He, set_dev_id by done. Qed.

Lemma runs_setent d j e g :
  0 ≤ j → lfd_files (lf_dir (Lf_data d)) !! Z.to_nat j = Some e →
  runs (setent j g) d tt (set_Lf_data (set_lf_dir (set_lfd_files
    (<[Z.to_nat j := g e]> (lfd_files (lf_dir (Lf_data d)))) (lf_dir (Lf_data d))) (Lf_data d)) d).
Proof. intros Hj He s <-. unfold setent. by rewrite bool_decide_eq_true_2, He by done. Qed.

Lemma runs_getptr d f j : lfdirptr f = Some j → runs (getptr f) d j d.
Proof. intros Hj. unfold getptr. rewrite Hj. apply runs_ret. Qed.

(** The same at a given state. *)
Lemma getptr_done f j s : lfdirptr f = Some j → getptr f s = Done j s.
Proof. intros Hj. unfold getptr. by rewrite Hj. Qed.

Lemma getent_done j e s :
  0 ≤ j → lfd_files (lf_dir (Lf_data (dev s))) !! Z.to_nat j = Some e → getent j s = Done e s.
Proof. intros Hj He. rewrite (runs_getent (dev s) j e Hj He s eq_refl). by rewrite set_dev_id. Qed.

Lemma getlfl_done m f s : lfltab (dev s) !! m = Some f → getlfl m s = Done f s.
Proof. intros Hf. rewrite (runs_getlfl (dev s) m f Hf s eq_refl). by rewrite set_dev_id. Qed.

Lemma setlfl_done m f g s :
  lfltab (dev s) !! m = Some f →
  setlfl m g s = Done tt (set_dev (set_lfltab (<[m := g f]> (lfltab (dev s))) (dev s)) s).
Proof. intros Hf. by rewrite (runs_setlfl (dev s) m f g Hf s eq_refl). Qed.

(** ** Blocks of the RAM disk *)

(** A call of the disk's driver. *)
Lemma disk_call_runs {A} (bad a : A) f d d' : runs f d a d' → runs (disk_call RAM0 bad f) d a d'.
Proof.
  intros Hf s Hs. unfold disk_call. kred. change (isbaddev RAM0) with false.
  rewrite bool_decide_eq_true_2 by done. kred. rewrite (Hf (set_intr false s) Hs). kred. by destruct s.
Qed.

Lemma read_block_runs d old n b :
  Ram d !! n = Some b → runs (read_block RAM0 old n) d (OK, b) d.
Proof.
  intros Hb. apply disk_call_runs. intros s <-. unfold ramread. by rewrite Hb, set_dev_id.
Qed.

Lemma write_block_runs d buff n :
  is_Some (Ram d !! n) → runs (write_block RAM0 buff n) d OK (set_Ram (<[n := buff]> (Ram d)) d).
Proof.
  intros [b Hb]. apply disk_call_runs. intros s <-. unfold ramwrite. by rewrite Hb.
Qed.

Lemma write_dir_runs d :
  is_Some (Ram d !! 0) →
  runs (write_dir RAM0) d OK (set_Ram (<[0 := enc_lfdir (lf_dir (Lf_data d))]> (Ram d)) d).
Proof. intros Hb. eapply runs_bind; [apply runs_getdir|]. by apply write_block_runs. Qed.

Lemma lfibget_runs d n B : ib_at (Ram d) n = Some B → runs (lfibget RAM0 n) d B d.
Proof.
  unfold ib_at. intros Hb. destruct (Ram d !! ib2sect n) as [b|] eqn:Hs; [|done].
  injection Hb as <-. eapply runs_bind; [by apply read_block_runs|]. apply runs_ret.
Qed.

Lemma lfibput_runs d n B :
  is_Some (Ram d !! ib2sect n) → runs (lfibput RAM0 n B) d OK (set_Ram (put_ib n B (Ram d)) d).
Proof.
  intros [b Hb]. eapply runs_bind; [by apply read_block_runs|].
  eapply runs_bind; [by apply write_block_runs|].
  replace (put_ib n B (Ram d)) with (<[ib2sect n := splice (Z.to_nat (ib2disp n)) (enc_iblk B) b]> (Ram d)).
  - apply runs_ret.
  - unfold put_ib. apply map_eq. intros k. rewrite lookup_insert, lookup_alter.
    case_decide; [subst; by rewrite Hb|done].
Qed.

Lemma runs_if {A} (b : bool) (f g : M A) d a d' :
  (b = true → runs f d a d') → (b = false → runs g d a d') → runs (if b then f else g) d a d'.
Proof. destruct b; auto. Qed.

(** [panic] when a test succeeds that does not. *)
Lemma runs_no_panic (P : Prop) `{!Decision P} d :
  ¬ P → runs (if bool_decide P then panic else ret tt) d tt d.
Proof. intros HP. rewrite bool_decide_eq_false_2 by done. apply runs_ret. Qed.

(** ** Allocation: the head of the free list, and the directory on the disk *)

Definition dir_written (dir : lfdir) (d : devstate) : devstate :=
  set_Lf_data (set_lf_dirdirty false (set_lf_dir dir (Lf_data d)))
    (set_Ram (<[0 := enc_lfdir dir]> (Ram d)) d).

Lemma lfiballoc_runs d n B :
  lf_dskdev (Lf_data d) = RAM0 → is_Some (Ram d !! 0) → n ≠ LF_INULL →
  lfd_ifree (lf_dir (Lf_data d)) = n → ib_at (Ram d) n = Some B →
  runs lfiballoc d n (dir_written (set_lfd_ifree (ib_next B) (lf_dir (Lf_data d))) d).
Proof.
  intros Hdev H0 Hn <- HB. eapply runs_bind; [apply runs_getlf|]. cbv zeta. rewrite Hdev.
  eapply runs_bind; [by apply runs_no_panic|].
  eapply runs_bind; [by apply lfibget_runs|].
  eapply runs_bind; [apply runs_setdir|].
  eapply runs_bind; [by apply write_dir_runs|].
  eapply runs_bind; [apply runs_setlf|]. apply runs_ret.
Qed.

Lemma lfdballoc_runs d buff n b :
  lf_dskdev (Lf_data d) = RAM0 → is_Some (Ram d !! 0) → n ≠ LF_DNULL →
  lfd_dfree (lf_dir (Lf_data d)) = n → Ram d !! n = Some b →
  runs (lfdballoc buff) d (n, replicate 512 DFILL)
    (dir_written (set_lfd_dfree (lf_nextdb b) (lf_dir (Lf_data d))) d).
Proof.
  intros Hdev H0 Hn <- Hb. eapply runs_bind; [apply runs_getlf|]. cbv zeta. rewrite Hdev.
  eapply runs_bind; [by apply runs_no_panic|].
  eapply runs_bind; [by apply read_block_runs|]. cbn beta iota.
  eapply runs_bind; [by apply runs_no_panic|].
  eapply runs_bind; [apply runs_setdir|].
  eapply runs_bind; [by apply write_dir_runs|].
  eapply runs_bind; [apply runs_setlf|]. apply runs_ret.
Qed.

(** ** lfflush *)

Definition flush_dir (d : devstate) : devstate :=
  if lf_dirdirty (Lf_data d) then dir_written (lf_dir (Lf_data d)) d else d.
Definition flush_data (f : lflcblk) (R : gmap Z (list Z)) : gmap Z (list Z) :=
  if lfdbdirty f then <[lfdnum f := lfdblock f]> R else R.
Definition flush_iblk (f : lflcblk) (R : gmap Z (list Z)) : gmap Z (list Z) :=
  if lfibdirty f then put_ib (lfinum f) (lfiblock f) R else R.
Definition clean (f : lflcblk) : lflcblk := set_lfibdirty false (set_lfdbdirty false f).

(** All that has changed is on the disk. *)
Definition flushed (m : Z) (f : lflcblk) (d : devstate) : devstate :=
  let d := flush_dir d in
  set_lfltab (<[m := clean f]> (lfltab d)) (set_Ram (flush_iblk f (flush_data f (Ram d))) d).

Lemma clean_id f : lfibdirty f = false → lfdbdirty f = false → clean f = f.
Proof. destruct f. cbn. by intros -> ->. Qed.

Lemma lfflush_runs m f d :
  lf_dskdev (Lf_data d) = RAM0 → lfltab d !! m = Some f → lfstate f = LF_USED →
  is_Some (Ram d !! 0) → (lfdbdirty f = true → is_Some (Ram d !! lfdnum f)) →
  (lfibdirty f = true → is_Some (Ram d !! ib2sect (lfinum f))) →
  runs (lfflush m) d OK (flushed m f d).
Proof.
  intros Hdev Hf Hu H0 Hd Hi. eapply runs_bind; [by apply runs_getlfl|].
  rewrite bool_decide_eq_false_2 by congruence. eapply runs_bind; [apply runs_getlf|].
  rewrite Hdev. unfold flushed. cbv zeta.
  assert (lfltab (flush_dir d) = lfltab d ∧ Lf_data (flush_dir d) = set_lf_dirdirty false (Lf_data d) ∧
    (∀ k, is_Some (Ram d !! k) → is_Some (Ram (flush_dir d) !! k))) as (El & _ & Hr).
  { unfold flush_dir. destruct (lf_dirdirty (Lf_data d)) eqn:Edd; cbn.
    - split_and!; [done|by destruct (Lf_data d)|]. intros k Hk. rewrite lookup_insert_is_Some'. by right.
    - split_and!; [done|destruct (Lf_data d); cbn in *; by subst|done]. }
  eapply (runs_bind _ _ _ (flush_dir d)).
  { unfold flush_dir. destruct (lf_dirdirty (Lf_data d)); cbn [when]; [|apply runs_ret].
    eapply runs_bind; [by apply write_dir_runs|]. apply runs_setlf. }
  set (d1 := flush_dir d) in *.
  eapply (runs_bind _ _ _ (set_lfltab (<[m := set_lfdbdirty false f]> (lfltab d1))
    (set_Ram (flush_data f (Ram d1)) d1))).
  { unfold flush_data. destruct (lfdbdirty f) eqn:E; cbn [when].
    - eapply runs_bind; [by apply write_block_runs; auto|].
      eapply runs_eq; [apply runs_setlfl; cbn; by rewrite El|done].
    - rewrite insert_id; [|rewrite El; destruct f; cbn in *; by subst].
      replace (set_lfltab _ _) with d1 by by destruct d1. apply runs_ret. }
  assert (∀ k, is_Some (Ram d !! k) → is_Some (flush_data f (Ram d1) !! k)) as Hr2.
  { intros k Hk. unfold flush_data. destruct (lfdbdirty f); [|by auto]. rewrite lookup_insert_is_Some'. auto. }
  unfold flush_iblk, clean. destruct (lfibdirty f) eqn:E; cbn [when].
  - eapply runs_bind; [eapply runs_bind; [apply lfibput_runs; cbn; auto|]|].
    { apply (runs_setlfl _ _ (set_lfdbdirty false f)). apply lookup_insert_eq. }
    eapply runs_eq; [apply runs_ret|]. cbn. by rewrite insert_insert_eq.
  - eapply runs_bind; [apply runs_ret|]. eapply runs_eq; [apply runs_ret|]. cbn. do 2 f_equal.
    destruct f; cbn in *; by subst.
Qed.
