(* ===== verification/LfsRep.v ===== *)
(** What the file system's data mean: a file is a sequence of bytes, kept in data
    blocks that its index blocks list; the blocks that no file uses are on the two
    free lists.  An open file's current index block and data block are in its
    control block, and may be newer there than on the disk. *)

From S2P Require Import Prelude Types ByteMem Words DevTypes Heap Kernel KInv Device LfsDisk Lfs LfsRun.

(** A file: the numbers of its index blocks and of its data blocks, in order, and
    its bytes. *)
Record lfile := LFile { fl_ibs : list Z; fl_dbs : list Z; fl_data : list Z }.

(** The data blocks of the [k]-th index block, and the index block. *)
Definition dba_of (dbs : list Z) (k : nat) : list Z :=
  take 16 (drop (16 * k) dbs ++ replicate 16 LF_DNULL).
Definition iblock_of (fl : lfile) (k : nat) : lfiblk :=
  Lfiblk (default LF_INULL (fl_ibs fl !! S k)) (LF_IDATA * Z.of_nat k) (dba_of (fl_dbs fl) k).

(** The index block and the data block as the file system sees them: in the
    control block of the open file, or else on the disk. *)
Definition ib_eff (R : gmap Z (list Z)) (o : option lflcblk) (n : Z) : option lfiblk :=
  match o with Some f => if bool_decide (lfinum f = n) then Some (lfiblock f) else ib_at R n | None => ib_at R n end.
Definition db_eff (R : gmap Z (list Z)) (o : option lflcblk) (n : Z) : option (list Z) :=
  match o with Some f => if bool_decide (lfdnum f = n) then Some (lfdblock f) else R !! n | None => R !! n end.

(** The block holds the bytes of the file from [512 * i] on. *)
Definition block_holds (data : list Z) (i : nat) (ob : option (list Z)) : Prop :=
  ∃ b, ob = Some b ∧ length b = 512%nat ∧
    ∀ q c, (q < 512)%nat → data !! (512 * i + q)%nat = Some c → b !! q = Some c.

Record file_at (R : gmap Z (list Z)) (ld : ldentry) (o : option lflcblk) (fl : lfile) : Prop := File_at {
  fa_ilist : ld_ilist ld = default LF_INULL (head (fl_ibs fl));
  fa_size : ld_size ld = Z.of_nat (length (fl_data fl));
  fa_ibs : ∀ k n, fl_ibs fl !! k = Some n → ib_eff R o n = Some (iblock_of fl k);
  fa_dbs : ∀ i n, fl_dbs fl !! i = Some n → block_holds (fl_data fl) i (db_eff R o n);
  fa_fits : (length (fl_data fl) ≤ 512 * length (fl_dbs fl))%nat;
  fa_index : (length (fl_dbs fl) ≤ 16 * length (fl_ibs fl))%nat;
  fa_bytes : Forall byte (fl_data fl) }.

(** The control block [f] of the open file [fl], entry [j] of the directory: what
    is not marked as changed is on the disk, and the byte pointer, unless it is
    behind the block, is that of the position. *)
Record cb_ok (R : gmap Z (list Z)) (f : lflcblk) (fl : lfile) (j : Z) : Prop := Cb_ok {
  cb_used : lfstate f = LF_USED;
  cb_ptr : lfdirptr f = Some j;
  cb_inum : lfinum f = LF_INULL ∨ lfinum f ∈ fl_ibs fl;
  cb_idirty : lfibdirty f = true → lfinum f ∈ fl_ibs fl;
  cb_iclean : lfibdirty f = false → lfinum f ∈ fl_ibs fl → ib_at R (lfinum f) = Some (lfiblock f);
  cb_dnum : lfdnum f = LF_DNULL ∨ lfdnum f ∈ fl_dbs fl;
  cb_ddirty : lfdbdirty f = true → lfdnum f ∈ fl_dbs fl;
  cb_dclean : lfdbdirty f = false → ∀ i, fl_dbs fl !! i = Some (lfdnum f) →
    block_holds (fl_data fl) i (R !! lfdnum f);
  cb_len : length (lfdblock f) = 512%nat;
  cb_pos : 0 ≤ lfpos f ≤ Z.of_nat (length (fl_data fl));
  cb_byte : lfbyte f = LF_BLKSIZ ∨ ∃ i, fl_dbs fl !! i = Some (lfdnum f) ∧
    lfpos f = 512 * Z.of_nat i + lfbyte f ∧ 0 ≤ lfbyte f < 512 }.

(** ** The whole file system

    [F] are the files by directory index, [OP] the slave devices of those that are
    open, [FI] and [FD] the free lists.  The index blocks are in the sectors 1 to
    [ns], the data blocks behind them. *)

(** Lists of block numbers, by owner; -1 owns the free list. *)
Definition ilists (F : gmap Z lfile) (FI : list Z) (j : Z) : list Z :=
  if bool_decide (j = -1) then FI else match F !! j with Some fl => fl_ibs fl | None => [] end.
Definition dlists (F : gmap Z lfile) (FD : list Z) (j : Z) : list Z :=
  if bool_decide (j = -1) then FD else match F !! j with Some fl => fl_dbs fl | None => [] end.

(** No block is on two lists, or twice on one. *)
Definition apart (L : Z → list Z) : Prop :=
  ∀ j1 j2 k1 k2 n, L j1 !! k1 = Some n → L j2 !! k2 = Some n → j1 = j2 ∧ k1 = k2.

(** Every block of the list [l] leads to the next, and the last to [-1]. *)
Definition linked (next : Z → option Z) (l : list Z) : Prop :=
  ∀ k n, l !! k = Some n → next n = Some (default (-1) (l !! S k)).

Definition open_cb (d : devstate) (OP : gmap Z Z) (j : Z) : option lflcblk := m ← OP !! j; lfltab d !! m.
Definition entry (d : devstate) (j : Z) : option ldentry := lfd_files (lf_dir (Lf_data d)) !! Z.to_nat j.

Section rep.
Context (ns : Z).

Record fs_rep (d : devstate) (F : gmap Z lfile) (OP : gmap Z Z) (FI FD : list Z) : Prop := Fs_rep {
  fr_dev : lf_dskdev (Lf_data d) = RAM0;
  fr_disk : disk_ok (Ram d);
  fr_all : ∀ k, 0 ≤ k < RM_BLKS → is_Some (Ram d !! k);
  fr_ns : 0 ≤ ns < RM_BLKS;
  fr_dir : lfdir_wf (lf_dir (Lf_data d));
  fr_max : 0 ≤ lfd_nfiles (lf_dir (Lf_data d)) ≤ LF_NUM_DIR_ENT;
  fr_dom : ∀ j, is_Some (F !! j) ↔ 0 ≤ j < lfd_nfiles (lf_dir (Lf_data d));
  fr_files : ∀ j fl, F !! j = Some fl → ∃ ld, entry d j = Some ld ∧ file_at (Ram d) ld (open_cb d OP j) fl;
  fr_open : ∀ j m, OP !! j = Some m →
    ∃ f fl, lfltab d !! m = Some f ∧ F !! j = Some fl ∧ cb_ok (Ram d) f fl j;
  fr_slaves : ∀ m f, lfltab d !! m = Some f → lfstate f = LF_USED → ∃ j, OP !! j = Some m;
  fr_ifree : lfd_ifree (lf_dir (Lf_data d)) = default LF_INULL (head FI);
  fr_ilist : linked (λ n, ib_next <$> ib_at (Ram d) n) FI;
  fr_dfree : lfd_dfree (lf_dir (Lf_data d)) = default LF_DNULL (head FD);
  fr_dlist : linked (λ n, lf_nextdb <$> Ram d !! n) FD;
  fr_iapart : apart (ilists F FI);
  fr_dapart : apart (dlists F FD);
  fr_iarea : ∀ j n, n ∈ ilists F FI j → 0 ≤ n < 7 * ns;
  fr_darea : ∀ j n, n ∈ dlists F FD j → ns < n < RM_BLKS }.

(** ** Changes of the disk *)

(** Only the index blocks [il], the data blocks [dl] and the directory's block have
    changed. *)
Record disk_upd (il dl : list Z) (R R' : gmap Z (list Z)) : Prop := Disk_upd {
  du_ok : disk_ok R';
  du_dom : ∀ k, is_Some (R !! k) → is_Some (R' !! k);
  du_ib : ∀ n, 0 ≤ n < 7 * ns → n ∉ il → ib_at R' n = ib_at R n;
  du_db : ∀ n, ns < n → n ∉ dl → R' !! n = R !! n }.

Lemma disk_upd_refl il dl R : disk_ok R → disk_upd il dl R R.
Proof. by split. Qed.

Lemma disk_upd_trans il dl R1 R2 R3 : disk_upd il dl R1 R2 → disk_upd il dl R2 R3 → disk_upd il dl R1 R3.
Proof.
  intros [_ D1 I1 B1] [Ok D2 I2 B2]. split; [done|auto|..].
  - intros n Hn Hi. by rewrite I2, I1.
  - intros n Hn Hi. by rewrite B2, B1.
Qed.

Lemma disk_upd_weaken il il' dl dl' R R' :
  (∀ x, x ∈ il → x ∈ il') → (∀ x, x ∈ dl → x ∈ dl') → disk_upd il dl R R' → disk_upd il' dl' R R'.
Proof. intros Hi Hd [U1 U2 U3 U4]. split; [done..| |]; intros n Hn Hni; auto. Qed.

Lemma ib2sect_range n : 0 ≤ n < 7 * ns → 1 ≤ ib2sect n ≤ ns.
Proof. intros Hn. destruct (ib2_eq n ltac:(lia)) as [-> _]. Z.to_euclidean_division_equations. lia. Qed.

Lemma disk_upd_dir il dl R dir : 0 ≤ ns → disk_ok R → lfdir_wf dir → disk_upd il dl R (<[0 := enc_lfdir dir]> R).
Proof.
  intros Hns HR Hd. split.
  - apply disk_ok_insert; [done|by apply length_enc_lfdir].
  - intros k Hk. rewrite lookup_insert_is_Some'. by right.
  - intros n Hn _. apply ib_at_insert. pose proof (ib2sect_range n Hn). lia.
  - intros n Hn _. rewrite lookup_insert_ne by lia. done.
Qed.

Lemma disk_upd_ib il dl R n B :
  disk_ok R → 0 ≤ n < 7 * ns → iblk_wf B → n ∈ il → disk_upd il dl R (put_ib n B R).
Proof.
  intros HR Hn HB Hin. split.
  - apply put_ib_ok; [done|lia|done].
  - intros k. apply put_ib_dom.
  - intros n' Hn' Hi. apply ib_at_put_ne; [done|lia|lia|congruence|done].
  - intros k Hk _. apply put_ib_other. pose proof (ib2sect_range n Hn). lia.
Qed.

Lemma disk_upd_db il dl R n b :
  disk_ok R → ns < n → length b = 512%nat → n ∈ dl → disk_upd il dl R (<[n := b]> R).
Proof.
  intros HR Hn Hb Hin. split.
  - by apply disk_ok_insert.
  - intros k Hk. rewrite lookup_insert_is_Some'. by right.
  - intros n' Hn' _. apply ib_at_insert. pose proof (ib2sect_range n' Hn'). lia.
  - intros k Hk Hi. rewrite lookup_insert_ne; [done|congruence].
Qed.

(** ** Block numbers move from a free list to a file *)

Lemma apart_move L L' j l :
  j ≠ -1 → (∀ i, i ≠ j → i ≠ -1 → L' i = L i) → L (-1) = l ++ L' (-1) → L' j = L j ++ l →
  apart L → apart L'.
Proof.
  intros Hj Ho Hf Hl HL.
  assert (∀ i k n, L' i !! k = Some n →
    (i ≠ -1 ∧ i ≠ j ∧ L i !! k = Some n) ∨ (i = -1 ∧ L (-1) !! (length l + k)%nat = Some n) ∨
    (i = j ∧ (k < length (L j))%nat ∧ L j !! k = Some n) ∨
    (i = j ∧ (length (L j) ≤ k < length (L j) + length l)%nat ∧ L (-1) !! (k - length (L j))%nat = Some n)) as Hc.
  { intros i k n Hk. destruct (decide (i = -1)) as [->|Hi].
    - right. left. split; [done|]. rewrite Hf, lookup_app_r by lia. by replace (_ - _)%nat with k by lia.
    - destruct (decide (i = j)) as [->|Hij]; [|left; split_and!; try done; by rewrite <-Ho].
      right. right. rewrite Hl in Hk. destruct (decide (k < length (L j))%nat) as [Hlt|Hge].
      + left. rewrite lookup_app_l in Hk by done. done.
      + right. rewrite lookup_app_r in Hk by lia. pose proof (lookup_lt_Some _ _ _ Hk) as Hb.
        split_and!; [done|lia|lia|]. rewrite Hf, lookup_app_l by done. done. }
  intros j1 j2 k1 k2 n H1 H2.
  destruct (Hc _ _ _ H1) as [(?&?&E1)|[(?&E1)|[(?&?&E1)|(?&?&E1)]]],
    (Hc _ _ _ H2) as [(?&?&E2)|[(?&E2)|[(?&?&E2)|(?&?&E2)]]];
    destruct (HL _ _ _ _ _ E1 E2); subst; try done; split; try done; lia.
Qed.

Lemma apart_NoDup L j : apart L → NoDup (L j).
Proof. intros HL. apply NoDup_alt. intros k1 k2 n H1 H2. by destruct (HL _ _ _ _ _ H1 H2). Qed.

Lemma apart_disjoint L j1 j2 n : apart L → j1 ≠ j2 → n ∈ L j1 → n ∉ L j2.
Proof.
  intros HL Hne [k1 H1]%list_elem_of_lookup [k2 H2]%list_elem_of_lookup.
  by destruct (HL _ _ _ _ _ H1 H2).
Qed.

(** ** Files that are not concerned by a change *)

Lemma block_holds_eq data i o o' : o = o' → block_holds data i o → block_holds data i o'.
Proof. by intros ->. Qed.

Lemma file_at_frame R R' ld o fl :
  (∀ n, n ∈ fl_ibs fl → ib_at R' n = ib_at R n) → (∀ n, n ∈ fl_dbs fl → R' !! n = R !! n) →
  file_at R ld o fl → file_at R' ld o fl.
Proof.
  intros Hi Hd [A1 A2 A3 A4 A5 A6 A7]. split; try done.
  - intros k n Hk. rewrite <-(A3 k n Hk). unfold ib_eff. rewrite Hi; [done|by eapply list_elem_of_lookup_2].
  - intros i n Hn. apply (block_holds_eq _ _ (db_eff R o n)); [|by apply A4].
    unfold db_eff. rewrite Hd; [done|by eapply list_elem_of_lookup_2].
Qed.

Lemma cb_ok_frame R R' f fl j :
  (∀ n, n ∈ fl_ibs fl → ib_at R' n = ib_at R n) → (∀ n, n ∈ fl_dbs fl → R' !! n = R !! n) →
  cb_ok R f fl j → cb_ok R' f fl j.
Proof.
  intros Hi Hd []. split; try done.
  - intros Hc Hin. rewrite Hi by done. auto.
  - intros Hc i Hn. rewrite Hd by (by eapply list_elem_of_lookup_2). auto.
Qed.

(** The directory after entry [j] and the free lists have changed. *)
Definition upd_dir (j : Z) (ld : ldentry) (FI FD : list Z) (dir : lfdir) : lfdir :=
  set_lfd_files (<[Z.to_nat j := ld]> (lfd_files dir))
    (set_lfd_ifree (default LF_INULL (head FI)) (set_lfd_dfree (default LF_DNULL (head FD)) dir)).

Lemma upd_dir_id j ld FI FD dir :
  lfd_files dir !! Z.to_nat j = Some ld → lfd_ifree dir = default LF_INULL (head FI) →
  lfd_dfree dir = default LF_DNULL (head FD) → upd_dir j ld FI FD dir = dir.
Proof.
  destruct dir. cbn. intros Hld -> ->. unfold upd_dir, set_lfd_files, set_lfd_ifree, set_lfd_dfree. cbn.
  by rewrite list_insert_id.
Qed.

Lemma head_range (l : list Z) (lo hi : Z) :
  lo ≤ -1 → 0 ≤ hi → (∀ n, n ∈ l → lo ≤ n < hi) → lo ≤ default (-1) (head l) < hi.
Proof. intros Hlo Hhi Hl. destruct l as [|n l]; cbn; [lia|]. apply Hl. by left. Qed.

Lemma upd_dir_wf j ld FI FD dir :
  lfdir_wf dir → ldentry_wf ld → (∀ n, n ∈ FI → int32 n) → (∀ n, n ∈ FD → int32 n) →
  lfdir_wf (upd_dir j ld FI FD dir).
Proof.
  intros [] Hld Hi Hd. split; try done.
  - cbn. apply head_range; [lia|lia|done].
  - cbn. apply head_range; [lia|lia|done].
  - cbn. by apply Forall_insert.
  - cbn. by rewrite length_insert.
Qed.

Lemma ilists_other F FI FI' j fl' i :
  i ≠ j → i ≠ -1 → ilists (<[j := fl']> F) FI' i = ilists F FI i.
Proof. intros H1 H2. unfold ilists. by rewrite bool_decide_eq_false_2, lookup_insert_ne. Qed.

Lemma dlists_other F FD FD' j fl' i :
  i ≠ j → i ≠ -1 → dlists (<[j := fl']> F) FD' i = dlists F FD i.
Proof. intros H1 H2. unfold dlists. by rewrite bool_decide_eq_false_2, lookup_insert_ne. Qed.

Lemma ilists_file F FI j fl : j ≠ -1 → F !! j = Some fl → ilists F FI j = fl_ibs fl.
Proof. intros Hj Hf. unfold ilists. by rewrite bool_decide_eq_false_2, Hf. Qed.

Lemma dlists_file F FD j fl : j ≠ -1 → F !! j = Some fl → dlists F FD j = fl_dbs fl.
Proof. intros Hj Hf. unfold dlists. by rewrite bool_decide_eq_false_2, Hf. Qed.

Lemma ilists_free F FI : ilists F FI (-1) = FI.
Proof. done. Qed.

Lemma dlists_free F FD : dlists F FD (-1) = FD.
Proof. done. Qed.

Lemma fs_file_range d F OP FI FD j fl : fs_rep d F OP FI FD → F !! j = Some fl → 0 ≤ j < 20.
Proof.
  intros Hr Hf. pose proof (fr_max _ _ _ _ _ Hr) as Hm. unfold LF_NUM_DIR_ENT in Hm.
  enough (0 ≤ j < lfd_nfiles (lf_dir (Lf_data d))) by lia. apply (fr_dom _ _ _ _ _ Hr). by eexists.
Qed.

Lemma linked_drop next l l' : linked next (l ++ l') → linked next l'.
Proof.
  intros H k n Hk. rewrite (H (length l + k)%nat n).
  - do 2 f_equal. rewrite lookup_app_r by lia. f_equal. lia.
  - rewrite lookup_app_r by lia. rewrite <-Hk. f_equal. lia.
Qed.

Lemma blocks_linked_ext next next' l : (∀ n, n ∈ l → next' n = next n) → linked next l → linked next' l.
Proof. intros He H k n Hk. rewrite He; [by apply H|]. by eapply list_elem_of_lookup_2. Qed.

(** ** Changes of an open file *)

(** The block lists are in order: no block is on two of them, all are in their area,
    and the free ones are linked on the disk. *)
Record lists_ok (R : gmap Z (list Z)) (F : gmap Z lfile) (FI FD : list Z) : Prop := Lists_ok {
  lk_iapart : apart (ilists F FI);
  lk_dapart : apart (dlists F FD);
  lk_iarea : ∀ i n, n ∈ ilists F FI i → 0 ≤ n < 7 * ns;
  lk_darea : ∀ i n, n ∈ dlists F FD i → ns < n < RM_BLKS;
  lk_ilist : linked (λ n, ib_next <$> ib_at R n) FI;
  lk_dlist : linked (λ n, lf_nextdb <$> R !! n) FD }.

Lemma fs_lists d F OP FI FD : fs_rep d F OP FI FD → lists_ok (Ram d) F FI FD.
Proof. by intros []. Qed.

(** The blocks of the files but [j] are as they were. *)
Definition others_kept (R R' : gmap Z (list Z)) (F : gmap Z lfile) (j : Z) : Prop :=
  ∀ i fl, i ≠ j → F !! i = Some fl →
    (∀ n, n ∈ fl_ibs fl → ib_at R' n = ib_at R n) ∧ (∀ n, n ∈ fl_dbs fl → R' !! n = R !! n).

Lemma slave_inj d F OP FI FD i j m : fs_rep d F OP FI FD → OP !! i = Some m → OP !! j = Some m → i = j.
Proof.
  intros Hr Hi Hj. destruct (fr_open _ _ _ _ _ Hr _ _ Hi) as (f & fl & Hf & _ & Hok).
  destruct (fr_open _ _ _ _ _ Hr _ _ Hj) as (f' & fl' & Hf' & _ & Hok').
  pose proof (cb_ptr _ _ _ _ Hok). pose proof (cb_ptr _ _ _ _ Hok'). congruence.
Qed.

Lemma open_cb_other d T F OP FI FD i j m f' :
  fs_rep d F OP FI FD → OP !! j = Some m → i ≠ j → T = <[m := f']> (lfltab d) →
  (OP !! i ≫= λ x, T !! x) = open_cb d OP i.
Proof.
  intros Hr Hop Hij ->. unfold open_cb. destruct (OP !! i) as [x|] eqn:Hx; [|done]. cbn.
  apply lookup_insert_ne. intros <-. apply Hij. by eapply slave_inj.
Qed.

(** The open file [j] becomes [fl'], the free lists [FI'] and [FD']. *)
Lemma fs_change d d' F OP FI FI' FD FD' j m fl fl' f' ld' :
  fs_rep d F OP FI FD → F !! j = Some fl → OP !! j = Some m →
  lf_dskdev (Lf_data d') = RAM0 → lf_dir (Lf_data d') = upd_dir j ld' FI' FD' (lf_dir (Lf_data d)) →
  lfltab d' = <[m := f']> (lfltab d) → disk_ok (Ram d') → (∀ k, is_Some (Ram d !! k) → is_Some (Ram d' !! k)) →
  lists_ok (Ram d') (<[j := fl']> F) FI' FD' → others_kept (Ram d) (Ram d') F j →
  uint32 (ld_size ld') → length (ld_name ld') = 16%nat →
  file_at (Ram d') ld' (Some f') fl' → cb_ok (Ram d') f' fl' j →
  fs_rep d' (<[j := fl']> F) OP FI' FD'.
Proof.
  intros Hr Hfl Hop Hdev Hdir Htab Hok Hdom [Ai Ad Ri Rd Li Ld] Hoth Hsz Hnm Hat Hcb.
  pose proof (fs_file_range _ _ _ _ _ _ _ Hr Hfl) as Hj. assert (j ≠ -1) as Hj1 by lia.
  pose proof (fr_ns _ _ _ _ _ Hr) as Hns. unfold RM_BLKS in Hns, Rd.
  split; try done.
  - intros k Hk. apply Hdom. by apply (fr_all _ _ _ _ _ Hr).
  - rewrite Hdir. apply upd_dir_wf; [apply Hr|split; [done| |done]|..].
    + rewrite (fa_ilist _ _ _ _ Hat). apply head_range; [lia|lia|]. intros n Hn.
      enough (0 ≤ n < 7 * ns) by lia. apply (Ri j). by rewrite (ilists_file _ _ j fl') by (done || apply lookup_insert_eq).
    + intros n Hn. enough (0 ≤ n < 7 * ns) by (unfold int32; lia). by apply (Ri (-1)).
    + intros n Hn. enough (ns < n < 200) by (unfold int32; lia). by apply (Rd (-1)).
  - rewrite Hdir. apply Hr.
  - intros i. rewrite Hdir. cbn. rewrite lookup_insert_is_Some, <-(fr_dom _ _ _ _ _ Hr i).
    destruct (decide (j = i)) as [<-|]; [|naive_solver]. split; [by eexists|by left].
  - intros i fi Hi. unfold entry, open_cb. rewrite Hdir, Htab. cbn [lfd_files upd_dir set_lfd_files].
    rewrite lookup_insert in Hi. case_decide as Hij.
    + subst i. injection Hi as <-. exists ld'. split.
      * apply list_lookup_insert_eq. rewrite (dw_len _ (fr_dir _ _ _ _ _ Hr)). lia.
      * rewrite Hop. cbn. by rewrite lookup_insert_eq.
    + destruct (fr_files _ _ _ _ _ Hr i fi Hi) as (ld & Hld & Hfa). exists ld. split.
      * rewrite list_lookup_insert_ne; [done|]. pose proof (fs_file_range _ _ _ _ _ _ _ Hr Hi). lia.
      * rewrite (open_cb_other d _ F OP FI FD i j m f') by done.
        destruct (Hoth i fi) as [Si Sd]; [done..|]. by eapply file_at_frame.
  - intros i mi Hmi. rewrite Htab. destruct (decide (i = j)) as [->|Hij].
    + rewrite Hop in Hmi. injection Hmi as <-. exists f', fl'. by rewrite !lookup_insert_eq.
    + destruct (fr_open _ _ _ _ _ Hr _ _ Hmi) as (g & fg & Hg & Hfg & Hcg). exists g, fg.
      split; [|split; [by rewrite lookup_insert_ne|]].
      * rewrite lookup_insert_ne; [done|]. intros ->. apply Hij. by eapply slave_inj.
      * destruct (Hoth i fg) as [Si Sd]; [done..|]. by eapply cb_ok_frame.
  - intros mi g. rewrite Htab, lookup_insert. case_decide as Hm; [|apply Hr]. intros [= <-] _.
    exists j. by rewrite <-Hm.
  - by rewrite Hdir.
  - by rewrite Hdir.
Qed.

(** Blocks taken from the free lists leave the lists in order. *)
Lemma lists_taken d R' F OP FI' FD' ti td j fl fl' :
  fs_rep d F OP (ti ++ FI') (td ++ FD') → F !! j = Some fl →
  fl_ibs fl' = fl_ibs fl ++ ti → fl_dbs fl' = fl_dbs fl ++ td →
  disk_upd (fl_ibs fl') (fl_dbs fl') (Ram d) R' →
  lists_ok R' (<[j := fl']> F) FI' FD' ∧ others_kept (Ram d) R' F j.
Proof.
  intros Hr Hfl Eib Edb Hupd. pose proof (fs_file_range _ _ _ _ _ _ _ Hr Hfl) as Hj. assert (j ≠ -1) as Hj1 by lia.
  pose proof (ilists_file _ (ti ++ FI') _ _ Hj1 Hfl) as Lj. pose proof (dlists_file _ (td ++ FD') _ _ Hj1 Hfl) as Dj.
  assert (ilists (<[j := fl']> F) FI' j = ilists F (ti ++ FI') j ++ ti) as Lj'.
  { rewrite Lj, <-Eib. apply ilists_file; [done|apply lookup_insert_eq]. }
  assert (dlists (<[j := fl']> F) FD' j = dlists F (td ++ FD') j ++ td) as Dj'.
  { rewrite Dj, <-Edb. apply dlists_file; [done|apply lookup_insert_eq]. }
  assert (apart (ilists (<[j := fl']> F) FI')) as Ai.
  { eapply (apart_move (ilists F (ti ++ FI')) _ j ti); [done|..|done|done|apply Hr]. intros i ? ?. by apply ilists_other. }
  assert (apart (dlists (<[j := fl']> F) FD')) as Ad.
  { eapply (apart_move (dlists F (td ++ FD')) _ j td); [done|..|done|done|apply Hr]. intros i ? ?. by apply dlists_other. }
  assert (∀ i n, n ∈ ilists (<[j := fl']> F) FI' i → 0 ≤ n < 7 * ns) as Ri.
  { intros i n Hn. pose proof (fr_iarea _ _ _ _ _ Hr) as Ha. destruct (decide (i = -1)) as [->|Hi].
    - apply (Ha (-1)). rewrite ilists_free in *. rewrite elem_of_app. by right.
    - destruct (decide (i = j)) as [->|Hij]; [|apply (Ha i); by rewrite (ilists_other F (ti ++ FI')) in Hn].
      rewrite Lj', elem_of_app in Hn. destruct Hn as [Hn|Hn]; [by apply (Ha j)|].
      apply (Ha (-1)). rewrite ilists_free, elem_of_app. by left. }
  assert (∀ i n, n ∈ dlists (<[j := fl']> F) FD' i → ns < n < RM_BLKS) as Rd.
  { intros i n Hn. pose proof (fr_darea _ _ _ _ _ Hr) as Ha. destruct (decide (i = -1)) as [->|Hi].
    - apply (Ha (-1)). rewrite dlists_free in *. rewrite elem_of_app. by right.
    - destruct (decide (i = j)) as [->|Hij]; [|apply (Ha i); by rewrite (dlists_other F (td ++ FD')) in Hn].
      rewrite Dj', elem_of_app in Hn. destruct Hn as [Hn|Hn]; [by apply (Ha j)|].
      apply (Ha (-1)). rewrite dlists_free, elem_of_app. by left. }
  assert (∀ i n, i ≠ j → n ∈ ilists (<[j := fl']> F) FI' i → ib_at R' n = ib_at (Ram d) n) as Si.
  { intros i n Hij Hn. apply (du_ib _ _ _ _ Hupd); [by eapply Ri|].
    rewrite <-(ilists_file (<[j := fl']> F) FI' j fl' Hj1 (lookup_insert_eq _ _ _)). by eapply apart_disjoint. }
  assert (∀ i n, i ≠ j → n ∈ dlists (<[j := fl']> F) FD' i → R' !! n = Ram d !! n) as Sd.
  { intros i n Hij Hn. apply (du_db _ _ _ _ Hupd); [by eapply Rd|].
    rewrite <-(dlists_file (<[j := fl']> F) FD' j fl' Hj1 (lookup_insert_eq _ _ _)). by eapply apart_disjoint. }
  split; [split; try done|].
  - apply blocks_linked_ext with (λ n, ib_next <$> ib_at (Ram d) n); [|by eapply linked_drop, Hr].
    intros n Hn. by rewrite (Si (-1)).
  - apply blocks_linked_ext with (λ n, lf_nextdb <$> Ram d !! n); [|by eapply linked_drop, Hr].
    intros n Hn. by rewrite (Sd (-1)).
  - intros i fi Hij Hi. pose proof (fs_file_range _ _ _ _ _ _ _ Hr Hi). assert (i ≠ -1) by lia. split; intros n Hn.
    + apply (Si i); [done|]. rewrite (ilists_other F FI') by done. by rewrite (ilists_file _ _ _ fi).
    + apply (Sd i); [done|]. rewrite (dlists_other F FD') by done. by rewrite (dlists_file _ _ _ fi).
Qed.

(** The open file [j] takes blocks from the free lists and changes what is in its
    blocks, its entry and its control block: the file system is still in order. *)
Lemma fs_grow d d' F OP FI FI' FD FD' ti td j m fl fl' f f' ld' :
  fs_rep d F OP FI FD → F !! j = Some fl → OP !! j = Some m → lfltab d !! m = Some f →
  FI = ti ++ FI' → FD = td ++ FD' → fl_ibs fl' = fl_ibs fl ++ ti → fl_dbs fl' = fl_dbs fl ++ td →
  lf_dskdev (Lf_data d') = RAM0 → lf_dir (Lf_data d') = upd_dir j ld' FI' FD' (lf_dir (Lf_data d)) →
  lfltab d' = <[m := f']> (lfltab d) →
  disk_upd (fl_ibs fl') (fl_dbs fl') (Ram d) (Ram d') →
  uint32 (ld_size ld') → length (ld_name ld') = 16%nat →
  file_at (Ram d') ld' (Some f') fl' → cb_ok (Ram d') f' fl' j →
  fs_rep d' (<[j := fl']> F) OP FI' FD'.
Proof.
  intros Hr Hfl Hop Hf -> -> Eib Edb Hdev Hdir Htab Hupd Hsz Hnm Hat Hcb.
  destruct (lists_taken _ _ _ _ _ _ _ _ _ _ _ Hr Hfl Eib Edb Hupd) as [Hl Ho].
  eapply (fs_change d); try done; apply Hupd.
Qed.

End rep.
