(* ===== verification/LfsMk.v ===== *)
(** lfscreate makes an empty file system: the free lists hold all index blocks and
    all data blocks, each once.  lfsckfmt counts them. *)

From S2P Require Import Prelude Types ByteMem Words DevTypes Heap Kernel KInv Device.
From S2P Require Import LfsDisk Lfs Lfl LfsRun LfsRep.

Section mk.
Context (ns : Z).

Definition free_ib (next : Z) : lfiblk := set_ib_next next (lfibclear 0).
Definition free_db (next : Z) : list Z := enc_lfdbfree next (replicate 508 0).

Lemma free_ib_wf next : int32 next → iblk_wf (free_ib next).
Proof. intros Hn. split; [done|done| |done]. by repeat (apply Forall_cons; split; [done|]). Qed.

(** Writing one free index block. *)
Lemma put_free d n next :
  disk_ok (Ram d) → (∀ k, 0 ≤ k ≤ ns → is_Some (Ram d !! k)) → 0 ≤ n < 7 * ns → int32 next →
  let R := put_ib n (free_ib next) (Ram d) in
  runs (lfibput RAM0 n (free_ib next)) d OK (set_Ram R d) ∧ disk_upd ns [n] [] (Ram d) R ∧
  ib_at R n = Some (free_ib next).
Proof.
  intros Hok Hall Hn Hx R. pose proof (ib2sect_range ns n Hn) as Hs.
  assert (is_Some (Ram d !! ib2sect n)) as Hsec by (apply Hall; lia). split_and!.
  - by apply lfibput_runs.
  - apply disk_upd_ib; [done|done|by apply free_ib_wf|by left].
  - destruct Hsec as [b Hb]. eapply ib_at_put; [done|lia|by apply free_ib_wf|exact Hb].
Qed.

Lemma create_ibs_runs n : ∀ d i,
  disk_ok (Ram d) → (∀ k, 0 ≤ k ≤ ns → is_Some (Ram d !! k)) → 0 ≤ i → i + Z.of_nat n ≤ 7 * ns → ns < 200 →
  ∃ R, runs (create_ibs n RAM0 i) d (i + Z.of_nat n) (set_Ram R d) ∧
    disk_upd ns (seqZ i (Z.of_nat n)) [] (Ram d) R ∧ R !! 0 = Ram d !! 0 ∧
    ∀ x, i ≤ x < i + Z.of_nat n → ib_at R x = Some (free_ib (x + 1)).
Proof.
  induction n as [|n IH]; intros d i Hok Hall Hi Hn Hns.
  { exists (Ram d). split; [|split; [by apply disk_upd_refl|split; [done|lia]]]. rewrite Z.add_0_r.
    eapply runs_eq; [apply runs_ret|by destruct d]. }
  destruct (put_free d i (i + 1) Hok Hall ltac:(lia) ltac:(unfold int32; lia)) as (Hrun & Hu & Hat).
  set (R1 := put_ib i (free_ib (i + 1)) (Ram d)) in *.
  destruct (IH (set_Ram R1 d) (i + 1)) as (R2 & Hrun2 & Hu2 & H02 & Hat2); [apply Hu| |lia..|].
  { intros k Hk. cbn. apply (du_dom _ _ _ _ _ Hu). by apply Hall. }
  exists R2. split; [|split; [|split]].
  - cbn [create_ibs]. eapply runs_bind; [exact Hrun|].
    replace (i + Z.of_nat (S n)) with (i + 1 + Z.of_nat n) by lia. exact Hrun2.
  - eapply disk_upd_trans; (eapply disk_upd_weaken; [..|eassumption]); [|done| |done].
    + intros x Hx%list_elem_of_singleton. apply elem_of_seqZ. lia.
    + intros x. rewrite !elem_of_seqZ. lia.
  - rewrite H02. cbn. unfold R1. apply put_ib_other. pose proof (ib2sect_range ns i). lia.
  - intros x Hx. destruct (decide (x = i)) as [->|Hne]; [|apply Hat2; lia].
    rewrite (du_ib _ _ _ _ _ Hu2); [done|lia|]. rewrite elem_of_seqZ. lia.
Qed.

Lemma create_dbs_runs n : ∀ d i,
  0 ≤ ns → disk_ok (Ram d) → (∀ k, 0 ≤ k < 200 → is_Some (Ram d !! k)) → ns < i → i + Z.of_nat n < 200 →
  ∃ R, runs (create_dbs n RAM0 i) d (i + Z.of_nat n) (set_Ram R d) ∧
    disk_upd ns [] (seqZ i (Z.of_nat n)) (Ram d) R ∧ (∀ k, k ≤ ns → R !! k = Ram d !! k) ∧
    ∀ x, i ≤ x < i + Z.of_nat n → R !! x = Some (free_db (x + 1)).
Proof.
  induction n as [|n IH]; intros d i Hns Hok Hall Hi Hn.
  { exists (Ram d). split; [|split; [by apply disk_upd_refl|split; [done|lia]]]. rewrite Z.add_0_r.
    eapply runs_eq; [apply runs_ret|by destruct d]. }
  set (R1 := <[i := free_db (i + 1)]> (Ram d)).
  assert (disk_upd ns [] [i] (Ram d) R1) as Hu by (apply disk_upd_db; [done|lia|done|by left]).
  destruct (IH (set_Ram R1 d) (i + 1)) as (R2 & Hrun2 & Hu2 & Hlow & Hat2); [done|apply Hu| |lia..|].
  { intros k Hk. cbn. apply (du_dom _ _ _ _ _ Hu). by apply Hall. }
  exists R2. split; [|split; [|split]].
  - cbn [create_dbs]. eapply runs_bind; [apply write_block_runs, Hall; lia|].
    replace (i + Z.of_nat (S n)) with (i + 1 + Z.of_nat n) by lia. exact Hrun2.
  - eapply disk_upd_trans; (eapply disk_upd_weaken; [..|eassumption]); [done| |done|].
    + intros x Hx%list_elem_of_singleton. apply elem_of_seqZ. lia.
    + intros x. rewrite !elem_of_seqZ. lia.
  - intros k Hk. rewrite Hlow by done. cbn. unfold R1. rewrite lookup_insert_ne; [done|lia].
  - intros x Hx. destruct (decide (x = i)) as [->|Hne]; [|apply Hat2; lia].
    rewrite (du_db _ _ _ _ _ Hu2); [|done|rewrite elem_of_seqZ; lia]. cbn. unfold R1. apply lookup_insert_eq.
Qed.

(** ** The new file system *)

Lemma new_dir_wf dfree : int32 dfree → lfdir_wf (new_dir dfree).
Proof.
  intros Hd. split; try done. cbn [new_dir lfd_files]. apply Forall_replicate. by split.
Qed.

Lemma new_dir_scan dfree : lfscheck (new_dir dfree) = OK.
Proof. reflexivity. Qed.

(** The disk [R] has the new directory, and the two lists of free blocks up to
    sector [sectors]. *)
Record fresh (sectors : Z) (R : gmap Z (list Z)) : Prop := Fresh {
  fs_ok : disk_ok R;
  fs_blocks : ∀ k, 0 ≤ k < RM_BLKS → is_Some (R !! k);
  fs_dir : R !! 0 = Some (enc_lfdir (new_dir (ns + 1)));
  fs_ibs : ∀ x, 0 ≤ x < 7 * ns → ib_at R x = Some (free_ib (if bool_decide (x = 7 * ns - 1) then LF_INULL else x + 1));
  fs_dbs : ∀ x, ns < x < sectors → R !! x = Some (free_db (if bool_decide (x = sectors - 1) then LF_DNULL else x + 1)) }.

Lemma create_all_ibs d :
  disk_ok (Ram d) → (∀ k, 0 ≤ k < RM_BLKS → is_Some (Ram d !! k)) → 1 ≤ ns → ns < RM_BLKS →
  ∃ R, runs (i ← create_ibs (Z.to_nat (7 * ns - 1)) RAM0 0;
             lfibput RAM0 i (set_ib_next LF_INULL (lfibclear 0))) d OK (set_Ram R d) ∧
    disk_upd ns (seqZ 0 (7 * ns)) [] (Ram d) R ∧ R !! 0 = Ram d !! 0 ∧
    ∀ x, 0 ≤ x < 7 * ns → ib_at R x = Some (free_ib (if bool_decide (x = 7 * ns - 1) then LF_INULL else x + 1)).
Proof.
  intros Hok Hall Hns1 Hns. unfold RM_BLKS in *.
  destruct (create_ibs_runs (Z.to_nat (7 * ns - 1)) d 0) as (R1 & Hrun1 & Hu1 & H01 & Hat1); [done| |lia..|].
  { intros k Hk. apply Hall. lia. }
  rewrite Z.add_0_l, Z2Nat.id in Hrun1 by lia. rewrite Z2Nat.id in Hu1, Hat1 by lia.
  destruct (put_free (set_Ram R1 d) (7 * ns - 1) LF_INULL) as (Hrun2 & Hu2 & Hat2); [apply Hu1| |lia|done|].
  { intros k Hk. apply (du_dom _ _ _ _ _ Hu1), Hall. lia. }
  eexists. split; [|split; [|split]].
  - eapply runs_bind; [exact Hrun1|]. exact Hrun2.
  - eapply disk_upd_trans; (eapply disk_upd_weaken; [..|eassumption]); [|done| |done]; intros x;
      rewrite ?list_elem_of_singleton, !elem_of_seqZ; lia.
  - rewrite put_ib_other; [exact H01|]. pose proof (ib2sect_range ns (7 * ns - 1)). lia.
  - intros x Hx. case_bool_decide as E; [by subst|].
    rewrite (du_ib _ _ _ _ _ Hu2); [|done|by intros ?%list_elem_of_singleton]. cbn. apply Hat1. lia.
Qed.

Lemma create_all_dbs d sectors :
  disk_ok (Ram d) → (∀ k, 0 ≤ k < RM_BLKS → is_Some (Ram d !! k)) → 0 ≤ ns → ns + 1 < sectors ≤ RM_BLKS →
  ∃ R, runs (dbindex ← create_dbs (Z.to_nat (sectors - ns - 2)) RAM0 (ns + 1);
             write_block RAM0 (enc_lfdbfree LF_DNULL (replicate 508 0)) dbindex) d OK (set_Ram R d) ∧
    disk_upd ns [] (seqZ (ns + 1) (sectors - ns - 1)) (Ram d) R ∧ (∀ k, k ≤ ns → R !! k = Ram d !! k) ∧
    ∀ x, ns < x < sectors → R !! x = Some (free_db (if bool_decide (x = sectors - 1) then LF_DNULL else x + 1)).
Proof.
  intros Hok Hall Hns Hs. unfold RM_BLKS in *.
  destruct (create_dbs_runs (Z.to_nat (sectors - ns - 2)) d (ns + 1)) as (R1 & Hrun1 & Hu1 & Hlow & Hat1);
    [done..|lia|lia|].
  rewrite Z2Nat.id in Hrun1, Hu1, Hat1 by lia. replace (ns + 1 + (sectors - ns - 2)) with (sectors - 1) in * by lia.
  exists (<[sectors - 1 := free_db LF_DNULL]> R1). split; [|split; [|split]].
  - eapply runs_bind; [exact Hrun1|].
    apply (write_block_runs (set_Ram R1 d)), (du_dom _ _ _ _ _ Hu1), Hall. lia.
  - eapply disk_upd_trans; (eapply disk_upd_weaken; [done| |]); [|exact Hu1| |
      apply (disk_upd_db ns [] [sectors - 1]); [apply Hu1|lia|done|by left]]; intros x;
      rewrite ?list_elem_of_singleton, !elem_of_seqZ; lia.
  - intros k Hk. cbn. rewrite lookup_insert_ne by lia. by apply Hlow.
  - intros x Hx. cbn. rewrite lookup_insert. case_bool_decide as E; case_decide; try lia; [done|].
    apply Hat1. lia.
Qed.

Lemma runs_assoc {A B C} (f : M A) (g : A → M B) (k : B → M C) d d1 d2 b c :
  runs (x ← f; g x) d b d1 → runs (k b) d1 c d2 → runs (x ← f; y ← g x; k y) d c d2.
Proof.
  intros Hf Hk s Hs. specialize (Hf s Hs). revert Hf. kred. destruct (f s); cbn [obind]; try done.
  kred. intros ->. cbn [obind]. by rewrite (Hk (set_dev d1 s) eq_refl).
Qed.

(** The number of index blocks is rounded up to whole sectors. *)
Definition ib_sectors (lfiblks : Z) : Z := (lfiblks + 6) / 7.

Lemma lfscreate_runs d lfiblks dsiz :
  disk_ok (Ram d) → (∀ k, 0 ≤ k < RM_BLKS → is_Some (Ram d !! k)) →
  1 ≤ ns → ns = ib_sectors lfiblks → lfiblks ≤ INT_MAX → 3 ≤ dsiz / 512 ≤ RM_BLKS → ns ≤ dsiz / 512 / 2 →
  ∃ R, runs (lfscreate RAM0 lfiblks dsiz) d OK (set_Ram R d) ∧ fresh (dsiz / 512) R.
Proof.
  intros Hok Hall Hns Ens Hmax Hsec Hhalf. unfold RM_BLKS in *. set (sectors := dsiz / 512) in *.
  assert (ns + 1 < sectors) as Hlt by (Z.to_euclidean_division_equations; lia).
  assert (1 ≤ lfiblks) as Hlf by (unfold ib_sectors in Ens; Z.to_euclidean_division_equations; lia).
  destruct (create_all_ibs (set_Ram (<[0 := enc_lfdir (new_dir (ns + 1))]> (Ram d)) d)) as (R1 & Hrun1 & Hu1 & H01 & Hib);
    [|  |lia|unfold RM_BLKS; lia|].
  { apply disk_ok_insert; [done|]. apply length_enc_lfdir, new_dir_wf. unfold int32. lia. }
  { intros k Hk. cbn. rewrite lookup_insert_is_Some'. auto. }
  destruct (create_all_dbs (set_Ram R1 d) sectors) as (R2 & Hrun2 & Hu2 & Hlow & Hdb); [apply Hu1| |lia|unfold RM_BLKS; lia|].
  { intros k Hk. apply (du_dom _ _ _ _ _ Hu1). cbn. rewrite lookup_insert_is_Some'. auto. }
  exists R2. split.
  - unfold lfscreate. change (LF_BLKSIZ / 72) with 7. unfold LF_BLKSIZ. fold sectors.
    assert (u32 (lfiblks + (7 - 1)) / 7 = ns) as ->.
    { rewrite u32_id by (unfold INT_MAX in *; lia). by rewrite Ens. }
    assert (s32 (ns * 7) = 7 * ns) as -> by (rewrite s32_id by lia; lia).
    rewrite bool_decide_eq_false_2 by lia.
    eapply runs_bind; [apply write_block_runs; apply Hall; unfold LF_AREA_DIR; lia|]. cbn beta. rewrite bool_decide_eq_false_2 by done.
    eapply runs_assoc; [exact Hrun1|]. cbn beta.
    assert (u32 (u32 (sectors - ns - 1) - 1) = sectors - ns - 2) as ->.
    { rewrite (u32_id (sectors - ns - 1)) by lia. rewrite u32_id by lia. lia. }
    eapply runs_assoc; [exact Hrun2|]. cbn beta.
    eapply runs_bind; [by apply disk_call_runs, runs_ret|]. apply runs_ret.
  - split.
    + apply Hu2.
    + intros k Hk. apply (du_dom _ _ _ _ _ Hu2), (du_dom _ _ _ _ _ Hu1). cbn. rewrite lookup_insert_is_Some'. auto.
    + rewrite Hlow by lia. cbn. rewrite H01. cbn. apply lookup_insert_eq.
    + intros x Hx. rewrite (du_ib _ _ _ _ _ Hu2); [by apply Hib|done|]. apply not_elem_of_nil.
    + done.
Qed.

(** ** What is on the new disk is an empty file system *)

Lemma seqZ_next a n x k : seqZ a n !! k = Some x →
  default (-1) (seqZ a n !! S k) = if bool_decide (x = a + n - 1) then -1 else x + 1.
Proof.
  rewrite lookup_seqZ. intros [-> Hk]. case_bool_decide as E.
  - by rewrite lookup_seqZ_ge by lia.
  - rewrite lookup_seqZ_lt by lia. cbn. lia.
Qed.

Lemma seqZ_head a n : 0 < n → head (seqZ a n) = Some a.
Proof. intros Hn. by rewrite seqZ_cons. Qed.

Lemma apart_free (L : Z → list Z) a n : (∀ j, L j = if bool_decide (j = -1) then seqZ a n else []) → apart L.
Proof.
  intros HL j1 j2 k1 k2 x. rewrite !HL. do 2 case_bool_decide; try done.
  rewrite !lookup_seqZ. intros [-> ?] [? ?]. split; [congruence|lia].
Qed.

Lemma lists_free {A} (F : gmap Z A) (g : A → list Z) FI j :
  F = ∅ → (if bool_decide (j = -1) then FI else match F !! j with Some fl => g fl | None => [] end)
    = if bool_decide (j = -1) then FI else [].
Proof. intros ->. by rewrite lookup_empty. Qed.

Lemma fresh_rep d sectors :
  fresh sectors (Ram d) → 1 ≤ ns → ns + 1 < sectors ≤ RM_BLKS → lf_dskdev (Lf_data d) = RAM0 →
  lf_dir (Lf_data d) = new_dir (ns + 1) → (∀ m f, lfltab d !! m = Some f → lfstate f ≠ LF_USED) →
  fs_rep ns d ∅ ∅ (seqZ 0 (7 * ns)) (seqZ (ns + 1) (sectors - ns - 1)).
Proof.
  intros [F1 F2 F3 F4 F5] Hns Hs Hdev Hdir Hfree. unfold RM_BLKS in *. split; rewrite ?Hdir; try done.
  - unfold RM_BLKS. lia.
  - apply new_dir_wf. unfold int32. lia.
  - intros j. rewrite lookup_empty. split; [by intros []|]. cbn. lia.
  - intros m f Hf Hu. by destruct (Hfree m f Hf).
  - by rewrite seqZ_head by lia.
  - intros k n Hk. pose proof (seqZ_next _ _ _ _ Hk) as ->. apply lookup_seqZ in Hk as [-> Hk].
    by rewrite F4 by lia.
  - by rewrite seqZ_head by lia.
  - intros k n Hk. pose proof (seqZ_next _ _ _ _ Hk) as ->. apply lookup_seqZ in Hk as [-> Hk].
    rewrite F5 by lia. cbn [fmap option_fmap option_map]. f_equal. unfold free_db.
    rewrite lf_nextdb_enc by (unfold int32, LF_DNULL; case_bool_decide; lia). repeat case_bool_decide; try done; lia.
  - apply (apart_free _ 0 (7 * ns)). intros j. by apply lists_free.
  - apply (apart_free _ (ns + 1) (sectors - ns - 1)). intros j. by apply lists_free.
  - intros j n. unfold ilists. rewrite lists_free by done. case_bool_decide; [|by intros ?%not_elem_of_nil].
    rewrite elem_of_seqZ. lia.
  - intros j n. unfold dlists. rewrite lists_free by done. case_bool_decide; [|by intros ?%not_elem_of_nil].
    rewrite elem_of_seqZ. unfold RM_BLKS. lia.
Qed.

(** Reading the directory for the first time. *)
Lemma load_dir_runs d dir :
  lf_dskdev (Lf_data d) = RAM0 → lf_dirpresent (Lf_data d) = false → Ram d !! 0 = Some (enc_lfdir dir) →
  lfdir_wf dir → lfscheck dir = OK →
  runs load_dir d true (set_Lf_data (set_lf_dirpresent true (set_lf_dir dir (Lf_data d))) d).
Proof.
  intros Hdev Hpr Hd Hw Hc. unfold load_dir. eapply runs_bind; [apply runs_getlf|]. rewrite Hpr, Hdev.
  eapply runs_bind; [by apply read_block_runs|]. cbn beta iota. rewrite bool_decide_eq_false_2 by done.
  rewrite dec_enc_lfdir, Hc by done. eapply runs_bind; [apply runs_setdir|].
  rewrite bool_decide_eq_false_2 by done. eapply runs_bind; [apply runs_setlf|]. apply runs_ret.
Qed.

(** lfsckfmt follows the lists of free blocks. *)
Lemma count_ibs_runs d fuel a n c :
  (∀ x, a ≤ x < a + Z.of_nat n → ∃ B, ib_at (Ram d) x = Some B ∧
    ib_next B = if bool_decide (x = a + Z.of_nat n - 1) then LF_INULL else x + 1) →
  0 ≤ a → (n ≤ fuel)%nat →
  runs (count_ibs fuel RAM0 (if decide (n = 0%nat) then LF_INULL else a) c) d (c + Z.of_nat n) d.
Proof.
  revert fuel a c. induction n as [|n IH]; intros fuel a c Hx Ha Hf.
  { rewrite Z.add_0_r. destruct fuel; apply runs_ret. }
  destruct fuel as [|fuel]; [lia|]. cbn [count_ibs]. rewrite decide_False by done.
  rewrite bool_decide_eq_false_2 by (unfold LF_INULL; lia). destruct (Hx a ltac:(lia)) as (B & HB & Hn).
  eapply runs_bind; [by apply lfibget_runs|]. rewrite Hn.
  replace (if bool_decide (a = a + Z.of_nat (S n) - 1) then LF_INULL else a + 1)
    with (if decide (n = 0%nat) then LF_INULL else a + 1) by (case_bool_decide; case_decide; done || lia).
  replace (c + Z.of_nat (S n)) with (c + 1 + Z.of_nat n) by lia. apply IH; [|lia..].
  intros x Hr. destruct (Hx x ltac:(lia)) as (B' & HB' & Hn'). exists B'. split; [done|].
  rewrite Hn'. repeat case_bool_decide; done || lia.
Qed.

Lemma count_dbs_runs d fuel a n old c :
  (∀ x, a ≤ x < a + Z.of_nat n → ∃ b, Ram d !! x = Some b ∧
    lf_nextdb b = if bool_decide (x = a + Z.of_nat n - 1) then LF_DNULL else x + 1) →
  0 ≤ a → (n ≤ fuel)%nat →
  runs (count_dbs fuel RAM0 (if decide (n = 0%nat) then LF_DNULL else a) old c) d (c + Z.of_nat n) d.
Proof.
  revert fuel a old c. induction n as [|n IH]; intros fuel a old c Hx Ha Hf.
  { rewrite Z.add_0_r. destruct fuel; apply runs_ret. }
  destruct fuel as [|fuel]; [lia|]. cbn [count_dbs]. rewrite decide_False by done.
  rewrite bool_decide_eq_false_2 by (unfold LF_DNULL; lia). destruct (Hx a ltac:(lia)) as (B & HB & Hn).
  eapply runs_bind; [by apply read_block_runs|]. cbn [snd]. rewrite Hn.
  replace (if bool_decide (a = a + Z.of_nat (S n) - 1) then LF_DNULL else a + 1)
    with (if decide (n = 0%nat) then LF_DNULL else a + 1) by (case_bool_decide; case_decide; done || lia).
  replace (c + Z.of_nat (S n)) with (c + 1 + Z.of_nat n) by lia. apply IH; [|lia..].
  intros x Hr. destruct (Hx x ltac:(lia)) as (B' & HB' & Hn'). exists B'. split; [done|].
  rewrite Hn'. repeat case_bool_decide; done || lia.
Qed.

Lemma lfsckfmt_runs d sectors :
  fresh sectors (Ram d) → 1 ≤ ns → ns + 1 < sectors ≤ RM_BLKS →
  runs (lfsckfmt RAM0) d (OK, (7 * ns, sectors - ns - 1)) d.
Proof.
  intros [F1 F2 F3 F4 F5] Hns Hs. unfold RM_BLKS in *. unfold lfsckfmt.
  eapply runs_bind; [by apply read_block_runs|]. cbn beta iota. eapply runs_bind; [by apply runs_no_panic|].
  rewrite dec_enc_lfdir by (apply new_dir_wf; unfold int32; lia).
  eapply runs_bind; [by apply runs_no_panic|]. cbn [lfd_ifree lfd_dfree new_dir].
  eapply runs_bind.
  { pose proof (count_ibs_runs d ck_fuel 0 (Z.to_nat (7 * ns)) 0) as H. rewrite decide_False, Z.add_0_l in H by lia.
    apply H; [|lia|unfold ck_fuel, RM_BLKS; lia]. intros x Hx. rewrite Z2Nat.id in * by lia.
    eexists. split; [apply F4; lia|]. cbn. repeat case_bool_decide; done || lia. }
  eapply runs_bind.
  { pose proof (count_dbs_runs d ck_fuel (ns + 1) (Z.to_nat (sectors - ns - 1)) [] 0) as H.
    rewrite decide_False, Z.add_0_l in H by lia.
    apply H; [|lia|unfold ck_fuel, RM_BLKS; lia]. intros x Hx. rewrite Z2Nat.id in * by lia.
    eexists. split; [apply F5; lia|]. unfold free_db.
    rewrite lf_nextdb_enc by (unfold int32, LF_DNULL; case_bool_decide; lia). repeat case_bool_decide; done || lia. }
  rewrite !Z2Nat.id by lia. apply runs_ret.
Qed.

End mk.
