(* ===== verification/LfsSetup.v ===== *)
(** lfflush and lfsetup: the control block of an open file comes to hold the index
    block and the data block of the current position, which are allocated when the
    position is the end of the file. *)

From S2P Require Import Prelude Types ByteMem Words DevTypes Heap Kernel KInv Device LfsDisk Lfs LfsRun LfsRep.

Section setup.
Context (ns : Z).

(** Entry [j] is an open file with control block [f]. *)
Record open_at (d : devstate) (F : gmap Z lfile) (OP : gmap Z Z) (FI FD : list Z) (j m : Z)
    (fl : lfile) (f : lflcblk) : Prop := Open_at {
  oa_rep : fs_rep ns d F OP FI FD;
  oa_file : F !! j = Some fl;
  oa_op : OP !! j = Some m;
  oa_cb : lfltab d !! m = Some f }.

Section facts.
Context (d : devstate) (F : gmap Z lfile) (OP : gmap Z Z) (FI FD : list Z) (j m : Z) (fl : lfile) (f : lflcblk).
Hypothesis HO : open_at d F OP FI FD j m fl f.

Lemma oa_range : 0 ≤ j < 20.
Proof. destruct HO. by eapply fs_file_range. Qed.

Lemma oa_ok : cb_ok (Ram d) f fl j.
Proof.
  destruct HO as [Hr Hf Hop Hc]. destruct (fr_open _ _ _ _ _ _ Hr _ _ Hop) as (g & gl & Hg & Hgl & Hok).
  by simplify_eq.
Qed.

Lemma oa_at : ∃ ld, entry d j = Some ld ∧ ldentry_wf ld ∧ file_at (Ram d) ld (Some f) fl.
Proof.
  destruct HO as [Hr Hf Hop Hc]. destruct (fr_files _ _ _ _ _ _ Hr _ _ Hf) as (ld & Hld & Hat).
  exists ld. unfold open_cb in Hat. rewrite Hop in Hat. cbn in Hat. rewrite Hc in Hat. split_and!; [done| |done].
  unfold entry in Hld. eapply Forall_lookup_1; [|exact Hld]. apply (fr_dir _ _ _ _ _ _ Hr).
Qed.

Lemma oa_iarea n : n ∈ fl_ibs fl → 0 ≤ n < 7 * ns.
Proof.
  destruct HO as [Hr Hf Hop Hc]. intros Hn. apply (fr_iarea _ _ _ _ _ _ Hr j).
  pose proof oa_range. rewrite (ilists_file _ _ _ fl); [done|lia|done].
Qed.

Lemma oa_darea n : n ∈ fl_dbs fl → ns < n < 200.
Proof.
  destruct HO as [Hr Hf Hop Hc]. intros Hn. apply (fr_darea _ _ _ _ _ _ Hr j).
  pose proof oa_range. rewrite (dlists_file _ _ _ fl); [done|lia|done].
Qed.

Lemma oa_ns : 0 ≤ ns < 200.
Proof. destruct HO as [Hr _ _ _]. apply (fr_ns _ _ _ _ _ _ Hr). Qed.

Lemma oa_block k : 0 ≤ k < 200 → is_Some (Ram d !! k).
Proof. destruct HO as [Hr _ _ _]. apply (fr_all _ _ _ _ _ _ Hr). Qed.

Lemma oa_sector n : 0 ≤ n < 7 * ns → is_Some (Ram d !! ib2sect n).
Proof. intros Hn. apply oa_block. pose proof (ib2sect_range ns n Hn). pose proof oa_ns. lia. Qed.

Lemma oa_ibs_NoDup : NoDup (fl_ibs fl).
Proof.
  destruct HO as [Hr Hf Hop Hc]. pose proof oa_range.
  rewrite <-(ilists_file F FI j fl) by (lia || done). apply apart_NoDup, Hr.
Qed.

Lemma oa_dbs_NoDup : NoDup (fl_dbs fl).
Proof.
  destruct HO as [Hr Hf Hop Hc]. pose proof oa_range.
  rewrite <-(dlists_file F FD j fl) by (lia || done). apply apart_NoDup, Hr.
Qed.

Lemma oa_ibs_len : Z.of_nat (length (fl_ibs fl)) ≤ 1400.
Proof.
  pose proof (NoDup_bounded_length _ (7 * ns) oa_ibs_NoDup) as H. pose proof oa_ns.
  enough (Z.of_nat (length (fl_ibs fl)) ≤ Z.max 0 (7 * ns)) by lia. apply H, Forall_forall, oa_iarea.
Qed.

Lemma oa_dbs_len : Z.of_nat (length (fl_dbs fl)) ≤ 200.
Proof.
  pose proof (NoDup_bounded_length _ 200 oa_dbs_NoDup) as H. pose proof oa_ns.
  enough (Z.of_nat (length (fl_dbs fl)) ≤ Z.max 0 200) by lia. apply H, Forall_forall.
  intros n Hn%oa_darea. lia.
Qed.

(** A change of the control block alone. *)
Lemma oa_set_cb ld f' :
  entry d j = Some ld → ldentry_wf ld → file_at (Ram d) ld (Some f') fl → cb_ok (Ram d) f' fl j →
  open_at (set_lfltab (<[m := f']> (lfltab d)) d) F OP FI FD j m fl f'.
Proof.
  intros Hld [? _ ?] Hat Hok. destruct HO as [Hr Hf Hop Hc]. split; [|done|done|apply lookup_insert_eq].
  rewrite <-(insert_id F j fl) by done.
  eapply (fs_grow ns d _ F OP FI FI FD FD [] [] j m fl fl f f' ld); try done; rewrite ?app_nil_r; try done.
  - apply Hr.
  - symmetry. apply upd_dir_id; [done|apply Hr..].
  - apply disk_upd_refl, Hr.
Qed.

End facts.

(** ** The index block in the control block *)

Lemma dba_of_length dbs k : length (dba_of dbs k) = 16%nat.
Proof. unfold dba_of. rewrite length_take, length_app, length_replicate. lia. Qed.

Lemma dba_of_lookup dbs k q :
  (q < 16)%nat → dba_of dbs k !! q = Some (default LF_DNULL (dbs !! (16 * k + q)%nat)).
Proof.
  intros Hq. unfold dba_of. rewrite lookup_take_lt by done.
  destruct (dbs !! (16 * k + q)%nat) as [n|] eqn:E; cbn [from_option].
  - rewrite lookup_app_l; [by rewrite lookup_drop|]. rewrite length_drop. apply lookup_lt_Some in E. lia.
  - apply lookup_ge_None in E. rewrite lookup_app_r by (rewrite length_drop; lia).
    rewrite length_drop. apply lookup_replicate_2. lia.
Qed.

Lemma dba_of_in dbs k n : n ∈ dba_of dbs k → n = LF_DNULL ∨ n ∈ dbs.
Proof.
  intros [q Hq]%list_elem_of_lookup. pose proof (lookup_lt_Some _ _ _ Hq) as Hl. rewrite dba_of_length in Hl.
  rewrite dba_of_lookup in Hq by done. injection Hq as <-.
  destruct (dbs !! _) as [x|] eqn:E; [right; by eapply list_elem_of_lookup_2|by left].
Qed.

Lemma iblock_wf d F OP FI FD j m fl f k :
  open_at d F OP FI FD j m fl f → (k ≤ length (fl_ibs fl))%nat → iblk_wf (iblock_of fl k).
Proof.
  intros HO Hk. pose proof (oa_ibs_len _ _ _ _ _ _ _ _ _ HO). pose proof (oa_ns _ _ _ _ _ _ _ _ _ HO).
  split; cbn; unfold LF_IDATA, uint32, int32.
  - destruct (fl_ibs fl !! S k) as [n|] eqn:E; cbn; [|done].
    apply list_elem_of_lookup_2, (oa_iarea _ _ _ _ _ _ _ _ _ HO) in E. lia.
  - lia.
  - apply Forall_forall. intros n [->|Hn%(oa_darea _ _ _ _ _ _ _ _ _ HO)]%dba_of_in; [done|lia].
  - apply dba_of_length.
Qed.

Lemma cb_iblock d F OP FI FD j m fl f k :
  open_at d F OP FI FD j m fl f → fl_ibs fl !! k = Some (lfinum f) → lfiblock f = iblock_of fl k.
Proof.
  intros HO Hk. destruct (oa_at _ _ _ _ _ _ _ _ _ HO) as (ld & _ & _ & Hat).
  pose proof (fa_ibs _ _ _ _ Hat _ _ Hk) as H. unfold ib_eff in H. rewrite bool_decide_eq_true_2 in H by done.
  by injection H.
Qed.

(** ** lfflush *)

Lemma flush_dir_ram d : Ram (flush_dir d) = Ram d ∨ Ram (flush_dir d) = <[0 := enc_lfdir (lf_dir (Lf_data d))]> (Ram d).
Proof. unfold flush_dir. destruct (lf_dirdirty (Lf_data d)); [by right|by left]. Qed.

Lemma flush_dir_lf d :
  lf_dskdev (Lf_data (flush_dir d)) = lf_dskdev (Lf_data d) ∧ lf_dir (Lf_data (flush_dir d)) = lf_dir (Lf_data d) ∧
  lfltab (flush_dir d) = lfltab d.
Proof. unfold flush_dir. by destruct (lf_dirdirty (Lf_data d)). Qed.

Section flush.
Context (d : devstate) (F : gmap Z lfile) (OP : gmap Z Z) (FI FD : list Z) (j m : Z) (fl : lfile) (f : lflcblk).
Hypothesis HO : open_at d F OP FI FD j m fl f.
Let R0 := Ram (flush_dir d).
Let R1 := flush_data f R0.
Let R2 := flush_iblk f R1.

Lemma flush_iblk_wf : lfibdirty f = true → 0 ≤ lfinum f < 7 * ns ∧ iblk_wf (lfiblock f).
Proof.
  intros Hd. pose proof (oa_ok _ _ _ _ _ _ _ _ _ HO) as Hok. pose proof (cb_idirty _ _ _ _ Hok Hd) as Hin.
  split; [by eapply oa_iarea|]. apply list_elem_of_lookup in Hin as [k Hk].
  rewrite (cb_iblock _ _ _ _ _ _ _ _ _ k HO Hk). eapply iblock_wf; [exact HO|].
  apply lookup_lt_Some in Hk. lia.
Qed.

Lemma flush_upd : disk_upd ns (fl_ibs fl) (fl_dbs fl) (Ram d) R2.
Proof.
  pose proof (oa_ok _ _ _ _ _ _ _ _ _ HO) as Hok. pose proof (oa_ns _ _ _ _ _ _ _ _ _ HO) as Hns.
  pose proof HO as [Hr _ _ _]. pose proof (fr_disk _ _ _ _ _ _ Hr) as Hd.
  assert (disk_upd ns (fl_ibs fl) (fl_dbs fl) (Ram d) R0) as H0.
  { unfold R0. destruct (flush_dir_ram d) as [-> | ->]; [by apply disk_upd_refl|].
    apply disk_upd_dir; [lia|done|apply Hr]. }
  assert (disk_upd ns (fl_ibs fl) (fl_dbs fl) R0 R1) as H1.
  { unfold R1, flush_data. destruct (lfdbdirty f) eqn:E; [|apply disk_upd_refl, H0].
    pose proof (cb_ddirty _ _ _ _ Hok E) as Hin.
    apply disk_upd_db; [apply H0| |apply Hok|done]. apply (oa_darea _ _ _ _ _ _ _ _ _ HO) in Hin. lia. }
  assert (disk_upd ns (fl_ibs fl) (fl_dbs fl) R1 R2) as H2.
  { unfold R2, flush_iblk. destruct (lfibdirty f) eqn:E; [|apply disk_upd_refl, H1].
    destruct (flush_iblk_wf E). apply disk_upd_ib; [apply H1|done|done|by apply (cb_idirty _ _ _ _ Hok)]. }
  eapply disk_upd_trans; [exact H0|]. by eapply disk_upd_trans.
Qed.

Lemma flush_ib n :
  n ∈ fl_ibs fl → ib_at R2 n = if bool_decide (lfinum f = n) && lfibdirty f then Some (lfiblock f) else ib_at (Ram d) n.
Proof.
  intros Hn. pose proof (oa_iarea _ _ _ _ _ _ _ _ _ HO n Hn) as Ha. pose proof (oa_ns _ _ _ _ _ _ _ _ _ HO) as Hns.
  pose proof (oa_ok _ _ _ _ _ _ _ _ _ HO) as Hok. pose proof HO as [Hr _ _ _].
  pose proof (ib2sect_range ns n Ha) as Hs.
  assert (ib_at R1 n = ib_at (Ram d) n ∧ disk_ok R1 ∧ is_Some (R1 !! ib2sect n)) as (E1 & Hok1 & [b Hb]).
  { assert (ib_at R0 n = ib_at (Ram d) n ∧ disk_ok R0 ∧ is_Some (R0 !! ib2sect n)) as (E0 & Hok0 & Hs0).
    { unfold R0. destruct (flush_dir_ram d) as [-> | ->].
      - split_and!; [done|apply Hr|]. by apply (oa_sector _ _ _ _ _ _ _ _ _ HO).
      - split_and!; [apply ib_at_insert; lia| |].
        + apply disk_ok_insert; [apply Hr|apply length_enc_lfdir, Hr].
        + rewrite lookup_insert_is_Some'. right. by apply (oa_sector _ _ _ _ _ _ _ _ _ HO). }
    unfold R1, flush_data. destruct (lfdbdirty f) eqn:E; [|done].
    pose proof (cb_ddirty _ _ _ _ Hok E) as Hin. apply (oa_darea _ _ _ _ _ _ _ _ _ HO) in Hin. split_and!.
    - rewrite ib_at_insert by lia. done.
    - apply disk_ok_insert; [done|apply Hok].
    - rewrite lookup_insert_is_Some'. by right. }
  unfold R2, flush_iblk. case_bool_decide as Heq; cbn [andb]; destruct (lfibdirty f) eqn:E; try done.
  - destruct (flush_iblk_wf E) as [Hr1 Hw]. subst n. eapply ib_at_put; [done|lia|done|exact Hb].
  - destruct (flush_iblk_wf E) as [Hr1 Hw]. rewrite ib_at_put_ne by (done || lia). done.
Qed.

Lemma flush_db n :
  n ∈ fl_dbs fl → R2 !! n = if bool_decide (lfdnum f = n) && lfdbdirty f then Some (lfdblock f) else Ram d !! n.
Proof.
  intros Hn. pose proof (oa_darea _ _ _ _ _ _ _ _ _ HO n Hn) as Ha. pose proof (oa_ns _ _ _ _ _ _ _ _ _ HO) as Hns.
  assert (R2 !! n = R1 !! n) as ->.
  { unfold R2, flush_iblk. destruct (lfibdirty f) eqn:E; [|done]. apply put_ib_other.
    destruct (flush_iblk_wf E) as [Hr1 _]. pose proof (ib2sect_range ns _ Hr1). lia. }
  assert (R0 !! n = Ram d !! n) as E0.
  { unfold R0. destruct (flush_dir_ram d) as [-> | ->]; [done|]. apply lookup_insert_ne. lia. }
  unfold R1, flush_data. case_bool_decide as Heq; cbn [andb]; destruct (lfdbdirty f); try done.
  - subst. apply lookup_insert_eq.
  - by rewrite lookup_insert_ne.
Qed.
End flush.

Lemma flush_step d F OP FI FD j m fl f :
  open_at d F OP FI FD j m fl f →
  runs (lfflush m) d OK (flushed m f d) ∧ open_at (flushed m f d) F OP FI FD j m fl (clean f).
Proof.
  intros HO. pose proof (oa_ok _ _ _ _ _ _ _ _ _ HO) as Hok. pose proof (oa_ns _ _ _ _ _ _ _ _ _ HO) as Hns.
  pose proof HO as [Hr Hf Hop Hc].
  destruct (oa_at _ _ _ _ _ _ _ _ _ HO) as (ld & Hld & [? _ ?] & Hat).
  destruct (flush_dir_lf d) as (E1 & E2 & E3). split.
  { apply lfflush_runs; [apply Hr|done|apply Hok|apply (oa_block _ _ _ _ _ _ _ _ _ HO); lia|..].
    - intros Hin%(cb_ddirty _ _ _ _ Hok). apply (oa_darea _ _ _ _ _ _ _ _ _ HO) in Hin.
      apply (oa_block _ _ _ _ _ _ _ _ _ HO). lia.
    - intros Hin%(cb_idirty _ _ _ _ Hok). apply (oa_sector _ _ _ _ _ _ _ _ _ HO). by apply (oa_iarea _ _ _ _ _ _ _ _ _ HO). }
  split; [|done|done|cbn; apply lookup_insert_eq].
  rewrite <-(insert_id F j fl) by done.
  eapply (fs_grow ns d _ F OP FI FI FD FD [] [] j m fl fl f (clean f) ld); try done; rewrite ?app_nil_r; try done.
  - cbn. rewrite E1. apply Hr.
  - cbn. rewrite E2. symmetry. apply upd_dir_id; [done|apply Hr..].
  - cbn. by rewrite E3.
  - by eapply flush_upd.
  - pose proof (flush_ib _ _ _ _ _ _ _ _ _ HO) as Hib. pose proof (flush_db _ _ _ _ _ _ _ _ _ HO) as Hdb.
    destruct Hat as [A1 A2 A3 A4 A5 A6 A7]. split; try done.
    + intros k n Hk. rewrite <-(A3 k n Hk). unfold ib_eff. cbn. case_bool_decide as Heq; [done|].
      rewrite Hib by (by eapply list_elem_of_lookup_2). by rewrite bool_decide_eq_false_2.
    + intros i n Hn. apply (block_holds_eq _ _ (db_eff (Ram d) (Some f) n)); [|by apply A4].
      unfold db_eff. cbn. case_bool_decide as Heq; [done|].
      rewrite Hdb by (by eapply list_elem_of_lookup_2). by rewrite bool_decide_eq_false_2.
  - pose proof (flush_ib _ _ _ _ _ _ _ _ _ HO) as Hib. pose proof (flush_db _ _ _ _ _ _ _ _ _ HO) as Hdb.
    destruct Hok as [K1 K2 K3 K4 K5 K6 K7 K8 K9 K10 K11]. split; try done; cbn.
    + intros _ Hin. rewrite Hib, bool_decide_eq_true_2 by done. destruct (lfibdirty f) eqn:E; [done|]. by apply K5.
    + intros _ i Hi. rewrite Hdb, bool_decide_eq_true_2 by (done || by eapply list_elem_of_lookup_2).
      destruct (lfdbdirty f) eqn:E; [|by apply K8]. pose proof (fa_dbs _ _ _ _ Hat i _ Hi) as Hh.
      unfold db_eff in Hh. by rewrite bool_decide_eq_true_2 in Hh.
Qed.

(** Once everything is flushed, the disk has the file. *)
Lemma clean_on_disk d F OP FI FD j m fl f ld :
  open_at d F OP FI FD j m fl f → lfibdirty f = false → lfdbdirty f = false →
  file_at (Ram d) ld (Some f) fl → file_at (Ram d) ld None fl.
Proof.
  intros HO Hi Hd Hat. pose proof (oa_ok _ _ _ _ _ _ _ _ _ HO) as Hok.
  destruct Hat as [A1 A2 A3 A4 A5 A6 A7]. split; try done.
  - intros k n Hk. rewrite <-(A3 k n Hk). unfold ib_eff. case_bool_decide as Heq; [|done]. subst n.
    apply (cb_iclean _ _ _ _ Hok Hi). by eapply list_elem_of_lookup_2.
  - intros i n Hn. cbn. destruct (decide (lfdnum f = n)) as [<-|Hne].
    + by apply (cb_dclean _ _ _ _ Hok Hd).
    + specialize (A4 i n Hn). unfold db_eff in A4. by rewrite bool_decide_eq_false_2 in A4.
Qed.

(** ** What setting up leaves as it is *)

Record same_cb (f f' : lflcblk) : Prop := Same_cb {
  sb_dev : lfdev f' = lfdev f;
  sb_mutex : lfmutex f' = lfmutex f;
  sb_mode : lfmode f' = lfmode f;
  sb_pos : lfpos f' = lfpos f;
  sb_name : lfname f' = lfname f }.

#[export] Instance same_cb_preorder : PreOrder same_cb.
Proof. split; [by split|]. intros f1 f2 f3 [] []. split; congruence. Qed.

(** The other slaves, the other devices, and of the directory the names. *)
Record dev_frame (m : Z) (d d' : devstate) : Prop := Dev_frame {
  df_tty : ttytab d' = ttytab d;
  df_uart : uart d' = uart d;
  df_tab : ∀ i, i ≠ m → lfltab d' !! i = lfltab d !! i;
  df_mutex : lf_mutex (Lf_data d') = lf_mutex (Lf_data d);
  df_present : lf_dirpresent (Lf_data d') = lf_dirpresent (Lf_data d);
  df_nfiles : lfd_nfiles (lf_dir (Lf_data d')) = lfd_nfiles (lf_dir (Lf_data d));
  df_names : ld_name <$> lfd_files (lf_dir (Lf_data d')) = ld_name <$> lfd_files (lf_dir (Lf_data d)) }.

#[export] Instance dev_frame_preorder m : PreOrder (dev_frame m).
Proof.
  split; [by split|]. intros d1 d2 d3 [] [F1 F2 F3 F4 F5 F6 F7]. split; try congruence.
  intros i Hi. rewrite F3 by done. auto.
Qed.

(** The open file has become [fl'], with the same bytes. *)
Record moved_to (d : devstate) (F : gmap Z lfile) (OP : gmap Z Z) (j m : Z) (fl : lfile) (f : lflcblk)
    (d' : devstate) (FI FD : list Z) (fl' : lfile) (f' : lflcblk) : Prop := Moved_to {
  mt_open : open_at d' (<[j := fl']> F) OP FI FD j m fl' f';
  mt_cb : same_cb f f';
  mt_frame : dev_frame m d d';
  mt_data : fl_data fl' = fl_data fl }.

Lemma moved_trans d F OP j m fl f d1 FI1 FD1 fl1 f1 d2 FI2 FD2 fl2 f2 :
  moved_to d F OP j m fl f d1 FI1 FD1 fl1 f1 →
  moved_to d1 (<[j := fl1]> F) OP j m fl1 f1 d2 FI2 FD2 fl2 f2 →
  moved_to d F OP j m fl f d2 FI2 FD2 fl2 f2.
Proof.
  intros [_ C1 F1 D1] [O2 C2 F2 D2]. split.
  - by rewrite insert_insert_eq in O2.
  - by etrans.
  - by etrans.
  - congruence.
Qed.

Lemma moved_refl d F OP FI FD j m fl f :
  open_at d F OP FI FD j m fl f → moved_to d F OP j m fl f d FI FD fl f.
Proof. intros HO. split; try done. rewrite insert_id; [done|apply HO]. Qed.

(** The names do not change with an entry's other fields. *)
Lemma names_insert (fs : list ldentry) i e e' :
  fs !! i = Some e → ld_name e' = ld_name e → ld_name <$> <[i := e']> fs = ld_name <$> fs.
Proof. intros He Hn. rewrite list_fmap_insert, Hn. apply list_insert_id. by rewrite list_lookup_fmap, He. Qed.

(** ** Loading an index block *)

Lemma disk_iblk d F OP FI FD j m fl f k n :
  open_at d F OP FI FD j m fl f → lfibdirty f = false → fl_ibs fl !! k = Some n →
  ib_at (Ram d) n = Some (iblock_of fl k).
Proof.
  intros HO Hc Hk. destruct (oa_at _ _ _ _ _ _ _ _ _ HO) as (ld & _ & _ & Hat).
  pose proof (fa_ibs _ _ _ _ Hat _ _ Hk) as H. unfold ib_eff in H. case_bool_decide as He; [|done].
  rewrite <-H. subst n. apply (cb_iclean _ _ _ _ (oa_ok _ _ _ _ _ _ _ _ _ HO) Hc).
  by eapply list_elem_of_lookup_2.
Qed.

(** The control block with another index block, and perhaps no data block. *)
Definition with_iblk (n : Z) (B : lfiblk) (dn : Z) (f : lflcblk) : lflcblk :=
  set_lfdnum dn (set_lfinum n (set_lfiblock B f)).

Lemma load_step d F OP FI FD j m fl f k n dn :
  open_at d F OP FI FD j m fl f → lfibdirty f = false → lfdbdirty f = false → lfbyte f = LF_BLKSIZ →
  fl_ibs fl !! k = Some n → dn = lfdnum f ∨ dn = LF_DNULL →
  moved_to d F OP j m fl f (set_lfltab (<[m := with_iblk n (iblock_of fl k) dn f]> (lfltab d)) d)
    FI FD fl (with_iblk n (iblock_of fl k) dn f).
Proof.
  intros HO Hi Hd Hb Hk Hdn. pose proof (oa_ok _ _ _ _ _ _ _ _ _ HO) as Hok.
  destruct (oa_at _ _ _ _ _ _ _ _ _ HO) as (ld & Hld & Hw & Hat).
  split; [|by split| |done].
  - rewrite (insert_id F j fl) by apply HO. eapply oa_set_cb; [exact HO|exact Hld|exact Hw|..].
    + apply (clean_on_disk _ _ _ _ _ _ _ _ _ _ HO Hi Hd) in Hat as Hat'.
      destruct Hat' as [A1 A2 A3 A4 A5 A6 A7]. split; try done.
      * intros k' n' Hk'. cbn. case_bool_decide as He; [|by apply A3]. subst n'.
        by rewrite (NoDup_lookup _ _ _ _ (oa_ibs_NoDup _ _ _ _ _ _ _ _ _ HO) Hk Hk').
      * intros i n' Hn'. unfold db_eff. cbn. case_bool_decide as He; [|by apply A4]. subst n'.
        destruct Hdn as [->|E].
        { pose proof (fa_dbs _ _ _ _ Hat i _ Hn') as H. unfold db_eff in H. by rewrite bool_decide_eq_true_2 in H. }
        apply list_elem_of_lookup_2, (oa_darea _ _ _ _ _ _ _ _ _ HO) in Hn'.
        pose proof (oa_ns _ _ _ _ _ _ _ _ _ HO). unfold LF_DNULL in E. lia.
    + destruct Hok as [K1 K2 K3 K4 K5 K6 K7 K8 K9 K10 K11].
      split; cbn; try done; try congruence; try by left.
      * right. by eapply list_elem_of_lookup_2.
      * intros _ _. by eapply disk_iblk.
      * destruct Hdn as [-> | ->]; [done|by left].
      * intros _ i Hn'. destruct Hdn as [-> | ->]; [by apply K8|].
        apply list_elem_of_lookup_2, (oa_darea _ _ _ _ _ _ _ _ _ HO) in Hn'.
        pose proof (oa_ns _ _ _ _ _ _ _ _ _ HO). unfold LF_DNULL in Hn'. lia.
  - split; try done. intros i Hne. cbn. by rewrite lookup_insert_ne.
Qed.

(** ** Allocating an index block *)

Lemma upd_dir_ifree j ld FI FD dir :
  lfd_dfree dir = default LF_DNULL (head FD) →
  upd_dir j ld FI FD dir =
    set_lfd_files (<[Z.to_nat j := ld]> (lfd_files dir)) (set_lfd_ifree (default LF_INULL (head FI)) dir).
Proof. destruct dir. cbn. by intros ->. Qed.

Lemma upd_dir_dfree j ld FI FD dir :
  lfd_ifree dir = default LF_INULL (head FI) →
  upd_dir j ld FI FD dir =
    set_lfd_files (<[Z.to_nat j := ld]> (lfd_files dir)) (set_lfd_dfree (default LF_DNULL (head FD)) dir).
Proof. destruct dir. cbn. by intros ->. Qed.

Lemma set_files_id j ld dir :
  lfd_files dir !! j = Some ld → set_lfd_files (<[j := ld]> (lfd_files dir)) dir = dir.
Proof. destruct dir. cbn. intros H. unfold set_lfd_files. cbn. by rewrite list_insert_id. Qed.

Lemma free_iblk d F OP FI FD j m fl f n :
  open_at d F OP (n :: FI) FD j m fl f →
  0 ≤ n < 7 * ns ∧ (n ∉ fl_ibs fl) ∧ int32 (default LF_INULL (head FI)) ∧
  ∃ B, ib_at (Ram d) n = Some B ∧ ib_next B = default LF_INULL (head FI).
Proof.
  intros HO. pose proof HO as [Hr Hf Hop Hc]. pose proof (oa_range _ _ _ _ _ _ _ _ _ HO) as Hj.
  assert (∀ x, x ∈ n :: FI → 0 ≤ x < 7 * ns) as Ha by (intros x; apply (fr_iarea _ _ _ _ _ _ Hr (-1))).
  pose proof (oa_ns _ _ _ _ _ _ _ _ _ HO) as Hns. split_and!.
  - apply Ha. by left.
  - apply Ha. by left.
  - rewrite <-(ilists_file F (n :: FI) j fl) by (lia || done).
    eapply apart_disjoint; [apply Hr| |rewrite ilists_free; by left]. lia.
  - apply head_range; [lia|lia|]. intros x Hx. specialize (Ha x ltac:(by right)). lia.
  - pose proof (fr_ilist _ _ _ _ _ _ Hr 0%nat n eq_refl) as Hl. cbn in Hl.
    destruct (ib_at (Ram d) n) as [B|]; [|done]. exists B. split; [done|]. cbn in Hl. injection Hl as ->.
    by destruct FI.
Qed.

Lemma lfiballoc_step d F OP FI FD j m fl f n :
  open_at d F OP (n :: FI) FD j m fl f →
  runs lfiballoc d n (dir_written (set_lfd_ifree (default LF_INULL (head FI)) (lf_dir (Lf_data d))) d).
Proof.
  intros HO. pose proof HO as [Hr _ _ _]. destruct (free_iblk _ _ _ _ _ _ _ _ _ _ HO) as (Hn & _ & _ & B & HB & <-).
  apply lfiballoc_runs; [apply Hr|apply (oa_block _ _ _ _ _ _ _ _ _ HO); lia| |apply Hr|done]. unfold LF_INULL. lia.
Qed.

Definition first_iblk (n : Z) (f : lflcblk) : lflcblk :=
  set_lfinum n (set_lfibdirty true (set_lfiblock (lfibclear 0) f)).

(** A file without index blocks is empty. *)
Lemma no_iblk d F OP FI FD j m fl f :
  open_at d F OP FI FD j m fl f → fl_ibs fl = [] → fl_dbs fl = [] ∧ fl_data fl = [].
Proof.
  intros HO Hn. destruct (oa_at _ _ _ _ _ _ _ _ _ HO) as (ld & _ & _ & Hat).
  pose proof (fa_fits _ _ _ _ Hat) as H1. pose proof (fa_index _ _ _ _ Hat) as H2. rewrite Hn in H2. cbn in H2.
  assert (length (fl_dbs fl) = 0%nat) as E by lia. rewrite E in H1.
  split; apply length_zero_iff_nil; lia.
Qed.

Lemma first_step d F OP FI FD j m fl f n ld :
  open_at d F OP (n :: FI) FD j m fl f → fl_ibs fl = [] → lfdbdirty f = false → lfbyte f = LF_BLKSIZ →
  entry d j = Some ld →
  let d1 := dir_written (set_lfd_ifree (default LF_INULL (head FI)) (lf_dir (Lf_data d))) d in
  let d2 := set_lfltab (<[m := set_lfiblock (lfibclear 0) f]> (lfltab d1)) d1 in
  let d3 := set_Lf_data (set_lf_dir (set_lfd_files
    (<[Z.to_nat j := set_ld_ilist n ld]> (lfd_files (lf_dir (Lf_data d2)))) (lf_dir (Lf_data d2))) (Lf_data d2)) d2 in
  let d4 := set_lfltab (<[m := first_iblk n f]> (lfltab d)) d3 in
  moved_to d F OP j m fl f d4 FI FD (LFile [n] (fl_dbs fl) (fl_data fl)) (first_iblk n f).
Proof.
  intros HO Hib Hd Hb Hld d1 d2 d3 d4. pose proof HO as [Hr Hf Hop Hc].
  destruct (no_iblk _ _ _ _ _ _ _ _ _ HO Hib) as [Hdb Hdata].
  destruct (free_iblk _ _ _ _ _ _ _ _ _ _ HO) as (Hn & Hnin & Hnx & _).
  destruct (oa_at _ _ _ _ _ _ _ _ _ HO) as (ld0 & Hld0 & [W1 W2 W3] & Hat). rewrite Hld in Hld0. injection Hld0 as <-.
  pose proof (oa_ok _ _ _ _ _ _ _ _ _ HO) as Hok. pose proof (oa_ns _ _ _ _ _ _ _ _ _ HO) as Hns.
  assert (disk_upd ns [n] (fl_dbs fl) (Ram d) (Ram d4)) as Hupd.
  { apply disk_upd_dir; [lia|apply Hr|]. destruct (fr_dir _ _ _ _ _ _ Hr). by split. }
  split; [|by split| |done].
  - split; [|by rewrite lookup_insert_eq|done|cbn; by rewrite lookup_insert_eq].
    eapply (fs_grow ns d _ F OP (n :: FI) FI FD FD [n] [] j m fl _ f _ (set_ld_ilist n ld)); try done.
    + cbn. by rewrite Hib.
    + cbn. by rewrite app_nil_r.
    + apply Hr.
    + cbn. rewrite upd_dir_ifree by apply Hr. done.
    + destruct Hat as [A1 A2 A3 A4 A5 A6 A7]. split; cbn; try done.
      * intros [|k] x; [|done]. intros [= <-]. rewrite bool_decide_eq_true_2 by done. rewrite Hdb. done.
      * by rewrite Hdb.
      * rewrite Hdb. cbn. lia.
    + destruct Hok as [K1 K2 K3 K4 K5 K6 K7 K8 K9 K10 K11]. rewrite Hdb in *. split; cbn; try done.
      * right. by left.
      * intros _. by left.
  - split; try done.
    + intros i Hne. cbn. by rewrite lookup_insert_ne.
    + cbn. by eapply names_insert.
Qed.

(** ** Extending the chain of index blocks *)

Definition next_iblk (n off : Z) (f : lflcblk) : lflcblk :=
  set_lfdnum LF_DNULL (set_lfibdirty true (set_lfiblock (lfibclear off) (set_lfinum n f))).

Lemma iblock_of_next ibs dbs data k n :
  S k = length ibs → set_ib_next n (iblock_of (LFile ibs dbs data) k) = iblock_of (LFile (ibs ++ [n]) dbs data) k.
Proof.
  intros Hk. unfold iblock_of, set_ib_next. cbn [ib_offset ib_dba fl_ibs fl_dbs].
  by rewrite Hk, lookup_app_r, Nat.sub_diag by done.
Qed.

Lemma iblock_of_before ibs l dbs data k :
  (S k < length ibs)%nat → iblock_of (LFile (ibs ++ l) dbs data) k = iblock_of (LFile ibs dbs data) k.
Proof. intros Hk. unfold iblock_of. cbn [fl_ibs fl_dbs]. by rewrite lookup_app_l. Qed.

Lemma iblock_of_new ibs dbs data n :
  (length dbs ≤ 16 * length ibs)%nat → Z.of_nat (length ibs) ≤ 1400 →
  iblock_of (LFile (ibs ++ [n]) dbs data) (length ibs) = lfibclear (LF_IDATA * Z.of_nat (length ibs)).
Proof.
  intros Hl Hb. unfold iblock_of, lfibclear. cbn [fl_ibs fl_dbs]. rewrite u32_id by (unfold LF_IDATA; lia).
  rewrite lookup_ge_None_2 by (rewrite length_app; cbn; lia).
  unfold dba_of. rewrite drop_ge by lia. done.
Qed.

Lemma extend_step d F OP FI FD j m fl f n k :
  open_at d F OP (n :: FI) FD j m fl f → lfibdirty f = false → lfdbdirty f = false → lfbyte f = LF_BLKSIZ →
  fl_ibs fl !! k = Some (lfinum f) → S k = length (fl_ibs fl) →
  let d1 := dir_written (set_lfd_ifree (default LF_INULL (head FI)) (lf_dir (Lf_data d))) d in
  let f' := next_iblk n (LF_IDATA * Z.of_nat (S k)) f in
  let d2 := set_lfltab (<[m := f']> (lfltab d))
    (set_Ram (put_ib (lfinum f) (set_ib_next n (lfiblock f)) (Ram d1)) d1) in
  is_Some (Ram d1 !! ib2sect (lfinum f)) ∧
  moved_to d F OP j m fl f d2 FI FD (LFile (fl_ibs fl ++ [n]) (fl_dbs fl) (fl_data fl)) f'.
Proof.
  intros HO Hi Hd Hb Hk Hlast d1 f' d2. pose proof HO as [Hr Hf Hop Hc].
  destruct (free_iblk _ _ _ _ _ _ _ _ _ _ HO) as (Hn & Hnin & Hnx & _).
  destruct (oa_at _ _ _ _ _ _ _ _ _ HO) as (ld & Hld & [W1 W2 W3] & Hat).
  pose proof (oa_ok _ _ _ _ _ _ _ _ _ HO) as Hok. pose proof (oa_ns _ _ _ _ _ _ _ _ _ HO) as Hns.
  assert (lfinum f ∈ fl_ibs fl) as Hin by (by eapply list_elem_of_lookup_2).
  pose proof (oa_iarea _ _ _ _ _ _ _ _ _ HO _ Hin) as Ha. pose proof (ib2sect_range ns _ Ha) as Hs.
  assert (is_Some (Ram d1 !! ib2sect (lfinum f))) as Hsec.
  { cbn. rewrite lookup_insert_is_Some'. right. by apply (oa_sector _ _ _ _ _ _ _ _ _ HO). }
  split; [done|]. set (fl' := LFile (fl_ibs fl ++ [n]) (fl_dbs fl) (fl_data fl)).
  pose proof (oa_ibs_len _ _ _ _ _ _ _ _ _ HO) as Hlen.
  assert (iblk_wf (set_ib_next n (lfiblock f))) as Hw.
  { rewrite (cb_iblock _ _ _ _ _ _ _ _ _ k HO Hk).
    destruct (iblock_wf _ _ _ _ _ _ _ _ _ k HO ltac:(lia)). split; try done. cbn. unfold int32. lia. }
  assert (disk_upd ns (fl_ibs fl') (fl_dbs fl') (Ram d) (Ram d1)) as Hu1.
  { apply disk_upd_dir; [lia|apply Hr|]. destruct (fr_dir _ _ _ _ _ _ Hr). by split. }
  assert (disk_upd ns (fl_ibs fl') (fl_dbs fl') (Ram d1) (Ram d2)) as Hu2.
  { apply disk_upd_ib; [apply Hu1|done|done|]. cbn. rewrite elem_of_app. by left. }
  pose proof (clean_on_disk _ _ _ _ _ _ _ _ _ _ HO Hi Hd Hat) as Hdisk.
  assert (disk_ok (Ram d1)) as Hok1 by apply Hu1.
  assert (∀ x, x ∈ fl_dbs fl → Ram d2 !! x = Ram d !! x) as Sd.
  { intros x Hx. pose proof (oa_darea _ _ _ _ _ _ _ _ _ HO _ Hx). cbn. rewrite put_ib_other by lia.
    by rewrite lookup_insert_ne by lia. }
  split; [|by split| |done].
  - split; [|by rewrite lookup_insert_eq|done|cbn; by rewrite lookup_insert_eq].
    eapply (fs_grow ns d _ F OP (n :: FI) FI FD FD [n] [] j m fl _ f _ ld); try done.
    + cbn. by rewrite app_nil_r.
    + apply Hr.
    + cbn [d2 d1 dir_written lf_dir Lf_data set_lfltab set_Ram set_Lf_data set_lf_dirdirty set_lf_dir].
      rewrite upd_dir_ifree by apply Hr. symmetry. by apply (set_files_id _ _ (set_lfd_ifree _ _)).
    + by eapply disk_upd_trans.
    + destruct Hdisk as [A1 A2 A3 A4 A5 A6 A7]. split; cbn [ib_eff db_eff fl_ibs fl_dbs fl_data fl'].
      * rewrite A1. by destruct (fl_ibs fl).
      * done.
      * intros k' x Hx. cbn [f' next_iblk lfinum lfiblock set_lfdnum set_lfibdirty set_lfiblock set_lfinum].
        destruct (decide (k' = length (fl_ibs fl))) as [->|Hk'].
        { rewrite lookup_app_r, Nat.sub_diag in Hx by done. injection Hx as <-.
          rewrite bool_decide_eq_true_2, Hlast by done. symmetry. f_equal. by apply iblock_of_new. }
        assert (k' < length (fl_ibs fl))%nat as Hlt.
        { apply lookup_lt_Some in Hx. rewrite length_app in Hx. cbn in Hx. lia. }
        rewrite lookup_app_l in Hx by done. rewrite bool_decide_eq_false_2.
        2: { intros ->. apply Hnin. by eapply list_elem_of_lookup_2. }
        change (Ram d2) with (put_ib (lfinum f) (set_ib_next n (lfiblock f)) (Ram d1)).
        destruct (decide (x = lfinum f)) as [->|Hne].
        { rewrite (NoDup_lookup _ _ _ _ (oa_ibs_NoDup _ _ _ _ _ _ _ _ _ HO) Hx Hk) in *.
          destruct Hsec as [b Hsec]. erewrite ib_at_put; [|done|lia|done|exact Hsec].
          rewrite (cb_iblock _ _ _ _ _ _ _ _ _ k HO Hk). f_equal. destruct fl. by apply iblock_of_next. }
        assert (0 ≤ x < 7 * ns) by (apply (oa_iarea _ _ _ _ _ _ _ _ _ HO); by eapply list_elem_of_lookup_2).
        rewrite ib_at_put_ne by (done || lia). cbn. rewrite ib_at_insert by (pose proof (ib2sect_range ns x); lia).
        etrans; [exact (A3 _ _ Hx)|]. f_equal. destruct fl. symmetry. apply iblock_of_before.
        enough (k' ≠ k) by (cbn in *; lia). intros ->. cbn in *. congruence.
      * intros i x Hx. cbn. assert (x ∈ fl_dbs fl) as Hxin by (by eapply list_elem_of_lookup_2).
        pose proof (oa_darea _ _ _ _ _ _ _ _ _ HO _ Hxin). rewrite bool_decide_eq_false_2 by (unfold LF_DNULL; lia).
        apply (block_holds_eq _ _ (Ram d !! x)); [symmetry; by apply Sd|by apply (A4 i x)].
      * done.
      * rewrite length_app. lia.
      * done.
    + destruct Hok as [K1 K2 K3 K4 K5 K6 K7 K8 K9 K10 K11]. split; cbn; try done.
      * right. rewrite elem_of_app, list_elem_of_singleton. by right.
      * intros _. rewrite elem_of_app, list_elem_of_singleton. by right.
      * by left.
      * congruence.
      * intros _ i Hx. apply list_elem_of_lookup_2, (oa_darea _ _ _ _ _ _ _ _ _ HO) in Hx. unfold LF_DNULL in Hx. lia.
      * by left.
  - split; try done. intros i Hne. cbn. by rewrite lookup_insert_ne.
Qed.

(** ** The data block of a position *)

Lemma disk_dblk d F OP FI FD j m fl f i n :
  open_at d F OP FI FD j m fl f → lfdbdirty f = false → fl_dbs fl !! i = Some n →
  block_holds (fl_data fl) i (Ram d !! n).
Proof.
  intros HO Hd Hn. destruct (oa_at _ _ _ _ _ _ _ _ _ HO) as (ld & _ & _ & Hat).
  pose proof (fa_dbs _ _ _ _ Hat i n Hn) as H. unfold db_eff in H. case_bool_decide as He; [|done].
  subst n. by apply (cb_dclean _ _ _ _ (oa_ok _ _ _ _ _ _ _ _ _ HO) Hd).
Qed.

Definition with_dblk (n : Z) (b : list Z) (r : Z) (f : lflcblk) : lflcblk :=
  set_lfbyte r (set_lfdnum n (set_lfdbdirty false (set_lfdblock b f))).

Lemma data_step d F OP FI FD j m fl f i n b r :
  open_at d F OP FI FD j m fl f → lfdbdirty f = false → fl_dbs fl !! i = Some n →
  (lfdnum f = n ∧ lfdblock f = b) ∨ (lfdnum f ≠ n ∧ Ram d !! n = Some b) →
  lfpos f = 512 * Z.of_nat i + r → 0 ≤ r < 512 →
  moved_to d F OP j m fl f (set_lfltab (<[m := with_dblk n b r f]> (lfltab d)) d) FI FD fl (with_dblk n b r f).
Proof.
  intros HO Hd Hn Hb Hpos Hr. pose proof (oa_ok _ _ _ _ _ _ _ _ _ HO) as Hok.
  destruct (oa_at _ _ _ _ _ _ _ _ _ HO) as (ld & Hld & Hw & Hat).
  assert (block_holds (fl_data fl) i (Some b)) as Hh.
  { destruct Hb as [[E1 E2]|[E1 E2]]; [|rewrite <-E2; by eapply disk_dblk].
    pose proof (fa_dbs _ _ _ _ Hat i n Hn) as H. unfold db_eff in H.
    rewrite bool_decide_eq_true_2 in H by done. by subst. }
  assert (length b = 512%nat) as Hlen by (destruct Hh as (? & [= <-] & ? & _); done).
  split; [|by split| |done].
  - rewrite (insert_id F j fl) by apply HO. eapply oa_set_cb; [exact HO|exact Hld|exact Hw|..].
    + destruct Hat as [A1 A2 A3 A4 A5 A6 A7]. split; try done.
      intros i' n' Hn'. unfold db_eff. cbn. case_bool_decide as He; [|by eapply disk_dblk]. subst n'.
      by rewrite (NoDup_lookup _ _ _ _ (oa_dbs_NoDup _ _ _ _ _ _ _ _ _ HO) Hn' Hn).
    + destruct Hok as [K1 K2 K3 K4 K5 K6 K7 K8 K9 K10 K11]. split; cbn; try done.
      * right. by eapply list_elem_of_lookup_2.
      * intros _ i' Hn'. by eapply disk_dblk.
      * right. exists i. done.
  - split; try done. intros i' Hne. cbn. by rewrite lookup_insert_ne.
Qed.

Lemma free_dblk d F OP FI FD j m fl f n :
  open_at d F OP FI (n :: FD) j m fl f →
  ns < n < 200 ∧ (n ∉ fl_dbs fl) ∧ int32 (default LF_DNULL (head FD)) ∧
  ∃ b, Ram d !! n = Some b ∧ lf_nextdb b = default LF_DNULL (head FD).
Proof.
  intros HO. pose proof HO as [Hr Hf Hop Hc]. pose proof (oa_range _ _ _ _ _ _ _ _ _ HO) as Hj.
  assert (∀ x, x ∈ n :: FD → ns < x < 200) as Ha by (intros x; apply (fr_darea _ _ _ _ _ _ Hr (-1))).
  pose proof (oa_ns _ _ _ _ _ _ _ _ _ HO) as Hns. split_and!.
  - apply Ha. by left.
  - apply Ha. by left.
  - rewrite <-(dlists_file F (n :: FD) j fl) by (lia || done).
    eapply apart_disjoint; [apply Hr| |rewrite dlists_free; by left]. lia.
  - apply head_range; [lia|lia|]. intros x Hx. specialize (Ha x ltac:(by right)). lia.
  - pose proof (fr_dlist _ _ _ _ _ _ Hr 0%nat n eq_refl) as Hl. cbn in Hl.
    destruct (Ram d !! n) as [b|]; [|done]. exists b. split; [done|]. cbn in Hl. injection Hl as ->.
    by destruct FD.
Qed.

Lemma lfdballoc_step d F OP FI FD j m fl f n buff :
  open_at d F OP FI (n :: FD) j m fl f →
  runs (lfdballoc buff) d (n, replicate 512 DFILL)
    (dir_written (set_lfd_dfree (default LF_DNULL (head FD)) (lf_dir (Lf_data d))) d).
Proof.
  intros HO. pose proof HO as [Hr _ _ _]. destruct (free_dblk _ _ _ _ _ _ _ _ _ _ HO) as (Hn & _ & _ & b & Hb & <-).
  pose proof (oa_ns _ _ _ _ _ _ _ _ _ HO).
  apply lfdballoc_runs; [apply Hr|apply (oa_block _ _ _ _ _ _ _ _ _ HO); lia| |apply Hr|done]. unfold LF_DNULL. lia.
Qed.

Lemma dba_snoc dbs n k :
  dba_of (dbs ++ [n]) k =
    if bool_decide (k = length dbs / 16)%nat then <[(length dbs mod 16)%nat := n]> (dba_of dbs k) else dba_of dbs k.
Proof.
  pose proof (Nat.div_mod_eq (length dbs) 16) as Hdm. pose proof (Nat.mod_upper_bound (length dbs) 16) as Hm.
  assert (∀ q, (q < 16)%nat → dba_of (dbs ++ [n]) k !! q =
    if decide (16 * k + q = length dbs)%nat then Some n else dba_of dbs k !! q) as Hq.
  { intros q Hq. rewrite !dba_of_lookup by done. case_decide as He.
    - by rewrite He, lookup_app_r, Nat.sub_diag by lia.
    - do 2 f_equal. destruct (decide (16 * k + q < length dbs)%nat).
      + by rewrite lookup_app_l by lia.
      + rewrite !(proj2 (lookup_ge_None _ _)) by (rewrite ?length_app; cbn; lia). done. }
  apply list_eq. intros q. destruct (decide (q < 16)%nat) as [Hlt|Hge].
  - rewrite Hq by done. case_bool_decide as Hk.
    + rewrite list_lookup_insert, dba_of_length. case_decide as H1; case_decide as H2; try done; lia.
    + by rewrite decide_False by lia.
  - rewrite !lookup_ge_None_2; [done|..]; [|rewrite dba_of_length; lia].
    case_bool_decide; rewrite ?length_insert, dba_of_length; lia.
Qed.

Lemma iblock_of_snoc ibs dbs data n k :
  iblock_of (LFile ibs (dbs ++ [n]) data) k =
    if bool_decide (k = length dbs / 16)%nat
    then set_ib_dba (<[(length dbs mod 16)%nat := n]> (ib_dba (iblock_of (LFile ibs dbs data) k)))
      (iblock_of (LFile ibs dbs data) k)
    else iblock_of (LFile ibs dbs data) k.
Proof. unfold iblock_of. cbn [fl_ibs fl_dbs ib_dba]. rewrite dba_snoc. by case_bool_decide. Qed.

Definition new_dblk (n : Z) (q : nat) (r : Z) (f : lflcblk) : lflcblk :=
  set_lfbyte r (set_lfdnum n (set_lfibdirty true
    (set_lfiblock (set_ib_dba (<[q := n]> (ib_dba (lfiblock f))) (lfiblock f))
      (set_lfdblock (replicate 512 DFILL) f)))).

Lemma fill_step d F OP FI FD j m fl f n r :
  open_at d F OP FI (n :: FD) j m fl f → lfdbdirty f = false →
  fl_ibs fl !! (length (fl_dbs fl) / 16)%nat = Some (lfinum f) →
  length (fl_data fl) = (512 * length (fl_dbs fl))%nat →
  lfpos f = 512 * Z.of_nat (length (fl_dbs fl)) + r → 0 ≤ r < 512 →
  let d1 := dir_written (set_lfd_dfree (default LF_DNULL (head FD)) (lf_dir (Lf_data d))) d in
  let f' := new_dblk n (length (fl_dbs fl) mod 16) r f in
  moved_to d F OP j m fl f (set_lfltab (<[m := f']> (lfltab d)) d1) FI FD
    (LFile (fl_ibs fl) (fl_dbs fl ++ [n]) (fl_data fl)) f'.
Proof.
  intros HO Hd Hk Hfull Hpos Hrr d1 f'. pose proof HO as [Hr Hf Hop Hc].
  set (k := (length (fl_dbs fl) / 16)%nat) in *. set (q := (length (fl_dbs fl) mod 16)%nat) in *.
  destruct (free_dblk _ _ _ _ _ _ _ _ _ _ HO) as (Hn & Hnin & Hnx & _).
  destruct (oa_at _ _ _ _ _ _ _ _ _ HO) as (ld & Hld & [W1 W2 W3] & Hat).
  pose proof (oa_ok _ _ _ _ _ _ _ _ _ HO) as Hok. pose proof (oa_ns _ _ _ _ _ _ _ _ _ HO) as Hns.
  set (fl' := LFile (fl_ibs fl) (fl_dbs fl ++ [n]) (fl_data fl)).
  assert (∀ dbs, disk_upd ns (fl_ibs fl) dbs (Ram d) (Ram d1)) as Hupd.
  { intros dbs. apply disk_upd_dir; [lia|apply Hr|]. destruct (fr_dir _ _ _ _ _ _ Hr). by split. }
  assert (lfinum f ∈ fl_ibs fl) as Hin by (by eapply list_elem_of_lookup_2).
  assert (set_ib_dba (<[q := n]> (ib_dba (lfiblock f))) (lfiblock f) = iblock_of fl' k) as Hib.
  { rewrite (cb_iblock _ _ _ _ _ _ _ _ _ k HO Hk). destruct fl as [ibs dbs data].
    unfold fl'. cbn [fl_ibs fl_dbs fl_data]. rewrite iblock_of_snoc. by rewrite bool_decide_eq_true_2. }
  assert (∀ x, 0 ≤ x < 7 * ns → ib_at (Ram d1) x = ib_at (Ram d) x) as Si.
  { intros x Hx. cbn. apply ib_at_insert. pose proof (ib2sect_range ns x Hx). lia. }
  assert (∀ x, ns < x → Ram d1 !! x = Ram d !! x) as Sd.
  { intros x Hx. cbn. rewrite lookup_insert_ne; [done|lia]. }
  assert (∀ i x, fl_dbs fl' !! i = Some x → (x = n ∧ i = length (fl_dbs fl)) ∨ (x ≠ n ∧ fl_dbs fl !! i = Some x)) as Hnew.
  { intros i x Hx. cbn in Hx. apply lookup_app_Some in Hx as [Hx|[Hge Hx]].
    - right. split; [|done]. intros ->. apply Hnin. by eapply list_elem_of_lookup_2.
    - left. pose proof (lookup_lt_Some _ _ _ Hx) as Hl. cbn in Hl.
      replace (i - length (fl_dbs fl))%nat with 0%nat in Hx by lia. injection Hx as ->. split; [done|lia]. }
  assert (∀ x, fl_dbs fl !! x = Some n → False) as Hno by (intros x Hx; apply Hnin; by eapply list_elem_of_lookup_2).
  assert (∀ o, o = Some (replicate 512 DFILL) → block_holds (fl_data fl) (length (fl_dbs fl)) o) as Hfill.
  { intros o ->. eexists. split_and!; [done|by rewrite length_replicate|]. intros y c _ Hy.
    apply lookup_lt_Some in Hy. lia. }
  split; [|by split| |done].
  - split; [|by rewrite lookup_insert_eq|done|cbn; by rewrite lookup_insert_eq].
    eapply (fs_grow ns d _ F OP FI FI (n :: FD) FD [] [n] j m fl _ f _ ld); try done.
    + cbn. by rewrite app_nil_r.
    + apply Hr.
    + cbn [d1 dir_written lf_dir Lf_data set_lfltab set_Ram set_Lf_data set_lf_dirdirty set_lf_dir].
      rewrite upd_dir_dfree by apply Hr. symmetry. by apply (set_files_id _ _ (set_lfd_dfree _ _)).
    + destruct Hat as [A1 A2 A3 A4 A5 A6 A7]. split; cbn [fl_ibs fl_data fl']; try done.
      * intros k' x Hx. cbn [ib_eff f' new_dblk lfinum lfiblock set_lfbyte set_lfdnum set_lfibdirty set_lfiblock set_lfdblock].
        case_bool_decide as He.
        { subst x. rewrite (NoDup_lookup _ _ _ _ (oa_ibs_NoDup _ _ _ _ _ _ _ _ _ HO) Hx Hk). by rewrite Hib. }
        change (Ram (set_lfltab (<[m:=f']> (lfltab d)) d1)) with (Ram d1).
        rewrite Si by (apply (oa_iarea _ _ _ _ _ _ _ _ _ HO); by eapply list_elem_of_lookup_2).
        specialize (A3 k' x Hx). cbn in A3. rewrite bool_decide_eq_false_2 in A3 by done. rewrite A3. f_equal.
        destruct fl as [ibs dbs data]. unfold fl'. cbn [fl_ibs fl_dbs fl_data] in *. rewrite iblock_of_snoc.
        rewrite bool_decide_eq_false_2; [done|]. fold k. intros ->. congruence.
      * intros i x Hx. cbn [db_eff f' new_dblk lfdnum lfdblock set_lfbyte set_lfdnum set_lfibdirty set_lfiblock set_lfdblock].
        destruct (Hnew _ _ Hx) as [[-> ->]|[Hne Hi]]; case_bool_decide as He; try done; [by apply Hfill|].
        change (Ram (set_lfltab (<[m:=f']> (lfltab d)) d1)) with (Ram d1).
        rewrite Sd by (apply list_elem_of_lookup_2, (oa_darea _ _ _ _ _ _ _ _ _ HO) in Hi; lia). by eapply disk_dblk.
      * cbn. rewrite length_app. lia.
      * cbn. rewrite length_app. cbn.
        apply lookup_lt_Some in Hk. pose proof (Nat.div_mod_eq (length (fl_dbs fl)) 16).
        pose proof (Nat.mod_upper_bound (length (fl_dbs fl)) 16). subst k q. lia.
    + destruct Hok as [K1 K2 K3 K4 K5 K6 K7 K8 K9 K10 K11].
      split; cbn [f' new_dblk lfstate lfdirptr lfinum lfibdirty lfiblock lfdnum lfdbdirty lfdblock lfpos lfbyte set_lfbyte
        set_lfdnum set_lfibdirty set_lfiblock set_lfdblock fl_ibs fl_dbs fl_data fl']; try done.
      * right. rewrite elem_of_app, list_elem_of_singleton. by right.
      * intros _. rewrite elem_of_app, list_elem_of_singleton. by right.
      * intros _ i Hx. destruct (Hnew i n Hx) as [[_ ->]|[? _]]; [|done].
        destruct (Ram d !! n) as [b|] eqn:Hb.
        -- exists b. rewrite Sd by lia. split_and!; [done|by eapply (fr_disk _ _ _ _ _ _ Hr)|].
           intros y c _ Hy. apply lookup_lt_Some in Hy. lia.
        -- destruct (oa_block _ _ _ _ _ _ _ _ _ HO n ltac:(lia)) as [? E]. congruence.
      * right. exists (length (fl_dbs fl)). split; [by rewrite lookup_app_r, Nat.sub_diag|]. by split.
  - split; try done. intros i Hne. cbn. by rewrite lookup_insert_ne.
Qed.

End setup.
