(* ===== verification/LfsName.v ===== *)
(** The strings of the file system: file names in a caller's memory, in the
    directory and in the control blocks, and the characters of a mode. *)

From S2P Require Import Prelude Types ByteMem Words DevTypes Heap Kernel KInv Device LfsDisk Lfs Lfl LfsRun LfsRep LfsSetup.

(** A string in memory: its characters and the null. *)
Definition string_at (h : heap) (a : Z) (w : list Z) : Prop :=
  bytes_in h a (w ++ [0]) ∧ (0 ∉ w) ∧ 0 ≤ a ∧ a + Z.of_nat (length w) < 4294967296.

(** The string that a buffer holds: the characters before the first null. *)
Fixpoint cname (l : list Z) : list Z :=
  match l with [] => [] | c :: l => if bool_decide (c = 0) then [] else c :: cname l end.

Lemma cname_length l : (length (cname l) ≤ length l)%nat.
Proof. induction l as [|c l IH]; cbn; [done|]. case_bool_decide; cbn; lia. Qed.

Lemma cname_here w l : 0 ∉ w → cname (w ++ 0 :: l) = w.
Proof.
  induction w as [|c w IH]; cbn [app cname]; intros Hw; [done|]. apply not_elem_of_cons in Hw as [Hc Hw].
  rewrite bool_decide_eq_false_2 by congruence. by rewrite IH.
Qed.

Lemma string_head h a c w : string_at h a (c :: w) → ldb a h = Some c ∧ c ≠ 0 ∧ string_at h (a + 1) w ∧ u32 (a + 1) = a + 1.
Proof.
  intros ([Hc Hb] & Hn & Ha & Hl). apply not_elem_of_cons in Hn as [Hn Hn'].
  cbn [length] in Hl. split_and!; [done|congruence| |apply u32_id; lia]. split_and!; [done|done|lia|lia].
Qed.

Lemma string_end h a : string_at h a [] → ldb a h = Some 0.
Proof. by intros ([Hc _] & _). Qed.

(** The string is read by an index [i]. *)
Definition rest_at (h : heap) (name i : Z) (w : list Z) : Prop := string_at h (u32 (name + i)) w.

Lemma rest_start h name w : string_at h name w → rest_at h name 0 w.
Proof. intros Hs. unfold rest_at. rewrite Z.add_0_r, u32_id; [done|]. destruct Hs as (_ & _ & ? & ?). lia. Qed.

Lemma name_char_at s name i c w :
  rest_at (hp s) name i (c :: w) → 0 ≤ i →
  name_char name i s = Done c s ∧ c ≠ 0 ∧ rest_at (hp s) name (i + 1) w.
Proof.
  unfold rest_at. intros Hs Hi. destruct (string_head _ _ _ _ Hs) as (Hc & Hn & Ht & Hu).
  split; [unfold name_char, hread; by rewrite Hc|]. split; [done|].
  replace (u32 (name + (i + 1))) with (u32 (u32 (name + i) + 1)); [by rewrite Hu|].
  unfold u32. rewrite Z.add_assoc. by rewrite Zplus_mod_idemp_l.
Qed.

Lemma name_char_end s name i : rest_at (hp s) name i [] → name_char name i s = Done 0 s.
Proof. unfold rest_at. intros Hc%string_end. unfold name_char, hread. by rewrite Hc. Qed.

Lemma name_len_spec n s name w : ∀ i, rest_at (hp s) name i w → 0 ≤ i →
  name_len n name i s = Done (i + Z.of_nat (Nat.min n (length w))) s.
Proof.
  revert w. induction n as [|n IH]; intros w i Hw Hi; cbn [name_len]; [by rewrite Z.add_0_r|].
  destruct w as [|c w].
  - kred. rewrite (name_char_end _ _ _ Hw). kred. by rewrite Nat.min_0_r, Z.add_0_r.
  - destruct (name_char_at _ _ _ _ _ Hw Hi) as (E & Hc & Hw'). kred. rewrite E. kred.
    rewrite bool_decide_eq_false_2 by done. rewrite (IH w) by (done || lia). f_equal. cbn [length]. lia.
Qed.

Lemma name_is_spec n s name w : ∀ i cmp, rest_at (hp s) name i w → 0 ≤ i →
  (length w < n)%nat → (length w < length cmp)%nat →
  name_is n name i cmp s = Done (bool_decide (cname cmp = w)) s.
Proof.
  revert w. induction n as [|n IH]; intros w i cmp Hw Hi Hn Hl; [lia|]. cbn [name_is].
  destruct cmp as [|x cmp]; [cbn in Hl; lia|]. cbn [cname length] in *. destruct w as [|c w].
  - kred. rewrite (name_char_end _ _ _ Hw). kred. f_equal. by repeat case_bool_decide.
  - destruct (name_char_at _ _ _ _ _ Hw Hi) as (E & Hc & Hw'). kred. rewrite E. kred.
    rewrite bool_decide_eq_false_2 by done. cbn [length] in *. case_bool_decide as Hx.
    + kred. f_equal. symmetry. apply bool_decide_eq_false_2. case_bool_decide; congruence.
    + assert (c = x) as -> by (destruct (decide (c = x)); tauto).
      rewrite (IH w) by (done || lia). f_equal. rewrite (bool_decide_eq_false_2 (x = 0)) by done.
      apply bool_decide_ext. split; congruence.
Qed.

Lemma name_copy_spec n s name w : ∀ i to, rest_at (hp s) name i w → 0 ≤ i →
  (length w < n)%nat → (length w < length to)%nat →
  name_copy n name i to s = Done (w ++ 0 :: drop (S (length w)) to) s.
Proof.
  revert w. induction n as [|n IH]; intros w i to Hw Hi Hn Hl; [lia|]. cbn [name_copy].
  destruct to as [|x to]; [cbn in Hl; lia|]. destruct w as [|c w].
  - kred. rewrite (name_char_end _ _ _ Hw). by kred.
  - destruct (name_char_at _ _ _ _ _ Hw Hi) as (E & Hc & Hw'). kred. rewrite E. kred.
    rewrite bool_decide_eq_false_2 by done. cbn [length] in *. kred. rewrite (IH w) by (done || lia). by kred.
Qed.

Lemma name_copied w to : 0 ∉ w → (length w < length to)%nat →
  cname (w ++ 0 :: drop (S (length w)) to) = w ∧ length (w ++ 0 :: drop (S (length w)) to) = length to.
Proof. intros Hw Hl. split; [by apply cname_here|]. rewrite length_app. cbn [length]. rewrite length_drop. lia. Qed.

(** ** The mode *)

(** The bit of a letter. *)
Definition mode_bit (c : Z) : option Z :=
  if bool_decide (c = 114) then Some LF_MODE_R else if bool_decide (c = 119) then Some LF_MODE_W
  else if bool_decide (c = 111) then Some LF_MODE_O else if bool_decide (c = 110) then Some LF_MODE_N else None.

(** A mode is letters r, w, o, n, each at most once, and not both o and n. *)
Definition mode_ok (w : list Z) : Prop :=
  Forall (λ c, is_Some (mode_bit c)) w ∧ NoDup w ∧ ¬ (111 ∈ w ∧ 110 ∈ w).
#[export] Instance mode_ok_dec w : Decision (mode_ok w).
Proof. unfold mode_ok. apply _. Defined.

Definition mode_bits (w : list Z) : Z := foldr (λ c b, Z.lor (default 0 (mode_bit c)) b) 0 w.
Definition mode_value (w : list Z) : Z :=
  if bool_decide (mode_ok w) then
    if bool_decide (Z.land (mode_bits w) LF_MODE_RW = 0) then Z.lor (mode_bits w) LF_MODE_RW else mode_bits w
  else SYSERR.

(** Letters that have been read, as the bits they have set. *)
Record mode_state (r w o n : bool) (mbits : Z) : Prop := Mode_state {
  ms_bits : mbits = Z.b2z r + 2 * Z.b2z w + 8 * Z.b2z o + 4 * Z.b2z n;
  ms_on : o && n = false }.

Definition may_follow (r w o n : bool) (l : list Z) : Prop :=
  mode_ok l ∧ (r → ¬ 114 ∈ l) ∧ (w → ¬ 119 ∈ l) ∧ (o || n → ¬ 111 ∈ l ∧ ¬ 110 ∈ l).
#[export] Instance may_follow_dec r w o n l : Decision (may_follow r w o n l).
Proof. unfold may_follow. apply _. Defined.

(** One letter: it was not read before, and the others may follow. *)
Ltac follow_letter :=
  unfold may_follow, mode_ok; rewrite Forall_cons, NoDup_cons, !elem_of_cons, ?orb_true_r, ?orb_true_l;
  change (Is_true true) with True;
  match goal with |- context [is_Some (mode_bit ?c)] =>
    assert (is_Some (mode_bit c)) by by eexists
  end;
  split; [intros ((? & ?) & ? & ? & ?)|intros ?]; naive_solver.

Lemma may_follow_r r w o n l : may_follow r w o n (114 :: l) ↔ ¬ r ∧ may_follow true w o n l.
Proof. follow_letter. Qed.
Lemma may_follow_w r w o n l : may_follow r w o n (119 :: l) ↔ ¬ w ∧ may_follow r true o n l.
Proof. follow_letter. Qed.
Lemma may_follow_o r w o n l : may_follow r w o n (111 :: l) ↔ ¬ (o || n) ∧ may_follow r w true n l.
Proof. follow_letter. Qed.
Lemma may_follow_n r w o n l : may_follow r w o n (110 :: l) ↔ ¬ (o || n) ∧ may_follow r w o true l.
Proof. follow_letter. Qed.

Lemma may_follow_nil r w o n : may_follow r w o n [].
Proof. unfold may_follow, mode_ok. rewrite !elem_of_nil. split_and!; [constructor|constructor|tauto|tauto|tauto|tauto]. Qed.

(** Evaluate the tests of letters and of bits. *)
Ltac eval_tests :=
  repeat match goal with
  | |- context [bool_decide (?x = ?y)] =>
    let v := eval vm_compute in (bool_decide (x = y)) in
    match v with true => idtac | false => idtac end; change (bool_decide (x = y)) with v; cbv iota
  | |- context [bool_decide (?x ≠ ?y)] =>
    let v := eval vm_compute in (bool_decide (x ≠ y)) in
    match v with true => idtac | false => idtac end; change (bool_decide (x ≠ y)) with v; cbv iota
  end.

(** One letter: it has been read before, or the rest is read with its bit set. *)
Ltac letter IH Ht :=
  eval_tests; cbn [orb];
  match goal with
  | |- ret None _ = _ => by rewrite bool_decide_eq_false_2 by (intros [Hno _]; by apply Hno)
  | |- context [may_follow ?r ?w ?o ?n ?l] =>
    rewrite (bool_decide_ext _ (may_follow r w o n l)) by (split; [by intros [_ ?]|by split; [intros []|]]);
    rewrite (IH _ r w o n _ _ Ht); [by rewrite Z.lor_assoc|by split|cbn in *; lia]
  end.

Lemma mode_loop_spec s l : ∀ a r w o n mbits fuel,
  string_at (hp s) a l → mode_state r w o n mbits → (fuel + (Nat.b2n r + Nat.b2n w + Nat.b2n (o || n)) = 4)%nat →
  lfgetmode_loop fuel a mbits s =
    Done (if bool_decide (may_follow r w o n l) then Some (Z.lor mbits (mode_bits l)) else None) s.
Proof.
  induction l as [|c l IH]; intros a r w o n mbits fuel Hs [-> Hon] Hf.
  all: destruct fuel as [|fuel]; [destruct r, w, o, n; cbn in Hf; lia|]; cbn [lfgetmode_loop].
  - unfold hread. kred. rewrite (string_end _ _ Hs). kred.
    rewrite bool_decide_eq_true_2 by done. kred. cbn [mode_bits foldr]. rewrite Z.lor_0_r.
    by rewrite bool_decide_eq_true_2 by apply may_follow_nil.
  - destruct (string_head _ _ _ _ Hs) as (Hc & Hc0 & Ht & Hu). unfold hread. kred. rewrite Hc. kred.
    rewrite (bool_decide_eq_false_2 (c = 0)), Hu by done.
    cbn [mode_bits foldr].
    destruct (decide (c = 114)) as [->|H1]; [|destruct (decide (c = 119)) as [->|H2]; [|
      destruct (decide (c = 111)) as [->|H3]; [|destruct (decide (c = 110)) as [->|H4]]]].
    + rewrite (bool_decide_ext _ _ (may_follow_r r w o n l)). destruct r, w, o, n; try done; letter IH Ht.
    + rewrite (bool_decide_ext _ _ (may_follow_w r w o n l)). destruct r, w, o, n; try done; letter IH Ht.
    + rewrite (bool_decide_ext _ _ (may_follow_o r w o n l)). destruct r, w, o, n; try done; letter IH Ht.
    + rewrite (bool_decide_ext _ _ (may_follow_n r w o n l)). destruct r, w, o, n; try done; letter IH Ht.
    + rewrite !bool_decide_eq_false_2 by done. rewrite bool_decide_eq_false_2; [done|].
      intros [[[[? Hb] _]%Forall_cons _] _]. unfold mode_bit in Hb. by rewrite !bool_decide_eq_false_2 in Hb.
Qed.

Lemma lfgetmode_spec s a w : string_at (hp s) a w → lfgetmode a s = Done (mode_value w) s.
Proof.
  intros Hs. unfold lfgetmode. kred. rewrite (mode_loop_spec s w a false false false false 0 4 Hs); [|by split|done].
  kred. rewrite Z.lor_0_l. unfold mode_value. rewrite (bool_decide_ext _ (mode_ok w)); [by case_bool_decide; kred|].
  unfold may_follow. split; [by intros [? _]|]. intros ?. split_and!; [done|by intros []..].
Qed.

(** ** Names of files and of slaves

    Every slave has a name and a data block of their size; an open file's slave has the name of its
    entry, and no two entries of the directory have the same name. *)
Record names_ok (d : devstate) (OP : gmap Z Z) : Prop := Names_ok {
  nm_slaves : ∀ m, is_Some (lfltab d !! m) ↔ 0 ≤ m < Nlfl;
  nm_len : ∀ m f, lfltab d !! m = Some f → length (lfname f) = 16%nat ∧ length (lfdblock f) = 512%nat;
  nm_open : ∀ j m f ld, OP !! j = Some m → lfltab d !! m = Some f → entry d j = Some ld →
    cname (lfname f) = cname (ld_name ld);
  nm_distinct : ∀ i j e e', 0 ≤ i < lfd_nfiles (lf_dir (Lf_data d)) → 0 ≤ j < lfd_nfiles (lf_dir (Lf_data d)) →
    entry d i = Some e → entry d j = Some e' → cname (ld_name e) = cname (ld_name e') → i = j }.

Lemma entry_names d d' j e' :
  ld_name <$> lfd_files (lf_dir (Lf_data d')) = ld_name <$> lfd_files (lf_dir (Lf_data d)) →
  entry d' j = Some e' → ∃ e, entry d j = Some e ∧ ld_name e = ld_name e'.
Proof.
  unfold entry. intros Hn He. apply (f_equal (.!! Z.to_nat j)) in Hn. rewrite !list_lookup_fmap, He in Hn.
  cbn in Hn. destruct (lfd_files (lf_dir (Lf_data d)) !! Z.to_nat j) as [e|]; [|done].
  exists e. split; [done|]. cbn in Hn. congruence.
Qed.

Lemma names_frame d d' OP m f f' :
  dev_frame m d d' → lfltab d !! m = Some f → lfltab d' !! m = Some f' → lfname f' = lfname f →
  length (lfdblock f') = 512%nat → names_ok d OP → names_ok d' OP.
Proof.
  intros Hfr Hf Hf' Hnm Hlen [N1 N2 N3 N4].
  assert (∀ x g', lfltab d' !! x = Some g' → ∃ g, lfltab d !! x = Some g ∧ lfname g' = lfname g) as Ht.
  { intros x g' Hg. destruct (decide (x = m)) as [->|Hne].
    - exists f. split; [done|congruence].
    - exists g'. by rewrite <-(df_tab _ _ _ Hfr). }
  pose proof (λ j e', entry_names d d' j e' (df_names _ _ _ Hfr)) as He. split.
  - intros x. rewrite <-N1. destruct (decide (x = m)) as [->|Hne]; [|by rewrite (df_tab _ _ _ Hfr)].
    rewrite Hf, Hf'. split; by eexists.
  - intros x g' Hg'. destruct (Ht _ _ Hg') as (g & Hg & En). rewrite En.
    destruct (N2 x g Hg) as [Hl Hb]. split; [done|]. destruct (decide (x = m)) as [->|Hne]; [congruence|].
    rewrite (df_tab _ _ _ Hfr) in Hg' by done. by apply (N2 x).
  - intros j x g' e' Hj (g & Hg & ->)%Ht (e & Hee & <-)%He. by eapply N3.
  - rewrite (df_nfiles _ _ _ Hfr). intros i j e e' Hi Hj (e1 & H1 & <-)%He (e2 & H2 & <-)%He. by apply N4.
Qed.
