(* ===== verification/LfsPos.v ===== *)
(** lfsetup: from the position to its blocks. *)

From S2P Require Import Prelude Types ByteMem Words DevTypes Heap Kernel KInv Device LfsDisk Lfs LfsRun LfsRep LfsSetup.

(** ** Masks *)

Lemma mask_high p : Z.ldiff p LF_IMASK = LF_IDATA * (p / LF_IDATA).
Proof.
  unfold LF_IMASK, LF_IDATA. change 8191 with (Z.ones 13). rewrite Z.ldiff_ones_r by lia.
  rewrite Z.shiftl_mul_pow2, Z.shiftr_div_pow2 by lia. change (2 ^ 13) with 8192. lia.
Qed.

Lemma mask_index p : Z.shiftr (Z.land p LF_IMASK) 9 = p / 512 mod 16.
Proof.
  unfold LF_IMASK. change 8191 with (Z.ones 13). rewrite Z.land_ones, Z.shiftr_div_pow2 by lia.
  change (2 ^ 13) with 8192. change (2 ^ 9) with 512. Z.to_euclidean_division_equations. lia.
Qed.

Lemma mask_low p : Z.land p LF_DMASK = p mod 512.
Proof. unfold LF_DMASK. change 511 with (Z.ones 9). by rewrite Z.land_ones by lia. Qed.

Section pos.
Context (ns : Z).

(** The control block holds the [k]-th index block, and nothing that is not on the
    disk as far as the data are concerned. *)
Record at_index (fl : lfile) (f : lflcblk) (k : nat) : Prop := At_index {
  ai_inum : fl_ibs fl !! k = Some (lfinum f);
  ai_clean : lfdbdirty f = false;
  ai_byte : lfbyte f = LF_BLKSIZ }.

(** The file has the index block [k], or the next one was taken from the free list. *)
Definition has_index (fl : lfile) (FI : list Z) (k : nat) (fl' : lfile) (FI' : list Z) : Prop :=
  ((k < length (fl_ibs fl))%nat ∧ fl' = fl ∧ FI' = FI) ∨
  (k = length (fl_ibs fl) ∧ ∃ n, FI = n :: FI' ∧ fl' = LFile (fl_ibs fl ++ [n]) (fl_dbs fl) (fl_data fl)).

Lemma setup_first_spec d F OP FI FD j m fl f :
  open_at ns d F OP FI FD j m fl f → lfibdirty f = false → lfdbdirty f = false → lfbyte f = LF_BLKSIZ →
  (fl_ibs fl = [] → FI ≠ []) →
  ∃ d' FI' fl' f', runs (setup_first m) d tt d' ∧ moved_to ns d F OP j m fl f d' FI' FD fl' f' ∧
    at_index fl' f' 0 ∧ has_index fl FI 0 fl' FI' ∧ (fl_ibs fl ≠ [] → lfibdirty f' = false).
Proof.
  intros HO Hi Hd Hb Hfree. pose proof HO as [Hr Hf Hop Hc].
  destruct (oa_at _ _ _ _ _ _ _ _ _ _ HO) as (ld & Hld & Hw & Hat).
  pose proof (oa_ok _ _ _ _ _ _ _ _ _ _ HO) as Hok. pose proof (oa_range _ _ _ _ _ _ _ _ _ _ HO) as Hj.
  pose proof (fa_ilist _ _ _ _ Hat) as Hil. unfold entry in Hld.
  destruct (fl_ibs fl) as [|n0 ibs] eqn:Eibs.
  - destruct FI as [|n FI]; [by destruct Hfree|]. clear Hfree.
    pose proof (first_step ns d F OP FI FD j m fl f n ld HO Eibs Hd Hb Hld) as Hm. cbv zeta in Hm.
    eexists _, FI, _, _. split; [|split; [exact Hm|split; [by split|split; [|done]]]].
    + unfold setup_first. eapply runs_bind; [by apply runs_getlfl|]. eapply runs_bind; [apply runs_getptr, Hok|].
      eapply runs_bind; [apply runs_getlf|]. eapply runs_bind; [apply runs_getent; [lia|done]|]. cbv zeta.
      rewrite Hil. cbn [default head from_option id]. rewrite bool_decide_eq_true_2 by done.
      eapply runs_bind.
      { eapply runs_bind; [by eapply lfiballoc_step|]. eapply runs_bind; [by apply runs_setlfl|].
        eapply runs_bind; [apply runs_setent; [lia|done]|].
        eapply runs_bind; [apply (runs_setlfl _ _ (set_lfiblock (lfibclear 0) f)); cbn; apply lookup_insert_eq|].
        apply runs_ret. }
      eapply runs_eq; [apply (runs_setlfl _ _ (set_lfibdirty true (set_lfiblock (lfibclear 0) f))); cbn; apply lookup_insert_eq|].
      cbn. unfold set_lfltab, set_Lf_data, set_Ram. cbn. by rewrite !insert_insert_eq.
    + right. split; [by rewrite Eibs|]. exists n. by rewrite Eibs.
  - assert (fl_ibs fl !! 0%nat = Some n0) as Hn0 by (by rewrite Eibs).
    pose proof (load_step ns d F OP FI FD j m fl f 0 n0 (lfdnum f) HO Hi Hd Hb Hn0 (or_introl eq_refl)) as Hm.
    pose proof (oa_iarea _ _ _ _ _ _ _ _ _ _ HO n0 ltac:(rewrite Eibs; by left)) as Ha.
    eexists _, FI, fl, _. split; [|split; [exact Hm|split; [by split|split; [|done]]]].
    + unfold setup_first. eapply runs_bind; [by apply runs_getlfl|]. eapply runs_bind; [apply runs_getptr, Hok|].
      eapply runs_bind; [apply runs_getlf|]. eapply runs_bind; [apply runs_getent; [lia|done]|]. cbv zeta.
      rewrite Hil. cbn [default head from_option id]. rewrite bool_decide_eq_false_2 by (unfold LF_INULL; lia).
      rewrite (fr_dev _ _ _ _ _ _ Hr). eapply runs_bind.
      { eapply runs_bind; [apply lfibget_runs; by eapply disk_iblk|]. eapply runs_bind; [by apply runs_setlfl|]. apply runs_ret. }
      eapply runs_eq; [apply (runs_setlfl _ _ (set_lfiblock (iblock_of fl 0) f)); cbn; apply lookup_insert_eq|].
      cbn. unfold set_lfltab. cbn. rewrite insert_insert_eq. by destruct f.
    + left. split_and!; [rewrite Eibs; cbn; lia|done..].
Qed.

(** One turn of the loop: the next index block. *)
Lemma setup_next_spec d F OP FI FD j m fl f k :
  open_at ns d F OP FI FD j m fl f → at_index fl f k → lfibdirty f = false →
  (S k = length (fl_ibs fl) → FI ≠ []) →
  ∃ d' FI' fl' f', runs (setup_next m) d tt d' ∧ moved_to ns d F OP j m fl f d' FI' FD fl' f' ∧
    at_index fl' f' (S k) ∧ has_index fl FI (S k) fl' FI' ∧
    ((S k < length (fl_ibs fl))%nat → lfibdirty f' = false).
Proof.
  intros HO [Hk Hd Hb] Hi Hfree. pose proof HO as [Hr Hf Hop Hc].
  pose proof (cb_iblock _ _ _ _ _ _ _ _ _ _ _ HO Hk) as Hib.
  pose proof (lookup_lt_Some _ _ _ Hk) as Hlt. unfold setup_next.
  assert (lf_dskdev (Lf_data d) = RAM0) as Hdev by apply Hr.
  destruct (fl_ibs fl !! S k) as [n|] eqn:Hn.
  - pose proof (load_step ns d F OP FI FD j m fl f (S k) n LF_DNULL HO Hi Hd Hb Hn (or_intror eq_refl)) as Hm.
    pose proof (oa_iarea _ _ _ _ _ _ _ _ _ _ HO n ltac:(by eapply list_elem_of_lookup_2)) as Ha.
    pose proof (lookup_lt_Some _ _ _ Hn) as Hlt2.
    eexists _, FI, fl, _. split; [|split; [exact Hm|split; [by split|split; [by left|done]]]].
    eapply runs_bind; [by apply runs_getlfl|]. eapply runs_bind; [apply runs_getlf|]. cbv zeta.
    rewrite Hib, Hdev. cbn [ib_next iblock_of]. rewrite Hn. cbn [default from_option id].
    rewrite bool_decide_eq_false_2 by (unfold LF_INULL; lia).
    eapply runs_bind.
    { eapply runs_bind; [apply lfibget_runs; by eapply disk_iblk|]. eapply runs_bind; [by apply runs_setlfl|].
      apply (runs_setlfl _ _ (set_lfiblock (iblock_of fl (S k)) f)). cbn. apply lookup_insert_eq. }
    eapply runs_eq; [apply (runs_setlfl _ _ (set_lfinum n (set_lfiblock (iblock_of fl (S k)) f))); cbn; apply lookup_insert_eq|].
    cbn. unfold set_lfltab. cbn. by rewrite !insert_insert_eq.
  - apply lookup_ge_None in Hn. assert (S k = length (fl_ibs fl)) as Hlast by lia.
    destruct FI as [|n FI]; [by destruct Hfree|]. clear Hfree.
    destruct (extend_step ns d F OP FI FD j m fl f n k HO Hi Hd Hb Hk Hlast) as [Hsec Hm].
    pose proof (oa_ibs_len _ _ _ _ _ _ _ _ _ _ HO) as Hlen.
    eexists _, FI, _, _. split; [|split; [exact Hm|split; [split|split; [|lia]]]]; try done.
    + eapply runs_bind; [by apply runs_getlfl|]. eapply runs_bind; [apply runs_getlf|]. cbv zeta.
      rewrite Hdev. rewrite (bool_decide_eq_true_2 (ib_next (lfiblock f) = LF_INULL)).
      2: { rewrite Hib. cbn. by rewrite lookup_ge_None_2 by lia. }
      eapply runs_bind.
      { eapply runs_bind; [by eapply lfiballoc_step|]. eapply runs_bind; [by apply runs_setlfl|].
        eapply runs_bind; [apply lfibput_runs; exact Hsec|].
        eapply runs_bind; [apply (runs_setlfl _ _ (set_lfiblock (set_ib_next n (lfiblock f)) f)); cbn; apply lookup_insert_eq|].
        eapply runs_bind; [apply (runs_setlfl _ _ (set_lfinum n (set_lfiblock (set_ib_next n (lfiblock f)) f))); cbn; apply lookup_insert_eq|].
        eapply runs_setlfl; cbn; apply lookup_insert_eq. }
      eapply runs_eq; [eapply runs_setlfl; cbn; apply lookup_insert_eq|].
      cbn. rewrite Hib. cbn [ib_offset iblock_of set_ib_next]. unfold LF_IDATA in *. rewrite u32_id by lia.
      replace (8192 * Z.of_nat k + 8192) with (8192 * Z.of_nat (S k)) by lia.
      unfold set_lfltab, set_Lf_data, set_Ram. cbn. by rewrite !insert_insert_eq.
    + cbn. rewrite lookup_app_r by lia. by rewrite Hlast, Nat.sub_diag.
    + right. split; [done|]. by exists n.
Qed.

Lemma setup_loop_spec t : ∀ fuel d F OP FI FD j m fl f k,
  open_at ns d F OP FI FD j m fl f → at_index fl f k → (t ≤ fuel)%nat →
  lfpos f / LF_IDATA = Z.of_nat (k + t) → (0 < t → lfibdirty f = false)%nat →
  (k + t ≤ length (fl_ibs fl))%nat → ((k + t)%nat = length (fl_ibs fl) → FI ≠ []) →
  ∃ d' FI' fl' f', runs (setup_loop fuel m) d tt d' ∧ moved_to ns d F OP j m fl f d' FI' FD fl' f' ∧
    at_index fl' f' (k + t) ∧ has_index fl FI (k + t) fl' FI'.
Proof.
  induction t as [|t IH]; intros fuel d F OP FI FD j m fl f k HO Hk Hfuel Hpos Hi Hle Hfree.
  - rewrite Nat.add_0_r in *. exists d, FI, fl, f. split; [|split; [by apply moved_refl|split; [done|]]].
    + assert (bool_decide (ib_offset (lfiblock f) < Z.ldiff (lfpos f) LF_IMASK) = false) as E.
      { apply bool_decide_eq_false_2. rewrite mask_high, Hpos, (cb_iblock _ _ _ _ _ _ _ _ _ _ _ HO (ai_inum _ _ _ Hk)).
        cbn. lia. }
      destruct fuel; cbn [setup_loop]; (eapply runs_bind; [apply runs_getlfl, HO|]); rewrite E; apply runs_ret.
    + left. split_and!; try done. by eapply lookup_lt_Some, Hk.
  - destruct fuel as [|fuel]; [lia|].
    destruct (setup_next_spec d F OP FI FD j m fl f k HO Hk (Hi ltac:(lia))) as
      (d1 & FI1 & fl1 & f1 & Hrun1 & Hm1 & Hk1 & Hh1 & Hi1).
    { intros E. apply Hfree. pose proof (lookup_lt_Some _ _ _ (ai_inum _ _ _ Hk)). lia. }
    assert (Z.of_nat (k + S t) = Z.of_nat (S k + t)) as Ekt by lia.
    destruct (IH fuel d1 (<[j := fl1]> F) OP FI1 FD j m fl1 f1 (S k)) as (d2 & FI2 & fl2 & f2 & Hrun2 & Hm2 & Hk2 & Hh2).
    + apply Hm1.
    + done.
    + lia.
    + rewrite (sb_pos _ _ (mt_cb _ _ _ _ _ _ _ _ _ _ _ _ _ Hm1)), Hpos. lia.
    + intros Ht. apply Hi1. lia.
    + destruct Hh1 as [(? & -> & ->)|(E & n & -> & ->)]; [lia|]. cbn. rewrite length_app. cbn. lia.
    + destruct Hh1 as [(? & -> & ->)|(E & n & -> & ->)]; [intros E; apply Hfree; lia|].
      cbn. rewrite length_app. cbn. lia.
    + exists d2, FI2, fl2, f2. replace (k + S t)%nat with (S k + t)%nat by lia.
      split; [|split; [by eapply moved_trans|split; [done|]]].
      * cbn [setup_loop]. eapply runs_bind; [apply runs_getlfl, HO|].
        rewrite bool_decide_eq_true_2; [by eapply runs_bind|].
        rewrite mask_high, Hpos, (cb_iblock _ _ _ _ _ _ _ _ _ _ _ HO (ai_inum _ _ _ Hk)). cbn. unfold LF_IDATA. lia.
      * destruct Hh1 as [(Hl1 & -> & ->)|(E & n & -> & ->)]; [done|].
        destruct Hh2 as [(Hl2 & -> & ->)|(E2 & _)]; [|cbn in E2; rewrite length_app in E2; cbn in E2; lia].
        assert (t = 0%nat) as -> by lia. right. split; [lia|]. by exists n.
Qed.

Definition has_block (fl : lfile) (FD : list Z) (i : nat) (fl' : lfile) (FD' : list Z) : Prop :=
  ((i < length (fl_dbs fl))%nat ∧ fl' = fl ∧ FD' = FD) ∨
  (i = length (fl_dbs fl) ∧ ∃ n, FD = n :: FD' ∧ fl' = LFile (fl_ibs fl) (fl_dbs fl ++ [n]) (fl_data fl)).

(** The control block holds the [i]-th data block, with its pointer at [r]. *)
Record at_block (fl : lfile) (f : lflcblk) (i : nat) (r : Z) : Prop := At_block {
  ab_dnum : fl_dbs fl !! i = Some (lfdnum f);
  ab_byte : lfbyte f = r }.

Lemma setup_data_spec d F OP FI FD j m fl f i r :
  open_at ns d F OP FI FD j m fl f → at_index fl f (i / 16) → lfpos f = 512 * Z.of_nat i + r → 0 ≤ r < 512 →
  (i < length (fl_dbs fl) ∨ i = length (fl_dbs fl) ∧ length (fl_data fl) = 512 * length (fl_dbs fl) ∧ FD ≠ [])%nat →
  ∃ d' FD' fl' f', runs (setup_data m) d tt d' ∧ moved_to ns d F OP j m fl f d' FI FD' fl' f' ∧
    at_block fl' f' i r ∧ has_block fl FD i fl' FD'.
Proof.
  intros HO [Hk Hd Hb] Hpos Hrr Hcase. pose proof HO as [Hr Hf Hop Hc].
  assert (lf_dskdev (Lf_data d) = RAM0) as Hdev by apply Hr.
  pose proof (Nat.div_mod_eq i 16) as Hdm. pose proof (Nat.mod_upper_bound i 16) as Hm16.
  assert (Z.to_nat (Z.shiftr (Z.land (lfpos f) LF_IMASK) 9) = (i mod 16)%nat) as Eidx.
  { rewrite mask_index. assert (lfpos f / 512 = Z.of_nat i) as ->.
    { rewrite Hpos. Z.to_euclidean_division_equations. lia. }
    change (Z.of_nat i mod 16) with (Z.of_nat i mod Z.of_nat 16). rewrite <-Nat2Z.inj_mod. apply Nat2Z.id. }
  assert (Z.land (lfpos f) LF_DMASK = r) as Elow.
  { rewrite mask_low, Hpos. Z.to_euclidean_division_equations. lia. }
  assert (ib_dba (lfiblock f) !! (i mod 16)%nat = Some (default LF_DNULL (fl_dbs fl !! i))) as Edba.
  { rewrite (cb_iblock _ _ _ _ _ _ _ _ _ _ _ HO Hk). cbn [ib_dba iblock_of].
    rewrite dba_of_lookup by lia. by rewrite <-Hdm. }
  unfold setup_data.
  destruct (fl_dbs fl !! i) as [n|] eqn:Hn.
  - assert (i < length (fl_dbs fl))%nat as Hlt by (by eapply lookup_lt_Some).
    pose proof (oa_darea _ _ _ _ _ _ _ _ _ _ HO n ltac:(by eapply list_elem_of_lookup_2)) as Ha.
    pose proof (oa_ns _ _ _ _ _ _ _ _ _ _ HO) as Hns.
    assert (∃ b, runs (if bool_decide (n = LF_DNULL) then
        r0 ← lfdballoc (lfdblock f);
        let '(dnum, dbuff) := r0 in
        setlfl m (set_lfdblock dbuff);;
        setlfl m (λ f, set_lfiblock (set_ib_dba (<[(i mod 16)%nat := dnum]> (ib_dba (lfiblock f))) (lfiblock f)) f);;
        setlfl m (set_lfibdirty true);; ret dnum
      else if bool_decide (n ≠ lfdnum f) then
        r0 ← read_block RAM0 (lfdblock f) n;
        setlfl m (set_lfdblock r0.2);;
        setlfl m (set_lfdbdirty false);; ret n
      else ret n) d n
        (set_lfltab (<[m := set_lfdbdirty false (set_lfdblock b f)]> (lfltab d)) d) ∧
      ((lfdnum f = n ∧ lfdblock f = b) ∨ (lfdnum f ≠ n ∧ Ram d !! n = Some b))) as (b & Hrun & Hbb).
    { rewrite (bool_decide_eq_false_2 (n = LF_DNULL)) by (unfold LF_DNULL; lia). case_bool_decide as Hne.
      - destruct (oa_block _ _ _ _ _ _ _ _ _ _ HO n ltac:(lia)) as [b Hbk]. exists b. split; [|by right].
        eapply runs_bind; [by apply read_block_runs|]. eapply runs_bind; [by apply runs_setlfl|].
        eapply runs_bind; [apply (runs_setlfl _ _ (set_lfdblock b f)); cbn; apply lookup_insert_eq|].
        eapply runs_eq; [apply runs_ret|]. cbn. unfold set_lfltab. cbn. by rewrite insert_insert_eq.
      - exists (lfdblock f). assert (lfdnum f = n) by (destruct (decide (lfdnum f = n)); [done|]; destruct Hne; congruence).
        split; [|by left]. eapply runs_eq; [apply runs_ret|].
        rewrite insert_id; [by destruct d|]. rewrite Hc. f_equal. destruct f. cbn in *. by subst. }
    pose proof (data_step ns d F OP FI FD j m fl f i n b r HO Hd Hn Hbb Hpos Hrr) as Hm.
    eexists _, FD, fl, _. split; [|split; [exact Hm|split; [by split|by left]]].
    eapply runs_bind; [by apply runs_getlfl|]. eapply runs_bind; [apply runs_getlf|]. cbv zeta.
    rewrite Eidx, Edba, Hdev, Elow. cbn [default from_option id].
    eapply runs_bind; [exact Hrun|].
    eapply runs_bind; [apply (runs_setlfl _ _ (set_lfdbdirty false (set_lfdblock b f))); cbn; apply lookup_insert_eq|].
    eapply runs_eq; [eapply runs_setlfl; cbn; apply lookup_insert_eq|].
    cbn. unfold set_lfltab. cbn. by rewrite !insert_insert_eq.
  - apply lookup_ge_None in Hn. destruct Hcase as [Hlt|(-> & Hfull & Hfd)]; [lia|].
    destruct FD as [|n FD]; [done|]. clear Hfd.
    pose proof (fill_step ns d F OP FI FD j m fl f n r HO Hd Hk Hfull Hpos Hrr) as Hm. cbv zeta in Hm.
    eexists _, FD, _, _. split; [|split; [exact Hm|split; [split|]]].
    + eapply runs_bind; [by apply runs_getlfl|]. eapply runs_bind; [apply runs_getlf|]. cbv zeta.
      rewrite Eidx, Edba, Elow. cbn [default from_option id]. rewrite bool_decide_eq_true_2 by done.
      eapply runs_bind.
      { eapply runs_bind; [by eapply lfdballoc_step|]. cbn beta iota.
        eapply runs_bind; [by apply runs_setlfl|].
        eapply runs_bind; [apply (runs_setlfl _ _ (set_lfdblock (replicate 512 DFILL) f)); cbn; apply lookup_insert_eq|].
        eapply runs_bind; [eapply runs_setlfl; cbn; apply lookup_insert_eq|]. apply runs_ret. }
      eapply runs_bind; [eapply runs_setlfl; cbn; apply lookup_insert_eq|].
      eapply runs_eq; [eapply runs_setlfl; cbn; apply lookup_insert_eq|].
      cbn. unfold set_lfltab, set_Lf_data, set_Ram. cbn. by rewrite !insert_insert_eq.
    + cbn. by rewrite lookup_app_r, Nat.sub_diag by lia.
    + done.
    + right. split; [done|]. by exists n.
Qed.

(** ** lfsetup *)

(** The first part, after the flush: some index block of the file. *)
Definition setup_start (m : Z) (f : lflcblk) : M unit :=
  if bool_decide (lfinum f = LF_INULL) then setup_first m
  else if bool_decide (lfpos f < ib_offset (lfiblock f)) then
    j ← getptr f;
    lf ← getlf;
    ld ← getent j;
    B ← lfibget (lf_dskdev lf) (ld_ilist ld);
    setlfl m (set_lfiblock B);;
    setlfl m (set_lfinum (ld_ilist ld))
  else ret tt.

Lemma setup_start_spec d F OP FI FD j m fl f :
  open_at ns d F OP FI FD j m fl f → lfibdirty f = false → lfdbdirty f = false → lfbyte f = LF_BLKSIZ →
  (fl_ibs fl = [] → FI ≠ []) →
  ∃ d' FI' fl' f' k, runs (setup_start m f) d tt d' ∧ moved_to ns d F OP j m fl f d' FI' FD fl' f' ∧
    at_index fl' f' k ∧ LF_IDATA * Z.of_nat k ≤ lfpos f ∧ (fl_ibs fl ≠ [] → lfibdirty f' = false) ∧
    ((fl_ibs fl ≠ [] ∧ fl' = fl ∧ FI' = FI) ∨ (fl_ibs fl = [] ∧ k = 0%nat ∧ has_index fl FI 0 fl' FI')).
Proof.
  intros HO Hi Hd Hb Hfree. pose proof HO as [Hr Hf Hop Hc].
  pose proof (oa_ok _ _ _ _ _ _ _ _ _ _ HO) as Hok. unfold setup_start. case_bool_decide as Hnull.
  { destruct (setup_first_spec d F OP FI FD j m fl f HO Hi Hd Hb Hfree) as (d1 & FI1 & fl1 & f1 & Hrun & Hm & Hk & Hh & Hi1).
    exists d1, FI1, fl1, f1, 0%nat. split_and!; try done.
    - pose proof (cb_pos _ _ _ _ Hok). lia.
    - destruct (fl_ibs fl) as [|n0 ibs] eqn:E; [by right|]. left. split; [done|].
      destruct Hh as [(? & ? & ?)|(E0 & _)]; [done|]. by rewrite E in E0. }
  destruct (cb_inum _ _ _ _ Hok) as [?|Hin]; [done|].
  assert (fl_ibs fl ≠ []) as Hne by (intros E; rewrite E in Hin; by apply elem_of_nil in Hin).
  case_bool_decide as Hoff.
  - destruct (oa_at _ _ _ _ _ _ _ _ _ _ HO) as (ld & Hld & Hw & Hat).
    pose proof (oa_range _ _ _ _ _ _ _ _ _ _ HO) as Hj. unfold entry in Hld.
    destruct (fl_ibs fl) as [|n0 ibs] eqn:Eibs; [done|].
    assert (fl_ibs fl !! 0%nat = Some n0) as Hn0 by (by rewrite Eibs).
    pose proof (fa_ilist _ _ _ _ Hat) as Hil. rewrite Eibs in Hil. cbn in Hil.
    pose proof (load_step ns d F OP FI FD j m fl f 0 n0 (lfdnum f) HO Hi Hd Hb Hn0 (or_introl eq_refl)) as Hm.
    eexists _, FI, fl, _, 0%nat. split; [|split; [exact Hm|]].
    + eapply runs_bind; [apply runs_getptr, Hok|]. eapply runs_bind; [apply runs_getlf|].
      eapply runs_bind; [apply runs_getent; [lia|done]|]. rewrite Hil, (fr_dev _ _ _ _ _ _ Hr).
      eapply runs_bind; [apply lfibget_runs; by eapply disk_iblk|]. eapply runs_bind; [by apply runs_setlfl|].
      eapply runs_eq; [apply (runs_setlfl _ _ (set_lfiblock (iblock_of fl 0) f)); cbn; apply lookup_insert_eq|].
      cbn. unfold set_lfltab. cbn. rewrite insert_insert_eq. by destruct f.
    + split_and!; [by split| |done|by left]. pose proof (cb_pos _ _ _ _ Hok). lia.
  - apply list_elem_of_lookup in Hin as [k Hk]. exists d, FI, fl, f, k.
    split; [apply runs_ret|]. split; [by apply moved_refl|]. split_and!; try done; [|by left].
    rewrite (cb_iblock _ _ _ _ _ _ _ _ _ _ _ HO Hk) in Hoff. cbn in Hoff. lia.
Qed.

(** The blocks of a position exist, or there is room for those that are missing. *)
Definition room_at (fl : lfile) (FI FD : list Z) (i : nat) : Prop :=
  (i < length (fl_dbs fl) ∨ i = length (fl_dbs fl) ∧ length (fl_data fl) = 512 * length (fl_dbs fl) ∧
    FD ≠ [] ∧ ((i / 16)%nat = length (fl_ibs fl) → FI ≠ []))%nat.

(** What was allocated for it. *)
Definition extended (fl : lfile) (FI FD : list Z) (i : nat) (fl' : lfile) (FI' FD' : list Z) : Prop :=
  ((i < length (fl_dbs fl))%nat ∧ fl' = fl ∧ FI' = FI ∧ FD' = FD) ∨
  (i = length (fl_dbs fl) ∧ ∃ n l, FD = n :: FD' ∧ FI = l ++ FI' ∧
    length (fl_ibs fl ++ l) = Nat.max (length (fl_ibs fl)) (S (i / 16)) ∧
    fl' = LFile (fl_ibs fl ++ l) (fl_dbs fl ++ [n]) (fl_data fl)).

(** The same for the index block alone. *)
Definition index_room (fl : lfile) (FI : list Z) (i : nat) : Prop :=
  (i / 16 ≤ length (fl_ibs fl))%nat ∧ ((i / 16)%nat = length (fl_ibs fl) → FI ≠ [] ∧ i = length (fl_dbs fl)).

Lemma room_index d F OP FI FD j m fl f i :
  open_at ns d F OP FI FD j m fl f → room_at fl FI FD i → index_room fl FI i.
Proof.
  intros HO Hroom. destruct (oa_at _ _ _ _ _ _ _ _ _ _ HO) as (ld & _ & _ & Hat).
  pose proof (fa_index _ _ _ _ Hat) as Hidx. pose proof (Nat.div_mod_eq i 16). pose proof (Nat.mod_upper_bound i 16).
  destruct Hroom as [Hlt|(-> & _ & _ & Hfi)]; split; try lia. intros E. by split; [apply Hfi|].
Qed.

(** The index block [i / 16] of the file, allocated at most. *)
Definition index_ext (fl : lfile) (FI : list Z) (i : nat) (fl' : lfile) (FI' : list Z) : Prop :=
  ∃ l, FI = l ++ FI' ∧ fl' = LFile (fl_ibs fl ++ l) (fl_dbs fl) (fl_data fl) ∧
    length (fl_ibs fl ++ l) = Nat.max (length (fl_ibs fl)) (S (i / 16)).

Lemma lfile_eta fl : LFile (fl_ibs fl ++ []) (fl_dbs fl) (fl_data fl) = fl.
Proof. destruct fl. cbn. by rewrite app_nil_r. Qed.

Lemma index_ext_has fl FI i fl' FI' : has_index fl FI (i / 16) fl' FI' → index_ext fl FI i fl' FI'.
Proof.
  intros [(Hlt & -> & ->)|(E & n & -> & ->)].
  - exists []. rewrite lfile_eta. split_and!; [done..|]. rewrite app_nil_r. lia.
  - exists [n]. split_and!; [done..|]. rewrite length_app. cbn [length]. lia.
Qed.

Lemma extended_intro fl FI FD i fl2 FI2 fl3 FD3 :
  index_ext fl FI i fl2 FI2 → has_block fl2 FD i fl3 FD3 → (i < length (fl_dbs fl) → (i / 16 < length (fl_ibs fl)))%nat →
  extended fl FI FD i fl3 FI2 FD3.
Proof.
  intros (l & -> & -> & Hl) Hb Hi. destruct Hb as [(Hlt & -> & ->)|(E & n & -> & ->)]; cbn in *.
  - left. specialize (Hi Hlt). rewrite length_app in Hl. assert (length l = 0%nat) as ->%length_zero_iff_nil by lia.
    by rewrite lfile_eta.
  - right. split; [done|]. by exists n, l.
Qed.

(** From any index block of the file to the one of the position. *)
Lemma setup_index_spec d F OP FI FD j m fl f i :
  open_at ns d F OP FI FD j m fl f → lfibdirty f = false → lfdbdirty f = false → lfbyte f = LF_BLKSIZ →
  lfpos f / LF_IDATA = Z.of_nat (i / 16) → index_room fl FI i →
  ∃ d' FI' fl' f', runs (setup_start m f;; setup_loop (Z.to_nat (lfpos f / LF_IDATA)) m) d tt d' ∧
    moved_to ns d F OP j m fl f d' FI' FD fl' f' ∧ at_index fl' f' (i / 16) ∧ index_ext fl FI i fl' FI'.
Proof.
  intros HO Hi Hd Hb Hk [Hle Heq].
  assert (fl_ibs fl = [] → i = 0%nat) as H0.
  { intros E. destruct (no_iblk _ _ _ _ _ _ _ _ _ _ HO E) as [E1 _]. rewrite E, E1 in *.
    destruct Heq as [_ ->]; [|done]. cbn [length] in *. lia. }
  destruct (setup_start_spec _ _ _ _ _ _ _ _ _ HO Hi Hd Hb) as
    (d2 & FI2 & fl2 & f2 & k0 & Hrun2 & Hm2 & Hk2 & Hle2 & Hi2 & Hcase2).
  { intros E. apply Heq. by rewrite E, (H0 E). }
  assert (k0 ≤ i / 16)%nat as Hk0.
  { enough (Z.of_nat k0 ≤ Z.of_nat (i / 16)) by lia. rewrite <-Hk. apply Z.div_le_lower_bound; [done|]. lia. }
  destruct (setup_loop_spec (i / 16 - k0) (Z.to_nat (lfpos f / LF_IDATA)) d2 (<[j := fl2]> F) OP FI2 FD j m fl2 f2 k0) as
    (d3 & FI3 & fl3 & f3 & Hrun3 & Hm3 & Hk3 & Hh3).
  - apply Hm2.
  - done.
  - rewrite Hk. lia.
  - rewrite (sb_pos _ _ (mt_cb _ _ _ _ _ _ _ _ _ _ _ _ _ Hm2)), Hk. f_equal. lia.
  - intros Ht. apply Hi2. intros E. rewrite (H0 E) in Ht, Hk0. change (0 / 16)%nat with 0%nat in *. lia.
  - destruct Hcase2 as [(_ & -> & _)|(E & _)]; [lia|]. rewrite (H0 E) in *. change (0 / 16)%nat with 0%nat in *. lia.
  - destruct Hcase2 as [(_ & -> & ->)|(E & -> & Hh)]; [intros E; apply Heq; lia|].
    rewrite (H0 E). change (0 / 16)%nat with 0%nat. intros E2. destruct Hh as [(Hlt0 & _)|(_ & n & _ & ->)]; [rewrite E in Hlt0; cbn in Hlt0; lia|].
    cbn in E2. rewrite length_app in E2. cbn in E2. lia.
  - replace (k0 + (i / 16 - k0))%nat with (i / 16)%nat in * by lia.
    exists d3, FI3, fl3, f3. split; [by eapply runs_bind|]. split; [by eapply moved_trans|]. split; [done|].
    destruct Hcase2 as [(_ & -> & ->)|(E & -> & Hh)]; [by apply index_ext_has|].
    rewrite (H0 E) in *. change (0 / 16)%nat with 0%nat in *.
    destruct Hh as [(Hlt0 & _)|(_ & n & -> & ->)]; [rewrite E in Hlt0; cbn in Hlt0; lia|].
    destruct Hh3 as [(_ & -> & ->)|(E3 & _)]; [|cbn in E3; rewrite length_app in E3; cbn in E3; lia].
    exists [n]. split_and!; [done..|]. rewrite E. done.
Qed.

(** What has changed is written first. *)
Lemma setup_flush_spec d F OP FI FD j m fl f :
  open_at ns d F OP FI FD j m fl f →
  ∃ d1, runs (if lfibdirty f || lfdbdirty f then _ ← lfflush m; ret tt else ret tt) d tt d1 ∧
    moved_to ns d F OP j m fl f d1 FI FD fl (clean f).
Proof.
  intros HO. destruct (lfibdirty f || lfdbdirty f) eqn:Edirty.
  - destruct (flush_step _ _ _ _ _ _ _ _ _ _ HO) as [Hfl HO1]. exists (flushed m f d). split.
    + eapply runs_bind; [exact Hfl|]. apply runs_ret.
    + destruct (flush_dir_lf d) as (E1 & E2 & E3). split; [|by split| |done].
      * rewrite insert_id; [done|apply HO].
      * split; cbn; try done; try (by rewrite E2); try (unfold flush_dir; by destruct (lf_dirdirty (Lf_data d))).
        intros x Hx. by rewrite E3, lookup_insert_ne.
  - apply orb_false_iff in Edirty as [E1 E2]. exists d. split; [apply runs_ret|].
    rewrite clean_id by done. by apply moved_refl.
Qed.

(** The position's index block is the one of its data block. *)
Lemma pos_index p i : 0 ≤ p → i = Z.to_nat (p / 512) → p / LF_IDATA = Z.of_nat (i / 16).
Proof.
  intros Hp ->. rewrite Nat2Z.inj_div, Z2Nat.id by (apply Z.div_pos; lia). unfold LF_IDATA.
  by rewrite Z.div_div by lia.
Qed.

Lemma lfsetup_locked_spec d F OP FI FD j m fl f :
  open_at ns d F OP FI FD j m fl f → lfbyte f = LF_BLKSIZ →
  let i := Z.to_nat (lfpos f / 512) in
  room_at fl FI FD i →
  ∃ d' FI' FD' fl' f', runs (lfsetup_locked m) d tt d' ∧ moved_to ns d F OP j m fl f d' FI' FD' fl' f' ∧
    at_block fl' f' i (lfpos f mod 512) ∧ extended fl FI FD i fl' FI' FD'.
Proof.
  intros HO Hb i Hroom. pose proof (oa_ok _ _ _ _ _ _ _ _ _ _ HO) as Hok.
  pose proof (cb_pos _ _ _ _ Hok) as Hp0. pose proof (Nat.div_mod_eq i 16) as Hdm.
  assert (lfpos f = 512 * Z.of_nat i + lfpos f mod 512) as Hpos.
  { unfold i. pose proof (Z.div_mod (lfpos f) 512). pose proof (Z.div_pos (lfpos f) 512). lia. }
  pose proof (Z.mod_pos_bound (lfpos f) 512 ltac:(lia)) as Hr.
  pose proof (pos_index (lfpos f) i ltac:(lia) eq_refl) as Hk.
  destruct (setup_flush_spec _ _ _ _ _ _ _ _ _ HO) as (d1 & Hrun1 & Hm1).
  pose proof (mt_open _ _ _ _ _ _ _ _ _ _ _ _ _ Hm1) as HO1.
  assert (setup_start m (clean f) = setup_start m f) as Estart by (by destruct f).
  destruct (setup_index_spec _ _ _ _ _ _ _ _ _ i HO1 eq_refl eq_refl Hb Hk (room_index _ _ _ _ _ _ _ _ _ _ HO Hroom)) as
    (d2 & FI2 & fl2 & f2 & Hrun2 & Hm2 & Hk2 & Hx2).
  change (lfpos (clean f)) with (lfpos f) in Hrun2. rewrite Estart in Hrun2.
  pose proof (moved_trans _ _ _ _ _ _ _ _ _ _ _ _ _ _ _ _ _ _ Hm1 Hm2) as Hm12.
  assert (fl_dbs fl2 = fl_dbs fl ∧ fl_data fl2 = fl_data fl) as [Edb Eda] by (by destruct Hx2 as (l & _ & -> & _)).
  destruct (setup_data_spec d2 (<[j := fl2]> F) OP FI2 FD j m fl2 f2 i (lfpos f mod 512) (mt_open _ _ _ _ _ _ _ _ _ _ _ _ _ Hm12) Hk2)
    as (d3 & FD3 & fl3 & f3 & Hrun3 & Hm3 & Hk3 & Hx3).
  - rewrite (sb_pos _ _ (mt_cb _ _ _ _ _ _ _ _ _ _ _ _ _ Hm12)). exact Hpos.
  - done.
  - rewrite Edb, Eda. destruct Hroom as [?|(? & ? & ? & _)]; [by left|by right].
  - exists d3, FI2, FD3, fl3, f3. split; [|split; [by eapply moved_trans|split; [done|]]].
    + unfold lfsetup_locked. eapply runs_bind; [apply runs_getlfl, HO|].
      eapply runs_bind; [exact Hrun1|]. intros s Hs.
      pose proof (runs_bind _ (λ _ : unit, setup_data m) _ _ _ _ _ Hrun2 Hrun3 s Hs) as Hall. revert Hall. kred.
      rewrite obind_assoc. unfold setup_start. by kred.
    + eapply extended_intro; [exact Hx2|exact Hx3|]. intros Hlt.
      destruct (oa_at _ _ _ _ _ _ _ _ _ _ HO) as (ld & _ & _ & Hat). pose proof (fa_index _ _ _ _ Hat).
      pose proof (Nat.mod_upper_bound i 16). lia.
Qed.

End pos.
