(* ===== verification/LfsFile.v ===== *)
(** Reading and writing an open file: lflgetc, lflputc, lflseek, lflread and
    lflwrite act on the sequence of the file's bytes and a position in it. *)

From S2P Require Import Prelude Types ByteMem Words DevTypes Heap Kernel KInv Sched Semaphore Device.
From S2P Require Import LfsDisk Lfs Lfl LfsRun LfsRep LfsSetup LfsName LfsPos UserMem.

(** ** Mutual exclusion: semaphores that nobody holds *)

Definition mutex_free (s : kst) (sem : Z) : Prop :=
  ∃ e, semtab s !! sem = Some e ∧ sstate e = S_USED ∧ 0 < scount e ≤ INT_MAX.

(** The state while the caller holds it. *)
Definition lock (sem : Z) (s : kst) : kst :=
  set_semtab (alter (λ e, set_scount (scount e - 1) e) sem (semtab s)) s.

Lemma alter_insert' (m : gmap Z sentry) i e g : m !! i = Some e → alter g i m = <[i := g e]> m.
Proof. intros He. apply map_eq. intros k. rewrite lookup_alter, lookup_insert. case_decide; [subst; by rewrite He|done]. Qed.

Lemma wait_lock Q s sem :
  InvQ Q s → mutex_free s sem → wait sem s = Done OK (lock sem s) ∧ InvQ Q (lock sem s).
Proof.
  intros HQ (e & He & Hu & Hc). destruct (wait_passes Q s sem e HQ He Hu ltac:(lia)) as [E HQ'].
  unfold lock. rewrite (alter_insert' _ _ _ _ He). split; [|done]. rewrite E. by destruct s.
Qed.

Lemma signal_unlock Q s sem d :
  InvQ Q s → mutex_free s sem → signal sem (set_dev d (lock sem s)) = Done OK (set_dev d s).
Proof.
  intros HQ Hf. destruct (wait_lock Q s sem HQ Hf) as [_ HQ1]. destruct Hf as (e & He & Hu & Hc).
  assert (InvQ Q (set_dev d (lock sem s))) as HQ2 by (by apply InvQ_dev).
  destruct (signal_passes Q _ sem (set_scount (scount e - 1) e) HQ2) as [E _].
  - cbn. rewrite lookup_alter_eq, He. done.
  - done.
  - cbn. lia.
  - rewrite E. f_equal. unfold lock. rewrite (alter_insert' _ _ _ _ He). destruct s. cbn in *.
    rewrite insert_insert_eq. unfold set_intr, set_semtab, set_dev. cbn. f_equal.
    apply insert_id. rewrite He. f_equal. destruct e. unfold set_scount. cbn. f_equal. lia.
Qed.

Lemma mutex_free_lock s a b : a ≠ b → mutex_free s b → mutex_free (lock a s) b.
Proof. intros Hne (e & He & H). exists e. split; [|done]. cbn. by rewrite lookup_alter_ne. Qed.

Lemma mutex_free_dev s d a : mutex_free (set_dev d s) a ↔ mutex_free s a.
Proof. done. Qed.

(** A critical section that changes only the drivers' variables. *)
Lemma critical {A} Q s sem (body : M A) a d' :
  InvQ Q s → mutex_free s sem → body (lock sem s) = Done a (set_dev d' (lock sem s)) →
  (_ ← wait sem; r ← body; _ ← signal sem; ret r) s = Done a (set_dev d' s).
Proof.
  intros HQ Hf Hb. destruct (wait_lock Q s sem HQ Hf) as [E _]. kred. rewrite E. kred. rewrite Hb. kred.
  by rewrite (signal_unlock Q s sem d' HQ Hf).
Qed.

Section file.
Context (ns : Z).

(** A file has no more blocks than its bytes need. *)
Definition tight (fl : lfile) : Prop :=
  (512 * length (fl_dbs fl) < length (fl_data fl) + 512 ∧ 16 * length (fl_ibs fl) < length (fl_dbs fl) + 16)%nat.

(** The file system between two calls: in order, and nobody is inside. *)
Record lfs_ok (Q : gmap Z (list Z)) (s : kst) (F : gmap Z lfile) (OP : gmap Z Z) (FI FD : list Z) : Prop := Lfs_ok {
  lo_inv : InvQ Q s;
  lo_rep : fs_rep ns (dev s) F OP FI FD;
  lo_tight : ∀ j fl, F !! j = Some fl → tight fl;
  lo_present : lf_dirpresent (Lf_data (dev s)) = true;
  lo_names : names_ok (dev s) OP;
  lo_dirmutex : mutex_free s (lf_mutex (Lf_data (dev s)));
  lo_mutexes : ∀ m f, lfltab (dev s) !! m = Some f →
    mutex_free s (lfmutex f) ∧ lfmutex f ≠ lf_mutex (Lf_data (dev s)) }.

(** A call that changed only the control block of slave [m], and the files. *)
Lemma lfs_ok_update Q s F OP FI FD d' F' FI' FD' m f f' :
  lfs_ok Q s F OP FI FD → fs_rep ns d' F' OP FI' FD' → (∀ j fl, F' !! j = Some fl → tight fl) →
  dev_frame m (dev s) d' → lfltab (dev s) !! m = Some f → lfltab d' !! m = Some f' → lfmutex f' = lfmutex f →
  lfname f' = lfname f → length (lfdblock f') = 512%nat → lfs_ok Q (set_dev d' s) F' OP FI' FD'.
Proof.
  intros [L1 L2 L3 L6 L7 L4 L5] Hr Ht Hfr Hf Hf' Hm Hnm Hlen. pose proof (df_mutex _ _ _ Hfr) as Em. split; try done.
  - by apply InvQ_dev.
  - cbn. by rewrite (df_present _ _ _ Hfr).
  - by eapply names_frame.
  - cbn. by rewrite Em.
  - intros i g Hg. cbn in *. rewrite Em. destruct (decide (i = m)) as [->|Hne].
    + rewrite Hf' in Hg. injection Hg as <-. rewrite Hm. by apply (L5 m).
    + rewrite (df_tab _ _ _ Hfr) in Hg by done. by apply (L5 i).
Qed.

(** ** lfsetup as a call *)

Lemma lfsetup_call Q s d' m :
  InvQ Q s → mutex_free s (lf_mutex (Lf_data (dev s))) → runs (lfsetup_locked m) (dev s) tt d' →
  lfsetup m s = Done OK (set_dev d' s).
Proof.
  intros HQ Hf Hrun. unfold lfsetup. rewrite M_bind_eq. rewrite (runs_getlf (dev s) s eq_refl), set_dev_id.
  cbn [obind]. destruct (wait_lock Q s _ HQ Hf) as [E _]. kred. rewrite E. kred.
  rewrite (Hrun (lock _ s) eq_refl). kred. by rewrite (signal_unlock Q s _ d' HQ Hf).
Qed.

(** The pointer is inside the block of the position, afterwards. *)
Lemma need_setup_spec Q s F OP FI FD j m fl f :
  InvQ Q s → mutex_free s (lf_mutex (Lf_data (dev s))) → open_at ns (dev s) F OP FI FD j m fl f →
  let i := Z.to_nat (lfpos f / 512) in
  room_at fl FI FD i →
  ∃ d' FI' FD' fl' f', need_setup m s = Done tt (set_dev d' s) ∧
    moved_to ns (dev s) F OP j m fl f d' FI' FD' fl' f' ∧
    at_block fl' f' i (lfpos f mod 512) ∧ extended fl FI FD i fl' FI' FD'.
Proof.
  intros HQ Hf HO i Hroom. pose proof (oa_ok _ _ _ _ _ _ _ _ _ _ HO) as Hok. unfold need_setup.
  rewrite M_bind_eq, (runs_getlfl (dev s) m f (oa_cb _ _ _ _ _ _ _ _ _ _ HO) s eq_refl), set_dev_id. cbn [obind].
  pose proof (cb_byte _ _ _ _ Hok) as Hb. case_bool_decide as Hge.
  - destruct Hb as [Hb|(? & _ & _ & Hb)]; [|unfold LF_BLKSIZ in Hge; lia].
    destruct (lfsetup_locked_spec ns _ _ _ _ _ _ _ _ _ HO Hb Hroom) as (d' & FI' & FD' & fl' & f' & Hrun & H).
    exists d', FI', FD', fl', f'. split; [|done]. kred. by rewrite (lfsetup_call Q s d' m HQ Hf Hrun).
  - destruct Hb as [Hb|(i0 & Hi0 & Hpos & Hb)]; [unfold LF_BLKSIZ in *; lia|].
    assert (i0 = i ∧ lfbyte f = lfpos f mod 512) as [-> Hr].
    { unfold i. rewrite Hpos. split; Z.to_euclidean_division_equations; lia. }
    exists (dev s), FI, FD, fl, f. split; [by rewrite set_dev_id|]. split; [by apply moved_refl|].
    split; [by split|]. left. split_and!; try done. by eapply lookup_lt_Some.
Qed.

(** ** Moving the pointer, and writing at it *)

Definition forward (f : lflcblk) : lflcblk := set_lfpos (u32 (lfpos f + 1)) (set_lfbyte (lfbyte f + 1) f).

(** Reading: the position moves on. *)
Lemma forward_step d F OP FI FD j m fl f i r :
  open_at ns d F OP FI FD j m fl f → at_block fl f i r → lfpos f = 512 * Z.of_nat i + r → 0 ≤ r < 512 →
  lfpos f < Z.of_nat (length (fl_data fl)) →
  lfpos (forward f) = lfpos f + 1 ∧
  open_at ns (set_lfltab (<[m := forward f]> (lfltab d)) d) F OP FI FD j m fl (forward f).
Proof.
  intros HO [Hn Hr] Hpos Hrr Hlt. pose proof (oa_ok _ _ _ _ _ _ _ _ _ _ HO) as Hok.
  destruct (oa_at _ _ _ _ _ _ _ _ _ _ HO) as (ld & Hld & Hw & Hat).
  pose proof (fa_fits _ _ _ _ Hat) as Hfit. pose proof (oa_dbs_len _ _ _ _ _ _ _ _ _ _ HO) as Hlen.
  assert (u32 (lfpos f + 1) = lfpos f + 1) as Eu by (apply u32_id; lia).
  split; [done|]. eapply oa_set_cb; [exact HO|exact Hld|exact Hw|by destruct Hat; split|].
  destruct Hok as [K1 K2 K3 K4 K5 K6 K7 K8 K9 K10 K11]. split; cbn; rewrite ?Eu; try done; [lia|].
  rewrite Hr. destruct (decide (r = 511)) as [->|Hne]; [by left|]. right. exists i. split_and!; [done|lia..].
Qed.

(** The bytes with [c] at position [p], which is at most the end. *)
Definition write_at (p : nat) (c : Z) (data : list Z) : list Z := take p data ++ c :: drop (S p) data.

Lemma write_at_lookup p c data q :
  (p ≤ length data)%nat → write_at p c data !! q = if decide (q = p) then Some c else data !! q.
Proof.
  intros Hp. unfold write_at. case_decide as Hq.
  - subst. rewrite lookup_app_r; rewrite length_take_le by done; [|done]. by rewrite Nat.sub_diag.
  - destruct (decide (q < p)%nat).
    + rewrite lookup_app_l by (rewrite length_take; lia). by apply lookup_take_lt.
    + rewrite lookup_app_r; rewrite length_take_le by done; [|lia].
      destruct (q - p)%nat as [|x] eqn:E; [lia|]. change (drop (S p) data !! x = data !! q). rewrite lookup_drop. f_equal. lia.
Qed.

Lemma write_at_length p c data :
  (p ≤ length data)%nat → length (write_at p c data) = Nat.max (length data) (S p).
Proof. intros Hp. unfold write_at. rewrite length_app, length_take_le by done. cbn. rewrite length_drop. lia. Qed.

Definition written (ch : Z) (f : lflcblk) : lflcblk :=
  set_lfdbdirty true (forward (set_lfdblock (<[Z.to_nat (lfbyte f) := ch]> (lfdblock f)) f)).

(** The entry and the flag of the directory when a byte is added at the end. *)
Definition grown_dir (j : Z) (f : lflcblk) (ld : ldentry) (d : devstate) : devstate :=
  if bool_decide (ld_size ld ≤ lfpos f) then
    set_Lf_data (set_lf_dirdirty true (set_lf_dir (set_lfd_files
      (<[Z.to_nat j := set_ld_size (u32 (ld_size ld + 1)) ld]> (lfd_files (lf_dir (Lf_data d))))
      (lf_dir (Lf_data d))) (Lf_data d))) d
  else d.

Lemma written_block data i b r ch p :
  block_holds data i (Some b) → (r < 512)%nat → p = (512 * i + r)%nat → (p ≤ length data)%nat →
  block_holds (write_at p ch data) i (Some (<[r := ch]> b)).
Proof.
  intros (b' & [= <-] & Hl & Hb) Hr -> Hp. exists (<[r := ch]> b). split_and!; [done|by rewrite length_insert|].
  intros q c Hq. rewrite write_at_lookup by done. rewrite list_lookup_insert, Hl. intros H.
  case_decide as E; [|by rewrite decide_False by lia; apply Hb].
  injection H as <-. by rewrite decide_True by lia.
Qed.

Lemma other_block data i i' o ch p :
  block_holds data i' o → (p / 512)%nat = i → i' ≠ i → (p ≤ length data)%nat →
  block_holds (write_at p ch data) i' o.
Proof.
  intros (b & Ho & Hl & Hb) Hp Hne Hle. exists b. split_and!; [done..|]. intros q c Hq.
  rewrite write_at_lookup by done. rewrite decide_False; [by apply Hb|]. intros E. apply Hne.
  rewrite <-Hp, <-E. rewrite (Nat.mul_comm 512), Nat.div_add_l, Nat.div_small by done. lia.
Qed.

Lemma put_step d F OP FI FD j m fl f i r ch ld :
  open_at ns d F OP FI FD j m fl f → at_block fl f i r → lfpos f = 512 * Z.of_nat i + r → 0 ≤ r < 512 →
  byte ch → entry d j = Some ld →
  let d1 := grown_dir j f ld d in
  let fl' := LFile (fl_ibs fl) (fl_dbs fl) (write_at (Z.to_nat (lfpos f)) ch (fl_data fl)) in
  lfpos (written ch f) = lfpos f + 1 ∧ dev_frame m d (set_lfltab (<[m := written ch f]> (lfltab d1)) d1) ∧
  open_at ns (set_lfltab (<[m := written ch f]> (lfltab d1)) d1) (<[j := fl']> F) OP FI FD j m fl' (written ch f).
Proof.
  intros HO [Hn Hr] Hpos Hrr Hch Hld d1 fl'. pose proof (oa_ok _ _ _ _ _ _ _ _ _ _ HO) as Hok.
  destruct (oa_at _ _ _ _ _ _ _ _ _ _ HO) as (ld0 & Hld0 & [W1 W2 W3] & Hat). rewrite Hld in Hld0. injection Hld0 as <-.
  pose proof (oa_range _ _ _ _ _ _ _ _ _ _ HO) as Hj.
  pose proof HO as [Hrep Hf Hop Hc]. pose proof (cb_pos _ _ _ _ Hok) as Hp.
  pose proof (fa_fits _ _ _ _ Hat) as Hfit. pose proof (oa_dbs_len _ _ _ _ _ _ _ _ _ _ HO) as Hlen.
  pose proof (lookup_lt_Some _ _ _ Hn) as Hi.
  assert (u32 (lfpos f + 1) = lfpos f + 1) as Eu by (apply u32_id; lia).
  set (p := Z.to_nat (lfpos f)) in *. assert (p ≤ length (fl_data fl))%nat as Hple by lia.
  assert (p = (512 * i + Z.to_nat r)%nat) as Ep by lia.
  assert ((p / 512)%nat = i) as Ei.
  { rewrite Ep, (Nat.mul_comm 512), Nat.div_add_l, Nat.div_small by lia. lia. }
  pose proof (write_at_length p ch (fl_data fl) Hple) as Hl'.
  set (ld' := set_ld_size (Z.of_nat (Nat.max (length (fl_data fl)) (S p))) ld).
  assert (lf_dir (Lf_data d1) = upd_dir j ld' FI FD (lf_dir (Lf_data d)) ∧ Ram d1 = Ram d ∧ lfltab d1 = lfltab d ∧
    lf_dskdev (Lf_data d1) = lf_dskdev (Lf_data d)) as (Edir & Eram & Etab & Edev).
  { unfold d1, grown_dir, ld'. pose proof (fa_size _ _ _ _ Hat) as Hsz. case_bool_decide as Hge; cbn.
    - split_and!; try done. rewrite upd_dir_ifree by apply Hrep. rewrite <-(fr_ifree _ _ _ _ _ _ Hrep).
      rewrite Hsz, u32_id by lia. replace (Z.of_nat (length (fl_data fl)) + 1) with (Z.of_nat (Nat.max (length (fl_data fl)) (S p))) by lia.
      by destruct (lf_dir (Lf_data d)).
    - split_and!; try done. symmetry. apply upd_dir_id; [|apply Hrep..].
      unfold entry in Hld. rewrite Hld. f_equal. destruct ld. unfold set_ld_size. cbn in *. f_equal. lia. }
  assert (block_holds (fl_data fl) i (Some (lfdblock f))) as Hblk.
  { pose proof (fa_dbs _ _ _ _ Hat i _ Hn) as H. unfold db_eff in H. by rewrite bool_decide_eq_true_2 in H. }
  split; [cbn; exact Eu|]. split.
  { split; cbn; try (unfold d1, grown_dir; by case_bool_decide).
    - intros x Hx. by rewrite Etab, lookup_insert_ne.
    - rewrite Edir. cbn. eapply names_insert; [exact Hld|done]. }
  split; [|by rewrite lookup_insert_eq|done|cbn; by rewrite lookup_insert_eq].
  eapply (fs_grow ns d _ F OP FI FI FD FD [] [] j m fl fl' f (written ch f) ld'); try done; rewrite ?app_nil_r; try done.
  - cbn. rewrite Edev. apply Hrep.
  - cbn. by rewrite Etab.
  - cbn. rewrite Eram. apply disk_upd_refl, Hrep.
  - unfold ld', uint32. cbn. lia.
  - destruct Hat as [A1 A2 A3 A4 A5 A6 A7]. split; cbn [fl' fl_ibs fl_dbs fl_data]; try done.
    + cbn. by rewrite Hl'.
    + intros k n Hk. cbn. rewrite Eram. by apply A3.
    + intros i' n Hn'. cbn. rewrite Eram. specialize (A4 i' n Hn'). unfold db_eff in A4. case_bool_decide as E.
      * subst n. assert (i' = i) as -> by (by apply (NoDup_lookup _ _ _ _ (oa_dbs_NoDup _ _ _ _ _ _ _ _ _ _ HO) Hn' Hn)).
        rewrite Hr. apply written_block; [done|lia|lia|done].
      * eapply other_block; [done|exact Ei| |done]. intros ->. congruence.
    + rewrite Hl'. lia.
    + unfold write_at. apply Forall_app. split; [by apply Forall_take|]. apply Forall_cons. split; [done|by apply Forall_drop].
  - destruct Hok as [K1 K2 K3 K4 K5 K6 K7 K8 K9 K10 K11].
    split; cbn [fl' fl_ibs fl_dbs fl_data]; try (cbn; rewrite ?Eram; done).
    + intros _. cbn. by eapply list_elem_of_lookup_2.
    + cbn. by rewrite length_insert.
    + cbn. rewrite Eu, Hl'. lia.
    + cbn. rewrite Eu, Hr. destruct (decide (r = 511)) as [->|Hne]; [by left|]. right. exists i. split_and!; [done|lia..].
Qed.

(** ** The calls *)

(** Slave [m] has the file [j] open, at position [pos]. *)
Definition at_pos (s : kst) (F : gmap Z lfile) (OP : gmap Z Z) (j m : Z) (fl : lfile) (f : lflcblk) : Prop :=
  F !! j = Some fl ∧ OP !! j = Some m ∧ lfltab (dev s) !! m = Some f.

Lemma lfs_open_at Q s F OP FI FD j m fl f :
  lfs_ok Q s F OP FI FD → at_pos s F OP j m fl f → open_at ns (dev s) F OP FI FD j m fl f.
Proof. intros [] (? & ? & ?). by split. Qed.

(** Entering the call: the file's mutex is taken, and the file is open. *)
Lemma enter_call {A} Q s F OP FI FD j m fl f (g : lflcblk → M A) :
  lfs_ok Q s F OP FI FD → at_pos s F OP j m fl f →
  (f ← getlfl m; _ ← wait (lfmutex f); f ← getlfl m; g f) s = g f (lock (lfmutex f) s).
Proof.
  intros HL HA. pose proof HA as (_ & _ & Hf). destruct (lo_mutexes _ _ _ _ _ _ HL _ _ Hf) as [Hm _].
  rewrite M_bind_eq, (runs_getlfl _ _ _ Hf s eq_refl), set_dev_id. cbn [obind].
  destruct (wait_lock Q s _ (lo_inv _ _ _ _ _ _ HL) Hm) as [E _]. kred. rewrite E. kred.
  by rewrite (runs_getlfl _ m f Hf (lock (lfmutex f) s) eq_refl).
Qed.

(** What the call sees while it holds the mutex. *)
Lemma inside_call Q s F OP FI FD j m fl f :
  lfs_ok Q s F OP FI FD → at_pos s F OP j m fl f →
  let s1 := lock (lfmutex f) s in
  InvQ Q s1 ∧ mutex_free s1 (lf_mutex (Lf_data (dev s1))) ∧
  (∀ d', signal (lfmutex f) (set_dev d' s1) = Done OK (set_dev d' s)).
Proof.
  intros HL HA s1. pose proof HA as (_ & _ & Hf). destruct (lo_mutexes _ _ _ _ _ _ HL _ _ Hf) as [Hm Hne].
  destruct (wait_lock Q s _ (lo_inv _ _ _ _ _ _ HL) Hm) as [_ HQ1]. split_and!; [done|..].
  - apply mutex_free_lock; [done|]. apply HL.
  - intros d'. by apply (signal_unlock Q), Hm; apply HL.
Qed.

Definition pos_of (f : lflcblk) : nat := Z.to_nat (lfpos f).

Lemma lflgetc_spec Q s F OP FI FD j m fl f :
  lfs_ok Q s F OP FI FD → at_pos s F OP j m fl f →
  ∃ d' f', lflgetc m s = Done (default EOF (fl_data fl !! pos_of f)) (set_dev d' s) ∧
    lfs_ok Q (set_dev d' s) F OP FI FD ∧ at_pos (set_dev d' s) F OP j m fl f' ∧ dev_frame m (dev s) d' ∧
    pos_of f' = Nat.min (length (fl_data fl)) (S (pos_of f)).
Proof.
  intros HL HA. pose proof (lfs_open_at _ _ _ _ _ _ _ _ _ _ HL HA) as HO. pose proof HA as (Hfl & Hop & Hf).
  pose proof (oa_ok _ _ _ _ _ _ _ _ _ _ HO) as Hok. pose proof (oa_range _ _ _ _ _ _ _ _ _ _ HO) as Hj.
  destruct (oa_at _ _ _ _ _ _ _ _ _ _ HO) as (ld & Hld & _ & Hat).
  pose proof (cb_pos _ _ _ _ Hok) as Hp. pose proof (fa_size _ _ _ _ Hat) as Hsz. unfold pos_of in *.
  destruct (inside_call _ _ _ _ _ _ _ _ _ _ HL HA) as (HQ1 & Hm1 & Hsig).
  unfold lflgetc. erewrite enter_call by done. set (s1 := lock (lfmutex f) s) in *.
  rewrite bool_decide_eq_false_2 by (rewrite (cb_used _ _ _ _ Hok); by intros []).
  kred. rewrite (getptr_done f j s1 (cb_ptr _ _ _ _ Hok)). kred.
  rewrite (getent_done j ld s1 ltac:(lia) Hld). kred.
  case_bool_decide as Hend; kred.
  { exists (dev s), f. rewrite (lookup_ge_None_2 (fl_data fl)) by lia. cbn [default from_option].
    rewrite <-(set_dev_id s1) at 1. change (dev s1) with (dev s). rewrite Hsig. kred. rewrite set_dev_id.
    split_and!; [done..|lia]. }
  assert (Z.of_nat (Z.to_nat (lfpos f / 512)) = lfpos f / 512) as Ei by (rewrite Z2Nat.id; [done|apply Z.div_pos; lia]).
  assert (lfpos f = 512 * Z.of_nat (Z.to_nat (lfpos f / 512)) + lfpos f mod 512) as Hpos.
  { rewrite Ei. apply Z.div_mod. lia. }
  pose proof (fa_fits _ _ _ _ Hat) as Hfit.
  destruct (need_setup_spec Q s1 F OP FI FD j m fl f HQ1 Hm1 HO) as (d2 & FI2 & FD2 & fl2 & f2 & Hrun & Hm2 & Hb2 & Hx).
  { left. pose proof (Z.mod_pos_bound (lfpos f) 512 ltac:(lia)). lia. }
  destruct Hx as [(Hi & -> & -> & ->)|(E & _)]; [|pose proof (Z.mod_pos_bound (lfpos f) 512 ltac:(lia)); lia].
  rewrite Hrun. kred. pose proof Hm2 as [HO2 Hcb2 Hfr2 _]. rewrite insert_id in HO2 by done.
  pose proof (oa_cb _ _ _ _ _ _ _ _ _ _ HO2) as Hc2. rewrite (getlfl_done m f2 (set_dev d2 s1) Hc2). kred.
  set (i := Z.to_nat (lfpos f / 512)) in *. pose proof (Z.mod_pos_bound (lfpos f) 512 ltac:(lia)) as Hr.
  set (r := lfpos f mod 512) in *.
  destruct (oa_at _ _ _ _ _ _ _ _ _ _ HO2) as (ld2 & _ & _ & Hat2).
  pose proof (fa_dbs _ _ _ _ Hat2 i _ (ab_dnum _ _ _ _ Hb2)) as Hh. unfold db_eff in Hh.
  rewrite bool_decide_eq_true_2 in Hh by done. destruct Hh as (b & [= Eb] & Hl & Hbytes).
  destruct (lookup_lt_is_Some_2 (fl_data fl) (Z.to_nat (lfpos f))) as [c Hc]; [lia|].
  assert (b !! Z.to_nat r = Some c) as Hbc.
  { apply Hbytes; [lia|]. rewrite <-Hc. f_equal. lia. }
  assert ((byte_ptr f2 ≫= λ i, lfdblock f2 !! i) = Some c) as ->.
  { unfold byte_ptr. rewrite (ab_byte _ _ _ _ Hb2), Eb, bool_decide_eq_true_2 by lia. exact Hbc. }
  assert (Z.land 255 c = c) as Ec.
  { pose proof (Forall_lookup_1 _ _ _ _ (fa_bytes _ _ _ _ Hat2) Hc) as Hb. unfold byte in Hb.
    rewrite Z.land_comm. change 255 with (Z.ones 8). rewrite Z.land_ones by lia. apply Z.mod_small. done. }
  rewrite Hc, Ec. cbn [default from_option id].
  destruct (forward_step _ _ _ _ _ _ _ _ _ i r HO2 Hb2) as [Epos HO3];
    [by rewrite (sb_pos _ _ Hcb2)|done|rewrite (sb_pos _ _ Hcb2); lia|].
  exists (set_lfltab (<[m := forward f2]> (lfltab d2)) d2), (forward f2).
  assert (dev_frame m (dev s) (set_lfltab (<[m := forward f2]> (lfltab d2)) d2)) as Hfr3.
  { etrans; [exact Hfr2|]. split; try done. intros x Hx. cbn. by rewrite lookup_insert_ne. }
  split; [|split; [|split; [|split]]].
  - kred. rewrite (setlfl_done m f2 _ (set_dev d2 s1) Hc2). kred.
    rewrite (setlfl_done m (set_lfbyte (lfbyte f2 + 1) f2)) by (cbn; apply lookup_insert_eq). kred.
    rewrite (sb_mutex _ _ Hcb2). cbn [lfltab set_lfltab]. rewrite insert_insert_eq.
    match goal with |- context [signal (lfmutex f) ?st] =>
      replace st with (set_dev (set_lfltab (<[m := forward f2]> (lfltab d2)) d2) s1) by done end.
    rewrite Hsig. by kred.
  - eapply lfs_ok_update; [exact HL|apply HO3|apply HL|exact Hfr3|exact Hf|apply HO3|..].
    + apply (sb_mutex _ _ Hcb2).
    + apply (sb_name _ _ Hcb2).
    + apply (cb_len _ _ _ _ (oa_ok _ _ _ _ _ _ _ _ _ _ HO3)).
  - by split_and!; try apply HO3.
  - exact Hfr3.
  - rewrite Epos, (sb_pos _ _ Hcb2). lia.
Qed.

(** The bytes the file can have with the blocks that are free. *)
Definition capacity (fl : lfile) (FI FD : list Z) : nat :=
  512 * Nat.min (length (fl_dbs fl) + length FD) (16 * (length (fl_ibs fl) + length FI)).

Lemma room_capacity d F OP FI FD j m fl f :
  open_at ns d F OP FI FD j m fl f →
  (Nat.max (length (fl_data fl)) (S (pos_of f)) ≤ capacity fl FI FD)%nat →
  room_at fl FI FD (Z.to_nat (lfpos f / 512)).
Proof.
  intros HO Hcap. unfold capacity, pos_of in Hcap. pose proof (oa_ok _ _ _ _ _ _ _ _ _ _ HO) as Hok.
  destruct (oa_at _ _ _ _ _ _ _ _ _ _ HO) as (ld & _ & _ & Hat).
  pose proof (cb_pos _ _ _ _ Hok) as Hp. pose proof (fa_fits _ _ _ _ Hat) as Hfit. pose proof (fa_index _ _ _ _ Hat) as Hidx.
  set (i := Z.to_nat (lfpos f / 512)).
  assert (lfpos f = 512 * Z.of_nat i + lfpos f mod 512) as Hpos.
  { unfold i. rewrite Z2Nat.id by (apply Z.div_pos; lia). apply Z.div_mod. lia. }
  pose proof (Z.mod_pos_bound (lfpos f) 512 ltac:(lia)) as Hr.
  destruct (decide (i < length (fl_dbs fl))%nat) as [Hlt|Hge]; [by left|]. right.
  assert (i = length (fl_dbs fl)) as E by lia. split_and!; [done|lia|..].
  - intros ->. cbn in Hcap. lia.
  - intros E2 ->. pose proof (Nat.div_mod_eq i 16). pose proof (Nat.mod_upper_bound i 16).
    change (length (@nil Z)) with 0%nat in Hcap. lia.
Qed.

(** The blocks of the file and the free ones: those that the file has taken were the
    first of the free lists. *)
Record same_blocks (fl : lfile) (FI FD : list Z) (fl' : lfile) (FI' FD' : list Z) : Prop := Same_blocks {
  sk_ibs : fl_ibs fl' ++ FI' = fl_ibs fl ++ FI;
  sk_dbs : fl_dbs fl' ++ FD' = fl_dbs fl ++ FD }.

Lemma same_blocks_capacity fl FI FD fl' FI' FD' :
  same_blocks fl FI FD fl' FI' FD' → capacity fl' FI' FD' = capacity fl FI FD.
Proof.
  intros [Hi Hd]. unfold capacity. apply (f_equal length) in Hi, Hd. rewrite !length_app in Hi, Hd. by rewrite Hi, Hd.
Qed.

Lemma extended_blocks fl FI FD i fl' FI' FD' :
  extended fl FI FD i fl' FI' FD' → same_blocks fl FI FD fl' FI' FD'.
Proof.
  intros [(_ & -> & -> & ->)|(_ & n & l & -> & -> & _ & ->)]; [done|]. by split; cbn; rewrite <-app_assoc.
Qed.

Lemma grow_runs d j f ld :
  0 ≤ j → entry d j = Some ld →
  runs (if bool_decide (ld_size ld ≤ lfpos f) then
      setent j (set_ld_size (u32 (ld_size ld + 1)));; setlf (set_lf_dirdirty true)
    else ret tt) d tt (grown_dir j f ld d).
Proof.
  intros Hj Hld. unfold grown_dir. case_bool_decide; [|apply runs_ret].
  eapply runs_bind; [by apply runs_setent|]. eapply runs_eq; [apply runs_setlf|done].
Qed.

(** Storing the byte, and what comes after it. *)
Lemma written_then {A} m f ch (k : M A) s :
  lfltab (dev s) !! m = Some f →
  (setlfl m (set_lfdblock (<[Z.to_nat (lfbyte f) := ch]> (lfdblock f)));;
    setlfl m (set_lfbyte (lfbyte f + 1));; setlfl m (set_lfpos (u32 (lfpos f + 1)));;
    setlfl m (set_lfdbdirty true);; k) s =
  k (set_dev (set_lfltab (<[m := written ch f]> (lfltab (dev s))) (dev s)) s).
Proof.
  intros Hf. kred. rewrite (setlfl_done m f _ s Hf). set (f1 := set_lfdblock _ f). kred.
  rewrite (setlfl_done m f1) by (cbn; apply lookup_insert_eq). kred.
  rewrite (setlfl_done m (set_lfbyte (lfbyte f + 1) f1)) by (cbn; apply lookup_insert_eq). kred.
  erewrite setlfl_done by (cbn; apply lookup_insert_eq). kred. f_equal.
  unfold set_lfltab, set_dev. cbn. by rewrite !insert_insert_eq.
Qed.

Lemma lflputc_spec Q s F OP FI FD j m fl f ch :
  lfs_ok Q s F OP FI FD → at_pos s F OP j m fl f →
  (Nat.max (length (fl_data fl)) (S (pos_of f)) ≤ capacity fl FI FD)%nat →
  ∃ d' f' fl' FI' FD', lflputc m ch s = Done OK (set_dev d' s) ∧
    lfs_ok Q (set_dev d' s) (<[j := fl']> F) OP FI' FD' ∧ at_pos (set_dev d' s) (<[j := fl']> F) OP j m fl' f' ∧
    dev_frame m (dev s) d' ∧ pos_of f' = S (pos_of f) ∧
    fl_data fl' = write_at (pos_of f) (u8 ch) (fl_data fl) ∧ same_blocks fl FI FD fl' FI' FD'.
Proof.
  intros HL HA Hcap. pose proof (lfs_open_at _ _ _ _ _ _ _ _ _ _ HL HA) as HO. pose proof HA as (Hfl & Hop & Hf).
  pose proof (oa_ok _ _ _ _ _ _ _ _ _ _ HO) as Hok. pose proof (oa_range _ _ _ _ _ _ _ _ _ _ HO) as Hj.
  destruct (oa_at _ _ _ _ _ _ _ _ _ _ HO) as (ld & Hld & _ & Hat).
  pose proof (cb_pos _ _ _ _ Hok) as Hp. pose proof (fa_size _ _ _ _ Hat) as Hsz.
  destruct (inside_call _ _ _ _ _ _ _ _ _ _ HL HA) as (HQ1 & Hm1 & Hsig).
  unfold lflputc. erewrite enter_call by done. set (s1 := lock (lfmutex f) s) in *.
  rewrite bool_decide_eq_false_2 by (rewrite (cb_used _ _ _ _ Hok); by intros []).
  kred. rewrite (getptr_done f j s1 (cb_ptr _ _ _ _ Hok)). kred.
  rewrite (getent_done j ld s1 ltac:(lia) Hld). kred. rewrite bool_decide_eq_false_2 by lia. kred.
  assert (lfpos f = 512 * Z.of_nat (Z.to_nat (lfpos f / 512)) + lfpos f mod 512) as Hpos.
  { rewrite Z2Nat.id by (apply Z.div_pos; lia). apply Z.div_mod. lia. }
  pose proof (Z.mod_pos_bound (lfpos f) 512 ltac:(lia)) as Hr.
  destruct (need_setup_spec Q s1 F OP FI FD j m fl f HQ1 Hm1 HO (room_capacity _ _ _ _ _ _ _ _ _ HO Hcap))
    as (d2 & FI2 & FD2 & fl2 & f2 & Hrun & Hm2 & Hb2 & Hx).
  set (i := Z.to_nat (lfpos f / 512)) in *. set (r := lfpos f mod 512) in *.
  rewrite Hrun. kred. pose proof Hm2 as [HO2 Hcb2 Hfr2 Hdata2].
  pose proof (oa_cb _ _ _ _ _ _ _ _ _ _ HO2) as Hc2. rewrite (getlfl_done m f2 (set_dev d2 s1) Hc2). kred.
  destruct (oa_at _ _ _ _ _ _ _ _ _ _ HO2) as (ld2 & Hld2 & _ & Hat2).
  rewrite (getent_done j ld2 (set_dev d2 s1) ltac:(lia) Hld2). kred.
  destruct (put_step _ _ _ _ _ _ _ _ _ i r (u8 ch) ld2 HO2 Hb2) as (Epos & Hfr3 & HO3);
    [by rewrite (sb_pos _ _ Hcb2)|done|apply u8_range|done|].
  rewrite insert_insert_eq in HO3. set (fl3 := LFile _ _ _) in HO3.
  set (d3 := set_lfltab _ _) in Hfr3, HO3.
  assert (dev_frame m (dev s) d3) as Hfr by (etrans; [exact Hfr2|exact Hfr3]).
  exists d3, (written (u8 ch) f2), fl3, FI2, FD2.
  split; [|split; [|split; [|split; [done|split; [|split]]]]].
  - rewrite (grow_runs d2 j f2 ld2 ltac:(lia) Hld2 (set_dev d2 s1) eq_refl). kred.
    assert (byte_ptr f2 = Some (Z.to_nat (lfbyte f2))) as ->.
    { unfold byte_ptr. pose proof (cb_len _ _ _ _ (oa_ok _ _ _ _ _ _ _ _ _ _ HO2)) as Hl.
      rewrite Hl, (ab_byte _ _ _ _ Hb2), bool_decide_eq_true_2 by lia. done. }
    assert (lfltab (grown_dir j f2 ld2 d2) !! m = Some f2) as Hc3.
    { unfold grown_dir. by case_bool_decide. }
    rewrite (written_then m f2) by exact Hc3. rewrite (sb_mutex _ _ Hcb2). kred.
    match goal with |- context [signal (lfmutex f) ?st] => replace st with (set_dev d3 s1) by done end.
    rewrite Hsig. by kred.
  - eapply lfs_ok_update; [exact HL|apply HO3| |exact Hfr|exact Hf|apply HO3|apply (sb_mutex _ _ Hcb2)|apply (sb_name _ _ Hcb2)|
      apply (cb_len _ _ _ _ (oa_ok _ _ _ _ _ _ _ _ _ _ HO3))].
    intros i' g. rewrite lookup_insert. case_decide as E; [|apply HL]. intros [= <-].
    pose proof (lo_tight _ _ _ _ _ _ HL _ _ Hfl) as [T1 T2]. unfold tight, fl3. cbn [fl_ibs fl_dbs fl_data].
    rewrite write_at_length, (sb_pos _ _ Hcb2), Hdata2 by (rewrite (sb_pos _ _ Hcb2), Hdata2; lia).
    destruct Hx as [(Hlt & -> & _)|(Ei & n & l & _ & _ & El & ->)]; [lia|]. cbn [fl_ibs fl_dbs] in *.
    rewrite length_app in El. rewrite !length_app. cbn [length].
    pose proof (Nat.div_mod_eq i 16). pose proof (Nat.mod_upper_bound i 16). lia.
  - split_and!; [apply lookup_insert_eq|done|apply HO3].
  - unfold pos_of. rewrite Epos, (sb_pos _ _ Hcb2). lia.
  - cbn [fl3 fl_data]. unfold pos_of. by rewrite (sb_pos _ _ Hcb2), Hdata2.
  - by destruct (extended_blocks _ _ _ _ _ _ _ Hx).
Qed.

Lemma lflseek_spec Q s F OP FI FD j m fl f off :
  lfs_ok Q s F OP FI FD → at_pos s F OP j m fl f → 0 ≤ off →
  ∃ d' f', lflseek m off s =
      Done (if bool_decide (off ≤ Z.of_nat (length (fl_data fl))) then OK else SYSERR) (set_dev d' s) ∧
    lfs_ok Q (set_dev d' s) F OP FI FD ∧ at_pos (set_dev d' s) F OP j m fl f' ∧ dev_frame m (dev s) d' ∧
    pos_of f' = if bool_decide (off ≤ Z.of_nat (length (fl_data fl))) then Z.to_nat off else pos_of f.
Proof.
  intros HL HA Hoff. pose proof (lfs_open_at _ _ _ _ _ _ _ _ _ _ HL HA) as HO. pose proof HA as (Hfl & Hop & Hf).
  pose proof (oa_ok _ _ _ _ _ _ _ _ _ _ HO) as Hok. pose proof (oa_range _ _ _ _ _ _ _ _ _ _ HO) as Hj.
  destruct (oa_at _ _ _ _ _ _ _ _ _ _ HO) as (ld & Hld & Hw & Hat).
  pose proof (fa_size _ _ _ _ Hat) as Hsz.
  destruct (inside_call _ _ _ _ _ _ _ _ _ _ HL HA) as (HQ1 & Hm1 & Hsig).
  unfold lflseek. erewrite enter_call by done. set (s1 := lock (lfmutex f) s) in *.
  rewrite bool_decide_eq_false_2 by (rewrite (cb_used _ _ _ _ Hok); by intros []).
  kred. rewrite (getptr_done f j s1 (cb_ptr _ _ _ _ Hok)). kred.
  rewrite (getent_done j ld s1 ltac:(lia) Hld). kred. rewrite Hsz.
  destruct (decide (off ≤ Z.of_nat (length (fl_data fl)))) as [Hle|Hgt].
  - rewrite (bool_decide_eq_false_2 (_ < _)), !(bool_decide_eq_true_2 (off ≤ _)) by lia. kred.
    set (f' := set_lfbyte LF_BLKSIZ (set_lfpos off f)).
    set (d' := set_lfltab (<[m := f']> (lfltab (dev s))) (dev s)).
    assert (dev_frame m (dev s) d') as Hfr.
    { split; try done. intros x Hx. cbn. by rewrite lookup_insert_ne. }
    assert (open_at ns d' F OP FI FD j m fl f') as HO'.
    { eapply oa_set_cb; [exact HO|exact Hld|exact Hw|by destruct Hat; split|].
      destruct Hok. split; cbn; try done; by left. }
    exists d', f'. split; [|split; [|split; [|split; [done|done]]]].
    + rewrite (setlfl_done m f _ s1 Hf). kred.
      rewrite (setlfl_done m (set_lfpos off f)) by (cbn; apply lookup_insert_eq). kred.
      cbn [lfltab set_lfltab]. rewrite insert_insert_eq.
      match goal with |- context [signal (lfmutex f) ?st] => replace st with (set_dev d' s1) by done end.
      rewrite Hsig. by kred.
    + eapply lfs_ok_update; [exact HL|apply HO'|apply HL|exact Hfr|exact Hf|apply HO'|done|done|apply Hok].
    + by split_and!; try apply HO'.
  - rewrite (bool_decide_eq_true_2 (_ < _)), !(bool_decide_eq_false_2 (off ≤ _)) by lia. kred.
    exists (dev s), f. rewrite <-(set_dev_id s1). change (dev s1) with (dev s). rewrite Hsig. kred. rewrite set_dev_id.
    by split_and!.
Qed.



(** ** lflread *)

Lemma lfs_ok_hp Q s F OP FI FD h :
  lfs_ok Q s F OP FI FD → InvQ Q (set_hp h s) → lfs_ok Q (set_hp h s) F OP FI FD.
Proof. by intros [] ?. Qed.

(** The bytes that [n] bytes from the position are. *)
Definition chunk (fl : lfile) (f : lflcblk) (n : nat) : list Z := take n (drop (pos_of f) (fl_data fl)).

(** The caller's memory at [a] holds [w], other memory is as it was. *)
Record copied (l : list (Z * Z)) (h h' : heap) (a : Z) (w : list Z) : Prop := Copied {
  cp_heap : heap_ok h' l;
  cp_bytes : bytes_in h' a w;
  cp_frame : ∀ i, ¬ a ≤ i < a + Z.of_nat (length w) → ldb i h' = ldb i h }.

Lemma copied_cons l h h1 h2 a c w :
  ldb a h1 = Some c → (∀ i, i ≠ a → ldb i h1 = ldb i h) → copied l h1 h2 (a + 1) w → copied l h h2 a (c :: w).
Proof.
  intros Ha Ho [Hok Hb Hf]. split; [done|..].
  - split; [|done]. by rewrite Hf by lia.
  - intros i Hi. cbn [length] in Hi. rewrite Hf by lia. apply Ho. lia.
Qed.

Lemma lflread_loop_spec n : ∀ Q s F OP FI FD j m fl f l a numread,
  lfs_ok Q s F OP FI FD → at_pos s F OP j m fl f → heap_ok (hp s) l →
  user_buf (hp s) l a (Z.of_nat (length (chunk fl f n))) → 0 ≤ a →
  a + Z.of_nat (length (chunk fl f n)) < 4294967296 → 0 ≤ numread →
  ∃ s' f', lflread_loop n m a numread s =
      Done (if bool_decide (numread + Z.of_nat (length (chunk fl f n)) = 0 ∧ n ≠ 0%nat)
            then EOF else numread + Z.of_nat (length (chunk fl f n))) s' ∧
    lfs_ok Q s' F OP FI FD ∧ at_pos s' F OP j m fl f' ∧ copied l (hp s) (hp s') a (chunk fl f n) ∧
    dev_frame m (dev s) (dev s') ∧ pos_of f' = (pos_of f + length (chunk fl f n))%nat.
Proof.
  induction n as [|n IH]; intros Q s F OP FI FD j m fl f l a numread HL HA Hok Hbuf Ha0 Ha Hn.
  { exists s, f. cbn [lflread_loop chunk take length]. rewrite Z.add_0_r, Nat.add_0_r, bool_decide_eq_false_2 by tauto.
    by split_and!. }
  destruct (lflgetc_spec Q s F OP FI FD j m fl f HL HA) as (d1 & f1 & E1 & HL1 & HA1 & Hfr1 & Hp1).
  unfold chunk in *. cbn [lflread_loop]. kred. rewrite E1. kred.
  destruct (fl_data fl !! pos_of f) as [c|] eqn:Hc; cbn [default from_option id].
  2: { apply lookup_ge_None in Hc. exists (set_dev d1 s), f1. rewrite drop_ge by done. cbn [take length].
    rewrite bool_decide_eq_false_2 by done. rewrite bool_decide_eq_true_2 by done. rewrite Z.add_0_r.
    split; [case_bool_decide; [rewrite bool_decide_eq_true_2 by done|rewrite bool_decide_eq_false_2 by tauto]; by kred|].
    split_and!; try done. pose proof HA as (Hfl & _). pose proof (lfs_open_at _ _ _ _ _ _ _ _ _ _ HL HA) as HO.
    pose proof (cb_pos _ _ _ _ (oa_ok _ _ _ _ _ _ _ _ _ _ HO)). unfold pos_of in *. lia. }
  pose proof (lookup_lt_Some _ _ _ Hc) as Hlt. rewrite (drop_S _ _ _ Hc) in *. cbn [take length] in *.
  assert (byte c) as Hb.
  { destruct (oa_at _ _ _ _ _ _ _ _ _ _ (lfs_open_at _ _ _ _ _ _ _ _ _ _ HL HA)) as (ld & _ & _ & Hat).
    exact (Forall_lookup_1 _ _ _ _ (fa_bytes _ _ _ _ Hat) Hc). }
  unfold byte in Hb. rewrite !bool_decide_eq_false_2 by (unfold SYSERR, EOF; lia).
  assert (Z.land 255 c = c) as ->.
  { rewrite Z.land_comm. change 255 with (Z.ones 8). rewrite Z.land_ones by lia. by apply Z.mod_small. }
  set (w := take n (drop (S (pos_of f)) (fl_data fl))) in *.
  destruct (put_user Q (set_dev d1 s) l a c (Z.of_nat (S (length w))) (lo_inv _ _ _ _ _ _ HL1) Hok Hbuf ltac:(lia) Hb)
    as (h2 & E2 & HQ2 & Hok2 & Hbuf2 & Ha2 & Ho2).
  kred. rewrite E2. kred. rewrite u32_id by lia.
  assert (pos_of f1 = S (pos_of f)) as Hp by lia.
  destruct (IH Q (set_hp h2 (set_dev d1 s)) F OP FI FD j m fl f1 l (a + 1) (numread + 1)) as
    (s3 & f3 & E3 & HL3 & HA3 & Hcp & Hfr3 & Hp3).
  - by apply lfs_ok_hp.
  - done.
  - done.
  - rewrite Hp. fold w. replace (Z.of_nat (length w)) with (Z.of_nat (S (length w)) - 1) by lia. by apply user_tail.
  - lia.
  - rewrite Hp. fold w. lia.
  - lia.
  - rewrite Hp in *. fold w in E3, Hcp, Hp3. exists s3, f3. rewrite E3.
    split; [f_equal; rewrite !bool_decide_eq_false_2 by lia; lia|]. split; [done|]. split; [done|].
    split; [by eapply copied_cons|]. split; [|lia]. etrans; [exact Hfr1|exact Hfr3].
Qed.

(** ** lflwrite *)

(** The bytes with [w] from position [p] on. *)
Definition write_list (p : nat) (w data : list Z) : list Z := take p data ++ w ++ drop (p + length w) data.

Lemma write_list_nil p data : write_list p [] data = data.
Proof. unfold write_list. cbn. rewrite Nat.add_0_r. apply take_drop. Qed.

Lemma write_list_cons p c w data :
  (p ≤ length data)%nat → write_list (S p) w (write_at p c data) = write_list p (c :: w) data.
Proof.
  intros Hp. unfold write_list. assert (length (take p data) = p) as Hl by (rewrite length_take; lia).
  assert (take (S p) (write_at p c data) = take p data ++ [c]) as ->.
  { unfold write_at. rewrite cons_middle, app_assoc. apply take_app_length'. rewrite length_app, Hl. cbn. lia. }
  rewrite <-app_assoc. cbn [app length]. do 3 f_equal.
  unfold write_at. rewrite cons_middle, app_assoc, drop_app_ge by (rewrite length_app, Hl; cbn; lia).
  rewrite length_app, Hl, drop_drop. f_equal. cbn. lia.
Qed.

Lemma lflwrite_loop_spec w : ∀ Q s F OP FI FD j m fl f a count,
  lfs_ok Q s F OP FI FD → at_pos s F OP j m fl f → bytes_in (hp s) a w → 0 ≤ a →
  a + Z.of_nat (length w) < 4294967296 →
  (Nat.max (length (fl_data fl)) (pos_of f + length w) ≤ capacity fl FI FD)%nat →
  ∃ d' f' fl' FI' FD', lflwrite_loop (length w) m a count s = Done count (set_dev d' s) ∧
    lfs_ok Q (set_dev d' s) (<[j := fl']> F) OP FI' FD' ∧ at_pos (set_dev d' s) (<[j := fl']> F) OP j m fl' f' ∧
    dev_frame m (dev s) d' ∧ pos_of f' = (pos_of f + length w)%nat ∧
    fl_data fl' = write_list (pos_of f) w (fl_data fl) ∧ same_blocks fl FI FD fl' FI' FD'.
Proof.
  induction w as [|c w IH]; intros Q s F OP FI FD j m fl f a count HL HA Hby Ha0 Ha Hcap.
  { exists (dev s), f, fl, FI, FD. cbn. rewrite set_dev_id, write_list_nil, Nat.add_0_r. pose proof HA as (Hfl & _).
    by rewrite insert_id. }
  cbn [length bytes_in lflwrite_loop] in *. destruct Hby as [Hc Hby].
  destruct (lflputc_spec Q s F OP FI FD j m fl f c HL HA ltac:(lia)) as
    (d1 & f1 & fl1 & FI1 & FD1 & E1 & HL1 & HA1 & Hfr1 & Hp1 & Hd1 & Hcap1).
  assert (byte c) as Hb.
  { unfold ldb in Hc. destruct (ld _ _); [|done]. cbn in Hc. injection Hc as <-. apply byte_of_range. }
  rewrite u8_id in Hd1 by done.
  assert (pos_of f ≤ length (fl_data fl))%nat as Hple.
  { pose proof (cb_pos _ _ _ _ (oa_ok _ _ _ _ _ _ _ _ _ _ (lfs_open_at _ _ _ _ _ _ _ _ _ _ HL HA))). unfold pos_of. lia. }
  kred. unfold hread. rewrite Hc. kred. rewrite E1. kred. rewrite bool_decide_eq_false_2 by done. rewrite u32_id by lia.
  destruct (IH Q (set_dev d1 s) _ OP FI1 FD1 j m fl1 f1 (a + 1) count HL1 HA1 Hby ltac:(lia) ltac:(lia)) as
    (d2 & f2 & fl2 & FI2 & FD2 & E2 & HL2 & HA2 & Hfr2 & Hp2 & Hd2 & Hcap2).
  { rewrite (same_blocks_capacity _ _ _ _ _ _ Hcap1), Hd1, Hp1, write_at_length by done. lia. }
  exists d2, f2, fl2, FI2, FD2. rewrite insert_insert_eq in HL2, HA2. rewrite E2.
  split_and!; try done; [by etrans|lia| |destruct Hcap1, Hcap2; split; congruence].
  rewrite Hd2, Hp1, Hd1. by apply write_list_cons.
Qed.

End file.
