(* ===== verification/LfsFull.v ===== *)
(** A disk without free data blocks: a byte that needs another block stops the
    kernel. *)

From S2P Require Import Prelude Types ByteMem Words DevTypes Heap Kernel KInv Sched Semaphore Device.
From S2P Require Import LfsDisk Lfs Lfl LfsRun LfsRep LfsSetup LfsName LfsPos LfsFile UserMem.

(** [f] stops the kernel. *)
Definition halts {A} (f : M A) (d : devstate) : Prop := ∀ s, dev s = d → ∃ s', f s = Halt s'.

Lemma halts_bind {A B} (f : M A) (g : A → M B) d d1 a : runs f d a d1 → halts (g a) d1 → halts (f ≫= g) d.
Proof.
  intros Hf Hg s Hs. rewrite M_bind_eq, (Hf s Hs). cbn [obind]. apply (Hg (set_dev d1 s)). by destruct s.
Qed.

Lemma halts_first {A B} (f : M A) (g : A → M B) d : halts f d → halts (f ≫= g) d.
Proof. intros Hf s Hs. destruct (Hf s Hs) as [s' E]. exists s'. rewrite M_bind_eq, E. done. Qed.

Lemma halts_panic {A} (P : Prop) `{!Decision P} (g : M A) d :
  P → halts ((if bool_decide P then panic else ret tt);; g) d.
Proof. intros HP. apply halts_first. rewrite bool_decide_eq_true_2 by done. intros s _. by eexists. Qed.

Section full.
Context (ns : Z).

Lemma setup_data_full d F OP FI j m fl f i :
  open_at ns d F OP FI [] j m fl f → at_index fl f (i / 16) → i = length (fl_dbs fl) →
  lfpos f = 512 * Z.of_nat i → halts (setup_data m) d.
Proof.
  intros HO Hk Hi Hpos. pose proof HO as [Hr _ _ Hf]. unfold setup_data.
  eapply halts_bind; [by apply runs_getlfl|]. eapply halts_bind; [apply runs_getlf|]. cbv zeta.
  rewrite (cb_iblock _ _ _ _ _ _ _ _ _ _ _ HO (ai_inum _ _ _ Hk)). cbn [iblock_of ib_dba].
  rewrite mask_index, Hpos. rewrite (Z.mul_comm 512), Z.div_mul by done.
  replace (Z.to_nat (Z.of_nat i mod 16)) with (i mod 16)%nat by (change 16 with (Z.of_nat 16); rewrite <-Nat2Z.inj_mod; lia).
  rewrite dba_of_lookup by (by apply Nat.mod_upper_bound).
  rewrite <-Nat.div_mod_eq, (lookup_ge_None_2 (fl_dbs fl)) by lia. cbn [default from_option].
  rewrite bool_decide_eq_true_2 by done. apply halts_first, halts_first. unfold lfdballoc.
  eapply halts_bind; [apply runs_getlf|]. cbv zeta. apply halts_panic. apply (fr_dfree _ _ _ _ _ _ Hr).
Qed.

Lemma lfsetup_full d F OP FI j m fl f :
  open_at ns d F OP FI [] j m fl f → lfbyte f = LF_BLKSIZ → lfpos f = 512 * Z.of_nat (length (fl_dbs fl)) →
  index_room fl FI (length (fl_dbs fl)) → halts (lfsetup_locked m) d.
Proof.
  intros HO Hb Hpos Hroom. set (i := length (fl_dbs fl)) in *.
  assert (lfpos f / LF_IDATA = Z.of_nat (i / 16)) as Hk.
  { apply pos_index; [lia|]. rewrite Hpos, (Z.mul_comm 512), Z.div_mul by done. lia. }
  destruct (setup_flush_spec ns _ _ _ _ _ _ _ _ _ HO) as (d1 & Hrun1 & Hm1).
  pose proof (mt_open _ _ _ _ _ _ _ _ _ _ _ _ _ Hm1) as HO1.
  destruct (setup_index_spec ns _ _ _ _ _ _ _ _ _ i HO1 eq_refl eq_refl Hb Hk Hroom) as
    (d2 & FI2 & fl2 & f2 & Hrun2 & Hm2 & Hk2 & (l & _ & -> & _)).
  assert (setup_start m (clean f) = setup_start m f) as Estart by (by destruct f).
  change (lfpos (clean f)) with (lfpos f) in Hrun2. rewrite Estart in Hrun2.
  assert (halts (setup_data m) d2) as Hh.
  { eapply setup_data_full; [apply Hm2|exact Hk2|done|]. rewrite (sb_pos _ _ (mt_cb _ _ _ _ _ _ _ _ _ _ _ _ _ Hm2)). exact Hpos. }
  unfold lfsetup_locked. eapply halts_bind; [apply runs_getlfl, HO|]. eapply halts_bind; [exact Hrun1|].
  intros s Hs. destruct (halts_bind _ (λ _ : unit, setup_data m) _ _ _ Hrun2 Hh s Hs) as [s' E].
  exists s'. rewrite <-E. kred. rewrite obind_assoc. unfold setup_start. by kred.
Qed.

Lemma lflputc_full Q s F OP FI j m fl f ch :
  lfs_ok ns Q s F OP FI [] → at_pos s F OP j m fl f → pos_of f = (512 * length (fl_dbs fl))%nat →
  index_room fl FI (length (fl_dbs fl)) → ∃ s', lflputc m ch s = Halt s'.
Proof.
  intros HL HA Hpos Hroom. pose proof (lfs_open_at _ _ _ _ _ _ _ _ _ _ _ HL HA) as HO. pose proof HA as (Hfl & Hop & Hf).
  pose proof (oa_ok _ _ _ _ _ _ _ _ _ _ HO) as Hok. pose proof (oa_range _ _ _ _ _ _ _ _ _ _ HO) as Hj.
  destruct (oa_at _ _ _ _ _ _ _ _ _ _ HO) as (ld & Hld & _ & Hat).
  pose proof (cb_pos _ _ _ _ Hok) as Hp. pose proof (fa_size _ _ _ _ Hat) as Hsz. unfold pos_of in Hpos.
  destruct (inside_call _ _ _ _ _ _ _ _ _ _ _ HL HA) as (HQ1 & Hm1 & Hsig).
  assert (lfbyte f = LF_BLKSIZ) as Hb.
  { destruct (cb_byte _ _ _ _ Hok) as [|(i & Hi & Hpi & Hr)]; [done|]. apply lookup_lt_Some in Hi. lia. }
  unfold lflputc. erewrite (enter_call _ _ _ _ _ _ _ _ _ _ _ _ HL HA). set (s1 := lock (lfmutex f) s) in *.
  rewrite bool_decide_eq_false_2 by (rewrite (cb_used _ _ _ _ Hok); by intros []).
  kred. rewrite (getptr_done f j s1 (cb_ptr _ _ _ _ Hok)). kred.
  rewrite (getent_done j ld s1 ltac:(lia) Hld). kred. rewrite bool_decide_eq_false_2 by lia. kred.
  unfold need_setup. kred. rewrite (getlfl_done m f s1 Hf). kred. rewrite bool_decide_eq_true_2 by (rewrite Hb; done).
  unfold lfsetup. kred. rewrite (runs_getlf (dev s1) s1 eq_refl), set_dev_id. kred.
  destruct (wait_lock Q s1 _ HQ1 Hm1) as [Ew _]. rewrite Ew. kred.
  destruct (lfsetup_full (dev s) F OP FI j m fl f HO Hb ltac:(lia) Hroom (lock (lf_mutex (Lf_data (dev s1))) s1) eq_refl) as [s' E].
  exists s'. rewrite E. done.
Qed.

End full.
