(* ===== verification/LfsOpen.v ===== *)
(** Opening and closing files: lfsopen finds or adds the directory's entry and takes
    a free slave; lflclose writes what has changed to the disk and frees it. *)

From S2P Require Import Prelude Types ByteMem Words DevTypes Heap Kernel KInv Sched Semaphore Device.
From S2P Require Import LfsDisk Lfs Lfl LfsRun LfsRep LfsSetup LfsName LfsPos LfsFile UserMem.

(** ** The searches *)

(** A slave in use has the name. *)
Definition opened (d : devstate) (w : list Z) : Prop :=
  ∃ m f, lfltab d !! m = Some f ∧ lfstate f = LF_USED ∧ cname (lfname f) = w.

(** [x] is the first free slave from [i] on. *)
Definition first_free (d : devstate) (i x : Z) : Prop :=
  i ≤ x < Nlfl ∧ (∃ f, lfltab d !! x = Some f ∧ lfstate f = LF_FREE) ∧
  ∀ y f, i ≤ y < x → lfltab d !! y = Some f → lfstate f = LF_USED.

Definition none_free (d : devstate) (i : Z) : Prop :=
  ∀ y f, i ≤ y < Nlfl → lfltab d !! y = Some f → lfstate f = LF_USED.

Lemma find_slave_spec OP s name w n : ∀ i lfnext,
  names_ok (dev s) OP → string_at (hp s) name w → (length w < 16)%nat → 0 ≤ i → i + Z.of_nat n = Nlfl →
  ∃ r, find_slave n name i lfnext s = Done r s ∧
    match r with
    | None => opened (dev s) w
    | Some x =>
      (∀ y f, i ≤ y < Nlfl → lfltab (dev s) !! y = Some f → lfstate f = LF_USED → cname (lfname f) ≠ w) ∧
      if bool_decide (lfnext = SYSERR) then first_free (dev s) i x ∨ (x = SYSERR ∧ none_free (dev s) i)
      else x = lfnext
    end.
Proof.
  induction n as [|n IH]; intros i lfnext HN Hw Hlen Hi Hn; cbn [find_slave].
  { exists (Some lfnext). split; [done|]. split; [intros; lia|]. case_bool_decide; [|done].
    right. split; [done|]. intros y f Hy. lia. }
  destruct (proj2 (nm_slaves _ _ HN i) ltac:(lia)) as [f Hf]. destruct (nm_len _ _ HN i f Hf) as [Hl _].
  assert (∀ y, i ≤ y < Nlfl → y = i ∨ i + 1 ≤ y < Nlfl) as Hsplit by lia.
  kred. rewrite (getlfl_done i f s Hf). kred. case_bool_decide as Hst; kred.
  - destruct (IH (i + 1) (if bool_decide (lfnext = SYSERR) then i else lfnext) HN Hw Hlen ltac:(lia) ltac:(lia)) as (r & E & Hr).
    exists r. split; [exact E|]. destruct r as [x|]; [|done]. destruct Hr as [Hno Hr]. split.
    { intros y g Hy Hg Hu. destruct (Hsplit y Hy) as [->|Hy']; [congruence|by eapply Hno]. }
    destruct (decide (lfnext = SYSERR)) as [->|Hnx].
    + change (bool_decide (SYSERR = SYSERR)) with true in *. cbv iota in Hr.
      rewrite bool_decide_eq_false_2 in Hr by (unfold SYSERR; lia). subst x. left. split; [lia|].
      split; [by exists f|]. intros; lia.
    + rewrite !(bool_decide_eq_false_2 (lfnext = SYSERR)) in * by done. done.
  - assert (lfstate f = LF_USED) as Hu by (destruct (lfstate f); done).
    kred. rewrite (name_is_spec 16 s name w 0) by (done || lia || by apply rest_start). kred.
    case_bool_decide as Hsame; [exists None; split; [by kred|by exists i, f]|].
    destruct (IH (i + 1) lfnext HN Hw Hlen ltac:(lia) ltac:(lia)) as (r & E & Hr).
    exists r. split; [exact E|]. destruct r as [x|]; [|done]. destruct Hr as [Hno Hr]. split.
    { intros y g Hy Hg Hgu. destruct (Hsplit y Hy) as [->|Hy']; [congruence|by eapply Hno]. }
    case_bool_decide; [|done]. destruct Hr as [(Hx & Hxf & Hxu)|[-> Hr]].
    + left. split; [lia|]. split; [done|]. intros y g Hy Hg.
      destruct (decide (y = i)) as [->|]; [congruence|]. eapply Hxu; [|done]. lia.
    + right. split; [done|]. intros y g Hy Hg. destruct (Hsplit y Hy) as [->|Hy']; [congruence|by eapply Hr].
Qed.

(** [j] is the entry with the name. *)
Definition named (d : devstate) (w : list Z) (j : Z) : Prop :=
  0 ≤ j < lfd_nfiles (lf_dir (Lf_data d)) ∧ ∃ ld, entry d j = Some ld ∧ cname (ld_name ld) = w.

Lemma find_file_spec s name w n : ∀ i,
  lfdir_wf (lf_dir (Lf_data (dev s))) → string_at (hp s) name w → (length w < 16)%nat → 0 ≤ i →
  i + Z.of_nat n = lfd_nfiles (lf_dir (Lf_data (dev s))) → lfd_nfiles (lf_dir (Lf_data (dev s))) ≤ 20 →
  ∃ r, find_file n name i s = Done r s ∧
    match r with
    | None => ∀ j, i ≤ j → ¬ named (dev s) w j
    | Some j => named (dev s) w j
    end.
Proof.
  induction n as [|n IH]; intros i Hwf Hw Hlen Hi Hn Hmax; cbn [find_file].
  { exists None. split; [done|]. intros j Hj [? _]. lia. }
  destruct (lookup_lt_is_Some_2 (lfd_files (lf_dir (Lf_data (dev s)))) (Z.to_nat i)) as [ld Hld].
  { rewrite (dw_len _ Hwf). lia. }
  assert (length (ld_name ld) = 16%nat) as Hl16 by apply (Forall_lookup_1 _ _ _ _ (dw_files _ Hwf) Hld).
  kred. rewrite (getent_done i ld s Hi Hld). kred.
  rewrite (name_is_spec 16 s name w 0) by (done || lia || by apply rest_start). kred.
  case_bool_decide as Hsame; [exists (Some i); split; [by kred|]; split; [lia|by exists ld]|].
  destruct (IH (i + 1) Hwf Hw Hlen ltac:(lia) ltac:(lia) Hmax) as (r & E & Hr). exists r. split; [exact E|].
  destruct r as [j|]; [done|]. intros j Hj. destruct (decide (j = i)) as [->|]; [|apply Hr; lia].
  intros (_ & ld' & Hld' & Hnm). unfold entry in Hld'. congruence.
Qed.

Section open.
Context (ns : Z).

(** ** The slaves of the open files *)

(** Only slaves change, and which files are open. *)
Lemma fs_slaves d T F OP OP' FI FD :
  fs_rep ns d F OP FI FD →
  (∀ j fl ld, F !! j = Some fl → entry d j = Some ld → file_at (Ram d) ld (open_cb d OP j) fl →
    file_at (Ram d) ld (open_cb (set_lfltab T d) OP' j) fl) →
  (∀ j m, OP' !! j = Some m → ∃ f fl, T !! m = Some f ∧ F !! j = Some fl ∧ cb_ok (Ram d) f fl j) →
  (∀ m f, T !! m = Some f → lfstate f = LF_USED → ∃ j, OP' !! j = Some m) →
  fs_rep ns (set_lfltab T d) F OP' FI FD.
Proof.
  intros Hr Hat Hop Hsl. split; try apply Hr; try done. intros j fl Hj.
  destruct (fr_files _ _ _ _ _ _ Hr j fl Hj) as (ld & Hld & Hfile). exists ld. split; [done|]. by apply Hat.
Qed.

(** A slave of no file, with no block in memory, has the file as it is on the disk. *)
Lemma file_at_fresh R ld f fl :
  (∀ n, n ∈ fl_ibs fl → n ≠ lfinum f) → (∀ n, n ∈ fl_dbs fl → n ≠ lfdnum f) →
  file_at R ld None fl → file_at R ld (Some f) fl.
Proof.
  intros Hi Hd [A1 A2 A3 A4 A5 A6 A7]. split; try done.
  - intros k n Hk. rewrite <-(A3 k n Hk). cbn. rewrite bool_decide_eq_false_2; [done|].
    intros E. eapply (Hi n); [by eapply list_elem_of_lookup_2|done].
  - intros i n Hn. apply (block_holds_eq _ _ (db_eff R None n)); [|by apply A4]. cbn.
    rewrite bool_decide_eq_false_2; [done|]. intros E. eapply (Hd n); [by eapply list_elem_of_lookup_2|done].
Qed.

Lemma fs_open d F OP FI FD j m fl f mbits nm :
  fs_rep ns d F OP FI FD → F !! j = Some fl → OP !! j = None → lfltab d !! m = Some f → lfstate f = LF_FREE →
  length (lfdblock f) = 512%nat →
  fs_rep ns (set_lfltab (<[m := open_slave j mbits nm f]> (lfltab d)) d) F (<[j := m]> OP) FI FD.
Proof.
  intros Hr Hfl Hop Hf Hfree Hlen. pose proof (fr_ns _ _ _ _ _ _ Hr) as Hns.
  assert (∀ i x, OP !! i = Some x → x ≠ m) as Hne.
  { intros i x Hi ->. destruct (fr_open _ _ _ _ _ _ Hr _ _ Hi) as (g & gl & Hg & _ & Hok).
    pose proof (cb_used _ _ _ _ Hok). congruence. }
  pose proof (fs_file_range _ _ _ _ _ _ _ _ Hr Hfl) as Hj.
  apply (fs_slaves _ _ _ OP); [done|..].
  - intros i gl ld Hi Hld Hat. unfold open_cb. cbn. destruct (decide (i = j)) as [->|Hij].
    + rewrite lookup_insert_eq. cbn. rewrite lookup_insert_eq. assert (gl = fl) as -> by congruence.
      unfold open_cb in Hat. rewrite Hop in Hat. apply file_at_fresh; [| |exact Hat]; intros n Hn; cbn.
      * assert (0 ≤ n < 7 * ns); [|unfold LF_INULL; lia].
        apply (fr_iarea _ _ _ _ _ _ Hr j). by rewrite (ilists_file F FI j fl ltac:(lia) Hfl).
      * assert (ns < n < RM_BLKS); [|unfold LF_DNULL; lia].
        apply (fr_darea _ _ _ _ _ _ Hr j). by rewrite (dlists_file F FD j fl ltac:(lia) Hfl).
    + rewrite lookup_insert_ne by done. unfold open_cb in Hat. destruct (OP !! i) as [x|] eqn:Hx; [|done].
      cbn. rewrite lookup_insert_ne by (intros ->; by eapply Hne). done.
  - intros i x. rewrite lookup_insert. case_decide as E.
    + subst i. intros [= <-]. exists (open_slave j mbits nm f), fl. rewrite lookup_insert_eq. split_and!; [done..|].
      assert (∀ n, n ∈ fl_ibs fl → 0 ≤ n) as Hge.
      { intros n Hn. apply (fr_iarea _ _ _ _ _ _ Hr j). by rewrite (ilists_file F FI j fl ltac:(lia) Hfl). }
      assert (∀ n, n ∈ fl_dbs fl → ns < n) as Hgd.
      { intros n Hn. apply (fr_darea _ _ _ _ _ _ Hr j). by rewrite (dlists_file F FD j fl ltac:(lia) Hfl). }
      split; cbn; try done; try (by left).
      * intros _ Hin%Hge. unfold LF_INULL in Hin. lia.
      * intros _ i Hin%list_elem_of_lookup_2%Hgd. unfold LF_DNULL in Hin. lia.
      * lia.
    + intros Hi. destruct (fr_open _ _ _ _ _ _ Hr _ _ Hi) as (g & gl & Hg & Hgl & Hok). exists g, gl.
      rewrite lookup_insert_ne by (intros <-; by eapply Hne). done.
  - intros x g. rewrite lookup_insert. case_decide as E.
    + subst x. intros _ _. exists j. apply lookup_insert_eq.
    + intros Hg Hu. destruct (fr_slaves _ _ _ _ _ _ Hr x g Hg Hu) as [i Hi]. exists i.
      rewrite lookup_insert_ne; [done|congruence].
Qed.

Lemma fs_close d F OP FI FD j m fl f :
  open_at ns d F OP FI FD j m fl f → lfibdirty f = false → lfdbdirty f = false →
  fs_rep ns (set_lfltab (<[m := set_lfstate LF_FREE f]> (lfltab d)) d) F (delete j OP) FI FD.
Proof.
  intros HO Hid Hdd. pose proof HO as [Hr Hf Hop Hc]. apply (fs_slaves _ _ _ OP); [done|..].
  - intros i gl ld Hi Hld Hat. unfold open_cb. cbn. destruct (decide (i = j)) as [->|Hij].
    + rewrite lookup_delete_eq. assert (gl = fl) as -> by congruence. cbn.
      unfold open_cb in Hat. rewrite Hop in Hat. cbn in Hat. rewrite Hc in Hat. by eapply clean_on_disk.
    + rewrite lookup_delete_ne by done. unfold open_cb in Hat. destruct (OP !! i) as [x|] eqn:Hx; [|done].
      cbn. rewrite lookup_insert_ne; [done|]. intros <-. apply Hij. by eapply slave_inj.
  - intros i x. rewrite lookup_delete. case_decide as E; [done|]. intros Hi.
    destruct (fr_open _ _ _ _ _ _ Hr _ _ Hi) as (g & gl & Hg & Hgl & Hok). exists g, gl.
    rewrite lookup_insert_ne; [done|]. intros <-. apply E. by eapply slave_inj.
  - intros x g. rewrite lookup_insert. case_decide as E; [by intros [= <-]|].
    intros Hg Hu. destruct (fr_slaves _ _ _ _ _ _ Hr x g Hg Hu) as [i Hi]. exists i.
    rewrite lookup_delete_ne; [done|congruence].
Qed.

(** ** lflclose *)

(** The directory is on the disk unless it is marked as changed. *)
Definition dir_saved (d : devstate) : Prop :=
  lf_dirdirty (Lf_data d) = false → Ram d !! 0 = Some (enc_lfdir (lf_dir (Lf_data d))).

Lemma flushed_dir d F OP FI FD j m fl f :
  open_at ns d F OP FI FD j m fl f → dir_saved d →
  Ram (flushed m f d) !! 0 = Some (enc_lfdir (lf_dir (Lf_data (flushed m f d)))).
Proof.
  intros HO Hs. pose proof (oa_ok _ _ _ _ _ _ _ _ _ _ HO) as Hok. pose proof (oa_ns _ _ _ _ _ _ _ _ _ _ HO) as Hns.
  cbn [flushed Ram set_Ram set_lfltab Lf_data].
  assert (flush_iblk f (flush_data f (Ram (flush_dir d))) !! 0 = Ram (flush_dir d) !! 0) as ->.
  { transitivity (flush_data f (Ram (flush_dir d)) !! 0).
    - unfold flush_iblk. destruct (lfibdirty f) eqn:E; [|done]. apply put_ib_other.
      pose proof (ib2sect_range ns (lfinum f) (oa_iarea _ _ _ _ _ _ _ _ _ _ HO _ (cb_idirty _ _ _ _ Hok E))). lia.
    - unfold flush_data. destruct (lfdbdirty f) eqn:E; [|done]. rewrite lookup_insert_ne; [done|].
      pose proof (oa_darea _ _ _ _ _ _ _ _ _ _ HO _ (cb_ddirty _ _ _ _ Hok E)). lia. }
  unfold flush_dir. destruct (lf_dirdirty (Lf_data d)) eqn:E; [|by apply Hs]. cbn. apply lookup_insert_eq.
Qed.

(** What lflclose has done to the variables before it frees the slave. *)
Definition closing (m : Z) (f : lflcblk) (d : devstate) : devstate :=
  if lf_dirdirty (Lf_data d) || lfdbdirty f || lfibdirty f then flushed m f d else d.

Lemma closing_runs d F OP FI FD j m fl f :
  open_at ns d F OP FI FD j m fl f →
  runs (if lf_dirdirty (Lf_data d) || lfdbdirty f || lfibdirty f then _ ← lfflush m; ret tt else ret tt) d tt (closing m f d) ∧
  open_at ns (closing m f d) F OP FI FD j m fl (clean f) ∧ dev_frame m d (closing m f d) ∧
  (dir_saved d → Ram (closing m f d) !! 0 = Some (enc_lfdir (lf_dir (Lf_data (closing m f d))))).
Proof.
  intros HO. destruct (flush_step ns _ _ _ _ _ _ _ _ _ HO) as [Hrun HO2]. unfold closing.
  destruct (lf_dirdirty (Lf_data d) || lfdbdirty f || lfibdirty f) eqn:E.
  - split; [eapply runs_bind; [exact Hrun|apply runs_ret]|]. split; [done|]. split; [|by eapply flushed_dir].
    destruct (flush_dir_lf d) as (E1 & E2 & E3). unfold flushed. split; cbn; rewrite ?E1, ?E2, ?E3; try done.
    + unfold flush_dir. by destruct (lf_dirdirty _).
    + unfold flush_dir. by destruct (lf_dirdirty _).
    + intros i Hi. by rewrite lookup_insert_ne.
    + unfold flush_dir. by destruct (lf_dirdirty _).
    + unfold flush_dir. by destruct (lf_dirdirty _).
  - apply orb_false_iff in E as [[E1 E2]%orb_false_iff E3]. rewrite clean_id by done.
    split; [apply runs_ret|]. split; [done|]. split; [done|]. intros Hs. by apply Hs.
Qed.

Lemma lflclose_spec Q s F OP FI FD j m fl f :
  lfs_ok ns Q s F OP FI FD → at_pos s F OP j m fl f →
  ∃ d', lflclose m s = Done OK (set_dev d' s) ∧ lfs_ok ns Q (set_dev d' s) F (delete j OP) FI FD ∧
    dev_frame m (dev s) d' ∧ (∃ f', lfltab d' !! m = Some f' ∧ lfstate f' = LF_FREE) ∧
    (dir_saved (dev s) → Ram d' !! 0 = Some (enc_lfdir (lf_dir (Lf_data d')))).
Proof.
  intros HL HA. pose proof (lfs_open_at _ _ _ _ _ _ _ _ _ _ _ HL HA) as HO. pose proof HA as (Hfl & Hop & Hf).
  pose proof (oa_ok _ _ _ _ _ _ _ _ _ _ HO) as Hok.
  destruct (inside_call _ _ _ _ _ _ _ _ _ _ _ HL HA) as (HQ1 & Hm1 & Hsig).
  destruct (closing_runs _ _ _ _ _ _ _ _ _ HO) as (Hrun & HO2 & Hfr & Hdir). set (d1 := closing m f (dev s)) in *.
  set (f' := set_lfstate LF_FREE (clean f)). set (d' := set_lfltab (<[m := f']> (lfltab d1)) d1).
  assert (dev_frame m (dev s) d') as Hfr'.
  { etrans; [exact Hfr|]. split; try done. intros i Hi. cbn. by rewrite lookup_insert_ne. }
  assert (lfltab d' !! m = Some f') as Hf' by (cbn; apply lookup_insert_eq).
  exists d'. split; [|split; [|split; [done|split; [by exists f'|done]]]].
  - unfold lflclose. erewrite (enter_call _ _ _ _ _ _ _ _ _ _ _ _ HL HA). set (s1 := lock (lfmutex f) s) in *.
    rewrite bool_decide_eq_false_2 by (rewrite (cb_used _ _ _ _ Hok); by intros []).
    rewrite M_bind_eq, (runs_getlf (dev s) s1 eq_refl). cbn [obind].
    rewrite M_bind_eq. rewrite (Hrun (set_dev (dev s) s1) eq_refl). cbn [obind].
    rewrite M_bind_eq. rewrite (setlfl_done m (clean f) _ _) by (cbn; apply HO2). cbn [obind].
    rewrite M_bind_eq. change (set_dev _ (set_dev d1 _)) with (set_dev d' s1). rewrite Hsig. by kred.
  - destruct HL as [L1 L2 L3 L6 L7 L4 L5]. pose proof (df_mutex _ _ _ Hfr') as Em. split; try done.
    + by apply InvQ_dev.
    + by apply fs_close with (f := clean f) (fl := fl).
    + cbn. change (lf_dirpresent (Lf_data d') = true). by rewrite (df_present _ _ _ Hfr').
    + assert (names_ok d' OP) as [N1 N2 N3 N4].
      { eapply (names_frame (dev s) d'); [exact Hfr'|exact Hf|exact Hf'|done|apply Hok|done]. }
      split; try done. intros i x g ld. rewrite lookup_delete. case_decide; [done|]. by apply N3.
    + change (mutex_free s (lf_mutex (Lf_data d'))). by rewrite Em.
    + intros i g Hg. change (lfltab d' !! i = Some g) in Hg.
      change (mutex_free s (lfmutex g) ∧ lfmutex g ≠ lf_mutex (Lf_data d')). rewrite Em.
      destruct (decide (i = m)) as [->|Hne].
      * rewrite Hf' in Hg. injection Hg as <-. exact (L5 m f Hf).
      * rewrite (df_tab _ _ _ Hfr') in Hg by done. by apply (L5 i).
Qed.

(** ** lfsopen: a new entry of the directory *)

Definition add_entry (nm : list Z) (dir : lfdir) : lfdir :=
  set_lfd_files (<[Z.to_nat (lfd_nfiles dir) := Ldentry 0 LF_INULL nm]> (lfd_files dir))
    (set_lfd_nfiles (lfd_nfiles dir + 1) dir).
Definition with_entry (nm : list Z) (d : devstate) : devstate :=
  set_Lf_data (set_lf_dir (add_entry nm (lf_dir (Lf_data d))) (Lf_data d)) d.
Definition empty_file : lfile := LFile [] [] [].

Lemma add_entry_wf nm dir : lfdir_wf dir → 0 ≤ lfd_nfiles dir < 20 → length nm = 16%nat → lfdir_wf (add_entry nm dir).
Proof.
  intros [] Hn Hl. split; try done.
  - cbn. unfold int32. lia.
  - cbn. apply Forall_insert; [done|]. by split.
  - cbn. by rewrite length_insert.
Qed.

Lemma with_entry_at nm d i :
  lfdir_wf (lf_dir (Lf_data d)) → 0 ≤ i → 0 ≤ lfd_nfiles (lf_dir (Lf_data d)) < 20 →
  entry (with_entry nm d) i =
    if decide (i = lfd_nfiles (lf_dir (Lf_data d))) then Some (Ldentry 0 LF_INULL nm) else entry d i.
Proof.
  intros Hw Hi Hn. unfold entry. cbn. rewrite list_lookup_insert, (dw_len _ Hw).
  destruct (decide (i = lfd_nfiles (lf_dir (Lf_data d)))) as [->|Hne]; [by rewrite decide_True by lia|].
  rewrite decide_False; [done|lia].
Qed.

Lemma fs_new d F OP FI FD nm :
  fs_rep ns d F OP FI FD → lfd_nfiles (lf_dir (Lf_data d)) < LF_NUM_DIR_ENT → length nm = 16%nat →
  let nf := lfd_nfiles (lf_dir (Lf_data d)) in
  F !! nf = None ∧ fs_rep ns (with_entry nm d) (<[nf := empty_file]> F) OP FI FD.
Proof.
  intros Hr Hmax Hl nf. pose proof (fr_max _ _ _ _ _ _ Hr) as [Hnf _]. fold nf in Hnf. unfold LF_NUM_DIR_ENT in Hmax. pose proof (fr_dir _ _ _ _ _ _ Hr) as Hw.
  assert (F !! nf = None) as Hnew.
  { destruct (F !! nf) eqn:E; [|done]. exfalso.
    pose proof (proj1 (fr_dom _ _ _ _ _ _ Hr nf) (ex_intro _ _ E)) as H. unfold nf in H. lia. }
  assert (∀ j, ilists (<[nf := empty_file]> F) FI j = ilists F FI j) as Ei.
  { intros j. unfold ilists. case_bool_decide; [done|]. rewrite lookup_insert. case_decide; [subst; by rewrite Hnew|done]. }
  assert (∀ j, dlists (<[nf := empty_file]> F) FD j = dlists F FD j) as Ed.
  { intros j. unfold dlists. case_bool_decide; [done|]. rewrite lookup_insert. case_decide; [subst; by rewrite Hnew|done]. }
  split; [done|]. split; try apply Hr.
  - apply add_entry_wf; [done|unfold nf in *; lia|done].
  - cbn. unfold LF_NUM_DIR_ENT. lia.
  - intros j. rewrite lookup_insert_is_Some'. cbn. rewrite (fr_dom _ _ _ _ _ _ Hr). fold nf. lia.
  - intros j fl Hj. assert (0 ≤ j) as Hj0.
    { rewrite lookup_insert in Hj. case_decide; [lia|].
      pose proof (proj1 (fr_dom _ _ _ _ _ _ Hr j) (ex_intro _ _ Hj)). lia. }
    rewrite with_entry_at by (done || unfold nf in *; lia). fold nf. rewrite lookup_insert in Hj.
    destruct (decide (j = nf)) as [->|Hne].
    + rewrite decide_True in Hj by done. injection Hj as <-. eexists. split; [done|]. by split; cbn.
    + rewrite decide_False in Hj by done. destruct (fr_files _ _ _ _ _ _ Hr j fl Hj) as (ld & Hld & Hat).
      exists ld. by split.
  - intros j m Hj. destruct (fr_open _ _ _ _ _ _ Hr _ _ Hj) as (f & fl & Hf & Hfl & Hok). exists f, fl.
    split_and!; [done| |done]. rewrite lookup_insert_ne; [done|congruence].
  - intros j1 j2 k1 k2 n. rewrite !Ei. apply (fr_iapart _ _ _ _ _ _ Hr).
  - intros j1 j2 k1 k2 n. rewrite !Ed. apply (fr_dapart _ _ _ _ _ _ Hr).
  - intros j n. rewrite Ei. apply (fr_iarea _ _ _ _ _ _ Hr).
  - intros j n. rewrite Ed. apply (fr_darea _ _ _ _ _ _ Hr).
Qed.

(** The entry that lfsopen uses: found, or added; or an error. *)
Lemma open_entry_spec s name w mbits :
  lfdir_wf (lf_dir (Lf_data (dev s))) → string_at (hp s) name w → (length w < 16)%nat →
  0 ≤ lfd_nfiles (lf_dir (Lf_data (dev s))) ≤ 20 →
  let nf := lfd_nfiles (lf_dir (Lf_data (dev s))) in
  (∃ j, named (dev s) w j ∧ open_entry name mbits s =
    Done (if bool_decide (Z.land mbits LF_MODE_N ≠ 0) then None else Some j) s) ∨
  ((∀ j, ¬ named (dev s) w j) ∧
   (if bool_decide (Z.land mbits LF_MODE_O ≠ 0 ∨ nf = 20) then open_entry name mbits s = Done None s
    else ∃ nm, cname nm = w ∧ length nm = 16%nat ∧
      open_entry name mbits s = Done (Some nf) (set_dev (with_entry nm (dev s)) s))).
Proof.
  intros Hw Hs Hl Hn nf. unfold open_entry.
  destruct (find_file_spec s name w (Z.to_nat nf) 0 Hw Hs Hl) as (r & E & Hr); [lia|unfold nf; lia|lia|].
  rewrite M_bind_eq, (runs_getdir (dev s) s eq_refl), set_dev_id. cbn [obind]. fold nf. kred. rewrite E. kred.
  destruct r as [j|]; [left; exists j; split; [done|]; case_bool_decide; by kred|].
  right. split; [intros j Hj; eapply (Hr j); [apply Hj|exact Hj]|].
  destruct (decide (Z.land mbits LF_MODE_O ≠ 0)) as [Ho|Ho].
  { rewrite (bool_decide_eq_true_2 (_ ∨ _)) by by left. by rewrite bool_decide_eq_true_2. }
  rewrite (bool_decide_eq_false_2 (Z.land _ _ ≠ 0)) by done. unfold LF_NUM_DIR_ENT.
  destruct (decide (nf = 20)) as [Hf|Hf].
  { rewrite (bool_decide_eq_true_2 (_ ∨ _)) by by right. by rewrite bool_decide_eq_true_2 by lia. }
  rewrite (bool_decide_eq_false_2 (_ ∨ _)) by tauto. rewrite bool_decide_eq_false_2 by lia.
  destruct (lookup_lt_is_Some_2 (lfd_files (lf_dir (Lf_data (dev s)))) (Z.to_nat nf)) as [ld Hld].
  { rewrite (dw_len _ Hw). lia. }
  assert (length (ld_name ld) = 16%nat) as Hl16 by apply (Forall_lookup_1 _ _ _ _ (dw_files _ Hw) Hld).
  assert (0 ∉ w) as H0 by apply Hs. destruct (name_copied w (ld_name ld) H0 ltac:(lia)) as [Hc Hlc].
  exists (w ++ 0 :: drop (S (length w)) (ld_name ld)). split; [done|]. split; [lia|].
  set (d1 := set_Lf_data (set_lf_dir (set_lfd_nfiles (nf + 1) (lf_dir (Lf_data (dev s)))) (Lf_data (dev s))) (dev s)).
  rewrite M_bind_eq, (runs_setdir _ (dev s) s eq_refl). cbn [obind]. fold d1.
  rewrite M_bind_eq, (runs_setent d1 nf ld _ ltac:(lia) Hld (set_dev d1 s) eq_refl). cbn [obind].
  set (d2 := set_Lf_data _ d1). change (set_dev d2 (set_dev d1 s)) with (set_dev d2 s).
  assert (lfd_files (lf_dir (Lf_data d2)) !! Z.to_nat nf = Some (set_ld_size 0 ld)) as H2.
  { cbn. apply list_lookup_insert_eq. apply lookup_lt_Some in Hld. exact Hld. }
  rewrite M_bind_eq, (getent_done nf _ (set_dev d2 s) ltac:(lia) H2). cbn [obind].
  rewrite M_bind_eq. change (ld_name (set_ld_size 0 ld)) with (ld_name ld).
  rewrite (name_copy_spec 16 (set_dev d2 s) name w 0 (ld_name ld)) by (done || lia || by apply rest_start). cbn [obind].
  rewrite M_bind_eq, (runs_setent d2 nf _ _ ltac:(lia) H2 (set_dev d2 s) eq_refl). cbn [obind].
  set (d3 := set_Lf_data _ d2). set (nm := w ++ _) in *. change (set_dev d3 (set_dev d2 s)) with (set_dev d3 s).
  assert (lfd_files (lf_dir (Lf_data d3)) !! Z.to_nat nf = Some (set_ld_name nm (set_ld_size 0 ld))) as H3.
  { cbn. rewrite list_insert_insert_eq. apply list_lookup_insert_eq. apply lookup_lt_Some in Hld. exact Hld. }
  rewrite M_bind_eq, (runs_setent d3 nf _ _ ltac:(lia) H3 (set_dev d3 s) eq_refl). cbn [obind ret].
  f_equal. match goal with |- set_dev ?d4 _ = _ => change (set_dev d4 (set_dev d3 s)) with (set_dev d4 s) end.
  f_equal. unfold with_entry, d3, d2, d1, add_entry. cbn. by rewrite !list_insert_insert_eq.
Qed.

(** When lfsopen refuses. *)
Definition open_fails (d : devstate) (w wm : list Z) : Prop :=
  (16 ≤ length w)%nat ∨ ¬ mode_ok wm ∨ opened d w ∨ none_free d 0 ∨
  ((∃ j, named d w j) ∧ Z.land (mode_value wm) LF_MODE_N ≠ 0) ∨
  ((∀ j, ¬ named d w j) ∧ (Z.land (mode_value wm) LF_MODE_O ≠ 0 ∨ lfd_nfiles (lf_dir (Lf_data d)) = 20)).

Lemma mode_value_error wm : mode_value wm = SYSERR ↔ ¬ mode_ok wm.
Proof.
  unfold mode_value. case_bool_decide; [|done]. split; [|done]. intros E.
  assert (0 ≤ mode_bits wm) as Hb.
  { clear. induction wm as [|c wm IH]; cbn; [done|]. apply Z.lor_nonneg. split; [|done].
    unfold mode_bit. by repeat case_bool_decide. }
  assert (0 ≤ Z.lor (mode_bits wm) LF_MODE_RW) by (by apply Z.lor_nonneg).
  unfold SYSERR in E. case_bool_decide; lia.
Qed.

(** The slave and the entry of the file are tied together. *)
Lemma lfs_ok_open Q s F OP FI FD j m f fl mbits nm w :
  lfs_ok ns Q s F OP FI FD → F !! j = Some fl → OP !! j = None → lfltab (dev s) !! m = Some f →
  lfstate f = LF_FREE → length nm = 16%nat → cname nm = w → named (dev s) w j →
  lfs_ok ns Q (set_dev (set_lfltab (<[m := open_slave j mbits nm f]> (lfltab (dev s))) (dev s)) s) F (<[j := m]> OP) FI FD.
Proof.
  intros [L1 L2 L3 L6 L7 L4 L5] Hfl Hop Hf Hfree Hnl Hnc (Hjr & ld & Hld & Hnm).
  destruct (nm_len _ _ L7 m f Hf) as [_ Hb].
  assert (∀ x, is_Some (<[m := open_slave j mbits nm f]> (lfltab (dev s)) !! x) ↔ is_Some (lfltab (dev s) !! x)) as Hdom.
  { intros x. rewrite lookup_insert_is_Some'. split; [intros [<-|]; [by eexists|done]|by right]. }
  split; try done.
  - by apply InvQ_dev.
  - eapply fs_open; eauto.
  - destruct L7 as [N1 N2 N3 N4]. split; try done; cbn.
    + intros x. by rewrite Hdom.
    + intros x g. rewrite lookup_insert. case_decide; [by intros [= <-]|apply N2].
    + intros i x g e. rewrite !lookup_insert. destruct (decide (j = i)) as [<-|Hji].
      * intros [= <-]. rewrite decide_True by done. intros [= <-]. intros He.
        change (entry (dev s) j = Some e) in He. cbn. congruence.
      * intros Hi. rewrite decide_False; [by apply N3|]. intros <-.
        destruct (fr_open _ _ _ _ _ _ L2 _ _ Hi) as (g' & gl & Hg' & _ & Hok). pose proof (cb_used _ _ _ _ Hok). congruence.
  - cbn. intros x g. rewrite lookup_insert. case_decide; [subst x; intros [= <-]; exact (L5 _ _ Hf)|apply L5].
Qed.

Lemma lfs_ok_new Q s F OP FI FD nm :
  lfs_ok ns Q s F OP FI FD → lfd_nfiles (lf_dir (Lf_data (dev s))) ≠ 20 → length nm = 16%nat →
  (∀ j, ¬ named (dev s) (cname nm) j) →
  let nf := lfd_nfiles (lf_dir (Lf_data (dev s))) in
  F !! nf = None ∧ named (with_entry nm (dev s)) (cname nm) nf ∧
  lfs_ok ns Q (set_dev (with_entry nm (dev s)) s) (<[nf := empty_file]> F) OP FI FD.
Proof.
  intros [L1 L2 L3 L6 L7 L4 L5] Hne Hl Hno nf. pose proof (fr_max _ _ _ _ _ _ L2) as Hmax.
  unfold LF_NUM_DIR_ENT in Hmax. pose proof (fr_dir _ _ _ _ _ _ L2) as Hw.
  destruct (fs_new _ _ _ _ _ nm L2) as [HF Hr2]; [unfold LF_NUM_DIR_ENT, nf in *; lia|done|]. fold nf in HF, Hr2.
  assert (∀ i, 0 ≤ i → entry (with_entry nm (dev s)) i = if decide (i = nf) then Some (Ldentry 0 LF_INULL nm) else entry (dev s) i) as Hent.
  { intros i Hi. apply with_entry_at; [done|done|unfold nf in *; lia]. }
  split; [done|]. split.
  { split; [cbn; unfold nf in *; lia|]. eexists. rewrite Hent by (unfold nf; lia). by rewrite decide_True. }
  split; try done.
  - by apply InvQ_dev.
  - intros j fl. rewrite lookup_insert. case_decide; [intros [= <-]; by split; cbn; lia|apply L3].
  - destruct L7 as [N1 N2 N3 N4]. split; try done.
    + intros j m f ld Hj Hf He. destruct (fr_open _ _ _ _ _ _ L2 _ _ Hj) as (g & fl & _ & HFj & _).
      pose proof (fs_file_range _ _ _ _ _ _ _ _ L2 HFj). cbn [set_dev dev] in He. rewrite Hent in He by lia.
      rewrite decide_False in He by congruence. by eapply N3.
    + cbn [set_dev dev]. intros i j e e' Hi Hj. cbn in Hi, Hj. fold nf in Hi, Hj. rewrite !Hent by lia.
      do 2 case_decide; subst; [done| | |].
      * intros [= <-] He' E. exfalso. apply (Hno j). split; [unfold nf in *; lia|]. by exists e'.
      * intros He [= <-] E. exfalso. apply (Hno i). split; [unfold nf in *; lia|]. by exists e.
      * apply N4; unfold nf in *; lia.
Qed.

Lemma load_present s : lf_dirpresent (Lf_data (dev s)) = true → load_dir s = Done true s.
Proof.
  intros Hp. unfold load_dir. rewrite M_bind_eq, (runs_getlf (dev s) s eq_refl), set_dev_id. cbn [obind]. by rewrite Hp.
Qed.

(** The slave is set up for the entry [j]. *)
Lemma open_slave_step Q s F OP FI FD name w mbits m f j fl :
  lfs_ok ns Q s F OP FI FD → string_at (hp s) name w → (length w < 16)%nat → F !! j = Some fl →
  named (dev s) w j → ¬ opened (dev s) w → lfltab (dev s) !! m = Some f → lfstate f = LF_FREE →
  ∃ d' nm, (∀ s', dev s' = dev s → hp s' = hp s → name_copy 16 name 0 (lfname f) s' = Done nm s' ∧
      setlfl m (open_slave j mbits nm) s' = Done tt (set_dev d' s')) ∧
    lfs_ok ns Q (set_dev d' s) F (<[j := m]> OP) FI FD ∧ named d' w j ∧
    (∃ f', lfltab d' !! m = Some f' ∧ lfpos f' = 0) ∧ Ram d' = Ram (dev s) ∧ Lf_data d' = Lf_data (dev s).
Proof.
  intros HL Hs Hl Hfl Hnm Hno Hf Hfree. destruct (nm_len _ _ (lo_names _ _ _ _ _ _ _ HL) m f Hf) as [Hnl _].
  assert (0 ∉ w) as H0 by apply Hs. destruct (name_copied w (lfname f) H0 ltac:(lia)) as [Hc Hlc].
  set (nm := w ++ 0 :: drop (S (length w)) (lfname f)) in *.
  exists (set_lfltab (<[m := open_slave j mbits nm f]> (lfltab (dev s))) (dev s)), nm.
  split; [|split; [|split; [done|split; [|done]]]].
  - intros s' Hd Hh. split.
    + apply name_copy_spec; [rewrite Hh; by apply rest_start|lia..].
    + rewrite (setlfl_done m f _ s') by by rewrite Hd. by rewrite Hd.
  - eapply lfs_ok_open; try done; [|lia]. destruct (OP !! j) as [x|] eqn:Hx; [|done]. exfalso. apply Hno.
    destruct (fr_open _ _ _ _ _ _ (lo_rep _ _ _ _ _ _ _ HL) _ _ Hx) as (g & gl & Hg & _ & Hok).
    destruct Hnm as (_ & ld & Hld & Hw). exists x, g. split_and!; [done|apply Hok|].
    rewrite <-Hw. by eapply (nm_open _ _ (lo_names _ _ _ _ _ _ _ HL)).
  - exists (open_slave j mbits nm f). cbn. by rewrite lookup_insert_eq.
Qed.


(** What a call that opens file [j] with slave [m] leaves. *)
Record open_result (s : kst) (F : gmap Z lfile) (w : list Z) (j m : Z) (F' : gmap Z lfile) (d' : devstate) : Prop := Open_result {
  or_named : named d' w j;
  or_start : ∃ f', lfltab d' !! m = Some f' ∧ lfpos f' = 0;
  or_disk : Ram d' = Ram (dev s);
  or_dirty : lf_dirdirty (Lf_data d') = lf_dirdirty (Lf_data (dev s));
  or_files : F' = F ∧ named (dev s) w j ∨
    F' = <[j := empty_file]> F ∧ F !! j = None ∧ (∀ i, ¬ named (dev s) w i) }.

Lemma find_slave_top Q s F OP FI FD name w :
  lfs_ok ns Q s F OP FI FD → string_at (hp s) name w → (length w < 16)%nat →
  ∃ r, find_slave (Z.to_nat Nlfl) name 0 SYSERR s = Done r s ∧
    match r with
    | None => opened (dev s) w
    | Some x => ¬ opened (dev s) w ∧ (first_free (dev s) 0 x ∨ (x = SYSERR ∧ none_free (dev s) 0))
    end.
Proof.
  intros HL Hs Hl. pose proof (lo_names _ _ _ _ _ _ _ HL) as HN.
  destruct (find_slave_spec OP s name w (Z.to_nat Nlfl) 0 SYSERR HN Hs Hl) as (r & E & Hr); [lia|done|].
  exists r. split; [done|]. destruct r as [x|]; [|done]. destruct Hr as [Hno Hr]. split; [|exact Hr].
  intros (m & f & Hf & Hu & Hw). eapply Hno; [|done..]. apply (nm_slaves _ _ HN). by eexists.
Qed.

Lemma lfsopen_spec Q s F OP FI FD name mode w wm :
  lfs_ok ns Q s F OP FI FD → string_at (hp s) name w → string_at (hp s) mode wm →
  (open_fails (dev s) w wm ∧ lfsopen name mode s = Done SYSERR s) ∨
  (¬ open_fails (dev s) w wm ∧ ∃ j m f F' d', first_free (dev s) 0 m ∧ lfltab (dev s) !! m = Some f ∧
    lfsopen name mode s = Done (lfdev f) (set_dev d' s) ∧
    lfs_ok ns Q (set_dev d' s) F' (<[j := m]> OP) FI FD ∧ open_result s F w j m F' d').
Proof.
  intros HL Hs Hm. unfold lfsopen. rewrite M_bind_eq.
  rewrite (name_len_spec 16 s name w 0) by (lia || by apply rest_start). cbn [obind]. unfold LF_NAME_LEN.
  destruct (decide (16 ≤ length w)%nat) as [Hlen|Hlen].
  { left. split; [by left|]. by rewrite bool_decide_eq_true_2 by lia. }
  rewrite bool_decide_eq_false_2 by lia. rewrite M_bind_eq, (lfgetmode_spec s mode wm Hm). cbn [obind].
  destruct (decide (mode_ok wm)) as [Hmode|Hmode]; [|left; split; [by right; left|];
    by rewrite bool_decide_eq_true_2 by by apply mode_value_error].
  rewrite bool_decide_eq_false_2 by (intros E%mode_value_error; done).
  destruct (find_slave_top Q s F OP FI FD name w HL Hs ltac:(lia)) as (r & E & Hr).
  rewrite M_bind_eq, E. cbn [obind]. destruct r as [m|]; [|by left; split; [right; right; left|]].
  destruct Hr as [Hno [Hfree|[-> Hfree]]]; [|by left; split; [right; right; right; left|]].
  rewrite bool_decide_eq_false_2 by (intros ->; destruct Hfree as [? _]; unfold SYSERR in *; lia).
  rewrite M_bind_eq, (runs_getlf (dev s) s eq_refl), set_dev_id. cbn [obind].
  pose proof (lo_dirmutex _ _ _ _ _ _ _ HL) as Hmx. set (sem := lf_mutex (Lf_data (dev s))) in *.
  destruct (wait_lock Q s sem (lo_inv _ _ _ _ _ _ _ HL) Hmx) as [Ew _].
  pose proof (λ d, signal_unlock Q s sem d (lo_inv _ _ _ _ _ _ _ HL) Hmx) as Esig.
  rewrite M_bind_eq, Ew. cbn [obind]. set (s1 := lock sem s) in *.
  rewrite M_bind_eq, (load_present s1) by exact (lo_present _ _ _ _ _ _ _ HL). cbn [obind negb]. rewrite M_bind_eq.
  pose proof (lo_rep _ _ _ _ _ _ _ HL) as Hrep. pose proof (fr_max _ _ _ _ _ _ Hrep) as Hmax. unfold LF_NUM_DIR_ENT in Hmax.
  assert (signal sem s1 = Done OK s) as Es1.
  { rewrite <-(set_dev_id s1) at 1. change (dev s1) with (dev s). rewrite Esig. by rewrite set_dev_id. }
  destruct Hfree as (Hmr & (f & Hf & Hff) & Hused). 
  destruct (open_entry_spec s1 name w (mode_value wm) (fr_dir _ _ _ _ _ _ Hrep) Hs ltac:(lia) Hmax)
    as [(j & Hj & Ee)|[Hnone Ee]].
  - rewrite Ee. case_bool_decide as HN; cbn [obind].
    { left. split; [do 4 right; left; split; [by exists j|done]|]. by rewrite M_bind_eq, Es1. }
    right. split; [intros [?|[?|[?|[Hnf|[[_ ?]|[Hnn _]]]]]]; try done; [specialize (Hnf m f Hmr Hf); congruence|by apply (Hnn j)]|].
    destruct (proj2 (fr_dom _ _ _ _ _ _ Hrep j) (proj1 Hj)) as [fl Hfl].
    destruct (open_slave_step Q s F OP FI FD name w (mode_value wm) m f j fl HL Hs ltac:(lia) Hfl Hj Hno Hf Hff)
      as (d' & nm & Hstep & HL' & Hnm & Hst & Hram & Hlf).
    exists j, m, f, F, d'. split; [by split; [|split; [exists f|]]|]. split; [done|]. split; [|split; [done|]].
    + destruct (Hstep s1 eq_refl eq_refl) as [E1 E2]. rewrite M_bind_eq, (getlfl_done m f s1 Hf). cbn [obind].
      rewrite M_bind_eq, E1. cbn [obind]. rewrite M_bind_eq, E2. cbn [obind]. by rewrite M_bind_eq, Esig.
    + split; [done..| |by left]. by rewrite Hlf.
  - change (dev s1) with (dev s) in *. set (nf := lfd_nfiles (lf_dir (Lf_data (dev s)))) in *. case_bool_decide as Hbad.
    { left. split; [by do 5 right|]. rewrite Ee. cbn [obind]. by rewrite M_bind_eq, Es1. }
    right. destruct Ee as (nm0 & Hn0 & Hl0 & Ee).
    split; [intros [?|[?|[?|[Hnf|[[[j Hj] _]|[_ ?]]]]]]; try done; [specialize (Hnf m f Hmr Hf); congruence|by apply (Hnone j)]|].
    destruct (lfs_ok_new Q s F OP FI FD nm0 HL) as (HFn & Hnm1 & HL1); [fold nf; tauto|done|by rewrite Hn0|].
    fold nf in HFn, Hnm1, HL1. rewrite Hn0 in Hnm1. set (d1 := with_entry nm0 (dev s)) in *.
    destruct (open_slave_step Q (set_dev d1 s) _ OP FI FD name w (mode_value wm) m f nf empty_file HL1 Hs ltac:(lia))
      as (d' & nm & Hstep & HL' & Hnm & Hst & Hram & Hlf); [apply lookup_insert_eq|done..|].
    exists nf, m, f, (<[nf := empty_file]> F), d'.
    split; [by split; [|split; [exists f|]]|]. split; [done|]. split; [|split; [done|]].
    + rewrite Ee. cbn [obind]. destruct (Hstep (set_dev d1 s1) eq_refl eq_refl) as [E1 E2].
      rewrite M_bind_eq, (getlfl_done m f (set_dev d1 s1) Hf). cbn [obind].
      rewrite M_bind_eq, E1. cbn [obind]. rewrite M_bind_eq, E2. cbn [obind].
      change (set_dev d' (set_dev d1 s1)) with (set_dev d' s1). by rewrite M_bind_eq, Esig.
    + split; [done..| |by right]. by rewrite Hlf.
Qed.

End open.
