(* ===== verification/LfsTrunc.v ===== *)
(** Truncating a file: lftruncate puts every block of the file on the free lists,
    and comes to an end. *)

From S2P Require Import Prelude Types ByteMem Words DevTypes Heap Kernel KInv Sched Semaphore Device.
From S2P Require Import LfsDisk Lfs Lfl LfsRun LfsRep LfsSetup LfsName LfsPos LfsFile LfsOpen UserMem.

Section trunc.
Context (ns : Z) (unused : list Z).
Hypothesis unused_len : length unused = 508%nat.

(** While blocks are freed, the disk and the head of the data blocks' free list
    change. *)
Definition freeing (d0 : devstate) (x : Z) (R : gmap Z (list Z)) : devstate :=
  set_Ram R (set_Lf_data (set_lf_dir (set_lfd_dfree x (lf_dir (Lf_data d0))) (Lf_data d0)) d0).

Definition top (FD : list Z) : Z := default LF_DNULL (head FD).

(** The disk of a system whose directory has its form. *)
Record trunc_disk (d0 : devstate) (R : gmap Z (list Z)) : Prop := Trunc_disk {
  td_ok : disk_ok R;
  td_all : ∀ k, 0 ≤ k < RM_BLKS → is_Some (R !! k);
  td_dir : lfdir_wf (lf_dir (Lf_data d0)) }.

Lemma trunc_disk_upd d0 il dl R R' : trunc_disk d0 R → disk_upd ns il dl R R' → trunc_disk d0 R'.
Proof. intros [] []. split; auto. Qed.

Lemma enc_free_len n : length (enc_lfdbfree n unused) = 512%nat.
Proof. unfold enc_lfdbfree. rewrite length_app, unused_len. done. Qed.

(** One data block. *)
Lemma lfdbfree_step d0 R n FD :
  trunc_disk d0 R → 0 ≤ ns → ns < n < RM_BLKS → n ∉ FD → int32 (top FD) →
  linked (λ n, lf_nextdb <$> R !! n) FD → (∀ x, x ∈ FD → ns < x) →
  ∃ R', runs (lfdbfree unused RAM0 n) (freeing d0 (top FD) R) OK (freeing d0 n R') ∧
    disk_upd ns [] [n] R R' ∧ linked (λ n, lf_nextdb <$> R' !! n) (n :: FD).
Proof.
  intros [Hok Hall Hw] Hns Hn Hni Htop Hl Hpos. unfold RM_BLKS in *.
  set (R1 := <[n := enc_lfdbfree (top FD) unused]> R).
  set (dir' := set_lfd_dfree n (lf_dir (Lf_data d0))). set (R2 := <[0 := enc_lfdir dir']> R1).
  assert (lfdir_wf dir') as Hw'.
  { destruct Hw. split; try done. cbn. unfold int32. lia. }
  assert (disk_upd ns [] [n] R R1) as Hu1 by (apply disk_upd_db; [done|lia|apply enc_free_len|by left]).
  assert (disk_upd ns [] [n] R1 R2) as Hu2 by (apply disk_upd_dir; [done|apply Hu1|done]).
  exists R2. split; [|split; [by eapply disk_upd_trans|]].
  - unfold lfdbfree. eapply runs_bind; [apply runs_getdir|]. eapply runs_bind; [apply runs_setdir|].
    eapply runs_bind; [apply write_block_runs; cbn; apply Hall; lia|].
    eapply runs_bind; [apply write_dir_runs; cbn; rewrite lookup_insert_is_Some'; right; apply Hall; lia|].
    eapply runs_eq; [apply runs_ret|]. done.
  - assert (R2 !! n = Some (enc_lfdbfree (top FD) unused)) as En.
    { unfold R2, R1. rewrite lookup_insert_ne by lia. apply lookup_insert_eq. }
    intros [|k] x Hk; cbn in Hk.
    + injection Hk as <-. rewrite En. cbn [fmap option_fmap option_map]. rewrite lf_nextdb_enc by done. by destruct FD.
    + pose proof (list_elem_of_lookup_2 _ _ _ Hk) as Hx. pose proof (Hpos _ Hx).
      unfold R2, R1. rewrite !lookup_insert_ne by (lia || congruence). rewrite (Hl k x Hk). done.
Qed.

(** Entries of an index block without a data block are passed over. *)
Lemma free_nulls_runs k d : runs (free_dbs unused RAM0 (replicate k LF_DNULL)) d tt d.
Proof.
  induction k as [|k IH]; cbn [replicate free_dbs]; [apply runs_ret|].
  eapply runs_bind; [|exact IH]. rewrite bool_decide_eq_false_2 by tauto. apply runs_ret.
Qed.

(** The data blocks of an index block. *)
Lemma free_dbs_runs d0 k l : ∀ R FD,
  trunc_disk d0 R → 0 ≤ ns → (∀ n, n ∈ l → ns < n < RM_BLKS) → (∀ n, n ∈ FD → ns < n < RM_BLKS) →
  NoDup (l ++ FD) → linked (λ n, lf_nextdb <$> R !! n) FD →
  ∃ R', runs (free_dbs unused RAM0 (l ++ replicate k LF_DNULL)) (freeing d0 (top FD) R) tt (freeing d0 (top (reverse l ++ FD)) R') ∧
    disk_upd ns [] l R R' ∧ linked (λ n, lf_nextdb <$> R' !! n) (reverse l ++ FD).
Proof.
  induction l as [|n l IH]; intros R FD Hd Hns Hl HFD Hnd Hlk; cbn [free_dbs app].
  { exists R. split; [apply free_nulls_runs|]. split; [apply disk_upd_refl, Hd|done]. }
  cbn in Hnd. apply NoDup_cons in Hnd as [Hni Hnd]. rewrite not_elem_of_app in Hni. destruct Hni as [Hnl Hnf].
  pose proof (Hl n ltac:(by left)) as Hn. unfold RM_BLKS in Hn, HFD.
  assert (int32 (top FD)) as Htop.
  { unfold top, LF_DNULL. destruct FD as [|x FD]; cbn; [done|]. pose proof (HFD x ltac:(by left)). unfold int32. lia. }
  destruct (lfdbfree_step d0 R n FD Hd Hns ltac:(unfold RM_BLKS; lia) Hnf Htop Hlk) as (R1 & Hrun1 & Hu1 & Hlk1).
  { intros x Hx%HFD. lia. }
  destruct (IH R1 (n :: FD)) as (R2 & Hrun2 & Hu2 & Hlk2); try done.
  - by eapply trunc_disk_upd.
  - intros x Hx. apply Hl. by right.
  - intros x [->|Hx]%elem_of_cons; [unfold RM_BLKS; lia|by apply HFD].
  - rewrite <-Permutation_middle. apply NoDup_cons. split; [|done]. by rewrite not_elem_of_app.
  - rewrite reverse_cons, <-app_assoc. cbn [app]. exists R2. split; [|split; [|done]].
    + rewrite bool_decide_eq_true_2 by (unfold LF_DNULL; lia).
      eapply runs_bind; [eapply runs_bind; [exact Hrun1|apply runs_ret]|]. exact Hrun2.
    + eapply disk_upd_trans; (eapply disk_upd_weaken; [..|eassumption]); try done.
      * intros x ->%list_elem_of_singleton. by left.
      * intros x Hx. by right.
Qed.

Lemma dba_of_eq dbs k :
  dba_of dbs k = take 16 (drop (16 * k) dbs) ++ replicate (16 - length (drop (16 * k) dbs)) LF_DNULL.
Proof. unfold dba_of. rewrite take_app, take_replicate. do 2 f_equal. lia. Qed.

(** ** The loop over the index blocks *)

Definition freed_ib (next : Z) : lfiblk := Lfiblk next 0 (replicate 16 LF_DNULL).

(** The free list of the data blocks when [k] index blocks have been freed. *)
Definition freed_dbs (dbs : list Z) (k : nat) (FD : list Z) : list Z := reverse (take (16 * k) dbs) ++ FD.

Lemma freed_dbs_S dbs k FD :
  freed_dbs dbs (S k) FD = reverse (take 16 (drop (16 * k) dbs)) ++ freed_dbs dbs k FD.
Proof.
  unfold freed_dbs. rewrite app_assoc, <-reverse_app. do 2 f_equal.
  replace (16 * S k)%nat with (16 * k + 16)%nat by lia. symmetry. apply take_take_drop.
Qed.

(** What the loop needs: block [i] of the file is on the disk for [k <= i]. *)
Record trunc_inv (d0 : devstate) (R : gmap Z (list Z)) (fl : lfile) (FI FD : list Z) (k : nat) : Prop := Trunc_inv {
  ti_disk : trunc_disk d0 R;
  ti_dev : lf_dskdev (Lf_data d0) = RAM0;
  ti_ibs : ∀ i n, (k ≤ i)%nat → fl_ibs fl !! i = Some n → ib_at R n = Some (iblock_of fl i);
  ti_freed : ∀ i n, (i < k)%nat → fl_ibs fl !! i = Some n →
    ib_at R n = Some (freed_ib (default (default LF_INULL (head FI)) (fl_ibs fl !! S i)));
  ti_list : linked (λ n, lf_nextdb <$> R !! n) (freed_dbs (fl_dbs fl) k FD) }.

(** The blocks of the file and the free ones, all different and in their areas. *)
Record trunc_lists (fl : lfile) (FI FD : list Z) : Prop := Trunc_lists {
  tl_ns : 0 ≤ ns < RM_BLKS;
  tl_iarea : ∀ n, n ∈ fl_ibs fl ++ FI → 0 ≤ n < 7 * ns;
  tl_darea : ∀ n, n ∈ fl_dbs fl ++ FD → ns < n < RM_BLKS;
  tl_inodup : NoDup (fl_ibs fl ++ FI);
  tl_dnodup : NoDup (fl_dbs fl ++ FD) }.

Lemma freed_dbs_perm dbs k FD : take 16 (drop (16 * k) dbs) ++ freed_dbs dbs k FD ≡ₚ take (16 * S k) dbs ++ FD.
Proof.
  unfold freed_dbs. rewrite reverse_Permutation, app_assoc.
  replace (16 * S k)%nat with (16 * k + 16)%nat by lia. rewrite <-(take_take_drop dbs (16 * k) 16).
  by rewrite (Permutation_app_comm (take 16 _)).
Qed.

Lemma trunc_step d0 R fl FI FD k n :
  trunc_lists fl FI FD → trunc_inv d0 R fl FI FD k → fl_ibs fl !! k = Some n →
  let next := default (default LF_INULL (head FI)) (fl_ibs fl !! S k) in
  ∃ R', (∀ (g : Z → M unit) d',
      runs (g next) (freeing d0 (top (freed_dbs (fl_dbs fl) (S k) FD)) R') tt d' →
      runs (B ← lfibget RAM0 n; free_dbs unused RAM0 (ib_dba B);;
        let next := if bool_decide (ib_next B = LF_INULL) then default LF_INULL (head FI) else ib_next B in
        _ ← lfibput RAM0 n (Lfiblk next 0 (replicate (Z.to_nat LF_IBLEN) LF_DNULL)); g next)
      (freeing d0 (top (freed_dbs (fl_dbs fl) k FD)) R) tt d') ∧
    disk_upd ns [n] (take 16 (drop (16 * k) (fl_dbs fl))) R R' ∧ trunc_inv d0 R' fl FI FD (S k).
Proof.
  intros [Hns Hia Hda Hin Hdn] [Hd Hdev Hib Hfr Hl] Hk next.
  pose proof (list_elem_of_lookup_2 _ _ _ Hk) as Hn. set (l := take 16 (drop (16 * k) (fl_dbs fl))) in *.
  pose proof (freed_dbs_perm (fl_dbs fl) k FD) as Hperm. fold l in Hperm.
  assert (∀ x, x ∈ l ++ freed_dbs (fl_dbs fl) k FD → x ∈ fl_dbs fl ++ FD) as Hsub.
  { intros x. rewrite Hperm, !elem_of_app. intros [Hx|Hx]; [left; by eapply elem_of_take in Hx as (? & ? & _); eapply list_elem_of_lookup_2|by right]. }
  destruct (free_dbs_runs d0 (16 - length (drop (16 * k) (fl_dbs fl))) l R (freed_dbs (fl_dbs fl) k FD) Hd ltac:(lia)) as (R1 & Hrun1 & Hu1 & Hl1).
  { intros x Hx. apply Hda, Hsub. rewrite elem_of_app. by left. }
  { intros x Hx. apply Hda, Hsub. rewrite elem_of_app. by right. }
  { rewrite Hperm. eapply sublist_NoDup; [exact Hdn|]. apply sublist_app; [apply sublist_take|done]. }
  { done. }
  pose proof (freed_dbs_S (fl_dbs fl) k FD) as El. fold l in El. rewrite <-El in Hrun1, Hl1.
  assert (iblk_wf (freed_ib next)) as Hwf.
  { split; [|done| |done]; cbn; [|by repeat (apply Forall_cons; split; [done|])].
    enough (-1 ≤ next < 7 * ns) by (unfold RM_BLKS, int32 in *; lia). unfold next, LF_INULL.
    destruct (fl_ibs fl !! S k) as [x|] eqn:Ex; cbn.
    - apply list_elem_of_lookup_2 in Ex. assert (0 ≤ x < 7 * ns); [|lia]. apply Hia. rewrite elem_of_app. by left.
    - pose proof (Hia n ltac:(rewrite elem_of_app; by left)). apply head_range; [lia|lia|]. intros x Hx.
      assert (0 ≤ x < 7 * ns); [|lia]. apply Hia. rewrite elem_of_app. by right. }
  assert (0 ≤ n < 7 * ns) as Hnr by (apply Hia; rewrite elem_of_app; by left).
  pose proof (ib2sect_range ns n Hnr) as Hsec. pose proof (trunc_disk_upd _ _ _ _ _ Hd Hu1) as Hd1.
  assert (disk_upd ns [n] [] R1 (put_ib n (freed_ib next) R1)) as Hu2 by (apply disk_upd_ib; [apply Hd1|done|done|by left]).
  set (R2 := put_ib n (freed_ib next) R1) in *.
  assert (disk_upd ns [n] l R R2) as Hu.
  { eapply disk_upd_trans; (eapply disk_upd_weaken; [..|eassumption]); try done; intros x Hx; by apply not_elem_of_nil in Hx. }
  exists R2. split; [|split; [done|split; [by eapply trunc_disk_upd|done|..]]].
  - intros g d' Hg. eapply runs_bind; [apply lfibget_runs; cbn; by apply Hib|]. cbn [iblock_of ib_dba ib_next].
    rewrite dba_of_eq. eapply runs_bind; [exact Hrun1|]. cbv zeta.
    assert ((if bool_decide (default LF_INULL (fl_ibs fl !! S k) = LF_INULL) then default LF_INULL (head FI)
      else default LF_INULL (fl_ibs fl !! S k)) = next) as ->.
    { unfold next. destruct (fl_ibs fl !! S k) as [x|] eqn:Ex; cbn; [|done]. rewrite bool_decide_eq_false_2; [done|].
      apply list_elem_of_lookup_2 in Ex. assert (0 ≤ x < 7 * ns); [|unfold LF_INULL; lia]. apply Hia. rewrite elem_of_app. by left. }
    eapply runs_bind; [apply lfibput_runs; cbn; apply (td_all _ _ Hd1); lia|]. exact Hg.
  - intros i x Hi Hx. rewrite (du_ib _ _ _ _ _ Hu); [apply Hib; [lia|done]|..].
    + apply Hia. rewrite elem_of_app. left. by eapply list_elem_of_lookup_2.
    + intros ->%list_elem_of_singleton. apply NoDup_app in Hin as (Hin & _). pose proof (NoDup_lookup _ _ _ _ Hin Hx Hk). lia.
  - intros i x Hi Hx. destruct (decide (i = k)) as [->|Hne].
    + assert (x = n) as -> by congruence. destruct (td_all _ _ Hd1 (ib2sect n) ltac:(lia)) as [b Hb].
      eapply ib_at_put; [apply Hd1|lia|done|exact Hb].
    + rewrite (du_ib _ _ _ _ _ Hu); [apply Hfr; [lia|done]|..].
      * apply Hia. rewrite elem_of_app. left. by eapply list_elem_of_lookup_2.
      * intros ->%list_elem_of_singleton. apply NoDup_app in Hin as (Hin & _). pose proof (NoDup_lookup _ _ _ _ Hin Hx Hk). lia.
  - apply blocks_linked_ext with (λ n, lf_nextdb <$> R1 !! n); [|exact Hl1]. intros x Hx.
    rewrite (du_db _ _ _ _ _ Hu2); [done| |apply not_elem_of_nil]. apply Hda, Hsub.
    rewrite El, elem_of_app, elem_of_reverse in Hx. by rewrite elem_of_app.
Qed.

(** The list is followed to the free list, where it ends. *)
Lemma trunc_loop_runs d0 fl FI FD c : ∀ k R fuel,
  trunc_lists fl FI FD → trunc_inv d0 R fl FI FD k → (c + k = length (fl_ibs fl))%nat → (c ≤ fuel)%nat →
  ∃ R', runs (trunc_loop unused fuel RAM0 (default (default LF_INULL (head FI)) (fl_ibs fl !! k)) (default LF_INULL (head FI)))
      (freeing d0 (top (freed_dbs (fl_dbs fl) k FD)) R) tt
      (freeing d0 (top (freed_dbs (fl_dbs fl) (length (fl_ibs fl)) FD)) R') ∧
    disk_upd ns (fl_ibs fl) (fl_dbs fl) R R' ∧ trunc_inv d0 R' fl FI FD (length (fl_ibs fl)).
Proof.
  induction c as [|c IH]; intros k R fuel Hl HR Hc Hf.
  { assert (k = length (fl_ibs fl)) as -> by lia. exists R. rewrite (lookup_ge_None_2 (fl_ibs fl)) by lia. cbn [default from_option].
    split; [|split; [apply disk_upd_refl, HR|done]].
    destruct fuel; cbn [trunc_loop]; rewrite bool_decide_eq_true_2 by done; apply runs_ret. }
  destruct fuel as [|fuel]; [lia|]. destruct (lookup_lt_is_Some_2 (fl_ibs fl) k) as [n Hn]; [lia|]. rewrite Hn.
  cbn [default from_option id trunc_loop].
  destruct (trunc_step d0 R fl FI FD k n Hl HR Hn) as (R1 & Hstep & Hu1 & HR1).
  destruct (IH (S k) R1 fuel Hl HR1 ltac:(lia) ltac:(lia)) as (R2 & Hrun & Hu2 & HR2).
  exists R2. split; [|split; [|done]].
  - rewrite bool_decide_eq_false_2; [by apply (Hstep (λ x, trunc_loop unused fuel RAM0 x _))|].
    intros ->. pose proof (tl_inodup _ _ _ Hl) as Hnd. apply NoDup_app in Hnd as (_ & Hnd & _).
    pose proof (list_elem_of_lookup_2 _ _ _ Hn) as Hin. pose proof (tl_iarea _ _ _ Hl _ (proj2 (elem_of_app _ _ _) (or_introl Hin))) as Hr.
    destruct FI as [|x FI]; cbn in *; [unfold LF_INULL in Hr; lia|]. apply (Hnd x Hin). by left.
  - eapply disk_upd_trans; [|exact Hu2]. eapply disk_upd_weaken; [| |exact Hu1].
    + intros x ->%list_elem_of_singleton. by eapply list_elem_of_lookup_2.
    + intros x Hx. apply list_elem_of_lookup in Hx as [q Hq]. apply lookup_take_Some in Hq as [Hq _].
      rewrite lookup_drop in Hq. by eapply list_elem_of_lookup_2.
Qed.

(** ** The blocks of the file are free *)

Lemma apart_intro L :
  (∀ j, NoDup (L j)) → (∀ i j n, i ≠ j → n ∈ L i → n ∉ L j) → apart L.
Proof.
  intros Hnd Hdis j1 j2 k1 k2 n H1 H2. destruct (decide (j1 = j2)) as [<-|Hne].
  - split; [done|]. by eapply NoDup_lookup.
  - exfalso. eapply (Hdis j1 j2 n Hne); by eapply list_elem_of_lookup_2.
Qed.

Lemma apart_release L L' j l :
  j ≠ -1 → (∀ i, i ≠ j → i ≠ -1 → L' i = L i) → L' (-1) = l ++ L (-1) → l ≡ₚ L j → L' j = [] → apart L → apart L'.
Proof.
  intros Hj Ho Hf Hp Hn HL.
  assert (∀ i n, n ∈ L' i → (i = -1 ∧ n ∈ L j) ∨ (i ≠ j ∧ n ∈ L i)) as Hc.
  { intros i n Hin. destruct (decide (i = -1)) as [->|Hi].
    - rewrite Hf, Hp, elem_of_app in Hin. destruct Hin; [by left|]. right. split; [congruence|done].
    - destruct (decide (i = j)) as [->|Hij]; [rewrite Hn in Hin; by apply not_elem_of_nil in Hin|].
      right. split; [done|]. by rewrite <-Ho. }
  apply apart_intro.
  - intros i. destruct (decide (i = -1)) as [->|Hi].
    + rewrite Hf, Hp. apply NoDup_app. split; [by apply apart_NoDup|]. split; [|by apply apart_NoDup].
      intros n. by apply apart_disjoint.
    + destruct (decide (i = j)) as [->|Hij]; [rewrite Hn; constructor|]. rewrite Ho by done. by apply apart_NoDup.
  - intros i i' n Hne H1 H2. destruct (Hc i n H1) as [[-> A1]|[B1 A1]], (Hc i' n H2) as [[-> A2]|[B2 A2]]; try done.
    + by eapply (apart_disjoint L j i' n).
    + by eapply (apart_disjoint L i j n).
    + by eapply (apart_disjoint L i i' n).
Qed.

(** The lists after the file has given up its blocks. *)
Lemma lists_released d F OP FI FD j fl R' :
  fs_rep ns d F OP FI FD → F !! j = Some fl → trunc_inv d R' fl FI FD (length (fl_ibs fl)) →
  (length (fl_dbs fl) ≤ 16 * length (fl_ibs fl))%nat → disk_upd ns (fl_ibs fl) (fl_dbs fl) (Ram d) R' →
  lists_ok ns R' (<[j := empty_file]> F) (fl_ibs fl ++ FI) (reverse (fl_dbs fl) ++ FD) ∧ others_kept (Ram d) R' F j.
Proof.
  intros Hr Hfl [_ _ _ Hfr Hlk] Hlen Hu. pose proof (fs_file_range _ _ _ _ _ _ _ _ Hr Hfl) as Hj.
  assert (j ≠ -1) as Hj1 by lia. pose proof (fs_lists _ _ _ _ _ _ Hr) as [Ai Ad Ri Rd Li Ld].
  pose proof (ilists_file F FI j fl Hj1 Hfl) as Eij. pose proof (dlists_file F FD j fl Hj1 Hfl) as Edj.
  unfold freed_dbs in Hlk. rewrite take_ge in Hlk by done.
  assert (∀ i, i ≠ j → i ≠ -1 → ilists (<[j := empty_file]> F) (fl_ibs fl ++ FI) i = ilists F FI i) as Eio by (intros; by apply ilists_other).
  assert (∀ i, i ≠ j → i ≠ -1 → dlists (<[j := empty_file]> F) (reverse (fl_dbs fl) ++ FD) i = dlists F FD i) as Edo by (intros; by apply dlists_other).
  assert (ilists (<[j := empty_file]> F) (fl_ibs fl ++ FI) j = []) as Ein by (rewrite (ilists_file _ _ j empty_file); [done|done|apply lookup_insert_eq]).
  assert (dlists (<[j := empty_file]> F) (reverse (fl_dbs fl) ++ FD) j = []) as Edn by (rewrite (dlists_file _ _ j empty_file); [done|done|apply lookup_insert_eq]).
  split; [split|].
  - eapply (apart_release (ilists F FI) _ j (fl_ibs fl)); try done. by rewrite Eij.
  - eapply (apart_release (dlists F FD) _ j (reverse (fl_dbs fl))); try done. by rewrite reverse_Permutation, Edj.
  - intros i n Hn. destruct (decide (i = -1)) as [->|Hi].
    + rewrite ilists_free, elem_of_app in Hn. destruct Hn as [Hn|Hn]; [apply (Ri j); by rewrite Eij|by apply (Ri (-1))].
    + destruct (decide (i = j)) as [->|Hij]; [rewrite Ein in Hn; by apply not_elem_of_nil in Hn|].
      rewrite Eio in Hn by done. by apply (Ri i).
  - intros i n Hn. destruct (decide (i = -1)) as [->|Hi].
    + rewrite dlists_free, elem_of_app, elem_of_reverse in Hn. destruct Hn as [Hn|Hn]; [apply (Rd j); by rewrite Edj|by apply (Rd (-1))].
    + destruct (decide (i = j)) as [->|Hij]; [rewrite Edn in Hn; by apply not_elem_of_nil in Hn|].
      rewrite Edo in Hn by done. by apply (Rd i).
  - intros k n Hk. destruct (decide (k < length (fl_ibs fl))%nat) as [Hlt|Hge].
    + rewrite lookup_app_l in Hk by done. rewrite (Hfr k n Hlt Hk). cbn [fmap option_fmap option_map freed_ib ib_next]. f_equal.
      destruct (fl_ibs fl !! S k) as [x|] eqn:Ex; cbn.
      * by rewrite lookup_app_l, Ex by (by eapply lookup_lt_Some).
      * apply lookup_ge_None in Ex. rewrite lookup_app_r by done. assert (S k - length (fl_ibs fl) = 0)%nat as -> by lia. by destruct FI.
    + rewrite lookup_app_r in Hk by lia. rewrite (du_ib _ _ _ _ _ Hu).
      * rewrite (Li _ _ Hk). f_equal. rewrite lookup_app_r by lia. do 2 f_equal. lia.
      * apply (Ri (-1)). by eapply list_elem_of_lookup_2.
      * rewrite <-Eij. eapply (apart_disjoint _ (-1) j); [done|congruence|]. by eapply list_elem_of_lookup_2.
  - exact Hlk.
  - intros i fi Hij Hi. pose proof (fs_file_range _ _ _ _ _ _ _ _ Hr Hi). split; intros n Hn.
    + apply (du_ib _ _ _ _ _ Hu); [apply (Ri i); by rewrite (ilists_file _ _ i fi) by (done || lia)|].
      rewrite <-Eij. eapply (apart_disjoint _ i j); [done|done|]. by rewrite (ilists_file _ _ i fi) by (done || lia).
    + apply (du_db _ _ _ _ _ Hu); [apply (Rd i); by rewrite (dlists_file _ _ i fi) by (done || lia)|].
      rewrite <-Edj. eapply (apart_disjoint _ i j); [done|done|]. by rewrite (dlists_file _ _ i fi) by (done || lia).
Qed.

(** ** lftruncate *)

(** The control block of a file without blocks. *)
Definition cut (f : lflcblk) : lflcblk :=
  set_lfbyte LF_BLKSIZ (set_lfdnum LF_DNULL (set_lfinum LF_INULL (set_lfpos 0 f))).
Definition cut_entry (ld : ldentry) : ldentry := set_ld_size 0 (set_ld_ilist LF_INULL ld).

(** The variables when the loop starts. *)
Definition cut_dev (m j : Z) (f : lflcblk) (ld : ldentry) (d : devstate) : devstate :=
  set_lfltab (<[m := cut f]> (lfltab d)) (set_Lf_data (set_lf_dirdirty true (set_lf_dir (set_lfd_files
    (<[Z.to_nat j := cut_entry ld]> (lfd_files (lf_dir (Lf_data d)))) (lf_dir (Lf_data d))) (Lf_data d))) d).

(** The variables at the end. *)
Definition truncated (m j : Z) (f : lflcblk) (ld : ldentry) (fl : lfile) (FD : list Z) (R : gmap Z (list Z)) (d : devstate) : devstate :=
  let d := freeing (cut_dev m j f ld d) (top (reverse (fl_dbs fl) ++ FD)) R in
  set_Lf_data (set_lf_dirdirty true (set_lf_dir (set_lfd_ifree (ld_ilist ld) (lf_dir (Lf_data d))) (Lf_data d))) d.

(** The blocks that have changed are written first. *)
Definition written_back (m : Z) (f : lflcblk) (d : devstate) : devstate :=
  if lfibdirty f || lfdbdirty f then flushed m f d else d.

Lemma written_back_step d F OP FI FD j m fl f :
  open_at ns d F OP FI FD j m fl f →
  runs (if lfibdirty f || lfdbdirty f then _ ← lfflush m; ret tt else ret tt) d tt (written_back m f d) ∧
  open_at ns (written_back m f d) F OP FI FD j m fl (clean f) ∧ dev_frame m d (written_back m f d).
Proof.
  intros HO. unfold written_back. destruct (lfibdirty f || lfdbdirty f) eqn:E.
  - destruct (flush_step ns _ _ _ _ _ _ _ _ _ HO) as [Hrun HO2].
    split; [eapply runs_bind; [exact Hrun|apply runs_ret]|]. split; [done|].
    destruct (flush_dir_lf d) as (E1 & E2 & E3). split; cbn; rewrite ?E1, ?E2, ?E3; try done;
      try (unfold flush_dir; by destruct (lf_dirdirty _)). intros i Hi. by rewrite lookup_insert_ne.
  - apply orb_false_iff in E as [E1 E2]. rewrite clean_id by done. split; [apply runs_ret|done].
Qed.

Lemma written_back_dir m f d : lf_dir (Lf_data (written_back m f d)) = lf_dir (Lf_data d).
Proof. unfold written_back. destruct (_ || _); [|done]. cbn. apply flush_dir_lf. Qed.

Lemma trunc_start d F OP FI FD j m fl f ld :
  open_at ns d F OP FI FD j m fl f → lfibdirty f = false → lfdbdirty f = false → entry d j = Some ld →
  trunc_lists fl FI FD ∧ trunc_inv (cut_dev m j f ld d) (Ram d) fl FI FD 0.
Proof.
  intros HO Hi Hd Hld. pose proof (oa_range _ _ _ _ _ _ _ _ _ _ HO) as Hj. assert (j ≠ -1) as Hj1 by lia.
  pose proof HO as [Hr Hfl Hop Hf]. destruct (oa_at _ _ _ _ _ _ _ _ _ _ HO) as (ld' & Hld' & [W1 W2 W3] & Hat).
  assert (ld' = ld) as -> by congruence. pose proof (clean_on_disk _ _ _ _ _ _ _ _ _ _ _ HO Hi Hd Hat) as Hon.
  pose proof (ilists_file F FI j fl Hj1 Hfl) as Eij. pose proof (dlists_file F FD j fl Hj1 Hfl) as Edj.
  split; [split|split].
  - apply Hr.
  - intros n. rewrite elem_of_app, <-Eij. intros [Hn|Hn]; [by apply (fr_iarea _ _ _ _ _ _ Hr j)|by apply (fr_iarea _ _ _ _ _ _ Hr (-1))].
  - intros n. rewrite elem_of_app, <-Edj. intros [Hn|Hn]; [by apply (fr_darea _ _ _ _ _ _ Hr j)|by apply (fr_darea _ _ _ _ _ _ Hr (-1))].
  - pose proof (fr_iapart _ _ _ _ _ _ Hr) as Ha. apply NoDup_app. split; [rewrite <-Eij; by apply apart_NoDup|].
    split; [|by apply (apart_NoDup _ (-1)) in Ha]. intros n. rewrite <-Eij. by apply (apart_disjoint (ilists F FI) j (-1)).
  - pose proof (fr_dapart _ _ _ _ _ _ Hr) as Ha. apply NoDup_app. split; [rewrite <-Edj; by apply apart_NoDup|].
    split; [|by apply (apart_NoDup _ (-1)) in Ha]. intros n. rewrite <-Edj. by apply (apart_disjoint (dlists F FD) j (-1)).
  - split; [apply Hr|intros; by apply (fr_all _ _ _ _ _ _ Hr)|]. destruct (fr_dir _ _ _ _ _ _ Hr). split; try done; cbn.
    + apply Forall_insert; [done|by split].
    + by rewrite length_insert.
  - apply Hr.
  - intros i n _ Hn. apply (fa_ibs _ _ _ _ Hon i n Hn).
  - intros i n Hlt. lia.
  - apply (fr_dlist _ _ _ _ _ _ Hr).
Qed.

Lemma freeing_id d FD R :
  lfd_dfree (lf_dir (Lf_data d)) = top FD → Ram d = R → freeing d (top FD) R = d.
Proof. intros <- <-. unfold freeing. destruct d as [? ? ? [? ? [] ? ?] ?]. reflexivity. Qed.

Lemma freed_all fl FD : (length (fl_dbs fl) ≤ 16 * length (fl_ibs fl))%nat →
  freed_dbs (fl_dbs fl) (length (fl_ibs fl)) FD = reverse (fl_dbs fl) ++ FD.
Proof. intros Hl. unfold freed_dbs. by rewrite take_ge. Qed.

Lemma lftruncate_runs d F OP FI FD j m fl f ld :
  open_at ns d F OP FI FD j m fl f → entry d j = Some ld → ld_size ld ≠ 0 → tight fl →
  ∃ R', let d1 := written_back m f d in let d' := truncated m j (clean f) ld fl FD R' d1 in
    runs (lftruncate unused m) d OK d' ∧ dev_frame m d d' ∧
    open_at ns d' (<[j := empty_file]> F) OP (fl_ibs fl ++ FI) (reverse (fl_dbs fl) ++ FD) j m empty_file (cut (clean f)).
Proof.
  intros HO Hld Hsz Htight. pose proof (oa_range _ _ _ _ _ _ _ _ _ _ HO) as Hj.
  destruct (written_back_step _ _ _ _ _ _ _ _ _ HO) as (Hrun1 & HO1 & Hfr1). set (d1 := written_back m f d) in *.
  pose proof (oa_ok _ _ _ _ _ _ _ _ _ _ HO) as Hok. pose proof HO as [Hr Hfl Hop Hf].
  assert (lf_dir (Lf_data d1) = lf_dir (Lf_data d)) as Edir by apply written_back_dir.
  assert (entry d1 j = Some ld) as Hld1 by (unfold entry; by rewrite Edir).
  destruct (trunc_start d1 F OP FI FD j m fl (clean f) ld HO1 eq_refl eq_refl Hld1) as [Hl Hi].
  pose proof HO1 as [Hr1 _ _ Hf1].
  destruct (oa_at _ _ _ _ _ _ _ _ _ _ HO1) as (ld' & Hld' & Hw & Hat). assert (ld' = ld) as -> by congruence.
  pose proof (fr_ifree _ _ _ _ _ _ Hr1) as Eif. pose proof (fr_dfree _ _ _ _ _ _ Hr1) as Edf.
  destruct (trunc_loop_runs (cut_dev m j (clean f) ld d1) fl FI FD (length (fl_ibs fl)) 0 (Ram d1) trunc_fuel Hl Hi) as (R' & Hrun2 & Hu & Hi2).
  { lia. }
  { pose proof (oa_ibs_len _ _ _ _ _ _ _ _ _ _ HO1). unfold trunc_fuel, RM_BLKS. lia. }
  pose proof (fa_index _ _ _ _ Hat) as Hidx. rewrite (freed_all fl FD Hidx) in Hrun2.
  assert (default (default LF_INULL (head FI)) (fl_ibs fl !! 0%nat) = ld_ilist ld) as Efirst.
  { rewrite (fa_ilist _ _ _ _ Hat). destruct (fl_ibs fl) as [|x l] eqn:Ex; [|done]. exfalso.
    pose proof (fa_fits _ _ _ _ Hat). pose proof (fa_size _ _ _ _ Hat). cbn in *. lia. }
  rewrite Efirst, (freeing_id (cut_dev m j (clean f) ld d1) (freed_dbs (fl_dbs fl) 0 FD) (Ram d1)) in Hrun2 by done.
  exists R'. cbv zeta. split; [|split].
  - unfold lftruncate. eapply runs_bind; [by apply runs_getlfl|].
    eapply runs_bind; [by apply runs_getptr, Hok|].
    eapply runs_bind; [apply runs_getent; [lia|exact Hld]|]. rewrite bool_decide_eq_false_2 by done.
    eapply runs_bind; [exact Hrun1|].
    eapply runs_bind; [by apply runs_setlfl|].
    eapply runs_bind; [apply runs_setlfl; cbn; apply lookup_insert_eq|]. cbn [lfltab set_lfltab]. rewrite insert_insert_eq.
    eapply runs_bind; [apply runs_setlfl; cbn; apply lookup_insert_eq|]. cbn [lfltab set_lfltab]. rewrite insert_insert_eq.
    eapply runs_bind; [apply runs_setlfl; cbn; apply lookup_insert_eq|]. cbn [lfltab set_lfltab]. rewrite insert_insert_eq.
    eapply runs_bind; [apply runs_getlf|]. cbv zeta. cbn [Lf_data set_lfltab]. rewrite Eif, (fr_dev _ _ _ _ _ _ Hr1).
    eapply runs_bind; [apply runs_getent; [lia|exact Hld1]|].
    eapply runs_bind; [apply runs_setent; [lia|exact Hld1]|].
    eapply runs_bind; [apply runs_setent; [lia|cbn; apply list_lookup_insert_eq; exact (lookup_lt_Some _ _ _ Hld1)]|].
    eapply runs_bind; [apply runs_setlf|].
    eapply (runs_at _ _ (cut_dev m j (clean f) ld d1)); [unfold cut_dev; cbn; by rewrite list_insert_insert_eq|].
    eapply runs_bind; [|eapply runs_bind; [apply runs_setdir|eapply runs_bind; [apply runs_setlf|apply runs_ret]]].
    exact Hrun2.
  - etrans; [exact Hfr1|]. split; try done.
    + intros i Hi'. cbn. by rewrite lookup_insert_ne.
    + cbn. by eapply names_insert.
  - destruct (lists_released d1 F OP FI FD j fl R' Hr1 Hfl) as [Hlk Hoth]; [|done|done|].
    { destruct Hi2 as [I1 I2 I3 I4 I5]. destruct I1. split; try done. split; [done|done|apply Hr1]. }
    assert (truncated_dir_ok : lf_dir (Lf_data (truncated m j (clean f) ld fl FD R' d1)) =
      upd_dir j (cut_entry ld) (fl_ibs fl ++ FI) (reverse (fl_dbs fl) ++ FD) (lf_dir (Lf_data d1))).
    { unfold truncated, upd_dir. cbn. rewrite <-Efirst. destruct (lf_dir (Lf_data d1)). cbn. unfold set_lfd_ifree, set_lfd_dfree, set_lfd_files. cbn.
      f_equal. by destruct (fl_ibs fl). }
    split; [|apply lookup_insert_eq|done|cbn; apply lookup_insert_eq].
    eapply (fs_change ns d1 _ F OP FI _ FD _ j m fl empty_file (cut (clean f)) (cut_entry ld)); try done.
    + apply Hr1.
    + apply Hu.
    + intros k Hk. by apply (du_dom _ _ _ _ _ Hu).
    + apply Hw.
    + destruct Hok. split; cbn; try done; try (by left). by intros _ ?%not_elem_of_nil.
Qed.

Lemma empty_tight fl : tight fl → fl_data fl = [] → fl = empty_file.
Proof.
  destruct fl as [ibs dbs data]. unfold tight. cbn. intros [H1 H2] ->. destruct dbs; [|cbn in H1; lia].
  destruct ibs; [|cbn in H2; lia]. done.
Qed.

(** ** lflcontrol *)

Lemma lflcontrol_spec Q s F OP FI FD j m fl f a1 a2 :
  lfs_ok ns Q s F OP FI FD → at_pos s F OP j m fl f →
  ∃ d' f', lflcontrol unused m LF_CTL_TRUNC a1 a2 s = Done OK (set_dev d' s) ∧
    lfs_ok ns Q (set_dev d' s) (<[j := empty_file]> F) OP (fl_ibs fl ++ FI) (reverse (fl_dbs fl) ++ FD) ∧
    at_pos (set_dev d' s) (<[j := empty_file]> F) OP j m empty_file f' ∧ dev_frame m (dev s) d' ∧ pos_of f' = 0%nat.
Proof.
  intros HL HA. pose proof (lfs_open_at _ _ _ _ _ _ _ _ _ _ _ HL HA) as HO. pose proof HA as (Hfl & Hop & Hf).
  pose proof (oa_ok _ _ _ _ _ _ _ _ _ _ HO) as Hok. pose proof (oa_range _ _ _ _ _ _ _ _ _ _ HO) as Hj.
  destruct (oa_at _ _ _ _ _ _ _ _ _ _ HO) as (ld & Hld & _ & Hat).
  destruct (inside_call _ _ _ _ _ _ _ _ _ _ _ HL HA) as (HQ1 & Hm1 & Hsig).
  pose proof (lo_tight _ _ _ _ _ _ _ HL _ _ Hfl) as Ht.
  set (s1 := lock (lfmutex f) s) in *. set (sem := lf_mutex (Lf_data (dev s1))) in *.
  destruct (wait_lock Q s1 sem HQ1 Hm1) as [Ew _].
  pose proof (λ d, signal_unlock Q s1 sem d HQ1 Hm1) as Esig. set (s2 := lock sem s1) in *.
  assert (∀ d', runs (lftruncate unused m) (dev s) OK d' →
    lflcontrol unused m LF_CTL_TRUNC a1 a2 s = Done OK (set_dev d' s)) as Hcall.
  { intros d' Hrun. unfold lflcontrol. erewrite (enter_call _ _ _ _ _ _ _ _ _ _ _ _ HL HA). fold s1.
    rewrite bool_decide_eq_false_2 by (rewrite (cb_used _ _ _ _ Hok); by intros []).
    rewrite bool_decide_eq_true_2 by done.
    rewrite M_bind_eq, (runs_getlf (dev s1) s1 eq_refl), set_dev_id. cbn [obind]. fold sem.
    rewrite M_bind_eq, Ew. cbn [obind]. rewrite M_bind_eq, (Hrun s2 eq_refl). cbn [obind].
    rewrite M_bind_eq, Esig. cbn [obind]. by rewrite M_bind_eq, Hsig. }
  destruct (decide (ld_size ld = 0)) as [Hz|Hnz].
  - assert (fl_data fl = []) as Hnil.
    { pose proof (fa_size _ _ _ _ Hat). destruct (fl_data fl); [done|]. cbn in *. lia. }
    pose proof (empty_tight fl Ht Hnil) as ->. rewrite (insert_id F j empty_file) by done.
    exists (dev s), f. rewrite set_dev_id. split; [|split; [done|split; [done|split; [done|]]]].
    + rewrite <-(set_dev_id s) at 2. apply Hcall. unfold lftruncate.
      eapply runs_bind; [by apply runs_getlfl|]. eapply runs_bind; [by apply runs_getptr, Hok|].
      eapply runs_bind; [apply runs_getent; [lia|exact Hld]|]. rewrite bool_decide_eq_true_2 by done. apply runs_ret.
    + pose proof (cb_pos _ _ _ _ Hok). unfold pos_of. cbn in *. lia.
  - destruct (lftruncate_runs (dev s) F OP FI FD j m fl f ld HO Hld Hnz Ht) as (R' & Hrun & Hfr & HO').
    eexists _, (cut (clean f)). split; [apply Hcall; exact Hrun|]. split; [|split; [|split; [exact Hfr|done]]].
    + eapply lfs_ok_update; [exact HL|apply HO'| |exact Hfr|exact Hf|apply HO'|done|done|].
      * intros i gl. rewrite lookup_insert. case_decide; [intros [= <-]; split; cbn; lia|apply HL].
      * apply (cb_len _ _ _ _ (oa_ok _ _ _ _ _ _ _ _ _ _ HO')).
    + by split_and!; try apply HO'.
Qed.

End trunc.
