(* ===== verification/Conf.v ===== *)
(** The devices of the configuration (config/conf.c, include/conf.h) and what their
    initialisation leaves: the column of devtab that sysinit goes through.  The
    drivers of this development are entries of it; the init functions of the other
    devices are a parameter. *)

From S2P Require Import Prelude Types Queue Heap ByteMem Words DevTypes Kernel KInv Sched Semaphore Device Process UserMem World Sysinit.
From S2P Require Import Tty LfsDisk Lfs Lfl.

Definition NULLDEV : Z := 5.
Definition LFILESYS : Z := 21.
Definition LFILE0 : Z := 22.

(** [devtab[d].dvinit]; [other] is the function of a device whose driver is not
    modelled (GPIO, ETHER0, NAMESPACE, RDISK, RFILESYS, RFILE and SPI). *)
Definition conf_init (other : Z → M Z) (d : Z) : M Z :=
  if bool_decide (d = CONSOLE) then ttyinit 0
  else if bool_decide (d = NULLDEV) then ionull
  else if bool_decide (d = RAM0) then raminit
  else if bool_decide (d = LFILESYS) then lfsinit
  else if bool_decide (LFILE0 ≤ d < LFILE0 + Nlfl) then lflinit (d - LFILE0) d
  else other d.

(** ** What a device has after its initialisation *)

(** The semaphores that belong to a device, with their counts. *)
Definition dev_sems (D : devstate) (d : Z) : list (Z * Z) :=
  if bool_decide (d = CONSOLE) then
    match ttytab D !! 0 with Some t => [(tyisem t, 0); (tyosem t, TY_OBUFLEN)] | None => [] end
  else if bool_decide (d = LFILESYS) then [(lf_mutex (Lf_data D), 1)]
  else if bool_decide (LFILE0 ≤ d < LFILE0 + Nlfl) then
    match lfltab D !! (d - LFILE0) with Some f => [(lfmutex f, 1)] | None => [] end
  else [].

(** The rest of its control block. *)
Definition dev_ready (D : devstate) (d : Z) : Prop :=
  (d = CONSOLE → ∃ isem osem ib ob eb,
    ttytab D !! 0 = Some (Ttycblk (Ring 0 0 ib) isem (Ring 0 0 ob) osem (Ring 0 0 eb) TY_IMCOOKED true 0 false init_opts)) ∧
  (d = RAM0 → ∀ b, 0 ≤ b < RM_BLKS → ∃ blk, Ram D !! b = Some blk ∧ length blk = 512%nat ∧
    ∀ k, (k < 512)%nat → blk !! k = hopeless !! (k mod 8)%nat) ∧
  (d = LFILESYS → ∃ mutex, Lf_data D = Lfdata LF_DISK_DEV mutex zero_dir false false) ∧
  (LFILE0 ≤ d < LFILE0 + Nlfl → ∃ f, lfltab D !! (d - LFILE0) = Some f ∧ lfstate f = LF_FREE ∧ lfdev f = d ∧
    lfdirptr f = None ∧ lfpos f = 0 ∧ lfinum f = LF_INULL ∧ lfbyte f = LF_BLKSIZ ∧ lfibdirty f = false ∧ lfdbdirty f = false).

(** After the first [n] devices: each has its control block, and all their semaphores
    are different ones in use, with these counts. *)
Definition all_sems (D : devstate) (n : Z) : list (Z * Z) := concat (dev_sems D <$> seqZ 0 n).
Record devices_ready (n : Z) (s : kst) : Prop := Devices_ready {
  dr_ready : ∀ d, 0 ≤ d < n → dev_ready (dev s) d;
  dr_distinct : NoDup (all_sems (dev s) n).*1;
  dr_sems : Forall (λ jc, semtab s !! jc.1 = Some (Sentry S_USED jc.2 (SEMQ jc.1))) (all_sems (dev s) n) }.

(** ** The semaphores in use *)

Definition in_use (e : sentry) : Prop := sstate e = S_USED.
#[export] Instance in_use_dec e : Decision (in_use e).
Proof. unfold in_use. apply _. Defined.
Definition used_sems (s : kst) : gset Z := dom (filter (λ ie, in_use ie.2) (semtab s)).

Lemma elem_of_used s i : i ∈ used_sems s ↔ ∃ e, semtab s !! i = Some e ∧ sstate e = S_USED.
Proof.
  unfold used_sems. rewrite elem_of_dom. split.
  - intros [e [He Hu]%map_lookup_filter_Some]. by exists e.
  - intros (e & He & Hu). exists e. by apply map_lookup_filter_Some.
Qed.

(** A step of the initialisation: semaphores stay in use, and at most three more are. *)
Record init_step (s s' : kst) : Prop := Init_step {
  is_booting : booting s';
  is_sems : ∀ i e, semtab s !! i = Some e → sstate e = S_USED → semtab s' !! i = Some e;
  is_count : (size (used_sems s') ≤ size (used_sems s) + 3)%nat }.

(** The contract of the other drivers: the init function returns, after such a step
    that leaves the variables of the modelled drivers alone, or it stops the processor
    (rdsinit does when the memory is exhausted). *)
Definition other_ok (m : M Z) : Prop := ∀ s, booting s →
  (∃ s', m s = Halt s') ∨
  ∃ r s', m s = Done r s' ∧ init_step s s' ∧ ttytab (dev s') = ttytab (dev s) ∧ lfltab (dev s') = lfltab (dev s) ∧
    Lf_data (dev s') = Lf_data (dev s) ∧ Ram (dev s') = Ram (dev s).

Lemma init_step_refl s : booting s → init_step s s.
Proof. intros Hs. split; [done..|lia]. Qed.

Lemma ionull_other : other_ok ionull.
Proof. intros s Hs. right. exists OK, s. split_and!; try done. by apply init_step_refl. Qed.

Lemma booting_dev s D : booting s → booting (set_dev D s).
Proof. intros [[Q HQ] Hn Hi Hq]. split; try done. exists Q. by apply InvQ_dev. Qed.

(** When every semaphore is in use, that is NSEM of them. *)
Lemma used_sems_full s :
  is_table NSEM (semtab s) → (∀ i e, semtab s !! i = Some e → sstate e = S_USED) →
  (Z.to_nat NSEM ≤ size (used_sems s))%nat.
Proof.
  intros Ht Hall.
  assert (list_to_set (seqZ 0 NSEM) ⊆ used_sems s) as Hsub%subseteq_size.
  { intros i Hi%elem_of_list_to_set%elem_of_seqZ. destruct (is_table_get _ _ i Ht ltac:(lia)) as [e He].
    apply elem_of_used. exists e. split; [done|]. by eapply Hall. }
  by rewrite size_list_to_set, length_seqZ in Hsub by apply NoDup_seqZ.
Qed.

(** Semcreate while there is a semaphore that is not in use. *)
Lemma semcreate_boot s c :
  booting s → 0 ≤ c ≤ INT_MAX → (size (used_sems s) < Z.to_nat NSEM)%nat →
  ∃ r s', semcreate c s = Done r s' ∧ booting s' ∧ dev s' = dev s ∧
    semtab s' = <[r := Sentry S_USED c (SEMQ r)]> (semtab s) ∧ (r ∉ used_sems s) ∧
    size (used_sems s') = S (size (used_sems s)).
Proof.
  intros Hs Hc Hsz. destruct (bt_inv _ Hs) as [Q HQ].
  destruct (semcreate_free Q s c HQ Hc) as [(r & e & ns & He & Hf & E & HQ')|(ns & _ & _ & Hall)].
  - assert (r ∉ used_sems s) as Hr.
    { intros (e' & He' & Hu)%elem_of_used. congruence. }
    eexists r, _. split; [exact E|]. split.
    { split; cbn; try apply Hs. apply Inv_intr. by exists Q. }
    split; [done|]. split; [done|]. split; [exact Hr|].
    unfold used_sems at 1. cbn [semtab set_intr set_semtab].
    rewrite map_filter_insert_True by done.
    rewrite dom_insert_L, size_union by set_solver. rewrite size_singleton. done.
  - exfalso. destruct HQ as (Hcore & _). pose proof (used_sems_full s (c_sems _ _ _ Hcore) Hall). lia.
Qed.

(** ** The devices one after the other *)

(** What the properties of device [d] depend on. *)
Lemma dev_sems_ext D D' d :
  (d = CONSOLE → ttytab D' = ttytab D) → (d = LFILESYS → Lf_data D' = Lf_data D) →
  (LFILE0 ≤ d < LFILE0 + Nlfl → lfltab D' !! (d - LFILE0) = lfltab D !! (d - LFILE0)) →
  dev_sems D' d = dev_sems D d.
Proof.
  intros H1 H2 H3. unfold dev_sems. case_bool_decide; [by rewrite H1|].
  case_bool_decide; [by rewrite H2|]. case_bool_decide; [by rewrite H3|done].
Qed.

Lemma dev_ready_ext D D' d :
  (d = CONSOLE → ttytab D' = ttytab D) → (d = RAM0 → Ram D' = Ram D) → (d = LFILESYS → Lf_data D' = Lf_data D) →
  (LFILE0 ≤ d < LFILE0 + Nlfl → lfltab D' !! (d - LFILE0) = lfltab D !! (d - LFILE0)) →
  dev_ready D d → dev_ready D' d.
Proof.
  intros H1 H2 H3 H4 (R1 & R2 & R3 & R4). unfold dev_ready. split_and!; intros Hd.
  - rewrite H1 by done. auto.
  - rewrite H2 by done. auto.
  - rewrite H3 by done. auto.
  - rewrite H4 by done. auto.
Qed.

Lemma all_sems_next D n : 0 ≤ n → all_sems D (n + 1) = all_sems D n ++ dev_sems D n.
Proof.
  intros Hn. unfold all_sems. rewrite (seqZ_app 0 n 1) by lia.
  replace (seqZ (0 + n) 1) with [n] by (unfold seqZ; cbn; f_equal; lia).
  rewrite fmap_app, concat_app. cbn [fmap list_fmap concat]. by rewrite app_nil_r.
Qed.

Lemma all_sems_ext D D' n :
  (∀ d, 0 ≤ d < n → dev_sems D' d = dev_sems D d) → all_sems D' n = all_sems D n.
Proof.
  intros H. unfold all_sems. f_equal. apply list_fmap_ext. intros i d Hi.
  apply H. apply list_elem_of_lookup_2, elem_of_seqZ in Hi. lia.
Qed.

(** What is known when [n] devices are initialised. *)
Definition conf_inv (n : Z) (s : kst) : Prop :=
  devices_ready n s ∧ Z.of_nat (size (used_sems s)) ≤ 3 * n ∧
  is_Some (ttytab (dev s) !! 0) ∧ is_table Nlfl (lfltab (dev s)).

(** The step for device [n]: the other devices keep what they have, and the device's
    semaphores were not in use before. *)
Lemma conf_step n s s' :
  0 ≤ n → conf_inv n s → init_step s s' →
  (∀ d, 0 ≤ d < n → dev_sems (dev s') d = dev_sems (dev s) d ∧ (dev_ready (dev s) d → dev_ready (dev s') d)) →
  dev_ready (dev s') n → NoDup (dev_sems (dev s') n).*1 →
  Forall (λ jc, (jc.1 ∉ used_sems s) ∧ semtab s' !! jc.1 = Some (Sentry S_USED jc.2 (SEMQ jc.1))) (dev_sems (dev s') n) →
  is_Some (ttytab (dev s') !! 0) → is_table Nlfl (lfltab (dev s')) →
  conf_inv (n + 1) s'.
Proof.
  intros Hn ([Hrd Hnd Hse] & Hsz & _ & _) [_ Hkeep Hcnt] Hold Hr Hd Hf Ht Hl.
  assert (all_sems (dev s') (n + 1) = all_sems (dev s) n ++ dev_sems (dev s') n) as E.
  { rewrite all_sems_next by done. f_equal. apply all_sems_ext. intros d Hd'. by apply Hold. }
  split; [split|split; [lia|done]].
  - intros d Hd'. destruct (decide (d = n)) as [->|]; [done|]. apply Hold; [lia|]. apply Hrd. lia.
  - rewrite E, fmap_app. apply NoDup_app. split; [done|]. split; [|done].
    intros j [jc [-> Hj]]%list_elem_of_fmap [jc' [Ej Hj']]%list_elem_of_fmap.
    rewrite Forall_forall in Hf, Hse. destruct (Hf _ Hj') as [Hu _]. apply Hu. rewrite <-Ej.
    apply elem_of_used. eexists. split; [by apply Hse|done].
  - rewrite E. apply Forall_app. split.
    + eapply Forall_impl; [exact Hse|]. intros [j c] Hj. by apply Hkeep.
    + eapply Forall_impl; [exact Hf|]. by intros jc [_ ?].
Qed.

(** ** The drivers *)

(** The periodic pattern that raminit copies over the disk. *)
Lemma copy_up_periodic n : ∀ i l,
  (i + n + 8 = length l)%nat → (∀ k, (k < i + 8)%nat → l !! k = hopeless !! (k mod 8)%nat) →
  ∀ k, (k < length l)%nat → copy_up n i (i + 8) l !! k = hopeless !! (k mod 8)%nat.
Proof.
  induction n as [|n IH]; intros i l Hl Hp k Hk; cbn [copy_up]; [apply Hp; lia|].
  assert (is_Some (l !! i)) as [c Hc] by (apply lookup_lt_is_Some; lia).
  apply (IH (S i)); rewrite ?length_insert; [lia| |done].
  intros k' Hk'. rewrite Hc. cbn [default]. destruct (decide (k' = i + 8)%nat) as [->|Hne].
  - rewrite list_lookup_insert_eq by lia. transitivity (l !! i); [done|]. rewrite Hp by lia.
    replace (i + 8)%nat with (i + 1 * 8)%nat by lia. by rewrite Nat.Div0.mod_add.
  - rewrite list_lookup_insert_ne by lia. apply Hp. lia.
Qed.

Lemma length_copy_up n : ∀ i j l, length (copy_up n i j l) = length l.
Proof. induction n as [|n IH]; intros i j l; cbn; [done|]. by rewrite IH, length_insert. Qed.

Lemma ram_pattern n b :
  (512 * b + 512 ≤ n)%nat → let disk := copy_up (n - 8) 0 8 (hopeless ++ replicate (n - 8) 0) in
  length (slice (512 * b) 512 disk) = 512%nat ∧
  ∀ k, (k < 512)%nat → slice (512 * b) 512 disk !! k = hopeless !! (k mod 8)%nat.
Proof.
  intros Hn disk. assert (length disk = n) as Hl.
  { unfold disk. rewrite length_copy_up, length_app, length_replicate. cbn. lia. }
  split; [apply length_slice; lia|]. intros k Hk. unfold slice. rewrite lookup_take_lt, lookup_drop by lia.
  unfold disk. rewrite (copy_up_periodic _ 0).
  - f_equal. replace (512 * b + k)%nat with (k + (64 * b) * 8)%nat by lia. by rewrite Nat.Div0.mod_add.
  - rewrite length_app, length_replicate. cbn. lia.
  - intros k' Hk'. rewrite lookup_app_l by (cbn; lia). by rewrite Nat.mod_small by lia.
  - rewrite length_app, length_replicate. cbn. lia.
Qed.

(** A step that creates a semaphore and changes the drivers' variables. *)
Lemma sem_step s s' r c D :
  booting s' → semtab s' = <[r := Sentry S_USED c (SEMQ r)]> (semtab s) → r ∉ used_sems s →
  size (used_sems s') = S (size (used_sems s)) → init_step s (set_dev D s').
Proof.
  intros Hb Hse Hr Hsz. split; [by apply booting_dev| |change (used_sems (set_dev D s')) with (used_sems s'); lia].
  cbn [semtab set_dev]. intros i e He Hu. rewrite Hse, lookup_insert_ne; [done|].
  intros ->. apply Hr, elem_of_used. by exists e.
Qed.

Lemma conf_room n s k :
  conf_inv n s → 0 ≤ n < NDEVS → (k < 3)%nat → (size (used_sems s) + k < Z.to_nat NSEM)%nat.
Proof. intros (_ & Hsz & _) Hn Hk. unfold NDEVS, NSEM in *. lia. Qed.

(** A device that changes none of the variables of the modelled drivers. *)
Lemma conf_skip n s s' :
  0 ≤ n → conf_inv n s → init_step s s' → dev_sems (dev s') n = [] → dev_ready (dev s') n →
  ttytab (dev s') = ttytab (dev s) → lfltab (dev s') = lfltab (dev s) → Lf_data (dev s') = Lf_data (dev s) →
  Ram (dev s') = Ram (dev s) ∨ n ≤ RAM0 → conf_inv (n + 1) s'.
Proof.
  intros Hn Hc Hst Hse Hr E1 E2 E3 E4. pose proof Hc as (_ & _ & Ht & Hl).
  apply (conf_step n s s' Hn Hc Hst); rewrite ?Hse; [|done|constructor|constructor|by rewrite E1|by rewrite E2].
  intros d Hd. split.
  - apply dev_sems_ext; intros _; by rewrite ?E1, ?E2, ?E3.
  - apply dev_ready_ext; intros; [by rewrite E1| |by rewrite E3|by rewrite E2]. destruct E4 as [E4|]; [done|lia].
Qed.

Lemma conf_tty s : booting s → conf_inv 0 s →
  ∃ r s', ttyinit 0 s = Done r s' ∧ booting s' ∧ conf_inv 1 s'.
Proof.
  intros Hs Hc. pose proof Hc as (_ & Hsz & [t Ht] & Hl).
  pose proof (conf_room 0 s 2 Hc ltac:(done) ltac:(lia)) as Hroom.
  destruct (semcreate_boot s 0 Hs) as (i & s1 & E1 & Hs1 & Hd1 & Hse1 & Hi & Hn1); [done|lia|].
  destruct (semcreate_boot s1 TY_OBUFLEN Hs1) as (j & s2 & E2 & Hs2 & Hd2 & Hse2 & Hj & Hn2); [done|lia|].
  assert (i ∈ used_sems s1) as Hi1.
  { apply elem_of_used. rewrite Hse1. eexists. by rewrite lookup_insert_eq. }
  assert (i ≠ j) as Hij by (by intros ->).
  unfold ttyinit. rewrite M_bind_eq, E1. cbn [obind]. rewrite M_bind_eq, E2. cbn [obind].
  unfold settty, ttyop. rewrite M_bind_eq, Hd2, Hd1, Ht. kred.
  set (t' := Ttycblk _ _ _ _ _ _ _ _ _ _).
  set (D := set_uart (set_u_ier (Z.lor UART_IER_ERBFI UART_IER_ETBEI) (uart (dev s2)))
    (set_ttytab (<[0 := t']> (ttytab (dev s2))) (dev s2))).
  exists OK, (set_dev D s2). split; [done|]. set (s3 := set_dev D s2).
  assert (booting s3) as Hs3 by (by apply booting_dev). split; [done|].
  assert (ttytab (dev s3) !! 0 = Some t') as Ht3 by apply lookup_insert_eq.
  assert (semtab s3 = semtab s2) as Hse3 by done.
  assert (dev_sems (dev s3) 0 = [(i, 0); (j, TY_OBUFLEN)]) as Hds by (unfold dev_sems; by rewrite bool_decide_eq_true_2, Ht3 by done).
  apply (conf_step 0 s s3); rewrite ?Hds; try done.
  - split; [done| |change (used_sems s3) with (used_sems s2); lia].
    intros x e He Hu. rewrite Hse3, Hse2, Hse1. assert (x ∈ used_sems s) as Hx by (apply elem_of_used; eauto).
    rewrite !lookup_insert_ne; [done|by intros ->|]. intros ->. apply Hj. apply elem_of_used.
    exists e. rewrite Hse1, lookup_insert_ne by (by intros ->). done.
  - intros d Hd. lia.
  - split; [intros _; rewrite Ht3; by eexists _, _, _, _, _|].
    split_and!; intros H; [discriminate H..|unfold LFILE0 in H; lia].
  - cbn. apply NoDup_cons. split; [by intros ->%list_elem_of_singleton|apply NoDup_singleton].
  - rewrite Hse3, Hse2, Hse1. repeat constructor; cbn [fst snd].
    + done.
    + by rewrite lookup_insert_ne, lookup_insert_eq.
    + intros (e & He & Hu)%elem_of_used. apply Hj, elem_of_used. exists e.
      by rewrite Hse1, lookup_insert_ne.
    + by rewrite lookup_insert_eq.
  - change (is_table Nlfl (lfltab (dev s2))). by rewrite Hd2, Hd1.
Qed.

(** A device with one semaphore of count 1, whose variables are the new [D]. *)
Lemma conf_one n s (k : Z → M Z) (D : Z → devstate) :
  0 ≤ n < NDEVS → n ≠ CONSOLE → booting s → conf_inv n s →
  (∀ r s', dev s' = dev s → k r s' = Done OK (set_dev (D r) s')) →
  (∀ r, ttytab (D r) = ttytab (dev s) ∧ is_table Nlfl (lfltab (D r)) ∧ dev_sems (D r) n = [(r, 1)] ∧ dev_ready (D r) n ∧
    ∀ d, 0 ≤ d < n → dev_sems (D r) d = dev_sems (dev s) d ∧ (dev_ready (dev s) d → dev_ready (D r) d)) →
  ∃ r s', (r ← semcreate 1; k r) s = Done r s' ∧ booting s' ∧ conf_inv (n + 1) s'.
Proof.
  intros Hn Hc0 Hs Hc Hk HD. pose proof Hc as (_ & _ & Ht & Hl).
  pose proof (conf_room n s 0 Hc Hn ltac:(lia)) as Hroom.
  destruct (semcreate_boot s 1 Hs) as (r & s1 & E1 & Hs1 & Hd1 & Hse1 & Hr & Hn1); [done|lia|].
  exists OK, (set_dev (D r) s1). rewrite M_bind_eq, E1. cbn [obind]. rewrite Hk by done. split; [done|].
  split; [by apply booting_dev|]. destruct (HD r) as (E2 & Ht2 & Hds & Hrd & Hold).
  apply (conf_step n s); change (dev (set_dev (D r) s1)) with (D r); rewrite ?Hds; try done.
  - lia.
  - by eapply sem_step.
  - apply NoDup_singleton.
  - constructor; [|constructor]. split; [done|]. cbn. by rewrite Hse1, lookup_insert_eq.
  - by rewrite E2.
Qed.

Lemma conf_lfs s : booting s → conf_inv LFILESYS s →
  ∃ r s', lfsinit s = Done r s' ∧ booting s' ∧ conf_inv (LFILESYS + 1) s'.
Proof.
  intros Hs Hc. pose proof Hc as (_ & _ & _ & Hl).
  apply (conf_one LFILESYS s _ (λ r, set_Lf_data (Lfdata LF_DISK_DEV r zero_dir false false) (dev s))); try done.
  - intros r s' Hd. unfold setlf. kred. by rewrite Hd.
  - intros r. split; [done|]. split; [done|]. split; [done|]. split.
    + split_and!; intros H; [discriminate H|discriminate H|by exists r|unfold LFILESYS, LFILE0 in H; lia].
    + intros d Hd. unfold LFILESYS in *. split; [apply dev_sems_ext|apply dev_ready_ext]; try done; unfold LFILESYS; lia.
Qed.

Lemma conf_lfl d s : LFILE0 ≤ d < LFILE0 + Nlfl → booting s → conf_inv d s →
  ∃ r s', lflinit (d - LFILE0) d s = Done r s' ∧ booting s' ∧ conf_inv (d + 1) s'.
Proof.
  intros Hd Hs Hc. pose proof Hc as (_ & _ & _ & Hl).
  destruct (is_table_get _ _ (d - LFILE0) Hl) as [f Hf]; [lia|].
  assert (LFILE0 = 22 ∧ Nlfl = 6) as [E1 E2] by done.
  apply (conf_one d s _ (λ r, set_lfltab (<[d - LFILE0 := Lflcblk LF_FREE d r None (lfmode f) 0
    (replicate (Z.to_nat LF_NAME_LEN) 0) LF_INULL zero_iblk 0 (replicate (Z.to_nat LF_BLKSIZ) 0) LF_BLKSIZ false false]>
    (lfltab (dev s))) (dev s))); try done.
  - unfold NDEVS. lia.
  - unfold CONSOLE. lia.
  - intros r s' Hd'. rewrite M_bind_eq. unfold setlfl. rewrite Hd', Hf. done.
  - intros r. split; [done|]. split; [by apply is_table_insert; [|lia]|].
    split; [|split].
    + unfold dev_sems. rewrite !bool_decide_eq_false_2 by (unfold CONSOLE, LFILESYS; lia).
      rewrite bool_decide_eq_true_2 by lia. cbn [lfltab set_lfltab]. by rewrite lookup_insert_eq.
    + split_and!; intros H; [unfold CONSOLE in H; lia|unfold RAM0 in H; lia|unfold LFILESYS in H; lia|].
      cbn [lfltab set_lfltab]. rewrite lookup_insert_eq. eexists. split; [done|]. by split_and!.
    + intros d' Hd'. split; [apply dev_sems_ext|apply dev_ready_ext]; try done;
        intros _; cbn [lfltab set_lfltab]; rewrite lookup_insert_ne by lia; done.
Qed.

Lemma conf_ram s : booting s → conf_inv RAM0 s →
  ∃ r s', raminit s = Done r s' ∧ booting s' ∧ conf_inv (RAM0 + 1) s'.
Proof.
  intros Hs Hc. unfold raminit, setRam. kred.
  set (R := table RM_BLKS _). exists OK, (set_dev (set_Ram R (dev s)) s). split; [done|].
  split; [by apply booting_dev|]. apply (conf_skip _ s); try done.
  - split; [by apply booting_dev|done|change (used_sems (set_dev _ s)) with (used_sems s); lia].
  - split_and!; intros H; [discriminate H| |discriminate H|unfold LFILE0, RAM0 in H; lia].
    intros b Hb. change (Ram (dev (set_dev (set_Ram R (dev s)) s))) with R. unfold R. rewrite table_lookup by done.
    eexists. split; [done|]. unfold RM_BLKSIZ, RM_BLKS in *.
    replace (Z.to_nat (512 * b)) with (512 * Z.to_nat b)%nat by lia. apply ram_pattern. lia.
  - by right.
Qed.

(** Every device of the configuration. *)
Lemma conf_init_ok other n s :
  (∀ d, 0 ≤ d < NDEVS → other_ok (other d)) → 0 ≤ n < NDEVS → booting s → conf_inv n s →
  (∃ s', conf_init other n s = Halt s' ∧ other n s = Halt s') ∨
  ∃ r s', conf_init other n s = Done r s' ∧ booting s' ∧ conf_inv (n + 1) s'.
Proof.
  intros Ho Hn Hs Hc. unfold conf_init.
  case_bool_decide as H0; [right; subst; by apply conf_tty|].
  case_bool_decide as H5.
  { right. exists OK, s. split; [done|]. split; [done|]. subst. apply (conf_skip _ s); [done|done|by apply init_step_refl|done| |done..|by left].
    split_and!; intros H; [discriminate H..|unfold LFILE0, NULLDEV in H; lia]. }
  case_bool_decide as H9; [right; subst; by apply conf_ram|].
  case_bool_decide as H21; [right; subst; by apply conf_lfs|].
  case_bool_decide as H22; [right; by apply conf_lfl|].
  destruct (Ho n Hn s Hs) as [[s' E]|(r & s' & E & Hst & E1 & E2 & E3 & E4)]; [left; by exists s'|right].
  exists r, s'. split; [done|]. split; [apply Hst|]. apply (conf_skip _ s); [lia|done|done| | |done..|by left].
  - unfold dev_sems. by rewrite !bool_decide_eq_false_2.
  - split_and!; intros H; done.
Qed.

Lemma conf_start s e len : initial s e len → conf_inv 0 s.
Proof.
  intros (_ & _ & _ & _ & _ & Hfree & _ & Hd).
  assert (used_sems s = ∅) as Hu.
  { apply set_eq. intros i. rewrite elem_of_empty, elem_of_used. split; [|done].
    intros (se & Hi & Hse). rewrite (Hfree _ _ Hi) in Hse. discriminate Hse. }
  split; [split|split; [by rewrite Hu, size_empty|rewrite Hd; split; [by eexists|apply is_table_table]]].
  - intros d ?. lia.
  - constructor.
  - constructor.
Qed.

(** Sysinit with the devices of the configuration. *)
Lemma sysinit_devices `{Platform} other e m :
  0 < e → e + 16384 ≤ MAXADDR → e mod 8 = 0 →
  (∀ a, is_Some (m !! a) ↔ e ≤ a < MAXADDR ∧ a mod 4 = 0) →
  (∀ d, 0 ≤ d < NDEVS → dvinit (devtab d) = conf_init other d ∧ other_ok (other d)) →
  (∃ d s1 s', 0 ≤ d < NDEVS ∧ other d s1 = Halt s' ∧ sysinit e (bss m) = Halt s') ∨
  ∃ s, sysinit e (bss m) = Done tt s ∧ booting s ∧ devices_ready NDEVS s ∧ Z.of_nat (size (used_sems s)) ≤ 3 * NDEVS.
Proof.
  intros He Hbig He8 Hm Hd.
  assert (∀ i s, 0 ≤ i < NDEVS → booting s → conf_inv i s →
    (∃ s', dvinit (devtab i) s = Halt s' ∧ other i s = Halt s') ∨
    ∃ r s', dvinit (devtab i) s = Done r s' ∧ booting s' ∧ conf_inv (i + 1) s') as Hstep.
  { intros i s Hi Hs Hc. rewrite (proj1 (Hd i Hi)). apply conf_init_ok; try done. intros d ?. by apply Hd. }
  destruct (sysinit_ok conf_inv e m He Hbig He8 Hm) as [(d & s1 & s' & Hr & Hs1 & Hc1 & E1 & E)|(s & E & Hs & Hc)].
  - intros s _ Hi. by eapply conf_start.
  - intros i s Hi Hs Hc. destruct (Hstep i s Hi Hs Hc) as [(s' & ? & _)|?]; [left; by exists s'|by right].
  - left. exists d, s1, s'. split; [done|]. split; [|done].
    destruct (Hstep d s1 Hr Hs1 Hc1) as [(s2 & E2 & E3)|(r & s2 & E2 & _)]; congruence.
  - right. exists s. split_and!; [done..|apply Hc|apply Hc].
Qed.

(** The modelled drivers have nine semaphores: two of the console, one of the file
    system, and one of each file. *)
Definition sem_count (d : Z) : nat :=
  if bool_decide (d = CONSOLE) then 2
  else if bool_decide (d = LFILESYS) then 1
  else if bool_decide (LFILE0 ≤ d < LFILE0 + Nlfl) then 1 else 0.

Lemma length_dev_sems D d : dev_ready D d → length (dev_sems D d) = sem_count d.
Proof.
  intros (R1 & _ & _ & R4). unfold dev_sems, sem_count.
  case_bool_decide as H0; [destruct (R1 H0) as (? & ? & ? & ? & ? & ->); done|].
  case_bool_decide; [done|]. case_bool_decide as H22; [|done]. by destruct (R4 H22) as (f & -> & _).
Qed.

Lemma all_sems_length s : devices_ready NDEVS s → length (all_sems (dev s) NDEVS) = 9%nat.
Proof.
  intros Hr. unfold all_sems. rewrite List.length_concat. rewrite <-list_fmap_compose.
  assert ((length ∘ dev_sems (dev s)) <$> seqZ 0 NDEVS = sem_count <$> seqZ 0 NDEVS) as E.
  { apply list_fmap_ext. intros i d Hi. apply length_dev_sems, Hr.
    apply list_elem_of_lookup_2, elem_of_seqZ in Hi. lia. }
  change (list_sum ((length ∘ dev_sems (dev s)) <$> seqZ 0 NDEVS) = 9%nat). by rewrite E.
Qed.
