(* ===== verification/TtyIn.v ===== *)
(** The lower half of the tty driver, input: what ttyhandle_in does to the line
    that is being typed and to the lines that are available. *)

From S2P Require Import Prelude Types Heap ByteMem DevTypes Kernel KInv Sched Semaphore Tty Ring.

(** ** Line editing, on lists of characters

    The characters available to readers, and those of the line being typed. *)
Abbreviation typing := (list Z * list Z)%type.

Definition edit (o : ttyopts) (st : typing) (ch : Z) : typing :=
  let '(d, c) := st in
  if bool_decide (ch = tyikillc o) && tyikill o then (d, [])
  else if (bool_decide (ch = tyierasec o) || bool_decide (ch = tyierasec2 o)) && tyierase o
  then (d, removelast c)
  else if bool_decide (ch = TY_NEWLINE) || bool_decide (ch = TY_RETURN) then (d ++ c ++ [ch], [])
  else if bool_decide (ch = tyeofch o) && tyeof o then
    (if bool_decide (c = []) then (d ++ [ch], []) else (d, c))
  else (d, c ++ [ch]).

Definition map_cr (o : ttyopts) (ch : Z) : Z :=
  if bool_decide (ch = TY_RETURN) && tyicrlf o then TY_NEWLINE else ch.
Definition flow_char (o : ttyopts) (ch : Z) : bool :=
  tyoflow o && (bool_decide (ch = tyostart o) || bool_decide (ch = tyostop o)).

Definition typed (mode : tymode) (o : ttyopts) (st : typing) (ch : Z) : typing :=
  match mode with
  | TY_IMRAW => (st.1 ++ [ch], st.2)
  | _ =>
    let ch := map_cr o ch in
    if flow_char o ch then st
    else match mode with TY_IMCBREAK => (st.1 ++ [ch], st.2) | _ => edit o st ch end
  end.

(** ** The control block *)

Definition echo_ok (r : tyring) : Prop :=
  Z.of_nat (length (rbuff r)) = TY_EBUFLEN ∧ 0 ≤ rtail r < TY_EBUFLEN.

Record tty_in (t : ttycblk) (st : typing) : Prop := Tty_in {
  ti_ring : ring_view TY_IBUFLEN (tyi t) (st.1 ++ st.2);
  ti_cursor : tyicursor t = Z.of_nat (length st.2);
  ti_echo : echo_ok (tye t);
  ti_mode : tyimode t ≠ TY_IMCOOKED → st.2 = [] }.

(** What the handler leaves as it is. *)
Record same_line (t t' : ttycblk) : Prop := Same_line {
  sl_isem : tyisem t' = tyisem t;
  sl_osem : tyosem t' = tyosem t;
  sl_out : tyo t' = tyo t;
  sl_mode : tyimode t' = tyimode t;
  sl_iecho : tyiecho t' = tyiecho t;
  sl_opts : tyopts t' = tyopts t;
  sl_head : rhead (tyi t') = rhead (tyi t) }.

#[export] Instance same_line_equiv : PreOrder same_line.
Proof. split; [by split|]. intros t1 t2 t3 [] []. split; congruence. Qed.

(** Only variables of the driver (and the interrupt enable register) changed. *)
Record only_tty (s s' : kst) : Prop := Only_tty {
  ot_csim : csim s s';
  ot_defer : Defer s' = Defer s;
  ot_intr : intr s' = intr s;
  ot_rx : u_rx (uart (dev s')) = u_rx (uart (dev s)) }.

#[export] Instance only_tty_equiv : PreOrder only_tty.
Proof. split; [by split|]. intros s1 s2 s3 [] []. split; [by etrans|congruence..]. Qed.

Lemma only_tty_set m t s : only_tty s (set_tty m t s).
Proof. by split. Qed.
#[export] Hint Resolve only_tty_set : xinu.

Lemma handling_tty Q s s' : only_tty s s' → handling Q s → handling Q s'.
Proof. intros [E Hd _ _]. apply handling_csim; [done|by rewrite Hd]. Qed.

Lemma gettty_some m s t : ttytab (dev s) !! m = Some t → gettty m s = Done t s.
Proof. unfold gettty. by intros ->. Qed.

Lemma ttyop_some {A} m (f : ttycblk → option (A * ttycblk)) s t a t' :
  ttytab (dev s) !! m = Some t → f t = Some (a, t') → ttyop m f s = Done a (set_tty m t' s).
Proof. unfold ttyop. by intros -> ->. Qed.

Lemma settty_some m f s t :
  ttytab (dev s) !! m = Some t → settty m f s = Done tt (set_tty m (f t) s).
Proof. intros H. by apply (ttyop_some _ _ _ t). Qed.

Lemma set_tty_at m t s : ttytab (dev (set_tty m t s)) !! m = Some t.
Proof. apply lookup_insert_eq. Qed.

(** ** Echo: computations that only put characters into the echo buffer *)

Definition echoing (m : Z) (c : M unit) : Prop := ∀ s t,
  ttytab (dev s) !! m = Some t → echo_ok (tye t) →
  ∃ r s', c s = Done tt s' ∧ ttytab (dev s') !! m = Some (set_tye r t) ∧ echo_ok r ∧ only_tty s s'.

Lemma echoing_eputc m ch : echoing m (eputc ch m).
Proof.
  intros s t Ht [Hl Hr]. unfold TY_EBUFLEN in *. unfold eputc. kred.
  erewrite ttyop_some; [|exact Ht|].
  2: { unfold put_echo, store. rewrite bool_decide_eq_true_2 by lia. reflexivity. }
  kred. unfold ttykickout, setuart. kred. do 2 eexists.
  split; [reflexivity|]. split; [cbn; apply lookup_insert_eq|]. split; [|by split].
  unfold wrap_tail, echo_ok, TY_EBUFLEN. cbn. case_bool_decide; cbn; rewrite length_insert; lia.
Qed.

Lemma echoing_ret m : echoing m (ret tt).
Proof.
  intros s t Ht He. exists (tye t), s. split_and!; [done| |done|done].
  rewrite Ht. by destruct t.
Qed.

Lemma echoing_seq m c1 c2 : echoing m c1 → echoing m c2 → echoing m (c1;; c2).
Proof.
  intros H1 H2 s t Ht He. destruct (H1 s t Ht He) as (r1 & s1 & E1 & Ht1 & He1 & Ho1).
  destruct (H2 s1 _ Ht1 He1) as (r2 & s2 & E2 & Ht2 & He2 & Ho2).
  exists r2, s2. kred. rewrite E1. kred. split_and!; [done|done|done|by etrans].
Qed.

Lemma echoing_when m b c : echoing m c → echoing m (when b c).
Proof. intros Hc. destruct b; [done|apply echoing_ret]. Qed.

Lemma echoing_if m (b : bool) c1 c2 : echoing m c1 → echoing m c2 → echoing m (if b then c1 else c2).
Proof. by destruct b. Qed.

Create HintDb echo.
#[export] Hint Resolve echoing_eputc echoing_ret echoing_seq echoing_when echoing_if : echo.

Lemma echoing_echoch m ch : echoing m (echoch ch m).
Proof.
  intros s t Ht He. unfold echoch. kred. rewrite (gettty_some _ _ _ Ht). kred.
  eapply echoing_if; [..|exact Ht|exact He]; auto with echo.
Qed.
#[export] Hint Resolve echoing_echoch : echo.

(** ** The cases of ttyhandle_in *)

(** The state after a case that signals nobody. *)
Definition edited (m : Z) (s s' : kst) (t : ttycblk) (st : typing) : Prop :=
  ∃ t', ttytab (dev s') !! m = Some t' ∧ tty_in t' st ∧ same_line t t' ∧ only_tty s s'.

(** Echo changes neither the line nor the settings. *)
Lemma echo_step m c s t st :
  echoing m c → ttytab (dev s) !! m = Some t → tty_in t st →
  ∃ s' t', c s = Done tt s' ∧ ttytab (dev s') !! m = Some t' ∧ tty_in t' st ∧ same_line t t' ∧
    only_tty s s' ∧ tyi t' = tyi t ∧ tyicursor t' = tyicursor t.
Proof.
  intros Hc Ht [H1 H2 H3 H4]. destruct (Hc s t Ht H3) as (r & s' & E & Ht' & Hr & Ho).
  exists s', (set_tye r t). by split_and!.
Qed.

Lemma edited_same m s t st c :
  echoing m c → ttytab (dev s) !! m = Some t → tty_in t st →
  ∃ s', c s = Done tt s' ∧ edited m s s' t st.
Proof.
  intros Hc Ht Hin. destruct (echo_step _ _ _ _ _ Hc Ht Hin) as (s' & t' & E & ? & ? & ? & ? & _).
  exists s'. split; [done|]. by exists t'.
Qed.

Lemma store_head n c r r' : store c r = Some r' → rhead (wrap_tail n r') = rhead r.
Proof.
  unfold store. case_bool_decide; [|done]. intros [= <-]. unfold wrap_tail. cbn. by case_bool_decide.
Qed.

Lemma put_in_spec t st ch :
  tty_in t st → Z.of_nat (length (st.1 ++ st.2)) < TY_IBUFLEN →
  ∃ r, put_in ch t = Some (tt, set_tyi r t) ∧ ring_view TY_IBUFLEN r ((st.1 ++ st.2) ++ [ch]) ∧
    rhead r = rhead (tyi t).
Proof.
  intros [Hr _ _ _] Hn. destruct (ring_put _ _ _ ch Hr Hn) as (r & Hs & Hv).
  eexists. unfold put_in. rewrite Hs. split_and!; [done|done|by apply (store_head _ ch)].
Qed.

(** Killing the line, or its last character. *)
Lemma drop_spec t d c1 c2 :
  tty_in t (d, c1 ++ c2) → Z.of_nat (length c2) < TY_IBUFLEN → tyimode t = TY_IMCOOKED →
  tty_in (set_tyicursor (tyicursor t - Z.of_nat (length c2))
    (set_tyi (back_tail (Z.of_nat (length c2)) (tyi t)) t)) (d, c1).
Proof.
  intros [H1 H2 H3 H4] Hn Hm. cbn in *. rewrite app_assoc in H1. split; cbn.
  - by apply ring_back.
  - rewrite H2, length_app. lia.
  - done.
  - congruence.
Qed.

Lemma length_line t st : tty_in t st → Z.of_nat (length (st.1 ++ st.2)) ≤ TY_IBUFLEN.
Proof. intros [[] _ _ _]. done. Qed.

Lemma kill_line m s t d c :
  ttytab (dev s) !! m = Some t → tty_in t (d, c) → Z.of_nat (length c) < TY_IBUFLEN →
  tyimode t = TY_IMCOOKED →
  ∃ s', (settty m (λ t, set_tyi (back_tail (tyicursor t) (tyi t)) t);;
         settty m (set_tyicursor 0);; eputc TY_RETURN m;; eputc TY_NEWLINE m) s = Done tt s' ∧
    edited m s s' t (d, []).
Proof.
  intros Ht Hin Hn Hm. kred. rewrite (settty_some _ _ _ _ Ht). kred.
  rewrite (settty_some _ _ _ _ (set_tty_at _ _ _)). kred.
  set (t1 := set_tyicursor 0 _). set (s1 := set_tty m t1 _).
  assert (tty_in t1 (d, [])) as H1.
  { pose proof (drop_spec t d [] c Hin Hn Hm) as Hd. pose proof (ti_cursor _ _ Hin) as Hc. cbn in Hc.
    rewrite <-Hc, Z.sub_diag in Hd. exact Hd. }
  destruct (echo_step m (eputc TY_RETURN m;; eputc TY_NEWLINE m) s1 t1 (d, []))
    as (s' & t' & E & Ht' & Hin' & Hsl & Ho & _); [auto with echo|apply set_tty_at|done|].
  exists s'. split; [done|]. exists t'. split_and!; [done|done| |].
  - etrans; [|done]. by split.
  - etrans; [|done]. by split.
Qed.

Lemma erase1_line m s t d c :
  ttytab (dev s) !! m = Some t → tty_in t (d, c) → Z.of_nat (length c) < TY_IBUFLEN →
  tyimode t = TY_IMCOOKED →
  ∃ s', (if bool_decide (0 < tyicursor t) then
           settty m (set_tyicursor (tyicursor t - 1));; erase1 m
         else ret tt) s = Done tt s' ∧ edited m s s' t (d, removelast c).
Proof.
  intros Ht Hin Hn Hm. pose proof (ti_cursor _ _ Hin) as Hcur. cbn in Hcur.
  induction c as [|x c1 _] using rev_ind.
  { rewrite bool_decide_eq_false_2 by (cbn in Hcur; lia). exists s. split; [done|]. by exists t. }
  rewrite removelast_last. rewrite length_app in Hcur. cbn in Hcur.
  rewrite bool_decide_eq_true_2 by lia. kred. rewrite (settty_some _ _ _ _ Ht). kred.
  unfold erase1. kred. rewrite (settty_some _ _ _ _ (set_tty_at _ _ _)). kred.
  set (t1 := set_tyi _ _). set (s1 := set_tty m t1 _).
  assert (tty_in t1 (d, c1)) as H1 by exact (drop_spec t d c1 [x] Hin ltac:(done) Hm).
  assert (ttytab (dev s1) !! m = Some t1) as Ht1 by apply set_tty_at.
  assert (peek_tail (tyi t1) = Some x) as Hpk.
  { apply (ring_peek (tyi t) (d ++ c1)). rewrite <-app_assoc. exact (ti_ring _ _ Hin). }
  erewrite (ttyop_some m _ s1 t1 x t1); [|done|by rewrite Hpk]. kred.
  rewrite (gettty_some _ _ _ (set_tty_at _ _ _)). kred.
  match goal with |- context [ (if ?b then ?f1 else ?f2) (set_tty m t1 s1) ] =>
    destruct (echo_step m (if b then f1 else f2) (set_tty m t1 s1) t1 (d, c1))
      as (s' & t' & E & Ht' & Hin' & Hsl & Ho & _); [|apply set_tty_at|done|] end.
  { auto 10 with echo. }
  exists s'. split; [done|]. exists t'. split_and!; [done|done| |].
  - etrans; [|done]. by split.
  - etrans; [|done]. by split.
Qed.

(** ** One character

    [s'] is the state after a character turned [st] into [st']: the semaphore
    counts the characters that have become available. *)
Record typed_ok (m : Z) (s s' : kst) (t : ttycblk) (e : sentry) (st st' : typing) : Prop := Typed_ok {
  to_inv : ∃ Q', handling Q' s';
  to_tty : ∃ t', ttytab (dev s') !! m = Some t' ∧ tty_in t' st' ∧ same_line t t';
  to_sem : semtab s' =
    <[tyisem t := set_scount (scount e + Z.of_nat (length st'.1) - Z.of_nat (length st.1)) e]> (semtab s);
  to_rx : u_rx (uart (dev s')) = u_rx (uart (dev s));
  to_curr : currpid s' = currpid s;
  to_defer : ndefers (Defer s') = ndefers (Defer s);
  to_intr : intr s' = intr s }.

Lemma edited_typed Q m s s' t e st st' :
  handling Q s → semtab s !! tyisem t = Some e → edited m s s' t st' →
  length st'.1 = length st.1 → typed_ok m s s' t e st st'.
Proof.
  intros HQ He (t' & Ht' & Hin & Hsl & Ho) Hlen. destruct Ho as [Hcs Hd Hi Hrx]. split.
  - exists Q. apply (handling_tty Q s); [by split|done].
  - by exists t'.
  - rewrite (cs_semtab _ _ Hcs), Hlen. replace (_ - _) with (scount e) by lia.
    symmetry. apply insert_id. rewrite He. by destruct e.
  - done.
  - apply Hcs.
  - by rewrite Hd.
  - done.
Qed.

Lemma released Q m s s1 s2 Q2 t e st st' :
  handling Q s → edited m s s1 t st' → handling Q2 s2 → kept s1 s2 →
  semtab s2 = <[tyisem t := set_scount
    (scount e + (Z.of_nat (length st'.1) - Z.of_nat (length st.1))) e]> (semtab s1) →
  typed_ok m s s2 t e st st'.
Proof.
  intros HQ (t' & Ht' & Hin & Hsl & [Hcs Hd Hi Hrx]) HQ2 [K1 K2 K3 K4 K5 K6] Hst. split.
  - by exists Q2.
  - exists t'. by rewrite K6.
  - rewrite Hst, (cs_semtab _ _ Hcs). do 2 f_equal. lia.
  - by rewrite K6.
  - rewrite K1. apply Hcs.
  - by rewrite K3, Hd.
  - by rewrite K2.
Qed.

Lemma signal_typed Q m s s1 t e st st' :
  handling Q s → semtab s !! tyisem t = Some e → sstate e = S_USED → scount e < INT_MAX →
  edited m s s1 t st' → length st'.1 = S (length st.1) →
  ∃ s2, signal (tyisem t) s1 = Done OK s2 ∧ typed_ok m s s2 t e st st'.
Proof.
  intros HQ He Hu Hm Hed Hlen. pose proof Hed as (t' & _ & _ & _ & Ho).
  pose proof (handling_tty _ _ _ Ho HQ) as HQ1. destruct Ho as [Hcs _ _ _].
  destruct (signal_handling Q s1 (tyisem t) e) as (s2 & Q2 & E & HQ2 & Hst & Hk);
    [done|by rewrite (cs_semtab _ _ Hcs)|done|done|].
  exists s2. split; [done|]. eapply released; [done|done|done|done|]. rewrite Hst. do 2 f_equal. lia.
Qed.

Lemma signaln_typed Q m s s1 t e st st' n :
  handling Q s → semtab s !! tyisem t = Some e → sstate e = S_USED →
  edited m s s1 t st' → length st'.1 = (length st.1 + n)%nat → scount e + Z.of_nat n ≤ INT_MAX →
  ∃ s2, signaln (tyisem t) (Z.of_nat n) s1 = Done OK s2 ∧ typed_ok m s s2 t e st st'.
Proof.
  intros HQ He Hu Hed Hlen Hm. pose proof Hed as (t' & _ & _ & _ & Ho).
  pose proof (handling_tty _ _ _ Ho HQ) as HQ1. destruct Ho as [Hcs _ _ _].
  destruct (signaln_handling Q s1 (tyisem t) e (Z.of_nat n)) as (s2 & Q2 & E & HQ2 & Hst & Hk);
    [done|by rewrite (cs_semtab _ _ Hcs)|done|lia|done|].
  exists s2. split; [done|]. eapply released; [done|done|done|done|]. rewrite Hst. do 2 f_equal. lia.
Qed.

(** Storing a character that is not signalled yet. *)
Lemma put_edited m s t st st' ch :
  ttytab (dev s) !! m = Some t → tty_in t st → Z.of_nat (length (st.1 ++ st.2)) < TY_IBUFLEN →
  st'.1 ++ st'.2 = (st.1 ++ st.2) ++ [ch] → (tyimode t ≠ TY_IMCOOKED → st'.2 = []) →
  ∃ t', ttyop m (put_in ch) s = Done tt (set_tty m t' s) ∧ same_line t t' ∧ tyicursor t' = tyicursor t ∧
    ∀ k, k = Z.of_nat (length st'.2) → tty_in (set_tyicursor k t') st'.
Proof.
  intros Ht Hin Hn Hst Hm. destruct (put_in_spec _ _ ch Hin Hn) as (r & Hp & Hv & Hh).
  exists (set_tyi r t). split; [by erewrite ttyop_some|]. split; [by split|]. split; [done|].
  intros k ->. split; cbn; [by rewrite Hst|done|apply Hin|done].
Qed.

Lemma semcount_used s sem e :
  isbadsem sem = false → semtab s !! sem = Some e → sstate e = S_USED →
  semcount sem s = Done (scount e) s.
Proof.
  intros Hb He Hu. unfold semcount. kred. rewrite Hb. kred. erewrite getsem_some by done. kred.
  rewrite bool_decide_eq_false_2 by congruence. kred. by destruct s.
Qed.

Lemma in_avail_spec Q s t e :
  handling Q s → semtab s !! tyisem t = Some e → sstate e = S_USED →
  in_avail t s = Done (Z.max 0 (scount e)) s.
Proof.
  intros HQ He Hu. unfold in_avail. kred. rewrite (semcount_used _ _ e); [|by eapply handling_sem|done..].
  kred. f_equal. case_bool_decide; lia.
Qed.

(** The state in which a character is handled: its semaphore is in use and
    counts no more than the characters that are available, and there is room. *)
Record tty_ready (Q : gmap Z (list Z)) (m : Z) (s : kst) (t : ttycblk) (e : sentry) (st : typing) : Prop :=
  Tty_ready {
  tr_inv : handling Q s;
  tr_tty : ttytab (dev s) !! m = Some t;
  tr_in : tty_in t st;
  tr_sem : semtab s !! tyisem t = Some e;
  tr_used : sstate e = S_USED;
  tr_count : scount e ≤ Z.of_nat (length st.1);
  tr_room : Z.of_nat (length (st.1 ++ st.2)) < TY_IBUFLEN - 1 }.

Lemma cursor_same t : set_tyicursor (tyicursor t) t = t.
Proof. by destruct t. Qed.

(** Raw and cbreak mode: the character is available at once. *)
Lemma put_signal Q m s s0 t e st ch (c : M unit) :
  tty_ready Q m s t e st → st.2 = [] → echoing m c → only_tty s s0 → ttytab (dev s0) !! m = Some t →
  ∃ s2, (ttyop m (put_in ch);; c;; _ ← signal (tyisem t); ret tt) s0 = Done tt s2 ∧
    typed_ok m s s2 t e st (st.1 ++ [ch], st.2).
Proof.
  intros [HQ Ht Hin He Hu Hcnt Hroom] Hc Hec Ho0 Ht0. unfold TY_IBUFLEN in *. rewrite length_app in Hroom.
  destruct (put_edited m s0 t st (st.1 ++ [ch], st.2) ch Ht0 Hin) as (t' & E & Hsl & Hcur & Hin').
  { rewrite length_app. unfold TY_IBUFLEN. lia. } { cbn. by rewrite Hc, !app_nil_r. } { done. }
  kred. rewrite E. kred.
  specialize (Hin' (tyicursor t)). rewrite <-Hcur, cursor_same in Hin'.
  destruct (edited_same m (set_tty m t' s0) t' (st.1 ++ [ch], st.2) c) as (s1 & E1 & t1 & Ht1 & Hin1 & Hsl1 & Ho1);
    [done|apply set_tty_at|apply Hin'; rewrite Hcur; exact (ti_cursor _ _ Hin)|].
  rewrite E1. kred.
  destruct (signal_typed Q m s s1 t e st (st.1 ++ [ch], st.2)) as (s2 & E2 & Hok);
    [done..|unfold INT_MAX; lia| |cbn; rewrite length_app; cbn; lia|].
  { exists t1. split_and!; [done|done|by etrans|]. etrans; [|done]. etrans; [done|]. by split. }
  exists s2. rewrite E2. by kred.
Qed.

Lemma in_cbreak_spec Q m s s0 t e st ch :
  tty_ready Q m s t e st → st.2 = [] → only_tty s s0 → ttytab (dev s0) !! m = Some t →
  ∃ s2, in_cbreak m ch (Z.max 0 (scount e)) s0 = Done tt s2 ∧
    typed_ok m s s2 t e st (st.1 ++ [ch], st.2).
Proof.
  intros Hr Hc Ho Ht0. pose proof (tr_count _ _ _ _ _ _ Hr). pose proof (tr_room _ _ _ _ _ _ Hr) as Hroom.
  rewrite length_app in Hroom. unfold in_cbreak. kred. rewrite (gettty_some _ _ _ Ht0). kred.
  rewrite bool_decide_eq_false_2 by lia.
  apply (put_signal Q m s s0 t e st ch (when (tyiecho t) (echoch ch m))); auto with echo.
Qed.

(** The end of a line: the line becomes available. *)
Lemma end_line Q m s s0 t e d c ch :
  tty_ready Q m s t e (d, c) → tyimode t = TY_IMCOOKED →
  only_tty s s0 → ttytab (dev s0) !! m = Some t →
  ∃ s2, (when (tyiecho t) (echoch ch m);; ttyop m (put_in ch);;
      _ ← signaln (tyisem t) (tyicursor t + 1); settty m (set_tyicursor 0)) s0 = Done tt s2 ∧
    typed_ok m s s2 t e (d, c) (d ++ c ++ [ch], []).
Proof.
  intros [HQ Ht Hin He Hu Hcnt Hroom] Hm Ho0 Ht0. cbn [fst snd] in *. unfold TY_IBUFLEN in *.
  pose proof Hroom as Hroom'. rewrite length_app in Hroom'.
  destruct (echo_step m (when (tyiecho t) (echoch ch m)) s0 t (d, c))
    as (s1 & t1 & E1 & Ht1 & Hin1 & Hsl1 & Ho1 & Hi1 & Hc1); [auto with echo|done|done|].
  destruct (put_edited m s1 t1 (d, c) (d ++ c ++ [ch], []) ch Ht1 Hin1) as (t2 & E2 & Hsl2 & Hc2 & Hin2).
  { cbn. unfold TY_IBUFLEN. lia. } { cbn. by rewrite app_nil_r, app_assoc. } { done. }
  kred. rewrite E1. kred. rewrite E2. kred.
  rewrite (ti_cursor _ _ Hin). cbn [snd]. replace (Z.of_nat (length c) + 1) with (Z.of_nat (length c + 1)) by lia.
  (* The cursor is reset after the signal: the line is seen as ended before it. *)
  assert (only_tty s (set_tty m t2 s1)) as Ho by (do 2 (etrans; [done|]); by split).
  destruct (signaln_handling Q (set_tty m t2 s1) (tyisem t) e (Z.of_nat (length c + 1)))
    as (s3 & Q3 & E3 & HQ3 & Hst3 & Hk3).
  { by eapply handling_tty. } { by rewrite <-He, <-(cs_semtab _ _ (ot_csim _ _ Ho)). } { done. } { lia. }
  { unfold INT_MAX. lia. }
  rewrite E3. kred.
  rewrite (settty_some m _ s3 t2) by (rewrite (kp_dev _ _ Hk3); apply set_tty_at).
  eexists. split; [done|]. destruct Hk3 as [K1 K2 K3 K4 K5 K6]. destruct Ho as [Hcs Hd Hi Hrx]. split.
  - exists Q3. by apply (handling_tty _ s3).
  - exists (set_tyicursor 0 t2). split; [apply set_tty_at|]. split; [by apply Hin2|].
    etrans; [done|]. etrans; [done|]. by split.
  - cbn [semtab set_tty set_dev fst]. rewrite Hst3, (cs_semtab _ _ Hcs), !length_app. do 2 f_equal.
    cbn [length]. lia.
  - cbn [dev set_tty set_dev uart set_ttytab]. by rewrite K6.
  - cbn. rewrite K1. apply Hcs.
  - cbn. by rewrite K3, Hd.
  - cbn. by rewrite K2.
Qed.

(** The end-of-file character is stored without wrapping the tail pointer: it
    must not fall on the last place of the buffer. *)
Definition eof_safe (t : ttycblk) (ch : Z) : Prop :=
  ch = tyeofch (tyopts t) → rtail (tyi t) ≠ TY_IBUFLEN - 1.

Lemma put_eof m s t st st' ch :
  ttytab (dev s) !! m = Some t → tty_in t st → Z.of_nat (length (st.1 ++ st.2)) < TY_IBUFLEN →
  st'.1 ++ st'.2 = (st.1 ++ st.2) ++ [ch] → (tyimode t ≠ TY_IMCOOKED → st'.2 = []) →
  length st'.2 = length st.2 → rtail (tyi t) ≠ TY_IBUFLEN - 1 →
  ∃ s', ttyop m (λ t, r ← store ch (tyi t); Some (tt, set_tyi r t)) s = Done tt s' ∧
    edited m s s' t st'.
Proof.
  intros Ht Hin Hn Hst Hm Hlen Hr.
  pose proof (ring_tail_range _ _ _ (ti_ring _ _ Hin) ltac:(done)) as Hb.
  destruct (ring_put _ _ _ ch (ti_ring _ _ Hin) Hn) as (r & Hs & Hv).
  assert (wrap_tail TY_IBUFLEN r = r ∧ rhead r = rhead (tyi t)) as [Hw Hh].
  { revert Hs. unfold store. case_bool_decide; [|done]. intros [= <-]. unfold wrap_tail. cbn.
    by rewrite bool_decide_eq_false_2 by lia. }
  rewrite Hw in Hv. eexists. split.
  - by erewrite ttyop_some; [|exact Ht|rewrite Hs].
  - exists (set_tyi r t). split_and!; [apply set_tty_at| |by split|by split].
    split; cbn; [by rewrite Hst|by rewrite Hlen; apply Hin|apply Hin|done].
Qed.

Lemma removelast_length (l : list Z) : (length (removelast l) ≤ length l)%nat.
Proof. induction l as [|x [|y l] IH]; cbn in *; lia. Qed.

Lemma in_cooked_spec Q m s s0 t e st ch :
  tty_ready Q m s t e st → tyimode t = TY_IMCOOKED → eof_safe t ch →
  only_tty s s0 → ttytab (dev s0) !! m = Some t →
  ∃ s2, in_cooked m ch s0 = Done tt s2 ∧ typed_ok m s s2 t e st (edit (tyopts t) st ch).
Proof.
  intros Hr Hm Heof Ho0 Ht0. pose proof Hr as [HQ Ht Hin He Hu Hcnt Hroom].
  pose proof (handling_tty _ _ _ Ho0 HQ) as HQ0. destruct st as [d c]. cbn [fst snd] in *.
  unfold TY_IBUFLEN in *. pose proof Hroom as Hroom'. rewrite length_app in Hroom'.
  assert (∀ (f : M unit) st', (∃ s', f s0 = Done tt s' ∧ edited m s0 s' t st') → st'.1 = d →
    ∃ s2, f s0 = Done tt s2 ∧ typed_ok m s s2 t e (d, c) st') as Hquiet.
  { intros f st' (s' & E & t' & Ht' & Hin' & Hsl & Ho) Hd. exists s'. split; [done|].
    eapply edited_typed; [done|done| |by rewrite Hd]. exists t'. split_and!; [done..|by etrans]. }
  unfold in_cooked. kred. rewrite (gettty_some _ _ _ Ht0). kred. unfold edit.
  destruct (bool_decide (ch = tyikillc (tyopts t)) && tyikill (tyopts t)).
  { apply Hquiet; [|done]. apply (kill_line m s0 t d c); [done..|unfold TY_IBUFLEN; lia|done]. }
  destruct ((bool_decide (ch = tyierasec (tyopts t)) || bool_decide (ch = tyierasec2 (tyopts t))) &&
    tyierase (tyopts t)).
  { apply Hquiet; [|done]. apply (erase1_line m s0 t d c); [done..|unfold TY_IBUFLEN; lia|done]. }
  destruct (bool_decide (ch = TY_NEWLINE) || bool_decide (ch = TY_RETURN)).
  { by apply (end_line Q). }
  kred. rewrite (in_avail_spec Q s0 t e); [|done|by rewrite (cs_semtab _ _ (ot_csim _ _ Ho0))|done]. kred.
  pose proof (ti_cursor _ _ Hin) as Hcur. cbn in Hcur. rewrite Hcur.
  rewrite bool_decide_eq_false_2 by (unfold TY_IBUFLEN; lia).
  destruct (bool_decide (ch = tyeofch (tyopts t)) && tyeof (tyopts t)) eqn:Eeof.
  - apply andb_true_iff in Eeof as [Ech _]. apply bool_decide_eq_true in Ech. specialize (Heof Ech).
    destruct (echo_step m (when (tyiecho t) (echoch ch m)) s0 t (d, c))
      as (s1 & t1 & E1 & Ht1 & Hin1 & Hsl1 & Ho1 & Hi1 & Hc1); [auto with echo|done|done|].
    kred. rewrite E1. kred. destruct (decide (c = [])) as [->|Hc].
    + rewrite (bool_decide_eq_false_2 (_ ≠ 0)) by (intros H0; by apply H0).
      rewrite (bool_decide_eq_true_2 (_ = [])) by done.
      destruct (put_eof m s1 t1 (d, []) (d ++ [ch], []) ch) as (s2 & E2 & t2 & Ht2 & Hin2 & Hsl2 & Ho2);
        [done|done|cbn; unfold TY_IBUFLEN; rewrite length_app; cbn; lia|cbn; by rewrite !app_nil_r|done|done|
         by rewrite Hi1|].
      kred. rewrite E2. kred.
      destruct (signal_typed Q m s s2 t e (d, []) (d ++ [ch], [])) as (s3 & E3 & Hok);
        [done..|unfold INT_MAX; lia| |cbn; rewrite length_app; cbn; lia|].
      { exists t2. split_and!; [done|done|by etrans|]. etrans; [|done]. by etrans. }
      exists s3. rewrite E3. by kred.
    + rewrite (bool_decide_eq_true_2 (_ ≠ 0)) by (destruct c; cbn; [done|lia]).
      rewrite (bool_decide_eq_false_2 (_ = [])) by done. exists s1. split; [done|].
      eapply edited_typed; [done|done| |done]. exists t1. split_and!; [done|done|done|by etrans].
  - apply Hquiet; [|done].
    destruct (echo_step m (when (tyiecho t) (echoch ch m)) s0 t (d, c))
      as (s1 & t1 & E1 & Ht1 & Hin1 & Hsl1 & Ho1 & Hi1 & Hc1); [auto with echo|done|done|].
    kred. rewrite E1. kred. rewrite (settty_some _ _ _ _ Ht1). kred.
    set (t1' := set_tyicursor _ t1).
    destruct (ring_put _ _ _ ch (ti_ring _ _ Hin1)) as (r & Hs & Hv).
    { cbn. unfold TY_IBUFLEN. lia. }
    erewrite ttyop_some; [|apply set_tty_at|unfold put_in, t1'; cbn; rewrite Hs; reflexivity].
    eexists. split; [done|].
    eexists. split; [apply set_tty_at|]. split; [|split; [|etrans; [done|by split]]].
    + split; cbn; [by rewrite app_assoc|rewrite Hc1, Hcur, length_app; cbn; lia|apply Hin1|].
      intros Hnm. exfalso. apply Hnm. by rewrite (sl_mode _ _ Hsl1).
    + etrans; [done|]. split; cbn; try done. by apply (store_head _ ch).
Qed.

(** ** ttyhandle_in *)

(** The state after the character register was read. *)
Definition rx_read (r : list Z) (s : kst) : kst :=
  set_dev (set_uart (set_u_rx r (uart (dev s))) (dev s)) s.

Lemma tty_ready_read Q m s t e st r :
  tty_ready Q m s t e st → tty_ready Q m (rx_read r s) t e st.
Proof.
  intros [HQ Ht Hin He Hu Hcnt Hroom]. split; try done. by apply (handling_csim Q s).
Qed.

Lemma tty_ready_held Q m s t e st :
  tty_ready Q m s t e st →
  let t' := set_tyoheld false t in tty_ready Q m (set_tty m t' s) t' e st.
Proof.
  intros [HQ Ht [] He Hu Hcnt Hroom] t'. split; try done.
  - by apply (handling_tty Q s).
  - apply set_tty_at.
Qed.

Lemma typed_ok_held m s s2 t e st st' :
  typed_ok m (set_tty m (set_tyoheld false t) s) s2 (set_tyoheld false t) e st st' →
  typed_ok m s s2 t e st st'.
Proof.
  intros [H1 (t' & Ht' & Hin & Hsl) H3 H4 H5 H6 H7]. split; try done.
  exists t'. split_and!; [done|done|]. etrans; [|done]. by split.
Qed.

(** What follows the tests for flow control. *)
Lemma edit_or_break Q m s t e st ch :
  tty_ready Q m s t e st → eof_safe t ch → tyimode t ≠ TY_IMRAW →
  ∃ s2, (settty m (set_tyoheld false);;
      if bool_decide (tyimode t = TY_IMCBREAK) then in_cbreak m ch (Z.max 0 (scount e))
      else in_cooked m ch) s = Done tt s2 ∧
    typed_ok m s s2 t e st
      (match tyimode t with TY_IMCBREAK => (st.1 ++ [ch], st.2) | _ => edit (tyopts t) st ch end).
Proof.
  intros Hr Heof Hm. pose proof (tty_ready_held _ _ _ _ _ _ Hr) as Hr'. cbv zeta in Hr'.
  pose proof (ti_mode _ _ (tr_in _ _ _ _ _ _ Hr)) as Hmode.
  kred. rewrite (settty_some _ _ _ _ (tr_tty _ _ _ _ _ _ Hr)). kred.
  destruct (tyimode t) eqn:Em; [done| |].
  - rewrite bool_decide_eq_false_2 by done.
    destruct (in_cooked_spec Q m _ (set_tty m (set_tyoheld false t) s) _ e st ch Hr') as (s2 & E & Hok);
      [done|done|done|apply set_tty_at|]. exists s2. split; [done|]. by apply typed_ok_held.
  - rewrite bool_decide_eq_true_2 by done.
    destruct (in_cbreak_spec Q m _ (set_tty m (set_tyoheld false t) s) _ e st ch Hr') as (s2 & E & Hok);
      [by apply Hmode|done|apply set_tty_at|]. exists s2. split; [done|]. by apply typed_ok_held.
Qed.

Lemma typed_not_raw mode o st ch :
  mode ≠ TY_IMRAW →
  typed mode o st ch =
    if flow_char o (map_cr o ch) then st
    else match mode with TY_IMCBREAK => (st.1 ++ [map_cr o ch], st.2) | _ => edit o st (map_cr o ch) end.
Proof. by destruct mode. Qed.

Lemma handle_in_spec Q m s t e st ch r :
  tty_ready Q m s t e st → u_rx (uart (dev s)) = ch :: r → 0 ≤ ch < 256 →
  eof_safe t (map_cr (tyopts t) ch) →
  ∃ s2, ttyhandle_in m s = Done tt s2 ∧
    typed_ok m (rx_read r s) s2 t e st (typed (tyimode t) (tyopts t) st ch).
Proof.
  intros Hr0 Hrx Hch Heof. apply (tty_ready_read _ _ _ _ _ _ r) in Hr0.
  unfold ttyhandle_in. kred. unfold uart_read at 1. rewrite Hrx, u8_id by done. kred.
  fold (rx_read r s). set (s0 := rx_read r s) in *. clearbody s0.
  pose proof Hr0 as [HQ Ht Hin He Hu Hcnt Hroom].
  pose proof (ti_mode _ _ Hin) as Hmode.
  rewrite (gettty_some _ _ _ Ht). kred. rewrite (in_avail_spec Q s0 t e) by done. kred.
  unfold TY_IBUFLEN in Hroom. rewrite length_app in Hroom.
  destruct (decide (tyimode t = TY_IMRAW)) as [Er|Er].
  { unfold typed. rewrite Er, bool_decide_eq_true_2 by done.
    rewrite bool_decide_eq_false_2 by (unfold TY_IBUFLEN; lia).
    apply (put_signal Q m s0 s0 t e st ch (ret tt)); try done; [|apply echoing_ret].
    apply Hmode. by rewrite Er. }
  rewrite bool_decide_eq_false_2, typed_not_raw by done.
  fold (map_cr (tyopts t) ch). set (ch' := map_cr _ ch) in *.
  unfold flow_char. destruct (tyoflow (tyopts t)); cbn [andb]; [|by apply (edit_or_break Q)].
  destruct (bool_decide (ch' = tyostart (tyopts t))); cbn [orb];
    [|destruct (bool_decide (ch' = tyostop (tyopts t))); [|by apply (edit_or_break Q)]].
  - kred. rewrite (settty_some _ _ _ _ Ht). kred. unfold ttykickout, setuart. kred. eexists. split; [done|].
    eapply edited_typed; [done|done| |done]. eexists. split; [cbn; apply lookup_insert_eq|].
    by split_and!; [destruct Hin; split|..].
  - rewrite (settty_some _ _ _ _ Ht). eexists. split; [done|].
    eapply edited_typed; [done|done| |done]. eexists. split; [apply set_tty_at|].
    by split_and!; [destruct Hin; split|..].
Qed.

(** ** All characters that have arrived *)

Definition typed_all (t : ttycblk) (st : typing) (rx : list Z) : typing :=
  foldl (typed (tyimode t) (tyopts t)) st rx.

(** An end-of-file character does not fall on the last place of the buffer: none
    arrives, or the characters do not reach that place. *)
Definition eof_clear (t : ttycblk) (st : typing) (rx : list Z) : Prop :=
  (∀ ch, ch ∈ rx → map_cr (tyopts t) ch ≠ tyeofch (tyopts t)) ∨
  rhead (tyi t) + Z.of_nat (length (st.1 ++ st.2)) + Z.of_nat (length rx) < TY_IBUFLEN.

Lemma edit_length o d c ch :
  (length (edit o (d, c) ch).1 + length (edit o (d, c) ch).2 ≤ length d + length c + 1)%nat.
Proof.
  unfold edit. pose proof (removelast_length c).
  repeat case_match; cbn; rewrite ?length_app; cbn; lia.
Qed.

Lemma typed_length mode o st ch :
  (length ((typed mode o st ch).1 ++ (typed mode o st ch).2) ≤ length (st.1 ++ st.2) + 1)%nat.
Proof.
  destruct st as [d c]. rewrite !length_app. cbn [fst snd].
  pose proof (edit_length o d c (map_cr o ch)). unfold typed.
  destruct mode; cbn [fst snd]; rewrite ?length_app; cbn [length]; [lia|..];
    destruct (flow_char _ _); cbn [fst snd]; rewrite ?length_app; cbn [length]; lia.
Qed.

Lemma eof_clear_step t t' st st' ch rx :
  same_line t t' → (length (st'.1 ++ st'.2) ≤ length (st.1 ++ st.2) + 1)%nat →
  eof_clear t st (ch :: rx) → eof_clear t' st' rx.
Proof.
  intros Hsl Hlen [H|H]; [left|right]; rewrite ?(sl_opts _ _ Hsl), ?(sl_head _ _ Hsl).
  - intros c Hc. apply H. by right.
  - cbn [length] in H. lia.
Qed.

Lemma eof_clear_safe t st ch rx :
  tty_in t st → eof_clear t st (ch :: rx) → eof_safe t (map_cr (tyopts t) ch).
Proof.
  intros [[_ Hh _ Ht _] _ _ _] [H|H] Heq; unfold TY_IBUFLEN in *.
  - exfalso. by apply (H ch); [left|].
  - cbn [length] in H. rewrite Ht, Z.mod_small; lia.
Qed.

Lemma typed_ok_trans m s s1 s2 t t1 e st st1 st2 r0 r1 :
  typed_ok m (rx_read r0 s) s1 t e st st1 → same_line t t1 → u_rx (uart (dev s2)) = [] →
  typed_ok m (rx_read r1 s1) s2 t1
    (set_scount (scount e + Z.of_nat (length st1.1) - Z.of_nat (length st.1)) e) st1 st2 →
  typed_ok m (rx_read [] s) s2 t e st st2.
Proof.
  intros [H1 _ H3 H4 H5 H6 H7] Hsl Hr2 [I1 (t2 & Ht2 & Hin2 & Hsl2) I3 I4 I5 I6 I7]. cbn in *. split.
  - done.
  - exists t2. split_and!; [done|done|by etrans].
  - rewrite I3, H3, (sl_isem _ _ Hsl), insert_insert_eq. cbn. f_equal. destruct e. cbn.
    unfold set_scount. cbn. f_equal. lia.
  - done.
  - by rewrite I5.
  - by rewrite I6.
  - by rewrite I7.
Qed.

Lemma rx_loop_spec m rx : ∀ Q s t e st,
  handling Q s → ttytab (dev s) !! m = Some t → tty_in t st → semtab s !! tyisem t = Some e →
  sstate e = S_USED → scount e ≤ Z.of_nat (length st.1) → u_rx (uart (dev s)) = rx →
  Forall (λ ch, 0 ≤ ch < 256) rx →
  Z.of_nat (length (st.1 ++ st.2)) + Z.of_nat (length rx) < TY_IBUFLEN →
  eof_clear t st rx →
  ∃ s2, rx_loop (length rx) m s = Done tt s2 ∧ u_rx (uart (dev s2)) = [] ∧
    typed_ok m (rx_read [] s) s2 t e st (typed_all t st rx).
Proof.
  induction rx as [|ch rx IH]; intros Q s t e st HQ Ht Hin He Hu Hcnt Hrx Hch Hroom Heof.
  - exists s. split; [done|]. split; [done|]. cbn. split; try done.
    + by exists Q.
    + by exists t.
    + cbn. replace (_ - _) with (scount e) by lia. symmetry. apply insert_id. rewrite He. by destruct e.
  - cbn [length rx_loop] in *. kred. rewrite Hrx. kred. apply Forall_cons in Hch as [Hch0 Hch].
    assert (tty_ready Q m s t e st) as Hr by (split; try done; unfold TY_IBUFLEN in *; lia).
    destruct (handle_in_spec Q m s t e st ch rx Hr Hrx Hch0) as (s1 & E1 & Hok1);
      [by eapply eof_clear_safe|].
    rewrite E1. kred. pose proof Hok1 as [[Q1 HQ1] (t1 & Ht1 & Hin1 & Hsl1) Hs1 Hrx1 _ _ _].
    pose proof (typed_length (tyimode t) (tyopts t) st ch) as Hlen.
    set (st1 := typed (tyimode t) (tyopts t) st ch) in *. cbn in Hrx1.
    set (e1 := set_scount (scount e + Z.of_nat (length st1.1) - Z.of_nat (length st.1)) e) in *.
    assert (semtab s1 !! tyisem t1 = Some e1) as He1.
    { rewrite Hs1, (sl_isem _ _ Hsl1). apply lookup_insert_eq. }
    destruct (IH Q1 s1 t1 e1 st1) as (s2 & E2 & Hn2 & Hok2); try done.
    { cbn. lia. } { unfold TY_IBUFLEN in *. lia. } { by eapply eof_clear_step. }
    exists s2. split; [done|]. split; [done|].
    unfold typed_all in *. rewrite (sl_mode _ _ Hsl1), (sl_opts _ _ Hsl1) in Hok2. cbn [foldl].
    by eapply typed_ok_trans.
Qed.

(** ** The end-of-file character on the last place of the buffer *)

Lemma store_last c r :
  Z.of_nat (length (rbuff r)) = TY_IBUFLEN → rtail r = TY_IBUFLEN - 1 →
  store c r = Some (Ring (rhead r) TY_IBUFLEN (<[Z.to_nat (rtail r) := c]> (rbuff r))).
Proof.
  intros Hl Hr. unfold store. rewrite bool_decide_eq_true_2 by (rewrite Hl, Hr; done).
  rewrite Hr at 1. done.
Qed.

Lemma store_past c r : rtail r = Z.of_nat (length (rbuff r)) → store c r = None.
Proof. intros Hr. unfold store. rewrite bool_decide_eq_false_2; [done|lia]. Qed.

(** The start of ttyhandle_in for a character that is neither the return
    character nor one of the flow control, in cooked mode. *)
Lemma handle_in_cooked Q m s t e ch r :
  handling Q s → ttytab (dev s) !! m = Some t → semtab s !! tyisem t = Some e → sstate e = S_USED →
  tyimode t = TY_IMCOOKED → u_rx (uart (dev s)) = ch :: r → 0 ≤ ch < 256 →
  map_cr (tyopts t) ch = ch → flow_char (tyopts t) ch = false →
  ttyhandle_in m s = in_cooked m ch (set_tty m (set_tyoheld false t) (rx_read r s)).
Proof.
  intros HQ Ht He Hu Hm Hrx Hch Hcr Hfl. unfold ttyhandle_in. kred. unfold uart_read at 1.
  rewrite Hrx, u8_id by done. kred. fold (rx_read r s). set (s0 := rx_read r s).
  rewrite (gettty_some m s0 t Ht). kred.
  rewrite (in_avail_spec Q s0 t e); [|by apply (handling_csim Q s)|done|done]. kred.
  rewrite Hm, (bool_decide_eq_false_2 (TY_IMCOOKED = TY_IMRAW)) by done.
  fold (map_cr (tyopts t) ch). rewrite Hcr. unfold flow_char in Hfl.
  apply andb_false_iff in Hfl as [Hfl|[Hf1 Hf2]%orb_false_iff]; rewrite ?Hfl, ?Hf1, ?Hf2, ?andb_false_r; cbn [andb];
    kred; rewrite (settty_some m _ s0 t Ht); kred;
    by rewrite (bool_decide_eq_false_2 (TY_IMCOOKED = TY_IMCBREAK)).
Qed.

(** The guards of in_cooked, with the settings of ttyinit, for a character that
    none of them is about. *)
Definition plain (ch : Z) : Prop := 0 ≤ ch < 256 ∧ ch ∉ [8; 127; 21; 10; 13; 17; 19].

Lemma plain_guards ch :
  plain ch →
  (bool_decide (ch = tyikillc init_opts) = false ∧
   bool_decide (ch = tyierasec init_opts) = false ∧ bool_decide (ch = tyierasec2 init_opts) = false ∧
   bool_decide (ch = TY_NEWLINE) = false ∧ bool_decide (ch = TY_RETURN) = false) ∧
  map_cr init_opts ch = ch ∧ flow_char init_opts ch = false.
Proof.
  intros [_ Hp]. repeat setoid_rewrite not_elem_of_cons in Hp. destruct_and! Hp.
  assert (bool_decide (ch = TY_RETURN) = false) as Hret by by apply bool_decide_eq_false.
  unfold map_cr, flow_char. rewrite Hret. cbn [andb tyoflow init_opts tyostart tyostop].
  split_and!; try done; try by apply bool_decide_eq_false.
  rewrite !bool_decide_eq_false_2 by done. done.
Qed.

Lemma in_cooked_plain Q m s t e ch :
  handling Q s → ttytab (dev s) !! m = Some t → semtab s !! tyisem t = Some e → sstate e = S_USED →
  tyopts t = init_opts → plain ch → Z.max 0 (scount e) + tyicursor t < TY_IBUFLEN - 1 →
  in_cooked m ch s =
    (if bool_decide (ch = TY_EOFCH) then
      when (tyiecho t) (echoch ch m);;
      if bool_decide (tyicursor t ≠ 0) then ret tt
      else
        ttyop m (λ t, r ← store ch (tyi t); Some (tt, set_tyi r t));;
        _ ← signal (tyisem t);
        ret tt
     else
      when (tyiecho t) (echoch ch m);;
      settty m (λ t, set_tyicursor (tyicursor t + 1) t);;
      ttyop m (put_in ch)) s.
Proof.
  intros HQ Ht He Hu Ho Hp Hc. destruct (plain_guards ch Hp) as ((G1 & G2 & G3 & G4 & G5) & _).
  unfold in_cooked. kred. rewrite (gettty_some _ _ _ Ht). kred.
  rewrite Ho, G1, G2, G3, G4, G5. cbn [andb orb tyierase tyikill init_opts tyeofch tyeof].
  kred. rewrite (in_avail_spec Q s t e) by done. kred. rewrite bool_decide_eq_false_2 by lia.
  by rewrite andb_true_r.
Qed.

(** The end-of-file character on the last place. *)
Lemma eof_past_end Q m s t e d r :
  tty_ready Q m s t e (d, []) → tyimode t = TY_IMCOOKED → tyopts t = init_opts →
  rtail (tyi t) = TY_IBUFLEN - 1 → u_rx (uart (dev s)) = TY_EOFCH :: r →
  ∃ s1 t1 Q1 e1, ttyhandle_in m s = Done tt s1 ∧ handling Q1 s1 ∧ ttytab (dev s1) !! m = Some t1 ∧
    tyopts t1 = init_opts ∧ tyimode t1 = TY_IMCOOKED ∧ semtab s1 !! tyisem t1 = Some e1 ∧
    sstate e1 = S_USED ∧ scount e1 ≤ Z.of_nat (length d) + 1 ∧ tyicursor t1 = 0 ∧ echo_ok (tye t1) ∧
    rtail (tyi t1) = TY_IBUFLEN ∧ Z.of_nat (length (rbuff (tyi t1))) = TY_IBUFLEN ∧
    u_rx (uart (dev s1)) = r.
Proof.
  intros [HQ Ht Hin He Hu Hcnt Hroom] Hm Ho Htail Hrx. cbn [fst snd] in *.
  rewrite app_nil_r in Hroom. pose proof (ti_cursor _ _ Hin) as Hcur. cbn in Hcur.
  assert (plain TY_EOFCH) as Hp by (split; [done|rewrite !not_elem_of_cons; unfold TY_EOFCH; split_and!; try done; apply not_elem_of_nil]).
  destruct (plain_guards _ Hp) as (_ & Hcr & Hfl). rewrite <-Ho in Hcr, Hfl.
  rewrite (handle_in_cooked Q m s t e TY_EOFCH r) by done.
  set (t0 := set_tyoheld false t). set (s0 := set_tty m t0 (rx_read r s)).
  assert (handling Q s0) as HQ0 by (by apply (handling_csim Q s)).
  rewrite (in_cooked_plain Q m s0 t0 e); [|done|apply set_tty_at|done|done|done|done|cbn; unfold TY_IBUFLEN in *; lia].
  rewrite bool_decide_eq_true_2 by done.
  assert (tty_in t0 (d, [])) as Hin0 by (destruct Hin; by split).
  destruct (echo_step m (when (tyiecho t0) (echoch TY_EOFCH m)) s0 t0 (d, []))
    as (s1 & t1 & E1 & Ht1 & Hin1 & Hsl1 & Ho1 & Hi1 & Hc1); [auto with echo|apply set_tty_at|done|].
  kred. rewrite E1. kred. rewrite bool_decide_eq_false_2 by (intros Hn; by apply Hn).
  assert (rtail (tyi t1) = TY_IBUFLEN - 1) as Htail1 by (by rewrite Hi1).
  pose proof (rv_len _ _ _ (ti_ring _ _ Hin1)) as Hlen1.
  kred. erewrite ttyop_some; [|exact Ht1|by rewrite (store_last _ _ Hlen1 Htail1)]. kred.
  set (t2 := set_tyi _ t1).
  destruct (signal_handling Q (set_tty m t2 s1) (tyisem t0) e) as (s3 & Q3 & E3 & HQ3 & Hst3 & Hk3).
  { apply (handling_tty Q s1); [by split|]. by apply (handling_tty Q s0). }
  { cbn. rewrite (cs_semtab _ _ (ot_csim _ _ Ho1)). done. } { done. }
  { unfold INT_MAX, TY_IBUFLEN in *. lia. }
  rewrite E3. kred. destruct Hk3 as [K1 K2 K3 K4 K5 K6].
  exists s3, t2, Q3, (set_scount (scount e + 1) e). split_and!; try done.
  - rewrite K6. apply set_tty_at.
  - cbn. by rewrite (sl_opts _ _ Hsl1).
  - cbn. by rewrite (sl_mode _ _ Hsl1).
  - rewrite Hst3. cbn. rewrite (sl_isem _ _ Hsl1). apply lookup_insert_eq.
  - cbn. lia.
  - cbn. by rewrite Hc1.
  - apply Hin1.
  - cbn. by rewrite length_insert.
  - rewrite K6. cbn. by rewrite (ot_rx _ _ Ho1).
Qed.

(** With the tail pointer behind the buffer, the next character faults. *)
Lemma next_faults Q m s t e ch r :
  handling Q s → ttytab (dev s) !! m = Some t → semtab s !! tyisem t = Some e → sstate e = S_USED →
  tyopts t = init_opts → tyimode t = TY_IMCOOKED → scount e < TY_IBUFLEN - 1 → tyicursor t = 0 →
  echo_ok (tye t) → rtail (tyi t) = TY_IBUFLEN → Z.of_nat (length (rbuff (tyi t))) = TY_IBUFLEN →
  u_rx (uart (dev s)) = ch :: r → plain ch → ch ≠ TY_EOFCH →
  ttyhandle_in m s = Fault.
Proof.
  intros HQ Ht He Hu Ho Hm Hcnt Hcur Hech Htail Hlen Hrx Hp Hne.
  destruct (plain_guards _ Hp) as (_ & Hcr & Hfl). rewrite <-Ho in Hcr, Hfl.
  rewrite (handle_in_cooked Q m s t e ch r) by (done || apply Hp).
  set (t0 := set_tyoheld false t). set (s0 := set_tty m t0 (rx_read r s)).
  rewrite (in_cooked_plain Q m s0 t0 e); [|by apply (handling_csim Q s)|apply set_tty_at|done|done|done|done|
    cbn; unfold TY_IBUFLEN in *; lia].
  rewrite bool_decide_eq_false_2 by done.
  destruct (echoing_when m (tyiecho t0) _ (echoing_echoch m ch) s0 t0 (set_tty_at _ _ _) Hech)
    as (re & s1 & E1 & Ht1 & _ & _).
  kred. rewrite E1. kred. rewrite (settty_some _ _ _ _ Ht1). kred.
  unfold ttyop. rewrite set_tty_at. unfold put_in. cbn. rewrite store_past; [done|]. cbn. lia.
Qed.
