(* ===== verification/TtyOut.v ===== *)
(** The tty driver, output: what ttyputc and ttywrite put into the output buffer
    and what ttyhandle_out moves from there, and from the echo buffer, to the
    UART. *)

From S2P Require Import Prelude Types Heap ByteMem DevTypes Kernel KInv Sched Semaphore Tty Ring TtyIn.

(** ** The control block *)

(** The echo buffer holds [el] and the output buffer holds [q]. *)
Record tty_out (t : ttycblk) (el q : list Z) : Prop := Tty_out {
  tq_echo : ring_view TY_EBUFLEN (tye t) el;
  tq_room : Z.of_nat (length el) < TY_EBUFLEN;
  tq_out : ring_view TY_OBUFLEN (tyo t) q }.

(** Everything but the control block and the UART is as before. *)
Record sends (out : list Z) (s s' : kst) : Prop := Sends {
  sd_csim : csim s s';
  sd_defer : Defer s' = Defer s;
  sd_intr : intr s' = intr s;
  sd_rx : u_rx (uart (dev s')) = u_rx (uart (dev s));
  sd_lvl : txfifo_lvl (uart (dev s')) = txfifo_lvl (uart (dev s));
  sd_ier : u_ier (uart (dev s')) = u_ier (uart (dev s));
  sd_tx : u_tx (uart (dev s')) = u_tx (uart (dev s)) ++ out }.

Lemma sends_nil s : sends [] s s.
Proof. split; try done. by rewrite app_nil_r. Qed.

Lemma sends_app o1 o2 s1 s2 s3 : sends o1 s1 s2 → sends o2 s2 s3 → sends (o1 ++ o2) s1 s3.
Proof.
  intros [] []. split; try congruence; [by etrans|].
  by rewrite sd_tx1, sd_tx0, app_assoc.
Qed.

(** Sending one character that was taken out of a buffer. *)
Lemma send_one m t c s :
  ∃ s', uart_write c (set_tty m t s) = Done tt s' ∧ ttytab (dev s') !! m = Some t ∧ sends [c] s s'.
Proof.
  eexists. unfold uart_write, setuart. kred. split; [done|]. cbn.
  split; [apply lookup_insert_eq|]. by split.
Qed.

(** ** The loops of ttyhandle_out *)

Lemma echo_loop_spec m n : ∀ s t el,
  ttytab (dev s) !! m = Some t → ring_view TY_EBUFLEN (tye t) el → Z.of_nat (length el) < TY_EBUFLEN →
  ∃ s' r, echo_loop n m s = Done (n - length el)%nat s' ∧
    ttytab (dev s') !! m = Some (set_tye r t) ∧ ring_view TY_EBUFLEN r (drop n el) ∧
    sends (take n el) s s'.
Proof.
  induction n as [|n IH]; intros s t el Ht Hv Hl; cbn [echo_loop].
  - exists s, (tye t). split_and!; [done| |by rewrite drop_0|apply sends_nil]. rewrite Ht. by destruct t.
  - kred. rewrite (gettty_some _ _ _ Ht). kred. rewrite (ring_empty _ _ _ Hv Hl).
    destruct el as [|c el].
    { rewrite bool_decide_eq_true_2 by done. exists s, (tye t).
      split_and!; [done| |done|apply sends_nil]. rewrite Ht. by destruct t. }
    rewrite bool_decide_eq_false_2 by done. kred.
    destruct (ring_get _ _ _ _ Hv) as (r & Hf & Hv1).
    erewrite ttyop_some; [|exact Ht|unfold get_echo; rewrite Hf; reflexivity]. kred.
    destruct (send_one m (set_tye (wrap_head TY_EBUFLEN r) t) c s) as (s1 & E1 & Ht1 & Hs1).
    rewrite E1. kred. cbn [length] in Hl.
    destruct (IH s1 _ el Ht1 Hv1 ltac:(lia)) as (s2 & r2 & E2 & Ht2 & Hv2 & Hs2).
    exists s2, r2. rewrite E2. split_and!; [done|done|done|]. cbn [take]. by apply (sends_app [c] _ s s1).
Qed.

Lemma out_loop_spec m n : ∀ s t q avail ochars,
  ttytab (dev s) !! m = Some t → ring_view TY_OBUFLEN (tyo t) q → avail = Z.of_nat (length q) →
  ∃ s' r, out_loop n m avail ochars s = Done (ochars + Z.of_nat (length (take n q))) s' ∧
    ttytab (dev s') !! m = Some (set_tyo r t) ∧ ring_view TY_OBUFLEN r (drop n q) ∧
    sends (take n q) s s'.
Proof.
  induction n as [|n IH]; intros s t q avail ochars Ht Hv ->; cbn [out_loop].
  - exists s, (tyo t). split_and!; [by rewrite Z.add_0_r| |by rewrite drop_0|apply sends_nil].
    rewrite Ht. by destruct t.
  - destruct q as [|c q].
    { rewrite bool_decide_eq_false_2 by done. exists s, (tyo t).
      split_and!; [by rewrite Z.add_0_r| |done|apply sends_nil]. rewrite Ht. by destruct t. }
    rewrite bool_decide_eq_true_2 by (cbn; lia). kred.
    destruct (ring_get _ _ _ _ Hv) as (r & Hf & Hv1).
    erewrite ttyop_some; [|exact Ht|unfold get_out; rewrite Hf; reflexivity]. kred.
    destruct (send_one m (set_tyo (wrap_head TY_OBUFLEN r) t) c s) as (s1 & E1 & Ht1 & Hs1).
    rewrite E1. kred.
    destruct (IH s1 _ q (Z.of_nat (length (c :: q)) - 1) (ochars + 1) Ht1 Hv1) as (s2 & r2 & E2 & Ht2 & Hv2 & Hs2).
    { cbn [length]. lia. }
    exists s2, r2. rewrite E2. cbn [take length]. split_and!; [f_equal; lia|done|done|].
    by apply (sends_app [c] _ s s1).
Qed.

(** ** ttyhandle_out *)

Definition out_done (el q : list Z) : bool := bool_decide (el = []) && bool_decide (q = []).

(** The output semaphore counts the free places of the output buffer. *)
Definition osem_ok (s : kst) (t : ttycblk) (e : sentry) (q : list Z) : Prop :=
  semtab s !! tyosem t = Some e ∧ sstate e = S_USED ∧ scount e = TY_OBUFLEN - Z.of_nat (length q) ∧
  isbadsem (tyosem t) = false.

Lemma out_idle_spec m s t e el q :
  ttytab (dev s) !! m = Some t → tty_out t el q → osem_ok s t e q →
  out_idle m s = Done (out_done el q) s.
Proof.
  intros Ht [He Hr Hq] (Hs & Hu & Hc & Hb). unfold out_idle, out_done. kred.
  rewrite (gettty_some _ _ _ Ht). kred. rewrite (ring_empty _ _ _ He Hr).
  destruct (bool_decide (el = [])); [|done]. kred.
  rewrite (semcount_used _ _ e) by done. kred. rewrite Hc. cbn [andb]. f_equal.
  apply bool_decide_ext. destruct q; cbn [length]; [split; [done|lia]|split; [lia|done]].
Qed.

Definition ier_off (u : Z) : Z := Z.land u (Z.lnot UART_IER_ETBEI).

(** The state after ttyhandle_out: [out] was sent, [el] and [q] are left. *)
Record sent_ok (m : Z) (s s' : kst) (t : ttycblk) (e : sentry) (out el q : list Z) : Prop := Sent_ok {
  so_inv : ∃ Q', handling Q' s';
  so_tty : ∃ t', ttytab (dev s') !! m = Some t' ∧ tty_out t' el q ∧
    ∃ r1 r2, t' = set_tyo r1 (set_tye r2 t);
  so_sem : semtab s' = <[tyosem t := set_scount (TY_OBUFLEN - Z.of_nat (length q)) e]> (semtab s);
  so_tx : u_tx (uart (dev s')) = u_tx (uart (dev s)) ++ out;
  so_ier : u_ier (uart (dev s')) =
    (if out_done el q then ier_off (u_ier (uart (dev s))) else u_ier (uart (dev s)));
  so_curr : currpid s' = currpid s }.

Lemma out_off_some s :
  out_off s = Done tt (set_dev (set_uart (set_u_ier (ier_off (u_ier (uart (dev s)))) (uart (dev s))) (dev s)) s).
Proof. done. Qed.

(** The places freed are signalled, if there are any. *)
Lemma free_places Q s t e n q :
  handling Q s → osem_ok s t e q →
  ∃ s' Q', (if bool_decide (0 < 0 + Z.of_nat (length (take n q)))
            then _ ← signaln (tyosem t) (0 + Z.of_nat (length (take n q))); ret tt else ret tt) s = Done tt s' ∧
    handling Q' s' ∧ kept s s' ∧
    semtab s' = <[tyosem t := set_scount (TY_OBUFLEN - Z.of_nat (length (drop n q))) e]> (semtab s).
Proof.
  intros HQ (He & Hu & Hc & Hb). rewrite length_drop, length_take. unfold TY_OBUFLEN in *.
  rewrite Z.add_0_l. case_bool_decide as Hn.
  - destruct (signaln_handling Q s (tyosem t) e (Z.of_nat (n `min` length q)))
      as (s' & Q' & E & HQ' & Hs' & Hk); [done|done|done|lia|unfold INT_MAX; lia|].
    exists s', Q'. kred. rewrite E. kred. split_and!; [done|done|done|]. rewrite Hs'. do 2 f_equal. lia.
  - exists s, Q. split_and!; [done|done|done|]. symmetry. apply insert_id. rewrite He. destruct e. cbn in *.
    unfold set_scount. cbn. do 2 f_equal. lia.
Qed.

Lemma handle_out_spec Q m s t e el q :
  handling Q s → ttytab (dev s) !! m = Some t → tyoheld t = false → tty_out t el q →
  osem_ok s t e q → 0 ≤ txfifo_lvl (uart (dev s)) ≤ UART_FIFO_SIZE →
  let n := Z.to_nat (UART_FIFO_SIZE - txfifo_lvl (uart (dev s))) in
  ∃ s', ttyhandle_out m s = Done tt s' ∧
    sent_ok m s s' t e (take n (el ++ q)) (drop n el) (drop (n - length el) q).
Proof.
  intros HQ Ht Hheld Hto Hos Hlvl n. unfold UART_FIFO_SIZE in *.
  unfold ttyhandle_out. kred. rewrite (gettty_some _ _ _ Ht). kred. rewrite Hheld.
  kred. rewrite (out_idle_spec _ _ _ _ _ _ Ht Hto Hos). kred.
  destruct (out_done el q) eqn:Edone.
  { apply andb_true_iff in Edone as [->%bool_decide_eq_true ->%bool_decide_eq_true].
    rewrite out_off_some. eexists. split; [done|]. cbn [app]; rewrite !drop_nil, take_nil.
    destruct Hos as (He & Hu & Hc & Hb). split; cbn.
    - exists Q. by apply (handling_csim Q s).
    - exists t. split_and!; [done|done|]. exists (tyo t), (tye t). by destruct t.
    - symmetry. apply insert_id. rewrite He. destruct e; cbn in *. by rewrite <-Hc.
    - by rewrite app_nil_r.
    - done.
    - done. }
  kred. unfold UART_FIFO_SIZE. rewrite s32_id by lia. fold n.
  destruct Hto as [Hve Hre Hvq]. pose proof Hos as (He & Hu & Hc & Hb).
  destruct (echo_loop_spec m n s t el Ht Hve Hre) as (s1 & r1 & E1 & Ht1 & Hv1 & Hs1).
  kred. rewrite E1. kred.
  rewrite (semcount_used s1 _ e) by (done || by rewrite (cs_semtab _ _ (sd_csim _ _ _ Hs1))). kred.
  destruct (out_loop_spec m (n - length el) s1 _ q (TY_OBUFLEN - scount e) 0 Ht1 Hvq)
    as (s2 & r2 & E2 & Ht2 & Hv2 & Hs2); [lia|].
  kred. rewrite E2. kred. pose proof (sends_app _ _ _ _ _ Hs1 Hs2) as Hs12.
  set (q' := drop (n - length el) q) in *. set (el' := drop n el) in *.
  set (t2 := set_tyo r2 (set_tye r1 t)) in *.
  assert (handling Q s2) as HQ2.
  { destruct Hs12. apply (handling_csim Q s); [done|congruence|done]. }
  destruct (free_places Q s2 t e (n - length el) q HQ2) as (s3 & Q3 & E3 & HQ3 & Hk & Hst).
  { split; [|done]. by rewrite (cs_semtab _ _ (sd_csim _ _ _ Hs12)). }
  fold q' in Hst. kred. rewrite E3. kred. destruct Hk as [K1 K2 K3 K4 K5 K6].
  assert (tty_out t2 el' q') as Hto2.
  { split; [done| |done]. unfold el'. rewrite length_drop. lia. }
  assert (ttytab (dev s3) !! m = Some t2) as Ht3 by (by rewrite K6).
  rewrite (out_idle_spec m s3 t2 (set_scount (TY_OBUFLEN - Z.of_nat (length q')) e) el' q' Ht3 Hto2).
  2: { split; [rewrite Hst; apply lookup_insert_eq|done]. }
  kred. rewrite take_app. fold q'.
  assert (∀ s4, (∃ Q4, handling Q4 s4) → ttytab (dev s4) !! m = Some t2 → semtab s4 = semtab s3 →
    u_tx (uart (dev s4)) = u_tx (uart (dev s3)) → currpid s4 = currpid s3 →
    u_ier (uart (dev s4)) = (if out_done el' q' then ier_off (u_ier (uart (dev s3))) else u_ier (uart (dev s3))) →
    sent_ok m s s4 t e (take n el ++ take (n - length el) q) el' q') as Hfin.
  { intros s4 HQ4 Ht4 Hs4 Htx4 Hc4 Hi4. destruct Hs12. split.
    - done.
    - exists t2. split_and!; [done|done|]. by exists r2, r1.
    - by rewrite Hs4, Hst, (cs_semtab _ _ sd_csim0).
    - by rewrite Htx4, K6.
    - by rewrite Hi4, K6, sd_ier0.
    - rewrite Hc4, K1. apply sd_csim0. }
  destruct (out_done el' q') eqn:E4.
  - rewrite out_off_some. eexists. split; [done|]. apply Hfin; try done.
    exists Q3. by apply (handling_csim Q3 s3).
  - eexists. split; [done|]. apply Hfin; try done. by exists Q3.
Qed.
