(* ===== verification/TtyUp.v ===== *)
(** The upper half of the tty driver: ttygetc and ttyread take characters from
    the input buffer, ttyputc and ttywrite put them into the output buffer.  The
    specifications are for calls that find the semaphore's count positive; a call
    that finds it not positive is one of wait (see wait_blocks). *)

From S2P Require Import Prelude Types Heap ByteMem DevTypes Kernel KInv Sched Semaphore UserMem Tty Ring TtyIn TtyOut.

(** What a call leaves as it is. *)
Record same_call (s s' : kst) : Prop := Same_call {
  sc_hp : hp s' = hp s;
  sc_curr : currpid s' = currpid s;
  sc_intr : intr s' = intr s }.

#[export] Instance same_call_equiv : PreOrder same_call.
Proof. split; [by split|]. intros s1 s2 s3 [] []. split; congruence. Qed.

(** ** ttygetc *)

Definition eof_read (t : ttycblk) (ch : Z) : bool :=
  bool_decide (tyimode t = TY_IMCOOKED) && tyeof (tyopts t) && bool_decide (ch = tyeofch (tyopts t)).

(** Readers see the input buffer as the list of the available characters. *)
Lemma getc_spec Q m s t e c d cur :
  InvQ Q s → ttytab (dev s) !! m = Some t → tty_in t (c :: d, cur) →
  semtab s !! tyisem t = Some e → sstate e = S_USED → 0 < scount e →
  ∃ s' t', ttygetc m s = Done (if eof_read t c then EOF else c) s' ∧ InvQ Q s' ∧ same_call s s' ∧
    ttytab (dev s') !! m = Some t' ∧ tty_in t' (d, cur) ∧ tyopts t' = tyopts t ∧
    tyimode t' = tyimode t ∧ tyisem t' = tyisem t ∧
    semtab s' = <[tyisem t := set_scount (scount e - 1) e]> (semtab s).
Proof.
  intros HQ Ht [Hr Hcur Hec Hm] He Hu Hc. cbn in Hr.
  destruct (wait_passes Q s (tyisem t) e HQ He Hu Hc) as [Ew HQ1].
  destruct (ring_get _ _ _ _ Hr) as (r & Hf & Hv).
  unfold ttygetc. kred. rewrite (gettty_some _ _ _ Ht). kred. rewrite Ew. kred.
  erewrite ttyop_some; [|exact Ht|unfold get_in; rewrite Hf; reflexivity]. kred.
  rewrite (gettty_some _ _ _ (set_tty_at _ _ _)). kred.
  eexists _, (set_tyi (wrap_head TY_IBUFLEN r) t).
  split; [|split; [|split; [|split; [apply set_tty_at|]]]].
  - unfold eof_read. cbn [tyimode tyopts set_tyi].
    by destruct (bool_decide (tyimode t = TY_IMCOOKED) && tyeof (tyopts t) && bool_decide (c = tyeofch (tyopts t))).
  - apply InvQ_dev. by inv_frame HQ1.
  - by split.
  - by split_and!; [split|..].
Qed.

(** ** ttyread in cooked mode: one line *)

Definition is_nl (ch : Z) : Prop := ch = TY_NEWLINE ∨ ch = TY_RETURN.

(** [ch] and the characters [w] that follow it are the rest of a line. *)
Fixpoint line_end (ch : Z) (w : list Z) : Prop :=
  match w with [] => is_nl ch | x :: w => ¬ is_nl ch ∧ line_end x w end.

(** At most [n] characters of them. *)
Fixpoint line_part (n : nat) (ch : Z) (w : list Z) : Prop :=
  match w, n with
  | [], O => True
  | [], S _ => is_nl ch
  | x :: w, S n => ¬ is_nl ch ∧ line_part n x w
  | _ :: _, O => False
  end.

Lemma line_take n : ∀ ch w, line_end ch w → line_part n ch (take n w).
Proof. induction n as [|n IH]; intros ch [|x w]; cbn; [done..|]. intros [? ?]. auto. Qed.

(** The state when [w] was read into the caller's buffer at [a]. *)
Record read_ok (m : Z) (s s' : kst) (t : ttycblk) (e : sentry) (l : list (Z * Z)) (Q : gmap Z (list Z))
    (a : Z) (w d cur : list Z) : Prop := Read_ok {
  rd_inv : InvQ Q s';
  rd_heap : heap_ok (hp s') l;
  rd_tty : ∃ t', ttytab (dev s') !! m = Some t' ∧ tty_in t' (d, cur) ∧ tyopts t' = tyopts t ∧
    tyimode t' = tyimode t ∧ tyisem t' = tyisem t;
  rd_sem : semtab s' = <[tyisem t := set_scount (scount e - Z.of_nat (length w)) e]> (semtab s);
  rd_bytes : bytes_in (hp s') a w;
  rd_frame : ∀ i, ¬ a ≤ i < a + Z.of_nat (length w) → ldb i (hp s') = ldb i (hp s);
  rd_curr : currpid s' = currpid s;
  rd_intr : intr s' = intr s }.

(** Reading one more character and storing it. *)
Lemma read_one Q m s t e l a c d cur n :
  InvQ Q s → heap_ok (hp s) l → ttytab (dev s) !! m = Some t → tty_in t (c :: d, cur) →
  semtab s !! tyisem t = Some e → sstate e = S_USED → 0 < scount e → eof_read t c = false →
  0 ≤ c < 256 → 0 < n → user_buf (hp s) l a n →
  ∃ s', (c ← ttygetc m; hwrite (stb a c);; ret c) s = Done c s' ∧
    read_ok m s s' t e l Q a [c] d cur ∧ user_buf (hp s') l a n.
Proof.
  intros HQ Hok Ht Hin He Hu Hc Heof Hcb Hn Hbuf.
  destruct (getc_spec Q m s t e c d cur) as (s1 & t1 & E1 & HQ1 & [K1 K2 K3] & Ht1 & Hin1 & Ho & Hm & Hi & Hs1);
    [done..|]. rewrite Heof in E1.
  rewrite <-K1 in Hok, Hbuf. destruct (put_user Q s1 l a c n HQ1 Hok Hbuf Hn Hcb) as
    (h' & E2 & HQ2 & Hok2 & Hbuf2 & Ha & Hfr).
  exists (set_hp h' s1). kred. rewrite E1. kred. rewrite E2. kred. split; [done|]. split; [|done].
  split; cbn; try done.
  - by exists t1.
  - intros i Hi'. rewrite Hfr by lia. by rewrite K1.
Qed.

Lemma read_ok_cons m s s1 s2 t t1 e l Q Q1 a c w d d1 cur cur1 :
  read_ok m s s1 t e l Q1 a [c] d1 cur1 →
  tyopts t1 = tyopts t → tyimode t1 = tyimode t → tyisem t1 = tyisem t →
  read_ok m s1 s2 t1 (set_scount (scount e - 1) e) l Q (a + 1) w d cur →
  read_ok m s s2 t e l Q a (c :: w) d cur.
Proof.
  intros [_ _ _ Hs1 Hby1 Hfr1 Hcu1 Hin1] Ho1 Hm1 Hi1
    [HQ2 Hok2 (t2 & Ht2 & Hin2 & Ho2 & Hm2 & Hi2) Hs2 Hby2 Hfr2 Hcu2 Hin2'].
  split; try done; try congruence.
  - exists t2. split_and!; try done; congruence.
  - rewrite Hs2, Hs1, Hi1, insert_insert_eq. f_equal. destruct e. cbn. unfold set_scount. cbn. f_equal. lia.
  - cbn. split; [|done]. rewrite Hfr2 by lia. apply Hby1.
  - intros i Hi. cbn [length] in Hi. rewrite Hfr2 by lia. apply Hfr1. cbn. lia.
Qed.

Lemma read_line_spec m w : ∀ Q s t e l a nread ch n d cur,
  InvQ Q s → heap_ok (hp s) l → ttytab (dev s) !! m = Some t → tty_in t (w ++ d, cur) →
  semtab s !! tyisem t = Some e → sstate e = S_USED → Z.of_nat (length w) ≤ scount e →
  (∀ c, c ∈ w → eof_read t c = false ∧ 0 ≤ c < 256) → line_part n ch w →
  user_buf (hp s) l a (Z.of_nat (length w)) → 0 ≤ a → a + Z.of_nat (length w) < 4294967296 →
  ∃ s', read_line n m a nread ch s = Done (nread + Z.of_nat (length w)) s' ∧
    read_ok m s s' t e l Q a w d cur.
Proof.
  induction w as [|c w IH]; intros Q s t e l a nread ch n d cur HQ Hok Ht Hin He Hu Hc Hw Hend Hbuf Ha0 Ha.
  - assert (read_line n m a nread ch s = Done nread s) as ->.
    { destruct n as [|n]; cbn [read_line]; [done|].
      destruct Hend as [-> | ->]; [rewrite bool_decide_eq_false_2 by (by intros [])|];
        [done|]. rewrite (bool_decide_eq_false_2 (TY_RETURN ≠ TY_RETURN)) by (by intros []).
      by rewrite andb_false_r. }
    exists s. rewrite Z.add_0_r. split; [done|]. split; try done.
    + by exists t.
    + cbn. rewrite Z.sub_0_r. symmetry. apply insert_id. rewrite He. by destruct e.
  - destruct n as [|n]; [done|]. cbn [line_part length] in *. destruct Hend as [Hnl Hend].
    cbn [read_line]. unfold is_nl in Hnl.
    rewrite (bool_decide_eq_true_2 (ch ≠ TY_NEWLINE)), (bool_decide_eq_true_2 (ch ≠ TY_RETURN)) by tauto.
    destruct (Hw c ltac:(by left)) as [Heof Hcb].
    destruct (read_one Q m s t e l a c (w ++ d) cur (Z.of_nat (S (length w)))) as (s1 & E1 & Hr1 & Hb1);
      [done..|lia|done|done|lia|done|].
    revert E1. cbn [andb]. kred. destruct (ttygetc m s) as [c' s0| | |]; try done. kred.
    destruct (hwrite (stb a c') s0) as [[] s0'| | |] eqn:E2; try done. kred. intros [= -> ->]. kred.
    pose proof Hr1 as [HQ1 Hok1 (t1 & Ht1 & Hin1 & Ho1 & Hm1 & Hi1) Hs1 Hby1 Hfr1 Hcu1 Hin1'].
    rewrite u8_id by done. rewrite u32_id by lia.
    destruct (IH Q s1 t1 (set_scount (scount e - 1) e) l (a + 1) (nread + 1) c n d cur) as (s2 & E3 & Hr2); try done.
    { rewrite Hs1, Hi1. apply lookup_insert_eq. } { cbn. lia. }
    { intros x Hx. unfold eof_read. rewrite Hm1, Ho1. apply Hw. by right. }
    { replace (Z.of_nat (length w)) with (Z.of_nat (S (length w)) - 1) by lia. by apply user_tail. }
    { lia. } { lia. }
    rewrite E3. eexists. split; [f_equal; lia|].
    by eapply read_ok_cons.
Qed.

Lemma ttyread_spec Q m s t e l a c w d cur count :
  InvQ Q s → heap_ok (hp s) l → ttytab (dev s) !! m = Some t → tyimode t = TY_IMCOOKED →
  let line := take (Z.to_nat count) (c :: w) in
  tty_in t (line ++ d, cur) → semtab s !! tyisem t = Some e → sstate e = S_USED →
  Z.of_nat (length line) ≤ scount e → line_end c w →
  (∀ x, x ∈ line → eof_read t x = false ∧ 0 ≤ x < 256) →
  0 < count → user_buf (hp s) l a (Z.of_nat (length line)) → 0 ≤ a →
  a + Z.of_nat (length line) < 4294967296 →
  ∃ s', ttyread m a count s = Done (Z.of_nat (length line)) s' ∧ read_ok m s s' t e l Q a line d cur.
Proof.
  intros HQ Hok Ht Hm line. unfold line. destruct (Z.to_nat count) as [|n] eqn:En.
  { intros _ _ _ _ _ _ Hcount. lia. }
  clear line. cbn [take app length]. set (w' := take n w).
  intros Hin He Hu Hc Hend Hw Hcount Hbuf Ha0 Ha.
  destruct (Hw c ltac:(by left)) as [Heof Hcb].
  destruct (read_one Q m s t e l a c (w' ++ d) cur (Z.of_nat (S (length w')))) as (s1 & E1 & Hr1 & Hb1);
    [done..|lia|done|done|lia|done|].
  unfold ttyread. rewrite bool_decide_eq_false_2 by lia. kred. rewrite (gettty_some _ _ _ Ht). kred.
  rewrite Hm, bool_decide_eq_false_2 by (by intros []). kred.
  revert E1. kred. destruct (ttygetc m s) as [c' s0| | |]; try done. kred.
  destruct (hwrite (stb a c') s0) as [[] s0'| | |] eqn:E2; try done. kred. intros [= -> ->]. kred.
  rewrite bool_decide_eq_false_2 by (unfold EOF; lia). kred. rewrite E2. kred.
  pose proof Hr1 as [HQ1 Hok1 (t1 & Ht1 & Hin1 & Ho1 & Hm1 & Hi1) Hs1 Hby1 Hfr1 Hcu1 Hin1'].
  rewrite u8_id by done. rewrite u32_id by lia.
  destruct (read_line_spec m w' Q s1 t1 (set_scount (scount e - 1) e) l (a + 1) 1 c
    (Z.to_nat (count - 1)) d cur) as (s2 & E3 & Hr2); try done.
  { rewrite Hs1, Hi1. apply lookup_insert_eq. } { cbn. lia. }
  { intros x Hx. unfold eof_read. rewrite Hm1, Ho1. apply Hw. by right. }
  { replace (Z.to_nat (count - 1)) with n by lia. by apply line_take. }
  { replace (Z.of_nat (length w')) with (Z.of_nat (S (length w')) - 1) by lia. by apply user_tail. }
  { lia. } { lia. }
  rewrite E3. eexists. split; [f_equal; lia|].
  by eapply read_ok_cons.
Qed.

(** ** ttyputc and ttywrite *)

(** The output buffer holds [q], and its semaphore counts the free places. *)
Record out_ok (m : Z) (s : kst) (t : ttycblk) (e : sentry) (q : list Z) : Prop := Out_ok {
  oo_tty : ttytab (dev s) !! m = Some t;
  oo_ring : ring_view TY_OBUFLEN (tyo t) q;
  oo_sem : semtab s !! tyosem t = Some e;
  oo_used : sstate e = S_USED;
  oo_count : scount e = TY_OBUFLEN - Z.of_nat (length q) }.

(** [s'] is the state after characters were put: the buffer holds [q], and the
    transmitter's interrupt is enabled. *)
Definition put_ok (m : Z) (Q : gmap Z (list Z)) (s s' : kst) (t : ttycblk) (e : sentry) (q : list Z) : Prop :=
  ∃ r, InvQ Q s' ∧ same_call s s' ∧
    out_ok m s' (set_tyo r t) (set_scount (TY_OBUFLEN - Z.of_nat (length q)) e) q ∧
    semtab s' = <[tyosem t := set_scount (TY_OBUFLEN - Z.of_nat (length q)) e]> (semtab s) ∧
    u_ier (uart (dev s')) = Z.lor UART_IER_ERBFI UART_IER_ETBEI ∧
    u_tx (uart (dev s')) = u_tx (uart (dev s)).

Lemma put_char_spec Q m s t e q ch :
  InvQ Q s → out_ok m s t e q → Z.of_nat (length q) < TY_OBUFLEN →
  ∃ s', put_char m ch s = Done OK s' ∧ put_ok m Q s s' t e (q ++ [ch]).
Proof.
  intros HQ [Ht Hr He Hu Hc] Hn.
  destruct (wait_passes Q s (tyosem t) e HQ He Hu ltac:(lia)) as [Ew HQ1].
  destruct (ring_put _ _ _ ch Hr Hn) as (r & Hf & Hv).
  unfold put_char. kred. rewrite (gettty_some _ _ _ Ht). kred. rewrite Ew. kred.
  erewrite ttyop_some; [|exact Ht|unfold put_out; rewrite Hf; reflexivity]. kred.
  unfold ttykickout, setuart. kred. eexists. split; [done|]. exists (wrap_tail TY_OBUFLEN r).
  assert (scount e - 1 = TY_OBUFLEN - Z.of_nat (length (q ++ [ch]))) as Hcnt.
  { rewrite length_app. cbn. lia. }
  split; [|split; [by split|split; [|split; [cbn; by rewrite Hcnt|by split]]]].
  - apply InvQ_dev. by inv_frame HQ1.
  - split; cbn; [apply lookup_insert_eq|done| |done|done]. by rewrite lookup_insert_eq, Hcnt.
Qed.

Definition crlf (o : ttyopts) (ch : Z) : list Z :=
  if bool_decide (ch = TY_NEWLINE) && tyocrlf o then [TY_RETURN; TY_NEWLINE] else [ch].

Lemma put_ok_trans m Q s s1 s2 t t1 e q1 q2 :
  put_ok m Q s s1 t e q1 → (∃ r, t1 = set_tyo r t) →
  put_ok m Q s1 s2 t1 (set_scount (TY_OBUFLEN - Z.of_nat (length q1)) e) q2 → put_ok m Q s s2 t e q2.
Proof.
  intros (r1 & HQ1 & Hc1 & _ & Hs1 & Hi1 & Hx1) (r & ->) (r2 & HQ2 & Hc2 & Ho2 & Hs2 & Hi2 & Hx2).
  exists r2. split_and!; [done|by etrans|exact Ho2| |done|congruence].
  rewrite Hs2, Hs1. cbn. by rewrite insert_insert_eq.
Qed.

Lemma ttyputc_spec Q m s t e q ch :
  InvQ Q s → out_ok m s t e q →
  Z.of_nat (length (q ++ crlf (tyopts t) ch)) ≤ TY_OBUFLEN →
  ∃ s', ttyputc m ch s = Done OK s' ∧ put_ok m Q s s' t e (q ++ crlf (tyopts t) ch).
Proof.
  intros HQ Ho Hn. unfold crlf in *. unfold ttyputc. kred. rewrite (gettty_some _ _ _ (oo_tty _ _ _ _ _ Ho)). kred.
  destruct (bool_decide (ch = TY_NEWLINE) && tyocrlf (tyopts t)) eqn:Eb; rewrite length_app in Hn; cbn in Hn.
  - apply andb_true_iff in Eb as [->%bool_decide_eq_true _].
    destruct (put_char_spec Q m s t e q TY_RETURN HQ Ho ltac:(lia)) as (s1 & E1 & Hp1).
    kred. rewrite E1. kred. pose proof Hp1 as (r1 & HQ1 & _ & Ho1 & _).
    destruct (put_char_spec Q m s1 _ _ _ TY_NEWLINE HQ1 Ho1) as (s2 & E2 & Hp2).
    { rewrite length_app. cbn. lia. }
    exists s2. split; [done|]. rewrite <-app_assoc in Hp2. eapply put_ok_trans; [exact Hp1|by eexists|].
    exact Hp2.
  - kred. apply put_char_spec; [done|done|lia].
Qed.

Lemma write_chars_spec m w : ∀ Q s t e q a,
  InvQ Q s → out_ok m s t e q → bytes_in (hp s) a w → 0 ≤ a → a + Z.of_nat (length w) < 4294967296 →
  Z.of_nat (length (q ++ concat (crlf (tyopts t) <$> w))) ≤ TY_OBUFLEN → w ≠ [] →
  ∃ s', write_chars (length w) m a s = Done tt s' ∧
    put_ok m Q s s' t e (q ++ concat (crlf (tyopts t) <$> w)).
Proof.
  induction w as [|c w IH]; intros Q s t e q a HQ Ho Hb Ha0 Ha Hn Hne; [done|].
  cbn [length write_chars bytes_in fmap list_fmap concat] in *. destruct Hb as [Hc Hb].
  rewrite app_assoc in Hn |- *. kred. unfold hread. rewrite Hc. kred.
  destruct (ttyputc_spec Q m s t e q c HQ Ho) as (s1 & E1 & Hp1).
  { rewrite length_app in Hn. lia. }
  rewrite E1. kred. rewrite u32_id by lia. pose proof Hp1 as (r1 & HQ1 & [Hh1 _ _] & Ho1 & _).
  destruct w as [|c2 w].
  { exists s1. split; [done|]. cbn. by rewrite app_nil_r. }
  destruct (IH Q s1 _ _ _ (a + 1) HQ1 Ho1) as (s2 & E2 & Hp2);
    [by rewrite Hh1|lia|lia|exact Hn|done|].
  exists s2. split; [done|]. eapply put_ok_trans; [exact Hp1|by eexists|exact Hp2].
Qed.
