(* ===== verification/Demo.v ===== *)
(** A concrete kernel: sysinit run on a small memory, then a few system calls.
    The states of this file are inputs at which the theorems of the development
    are evaluated. *)

From S2P Require Import Prelude.
From S2P Require Import Types.
From S2P Require Import Queue.
From S2P Require Import Delta.
From S2P Require Import Heap.
From S2P Require Import Kernel.
From S2P Require Import KInv.
From S2P Require Import Sched.
From S2P Require Import Semaphore.
From S2P Require Import Clock.
From S2P Require Import Message.
From S2P Require Import Device.
From S2P Require Import Process.
From S2P Require Import World.
From S2P Require Import Sysinit.
From S2P Require Import BufPool.
From S2P Require Import Ports.
From S2P Require Import DevTypes.
From S2P Require Import Conf.

(** ** Memory of [len] bytes at [lo], all of it free *)
Definition ram (lo len : Z) : gmap Z Z :=
  list_to_map ((λ i, (lo + 4 * i, 0)) <$> seqZ 0 (len / 4)).

Definition fresh_heap (lo len : Z) : heap :=
  Heap (<[lo := 0]> (<[lo + 4 := len]> (ram lo len))) (Memblk lo len) lo (lo + len).

Lemma ram_some lo len a :
  lo mod 4 = 0 → len mod 4 = 0 →
  is_Some (ram lo len !! a) ↔ lo ≤ a < lo + len ∧ a mod 4 = 0.
Proof.
  intros Hlo Hlen. unfold ram.
  rewrite <-not_eq_None_Some, <-not_elem_of_list_to_map, <-list_fmap_compose.
  rewrite list_elem_of_fmap. split.
  - intros Hn. destruct (decide (lo ≤ a < lo + len ∧ a mod 4 = 0)) as [|Hout]; [done|].
    exfalso. apply Hn. intros (i & -> & Hi%elem_of_seqZ). apply Hout. cbn.
    Z.to_euclidean_division_equations; lia.
  - intros [Hr Ha] Hn. apply Hn. exists ((a - lo) / 4). split.
    + cbn. Z.to_euclidean_division_equations; lia.
    + apply elem_of_seqZ. Z.to_euclidean_division_equations; lia.
Qed.

Lemma fresh_heap_ok lo len :
  0 < lo → lo mod 8 = 0 → 8 ≤ len → len mod 8 = 0 → lo + len < 4294967288 →
  heap_ok (fresh_heap lo len) [(lo, len)].
Proof.
  intros Hlo Hlo8 Hlen Hlen8 Hmax. split; cbn.
  - intros a. rewrite !lookup_insert_is_Some', ram_some by (Z.to_euclidean_division_equations; lia).
    split; [intros [?|[?|?]]|intros ?; right; right]; Z.to_euclidean_division_equations; lia.
  - lia.
  - Z.to_euclidean_division_equations; lia.
  - done.
  - rewrite lookup_insert_eq, lookup_insert_ne, lookup_insert_eq by lia. done.
  - lia.
  - lia.
Qed.

(** ** Running calls *)

(** The state when [m] returns, or when it is switched away from. *)
Definition after {A} (m : M A) (s : kst) : kst :=
  match m s with Done _ s' | Switch s' _ | Halt s' => s' | Fault => s end.

Definition stops {A} (o : outcome A) : bool :=
  match o with Done _ _ | Switch _ _ => true | _ => false end.

Definition returns {A} (o : outcome A) : bool := match o with Done _ _ => true | _ => false end.

Lemma after_inv {A} (m : M A) s : safe_call m s → stops (m s) = true → Inv (after m s).
Proof.
  unfold safe_call, after. destruct (m s) as [a s'|s' k| |]; cbn; [by intros (? & _)|by intros (? & _)|done..].
Qed.

Lemma after_done {A} (m : M A) s a s' : m s = Done a s' → after m s = s'.
Proof. unfold after. by intros ->. Qed.

#[export] Instance demo_platform : Platform := {|
  devtab := λ d, Dentry [] (conf_init (λ _, ionull) d) (λ _ _, ionull) ionull (λ _ _, ionull) (λ _ _, ionull)
    (λ _, ionull) ionull (λ _, ionull) (λ _ _ _, ioerr);
  INITRET := 32768 |}.

Lemma demo_close d : driver_ok (dvclose (devtab d)).
Proof. exact ionull_ok. Qed.

(** The clock's handler is the only one installed; every read of its status
    register shows the overflow flag. *)
Definition demo_vec (i : Z) : option (Z → M unit) :=
  if bool_decide (i = 67) then Some (λ _, clkhandler 2) else None.

Lemma demo_vec_ok i h : demo_vec i = Some h → handler_ok (h i).
Proof. unfold demo_vec. case_bool_decide; [|done]. intros [= <-]. apply clkhandler_ok. Qed.

(** ** The state after startup

    The states below are normal forms, so that proofs evaluate an operation and
    not the history that leads to it.  The memory is opaque: it is 8192 bytes at
    4096, all free, and no operation evaluated here looks at it. *)

Lemma demo_heap_sig : {h : heap | heap_ok h [(4096, 8192)] ∧ minheap h = 4096 ∧ maxheap h = 12288}.
Proof. exists (fresh_heap 4096 8192). split; [by apply fresh_heap_ok|done]. Qed.
Definition demo_heap : heap := proj1_sig demo_heap_sig.

Lemma demo_heap_ok : heap_ok demo_heap [(4096, 8192)].
Proof. exact (proj1 (proj2_sig demo_heap_sig)). Qed.

(** The drivers' variables, which no operation evaluated here looks at. *)
Lemma demo_dev : devstate.
Proof. exact dev_bss. Qed.

(** The queue table with all queues empty. *)
Definition empty_entry (i : Z) : qentry :=
  if bool_decide (i < NPROC) then QE 0 0 0
  else if bool_decide (i mod 2 = 0) then QE MAXKEY (i + 1) EMPTY
  else QE MINKEY EMPTY (i - 1).

Definition empty_queues : gmap Z (list Z) :=
  list_to_map ((λ i, (NPROC + 2 * i, [])) <$> seqZ 0 (NSEM + 2)).

Lemma empty_queues_made : queues_made (NSEM + 2) empty_queues.
Proof.
  unfold empty_queues. split.
  - intros q. rewrite <-not_eq_None_Some, <-not_elem_of_list_to_map, <-list_fmap_compose.
    rewrite list_elem_of_fmap. split.
    + intros Hn. destruct (decide (NPROC ≤ q < NPROC + 2 * (NSEM + 2) ∧ q mod 2 = 0)) as [|Hout]; [done|].
      exfalso. apply Hn. intros (i & -> & Hi%elem_of_seqZ). apply Hout. cbn. unfold NPROC in *.
      Z.to_euclidean_division_equations; lia.
    + intros [Hr Hq] Hn. apply Hn. exists ((q - NPROC) / 2). unfold NPROC in *. split.
      * cbn. Z.to_euclidean_division_equations; lia.
      * apply elem_of_seqZ. Z.to_euclidean_division_equations; lia.
  - intros q l Hl%elem_of_list_to_map_2. apply list_elem_of_fmap in Hl as (i & [= _ ->] & _). done.
Qed.

Lemma empty_queues_sys : qsys (table NQENT empty_entry) empty_queues.
Proof.
  destruct empty_queues_made as [Hdom Hnil]. split.
  - apply is_table_table.
  - intros q l Hl. pose proof (Hnil _ _ Hl) as ->.
    destruct (proj1 (Hdom q) (ex_intro _ _ Hl)) as [Hr Hq]. unfold NPROC, NSEM in Hr.
    assert (¬ q < 100 ∧ ¬ q + 1 < 100 ∧ (q + 1) mod 2 ≠ 0 ∧ q < 303) as (H1 & H2 & H3 & H4).
    { split_and!; [lia|lia|..]; Z.to_euclidean_division_equations; lia. }
    split; [|apply NoDup_nil_2|apply Forall_nil_2|apply isbadqid_false; clia|exact Hq|].
    + cbn. unfold nx, pv, queuetail. rewrite !table_lookup by clia. cbn. unfold empty_entry.
      unfold NPROC. rewrite !(bool_decide_eq_false_2 (_ < 100)) by done.
      rewrite (bool_decide_eq_true_2 (q mod 2 = 0)), (bool_decide_eq_false_2 (_ = 0)) by done.
      cbn. split_and!; [done|f_equal; lia|done].
    + unfold ky, queuetail. rewrite table_lookup by clia. cbn. unfold empty_entry, NPROC.
      rewrite (bool_decide_eq_false_2 (_ < 100)), (bool_decide_eq_false_2 (_ = 0)) by done. done.
  - intros q1 q2 l1 l2 x Hl1 _ Hx. rewrite (Hnil _ _ Hl1) in Hx. by apply not_elem_of_nil in Hx.
Qed.

(** Processes: the null process and two suspended ones of priority 20. *)
Definition pnull : procent := Procent PR_CURR 0 0 0 0 prnull 0 0 0 false (vreplicate 5 0).
Definition psusp : procent := Procent PR_SUSP 20 0 0 0 [112; 0] (-1) 0 0 false (vreplicate 5 0).

Definition demo_null : kst :=
  Kst (table NQENT empty_entry) (NPROC + 2 * (NSEM + 2))
    (<[NULLPROC := pnull]> (table NPROC (λ _, zero_procent)))
    1 NULLPROC 1 (table NSEM (λ i, Sentry S_FREE 0 (SEMQ i))) 0 (Defer_ 0 false) RDY SLP QUANTUM 0 0
    demo_heap true
    (Bufpools (table NBPOOLS (λ _, Bpentry 0 0 0)) 0)
    (Portstate (table NPORTS (λ _, Ptentry 0 0 PT_FREE 0 0 0 0)) 0 0)
    (Markstate (table MAXMARK (λ _, 0)) 0 0) demo_dev.

Lemma demo_null_inv : Inv demo_null.
Proof.
  eapply (initial_inv demo_null empty_queues pnull [(4096, 8192)]);
    [exact empty_queues_sys|exact empty_queues_made|reflexivity|reflexivity|reflexivity| | | |
     reflexivity|reflexivity|reflexivity|reflexivity|reflexivity|reflexivity|exact demo_heap_ok].
  - by left.
  - apply is_table_table.
  - intros j e Hj. pose proof (is_table_bound _ _ _ _ (is_table_table NSEM _) Hj) as Hr.
    cbn in Hj. rewrite table_lookup in Hj by done. by injection Hj as <-.
Qed.

Lemma demo_null_sem i : 0 ≤ i < NSEM → semtab demo_null !! i = Some (Sentry S_FREE 0 (SEMQ i)).
Proof. exact (table_lookup NSEM (λ i, Sentry S_FREE 0 (SEMQ i)) i). Qed.

(** A semaphore that nobody waits for may be put into use with any count. *)
Lemma InvQ_new_sem Q s i e c :
  InvQ Q s → semtab s !! i = Some e → sstate e = S_FREE → 0 ≤ c ≤ INT_MAX →
  InvQ Q (set_semtab (<[i := Sentry S_USED c (SEMQ i)]> (semtab s)) s).
Proof.
  intros (Hc & Hsc & Hr & Hd) He Hf Hcnt. destruct (core_semq _ _ _ _ Hc He) as (Hi & _ & l & Hl).
  pose proof (Hsc _ _ _ He Hl) as Hok. unfold sem_ok in Hok. rewrite Hf in Hok. subst l.
  split_and!; [by apply core_setsem| |exact Hr|exact Hd].
  eapply semcnt_update; [exact Hsc|apply Hc|done|done|].
  intros l Hl'. rewrite Hl in Hl'. injection Hl' as <-. unfold sem_ok. cbn. lia.
Qed.

Definition demo_start : kst :=
  set_proctab (<[2 := psusp]> (<[1 := psusp]> (proctab demo_null))) demo_null.

Lemma demo_start_inv : Inv demo_start.
Proof.
  destruct demo_null_inv as [Q HQ]. exists Q.
  assert (InvQ Q (set_proctab (<[1 := psusp]> (proctab demo_null)) demo_null)) as HQ1.
  { apply (InvQ_fill Q demo_null 1 zero_procent psusp); [exact HQ| |done..|by left].
    cbn. rewrite lookup_insert_ne by done. by apply table_lookup. }
  apply (InvQ_fill Q _ 2 zero_procent psusp HQ1); [|done..|by left].
  cbn. rewrite !lookup_insert_ne by done. by apply table_lookup.
Qed.

(** Evaluate a closed goal. *)
Ltac calc := clear; vm_compute; first [reflexivity | discriminate | by split].

(** [demo0]: the null process runs, processes 1 and 2 are suspended. *)
Definition demo0 : kst := Eval vm_compute in demo_start.
Lemma demo0_inv : Inv demo0.
Proof. replace demo0 with demo_start by calc. exact demo_start_inv. Qed.

(** [s'] is the state in which [m], called in [s], returns or is switched away. *)
Lemma next_inv {A} (m : M A) s s' :
  safe_call m s → stops (m s) = true → after m s = s' → Inv s'.
Proof. intros Hs Hst <-. by apply after_inv. Qed.

(** [demo2]: the null process has resumed process 1, which runs. *)
Definition demo2 : kst := Eval vm_compute in after (resume 1) demo0.
Lemma demo2_inv : Inv demo2.
Proof. apply (next_inv (resume 1) demo0); [apply resume_safe, demo0_inv|calc..]. Qed.

(** [demo3]: it has created semaphore 0, with count 1. *)
Definition demo3 : kst := Eval vm_compute in after (semcreate 1) demo2.
Lemma demo3_inv : Inv demo3.
Proof. apply (next_inv (semcreate 1) demo2); [apply semcreate_safe; [apply demo2_inv|calc]|calc..]. Qed.

(** [demo5]: process 1 has resumed process 2; the two share the priority, so
    process 2 runs and process 1 is behind it in the ready list. *)
Definition demo5 : kst := Eval vm_compute in after (resume 2) demo3.
Lemma demo5_inv : Inv demo5.
Proof. apply (next_inv (resume 2) demo3); [apply resume_safe, demo3_inv|calc..]. Qed.

(** [demo6]: process 2 took the semaphore, [demo7]: and, asking for it again,
    waits in its queue; process 1 runs. *)
Definition demo6 : kst := Eval vm_compute in after (wait 0) demo5.
Lemma demo6_inv : Inv demo6.
Proof. apply (next_inv (wait 0) demo5); [apply wait_safe; [apply demo5_inv|calc]|calc..]. Qed.
Definition demo7 : kst := Eval vm_compute in after (wait 0) demo6.
Lemma demo7_inv : Inv demo7.
Proof. apply (next_inv (wait 0) demo6); [apply wait_safe; [apply demo6_inv|calc]|calc..]. Qed.

(** [demo8]: instead of waiting, process 2 sleeps for 5 ticks; process 1 runs. *)
Definition demo8 : kst := Eval vm_compute in after (sleepms 5) demo5.
Lemma demo8_inv : Inv demo8.
Proof. apply (next_inv (sleepms 5) demo5); [apply sleepms_safe; [apply demo5_inv|calc]|calc..]. Qed.

(** ** Reading a queue *)

(** The processes of a queue, by following its links. *)
Fixpoint walk (fuel : nat) (t : gmap Z qentry) (x : Z) : list Z :=
  match fuel with
  | O => []
  | S fuel =>
    if bool_decide (NPROC ≤ x) then []
    else x :: walk fuel t (default 0 (nx t x))
  end.
Definition queue_list (t : gmap Z qentry) (q : Z) : list Z :=
  walk queue_fuel t (default 0 (firstid q t)).

Lemma walk_spec t Q q l1 l2 fuel :
  qsys t Q → Q !! q = Some (l1 ++ l2) → (length l2 < fuel)%nat → walk fuel t (next_of q l2) = l2.
Proof.
  intros Hq. revert l1 fuel. induction l2 as [|x l2 IH]; intros l1 [|fuel] Hl Hf; cbn in Hf; try lia.
  - cbn. rewrite bool_decide_eq_true_2; [done|].
    pose proof (isq_id _ _ _ (qs_queue _ _ Hq _ _ Hl)) as Hid%isbadqid_false. unfold queuetail. lia.
  - pose proof (isq_pids _ _ _ (qs_queue _ _ Hq _ _ Hl)) as Hp. rewrite Forall_forall in Hp.
    assert (0 ≤ x < NPROC) by (apply Hp; set_solver).
    cbn. rewrite bool_decide_eq_false_2 by lia. f_equal.
    rewrite (proj1 (qsys_at t Q q l1 x l2 Hq Hl)). cbn [default].
    apply (IH (l1 ++ [x])); [by rewrite <-app_assoc|lia].
Qed.

Lemma queue_of Q s q l :
  InvQ Q s → valid_q q → queue_list (queuetab s) q = l → Q !! q = Some l.
Proof.
  intros (Hc & _) Hv <-. destruct (core_queue _ _ _ _ Hc Hv) as [l Hl]. rewrite Hl. f_equal.
  pose proof (c_queues _ _ _ Hc) as Hq. unfold queue_list. rewrite (firstid_spec _ _ _ _ Hq Hl).
  symmetry. apply (walk_spec _ Q q []); [done|done|].
  by eapply queue_fuel_enough, (qs_queue _ _ Hq).
Qed.

Lemma semq_of Q s l :
  InvQ Q s → queue_list (queuetab s) (SEMQ 0) = l → Q !! SEMQ 0 = Some l.
Proof. intros HQ. apply queue_of; [done|]. by apply semq_valid. Qed.

(** A state with the invariant and two of its queues. *)
Lemma demo_view s lr ls :
  Inv s → queue_list (queuetab s) RDY = lr → queue_list (queuetab s) SLP = ls →
  ∃ Q p, InvQ Q s ∧ Q !! RDY = Some lr ∧ Q !! SLP = Some ls ∧ proctab s !! currpid s = Some p.
Proof.
  intros [Q HQ] Hr Hs. pose proof HQ as (_ & _ & (p & Hp & _) & _).
  exists Q, p. split_and!; [done|by eapply queue_of; auto with xinu..|done].
Qed.

#[global] Opaque demo0 demo2 demo3 demo5 demo6 demo7 demo8.
