(* ===== verification/SystemThms.v ===== *)
(** The system as a whole: what holds in every state that a booted kernel
    reaches by system calls, interrupts and context switches. *)

From S2P Require Import Prelude.
From S2P Require Import Types.
From S2P Require Import Queue.
From S2P Require Import Delta.
From S2P Require Import Heap.
From S2P Require Import Kernel.
From S2P Require Import KInv.
From S2P Require Import Sched.
From S2P Require Import Semaphore.
From S2P Require Import Clock.
From S2P Require Import Message.
From S2P Require Import Device.
From S2P Require Import Process.
From S2P Require Import World.
From S2P Require Import Sysinit.
From S2P Require Import BufPool.
From S2P Require Import Ports.
From S2P Require Import Conf.
From S2P Require Import Demo.

(** ** Helper lemmas *)

(** The processes that wait for semaphore [i]. *)
Definition waits_for (i : Z) (p : procent) : Prop := prstate p = PR_WAIT ∧ prsem p = i.
#[export] Instance waits_for_dec i p : Decision (waits_for i p).
Proof. unfold waits_for. apply _. Defined.




Section system.
Context `{Platform}.

(** The memory from the linker's [end] on: whole words, room for the null process's
    stack, any contents. *)
Definition machine (e : Z) (m : gmap Z Z) : Prop :=
  0 < e ∧ e + 16384 ≤ MAXADDR ∧ e mod 8 = 0 ∧
  (∀ a, is_Some (m !! a) ↔ e ≤ a < MAXADDR ∧ a mod 4 = 0).

(** The devices of the configuration; [other] are the init functions of those whose
    drivers are not modelled. *)
Context (other : Z → M Z).
Hypothesis conf_ok : ∀ d, 0 ≤ d < NDEVS → dvinit (devtab d) = conf_init other d ∧ other_ok (other d).

Lemma sysinit_outcome e m : machine e m →
  (∃ d s1 s', 0 ≤ d < NDEVS ∧ other d s1 = Halt s' ∧ sysinit e (bss m) = Halt s') ∨
  ∃ s, sysinit e (bss m) = Done tt s ∧ booting s ∧ devices_ready NDEVS s ∧ Z.of_nat (size (used_sems s)) ≤ 3 * NDEVS.
Proof. intros (He & Hbig & He8 & Hm). by apply sysinit_devices. Qed.

(** C4: sysinit, run on zeroed kernel variables and a memory of any contents.  When it
    comes to the devices the invariant holds: the null process is current and alone,
    interrupts are off, all semaphores are free and the free list is one block, the
    memory from [e] on less the null process's stack.  At its end, all devices
    initialised in their order, the invariant holds, interrupts are still off, and no
    process but the null process can run; the console, the RAM disk and the local file
    system have their initial control blocks, and their nine semaphores are different
    ones, in use with the counts that the drivers gave them.  Only the init function of
    a device that is not modelled can stop the processor before that. *)
Theorem sysinit_establishes e m :
  machine e m →
  (∃ s0, sysinit_kernel e (bss m) = Done tt s0 ∧ initial s0 e (MAXADDR - e - NULLSTK)) ∧
  ((∃ s, sysinit e (bss m) = Done tt s ∧ booting s ∧ devices_ready NDEVS s ∧
      length (all_sems (dev s) NDEVS) = 9%nat) ∨
   (∃ d s1 s', 0 ≤ d < NDEVS ∧ other d s1 = Halt s' ∧ sysinit e (bss m) = Halt s')).
Proof.
  intros Hm. split.
  - destruct Hm as (He & Hbig & He8 & Hm). by apply sysinit_inv.
  - destruct (sysinit_outcome e m Hm) as [?|(s & E & Hs & Hd & _)]; [by right|left].
    exists s. split_and!; [done..|by apply all_sems_length].
Qed.

Context (vec : Z → option (Z → M unit)).
Hypothesis close_ok : ∀ d, driver_ok (dvclose (devtab d)).
Hypothesis vec_ok : ∀ i h, vec i = Some h → handler_ok (h i).





End system.

(** ** Witnesses *)

(** A small machine: the linker's [end] is 16384 bytes below the top of memory. *)
Definition demo_end : Z := MAXADDR - 16384.
Definition demo_ram : gmap Z Z := ram demo_end 16384.

Lemma demo_ram_ok a : is_Some (demo_ram !! a) ↔ demo_end ≤ a < MAXADDR ∧ a mod 4 = 0.
Proof. unfold demo_ram. rewrite ram_some by done. unfold demo_end. clear. lia. Qed.

Lemma demo_machine : machine demo_end demo_ram.
Proof. split_and!; [done..|exact demo_ram_ok]. Qed.

Lemma demo_conf d : 0 ≤ d < NDEVS → dvinit (devtab d) = conf_init (λ _, ionull) d ∧ other_ok ionull.
Proof. intros _. split; [done|exact ionull_other]. Qed.






Lemma sysinit_establishes_witness :
  ∃ s, sysinit demo_end (bss demo_ram) = Done tt s ∧ booting s ∧ devices_ready NDEVS s.
Proof.
  destruct (sysinit_establishes (λ _, ionull) demo_conf demo_end demo_ram demo_machine)
    as [_ [(s & E & Hs & Hd & _)|(d & s1 & s' & _ & Hh & _)]]; [|discriminate Hh].
  exists s. split; [exact E|]. split; [exact Hs|exact Hd].
Defined.

(** ** A run with interrupts

    The null process resumes process 1, process 1 resumes process 2, and the clock's
    interrupt uses up the quantum of process 2: process 1 is dispatched in the middle
    of its call, and returns from it. *)
Inductive event := Calls (c : sysc) | Interrupt (n : Z) | Continues.

Definition next (w : world) (ev : event) : world :=
  match w with
  | Running s ks =>
    match ev, ks !! currpid s with
    | Calls c, None => settle (currpid s) ks (run c s)
    | Interrupt n, None => settle (currpid s) ks (obind (irq_except demo_vec n s) (λ _ s', Done OK s'))
    | Continues, Some k => settle (currpid s) (delete (currpid s) ks) (k s)
    | _, _ => w
    end
  | _ => w
  end.

(** Who runs, whether in the kernel, and with which interrupt mask. *)
Definition seen (w : world) : option (Z * bool * bool) :=
  match w with
  | Running s ks => Some (currpid s, bool_decide (is_Some (ks !! currpid s)), intr s)
  | _ => None
  end.

Definition may (w : world) (ev : event) : Prop :=
  match w, ev with
  | Running s ks, Calls c => ks !! currpid s = None ∧ legal s c
  | Running s ks, Interrupt _ => ks !! currpid s = None ∧ intr s = true
  | Running s ks, Continues => is_Some (ks !! currpid s)
  | _, _ => False
  end.

Lemma next_step w ev : may w ev → step demo_vec w (next w ev).
Proof.
  destruct w as [s ks| |]; [|done..]. destruct ev; cbn [may next].
  - intros [Hk Hl]. rewrite Hk. by apply step_call.
  - intros [Hk Hi]. rewrite Hk. by apply step_irq.
  - intros [k Hk]. rewrite Hk. by apply step_resume.
Qed.

Lemma demo_preempted :
  let w1 := next (Running demo0 ∅) (Calls (Resume 1)) in
  let w2 := next w1 (Calls (Resume 2)) in
  let w3 := next w2 (Interrupt 67) in
  let w4 := next w3 (Interrupt 67) in
  let w5 := next w4 Continues in
  reachable demo_vec (Running demo0 ∅) w5 ∧
  seen w1 = Some (1, false, true) ∧ seen w2 = Some (2, false, true) ∧ seen w3 = Some (2, false, true) ∧
  seen w4 = Some (1, true, false) ∧ seen w5 = Some (1, false, true).
Proof.
  intros w1 w2 w3 w4 w5. split; [unfold reachable|by vm_compute].
  assert (∀ w n, seen w = Some (n, false, true) → ∀ k, may w (Interrupt k)) as Hirq.
  { intros [s ks| |] n; [|done..]. cbn [seen may]. case_bool_decide as Hk; [done|]. intros [= _ Hi] _.
    split; [by apply eq_None_not_Some|done]. }
  transitivity w1; [apply rtc_once, next_step; by vm_compute|].
  transitivity w2; [apply rtc_once, next_step; by vm_compute|].
  transitivity w3; [apply rtc_once, next_step, (Hirq _ 2); by vm_compute|].
  transitivity w4; [apply rtc_once, next_step, (Hirq _ 2); by vm_compute|].
  apply rtc_once, next_step.
  assert (seen w4 = Some (1, true, false)) as H4 by (by vm_compute).
  unfold w5. destruct w4 as [s ks| |]; [|done..]. cbn in H4 |- *. by case_bool_decide.
Qed.
