(* ===== verification/SyncThms.v ===== *)
(** Scheduling, semaphores, the clock and messages: what each operation does,
    on every branch. *)

From S2P Require Import Prelude.
From S2P Require Import Types.
From S2P Require Import Queue.
From S2P Require Import Delta.
From S2P Require Import Heap.
From S2P Require Import Kernel.
From S2P Require Import KInv.
From S2P Require Import Sched.
From S2P Require Import Semaphore.
From S2P Require Import Clock.
From S2P Require Import Message.
From S2P Require Import Device.
From S2P Require Import Process.
From S2P Require Import World.
From S2P Require Import Sysinit.
From S2P Require Import BufPool.
From S2P Require Import Ports.
From S2P Require Import Demo.

(** ** Helper lemmas *)

Lemma set_intr_same s : set_intr (intr s) s = s.
Proof. by destruct s. Qed.

(** In a sorted ready list the first key is the largest. *)
Lemma rsorted_head t x l y : rsorted t (x :: l) → y ∈ x :: l → keyof t y ≤ keyof t x.
Proof.
  intros [_ Hall]%StronglySorted_inv Hy. rewrite Forall_forall in Hall.
  apply elem_of_cons in Hy as [->|Hy]; [lia|]. by apply Hall.
Qed.

Lemma prio_above_minkey x Q s pid p :
  core x Q s → proctab s !! pid = Some p → MINKEY < prprio p.
Proof.
  intros Hc Hp. pose proof (c_prio _ _ _ Hc _ _ Hp).
  unfold MINKEY. change (s32 2147483648) with (-2147483648). lia.
Qed.

(** What [ins_split] separates in a sorted list. *)
Lemma ins_split_sorted t key l :
  rsorted t l →
  (∀ y, y ∈ (ins_split (keyof t) key l).1 → key ≤ keyof t y) ∧
  (∀ y, y ∈ (ins_split (keyof t) key l).2 → keyof t y < key).
Proof.
  induction l as [|x l IH]; intros Hs; cbn; [set_solver|].
  pose proof (rsorted_head t x l) as Hh.
  case_bool_decide as Hk; cbn.
  - apply StronglySorted_inv in Hs as [Hs _]. destruct (IH Hs) as [H1 H2]. set_solver.
  - split; [set_solver|]. intros y Hy. pose proof (Hh y Hs Hy). lia.
Qed.

(** ** The scheduler *)

(** C5: resched is the policy of the system: the current process keeps the
    processor when its priority exceeds that of every ready process; otherwise
    the first ready process, whose key no other ready process exceeds, becomes
    current with a fresh quantum, and the process that was current goes to the
    ready list behind all processes whose key is at least its priority. *)
Theorem resched_highest Q s p l :
  InvQ Q s → proctab s !! currpid s = Some p → Q !! RDY = Some l →
  (resched s = Done tt s ∧ ∀ x, x ∈ l → keyof (queuetab s) x < prprio p) ∨
  (∃ x r s1 k, l = x :: r ∧
    (∀ y, y ∈ l → keyof (queuetab s) y ≤ keyof (queuetab s) x) ∧
    prprio p ≤ keyof (queuetab s) x ∧
    resched s = Switch s1 k ∧ currpid s1 = x ∧ x ≠ currpid s ∧ preempt s1 = QUANTUM ∧
    InvQ (<[RDY := q_insert (keyof (queuetab s)) (currpid s) (prprio p) r]> Q) s1).
Proof.
  intros (Hc & Hsc & (p' & Hp' & Hcur) & Hd) Hp Hl. rewrite Hp in Hp'. injection Hp' as <-.
  pose proof (c_sorted _ _ _ Hc _ Hl) as Hs. destruct l as [|x r].
  - left. split; [|set_solver]. eapply resched_stay; [done..|]. by eapply prio_above_minkey.
  - destruct (decide (keyof (queuetab s) x < prprio p)) as [Hlt|Hge].
    + left. split; [by eapply resched_stay|].
      intros y Hy. pose proof (rsorted_head _ _ _ _ Hs Hy). lia.
    + right. destruct (resched_yield Q s p x r) as (s1 & px & Hrun & HI & Hx & Hne & _ & _ & _ & _ & Hq);
        try done; [lia|].
      eexists x, r, s1, _. split_and!; try done; [|lia].
      intros y Hy. by eapply rsorted_head.
Qed.

(** C6: insert keeps a queue in descending order of keys and is stable: the
    new process goes behind the processes whose key is at least its own (first
    come, first served among equals) and before the others. *)
Theorem insert_stable pt t Q q l x key :
  qsys t Q → Q !! q = Some l → isbadpid pt x = false → detached Q x → MINKEY < key →
  rsorted t l →
  ∃ t' l1 l2, l = l1 ++ l2 ∧ insert pt x q key t = Some (OK, t') ∧
    qsys t' (<[q := l1 ++ x :: l2]> Q) ∧
    (∀ y, y ∈ l1 → key ≤ keyof t y) ∧ (∀ y, y ∈ l2 → keyof t y < key) ∧
    rsorted t' (l1 ++ x :: l2).
Proof.
  intros Hq Hl Hb Hd Hk Hs.
  destruct (insert_spec pt t Q q l x key Hq Hl Hb Hd Hk) as (t' & Hins & Hq' & Hky).
  destruct (ins_split_sorted t key l Hs) as [H1 H2].
  exists t', (ins_split (keyof t) key l).1, (ins_split (keyof t) key l).2.
  split_and!; [by rewrite ins_split_app|done|exact Hq'|exact H1|exact H2|].
  apply (rsorted_insert t t' x key l); [done|by eapply Hd| |].
  - unfold keyof. by rewrite Hky, decide_True.
  - intros y Hy. apply keyof_eq. by rewrite Hky, decide_False.
Qed.

(** while rescheduling is deferred resched only records that it was asked
    for; deferrals nest; when the last one ends a rescheduling takes place
    exactly when one was asked for; ending a deferral that was not started, and
    any other command, is an error. *)
Theorem resched_deferral s :
  (0 < ndefers (Defer s) → resched s = Done tt (set_Defer (Defer_ (ndefers (Defer s)) true) s)) ∧
  (0 < ndefers (Defer s) < INT_MAX → resched_cntl DEFER_START s =
    Done OK (set_Defer (Defer_ (ndefers (Defer s) + 1) (attempt (Defer s))) s)) ∧
  (ndefers (Defer s) = 0 → resched_cntl DEFER_START s = Done OK (set_Defer (Defer_ 1 false) s)) ∧
  (1 < ndefers (Defer s) → resched_cntl DEFER_STOP s =
    Done OK (set_Defer (Defer_ (ndefers (Defer s) - 1) (attempt (Defer s))) s)) ∧
  (ndefers (Defer s) = 1 → resched_cntl DEFER_STOP s =
    let s' := set_Defer (Defer_ 0 (attempt (Defer s))) s in
    if attempt (Defer s) then obind (resched s') (λ _ s2, Done OK s2) else Done OK s') ∧
  (ndefers (Defer s) ≤ 0 → resched_cntl DEFER_STOP s = Done SYSERR s) ∧
  (∀ df, df ≠ DEFER_START → df ≠ DEFER_STOP → resched_cntl df s = Done SYSERR s).
Proof.
  unfold resched_cntl, DEFER_START, DEFER_STOP, INT_MAX.
  change (bool_decide (1 = 1)) with true. change (bool_decide (2 = 1)) with false.
  change (bool_decide (2 = 2)) with true. cbn match. split_and!.
  - apply resched_deferred.
  - intros Hd. kred. rewrite bool_decide_eq_false_2 by lia. by rewrite s32_id by lia.
  - intros Hd. kred. by rewrite Hd.
  - intros Hd. kred. rewrite bool_decide_eq_false_2 by lia. kred.
    rewrite bool_decide_eq_false_2 by lia. by kred.
  - intros Hd. kred. rewrite bool_decide_eq_false_2 by lia. kred.
    rewrite Hd. cbn. by destruct (attempt (Defer s)).
  - intros Hd. kred. by rewrite bool_decide_eq_true_2 by lia.
  - intros df H1 H2. by rewrite !bool_decide_eq_false_2.
Qed.

(** ** Semaphores *)

(** C7: wait.  A bad or unused semaphore is an error and nothing changes; a
    positive count is decremented; otherwise the caller joins the end of the
    semaphore's queue, the count is decremented, and the processor goes to the
    first ready process. *)
Theorem wait_call Q s p sem :
  InvQ Q s → currpid s ≠ NULLPROC → proctab s !! currpid s = Some p →
  ((isbadsem sem = true ∨ ∃ e, semtab s !! sem = Some e ∧ sstate e = S_FREE) ∧
     wait sem s = Done SYSERR s) ∨
  (∃ e, semtab s !! sem = Some e ∧ sstate e = S_USED ∧ 0 < scount e ∧
     let s' := set_semtab (<[sem := set_scount (scount e - 1) e]> (semtab s)) s in
     wait sem s = Done OK s' ∧ InvQ Q s') ∨
  (∃ e l x r s1 k, semtab s !! sem = Some e ∧ sstate e = S_USED ∧ scount e ≤ 0 ∧
     Q !! SEMQ sem = Some l ∧ Q !! RDY = Some (x :: r) ∧
     wait sem s = Switch s1 k ∧ currpid s1 = x ∧
     InvQ (<[RDY := r]> (<[SEMQ sem := l ++ [currpid s]]> Q)) s1 ∧
     proctab s1 !! currpid s = Some (set_prsem sem (set_prstate PR_WAIT p)) ∧
     semtab s1 = <[sem := set_scount (scount e - 1) e]> (semtab s)).
Proof.
  intros HQ Hn Hp. pose proof HQ as (Hc & Hsc & (p' & Hp' & Hcur) & Hd).
  rewrite Hp in Hp'. injection Hp' as <-.
  destruct (isbadsem sem) eqn:Hb.
  { left. split; [by left|]. unfold wait. kred. rewrite Hb. kred. by destruct s. }
  destruct (sem_guard _ _ _ Hc Hb) as [e He].
  destruct (decide (sstate e = S_FREE)) as [Hf|Hu%used_dec].
  { left. split; [right; eauto|]. unfold wait. kred. rewrite Hb. kred.
    erewrite getsem_some by done. kred. rewrite bool_decide_eq_true_2 by done. kred. by destruct s. }
  right. destruct (decide (0 < scount e)) as [Hpos|Hle].
  { left. exists e. destruct (wait_passes _ _ _ _ HQ He Hu Hpos) as [Heq HI].
    by split_and!. }
  right. destruct (core_semq _ _ _ _ Hc He) as (Hi & Hsq & l & Hl).
  destruct (wait_blocks _ _ _ _ _ _ HQ Hn Hp He Hu ltac:(lia) Hl)
    as (s2 & Heq & Hc2 & Hsc2 & Hpt & Hst & Hcp & Hdf & _).
  destruct (resched_blocked _ s2 (set_prsem sem (set_prstate PR_WAIT p)) Hc2 Hsc2)
    as (x & r & s1 & px & Hr & Hx & Hsw & HI & Hcx & Hpx & Hpt1 & Hst1 & _);
    [by rewrite Hdf|rewrite Hpt, Hcp; apply lookup_insert_eq|done|done|..].
  pose proof (semq_not_rdy sem Hi) as [Hnr _]. rewrite lookup_insert_ne in Hr by done.
  eexists e, l, x, r, s1, _. split_and!; try done; [by lia|by rewrite Heq, Hsw| |by rewrite Hst1].
  rewrite Hpt1, Hpt, lookup_insert_ne by congruence. apply lookup_insert_eq.
Qed.

(** C8: signal.  A bad or unused semaphore is an error; with no process waiting
    the count is incremented; otherwise the first process of the semaphore's
    queue joins the ready list by its priority, the count is incremented, and
    the processor is rescheduled (see resched_highest). *)
Theorem signal_call Q s sem :
  InvQ Q s → (∀ e, semtab s !! sem = Some e → scount e < INT_MAX) →
  ((isbadsem sem = true ∨ ∃ e, semtab s !! sem = Some e ∧ sstate e = S_FREE) ∧
     signal sem s = Done SYSERR s) ∨
  (∃ e, semtab s !! sem = Some e ∧ sstate e = S_USED ∧ 0 ≤ scount e ∧
     let s' := set_semtab (<[sem := set_scount (scount e + 1) e]> (semtab s)) s in
     signal sem s = Done OK s' ∧ InvQ Q s') ∨
  (∃ e x r lr px s2, semtab s !! sem = Some e ∧ sstate e = S_USED ∧ scount e < 0 ∧
     Q !! SEMQ sem = Some (x :: r) ∧ Q !! RDY = Some lr ∧
     proctab s !! x = Some px ∧ prstate px = PR_WAIT ∧ prsem px = sem ∧
     signal sem s = obind (resched s2) (λ _ s', Done OK (set_intr (intr s) s')) ∧
     InvQ (<[RDY := q_insert (keyof (queuetab s)) x (prprio px) lr]> (<[SEMQ sem := r]> Q)) s2 ∧
     proctab s2 = <[x := set_prstate PR_READY px]> (proctab s) ∧
     semtab s2 = <[sem := set_scount (scount e + 1) e]> (semtab s) ∧ currpid s2 = currpid s).
Proof.
  intros HQ Hmax. pose proof HQ as (Hc & Hsc & _ & Hd).
  destruct (isbadsem sem) eqn:Hb.
  { left. split; [by left|]. unfold signal. kred. rewrite Hb. kred. by destruct s. }
  destruct (sem_guard _ _ _ Hc Hb) as [e He].
  destruct (decide (sstate e = S_FREE)) as [Hf|Hu%used_dec].
  { left. split; [right; eauto|]. unfold signal. kred. rewrite Hb. kred.
    erewrite getsem_some by done. kred. rewrite bool_decide_eq_true_2 by done. kred. by destruct s. }
  specialize (Hmax _ He). right. destruct (decide (0 ≤ scount e)) as [Hpos|Hneg].
  { left. exists e. destruct (signal_passes _ _ _ _ HQ He Hu (conj Hpos Hmax)) as [Heq HI].
    by split_and!. }
  right. destruct (core_semq _ _ _ _ Hc He) as (Hi & Hsq & l & Hl).
  destruct (semcnt_waiting _ _ _ _ _ Hsc He Hl Hu ltac:(lia)) as (x & r & -> & _).
  destruct (core_queue _ _ _ _ Hc rdy_valid) as [lr Hlr].
  destruct (signal_releases _ _ _ _ _ _ _ HQ He Hu ltac:(lia) Hl Hlr)
    as (px & s2 & Hpx & Hw & Hps & Heq & HI & Hpt & Hst & Hcp & _).
  exists e, x, r, lr, px, s2. split_and!; try done. lia.
Qed.

(** signaln performs [count] signals under one deferral of rescheduling:
    the count rises by [count], as many processes stay waiting as the new count
    is below zero, and the processor is rescheduled once, at the end. *)
Theorem signaln_call Q s sem e count :
  InvQ Q s → semtab s !! sem = Some e → sstate e = S_USED → 0 ≤ count →
  scount e + count ≤ INT_MAX →
  ∃ Q2 s2, signaln sem count s =
      obind (resched_cntl DEFER_STOP s2) (λ _ s', Done OK (set_intr (intr s) s')) ∧
    core None Q2 s2 ∧ semcnt Q2 s2 ∧ running s2 ∧ ndefers (Defer s2) = 1 ∧
    currpid s2 = currpid s ∧
    semtab s2 = <[sem := set_scount (scount e + count) e]> (semtab s) ∧
    (∃ l, Q2 !! SEMQ sem = Some l ∧ Z.of_nat (length l) = Z.max 0 (- (scount e + count))).
Proof.
  intros HQ He Hu Hn Hmax. pose proof HQ as (Hc & Hsc & Hr & Hd).
  destruct (core_semq _ _ _ _ Hc He) as (Hi & _).
  set (s1 := set_Defer (Defer_ 1 false) (set_intr false s)).
  destruct (signaln_loop_spec sem (Z.to_nat count) Q s1 e) as (s2 & Q2 & Hloop & Hc2 & Hsc2 & Hr2 & Hst & Hk);
    try done.
  { eapply core_proper; [|exact Hc]. by split. }
  { rewrite Z2Nat.id by lia. done. }
  rewrite Z2Nat.id in Hst by lia.
  exists Q2, s2. split_and!; try done.
  - unfold signaln. kred. rewrite (proj2 (isbadsem_false sem)) by done. cbn [orb].
    rewrite bool_decide_eq_false_2 by lia. kred. erewrite getsem_some by done. kred.
    rewrite bool_decide_eq_false_2 by congruence. kred. rewrite defer_start by done. kred.
    fold s1. rewrite Hloop. kred. done.
  - by rewrite (kp_ndefers _ _ Hk).
  - by rewrite (kp_currpid _ _ Hk).
  - destruct (core_queue _ _ _ (SEMQ sem) Hc2 ltac:(auto with xinu)) as [l Hl].
    exists l. split; [done|].
    assert (semtab s2 !! sem = Some (set_scount (scount e + count) e)) as He2.
    { rewrite Hst. apply lookup_insert_eq. }
    specialize (Hsc2 _ _ _ He2 Hl). unfold sem_ok in Hsc2. cbn in Hsc2. rewrite Hu in Hsc2.
    apply Hsc2.
Qed.

(** semcreate hands out a free semaphore with the given count and an empty
    queue, and fails only for a negative count or when every one of the NSEM
    semaphores is in use. *)
Theorem semcreate_call Q s count :
  InvQ Q s → count ≤ INT_MAX →
  (count < 0 ∧ semcreate count s = Done SYSERR s) ∨
  (0 ≤ count ∧ ∃ r e ns, semtab s !! r = Some e ∧ sstate e = S_FREE ∧
    let s' := set_semtab (<[r := Sentry S_USED count (SEMQ r)]> (semtab s)) (set_nextsem ns s) in
    semcreate count s = Done r s' ∧ InvQ Q s' ∧ Q !! SEMQ r = Some []) ∨
  (0 ≤ count ∧ (∀ i, 0 ≤ i < NSEM → ∃ e, semtab s !! i = Some e ∧ sstate e = S_USED) ∧
    ∃ ns, semcreate count s = Done SYSERR (set_nextsem ns s) ∧ InvQ Q (set_nextsem ns s)).
Proof.
  intros HQ Hmax. pose proof HQ as (Hc & Hsc & _). destruct (decide (count < 0)) as [Hn|Hn].
  { left. split; [done|]. unfold semcreate. kred. rewrite bool_decide_eq_true_2 by done. kred.
    by destruct s. }
  right. destruct (semcreate_free Q s count HQ ltac:(lia)) as
    [(r & e & ns & He & Hf & Heq & HI)|(ns & Heq & HI & Hall)]; [left|right].
  - split; [lia|]. exists r, e, ns. split_and!; try done.
    destruct (core_semq _ _ _ _ Hc He) as (Hi & _ & l & Hl).
    specialize (Hsc _ _ _ He Hl). unfold sem_ok in Hsc. rewrite Hf in Hsc. by subst.
  - split; [lia|]. split; [|by eauto].
    intros i Hi. destruct (core_sem _ _ _ _ Hc Hi) as [e He]. eauto.
Qed.

(** semdelete.  A bad or unused semaphore is an error; otherwise every
    process that waits for the semaphore becomes ready, the semaphore is free
    and its queue empty, and the processor is rescheduled once, at the end. *)
Theorem semdelete_call Q s sem :
  InvQ Q s →
  ((isbadsem sem = true ∨ ∃ e, semtab s !! sem = Some e ∧ sstate e = S_FREE) ∧
     semdelete sem s = Done SYSERR s) ∨
  (∃ e l s2 Q2 e', semtab s !! sem = Some e ∧ sstate e = S_USED ∧ Q !! SEMQ sem = Some l ∧
     semdelete sem s = obind (resched_cntl DEFER_STOP s2) (λ _ s',
       Done OK (set_intr (intr s) s')) ∧
     core None Q2 s2 ∧ semcnt Q2 s2 ∧ running s2 ∧ ndefers (Defer s2) = 1 ∧
     currpid s2 = currpid s ∧ Q2 !! SEMQ sem = Some [] ∧
     proctab s2 = wake_all l (proctab s) ∧
     semtab s2 = <[sem := e']> (semtab s) ∧ sstate e' = S_FREE).
Proof.
  intros HQ. pose proof HQ as (Hc & _). destruct (isbadsem sem) eqn:Hb.
  { left. split; [by left|]. unfold semdelete. kred. rewrite Hb. kred. by destruct s. }
  destruct (sem_guard _ _ _ Hc Hb) as [e He].
  destruct (decide (sstate e = S_FREE)) as [Hf|Hu%used_dec].
  { left. split; [right; eauto|]. unfold semdelete. kred. rewrite Hb. kred.
    erewrite getsem_some by done. kred. rewrite bool_decide_eq_true_2 by done. kred. by destruct s. }
  right. destruct (core_semq _ _ _ _ Hc He) as (Hi & Hsq & l & Hl).
  destruct (semdelete_spec Q s sem e l HQ He Hu Hl) as (s2 & Q2 & e' & H1).
  exists e, l, s2, Q2, e'. by split_and!; try tauto.
Qed.

(** Semreset.  A negative count, a bad or an unused semaphore is an error;
    otherwise every process that waits for the semaphore becomes ready, the
    count is the new one, and the processor is rescheduled once, at the end. *)
Theorem semreset_call Q s sem count :
  InvQ Q s → count ≤ INT_MAX →
  ((count < 0 ∨ isbadsem sem = true ∨ ∃ e, semtab s !! sem = Some e ∧ sstate e = S_FREE) ∧
     semreset sem count s = Done SYSERR s) ∨
  (∃ e l s2 Q2, semtab s !! sem = Some e ∧ sstate e = S_USED ∧ Q !! SEMQ sem = Some l ∧
     0 ≤ count ∧ semreset sem count s = obind (resched_cntl DEFER_STOP s2) (λ _ s',
       Done OK (set_intr (intr s) s')) ∧
     core None Q2 s2 ∧ semcnt Q2 s2 ∧ running s2 ∧ ndefers (Defer s2) = 1 ∧
     currpid s2 = currpid s ∧ Q2 !! SEMQ sem = Some [] ∧
     proctab s2 = wake_all l (proctab s) ∧
     semtab s2 = <[sem := set_scount count e]> (semtab s)).
Proof.
  intros HQ Hmax. pose proof HQ as (Hc & _). destruct (decide (count < 0)) as [Hn|Hn].
  { left. split; [by left|]. unfold semreset. kred. rewrite bool_decide_eq_true_2 by done.
    cbn [orb]. kred. by destruct s. }
  destruct (isbadsem sem) eqn:Hb.
  { left. split; [by right; left|]. unfold semreset. kred. rewrite Hb, orb_true_r. kred. by destruct s. }
  destruct (sem_guard _ _ _ Hc Hb) as [e He].
  destruct (decide (sstate e = S_FREE)) as [Hf|Hu%used_dec].
  { left. split; [right; right; eauto|]. unfold semreset. kred.
    rewrite bool_decide_eq_false_2 by done. rewrite Hb. cbn [orb]. kred.
    erewrite getsem_some by done. kred. rewrite bool_decide_eq_true_2 by done. kred. by destruct s. }
  right. destruct (core_semq _ _ _ _ Hc He) as (Hi & Hsq & l & Hl).
  destruct (semreset_spec Q s sem e l count HQ He Hu Hl ltac:(lia)) as (s2 & Q2 & H1).
  exists e, l, s2, Q2. split_and!; try tauto. lia.
Qed.

(** ** The clock *)

(** C9: sleepms puts the caller on the sleep queue: read as a list of alarms,
    the queue gains exactly the caller's alarm, due after [delay] ticks and
    behind those that are due no later; all other alarms stay as they were; and
    the first ready process runs. *)
Theorem sleepms_call Q s p l delay :
  InvQ Q s → currpid s ≠ NULLPROC → proctab s !! currpid s = Some p → Q !! SLP = Some l →
  deltas_ok (keyof (queuetab s)) 0 l → 0 < delay ≤ INT_MAX →
  ∃ s1 k Q1 l1 x r, sleepms delay s = Switch s1 k ∧ InvQ Q1 s1 ∧
    Q !! RDY = Some (x :: r) ∧ currpid s1 = x ∧
    Q1 !! SLP = Some l1 ∧ deltas_ok (keyof (queuetab s1)) 0 l1 ∧
    alarms (keyof (queuetab s1)) 0 l1 =
      add_alarm (currpid s) delay (alarms (keyof (queuetab s)) 0 l) ∧
    proctab s1 !! currpid s = Some (set_prstate PR_SLEEP p).
Proof.
  intros HQ Hn Hp Hl Hdel Hdelay. pose proof HQ as (Hc & Hsc & (p' & Hp' & Hcur) & Hd).
  rewrite Hp in Hp'. injection Hp' as <-.
  pose proof (core_none_detached _ _ _ _ Hc Hp ltac:(unfold qof; by rewrite Hcur)) as Hdet.
  pose proof (isq_nodup _ _ _ (qs_queue _ _ (c_queues _ _ _ Hc) _ _ Hl)) as Hnd.
  set (s0 := set_intr false s).
  destruct (sleep_enter Q s0 p l delay PR_SLEEP (InvQ_intr false Q s HQ) Hn Hp Hl)
    as (t' & Hins & Hc' & Hsc' & Hk); [by left|].
  destruct (insertd_alarms (keyof (queuetab s)) (currpid s) l delay 0 Hnd (Hdet _ _ Hl) Hdel)
    as [Ha Hda]; [lia..|].
  cbv zeta in Hsc', Hc'. set (l1 := q_insertd _ _ _ _) in *.
  set (s2 := set_queuetab t' _) in Hc'.
  destruct (resched_blocked _ s2 (set_prstate PR_SLEEP p) Hc') as
    (x & r & s1 & px & Hr & Hx & Hsw & HI & Hcx & Hpx & Hpt1 & _ & _ & _ & Hk1); try done.
  { apply lookup_insert_eq. }
  rewrite lookup_insert_ne in Hr by (apply not_eq_sym, rdy_slp).
  assert (∀ j, j ∈ l1 → keyof (queuetab s1) j = d_keys (keyof (queuetab s)) (currpid s) delay l j) as Hks.
  { intros j Hj. rewrite Hk1. by apply Hk. }
  eexists s1, _, _, l1, x, r. split; [|split_and!; [exact HI|done|done|..]].
  - unfold sleepms. rewrite !bool_decide_eq_false_2 by lia. kred.
    rewrite (c_slp _ _ _ Hc). erewrite qop_some by exact Hins. kred.
    rewrite bool_decide_eq_false_2 by done. kred. erewrite setproc_some by done. kred.
    change (set_proctab _ (set_queuetab t' _)) with s2. rewrite Hsw. done.
  - rewrite lookup_insert_ne by apply rdy_slp. apply lookup_insert_eq.
  - eapply deltas_ext; [|exact Hda]. exact Hks.
  - by rewrite (alarms_ext _ _ _ _ Hks).
  - rewrite Hpt1, lookup_insert_ne by done. apply lookup_insert_eq.
Qed.

Lemma wake_all_nil pt : wake_all [] pt = pt.
Proof. done. Qed.

(** Alarms that are not due keep every list as it is. *)
Lemma expired_none a : (∀ b, b ∈ a → 0 < b.2) → expired a = [] ∧ pending a = a.
Proof.
  destruct a as [|[x d] a]; [done|]. intros Ha. pose proof (Ha (x, d) ltac:(left)) as Hd.
  cbn in *. by rewrite bool_decide_eq_false_2 by lia.
Qed.

(** C10: a clock tick on a sleep queue in which nobody is overdue: every alarm
    is one tick nearer, exactly the processes whose alarm is due become ready,
    the others stay in order with their alarms, and the running process's
    quantum is counted down (a rescheduling is asked for when it is used up). *)
Theorem clock_tick Q s l tisr :
  deferred Q s → Q !! SLP = Some l → deltas_ok (keyof (queuetab s)) 0 l →
  (∀ a, a ∈ alarms (keyof (queuetab s)) 0 l → 0 < a.2) →
  Z.land tisr AM335X_TIMER1MS_TISR_OVF_IT_FLAG ≠ 0 →
  let A := tick_alarms (alarms (keyof (queuetab s)) 0 l) in
  ∃ s' Q' l', clkhandler tisr s = Done tt s' ∧ deferred Q' s' ∧
    Q' !! SLP = Some l' ∧ deltas_ok (keyof (queuetab s')) 0 l' ∧
    alarms (keyof (queuetab s')) 0 l' = pending A ∧
    proctab s' = wake_all (expired A) (proctab s) ∧ currpid s' = currpid s ∧
    preempt s' = (if bool_decide (u32 (preempt s - 1) = 0) then QUANTUM else u32 (preempt s - 1)) ∧
    (u32 (preempt s - 1) = 0 → attempt (Defer s') = true).
Proof.
  intros Hdf Hl Hdel Hpos Hflag A. pose proof Hdf as (Hc & _).
  pose proof (isq_nodup _ _ _ (qs_queue _ _ (c_queues _ _ _ Hc) _ _ Hl)) as Hnd.
  destruct (clkhandler_deferred Q s l tisr Hdf Hl Hflag)
    as (s' & Q' & Hrun & Hdf' & Hl' & Hk & Hpt & Hcp & _ & Hpre & Hat).
  set (ks := keyof (queuetab s)) in *.
  exists s', Q', (tick_rest ks l).
  assert (deltas_ok (tick_keys ks l) 0 (tick_rest ks l) ∧
    alarms (tick_keys ks l) 0 (tick_rest ks l) = pending A ∧ tick_woken ks l = expired A)
    as (H1 & H2 & H3); [|split_and!; try done].
  - pose proof (tick_keys_alarms ks l Hnd Hdel) as HA. fold A in HA.
    destruct l as [|x r]; [done|]. cbn [tick_rest tick_woken].
    pose proof (Hpos (x, 0 + ks x) ltac:(left)) as Hx. cbn in Hx.
    destruct Hdel as [_ Hdr]. pose proof (deltas_le _ _ _ Hdr) as Hmax. unfold INT_MAX in Hmax.
    assert (tick_keys ks (x :: r) x = ks x - 1) as Hkx.
    { unfold tick_keys. cbn. rewrite decide_True by done. rewrite s32_id; lia. }
    assert (deltas_ok (tick_keys ks (x :: r)) 0 (x :: r)) as Hdt.
    { cbn. rewrite Hkx. split; [lia|]. eapply deltas_shift; [|instantiate (1 := ks x); lia].
      eapply deltas_ext; [|exact Hdr]. intros y Hy. unfold tick_keys. cbn.
      rewrite decide_False; [done|]. intros [= ->]. by apply NoDup_cons in Hnd as [? _]. }
    rewrite s32_id by lia. destruct (decide (ks x - 1 = 0)) as [Hz|Hz].
    + rewrite !(bool_decide_eq_true_2 (ks x - 1 = 0)) by done.
      destruct (due_alarms _ _ Hdt) as (He & Hp & Hd). by rewrite He, Hp, HA.
    + rewrite !(bool_decide_eq_false_2 (ks x - 1 = 0)) by done.
      destruct (expired_none A) as [He Hp].
      { intros b Hb. rewrite <-HA in Hb. pose proof (alarms_sorted _ _ _ Hdt) as Hs.
        cbn [alarms] in Hb, Hs. rewrite Hkx in Hb, Hs.
        apply StronglySorted_inv in Hs as [_ Hall]. rewrite Forall_forall in Hall.
        apply elem_of_cons in Hb as [->|Hb]; [cbn; lia|]. specialize (Hall _ Hb). cbn in Hall. lia. }
      rewrite He, Hp. by rewrite HA.
  - eapply deltas_ext; [|exact H1]. done.
  - rewrite <-H2. by apply alarms_ext.
  - by rewrite Hpt, H3.
Qed.

(** C11: a wait of 0 ticks never times out.  recvtime(0) puts a caller without
    a message at the head of the sleep queue with delay 0, and the clock, which
    decrements that delay before it compares it with 0, wakes nobody on the
    ticks that follow: it only makes the delay more negative (whatever sleeps
    behind the caller is delayed with it). *)
Theorem recvtime_zero_sleeps Q s p l :
  InvQ Q s → currpid s ≠ NULLPROC → proctab s !! currpid s = Some p → prhasmsg p = false →
  Q !! SLP = Some l → (∀ x, x ∈ l → 0 < keyof (queuetab s) x) →
  (∃ s1 k Q1, recvtime 0 s = Switch s1 k ∧ InvQ Q1 s1 ∧ Q1 !! SLP = Some (currpid s :: l) ∧
    keyof (queuetab s1) (currpid s) = 0 ∧ prstate <$> proctab s1 !! currpid s = Some PR_RECTIM) ∧
  (∀ Qt st tisr, deferred Qt st → Qt !! SLP = Some (currpid s :: l) →
    - INT_MAX ≤ keyof (queuetab st) (currpid s) ≤ 0 →
    Z.land tisr AM335X_TIMER1MS_TISR_OVF_IT_FLAG ≠ 0 →
    ∃ st' Qt', clkhandler tisr st = Done tt st' ∧ deferred Qt' st' ∧
      Qt' !! SLP = Some (currpid s :: l) ∧ proctab st' = proctab st ∧
      keyof (queuetab st') (currpid s) = keyof (queuetab st) (currpid s) - 1).
Proof.
  intros HQ Hn Hp Hmsg Hl Hpos. pose proof HQ as (Hc & Hsc & (p' & Hp' & Hcur) & Hd). split.
  - rewrite Hp in Hp'. injection Hp' as <-. set (s0 := set_intr false s).
    destruct (sleep_enter Q s0 p l 0 PR_RECTIM (InvQ_intr false Q s HQ) Hn Hp Hl)
      as (t' & Hins & Hc' & Hsc' & Hk); [by right|].
    assert (dsplit (keyof (queuetab s)) 0 l = ([], l, 0)) as Hds.
    { destruct l as [|x r]; [done|]. cbn. rewrite bool_decide_eq_false_2; [done|].
      pose proof (Hpos x ltac:(left)). lia. }
    assert (q_insertd (keyof (queuetab s)) (currpid s) 0 l = currpid s :: l) as Hqi.
    { unfold q_insertd. by rewrite Hds. }
    cbv zeta in Hsc', Hc', Hk. change (queuetab s0) with (queuetab s) in *.
    change (currpid s0) with (currpid s) in *. rewrite Hqi in *.
    set (s2 := set_queuetab t' _) in Hc'.
    destruct (resched_blocked _ s2 (set_prstate PR_RECTIM p) Hc') as
      (x & r & s1 & px & Hr & Hx & Hsw & HI & Hcx & Hpx & Hpt1 & _ & _ & _ & Hk1); try done.
    { apply lookup_insert_eq. }
    rewrite lookup_insert_ne in Hr by (apply not_eq_sym, rdy_slp).
    eexists s1, _, _. split; [|split_and!; [exact HI|..]].
    + unfold recvtime. rewrite bool_decide_eq_false_2 by lia. kred.
      erewrite getproc_some by done. kred. rewrite Hmsg. cbn [negb]. kred.
      rewrite (c_slp _ _ _ Hc). erewrite qop_some by exact Hins. kred.
      rewrite bool_decide_eq_false_2 by done. kred. erewrite setproc_some by done. kred.
      change (set_proctab _ (set_queuetab t' _)) with s2. rewrite Hsw. done.
    + rewrite lookup_insert_ne by apply rdy_slp. apply lookup_insert_eq.
    + rewrite Hk1. change (queuetab s2) with t'. rewrite (Hk (currpid s)) by set_solver. unfold d_keys. rewrite Hds. cbn.
      rewrite decide_False.
      * by rewrite decide_True.
      * destruct l as [|x0 l0]; [done|]. intros [= ->].
        eapply (core_none_detached _ _ _ _ Hc Hp); [by unfold qof; rewrite Hcur|exact Hl|left].
    + rewrite Hpt1, lookup_insert_ne by done. cbn. rewrite lookup_insert_eq. done.
  - intros Qt st tisr Hdf Hlt Hkey Hflag.
    destruct (clkhandler_deferred Qt st _ tisr Hdf Hlt Hflag)
      as (s' & Q' & Hrun & Hdf' & Hl' & Hk & Hpt & _).
    set (ks := keyof (queuetab st)) in *. unfold INT_MAX in Hkey.
    cbn [tick_rest tick_woken] in Hl', Hk, Hpt. rewrite s32_id in Hl', Hk, Hpt by lia.
    rewrite bool_decide_eq_false_2 in Hl', Hk, Hpt by lia.
    exists s', Q'. split_and!; try done. rewrite (Hk (currpid s)) by set_solver.
    unfold tick_keys. cbn. rewrite decide_True by done. rewrite s32_id; lia.
Qed.

(** Unsleep.  For a process that is not asleep it is an error; otherwise
    the process leaves the sleep queue and no other alarm moves: the delay of
    the process goes to its successor. *)
Theorem unsleep_call Q s pid :
  InvQ Q s →
  ((isbadpid (proctab s) pid = true ∨
    ∃ p, proctab s !! pid = Some p ∧ prstate p ≠ PR_SLEEP ∧ prstate p ≠ PR_RECTIM) ∧
   unsleep pid s = Done SYSERR s) ∨
  (∃ p l l' t', proctab s !! pid = Some p ∧ (prstate p = PR_SLEEP ∨ prstate p = PR_RECTIM) ∧
     Q !! SLP = Some l ∧ unsleep pid s = Done OK (set_queuetab t' s) ∧
     core (Some pid) (<[SLP := l']> Q) (set_queuetab t' s) ∧
     (deltas_ok (keyof (queuetab s)) 0 l →
       alarms (keyof t') 0 l' = no_alarm pid (alarms (keyof (queuetab s)) 0 l) ∧
       deltas_ok (keyof t') 0 l')).
Proof.
  intros HQ. pose proof HQ as (Hc & _).
  destruct (isbadpid (proctab s) pid) eqn:Hb.
  { left. split; [by left|]. apply unsleep_error. by left. }
  destruct (isbadpid_false _ _ Hb) as (Hpid & p & Hp & Hf).
  destruct (decide (prstate p = PR_SLEEP ∨ prstate p = PR_RECTIM)) as [Hs|Hs].
  - right. destruct (core_unsleep Q s pid p Hc Hp Hs) as (l1 & l2 & t' & Hl & Hu & Hc' & Hk).
    exists p, (l1 ++ pid :: l2), (l1 ++ l2), t'. split_and!; try done. intros Hdel.
    pose proof (isq_nodup _ _ _ (qs_queue _ _ (c_queues _ _ _ Hc) _ _ Hl)) as Hnd.
    destruct (unsleep_alarms _ pid l1 l2 0 Hnd ltac:(lia) Hdel) as [H1 H2].
    rewrite (alarms_ext _ _ _ _ Hk). split; [done|]. by eapply deltas_ext.
  - assert (∃ p, proctab s !! pid = Some p ∧ prstate p ≠ PR_SLEEP ∧ prstate p ≠ PR_RECTIM) as He.
    { exists p. tauto. }
    left. split; [by right|]. apply unsleep_error. by right.
Qed.

(** ** Messages *)

(** Leaving the sleep queue changes the keys of the processes behind only. *)
Lemma unsleep_keys Q s pid p l1 l2 t' y :
  core None Q s → proctab s !! pid = Some p → prstate p = PR_RECTIM → Q !! SLP = Some (l1 ++ pid :: l2) →
  unsleep pid s = Done OK (set_queuetab t' s) → y ∉ l2 → keyof t' y = keyof (queuetab s) y.
Proof.
  intros Hc Hp Hst Hl Hu Hy. pose proof (is_table_bound _ _ _ _ (c_procs _ _ _ Hc) Hp) as Hpid.
  destruct (unsleep_unlink_spec (queuetab s) Q SLP l1 pid l2) as (t2 & Hu2 & _ & Hky & _); [apply Hc|done|].
  assert (t' = t2) as ->.
  { unfold unsleep in Hu. revert Hu. kred. rewrite (isbadpid_live _ _ _ Hpid Hp) by (by rewrite Hst). kred.
    erewrite getproc_some by done. kred.
    rewrite (bool_decide_eq_false_2 (prstate p ≠ PR_RECTIM)) by tauto.
    rewrite andb_false_r. kred. erewrite qop_some by exact Hu2. kred. intros [= Hst3]. done. }
  by apply keyof_eq, Hky.
Qed.

(** The recipient waits for a message, without or with a time limit: it becomes
    ready. *)
Lemma send_waits Q s1 pid p lr ls (m : Z) (b : bool) :
  InvQ Q s1 → Q !! RDY = Some lr → Q !! SLP = Some ls → proctab s1 !! pid = Some p → prhasmsg p = true →
  pid ≠ currpid s1 → prstate p = PR_RECV ∨ prstate p = PR_RECTIM →
  ∃ s2 ks,
    obind (if bool_decide (prstate p = PR_RECV) then obind (ready pid s1) (λ _ s', Done tt s')
           else if bool_decide (prstate p = PR_RECTIM) then
             obind (unsleep pid s1) (λ _ s', obind (ready pid s') (λ _ s', Done tt s'))
           else Done tt s1) (λ _ s', Done m (set_intr b s')) =
      obind (resched s2) (λ _ s', Done m (set_intr b s')) ∧
    proctab s2 = <[pid := set_prstate PR_READY p]> (proctab s1) ∧
    (∀ y, y ∈ lr → ks y = keyof (queuetab s1) y) ∧
    InvQ (<[RDY := q_insert ks pid (prprio p) lr]> (<[SLP := filter (λ x, x ≠ pid) ls]> Q)) s2.
Proof.
  intros HQ Hlr Hls Hp Hm Hne Hst. pose proof HQ as (Hc & Hsc & Hr & Hd).
  destruct (decide (prstate p = PR_RECV)) as [Hrecv|Hrecv].
  - rewrite bool_decide_eq_true_2 by done.
    assert (qof p = None) as Hq by (unfold qof; by rewrite Hrecv).
    destruct (ready_run Q s1 pid p lr) as (t3 & Heq & HI & _); try done;
      [by eapply core_detach|by rewrite Hrecv|].
    eexists _, (keyof (queuetab s1)). split; [|split; [|split; [|]]].
    + rewrite Heq, !obind_assoc. reflexivity.
    + done.
    + done.
    + rewrite filter_out, (insert_id Q SLP) by (done || by eapply core_none_detached). exact HI.
  - assert (prstate p = PR_RECTIM) as Htim by tauto.
    rewrite bool_decide_eq_false_2, bool_decide_eq_true_2 by done.
    destruct (core_unsleep Q s1 pid p Hc Hp) as (l1 & l2 & t' & Hl & Hu & Hc2 & _); [by right|].
    rewrite Hls in Hl. injection Hl as Hl.
    destruct (ready_run (<[SLP := l1 ++ l2]> Q) (set_queuetab t' s1) pid p lr) as (t3 & Heq & HI & _); try done.
    { by eapply semcnt_slp; [|apply Hc|]. }
    { by rewrite Htim. }
    { rewrite lookup_insert_ne; [done|]. apply not_eq_sym, rdy_slp. }
    eexists _, (keyof t'). split; [|split; [|split; [|]]].
    + rewrite Hu. cbn [obind]. rewrite Heq, !obind_assoc. reflexivity.
    + done.
    + intros y Hy. apply (unsleep_keys Q s1 pid p l1 l2 t' y Hc Hp Htim); [by rewrite Hls, Hl|done|].
      intros Hy2. apply rdy_slp. assert (y ∈ ls) as Hyl by (rewrite Hl; set_solver).
      exact (qs_disj _ _ (c_queues _ _ _ Hc) RDY SLP lr ls y Hlr Hls Hy Hyl).
    + pose proof (queues_without _ _ _ _ _ _ (c_queues _ _ _ Hc) ltac:(rewrite Hls, Hl; done) _ _ Hls) as Hw.
      rewrite lookup_insert_eq in Hw. injection Hw as <-. exact HI.
Qed.

(** C12: send.  A bad process id, or a recipient that has a message already, is
    an error and changes nothing; otherwise the recipient has the message, and
    if it was waiting for one (with or without a time limit) it leaves the sleep
    queue, joins the ready list by its priority and the processor is
    rescheduled. *)
Theorem send_call Q s pid msg lr ls :
  InvQ Q s → Q !! RDY = Some lr → Q !! SLP = Some ls →
  ((isbadpid (proctab s) pid = true ∨ ∃ p, proctab s !! pid = Some p ∧ prhasmsg p = true) ∧
     send pid msg s = Done SYSERR s) ∨
  (∃ p, proctab s !! pid = Some p ∧ prstate p ≠ PR_FREE ∧ prhasmsg p = false ∧
    ((prstate p ≠ PR_RECV ∧ prstate p ≠ PR_RECTIM ∧
      let s' := set_proctab (<[pid := delivered msg p]> (proctab s)) s in
      send pid msg s = Done OK s' ∧ InvQ Q s') ∨
     ((prstate p = PR_RECV ∨ prstate p = PR_RECTIM) ∧ ∃ s2 ks,
      send pid msg s = obind (resched s2) (λ _ s', Done OK (set_intr (intr s) s')) ∧
      proctab s2 = <[pid := set_prstate PR_READY (delivered msg p)]> (proctab s) ∧
      (∀ y, y ∈ lr → ks y = keyof (queuetab s) y) ∧
      InvQ (<[RDY := q_insert ks pid (prprio p) lr]>
             (<[SLP := filter (λ x, x ≠ pid) ls]> Q)) s2))).
Proof.
  intros HQ Hlr Hls. pose proof HQ as (Hc & Hsc & Hr & Hd).
  destruct (isbadpid (proctab s) pid) eqn:Hb.
  { left. split; [by left|]. apply send_error. by left. }
  destruct (isbadpid_false _ _ Hb) as (Hpid & p & Hp & Hf).
  destruct (prhasmsg p) eqn:Hm.
  { left. split; [right; eauto|]. apply send_error. right; eauto. }
  right. exists p. split_and!; try done.
  pose proof (send_run pid msg s p Hb Hp Hm) as Hrun. cbv zeta in Hrun.
  pose proof (InvQ_setproc Q (set_intr false s) pid p (delivered msg p) (InvQ_intr false Q s HQ) Hp
    ltac:(auto with xinu)) as HQ1.
  set (s1 := set_proctab _ _) in *.
  assert (proctab s1 !! pid = Some (delivered msg p)) as Hp1 by apply lookup_insert_eq.
  destruct (decide (prstate p = PR_RECV ∨ prstate p = PR_RECTIM)) as [Hst|Hst].
  - right. split; [done|]. pose proof HQ1 as (_ & _ & Hr1 & _).
    destruct (send_waits Q s1 pid (delivered msg p) lr ls OK (intr s) HQ1 Hlr Hls Hp1 eq_refl) as (s2 & ks & E & Ht & Hk & HI).
    { intros E. destruct Hr1 as (pc & Hpc & Hcur). rewrite <-E, Hp1 in Hpc.
      injection Hpc as <-. cbn in Hcur. destruct Hst; congruence. }
    { exact Hst. }
    exists s2, ks. split; [by rewrite Hrun|]. split; [by rewrite Ht; cbn; rewrite insert_insert_eq|]. by split.
  - left. cbv zeta. split_and!; [tauto|tauto| |].
    + by rewrite Hrun, !bool_decide_eq_false_2 by tauto.
    + eapply InvQ_csim; [|apply HQ1|exact HQ1]. by split.
Qed.

(** A message that a process sends to itself is the one that its next
    receive returns, without blocking, and the message box is empty again. *)
Theorem send_receive Q s p msg :
  InvQ Q s → proctab s !! currpid s = Some p → prhasmsg p = false →
  ∃ s1 s2, send (currpid s) msg s = Done OK s1 ∧ receive s1 = Done msg s2 ∧
    proctab s2 = <[currpid s := set_prmsg msg p]> (proctab s) ∧ InvQ Q s2.
Proof.
  intros HQ Hp Hm. pose proof HQ as (Hc & Hsc & (p' & Hp' & Hcur) & Hd).
  rewrite Hp in Hp'. injection Hp' as <-.
  assert (isbadpid (proctab s) (currpid s) = false) as Hb.
  { apply (isbadpid_live _ _ p); [exact (c_currpid _ _ _ Hc)|exact Hp|congruence]. }
  pose proof (send_run (currpid s) msg s p Hb Hp Hm) as Hrun. cbv zeta in Hrun.
  rewrite Hcur, !bool_decide_eq_false_2 in Hrun by done. cbn [obind] in Hrun.
  eexists _, _. split; [exact Hrun|]. split.
  { unfold receive. kred. erewrite getproc_some by (cbn; apply lookup_insert_eq). kred.
    cbn [prhasmsg delivered set_prhasmsg negb]. kred.
    erewrite getproc_some by (cbn; apply lookup_insert_eq). kred.
    erewrite setproc_some by (cbn; apply lookup_insert_eq). kred. reflexivity. }
  kred. rewrite insert_insert_eq.
  assert (set_prhasmsg false (delivered msg p) = set_prmsg msg p) as ->.
  { unfold delivered, set_prhasmsg, set_prmsg. cbn. by rewrite Hm. }
  split; [done|].
  eapply InvQ_csim; [|exact Hd|exact (InvQ_setproc Q s (currpid s) p (set_prmsg msg p) HQ Hp ltac:(done))].
  by split.
Qed.

Section process.
Context `{Platform}.

(** ** Processes *)

(** Newpid finds a free slot of the process table whenever there is one. *)
Theorem newpid_call s :
  is_table NPROC (proctab s) → 0 ≤ nextpid s ≤ NPROC →
  ∃ r np, 0 ≤ np ≤ NPROC ∧ newpid s = Done r (set_nextpid np s) ∧
   ((r = SYSERR ∧ ∀ i, 0 ≤ i < NPROC → ∃ p, proctab s !! i = Some p ∧ prstate p ≠ PR_FREE) ∨
    (0 ≤ r < NPROC ∧ ∃ p, proctab s !! r = Some p ∧ prstate p = PR_FREE)).
Proof.
  intros Ht Hn. destruct (newpid_spec s Ht Hn) as (r & np & Hnp & Hrun & Hcase).
  exists r, np. split; [done|]. split; [done|]. destruct Hcase as [[-> Hall]|(p & Hp & Hf)].
  - left. split; [done|]. intros i Hi. destruct (is_table_get _ _ _ Ht Hi) as [p Hp]. eauto.
  - right. split; [by eapply is_table_bound|eauto].
Qed.

(** C13: create.  It fails, and changes nothing, when no free block holds the
    rounded stack; when the priority is below 1 or no process slot is free it
    fails too, but the stack it took from the heap is lost; otherwise a slot
    that was free holds a suspended process with the given name and priority
    and the caller as parent, one process more is counted, and its new stack,
    the highest free memory of sufficient size, holds STACKMAGIC, the arguments
    from the fifth on, the entry address, the saved registers with the first
    four arguments, INITRET and the status word. *)
Theorem create_call Q s l procaddr ssize priority name args :
  InvQ Q s → heap_ok (hp s) l → 0 ≤ ssize ≤ 2147483648 → -32768 ≤ priority < 32768 →
  4 * Z.of_nat (length args) + 48 ≤ stack_size ssize →
  let len := stack_size ssize in
  let words := create_words procaddr args in
  match alloc_last (roundmb len) l with
  | None => create procaddr ssize priority name args s = Done SYSERR s
  | Some (x, l') =>
    let top := x + roundmb len - 4 in
    ∃ h1 np, heap_ok h1 l' ∧ hframe l (hp s) h1 ∧ InvQ Q (set_nextpid np (set_hp h1 s)) ∧
      (((priority < 1 ∨ ∀ i p, proctab s !! i = Some p → prstate p ≠ PR_FREE) ∧
        create procaddr ssize priority name args s =
          Done SYSERR (set_nextpid np (set_hp h1 s))) ∨
       (1 ≤ priority ∧ ∃ pid p h2, proctab s !! pid = Some p ∧ prstate p = PR_FREE ∧
        let p' := created p priority top len (top - 4 * Z.of_nat (length words)) (currpid s) name in
        let s' := set_hp h2 (set_proctab (<[pid := p']> (proctab s))
          (set_prcount (s32 (prcount s + 1)) (set_nextpid np s))) in
        create procaddr ssize priority name args s = Done pid s' ∧
        InvQ Q s' ∧ heap_ok h2 l' ∧
        mem h2 = stack_mem words top (<[top := STACKMAGIC]> (mem h1))))
  end.
Proof.
  intros HQ Hh Hs Hp Hargs len words.
  pose proof (create_spec Q s l procaddr ssize priority name args HQ Hh Hs Hp
    (create_fits procaddr ssize args Hs Hargs)) as Hspec. cbv zeta in Hspec.
  fold len words in Hspec. destruct (alloc_last (roundmb len) l) as [[x l']|].
  - destruct Hspec as (h1 & np & H1 & H2 & _ & H3 & Hcase). exists h1, np.
    split; [done|]. split; [done|]. split; [done|].
    destruct Hcase as [[H4 H5]|(H4 & pid & p & h2 & H5 & H6 & H7 & H8)]; [left|right].
    + split; [done|]. rewrite H5. done.
    + split; [done|]. exists pid, p, h2. split; [done|]. split; [done|]. split; [|done].
      rewrite H7. done.
  - rewrite Hspec. by destruct s.
Qed.

(** What kill does to a process that is not running: whatever it was
    doing, it is out of the queue it was in and of no other, its slot is free,
    and a semaphore that it waited for counts one waiter less. *)
Theorem kill_state_call Q s pid p :
  InvQ Q s → proctab s !! pid = Some p → pid ≠ NULLPROC → pid ≠ currpid s →
  ∃ s' Q', kill_state pid s = Done tt s' ∧ InvQ Q' s' ∧
    proctab s' = <[pid := set_prstate PR_FREE p]> (proctab s) ∧
    (∀ q l, Q !! q = Some l → Q' !! q = Some (filter (λ x, x ≠ pid) l)) ∧
    semtab s' =
      match prstate p, semtab s !! prsem p with
      | PR_WAIT, Some e => <[prsem p := set_scount (scount e + 1) e]> (semtab s)
      | _, _ => semtab s
      end.
Proof.
  intros HQ Hp Hn Hne. destruct (kill_state_spec Q s pid p HQ Hp Hn Hne) as (s' & Q' & Hrun & Hk).
  exists s', Q'. split; [done|]. by destruct Hk.
Qed.

End process.

(** ** Witnesses *)

Lemma deferred_of Q s : InvQ Q s → deferred Q (set_Defer (Defer_ 1 false) s).
Proof.
  intros (Hc & Hsc & Hr & Hd). split_and!; [|exact Hsc|exact Hr|done].
  eapply core_proper; [|exact Hc]. by split.
Qed.

Lemma resched_highest_witness :
  ∃ Q p, InvQ Q demo5 ∧ Q !! RDY = Some [1; 0] ∧
    ((resched demo5 = Done tt demo5 ∧ ∀ x, x ∈ [1; 0] → keyof (queuetab demo5) x < prprio p) ∨
     ∃ s1 k, resched demo5 = Switch s1 k ∧ preempt s1 = QUANTUM).
Proof.
  destruct (demo_view demo5 [1; 0] [] demo5_inv) as (Q & p & HQ & Hr & _ & Hp); [calc..|].
  exists Q, p. split; [done|]. split; [done|].
  destruct (resched_highest Q demo5 p [1; 0] HQ Hp Hr) as [Hs|(x & r & s1 & k & H1)].
  - by left.
  - right. exists s1, k. split; apply H1.
Defined.

Lemma insert_stable_witness :
  ∃ Q t', qsys (queuetab demo7) Q ∧ Q !! RDY = Some [0] ∧
    insert (proctab demo7) 1 RDY 20 (queuetab demo7) = Some (OK, t').
Proof.
  destruct (demo_view demo7 [0] [] demo7_inv) as (Q & p & HQ & Hr & _ & Hp); [calc..|].
  pose proof HQ as (Hc & _ & (pc & Hpc & Hcur) & _).
  assert (currpid demo7 = 1) as Hid by (calc).
  rewrite Hid in Hpc.
  destruct (insert_stable (proctab demo7) (queuetab demo7) Q RDY [0] 1 20) as (t' & _ & _ & _ & Hi & _).
  - exact (c_queues _ _ _ Hc).
  - exact Hr.
  - by vm_compute.
  - eapply core_none_detached; [exact Hc|exact Hpc|unfold qof; by rewrite Hcur].
  - done.
  - exact (c_sorted _ _ _ Hc _ Hr).
  - exists Q, t'. split; [exact (c_queues _ _ _ Hc)|]. split; [exact Hr|exact Hi].
Defined.

(** The semaphore is taken: the second wait blocks. *)
Lemma wait_call_witness : ∃ s1 k, wait 0 demo6 = Switch s1 k ∧ currpid s1 = 1.
Proof.
  destruct (demo_view demo6 [1; 0] [] demo6_inv) as (Q & p & HQ & Hr & _ & Hp); [calc..|].
  assert (currpid demo6 ≠ NULLPROC) as Hn by (calc).
  assert (semtab demo6 !! 0 = Some (Sentry S_USED 0 100)) as He by (calc).
  destruct (wait_call Q demo6 p 0 HQ Hn Hp) as
    [[[Hb|(e & He' & Hf)] _]|[(e & He' & _ & Hpos & _)|(e & l & x & r & s1 & k & _ & _ & _ & _ & Hr' & Hw & Hx & _)]].
  - exfalso. by vm_compute in Hb.
  - exfalso. rewrite He in He'. injection He' as <-. discriminate Hf.
  - exfalso. rewrite He in He'. injection He' as <-. cbn in Hpos. lia.
  - exists s1, k. split; [exact Hw|]. rewrite Hr in Hr'. injection Hr' as <- <-. exact Hx.
Defined.

(** Process 2 waits for the semaphore; the signal makes it ready. *)
Lemma signal_call_witness :
  ∃ px s2, proctab s2 = <[2 := set_prstate PR_READY px]> (proctab demo7) ∧
    signal 0 demo7 = obind (resched s2) (λ _ s', Done OK (set_intr (intr demo7) s')).
Proof.
  destruct (demo_view demo7 [0] [] demo7_inv) as (Q & p & HQ & Hr & _ & Hp); [calc..|].
  assert (Q !! SEMQ 0 = Some [2]) as Hl by (apply (semq_of Q demo7 _ HQ); calc).
  assert (semtab demo7 !! 0 = Some (Sentry S_USED (-1) 100)) as He by (calc).
  destruct (signal_call Q demo7 0 HQ) as
    [[[Hb|(e & He' & Hf)] _]|[(e & He' & _ & Hpos & _)|(e & x & r & lr & px & s2 & _ & _ & _ & Hl' & _ & _ & _ & _ & Hw & _ & Hpt & _)]].
  - intros e He'. rewrite He in He'. injection He' as <-. done.
  - exfalso. by vm_compute in Hb.
  - exfalso. rewrite He in He'. injection He' as <-. discriminate Hf.
  - exfalso. rewrite He in He'. injection He' as <-. cbn in Hpos. lia.
  - rewrite Hl in Hl'. injection Hl' as <- <-. exists px, s2. split; [exact Hpt|exact Hw].
Defined.

Lemma signaln_call_witness :
  ∃ (Q2 : gmap Z (list Z)) s2, signaln 0 3 demo7 =
      obind (resched_cntl DEFER_STOP s2) (λ _ s', Done OK (set_intr (intr demo7) s')) ∧
    semtab s2 = <[0 := Sentry S_USED 2 100]> (semtab demo7) ∧ Q2 !! SEMQ 0 = Some [].
Proof.
  destruct demo7_inv as [Q HQ].
  destruct (signaln_call Q demo7 0 (Sentry S_USED (-1) 100) 3 HQ)
    as (Q2 & s2 & Hrun & _ & _ & _ & _ & _ & Hst & l & Hl & Hlen); [calc..|].
  exists Q2, s2. split; [exact Hrun|]. split; [exact Hst|].
  rewrite Hl. clear - Hlen. destruct l; [reflexivity|]. cbn in Hlen. lia.
Defined.

Lemma semcreate_call_witness :
  ∃ r ns, semcreate 4 demo2 =
    Done r (set_semtab (<[r := Sentry S_USED 4 (SEMQ r)]> (semtab demo2)) (set_nextsem ns demo2)).
Proof.
  destruct demo2_inv as [Q HQ].
  destruct (semcreate_call Q demo2 4 HQ ltac:(calc)) as
    [[Hn _]|[(_ & r & e & ns & _ & _ & Hrun & _)|(_ & Hall & _)]].
  - exfalso. lia.
  - exists r, ns. exact Hrun.
  - exfalso. destruct (Hall 0 ltac:(calc)) as (e & He & Hu).
    assert (sstate <$> semtab demo2 !! 0 = Some S_FREE) as Hf by (calc).
    rewrite He in Hf. cbn in Hf. congruence.
Defined.

Lemma semdelete_call_witness :
  ∃ s2, proctab s2 = wake_all [2] (proctab demo7) ∧
    semdelete 0 demo7 = obind (resched_cntl DEFER_STOP s2) (λ _ s',
      Done OK (set_intr (intr demo7) s')).
Proof.
  destruct demo7_inv as [Q HQ].
  assert (Q !! SEMQ 0 = Some [2]) as Hl by (apply (semq_of Q demo7 _ HQ); calc).
  assert (semtab demo7 !! 0 = Some (Sentry S_USED (-1) 100)) as He by (calc).
  destruct (semdelete_call Q demo7 0 HQ) as
    [[[Hb|(e & He' & Hf)] _]|(e & l & s2 & Q2 & e' & _ & _ & Hl' & Hrun & _ & _ & _ & _ & _ & _ & Hpt & _)].
  - exfalso. by vm_compute in Hb.
  - exfalso. rewrite He in He'. injection He' as <-. discriminate Hf.
  - rewrite Hl in Hl'. injection Hl' as <-. exists s2. split; [exact Hpt|exact Hrun].
Defined.

Lemma semreset_call_witness :
  ∃ s2, proctab s2 = wake_all [2] (proctab demo7) ∧
    semtab s2 = <[0 := Sentry S_USED 5 100]> (semtab demo7) ∧
    semreset 0 5 demo7 = obind (resched_cntl DEFER_STOP s2) (λ _ s',
      Done OK (set_intr (intr demo7) s')).
Proof.
  destruct demo7_inv as [Q HQ].
  assert (Q !! SEMQ 0 = Some [2]) as Hl by (apply (semq_of Q demo7 _ HQ); calc).
  assert (semtab demo7 !! 0 = Some (Sentry S_USED (-1) 100)) as He by (calc).
  destruct (semreset_call Q demo7 0 5 HQ ltac:(calc)) as
    [[[Hneg|[Hb|(e & He' & Hf)]] _]|(e & l & s2 & Q2 & He' & _ & Hl' & _ & Hrun & _ & _ & _ & _ & _ & _ & Hpt & Hst)].
  - exfalso. lia.
  - exfalso. by vm_compute in Hb.
  - exfalso. rewrite He in He'. injection He' as <-. discriminate Hf.
  - rewrite Hl in Hl'. injection Hl' as <-. rewrite He in He'. injection He' as <-.
    exists s2. split; [exact Hpt|]. split; [exact Hst|exact Hrun].
Defined.

Lemma sleepms_call_witness :
  ∃ s1 k l1, sleepms 5 demo5 = Switch s1 k ∧ currpid s1 = 1 ∧
    alarms (keyof (queuetab s1)) 0 l1 = [(2, 5)].
Proof.
  destruct (demo_view demo5 [1; 0] [] demo5_inv) as (Q & p & HQ & Hr & Hs & Hp); [calc..|].
  destruct (sleepms_call Q demo5 p [] 5 HQ ltac:(calc) Hp Hs ltac:(calc) ltac:(calc))
    as (s1 & k & Q1 & l1 & x & r & Hrun & _ & Hr' & Hx & _ & _ & Ha & _).
  rewrite Hr in Hr'. injection Hr' as <- <-.
  exists s1, k, l1. split; [exact Hrun|]. split; [exact Hx|].
  rewrite Ha. calc.
Defined.

(** One tick later the alarm of process 2 is due in 4. *)
Lemma clock_tick_witness :
  ∃ s' l', clkhandler 2 (set_Defer (Defer_ 1 false) demo8) = Done tt s' ∧
    alarms (keyof (queuetab s')) 0 l' = [(2, 4)].
Proof.
  assert (∀ s Q, InvQ Q s → Q !! SLP = Some [2] → keyof (queuetab s) 2 = 5 →
    ∃ s' l', clkhandler 2 (set_Defer (Defer_ 1 false) s) = Done tt s' ∧
      alarms (keyof (queuetab s')) 0 l' = [(2, 4)]) as H.
  { intros s Q HQ Hs Hk.
    destruct (clock_tick Q (set_Defer (Defer_ 1 false) s) [2] 2 (deferred_of _ _ HQ) Hs)
      as (s' & Q' & l' & Hrun & _ & _ & _ & Ha' & _).
    - cbn. rewrite Hk. done.
    - cbn. rewrite Hk. intros a ->%list_elem_of_singleton. done.
    - done.
    - exists s', l'. split; [exact Hrun|]. rewrite Ha'. cbn. by rewrite Hk. }
  destruct (demo_view demo8 [0] [2] demo8_inv) as (Q & p & HQ & Hr & Hs & Hp); [calc..|].
  apply (H demo8 Q HQ Hs). calc.
Defined.

Lemma recvtime_zero_sleeps_witness :
  ∃ s1 k (Q1 : gmap Z (list Z)), recvtime 0 demo5 = Switch s1 k ∧ Q1 !! SLP = Some [2] ∧ keyof (queuetab s1) 2 = 0.
Proof.
  destruct (demo_view demo5 [1; 0] [] demo5_inv) as (Q & p & HQ & Hr & Hs & Hp); [calc..|].
  assert (currpid demo5 = 2) as Hid by (calc).
  assert (prhasmsg <$> proctab demo5 !! currpid demo5 = Some false) as Hm by (calc).
  rewrite Hp in Hm. apply (inj Some) in Hm.
  destruct (recvtime_zero_sleeps Q demo5 p [] HQ ltac:(calc) Hp Hm Hs
    (λ x Hx, False_ind _ (not_elem_of_nil x Hx)))
    as [(s1 & k & Q1 & Hrun & _ & Hl & Hk & _) _].
  rewrite Hid in Hl, Hk. exists s1, k, Q1. split; [exact Hrun|]. split; [exact Hl|exact Hk].
Defined.

Lemma unsleep_call_witness : ∃ t', unsleep 2 demo8 = Done OK (set_queuetab t' demo8).
Proof.
  destruct demo8_inv as [Q HQ].
  assert (prstate <$> proctab demo8 !! 2 = Some PR_SLEEP) as Hst by (calc).
  destruct (unsleep_call Q demo8 2 HQ) as
    [[[Hb|(p & Hp & Hns & _)] _]|(p & l & l' & t' & _ & _ & _ & Hrun & _)].
  - exfalso. by vm_compute in Hb.
  - exfalso. rewrite Hp in Hst. injection Hst as Hst. congruence.
  - exists t'. exact Hrun.
Defined.

(** A message for the sleeping process 2, which is not waiting for one. *)
Lemma send_call_witness :
  ∃ p, proctab demo8 !! 2 = Some p ∧
    send 2 99 demo8 = Done OK (set_proctab (<[2 := delivered 99 p]> (proctab demo8)) demo8).
Proof.
  destruct (demo_view demo8 [0] [2] demo8_inv) as (Q & pc & HQ & Hr & Hs & Hpc); [calc..|].
  assert (prstate <$> proctab demo8 !! 2 = Some PR_SLEEP) as Hst by (calc).
  assert (prhasmsg <$> proctab demo8 !! 2 = Some false) as Hm by (calc).
  destruct (send_call Q demo8 2 99 [0] [2] HQ Hr Hs) as
    [[[Hb|(p & Hp & Hm')] _]|(p & Hp & _ & _ & [(_ & _ & Hrun & _)|[Hw _]])].
  - exfalso. by vm_compute in Hb.
  - exfalso. rewrite Hp in Hm. injection Hm as Hm. congruence.
  - exists p. split; [exact Hp|exact Hrun].
  - exfalso. rewrite Hp in Hst. injection Hst as Hst. destruct Hw; congruence.
Defined.

Lemma send_receive_witness :
  ∃ s1 s2, send (currpid demo5) 77 demo5 = Done OK s1 ∧ receive s1 = Done 77 s2.
Proof.
  destruct (demo_view demo5 [1; 0] [] demo5_inv) as (Q & p & HQ & _ & _ & Hp); [calc..|].
  assert (prhasmsg <$> proctab demo5 !! currpid demo5 = Some false) as Hm by (calc).
  rewrite Hp in Hm. apply (inj Some) in Hm.
  destruct (send_receive Q demo5 p 77 HQ Hp Hm) as (s1 & s2 & H1 & H2 & _).
  exists s1, s2. split; [exact H1|exact H2].
Defined.

Lemma newpid_call_witness : ∃ r np, newpid demo2 = Done r (set_nextpid np demo2).
Proof.
  destruct demo2_inv as [Q (Hc & _)].
  destruct (newpid_call demo2 (c_procs _ _ _ Hc) (c_nextpid _ _ _ Hc)) as (r & np & _ & Hrun & _).
  exists r, np. exact Hrun.
Defined.

(** A priority that is too small: the stack is lost. *)
Lemma create_call_witness :
  ∃ h1 np, create 8192 400 0 [] [] demo_start = Done SYSERR (set_nextpid np (set_hp h1 demo_start)) ∧
    heap_ok h1 [(4096, 8192 - 400)].
Proof.
  destruct demo_start_inv as [Q HQ]. pose proof demo_heap_ok as Hh.
  pose proof (create_call Q demo_start [(4096, 8192)] 8192 400 0 [] [] HQ Hh ltac:(calc) ltac:(calc) ltac:(calc)) as Hc.
  cbv zeta in Hc. change (roundmb (stack_size 400)) with 400 in Hc. cbn [alloc_last] in Hc.
  rewrite (bool_decide_eq_false_2 (400 = 8192)), (bool_decide_eq_true_2 (400 < 8192)) in Hc by done.
  destruct Hc as (h1 & np & H1 & _ & _ & [[_ Hrun]|[Hneg _]]).
  - exists h1, np. split; [exact Hrun|exact H1].
  - exfalso. lia.
Defined.

(** Killing process 2 while it waits for the semaphore. *)
Lemma kill_state_call_witness :
  ∃ s' (Q' : gmap Z (list Z)), kill_state 2 demo7 = Done tt s' ∧ Q' !! SEMQ 0 = Some [] ∧
    semtab s' !! 0 = Some (Sentry S_USED 0 100).
Proof.
  destruct demo7_inv as [Q HQ].
  assert (Q !! SEMQ 0 = Some [2]) as Hl by (apply (semq_of Q demo7 _ HQ); calc).
  assert (semtab demo7 !! 0 = Some (Sentry S_USED (-1) 100)) as He by (calc).
  assert ((λ p, (prstate p, prsem p)) <$> proctab demo7 !! 2 = Some (PR_WAIT, 0)) as Hp by (calc).
  destruct (proctab demo7 !! 2) as [p|] eqn:Hp2; [|discriminate Hp]. injection Hp as Hw Hsem.
  destruct (kill_state_call Q demo7 2 p HQ Hp2 ltac:(calc) ltac:(calc))
    as (s' & Q' & Hrun & _ & _ & Hq & Hst).
  exists s', Q'. split; [exact Hrun|]. split; [exact (Hq _ _ Hl)|].
  rewrite Hst, Hw, Hsem, He. apply lookup_insert_eq.
Defined.
