(* ===== verification/MemThms.v ===== *)
(** Queues, the heap, buffer pools and ports: what each operation does. *)

From S2P Require Import Prelude.
From S2P Require Import Types.
From S2P Require Import Queue.
From S2P Require Import Delta.
From S2P Require Import Heap.
From S2P Require Import Kernel.
From S2P Require Import KInv.
From S2P Require Import Sched.
From S2P Require Import Semaphore.
From S2P Require Import Clock.
From S2P Require Import Message.
From S2P Require Import Device.
From S2P Require Import Process.
From S2P Require Import World.
From S2P Require Import Sysinit.
From S2P Require Import BufPool.
From S2P Require Import Ports.
From S2P Require Import Demo.

(** ** Queues *)

(** C14: the queue table implements lists of processes.  enqueue appends,
    dequeue and getfirst take the first process, getlast the last, getitem any
    one; taking from an empty queue yields EMPTY and changes nothing; the tests
    say whether the list is empty; in each case every other queue keeps its
    list. *)
Theorem queue_refines_list pt t Q q l :
  qsys t Q → Q !! q = Some l →
  (∀ x, isbadpid pt x = false → detached Q x →
     ∃ t', enqueue pt x q t = Some (x, t') ∧ qsys t' (<[q := l ++ [x]]> Q)) ∧
  match l with
  | [] => dequeue q t = Some (EMPTY, t) ∧ getfirst q t = Some (EMPTY, t)
  | x :: r => (∃ t', dequeue q t = Some (x, t') ∧ qsys t' (<[q := r]> Q)) ∧
              (∃ t', getfirst q t = Some (x, t') ∧ qsys t' (<[q := r]> Q))
  end ∧
  (∀ r x, l = r ++ [x] → ∃ t', getlast q t = Some (x, t') ∧ qsys t' (<[q := r]> Q)) ∧
  (∀ l1 x l2, l = l1 ++ x :: l2 → ∃ t', getitem x t = Some (x, t') ∧ qsys t' (<[q := l1 ++ l2]> Q)) ∧
  isempty q t = Some (bool_decide (l = [])) ∧ nonempty q t = Some (bool_decide (l ≠ [])) ∧
  firstkey q t = Some (first_key t l).
Proof.
  intros Hq Hl. split_and!.
  - intros x Hb Hd. destruct (enqueue_spec pt t Q q l x Hq Hl Hb Hd) as (t' & H1 & H2 & _). eauto.
  - destruct l as [|x r].
    + split; [by eapply dequeue_empty|by eapply getfirst_empty].
    + destruct (dequeue_spec t Q q x r Hq Hl) as (t1 & ? & ? & _).
      destruct (getfirst_spec t Q q x r Hq Hl) as (t2 & ? & ? & _). split; eauto.
  - intros r x ->. destruct (getlast_spec t Q q x r Hq Hl) as (t' & ? & ? & _). eauto.
  - intros l1 x l2 ->. destruct (getitem_spec t Q q l1 x l2 Hq Hl) as (t' & ? & ? & _). eauto.
  - by eapply isempty_spec.
  - by eapply nonempty_spec.
  - by eapply firstkey_spec.
Qed.

(** ** The heap *)

(** C15: getmem is first fit.  It fails, and changes nothing, exactly when
    every free block is smaller than the rounded request; otherwise the result
    is a multiple of 8, all the bytes it stands for were free, the free list
    loses exactly these bytes and stays well formed, and memory that was not
    free is unchanged. *)
Theorem getmem_first_fit h l nbytes :
  heap_ok h l → 0 < nbytes ≤ 4294967288 →
  (Forall (λ b, b.2 < roundmb nbytes) l ∧ getmem nbytes h = Some (SYSERR_PTR, h)) ∨
  (∃ x l' h', alloc_first (roundmb nbytes) l = Some (x, l') ∧ getmem nbytes h = Some (x, h') ∧
     heap_ok h' l' ∧ x mod 8 = 0 ∧ nbytes ≤ roundmb nbytes < nbytes + 8 ∧
     (∀ y, x ≤ y < x + roundmb nbytes → free_at l y) ∧
     (∀ y, free_at l' y ↔ free_at l y ∧ ¬ (x ≤ y < x + roundmb nbytes)) ∧
     (∀ a, ¬ free_at l a → mem h' !! a = mem h !! a)).
Proof.
  intros Hh Hn. destruct (roundmb_bounds nbytes Hn) as (Hr & Hr8 & Hr0).
  pose proof (getmem_spec h l nbytes Hh Hn) as Hs.
  destruct (alloc_first (roundmb nbytes) l) as [[x l']|] eqn:Ha.
  - right. destruct Hs as (h' & Hrun & Hh' & Hf).
    destruct (alloc_first_taken _ _ _ _ _ _ (hk_wf _ _ Hh) Hr0 Hr8 Ha) as [H1 H2 H3 H4 _].
    exists x, l', h'. split_and!; try done; try lia. apply Hf.
  - left. split; [by apply alloc_first_None|done].
Qed.

(** getstk is last fit: it takes the highest bytes of the last block that
    is large enough and returns the address of their last word; it fails, and
    changes nothing, exactly when every free block is smaller than the rounded
    request. *)
Theorem getstk_last_fit h l nbytes :
  heap_ok h l → 0 < nbytes ≤ 4294967288 →
  (Forall (λ b, b.2 < roundmb nbytes) l ∧ getstk nbytes h = Some (SYSERR_PTR, h)) ∨
  (∃ x l' h' l1 a len l2, l = l1 ++ (a, len) :: l2 ∧ roundmb nbytes ≤ len ∧
     Forall (λ b, b.2 < roundmb nbytes) l2 ∧ x + roundmb nbytes = a + len ∧
     getstk nbytes h = Some (x + roundmb nbytes - 4, h') ∧ heap_ok h' l' ∧
     (∀ y, free_at l' y ↔ free_at l y ∧ ¬ (x ≤ y < x + roundmb nbytes)) ∧
     (∀ b, ¬ free_at l b → mem h' !! b = mem h !! b)).
Proof.
  intros Hh Hn. destruct (roundmb_bounds nbytes Hn) as (Hr & Hr8 & Hr0).
  pose proof (getstk_spec h l nbytes Hh Hn) as Hs.
  destruct (last_fit (roundmb nbytes) l) as [Hall|(l1 & a & len & l2 & -> & Hle & Hall)].
  - left. split; [done|]. by rewrite (proj2 (alloc_last_None _ _) Hall) in Hs.
  - right. rewrite (alloc_last_at _ _ _ _ _ Hle Hall) in Hs.
    pose proof (alloc_last_at _ l1 a len l2 Hle Hall) as Ha.
    destruct (bool_decide (roundmb nbytes = len)) eqn:Heq;
      destruct Hs as (h' & Hrun & Hh' & Hf);
      destruct (alloc_last_taken _ _ _ _ _ _ (hk_wf _ _ Hh) Hr0 Hr8 Ha) as [_ _ _ H4 _];
      bools; eexists _, _, h', l1, a, len, l2; (split_and!; [done|done|done| |exact Hrun|exact Hh'|exact H4|apply Hf]); lia.
Qed.

(** C16: freemem.  Bytes that overlap a free block are refused and nothing
    changes; otherwise the free list, coalesced with its neighbours, covers
    exactly the bytes it covered and the bytes given back, and no other memory
    changes. *)
Theorem freemem_call h l a nbytes :
  heap_ok h l → 0 < nbytes ≤ 4294967288 → minheap h ≤ a → a mod 8 = 0 →
  a + roundmb nbytes ≤ maxheap h →
  ((∃ y, a ≤ y < a + roundmb nbytes ∧ free_at l y) ∧ freemem a nbytes h = Some (SYSERR, h)) ∨
  (∃ h' l', freemem a nbytes h = Some (OK, h') ∧ heap_ok h' l' ∧
     (∀ y, free_at l' y ↔ free_at l y ∨ a ≤ y < a + roundmb nbytes) ∧
     (∀ y, ¬ free_at l' y → mem h' !! y = mem h !! y)).
Proof.
  intros Hh Hn Ha Ha8 Hmax.
  destruct (freemem_spec h l a nbytes Hh Hn Ha Ha8 Hmax) as [Hbad|(h' & l' & Hrun & Hh' & Hg & _ & _ & Hm)].
  - by left.
  - right. exists h', l'. split_and!; try done.
    intros y Hy. apply Hm; intros Hc; apply Hy, Hg; tauto.
Qed.

(** C17: what getmem takes, freemem gives back: freeing a block with the size
    it was requested with restores the free list, block for block. *)
Theorem getmem_freemem h l nbytes x h' :
  heap_ok h l → 0 < nbytes ≤ 4294967288 →
  getmem nbytes h = Some (x, h') → x ≠ SYSERR_PTR →
  ∃ h'', freemem x nbytes h' = Some (OK, h'') ∧ heap_ok h'' l.
Proof.
  intros Hh Hn Hrun Hx. destruct (roundmb_bounds nbytes Hn) as (Hr & Hr8 & Hr0).
  pose proof (getmem_spec h l nbytes Hh Hn) as Hs.
  destruct (alloc_first (roundmb nbytes) l) as [[x' l']|] eqn:Ha; [|congruence].
  destruct Hs as (h1 & Hrun' & Hh' & [Hmin Hmax _]).
  rewrite Hrun in Hrun'. injection Hrun' as -> ->.
  destruct (alloc_first_taken _ _ _ _ _ _ (hk_wf _ _ Hh) Hr0 Hr8 Ha) as [_ H2 H3 H4 _].
  pose proof (wfb_free _ _ _ _ (hk_wf _ _ Hh) (H3 x' ltac:(lia))).
  pose proof (wfb_free _ _ _ _ (hk_wf _ _ Hh) (H3 (x' + roundmb nbytes - 1) ltac:(lia))).
  destruct (freemem_spec h1 l' x' nbytes Hh' Hn) as [[(y & Hy & Hfree) _]|(h2 & l2 & Hfr & Hh2 & Hg & Hmin2 & Hmax2 & _)];
    [lia|done|lia| |].
  - exfalso. apply H4 in Hfree. tauto.
  - exists h2. split; [done|].
    assert (l2 = l) as ->; [|done].
    eapply wfb_unique; [exact (hk_wf _ _ Hh2)|rewrite Hmin2, Hmin; exact (hk_wf _ _ Hh)|].
    intros y. rewrite (Hg y), H4. split; [intros [[? _]|?]; auto|].
    intros Hy. destruct (decide (x' ≤ y < x' + roundmb nbytes)); tauto.
Qed.

(** A request for more than 4294967288 bytes is not refused: rounding
    wraps it to 0, and getmem returns the first free block, as an allocation,
    without taking anything off the free list. *)
Theorem getmem_wraps h a len r nbytes :
  heap_ok h ((a, len) :: r) → 4294967288 < nbytes < 4294967296 →
  getmem nbytes h = Some (a, h).
Proof.
  intros Hh Hn.
  destruct (heap_range h _ a len Hh ltac:(left)) as (Ha & Hend & Hlen & Ha8 & _).
  pose proof (hk_first _ _ Hh) as Hf. cbn in Hf.
  pose proof (hk_list _ _ Hh) as (Hnx & Hln & _).
  pose proof (hk_total _ _ Hh) as Ht. pose proof (wfb_total _ _ _ (hk_wf _ _ Hh)) as Htot.
  destruct (hk_max _ _ Hh) as (_ & Hmx & _). destruct (hk_min _ _ Hh) as (Hmn & _).
  unfold getmem. rewrite bool_decide_eq_false_2 by lia.
  assert (roundmb nbytes = 0) as ->.
  { unfold roundmb. replace (u32 (7 + nbytes)) with (nbytes - 4294967289).
    - rewrite land_lnot7. Z.to_euclidean_division_equations; lia.
    - unfold u32. Z.to_euclidean_division_equations; lia. }
  unfold walk_fuel. cbn [getmem_loop]. rewrite Hf.
  rewrite bool_decide_eq_false_2 by lia. unfold ld. rewrite Hln. cbn [mbind option_bind].
  rewrite bool_decide_eq_false_2, bool_decide_eq_true_2 by lia.
  rewrite Z.add_0_r, u32_id by lia. cbn [set_mnext mbind option_bind].
  assert (set_memlist (Memblk a (mlength (memlist h))) h = h) as ->.
  { destruct h as [m [nx0 ml] lo hi]. cbn in *. by subst. }
  assert (∀ k v, mem h !! k = Some v → st k v h = Some h) as Hst.
  { intros k v Hk. rewrite st_spec by eauto. f_equal. unfold set_mem. rewrite insert_id by done. by destruct h. }
  rewrite Hnx. cbn [mbind option_bind]. rewrite Hst by done. cbn [mbind option_bind].
  rewrite Hln. cbn [mbind option_bind]. rewrite Z.sub_0_r, u32_id by lia.
  rewrite Hst by done. cbn [mbind option_bind]. f_equal. f_equal. unfold add_free, set_memlist.
  rewrite Z.add_0_r, u32_id by lia. by destruct h as [m [nx0 ml] lo hi].
Qed.

(** ** Buffer pools *)

(** C18: mkbufpool.  Sizes and counts out of range, a full pool table, no
    memory for the buffers or no free semaphore is an error; otherwise the pool
    table has a new entry whose [numbufs] buffers, laid out one after the other
    in memory taken from the heap, are all free, and a semaphore counts them. *)
Theorem mkbufpool_call Q s l bufsiz numbufs :
  InvQ Q s → heap_ok (hp s) l → is_table NBPOOLS (buftab (bufs s)) → 0 ≤ nbpools (bufs s) →
  let sz := buf_stride bufsiz in
  let id := nbpools (bufs s) in
  (¬ (8 ≤ bufsiz ≤ 8192 ∧ 1 ≤ numbufs ≤ 2048 ∧ id < NBPOOLS) ∧ mkbufpool bufsiz numbufs s = Done SYSERR s) ∨
  (alloc_first (roundmb (numbufs * sz)) l = None ∧ mkbufpool bufsiz numbufs s = Done SYSERR s) ∨
  ((∀ i e, semtab s !! i = Some e → sstate e = S_USED) ∧
   ∃ s', mkbufpool bufsiz numbufs s = Done SYSERR s' ∧ InvQ Q s' ∧ heap_ok (hp s') l ∧
     nbpools (bufs s') = id) ∨
  (∃ x l' r e s', alloc_first (roundmb (numbufs * sz)) l = Some (x, l') ∧
     semtab s !! r = Some e ∧ sstate e = S_FREE ∧
     mkbufpool bufsiz numbufs s = Done id s' ∧ InvQ Q s' ∧ heap_ok (hp s') l' ∧
     bchain (mem (hp s')) x (pool_bufs (Z.to_nat numbufs) x sz) ∧
     buftab (bufs s') = <[id := Bpentry x r (sz - 4)]> (buftab (bufs s)) ∧
     nbpools (bufs s') = id + 1 ∧
     semtab s' = <[r := Sentry S_USED numbufs (SEMQ r)]> (semtab s)).
Proof.
  intros HQ Hh Ht H0 sz id.
  destruct (decide (8 ≤ bufsiz ≤ 8192 ∧ 1 ≤ numbufs ≤ 2048 ∧ id < NBPOOLS)) as [(H1 & H2 & H3)|Hbad].
  2: { left. split; [done|]. by apply mkbufpool_bad. }
  right. pose proof (mkbufpool_spec Q s l bufsiz numbufs HQ Hh Ht (conj H0 H3) H1 H2) as Hs.
  cbv zeta in Hs. fold sz id in Hs.
  destruct (alloc_first (roundmb (numbufs * sz)) l) as [[x l']|].
  - right. destruct Hs as [Hs|(r & e & s' & Hs)]; [by left|right]. exists x, l', r, e, s'. by split.
  - left. split; [done|]. rewrite Hs. by destruct s.
Qed.

(** C19: getbuf takes the first free buffer of a pool and freebuf gives it
    back: the two calls one after the other return the buffer's address and OK,
    and restore the kernel's state, memory included, exactly. *)
Theorem getbuf_freebuf Q s l poolid b e x r :
  InvQ Q s → heap_ok (hp s) l → 0 ≤ poolid < nbpools (bufs s) → nbpools (bufs s) ≤ NBPOOLS →
  buftab (bufs s) !! poolid = Some b → semtab s !! bpsem b = Some e → sstate e = S_USED →
  0 < scount e → bchain (mem (hp s)) (bpnext b) (x :: r) → x ∉ r → buf_ok s l x →
  ∃ s1, getbuf poolid s = Done (x + 4) s1 ∧ freebuf (x + 4) s1 = Done OK s ∧
    mem (hp s1) !! x = Some poolid ∧ semtab s1 !! bpsem b = Some (set_scount (scount e - 1) e) ∧
    InvQ Q s1.
Proof.
  intros HQ Hh Hid Hnb Hb He Hu Hcnt Hch Hnin Hok.
  destruct (getbuf_spec Q s l poolid b e x r HQ Hh Hid Hnb Hb He Hu Hcnt Hch Hnin Hok)
    as (n & h & Hn & Hrun & HQ1 & Hh1 & Hm1 & Hh1' & Hch1).
  pose proof HQ as (Hc & Hsc & _). pose proof (scount_bounds _ _ _ _ Hc Hsc He Hu) as [_ Hmax].
  set (s1 := set_hp h _) in *. 
  destruct (freebuf_spec Q (set_intr (intr s) s1) l poolid (Bpentry n (bpsem b) (bpsize b))
    (set_scount (scount e - 1) e) x r) as (h2 & Hrun2 & _ & _ & Hm2 & Hh2 & _).
  { by apply InvQ_intr. }
  { exact Hh1. }
  { exact Hid. }
  { exact Hnb. }
  { apply lookup_insert_eq. }
  { apply lookup_insert_eq. }
  { done. }
  { cbn. lia. }
  { exact Hch1. }
  { done. }
  { destruct Hok as (H1 & H2 & H3). split; [|by split].
    change (hp (set_intr (intr s) s1)) with h. rewrite Hh1'. exact H1. }
  { cbn. rewrite Hm1. apply lookup_insert_eq. }
  exists (set_intr (intr s) s1). split; [exact Hrun|]. split_and!.
  - rewrite Hrun2. f_equal. cbn in Hm2, Hh2 |- *. destruct Hch as [Hx _].
    assert (Bpentry x (bpsem b) (bpsize b) = b) as -> by (rewrite <-Hx; by destruct b).
    rewrite insert_insert_eq, insert_id by done.
    rewrite insert_insert_eq, insert_id.
    2: { rewrite He. f_equal. destruct e. cbn. unfold set_scount. cbn. f_equal; lia. }
    assert (h2 = hp s) as ->.
    { rewrite Hh2, Hm2, Hm1, insert_insert_eq, insert_id by done. rewrite Hh1'. by destruct (hp s). }
    destruct s as [? ? ? ? ? ? ? ? ? ? ? ? ? ? ? ? [? ?] ? ?]. done.
  - cbn. rewrite Hm1. apply lookup_insert_eq.
  - apply lookup_insert_eq.
  - by apply InvQ_intr.
Qed.

(** ** Ports *)

(** Ptsend to a port with room appends the message: the port's messages
    are those before and the new one behind them, in a node taken from the
    free list; one place less and one message more are counted. *)
Theorem ptsend_appends Q s l id p q f fl msg e1 e2 :
  InvQ Q s → heap_ok (hp s) l → port_view s l id p q (f :: fl) →
  semtab s !! ptssem p = Some e1 → sstate e1 = S_USED → 0 < scount e1 →
  semtab s !! ptrsem p = Some e2 → sstate e2 = S_USED → 0 ≤ scount e2 < INT_MAX →
  ptssem p ≠ ptrsem p →
  ∃ s' p', ptsend id msg s = Done OK s' ∧ InvQ Q s' ∧
    port_view s' l id p' (q ++ [(f, msg)]) fl ∧ ptseq p' = ptseq p ∧
    semtab s' = <[ptrsem p := set_scount (scount e2 + 1) e2]>
                  (<[ptssem p := set_scount (scount e1 - 1) e1]> (semtab s)).
Proof.
  intros HQ Hh Hv H1 H2 H3 H4 H5 H6 H7.
  destruct (ptsend_spec Q s l id p q f fl msg e1 e2 HQ Hh Hv H1 H2 H3 H4 H5 H6 H7)
    as (s' & p' & Hrun & HQ' & _ & Hv' & _ & _ & Hseq & _ & Hst).
  exists s', p'. by split_and!.
Qed.

(** C20: messages come out in the order in which they went in: after a ptsend
    to a port with room, ptrecv returns the oldest message (the one just sent,
    if the port was empty), and all others stay in order. *)
Theorem port_fifo Q s l id p q f fl msg e1 e2 :
  InvQ Q s → heap_ok (hp s) l → port_view s l id p q (f :: fl) →
  semtab s !! ptssem p = Some e1 → sstate e1 = S_USED → 0 < scount e1 →
  semtab s !! ptrsem p = Some e2 → sstate e2 = S_USED → 0 ≤ scount e2 < INT_MAX →
  ptssem p ≠ ptrsem p →
  ∃ s1 s2 p2 n v r, ptsend id msg s = Done OK s1 ∧ ptrecv id s1 = Done v s2 ∧
    q ++ [(f, msg)] = (n, v) :: r ∧ port_view s2 l id p2 r (n :: fl) ∧ InvQ Q s2 ∧
    semtab s2 = semtab s.
Proof.
  intros HQ Hh Hv He1 Hu1 Hc1 He2 Hu2 Hc2 Hne.
  destruct (ptsend_spec Q s l id p q f fl msg e1 e2 HQ Hh Hv He1 Hu1 Hc1 He2 Hu2 Hc2 Hne)
    as (s1 & p1 & Hrun & HQ1 & Hh1 & Hv1 & Hp1 & Hp2 & _ & _ & Hst).
  destruct (q ++ [(f, msg)]) as [|[n v] r] eqn:Hq; [by destruct q|].
  pose proof (scount_bounds _ _ _ _ (proj1 HQ) (proj1 (proj2 HQ)) He1 Hu1) as [_ Hmax].
  destruct (ptrecv_spec Q s1 l id p1 n v r fl (set_scount (scount e1 - 1) e1)
    (set_scount (scount e2 + 1) e2)) as (s2 & p2 & Hrun2 & HQ2 & _ & Hv2 & _ & _ & _ & _ & Hst2); try done.
  - rewrite Hst, Hp2. apply lookup_insert_eq.
  - cbn. lia.
  - rewrite Hst, Hp1, lookup_insert_ne by done. apply lookup_insert_eq.
  - cbn. lia.
  - by rewrite Hp1, Hp2.
  - exists s1, s2, p2, n, v, r. split_and!; try done. rewrite Hst2, Hst, Hp1, Hp2. cbn.
    rewrite insert_insert_eq, (insert_insert_ne _ (ptssem p) (ptrsem p)) by done.
    rewrite insert_insert_eq, (insert_id (semtab s) (ptssem p)), insert_id; [done|..].
    + rewrite He2. f_equal. destruct e2; unfold set_scount; cbn. f_equal; lia.
    + rewrite He1. f_equal. destruct e1; unfold set_scount; cbn. f_equal; lia.
Qed.

(** ** Witnesses *)

Lemma queue_refines_list_witness :
  ∃ t', enqueue (proctab demo_start) 1 RDY (table NQENT empty_entry) = Some (1, t') ∧
    qsys t' (<[RDY := [1]]> empty_queues).
Proof.
  assert (empty_queues !! RDY = Some []) as Hl.
  { destruct empty_queues_made as [Hdom Hnil].
    destruct (proj2 (Hdom RDY) ltac:(calc)) as [l Hl]. by rewrite Hl, (Hnil _ _ Hl). }
  apply (proj1 (queue_refines_list (proctab demo_start) _ _ RDY [] empty_queues_sys Hl)).
  - calc.
  - intros q l Hq Hin. rewrite (proj2 empty_queues_made _ _ Hq) in Hin.
    exact (not_elem_of_nil _ Hin).
Defined.

Definition small_heap : heap := fresh_heap 4096 64.
Lemma small_heap_ok : heap_ok small_heap [(4096, 64)].
Proof. by apply fresh_heap_ok. Qed.

Lemma small_blocks (k : Z) : k < 64 → ¬ Forall (λ b : Z * Z, b.2 < k) [(4096, 64)].
Proof. intros Hk [H _]%Forall_cons. cbn in H. lia. Qed.

Lemma getmem_first_fit_witness :
  ∃ h', getmem 20 small_heap = Some (4096, h') ∧ heap_ok h' [(4120, 40)].
Proof.
  destruct (getmem_first_fit small_heap _ 20 small_heap_ok ltac:(calc)) as
    [[Hall _]|(x & l' & h' & Ha & Hrun & Hh' & _)].
  - exfalso. exact (small_blocks 24 ltac:(calc) Hall).
  - assert (alloc_first (roundmb 20) [(4096, 64)] = Some (4096, [(4120, 40)])) as Ha' by calc.
    rewrite Ha in Ha'. injection Ha' as -> ->. exists h'. split; [exact Hrun|exact Hh'].
Defined.

Lemma getstk_last_fit_witness : ∃ x h', getstk 20 small_heap = Some (x + 24 - 4, h') ∧ x + 24 = 4160.
Proof.
  destruct (getstk_last_fit small_heap _ 20 small_heap_ok ltac:(calc)) as
    [[Hall _]|(x & l' & h' & l1 & a & len & l2 & Hl & _ & _ & Hx & Hrun & _)].
  - exfalso. exact (small_blocks 24 ltac:(calc) Hall).
  - exists x, h'. split; [exact Hrun|]. change (roundmb 20) with 24 in Hx.
    destruct l1 as [|b l1]; [injection Hl as <- <- _; exact Hx|].
    injection Hl as _ Hl. by destruct l1.
Defined.

(** Freeing memory that is free is refused. *)
Lemma freemem_call_witness : freemem 4104 8 small_heap = Some (SYSERR, small_heap).
Proof.
  destruct (freemem_call small_heap _ 4104 8 small_heap_ok ltac:(calc) ltac:(calc) ltac:(calc) ltac:(calc))
    as [[_ Hrun]|(h' & l' & Hrun & _)]; [exact Hrun|].
  exfalso. assert (fst <$> freemem 4104 8 small_heap = Some SYSERR) as E by calc.
  rewrite Hrun in E. discriminate E.
Defined.

Lemma getmem_freemem_witness :
  ∃ h' h'', getmem 20 small_heap = Some (4096, h') ∧ freemem 4096 20 h' = Some (OK, h'') ∧
    heap_ok h'' [(4096, 64)].
Proof.
  destruct (getmem 20 small_heap) as [[x h']|] eqn:Hrun.
  2: { exfalso. assert (is_Some (getmem 20 small_heap)) as [? E] by (eexists; calc).
       rewrite Hrun in E. discriminate E. }
  assert (fst <$> getmem 20 small_heap = Some 4096) as E by calc.
  rewrite Hrun in E. injection E as ->.
  destruct (getmem_freemem small_heap _ 20 4096 h' small_heap_ok ltac:(calc) Hrun ltac:(calc))
    as (h'' & Hfr & Hh''). exists h', h''. split; [done|]. split; [exact Hfr|exact Hh''].
Defined.

Lemma getmem_wraps_witness : getmem 4294967290 small_heap = Some (4096, small_heap).
Proof. exact (getmem_wraps small_heap 4096 64 [] 4294967290 small_heap_ok ltac:(calc)). Defined.

(** A pool of two buffers of 16 bytes in the kernel that has just started. *)
Lemma demo_pool :
  ∃ Q r s', mkbufpool 16 2 demo_start = Done 0 s' ∧ InvQ Q s' ∧
    heap_ok (hp s') [(4136, 8152)] ∧ bchain (mem (hp s')) 4096 [4096; 4116] ∧
    buftab (bufs s') !! 0 = Some (Bpentry 4096 r 16) ∧ nbpools (bufs s') = 1 ∧
    semtab s' !! r = Some (Sentry S_USED 2 (SEMQ r)).
Proof.
  destruct demo_start_inv as [Q HQ].
  destruct (mkbufpool_spec Q demo_start [(4096, 8192)] 16 2 HQ demo_heap_ok
    (is_table_table NBPOOLS _) ltac:(calc) ltac:(calc) ltac:(calc)) as [(Hall & _)|(r & e & s' & H)].
  - exfalso. pose proof (Hall _ _ (demo_null_sem 0 ltac:(calc))) as Hu. discriminate Hu.
  - destruct H as (_ & _ & Hrun & HQ' & Hh & Hch & Hbt & Hnb & Hst).
    exists Q, r, s'. split; [exact Hrun|]. split; [exact HQ'|]. split; [exact Hh|].
    split; [exact Hch|]. rewrite Hbt, Hst. split; [apply lookup_insert_eq|].
    split; [exact Hnb|apply lookup_insert_eq].
Qed.

Lemma mkbufpool_call_witness :
  ∃ s', mkbufpool 16 2 demo_start = Done 0 s' ∧ bchain (mem (hp s')) 4096 [4096; 4116].
Proof.
  destruct demo_start_inv as [Q HQ].
  destruct (mkbufpool_call Q demo_start [(4096, 8192)] 16 2 HQ demo_heap_ok
    (is_table_table NBPOOLS _) ltac:(calc)) as
    [[Hbad _]|[[Ha _]|[(Hall & _)|(x & l' & r & e & s' & Ha & _ & _ & Hrun & _ & _ & Hch & _)]]].
  - exfalso. apply Hbad. clear. by split_and!.
  - discriminate Ha.
  - exfalso. pose proof (Hall _ _ (demo_null_sem 0 ltac:(calc))) as Hu. discriminate Hu.
  - injection Ha as <- <-. exists s'. split; [exact Hrun|exact Hch].
Defined.

Lemma getbuf_freebuf_witness :
  ∃ s s1, getbuf 0 s = Done 4100 s1 ∧ freebuf 4100 s1 = Done OK s.
Proof.
  destruct demo_pool as (Q & r & s & _ & HQ & Hh & Hch & Hbt & Hnb & Hst).
  destruct (getbuf_freebuf Q s [(4136, 8152)] 0 (Bpentry 4096 r 16) (Sentry S_USED 2 (SEMQ r)) 4096 [4116])
    as (s1 & H1 & H2 & _).
  - exact HQ.
  - exact Hh.
  - rewrite Hnb. clear. lia.
  - rewrite Hnb. by vm_compute.
  - exact Hbt.
  - exact Hst.
  - reflexivity.
  - reflexivity.
  - exact Hch.
  - by intros ?%list_elem_of_singleton.
  - destruct Hch as (_ & n & Hn & _). destruct (proj1 (hk_mem _ _ Hh 4096) (ex_intro _ _ Hn)) as [H3 H4].
    split; [exact H3|]. split; [exact H4|]. clear. intros Hf%free_at_cons.
    destruct Hf as [Hf|Hf]; [lia|by apply free_at_nil in Hf].
  - exists s, s1. split; [exact H1|exact H2].
Defined.

(** A port with room for two messages: its nodes are the first words of the
    heap, which the free list does not hold. *)
Definition port_mem : gmap Z Z :=
  <[4096 := 0]> (<[4100 := 4104]> (<[4104 := 0]> (<[4108 := 0]> (<[4112 := 0]> (<[4116 := 8176]> (ram 4096 8192)))))).
Definition port_heap : heap := Heap port_mem (Memblk 4112 8176) 4096 12288.

Lemma port_heap_ok : heap_ok port_heap [(4112, 8176)].
Proof.
  split; cbn [mem port_heap memlist minheap maxheap mnext mlength].
  - intros a. unfold port_mem. do 6 rewrite lookup_insert_is_Some'. rewrite ram_some by done.
    split; [intros [?|[?|[?|[?|[?|[?|?]]]]]]|intros ?; do 6 right]; try assumption;
      Z.to_euclidean_division_equations; lia.
  - done.
  - done.
  - done.
  - unfold port_mem. split_and!; [|do 5 (rewrite lookup_insert_ne by done); apply lookup_insert_eq|done].
    do 4 (rewrite lookup_insert_ne by done). apply lookup_insert_eq.
  - done.
  - done.
Qed.

Definition demo_port : ptentry := Ptentry 0 1 PT_ALLOC 2 0 0 0.
Definition demo_ports : kst :=
  set_ports (Portstate (table NPORTS (λ _, demo_port)) 4096 0)
    (set_semtab (<[1 := Sentry S_USED 0 (SEMQ 1)]> (<[0 := Sentry S_USED 2 (SEMQ 0)]> (semtab demo_null)))
      (set_hp port_heap demo_null)).

Lemma demo_ports_inv : Inv demo_ports.
Proof.
  destruct demo_null_inv as [Q HQ]. exists Q. apply InvQ_ports.
  assert (InvQ Q (set_hp port_heap demo_null)) as HQ1.
  { destruct (proj2_sig demo_heap_sig) as (_ & Hmin & Hmax). fold demo_heap in Hmin, Hmax.
    eapply InvQ_store; [exact HQ|exact port_heap_ok|by symmetry|by symmetry]. }
  pose proof (demo_null_sem 0 ltac:(calc)) as H0. pose proof (demo_null_sem 1 ltac:(calc)) as H1.
  pose proof (InvQ_new_sem Q _ 0 _ 2 HQ1 H0 eq_refl ltac:(calc)) as HQ2.
  apply (InvQ_new_sem Q _ 1 (Sentry S_FREE 0 (SEMQ 1)) 0 HQ2); [|done|calc].
  cbn [semtab set_semtab]. by rewrite lookup_insert_ne.
Qed.

Lemma demo_port_view : port_view demo_ports [(4112, 8176)] 0 demo_port [] [4096; 4104].
Proof.
  split; [done|exact (table_lookup NPORTS (λ _, demo_port) 0 ltac:(done))|done|done|done| | |].
  - cbn [ports demo_ports set_ports ptfree hp set_semtab set_hp mem port_heap fchain].
    unfold port_mem. split; [done|]. exists 4104. split.
    { rewrite lookup_insert_ne by done. apply lookup_insert_eq. }
    split; [done|]. exists 0. split; [|done].
    do 3 (rewrite lookup_insert_ne by done). apply lookup_insert_eq.
  - cbn. apply NoDup_cons. split; [by intros ?%list_elem_of_singleton|apply NoDup_singleton].
  - cbn [app fmap list_fmap]. intros n Hn.
    assert (∀ y, y < 4112 → ¬ free_at [(4112, 8176)] y) as Hfree.
    { intros y Hy [H|H]%free_at_cons; [lia|by apply free_at_nil in H]. }
    apply elem_of_cons in Hn as [->|Hn%list_elem_of_singleton]; [|subst n];
      (split; [done|]; split; [done|]; split; [done|]; split; apply Hfree; lia).
Qed.

Lemma demo_ports_sems :
  semtab demo_ports !! 0 = Some (Sentry S_USED 2 (SEMQ 0)) ∧
  semtab demo_ports !! 1 = Some (Sentry S_USED 0 (SEMQ 1)).
Proof.
  cbn [semtab demo_ports set_ports set_semtab].
  split; [rewrite lookup_insert_ne by done|]; apply lookup_insert_eq.
Qed.

Lemma ptsend_appends_witness :
  ∃ s' p', ptsend 0 55 demo_ports = Done OK s' ∧
    port_view s' [(4112, 8176)] 0 p' [(4096, 55)] [4104].
Proof.
  destruct demo_ports_inv as [Q HQ]. destruct demo_ports_sems as [H0 H1].
  destruct (ptsend_appends Q demo_ports _ 0 demo_port [] 4096 [4104] 55 _ _ HQ port_heap_ok
    demo_port_view H0 eq_refl eq_refl H1 eq_refl ltac:(calc) ltac:(calc))
    as (s' & p' & Hrun & _ & Hv & _).
  exists s', p'. split; [exact Hrun|exact Hv].
Defined.

Lemma port_fifo_witness :
  ∃ s1 s2, ptsend 0 55 demo_ports = Done OK s1 ∧ ptrecv 0 s1 = Done 55 s2 ∧
    semtab s2 = semtab demo_ports.
Proof.
  destruct demo_ports_inv as [Q HQ]. destruct demo_ports_sems as [H0 H1].
  destruct (port_fifo Q demo_ports _ 0 demo_port [] 4096 [4104] 55 _ _ HQ port_heap_ok
    demo_port_view H0 eq_refl eq_refl H1 eq_refl ltac:(calc) ltac:(calc))
    as (s1 & s2 & p2 & n & v & r & Hsend & Hrecv & Hq & _ & _ & Hst).
  injection Hq as <- <- <-. exists s1, s2. split; [exact Hsend|]. split; [exact Hrecv|exact Hst].
Defined.
