(* ===== verification/LibThms.v ===== *)
(** The C library's string and number routines: what each returns and writes. *)

From stdpp Require Import sorting.
From S2P Require Import Prelude Types CString Qsort Printf PrintfSpec.

(** Strcmp and strncmp decide the lexicographic order of two strings (of
    their first [n] characters): zero for equal ones, and otherwise a result
    whose sign says which one is smaller. *)
Theorem strcmp_lexicographic m a b s t n :
  cstring m a s → cstring m b t → chars s → chars t →
  let k := Z.to_nat n in
  (∃ r, strcmp m a b = Some r ∧
    (r = 0 ∧ s = t ∨ r = -1 ∧ lex_lt s t ∨ r = 1 ∧ lex_lt t s)) ∧
  (∃ r, strncmp m a b n = Some r ∧
    (r = 0 ∧ take k s = take k t ∨ r < 0 ∧ lex_lt (take k s) (take k t) ∨
     0 < r ∧ lex_lt (take k t) (take k s))).
Proof. intros Hs Ht Cs Ct k. split; [by apply strcmp_ok|by apply strncmp_ok]. Qed.

(** Strncpy writes exactly [n] bytes, the string cut off or padded with
    null characters; strncat writes at most [n] characters of the second string
    and a null behind the first one; no other memory changes. *)
Theorem strncpy_strncat m s1 s2 s t n :
  0 ≤ n → cstring m s2 t →
  (mapped m s1 n → apart s1 n s2 (Z.of_nat (length t) + 1) →
     ∃ m', strncpy m s1 s2 n = Some (s1, m') ∧
       bytes_at m' s1 (take (Z.to_nat n) t ++ replicate (Z.to_nat n - length t) 0) ∧
       (∀ i, ¬ (s1 ≤ i < s1 + n) → m' !! i = m !! i)) ∧
  (let e := s1 + Z.of_nat (length s) in
   let k := Z.min n (Z.of_nat (length t)) + 1 in
   cstring m s1 s → mapped m e k → apart e k s2 (Z.of_nat (length t) + 1) →
     ∃ m', strncat m s1 s2 n = Some (s1, m') ∧ cstring m' s1 (s ++ take (Z.to_nat n) t) ∧
       (∀ i, ¬ (e ≤ i < e + k) → m' !! i = m !! i)).
Proof.
  intros Hn Ht. split.
  - intros Hm Ha. eexists. split; [by apply strncpy_ok|]. split; [apply write_bytes_at|].
    intros i Hi. apply write_bytes_out. unfold padded.
    rewrite length_app, length_take, length_replicate. lia.
  - intros e k Hs Hm Ha. eexists. split; [by apply (strncat_ok m s1 s2 s t)|]. split.
    + apply bytes_cstring.
      * rewrite <-app_assoc. apply bytes_at_app. split.
        -- apply bytes_frame with m; [|by apply (bytes_at_app m s1 s [0]), cstring_bytes].
           intros i Hi. apply write_bytes_out. lia.
        -- apply write_bytes_at.
      * apply Forall_app. split; [by eapply cstring_nonnull|]. apply Forall_take. by eapply cstring_nonnull.
    + intros i Hi. apply write_bytes_out. rewrite length_app, length_take. cbn [length]. lia.
Qed.

(** Memcpy copies [n] bytes, memset and bzero fill [n] bytes, and no other
    memory changes; memcmp compares as unsigned bytes. *)
Theorem memory_blocks m s ct l l2 c n :
  n = Z.of_nat (length l) → bytes_at m ct l → mapped m s n →
  (apart s n ct n → memcpy m s ct n = Some (s, write_bytes l s m)) ∧
  memset m s c n = Some (s, write_bytes (replicate (length l) (u8 c)) s m) ∧
  bzero m s n = Some (write_bytes (replicate (length l) 0) s m) ∧
  (bytes_at m s l2 → length l2 = length l → ∃ r, memcmp m s ct n = Some r ∧
     (r = 0 ∧ l2 = l ∨ r < 0 ∧ lex_lt l2 l ∨ 0 < r ∧ lex_lt l l2)) ∧
  (∀ b, bytes_at (write_bytes b s m) s b ∧
     ∀ i, ¬ (s ≤ i < s + Z.of_nat (length b)) → write_bytes b s m !! i = m !! i).
Proof.
  intros Hn Hl Hm. assert (length l = Z.to_nat n) as Hlen by lia. split_and!.
  - intros Ha. by apply memcpy_ok.
  - rewrite Hlen. apply memset_ok; [lia|done].
  - rewrite bzero_memset, memset_ok by (lia || done). by rewrite Hlen.
  - intros H2 Hlen2. apply memcmp_ok; [lia|done..].
  - intros b. split; [apply write_bytes_at|]. intros i Hi. by apply write_bytes_out.
Qed.

(** strchr and strrchr return the address of the first and of the last
    occurrence of a character, the final null included, or a null pointer;
    strlen the number of characters before the null; strstr the address of the
    first occurrence of a string that is not empty, or a null pointer, but an
    empty string is never found. *)
Theorem string_search m a b s t c :
  cstring m a s → cstring m b t → Z.of_nat (length s) ≤ INT_MAX →
  strchr m a c = Some (at_pos a (first_pos (u8 c) (s ++ [0]))) ∧
  strrchr m a c = Some (at_pos a (last_pos (u8 c) (s ++ [0]))) ∧
  strlen m a = Some (Z.of_nat (length s)) ∧
  strstr m a b = Some (match t with [] => 0 | _ => at_pos a (find_sub t s) end).
Proof.
  intros Hs Ht Hl. split_and!; [by apply strchr_ok|by apply strrchr_ok|by apply strlen_ok|].
  destruct t as [|x t]; [|by apply strstr_ok].
  apply (strstr_empty_loop s); [done|done|]. by eapply cstring_fuel.
Qed.

(** Atoi (and atol) of blanks, an optional sign and decimal digits, up to
    the first other character, is the signed value of the digits, whenever that
    is an int. *)
Theorem atoi_value m p bs sg f ds z :
  bytes_at m p (bs ++ sg ++ ds ++ [z]) → blanks bs → sign sg f → ds ≠ [] → digits ds →
  is_digit z = false → dec_value 0 ds ≤ INT_MAX →
  atoi m p = Some (if f then - dec_value 0 ds else dec_value 0 ds).
Proof. apply atoi_ok. Qed.

(** Getdev does not find devices by name: it returns the first device
    whose name differs from the one asked for (in the first DEVNAMLEN
    characters), and SYSERR when all devices have that name. *)
Theorem getdev_first_different (names : list (list Z)) m devname dvname s :
  cstring m devname s → chars s → Z.of_nat (length names) = NDEVS →
  (∀ i t, names !! i = Some t → cstring m (dvname (Z.of_nat i)) t ∧ chars t) →
  getdev m devname dvname =
    Some (match list_find (λ t, take 16 t ≠ take 16 s) names with
          | Some (i, _) => Z.of_nat i | None => SYSERR end).
Proof.
  intros Hs Cs Hlen Hn. unfold getdev. replace (Z.to_nat NDEVS) with (length names) by lia.
  rewrite (getdev_loop_spec names 0 m devname dvname s Hs Cs Hn).
  by destruct (list_find _ names) as [[i t]|].
Qed.

(** C38: Qsort sorts in place: with any comparison function that is a preorder
    on the elements, the array holds a permutation of its elements in ascending
    order afterwards, and no other memory changes.  At no time more than
    [depth] calls of qs1 are active, for any [depth] with fewer than 2^depth
    elements: the recursive call always has the smaller part. *)
Theorem qsort_sorts es fc c `{!Comparison es fc c} depth a n m xs :
  0 < Z.of_nat es → n = Z.of_nat (length xs) → Z.of_nat es * n < 2 ^ 31 → Z.of_nat es < 2 ^ 31 →
  elems es xs → bytes_at m a (concat xs) → (0 < depth)%nat → (length xs < 2 ^ depth)%nat →
  ∃ ys m', qsort fc (Z.of_nat es) depth a n m = Some m' ∧
    ys ≡ₚ xs ∧ StronglySorted (λ x y, c x y ≤ 0) ys ∧
    bytes_at m' a (concat ys) ∧
    ∀ i, ¬ (a ≤ i < a + Z.of_nat es * n) → m' !! i = m !! i.
Proof.
  intros H0 Hn Hf Hw He Hb Hd HK.
  destruct (qsort_ok es fc c ltac:(lia) Hw depth a n m xs He Hn Hb Hf Hd HK) as (ys & E & HP & HS).
  exists ys, (write_bytes (concat ys) a m). split_and!; [done..|apply write_bytes_at|].
  intros i Hi. apply write_bytes_out. rewrite (length_elems es) by (lia || by rewrite HP).
  rewrite HP. lia.
Qed.

(** C39: Sprintf against a description of formats: a format is a list of pieces (a
    character, "%%", or a directive with its flags, width, maximum and
    conversion); sprintf with the format they spell and their arguments
    writes the text they stand for ([piece_text]: numerals without leading zeros,
    signs, fill characters) and a null character behind it, and nothing else. *)
Theorem sprintf_text m str fmt ps :
  let room := Z.of_nat (length (text ps)) + 1 in
  mapped m str room → Forall (piece_ok m str room) ps →
  bytes_at m fmt (format ps ++ [0]) → apart fmt (Z.of_nat (length (format ps)) + 1) str room →
  ∃ m', sprintf m str fmt (arguments ps) = Some (str, m') ∧ bytes_at m' str (text ps ++ [0]) ∧
    ∀ i, ¬ (str ≤ i < str + room) → m' !! i = m !! i.
Proof.
  intros room Hm Hok Hb Ha. eexists. split; [by apply sprintf_ok|].
  split; [apply write_bytes_at|]. intros i Hi. apply write_bytes_out.
  rewrite length_app. cbn. lia.
Qed.

(** C40: What sprintf prints with %d, atoi reads: for every int but the smallest one,
    every width, and with or without zeros in front. *)
Theorem sprintf_atoi m str fmt n zero width :
  let pc := PConv false zero width None (CDec n) in
  let room := Z.of_nat (length (piece_text pc)) + 1 in
  INT_MIN < n ≤ INT_MAX → digits width → dec_value 0 width ≤ INT_MAX →
  (zero = false → ∀ ds, width ≠ 48 :: ds) →
  mapped m str room → bytes_at m fmt (render pc ++ [0]) →
  apart fmt (Z.of_nat (length (render pc)) + 1) str room →
  ∃ m', sprintf m str fmt [n] = Some (str, m') ∧ atoi m' str = Some n.
Proof.
  intros pc room Hn Hw Hwm Hz Hm Hb Ha.
  assert (text [pc] = piece_text pc) as Ht by apply app_nil_r.
  assert (format [pc] = render pc) as Hf by apply app_nil_r.
  eexists. split.
  - apply (sprintf_ok m str fmt [pc]); rewrite ?Ht, ?Hf; try done.
    constructor; [|constructor]. split_and!; try done. cbn. unfold INT_MIN, INT_MAX in Hn. lia.
  - rewrite Ht. apply (dec_field_atoi _ _ n zero width); [done|]. apply write_bytes_at.
Qed.

(** The smallest int is not printed as a number. *)
Lemma sprintf_int_min :
  let m := write_bytes [37; 100; 0] 100 (write_bytes (replicate 20 0) 16 ∅) in
  ∃ m', sprintf m 16 100 [INT_MIN] = Some (16, m') ∧
    bytes_at m' 16 [45; 46; 47; 44; 41; 44; 40; 45; 42; 44; 40; 0].
Proof. eexists. split; [vm_compute; reflexivity|by vm_compute]. Qed.

(** Twenty binary digits do not fit in the array of the conversion. *)
Lemma sprintf_binary_overflow m str fmt n :
  bytes_at m fmt [37; 98; 0] → 2 ^ 19 ≤ n < 2 ^ 31 → sprintf m str fmt [n] = None.
Proof. apply fdoprnt_bin_fault. Qed.

(** ** Witnesses *)

(** Bytes at address [a]. *)
Definition at_addr (a : Z) (l : list Z) : bmem := write_bytes l a ∅.

(** "abc" at 16, "abd" at 24. *)
Definition demo_mem : bmem := write_bytes [97; 98; 100; 0] 24 (at_addr 16 [97; 98; 99; 0; 0; 0; 0; 0]).
Lemma demo_abc : cstring demo_mem 16 [97; 98; 99].
Proof. by vm_compute. Qed.
Lemma demo_abd : cstring demo_mem 24 [97; 98; 100].
Proof. by vm_compute. Qed.
Lemma demo_chars : chars [97; 98; 99] ∧ chars [97; 98; 100].
Proof. split; repeat constructor. Qed.
Lemma demo_mapped : mapped demo_mem 19 3.
Proof. intros i Hi. assert (i = 19 ∨ i = 20 ∨ i = 21) as [->|[->| ->]] by lia; by eexists. Qed.

Lemma strcmp_lexicographic_witness : ∃ r, strcmp demo_mem 16 24 = Some r ∧ r = -1.
Proof.
  destruct (strcmp_lexicographic demo_mem 16 24 [97; 98; 99] [97; 98; 100] 2 demo_abc demo_abd
    (proj1 demo_chars) (proj2 demo_chars)) as [(r & Hr & [[-> Heq]|[[-> _]|[-> Hlt]]]) _].
  - discriminate Heq.
  - exists (-1). split; [exact Hr|reflexivity].
  - exfalso. cbn in Hlt. lia.
Defined.

(** "abc" followed by the first two characters of "abd". *)
Lemma strncpy_strncat_witness :
  ∃ m', strncat demo_mem 16 24 2 = Some (16, m') ∧ cstring m' 16 [97; 98; 99; 97; 98].
Proof.
  destruct (strncpy_strncat demo_mem 16 24 [97; 98; 99] [97; 98; 100] 2 ltac:(done) demo_abd) as [_ H].
  destruct (H demo_abc demo_mapped) as (m' & Hrun & Hs & _).
  - unfold apart. cbn. lia.
  - exists m'. split; [exact Hrun|exact Hs].
Defined.

Lemma memory_blocks_witness :
  memcpy demo_mem 19 24 3 = Some (19, write_bytes [97; 98; 100] 19 demo_mem).
Proof.
  apply (memory_blocks demo_mem 19 24 [97; 98; 100] [] 0 3); [done| |exact demo_mapped|].
  - by vm_compute.
  - unfold apart. lia.
Defined.

Lemma string_search_witness : strchr demo_mem 16 98 = Some 17 ∧ strstr demo_mem 16 24 = Some 0.
Proof.
  destruct (string_search demo_mem 16 24 [97; 98; 99] _ 98 demo_abc demo_abd ltac:(done)) as (H1 & _ & _ & H2).
  split; [exact H1|exact H2].
Defined.

(** " -42" *)
Lemma atoi_value_witness : atoi (at_addr 8 [32; 45; 52; 50; 0]) 8 = Some (-42).
Proof.
  apply (atoi_value _ 8 [32] [45] true [52; 50] 0); [by vm_compute| | |done| |done|done].
  - repeat constructor.
  - constructor.
  - repeat constructor; lia.
Defined.

(** Thirty devices named "a"; asked for "b", getdev returns device 0. *)
Lemma getdev_first_different_witness :
  getdev (write_bytes [98; 0] 16 (at_addr 8 [97; 0])) 16 (λ _, 8) = Some 0.
Proof.
  apply (getdev_first_different (replicate 30 [97]) _ 16 (λ _, 8) [98]).
  - by vm_compute.
  - repeat constructor.
  - reflexivity.
  - intros i t [-> _]%lookup_replicate. split; [by vm_compute|repeat constructor].
Defined.

(** Elements of two bytes, compared by the first one. *)
Definition key_cmp (m : bmem) (i j : Z) : option Z := x ← m !! i; y ← m !! j; Some (x - y).
Definition key_order (x y : list Z) : Z := default 0 (head x) - default 0 (head y).
#[export] Instance key_comparison : Comparison 2 key_cmp key_order.
Proof.
  split.
  - intros m i j [|x [|? ?]] [|y [|? ?]] Hx Hy [=] [=]. unfold key_cmp.
    by rewrite (proj1 Hx), (proj1 Hy).
  - unfold key_order. lia.
  - unfold key_order. lia.
Qed.

Definition demo_elems : list (list Z) := [[3; 1]; [1; 2]; [2; 3]; [1; 9]; [5; 0]].

Lemma qsort_sorts_witness :
  ∃ ys m', qsort key_cmp 2 3 100 5 (at_addr 100 (concat demo_elems)) = Some m' ∧ ys ≡ₚ demo_elems ∧
    StronglySorted (λ x y, key_order x y ≤ 0) ys ∧ bytes_at m' 100 (concat ys).
Proof.
  destruct (qsort_sorts 2 key_cmp key_order 3 100 5 (at_addr 100 (concat demo_elems)) demo_elems)
    as (ys & m' & E & HP & HS & Hb & _); try done; try (cbn; lia).
  - repeat constructor.
  - exists ys, m'. split; [exact E|]. split; [exact HP|]. split; [exact HS|exact Hb].
Defined.

(** "%-4d|%05x %s" with -42, 3054 and a string "ok" at 200. *)
Definition demo_pieces : list piece :=
  [PConv true false [52] None (CDec (-42)); PLit 124; PConv false true [53] None (CHex false 3054);
   PLit 32; PConv false false [] None (CStr 200 [111; 107])].
Definition demo_fmt_mem : bmem :=
  write_bytes [111; 107; 0] 200 (write_bytes (format demo_pieces ++ [0]) 100 (at_addr 8 (replicate 20 0))).

Lemma demo_pieces_ok : Forall (piece_ok demo_fmt_mem 8 14) demo_pieces.
Proof.
  assert (∀ d, 48 ≤ d ≤ 57 → digits [d]) as Hd by (intros; constructor; [done|constructor]).
  unfold demo_pieces. repeat (apply Forall_cons; split); [..|constructor]; cbn [piece_ok conv_ok].
  - split_and!; [by apply Hd|done|by intros _ ds [=]|by intros ds [=]|done|done].
  - done.
  - split_and!; [by apply Hd|done|done|by intros ds [=]|done|done].
  - done.
  - split_and!; [constructor|done|by intros _ ds [=]|by intros ds [=]|]. intros _. split_and!.
    + by vm_compute.
    + by repeat constructor.
    + unfold apart. cbn. lia.
Qed.

Lemma sprintf_text_witness :
  ∃ m', sprintf demo_fmt_mem 8 100 [-42; 3054; 200] = Some (8, m') ∧
    bytes_at m' 8 [45; 52; 50; 32; 124; 48; 48; 98; 101; 101; 32; 111; 107; 0].
Proof.
  destruct (sprintf_text demo_fmt_mem 8 100 demo_pieces) as (m' & E & Hb & _).
  - apply mapped_check. vm_compute. reflexivity.
  - exact demo_pieces_ok.
  - by vm_compute.
  - vm_compute. right. discriminate.
  - exists m'. split; [exact E|exact Hb].
Defined.

(** "%04d" with -42. *)
Lemma sprintf_atoi_witness :
  ∃ m', sprintf (write_bytes [37; 48; 52; 100; 0] 100 (at_addr 8 (replicate 20 0))) 8 100 [-42] = Some (8, m') ∧
    atoi m' 8 = Some (-42).
Proof.
  apply (sprintf_atoi _ 8 100 (-42) true [52]); try done.
  - repeat constructor; lia.
  - apply mapped_check. vm_compute. reflexivity.
  - vm_compute. right. discriminate.
Defined.
