(* ===== verification/ShellThms.v ===== *)
(** The shell: the lexical analyser finds the tokens of a command line. *)

From S2P Require Import Prelude Types CString Shell ShellLex.

(** C28: Lexan finds the tokens of a command line. The grammar [lexes] says which
    tokens a line has: operators, quoted strings, and words that end at a blank,
    an ampersand or the end of the line; a line has at most one list of tokens.
    Lexan always returns.  When the line has tokens, fewer than 32, it returns
    their number, with each token's characters and a null at the index [tok] of
    the token buffer, its type in [toktyp], and the length of all; when the line
    has no tokens by the grammar, or more than 32, the result is an error.  For a
    line that fits in the shell's buffer, nothing is stored outside the token
    buffer's SHELL_BUFLEN + SHELL_MAXTOK bytes. *)
Theorem lexan_tokens s line len cs z tokbuf :
  let room := SHELL_BUFLEN + SHELL_MAXTOK in
  bytes_at (lmem s) line (cs ++ [z]) → line_chars cs → is_end z = true →
  Z.of_nat (length cs) ≤ SHELL_BUFLEN → is_tab (ltok s) → is_tab (ltoktyp s) →
  mapped (lmem s) tokbuf room → apart line (Z.of_nat (length cs) + 1) tokbuf room →
  (∀ toks toks', lexes cs toks → lexes cs toks' → toks = toks') ∧
  ∃ n s', lexan line len tokbuf s = Some (n, s') ∧
    (∀ i, ¬ (tokbuf ≤ i < tokbuf + room) → lmem s' !! i = lmem s !! i) ∧
    (n = SYSERR → ∀ toks, lexes cs toks → SHELL_MAXTOK ≤ Z.of_nat (length toks)) ∧
    (n ≠ SYSERR → ∃ toks, lexes cs toks ∧ n = Z.of_nat (length toks) ∧ n ≤ SHELL_MAXTOK ∧
       ltlen s' = Z.of_nat (length (tokdata toks)) ∧
       ∀ i t, toks !! i = Some t → ∃ k,
         ltok s' !! Z.of_nat i = Some k ∧ ltoktyp s' !! Z.of_nat i = Some t.1 ∧
         bytes_at (lmem s') (tokbuf + k) (t.2 ++ [0])).
Proof.
  intros room Hm Hcs Hz Hlen H1 H2 Hroom Ha. split; [apply lexes_unique|].
  destruct (lexan_ok s line len cs z tokbuf room Hm Hcs Hz H1 H2 ltac:(lia) Hroom Ha)
    as [(toks & s' & Hl & Hn & Hr & Hi & Ht)|(s' & l & Hr & Hs & Hlr & Hno)].
  - cbn [app] in *. exists (Z.of_nat (length toks)), s'. pose proof Hi as (Hs & _ & _ & Htok).
    split_and!; [done| |unfold SYSERR; lia|intros _; exists toks; split_and!; try done].
    + intros i Hi'. rewrite Hs. apply write_bytes_out. pose proof (lexes_length _ _ Hl). lia.
    + intros i t Hit. destruct (Htok i t Hit) as [E1 E2]. eexists. split_and!; [exact E1|exact E2|].
      rewrite Hs. unfold tbmem. rewrite (tokdata_split toks i t Hit). apply bytes_at_mid.
  - exists SYSERR, s'. split_and!; [done| |by intros _ toks Hl; apply Hno|done].
    intros i Hi'. rewrite Hs. apply write_bytes_out. lia.
Qed.

(** Blanks are not skipped before the number of tokens is tested: a blank behind
    the 32nd token is an error. *)
Definition tabs32 : gmap Z Z := list_to_map ((λ i, (i, 0)) <$> seqZ 0 32).
Definition lex_demo (cs : list Z) : lexst :=
  Lexst (write_bytes (cs ++ [10]) 300 (write_bytes (replicate 161 0) 100 ∅)) tabs32 tabs32 0.

Lemma lexan_blank_at_limit :
  let cs := replicate 32 SH_AMPER in
  (lexan 300 33 100 (lex_demo cs) ≫= λ r, Some r.1) = Some 32 ∧
  (lexan 300 34 100 (lex_demo (cs ++ [SH_BLANK])) ≫= λ r, Some r.1) = Some SYSERR.
Proof. vm_compute. done. Qed.

(** cat 'a b' > x *)
Definition demo_line : list Z := [99; 97; 116; 32; 39; 97; 32; 98; 39; 32; 62; 32; 120].

Lemma demo_tabs : is_tab tabs32.
Proof.
  intros i Hi. by apply (mapped_check tabs32 0 32); [vm_compute|].
Qed.

Lemma demo_lexes :
  lexes demo_line [(SH_TOK_OTHER, [99; 97; 116]); (SH_TOK_OTHER, [97; 32; 98]); (SH_TOK_GREATER, [62]);
    (SH_TOK_OTHER, [120])].
Proof.
  apply (lexes_word [] 99 [97; 116] [32; 39; 97; 32; 98; 39; 32; 62; 32; 120]);
    [constructor|by repeat constructor|by intros ? ? [= <- _]; left|].
  apply (lexes_quoted [32] 39 [97; 32; 98] [32; 62; 32; 120]); [by repeat constructor; left|done| |].
  { by apply (bool_decide_unpack _); vm_compute. }
  apply (lexes_op [32] 62 SH_TOK_GREATER [32; 120]); [by repeat constructor; left|done|].
  apply (lexes_word [32] 120 [] []); [by repeat constructor; left|by repeat constructor|by intros ? ?|].
  apply (lexes_end []). constructor.
Qed.

Lemma lexan_tokens_witness :
  ∃ s', lexan 300 13 100 (lex_demo demo_line) = Some (4, s') ∧
    ∃ k, ltok s' !! 1 = Some k ∧ bytes_at (lmem s') (100 + k) [97; 32; 98; 0].
Proof.
  destruct (lexan_tokens (lex_demo demo_line) 300 13 demo_line 10 100) as (Hu & n & s' & E & _ & He & Ht).
  - by vm_compute.
  - by repeat constructor.
  - reflexivity.
  - discriminate.
  - exact demo_tabs.
  - exact demo_tabs.
  - apply mapped_check. vm_compute. reflexivity.
  - right. discriminate.
  - assert (n ≠ SYSERR) as Hn.
    { intros ->. specialize (He eq_refl _ demo_lexes). vm_compute in He. by apply He. }
    destruct (Ht Hn) as (toks & Hl & -> & _ & _ & Htok). rewrite (Hu _ _ Hl demo_lexes) in *.
    exists s'. split; [exact E|]. destruct (Htok 1%nat (SH_TOK_OTHER, [97; 32; 98]) eq_refl) as (k & Hk & _ & Hb).
    exists k. split; [exact Hk|exact Hb].
Defined.
