(* ===== verification/TtyThms.v ===== *)
(** The tty driver: its theorems, and their instances at concrete states. *)

From S2P Require Import Prelude Types Heap ByteMem DevTypes Kernel KInv Sched Semaphore Process UserMem.
From S2P Require Import Tty Ring TtyIn TtyOut TtyUp.
From S2P Require Import Demo.

(** C21: the receive interrupt implements line editing.  All characters that have
    arrived are handled, in order: in cooked mode ordinary characters are added
    to the line being typed, erase and kill characters remove its last character
    and all of it, an end of line makes the whole line available to readers, in
    raw and cbreak mode every character is available at once; the semaphore
    counts exactly the characters that have become available, and control
    characters of the flow control are not part of the input.  Two conditions on the
    characters: the input buffer has room for all of them beside what it holds (the
    line being typed counts), and either none of them is the end-of-file character or
    they do not reach the last place of the circular buffer, where C24 shows that the
    driver stores such a character without wrapping ([eof_clear]). *)
Theorem tty_line_editing Q s t e st rx iir lsr :
  handling Q s → ndefers (Defer s) + 1 < INT_MAX →
  ttytab (dev s) !! 0 = Some t → tty_in t st →
  semtab s !! tyisem t = Some e → sstate e = S_USED → scount e ≤ Z.of_nat (length st.1) →
  u_rx (uart (dev s)) = rx → Forall (λ ch, 0 ≤ ch < 256) rx →
  Z.of_nat (length (st.1 ++ st.2)) + Z.of_nat (length rx) < TY_IBUFLEN → eof_clear t st rx →
  Z.land iir UART_IIR_IRQ = 0 → Z.land iir UART_IIR_IDMASK = UART_IIR_RDA →
  let st' := foldl (typed (tyimode t) (tyopts t)) st rx in
  ∃ s' Q' t', ttyhandler iir lsr s = Done tt s' ∧ handling Q' s' ∧
    ttytab (dev s') !! 0 = Some t' ∧ tty_in t' st' ∧ same_line t t' ∧
    semtab s' = <[tyisem t := set_scount
      (scount e + Z.of_nat (length st'.1) - Z.of_nat (length st.1)) e]> (semtab s) ∧
    u_rx (uart (dev s')) = [] ∧ currpid s' = currpid s.
Proof.
  intros HQ Hd Ht Hin He Hu Hcnt Hrx Hch Hroom Heof Hirq Hrda st'.
  pose proof HQ as (_ & _ & _ & Hd0). unfold INT_MAX in *.
  unfold ttyhandler. rewrite Hirq, Hrda, neq_refl_false.
  rewrite (bool_decide_eq_false_2 (UART_IIR_RDA = UART_IIR_RLSI)) by done.
  rewrite (bool_decide_eq_true_2 (UART_IIR_RDA = UART_IIR_RDA)) by done. cbn [orb]. kred.
  unfold resched_cntl at 1. rewrite bool_decide_eq_true_2 by done. kred.
  rewrite (bool_decide_eq_false_2 (ndefers (Defer s) = 0)), s32_id by lia.
  set (s1 := set_Defer _ s).
  assert (handling Q s1) as HQ1.
  { apply handling_defer; [done|]. cbn. unfold INT_MAX. lia. }
  destruct (rx_loop_spec 0 rx Q s1 t e st) as (s2 & E2 & Hn2 & Hok); [done..|].
  rewrite Hrx, E2. kred. destruct Hok as [(Q2 & HQ2) (t2 & Ht2 & Hin2 & Hsl2) Hs2 _ Hc2 Hd2 Hi2].
  cbn in Hd2, Hs2, Hc2. unfold resched_cntl. rewrite bool_decide_eq_false_2 by done.
  rewrite bool_decide_eq_true_2 by done. kred. rewrite Hd2, bool_decide_eq_false_2 by lia. kred.
  rewrite (bool_decide_eq_false_2 (_ - 1 = 0)) by lia. cbn [andb]. kred.
  eexists _, Q2, t2. split; [done|]. split_and!; try done.
  apply handling_defer; [done|]. cbn. unfold INT_MAX. lia.
Qed.

(** C22: ttyread in cooked mode returns one line, or as many of its characters as
    the caller asks for, copies them into the caller's buffer and takes them out
    of the input buffer; no other memory changes. *)
Theorem ttyread_line Q s t e l a c w d cur count :
  InvQ Q s → heap_ok (hp s) l → ttytab (dev s) !! 0 = Some t → tyimode t = TY_IMCOOKED →
  let line := take (Z.to_nat count) (c :: w) in
  tty_in t (line ++ d, cur) → semtab s !! tyisem t = Some e → sstate e = S_USED →
  Z.of_nat (length line) ≤ scount e → line_end c w →
  (∀ x, x ∈ line → eof_read t x = false ∧ 0 ≤ x < 256) →
  0 < count → user_buf (hp s) l a (Z.of_nat (length line)) → 0 ≤ a →
  a + Z.of_nat (length line) < 4294967296 →
  ∃ s' t', ttyread 0 a count s = Done (Z.of_nat (length line)) s' ∧ InvQ Q s' ∧ heap_ok (hp s') l ∧
    bytes_in (hp s') a line ∧
    (∀ i, ¬ a ≤ i < a + Z.of_nat (length line) → ldb i (hp s') = ldb i (hp s)) ∧
    ttytab (dev s') !! 0 = Some t' ∧ tty_in t' (d, cur) ∧
    semtab s' = <[tyisem t := set_scount (scount e - Z.of_nat (length line)) e]> (semtab s).
Proof.
  intros HQ Hok Ht Hm line Hin He Hu Hc Hend Hw Hcount Hbuf Ha0 Ha.
  destruct (ttyread_spec Q 0 s t e l a c w d cur count) as (s' & E & [HQ' Hok' (t' & Ht' & Hin' & _) Hs' Hby Hfr _ _]);
    [done..|].
  by exists s', t'.
Qed.

(** Ttywrite to an output buffer with room appends the characters, each
    newline as a return and a newline (unless that is turned off), in order, and
    enables the transmitter's interrupt; the semaphore counts the places left. *)
Theorem ttywrite_crlf Q s t e q a w :
  InvQ Q s → out_ok 0 s t e q → bytes_in (hp s) a w → 0 ≤ a → a + Z.of_nat (length w) < 4294967296 →
  let q' := q ++ concat (crlf (tyopts t) <$> w) in
  Z.of_nat (length q') ≤ TY_OBUFLEN → w ≠ [] →
  ∃ s' r, ttywrite 0 a (Z.of_nat (length w)) s = Done OK s' ∧ InvQ Q s' ∧
    out_ok 0 s' (set_tyo r t) (set_scount (TY_OBUFLEN - Z.of_nat (length q')) e) q' ∧
    u_ier (uart (dev s')) = Z.lor UART_IER_ERBFI UART_IER_ETBEI ∧
    u_tx (uart (dev s')) = u_tx (uart (dev s)) ∧ hp s' = hp s.
Proof.
  intros HQ Ho Hb Ha0 Ha q' Hn Hne. destruct (write_chars_spec 0 w Q s t e q a) as (s' & E & r & HQ' & [Hh _ _] & Ho' & _ & Hi & Hx);
    [done..|].
  exists s', r. split; [|done]. unfold ttywrite.
  rewrite bool_decide_eq_false_2 by lia. rewrite bool_decide_eq_false_2 by (destruct w; [done|cbn; lia]).
  kred. rewrite Nat2Z.id, E. by kred.
Qed.

(** C23: the transmit interrupt sends as many characters as the transmit FIFO has
    room for: those of the echo buffer first, then those of the output buffer,
    each in the order in which they were put in; what does not fit stays where
    it is; the semaphore counts the places that became free; and when nothing is
    left the interrupt is turned off.  The output is not held by flow control
    ([tyoheld] is false; while it is held the code sends nothing). *)
Theorem tty_output_order Q s t e el q iir lsr :
  handling Q s → ttytab (dev s) !! 0 = Some t → tyoheld t = false → tty_out t el q →
  osem_ok s t e q → 0 ≤ txfifo_lvl (uart (dev s)) ≤ UART_FIFO_SIZE →
  Z.land iir UART_IIR_IRQ = 0 → Z.land iir UART_IIR_IDMASK = UART_IIR_THRE →
  let n := Z.to_nat (UART_FIFO_SIZE - txfifo_lvl (uart (dev s))) in
  let el' := drop n el in
  let q' := drop (n - length el) q in
  ∃ s' Q' t', ttyhandler iir lsr s = Done tt s' ∧ handling Q' s' ∧
    ttytab (dev s') !! 0 = Some t' ∧ tty_out t' el' q' ∧
    u_tx (uart (dev s')) = u_tx (uart (dev s)) ++ take n (el ++ q) ∧
    semtab s' = <[tyosem t := set_scount (TY_OBUFLEN - Z.of_nat (length q')) e]> (semtab s) ∧
    u_ier (uart (dev s')) =
      (if out_done el' q' then ier_off (u_ier (uart (dev s))) else u_ier (uart (dev s))).
Proof.
  intros HQ Ht Hheld Hto Hos Hlvl Hirq Hthre n el' q'.
  unfold ttyhandler. rewrite Hirq, Hthre, neq_refl_false.
  rewrite (bool_decide_eq_false_2 (UART_IIR_THRE = UART_IIR_RLSI)) by done.
  rewrite (bool_decide_eq_false_2 (UART_IIR_THRE = UART_IIR_RDA)) by done.
  rewrite (bool_decide_eq_false_2 (UART_IIR_THRE = UART_IIR_RTO)) by done. cbn [orb].
  rewrite bool_decide_eq_true_2 by done.
  destruct (handle_out_spec Q 0 s t e el q HQ Ht Hheld Hto Hos Hlvl) as
    (s' & E & [(Q' & HQ') (t' & Ht' & Hto' & _) Hs' Hx' Hi' _]).
  by exists s', Q', t'.
Qed.

(** C24: the driver can write past its input buffer.  An end-of-file character
    at the start of a line is stored without wrapping the tail pointer: on the
    last place of the buffer it leaves the pointer behind the buffer's end, and
    the next ordinary character is stored there. *)
Theorem tty_eof_overflow Q m s t e d ch r :
  tty_ready Q m s t e (d, []) → tyimode t = TY_IMCOOKED → tyopts t = init_opts →
  Z.of_nat (length d) < TY_IBUFLEN - 2 →
  rtail (tyi t) = TY_IBUFLEN - 1 → u_rx (uart (dev s)) = TY_EOFCH :: ch :: r → 32 ≤ ch < 127 →
  ∃ s1 t1, ttyhandle_in m s = Done tt s1 ∧ ttytab (dev s1) !! m = Some t1 ∧
    rtail (tyi t1) = Z.of_nat (length (rbuff (tyi t1))) ∧
    u_rx (uart (dev s1)) = ch :: r ∧ ttyhandle_in m s1 = Fault.
Proof.
  intros Hr Hm Hopts Hd Htail Hrx Hch.
  destruct (eof_past_end Q m s t e d (ch :: r) Hr Hm Hopts Htail Hrx) as
    (s1 & t1 & Q1 & e1 & E1 & HQ1 & Ht1 & Hopt1 & Hm1 & He1 & Hu1 & Hcnt1 & Hcur1 & Hech1 & Hrt1 & Hlen1 & Hrx1).
  exists s1, t1. split_and!; [done..|by rewrite Hrt1, Hlen1|done|].
  eapply (next_faults Q1 m s1 t1 e1 ch r); try done.
  - lia.
  - split; [lia|]. rewrite !not_elem_of_cons. split_and!; try lia. apply not_elem_of_nil.
  - unfold TY_EOFCH. lia.
Qed.

(** ** Instances

    The null process runs, semaphore 0 is the input and semaphore 1 the output
    semaphore of the console, and all memory is in use. *)

Definition demo_ring (n : nat) (l : list Z) : tyring :=
  Ring 0 (Z.of_nat (length l)) (l ++ replicate (n - length l) 0).

Lemma demo_ring_view n l : (length l < n)%nat → ring_view (Z.of_nat n) (demo_ring n l) l.
Proof.
  intros Hl. split; cbn.
  - rewrite length_app, length_replicate. lia.
  - lia.
  - lia.
  - rewrite Z.mod_small; lia.
  - intros i c Hi. pose proof (lookup_lt_Some _ _ _ Hi). rewrite Z.mod_small by lia.
    replace (Z.to_nat _) with i by lia. by apply lookup_app_l_Some.
Qed.

Definition demo_tty (d cur el q : list Z) : ttycblk :=
  Ttycblk (demo_ring 128 (d ++ cur)) 0 (demo_ring 64 q) 1 (demo_ring 20 el) TY_IMCOOKED true
    (Z.of_nat (length cur)) false init_opts.

Definition used_heap : heap :=
  Heap (<[4096 := 97 + 10 * 256]> (ram 4096 8192)) (Memblk 0 0) 4096 12288.

Lemma used_heap_ok : heap_ok used_heap [].
Proof.
  split; cbn [mem used_heap memlist minheap maxheap mnext mlength].
  - intros a. rewrite lookup_insert_is_Some', ram_some by (Z.to_euclidean_division_equations; lia).
    split; [intros [?|?]|intros ?; by right]; [|done]. Z.to_euclidean_division_equations; lia.
  - split; [lia|exact eq_refl].
  - split_and!; [lia|lia|exact eq_refl].
  - exact eq_refl.
  - constructor.
  - cbn. lia.
  - exact eq_refl.
Qed.

(** The word at 4096 holds the bytes of [a] and a newline, and two zero bytes. *)
Lemma used_heap_word i : 0 ≤ i < 4 → ldb (4096 + i) used_heap = Some (byte_of i (97 + 10 * 256)).
Proof.
  intros Hi. unfold ldb, ld.
  assert ((4096 + i) mod 4 = i) as -> by (Z.to_euclidean_division_equations; lia).
  replace (4096 + i - i) with 4096 by lia. cbn [mem used_heap]. by rewrite lookup_insert_eq.
Qed.

Definition tty_world (c0 c1 : Z) (t : ttycblk) (rx tx : list Z) : kst :=
  set_dev (Devstate {[0 := t]} (Uart rx tx 3 62) ∅ (Lf_data demo_dev) ∅ (net demo_dev))
    (set_semtab (<[1 := Sentry S_USED c1 (SEMQ 1)]> (<[0 := Sentry S_USED c0 (SEMQ 0)]> (semtab demo_null)))
      (set_hp used_heap demo_null)).

Lemma tty_world_inv c0 c1 t rx tx :
  0 ≤ c0 ≤ INT_MAX → 0 ≤ c1 ≤ INT_MAX → ∃ Q, InvQ Q (tty_world c0 c1 t rx tx).
Proof.
  intros H0 H1. destruct demo_null_inv as [Q HQ]. exists Q. apply InvQ_dev.
  assert (InvQ Q (set_hp used_heap demo_null)) as HQ1.
  { destruct (proj2_sig demo_heap_sig) as (_ & Hmin & Hmax). fold demo_heap in Hmin, Hmax.
    apply InvQ_hp; [exact HQ|by exists []; apply used_heap_ok|by symmetry|by symmetry]. }
  pose proof (InvQ_new_sem Q _ 0 _ c0 HQ1 (demo_null_sem 0 ltac:(calc)) eq_refl H0) as HQ2.
  apply (InvQ_new_sem Q _ 1 (Sentry S_FREE 0 (SEMQ 1)) c1 HQ2); [|done|done].
  cbn [semtab set_semtab set_hp]. rewrite lookup_insert_ne by done. by apply demo_null_sem.
Qed.

Lemma tty_world_sems c0 c1 t rx tx :
  semtab (tty_world c0 c1 t rx tx) !! 0 = Some (Sentry S_USED c0 (SEMQ 0)) ∧
  semtab (tty_world c0 c1 t rx tx) !! 1 = Some (Sentry S_USED c1 (SEMQ 1)).
Proof.
  cbn [semtab tty_world set_dev set_semtab].
  split; [rewrite lookup_insert_ne by done|]; apply lookup_insert_eq.
Qed.

Lemma handling_of Q s : InvQ Q s → handling Q (set_Defer (Defer_ 1 false) s).
Proof.
  intros (Hc & Hsc & Hr & Hd). split_and!; [|exact Hsc|exact Hr|done|done].
  eapply core_proper; [|exact Hc]. by split.
Qed.

Lemma demo_tty_in d cur el q :
  (length (d ++ cur) < 128)%nat → (length el < 20)%nat → tty_in (demo_tty d cur el q) (d, cur).
Proof.
  intros H1 H2. split; cbn [demo_tty tyi tyicursor tye tyimode fst snd]; try done.
  - by apply (demo_ring_view 128).
  - unfold echo_ok, demo_ring, TY_EBUFLEN. cbn. rewrite length_app, length_replicate. lia.
Qed.

(** The parts of the state that the theorems ask for, of any kernel state [s0]. *)
Lemma tty_at (t : ttycblk) (u : uart_csreg) s0 d :
  ttytab (dev (set_Defer d (set_dev (Devstate {[0 := t]} u ∅ (Lf_data demo_dev) ∅ (net demo_dev)) s0))) !! 0 = Some t.
Proof. apply lookup_insert_eq. Qed.

(** The line [ab], erase, [c], newline: readers get [ac] and the newline. *)
Lemma tty_line_editing_witness :
  ∃ s' t', ttyhandler 4 0 (set_Defer (Defer_ 1 false)
      (tty_world 1 64 (demo_tty [65] [] [] []) [97; 98; 8; 99; 10] [])) = Done tt s' ∧
    ttytab (dev s') !! 0 = Some t' ∧ tty_in t' ([65; 97; 99; 10], []) ∧
    semtab s' !! 0 = Some (Sentry S_USED 4 (SEMQ 0)).
Proof.
  assert (0 ≤ 1 ≤ INT_MAX ∧ 0 ≤ 64 ≤ INT_MAX) as [B1 B2] by (unfold INT_MAX; lia).
  pose proof (demo_tty_in [65] [] [] [] ltac:(cbn; lia) ltac:(cbn; lia)) as Hin.
  set (t := demo_tty [65] [] [] []) in *.
  destruct (tty_world_inv 1 64 t [97; 98; 8; 99; 10] [] B1 B2) as [Q HQ].
  pose proof (tty_world_sems 1 64 t [97; 98; 8; 99; 10] []) as [H0 _].
  destruct (tty_line_editing Q _ t (Sentry S_USED 1 (SEMQ 0)) ([65], [])
    [97; 98; 8; 99; 10] 4 0 (handling_of _ _ HQ) eq_refl (tty_at _ _ _ _) Hin H0 eq_refl
    (Z.le_refl 1) eq_refl ltac:(clear; repeat constructor; discriminate) eq_refl
    (or_intror eq_refl) eq_refl eq_refl)
    as (s' & Q' & t' & Hrun & _ & Ht' & Hin' & _ & Hs' & _).
  exists s', t'. split; [exact Hrun|]. split; [exact Ht'|]. split; [exact Hin'|].
  rewrite Hs'. apply lookup_insert_eq.
Defined.

(** A reader asks for ten characters and gets the line [a], newline. *)
Lemma ttyread_line_witness :
  ∃ s' t', ttyread 0 4096 10 (tty_world 4 64 (demo_tty [97; 10; 98; 10] [99] [] []) [] []) = Done 2 s' ∧
    bytes_in (hp s') 4096 [97; 10] ∧
    ttytab (dev s') !! 0 = Some t' ∧ tty_in t' ([98; 10], [99]) ∧
    semtab s' !! 0 = Some (Sentry S_USED 2 (SEMQ 0)).
Proof.
  assert (0 ≤ 4 ≤ INT_MAX ∧ 0 ≤ 64 ≤ INT_MAX) as [B1 B2] by (unfold INT_MAX; lia).
  pose proof (demo_tty_in [97; 10; 98; 10] [99] [] [] ltac:(cbn; lia) ltac:(cbn; lia)) as Hin.
  set (t := demo_tty [97; 10; 98; 10] [99] [] []) in *.
  destruct (tty_world_inv 4 64 t [] [] B1 B2) as [Q HQ].
  pose proof (tty_world_sems 4 64 t [] []) as [H0 _].
  assert (∀ x, x ∈ [97; 10] → eof_read t x = false ∧ 0 ≤ x < 256) as Hw.
  { clear. intros x [->| [->| []%not_elem_of_nil]%elem_of_cons]%elem_of_cons; (split; [exact eq_refl|lia]). }
  assert (user_buf used_heap [] 4096 2) as Hb.
  { clear. intros i Hi. split; [apply free_at_nil|]. cbn [minheap maxheap used_heap].
    Z.to_euclidean_division_equations; lia. }
  destruct (ttyread_line Q _ t (Sentry S_USED 4 (SEMQ 0)) [] 4096 97 [10] [98; 10] [99] 10
    HQ used_heap_ok (lookup_insert_eq _ _ _) eq_refl Hin H0 eq_refl
    ltac:(calc) ltac:(clear; cbn; unfold is_nl, TY_NEWLINE, TY_RETURN; lia) Hw
    ltac:(clear; lia) Hb ltac:(clear; lia) ltac:(calc))
    as (s' & t' & E & _ & _ & Hby & _ & Ht' & Hin' & Hs').
  exists s', t'. split; [exact E|]. split; [exact Hby|]. split; [exact Ht'|]. split; [exact Hin'|].
  rewrite Hs'. apply lookup_insert_eq.
Defined.

Lemma demo_tty_out d cur el q :
  (length el < 20)%nat → (length q < 64)%nat → tty_out (demo_tty d cur el q) el q.
Proof.
  intros H1 H2. split; cbn [demo_tty tye tyo].
  - by apply (demo_ring_view 20).
  - unfold TY_EBUFLEN. lia.
  - by apply (demo_ring_view 64).
Qed.

(** Writing [a], newline behind a [z] that waits to be sent. *)
Lemma ttywrite_crlf_witness :
  ∃ s' r, ttywrite 0 4096 2 (tty_world 0 63 (demo_tty [] [] [] [122]) [] []) = Done OK s' ∧
    out_ok 0 s' (set_tyo r (demo_tty [] [] [] [122])) (Sentry S_USED 60 (SEMQ 1)) [122; 97; 13; 10].
Proof.
  assert (0 ≤ 0 ≤ INT_MAX ∧ 0 ≤ 63 ≤ INT_MAX) as [B1 B2] by (unfold INT_MAX; lia).
  pose proof (demo_tty_out [] [] [] [122] ltac:(cbn; lia) ltac:(cbn; lia)) as [_ _ Hout].
  set (t := demo_tty [] [] [] [122]) in *.
  destruct (tty_world_inv 0 63 t [] [] B1 B2) as [Q HQ].
  pose proof (tty_world_sems 0 63 t [] []) as [_ H1].
  assert (bytes_in used_heap 4096 [97; 10]) as Hb.
  { cbn [bytes_in]. split; [exact (used_heap_word 0 ltac:(lia))|].
    split; [exact (used_heap_word 1 ltac:(lia))|exact I]. }
  destruct (ttywrite_crlf Q _ t (Sentry S_USED 63 (SEMQ 1)) [122] 4096 [97; 10]
    HQ (Out_ok _ _ _ _ _ (lookup_insert_eq _ _ _) Hout H1 eq_refl eq_refl) Hb
    ltac:(clear; lia) ltac:(calc) ltac:(calc) ltac:(discriminate))
    as (s' & r & E & _ & Ho & _).
  exists s', r. split; [exact E|exact Ho].
Defined.

(** Two places in the FIFO: the echoed character goes first. *)
Lemma tty_output_order_witness :
  ∃ s' t', ttyhandler 2 0 (set_Defer (Defer_ 1 false)
      (tty_world 0 62 (demo_tty [] [] [94] [65; 66]) [] [])) = Done tt s' ∧
    ttytab (dev s') !! 0 = Some t' ∧ tty_out t' [] [66] ∧ u_tx (uart (dev s')) = [94; 65] ∧
    semtab s' !! 1 = Some (Sentry S_USED 63 (SEMQ 1)).
Proof.
  assert (0 ≤ 0 ≤ INT_MAX ∧ 0 ≤ 62 ≤ INT_MAX) as [B1 B2] by (unfold INT_MAX; lia).
  pose proof (demo_tty_out [] [] [94] [65; 66] ltac:(cbn; lia) ltac:(cbn; lia)) as Hout.
  set (t := demo_tty [] [] [94] [65; 66]) in *.
  destruct (tty_world_inv 0 62 t [] [] B1 B2) as [Q HQ].
  pose proof (tty_world_sems 0 62 t [] []) as [_ H1].
  destruct (tty_output_order Q _ t (Sentry S_USED 62 (SEMQ 1)) [94] [65; 66] 2 0
    (handling_of _ _ HQ) (tty_at _ _ _ _) eq_refl Hout
    (conj H1 (conj eq_refl (conj eq_refl eq_refl)))
    ltac:(clear; cbn; unfold UART_FIFO_SIZE; lia) eq_refl eq_refl)
    as (s' & Q' & t' & E & _ & Ht' & Ho' & Hx & Hs' & _).
  exists s', t'. split; [exact E|]. split; [exact Ht'|]. split; [exact Ho'|]. split; [exact Hx|].
  rewrite Hs'. apply lookup_insert_eq.
Defined.

Definition last_place : ttycblk :=
  set_tyi (Ring 127 127 (replicate 128 0)) (demo_tty [] [] [] []).

(** The end of file arrives when the tail is on the last place of the buffer. *)
Lemma tty_eof_overflow_witness :
  ∃ s s1 t1, ttyhandle_in 0 s = Done tt s1 ∧ ttytab (dev s1) !! 0 = Some t1 ∧
    rtail (tyi t1) = Z.of_nat (length (rbuff (tyi t1))) ∧ ttyhandle_in 0 s1 = Fault.
Proof.
  assert (0 ≤ 0 ≤ INT_MAX ∧ 0 ≤ 64 ≤ INT_MAX) as [B1 B2] by (unfold INT_MAX; lia).
  pose proof (demo_tty_in [] [] [] [] ltac:(cbn; lia) ltac:(cbn; lia)) as [_ Hcur He Hmode].
  assert (tty_in last_place ([], [])) as Hin.
  { split; [|exact Hcur|exact He|exact Hmode].
    clear. split; cbn [last_place set_tyi tyi rbuff rhead rtail fst snd app length];
      [exact eq_refl|unfold TY_IBUFLEN; lia|unfold TY_IBUFLEN; lia|exact eq_refl|].
    intros i c [=]. }
  set (t := last_place) in *.
  destruct (tty_world_inv 0 64 t [4; 65] [] B1 B2) as [Q HQ].
  pose proof (tty_world_sems 0 64 t [4; 65] []) as [H0 _].
  destruct (tty_eof_overflow Q 0 _ t (Sentry S_USED 0 (SEMQ 0)) [] 65 []
    (Tty_ready _ _ _ _ _ _ (handling_of _ _ HQ) (tty_at _ _ _ _) Hin H0 eq_refl
      ltac:(clear; cbn; lia) ltac:(clear; cbn; unfold TY_IBUFLEN; lia))
    eq_refl eq_refl ltac:(clear; cbn; unfold TY_IBUFLEN; lia) eq_refl eq_refl ltac:(clear; lia))
    as (s1 & t1 & E & Ht1 & Hr1 & _ & Hf).
  eexists _, s1, t1. split; [exact E|]. split; [exact Ht1|]. split; [exact Hr1|exact Hf].
Defined.
