(* ===== verification/LfsDemo.v ===== *)
(** A concrete file system: a kernel with a RAM disk on which lfscreate has made a
    file system of [n] sectors, one of them index blocks; lfsopen has opened the new
    file [a], and lflwrite has written to it.  Inputs for the theorems on the local
    file system. *)

From S2P Require Import Prelude Types NetTypes Queue Heap ByteMem Words DevTypes Kernel KInv Sched Semaphore Device Process UserMem.
From S2P Require Import LfsDisk Lfs Lfl LfsRun LfsRep LfsMk LfsSetup LfsName LfsPos LfsFile LfsFull LfsOpen LfsTrunc Demo.

(** All memory is in use; the word at 4096 holds the string [a]. *)
Definition file_heap : heap := Heap (<[4096 := 97]> (ram 4096 8192)) (Memblk 0 0) 4096 12288.

Lemma file_heap_ok : heap_ok file_heap [].
Proof.
  split; cbn [mem file_heap memlist minheap maxheap mnext mlength].
  - intros a. rewrite lookup_insert_is_Some', ram_some by (Z.to_euclidean_division_equations; lia).
    split; [intros [?|?]|intros ?; by right]; [|done]. Z.to_euclidean_division_equations; lia.
  - split; [lia|exact eq_refl].
  - split_and!; [lia|lia|exact eq_refl].
  - exact eq_refl.
  - constructor.
  - cbn. lia.
  - exact eq_refl.
Qed.

Lemma file_heap_word i : 0 ≤ i < 4 → ldb (4096 + i) file_heap = Some (byte_of i 97).
Proof.
  intros Hi. unfold ldb, ld.
  assert ((4096 + i) mod 4 = i) as -> by (Z.to_euclidean_division_equations; lia).
  replace (4096 + i - i) with 4096 by lia. cbn [mem file_heap]. by rewrite lookup_insert_eq.
Qed.

(** The name, and an empty mode behind it. *)
Lemma file_name : string_at file_heap 4096 [97].
Proof.
  split; [|split; [by intros ?%list_elem_of_singleton|cbn; lia]]. cbn [app bytes_in].
  split; [exact (file_heap_word 0 ltac:(lia))|]. split; [exact (file_heap_word 1 ltac:(lia))|exact I].
Qed.
Lemma file_mode : string_at file_heap 4098 [].
Proof.
  split; [|split; [apply not_elem_of_nil|cbn; lia]]. cbn [app bytes_in].
  split; [exact (file_heap_word 2 ltac:(lia))|exact I].
Qed.

(** Semaphore 0 is the directory's mutex, semaphore 1 that of the slaves. *)
Definition free_slave (m : Z) : lflcblk :=
  Lflcblk LF_FREE (20 + m) 1 None 0 0 (replicate 16 0) LF_INULL zero_iblk LF_DNULL (replicate 512 0) LF_BLKSIZ false false.

Definition fs_dev : devstate :=
  Devstate {[0 := zero_tty]} (Uart [] [] 0 0) (table RM_BLKS (λ _, replicate 512 0))
    (Lfdata RAM0 0 zero_dir false false) (table Nlfl free_slave) net_bss.

Definition fs_blank : kst :=
  set_dev fs_dev
    (set_semtab (<[1 := Sentry S_USED 1 (SEMQ 1)]> (<[0 := Sentry S_USED 1 (SEMQ 0)]> (semtab demo_null)))
      (set_hp file_heap demo_null)).

Lemma fs_blank_inv : ∃ Q, ∀ d, InvQ Q (set_dev d fs_blank).
Proof.
  destruct demo_null_inv as [Q HQ]. exists Q. intros d. apply InvQ_dev, InvQ_dev.
  assert (0 ≤ 1 ≤ INT_MAX) as H1 by (unfold INT_MAX; lia).
  assert (InvQ Q (set_hp file_heap demo_null)) as HQ1.
  { destruct (proj2_sig demo_heap_sig) as (_ & Hmin & Hmax). fold demo_heap in Hmin, Hmax.
    apply InvQ_hp; [exact HQ|by exists []; apply file_heap_ok|by symmetry|by symmetry]. }
  pose proof (InvQ_new_sem Q _ 0 _ 1 HQ1 (demo_null_sem 0 ltac:(calc)) eq_refl H1) as HQ2.
  apply (InvQ_new_sem Q _ 1 (Sentry S_FREE 0 (SEMQ 1)) 1 HQ2); [|done|done].
  cbn [semtab set_semtab set_hp]. rewrite lookup_insert_ne by done. by apply demo_null_sem.
Qed.

Lemma fs_blank_sems d : mutex_free (set_dev d fs_blank) 0 ∧ mutex_free (set_dev d fs_blank) 1.
Proof.
  unfold mutex_free, INT_MAX. cbn [semtab fs_blank set_dev set_semtab]. split; eexists.
  - split; [rewrite lookup_insert_ne by done; apply lookup_insert_eq|]. cbn. split; [done|lia].
  - split; [apply lookup_insert_eq|]. cbn. split; [done|lia].
Qed.

Lemma fs_dev_disk : disk_ok (Ram fs_dev) ∧ ∀ k, 0 ≤ k < RM_BLKS → is_Some (Ram fs_dev !! k).
Proof.
  cbn [Ram fs_dev]. split.
  - intros i b Hb. pose proof (is_table_bound _ _ _ _ (is_table_table RM_BLKS _) Hb) as Hr.
    rewrite table_lookup in Hb by done. assert (b = replicate 512 0) as -> by congruence. apply length_replicate.
  - intros k Hk. rewrite table_lookup by done. by eexists.
Qed.

Lemma fs_slave m f : lfltab fs_dev !! m = Some f → 0 ≤ m < Nlfl ∧ f = free_slave m.
Proof.
  cbn [lfltab fs_dev]. intros Hf. pose proof (is_table_bound _ _ _ _ (is_table_table Nlfl _) Hf) as Hr.
  rewrite table_lookup in Hf by done. by injection Hf as <-.
Qed.

Section sectors.
Context (n : Z).

(** [fs_made]: lfscreate has returned; [fs_mounted]: the directory is in memory;
    [fs_opened]: the file [a] is open. *)
Definition fs_made : kst := after (lfscreate RAM0 7 (512 * n)) fs_blank.
Definition fs_mounted : kst := after load_dir fs_made.
Definition fs_opened : kst := after (lfsopen 4096 4098) fs_mounted.

Hypothesis n_range : 3 ≤ n ≤ RM_BLKS.

Lemma fs_sectors : 512 * n / 512 = n ∧ 1 ≤ n / 2.
Proof. split; [by rewrite Z.mul_comm, Z.div_mul|]. Z.to_euclidean_division_equations. lia. Qed.

Lemma fs_mounted_ok : ∃ Q, lfs_ok 1 Q fs_mounted ∅ ∅ (seqZ 0 7) (seqZ 2 (n - 2)) ∧ hp fs_mounted = file_heap.
Proof.
  destruct fs_blank_inv as [Q HQ]. destruct fs_dev_disk as [Hok Hall]. destruct fs_sectors as [Es Eh].
  destruct (lfscreate_runs 1 fs_dev 7 (512 * n) Hok Hall) as (R & Hrun & Hf); rewrite ?Es in *;
    [lia|done|unfold INT_MAX; lia|done|done|].
  set (d1 := set_Ram R fs_dev) in *.
  pose proof (load_dir_runs d1 (new_dir 2) eq_refl eq_refl (fs_dir _ _ _ Hf) (new_dir_wf 2 ltac:(done)) eq_refl) as Hload.
  set (d2 := set_Lf_data _ d1) in Hload.
  assert (fs_mounted = set_dev d2 fs_blank) as ->.
  { unfold fs_mounted, fs_made. rewrite (after_done _ _ _ _ (Hrun fs_blank eq_refl)).
    by rewrite (after_done _ _ _ _ (Hload (set_dev d1 fs_blank) eq_refl)). }
  exists Q. split; [|done]. split.
  - apply HQ.
  - replace (n - 2) with (n - 1 - 1) by lia.
    apply (fresh_rep 1 d2 n); [exact Hf|lia|lia|done|done|]. intros m f Hm. apply fs_slave in Hm as [_ ->]. done.
  - intros j fl. by rewrite lookup_empty.
  - done.
  - split.
    + intros m. split; [intros [f Hm]; apply fs_slave in Hm; lia|]. intros Hm.
      change (is_Some (table Nlfl free_slave !! m)). rewrite table_lookup by done. by eexists.
    + intros m f Hm. apply fs_slave in Hm as [_ ->]. done.
    + intros j m f ld. by rewrite lookup_empty.
    + intros i j e e' Hi. cbn in Hi. lia.
  - apply fs_blank_sems.
  - intros m f Hm. apply fs_slave in Hm as [_ ->]. split; [apply fs_blank_sems|done].
Qed.

Lemma fs_opens : ¬ open_fails (dev fs_mounted) [97] [] ∧ (∀ j, ¬ named (dev fs_mounted) [97] j) ∧
  ∀ m, first_free (dev fs_mounted) 0 m → m = 0.
Proof.
  destruct fs_mounted_ok as (Q & HL & _). pose proof (lo_rep _ _ _ _ _ _ _ HL) as Hr.
  assert (∀ m f, lfltab (dev fs_mounted) !! m = Some f → lfstate f ≠ LF_USED) as Hfree.
  { intros m f Hf Hu. destruct (fr_slaves _ _ _ _ _ _ Hr m f Hf Hu) as [j Hj]. by rewrite lookup_empty in Hj. }
  destruct (proj2 (nm_slaves _ _ (lo_names _ _ _ _ _ _ _ HL) 0) ltac:(done)) as [f0 Hf0].
  assert (∀ j, ¬ 0 ≤ j < lfd_nfiles (lf_dir (Lf_data (dev fs_mounted)))) as Hn.
  { intros j Hj%(fr_dom _ _ _ _ _ _ Hr). by destruct Hj; rewrite lookup_empty in *. }
  assert (∀ j, ¬ named (dev fs_mounted) [97] j) as Hno by (intros j [Hj _]; by eapply Hn).
  split; [|split; [done|]].
  - intros [H|[H|[(m & f & Hf & Hu & _)|[H|[[[j Hj] _]|[_ [H|H]]]]]]].
    + cbn in H. lia.
    + apply H. split; [constructor|split; [constructor|]]. by intros [?%not_elem_of_nil _].
    + by eapply Hfree.
    + eapply (Hfree 0 f0 Hf0). by apply (H 0).
    + by eapply Hno.
    + by apply H.
    + apply (Hn 0). rewrite H. done.
  - intros m (Hm & _ & Hu). destruct (decide (m = 0)) as [|Hne]; [done|]. exfalso.
    apply (Hfree 0 f0 Hf0). apply (Hu 0 f0); [lia|done].
Qed.

(** File 0 is open with slave 0: its bytes are [data], the position is [p]. *)
Definition file_world (s : kst) (data : list Z) (p : nat) : Prop :=
  ∃ Q F FI FD fl f, lfs_ok 1 Q s F {[0 := 0]} FI FD ∧ at_pos s F {[0 := 0]} 0 0 fl f ∧
    fl_data fl = data ∧ pos_of f = p ∧ hp s = file_heap ∧
    fl_ibs fl ++ FI = seqZ 0 7 ∧ fl_dbs fl ++ FD = seqZ 2 (n - 2).

Lemma fs_opened_world : file_world fs_opened [] 0.
Proof.
  destruct fs_mounted_ok as (Q & HL & Hh). destruct fs_opens as (Hnf & Hno & Hm0).
  destruct (lfsopen_spec 1 Q fs_mounted ∅ ∅ (seqZ 0 7) (seqZ 2 (n - 2)) 4096 4098 [97] [] HL) as
    [[? _]|(_ & j & m & f & F' & d' & Hm & Hf & E & HL' & [R1 (f' & Hf' & Hp) R3 R4 R5])];
    [rewrite Hh; apply file_name|rewrite Hh; apply file_mode|done|].
  assert (m = 0) as -> by by apply Hm0.
  destruct R5 as [[_ H]|(-> & _ & _)]; [by apply Hno in H|].
  assert (j = 0) as ->.
  { pose proof (lo_rep _ _ _ _ _ _ _ HL') as Hr. destruct R1 as [Hj _].
    destruct (decide (j = 0)) as [|Hne]; [done|]. exfalso.
    destruct (proj2 (fr_dom _ _ _ _ _ _ Hr 0)) as [x Hx]; [cbn in *; lia|].
    by rewrite lookup_insert_ne, lookup_empty in Hx. }
  unfold fs_opened. rewrite (after_done _ _ _ _ E).
  exists Q, (<[0 := empty_file]> ∅), (seqZ 0 7), (seqZ 2 (n - 2)), empty_file, f'. split; [done|]. split.
  - split_and!; [apply lookup_insert_eq|apply lookup_insert_eq|exact Hf'].
  - split_and!; try done. unfold pos_of. by rewrite Hp.
Qed.

(** After lflwrite. *)
Lemma write_world s p a w :
  file_world s [] 0 → bytes_in file_heap a w → 0 ≤ a → a + Z.of_nat (length w) < 4294967296 →
  (length w ≤ 512 * Nat.min (Z.to_nat (n - 2)) (16 * 7))%nat → p = length w →
  file_world (after (lflwrite 0 a (Z.of_nat (length w))) s) w p.
Proof.
  intros (Q & F & FI & FD & fl & f & HL & HA & Hd & Hp & Hh & Hib & Hdb) Hby Ha0 Ha Hcap ->.
  destruct (lflwrite_loop_spec 1 w Q s F _ FI FD 0 0 fl f a (Z.of_nat (length w)) HL HA) as
    (d' & f' & fl' & FI' & FD' & E & HL' & HA' & _ & Hp' & Hd' & [Hib' Hdb']); try done; [by rewrite Hh|..].
  { unfold capacity. apply (f_equal length) in Hib, Hdb. rewrite !length_app, length_seqZ in Hib, Hdb.
    rewrite Hd, Hp, Hib, Hdb. cbn [length]. rewrite Nat.max_r by lia. exact Hcap. }
  assert (lflwrite 0 a (Z.of_nat (length w)) s = Done (Z.of_nat (length w)) (set_dev d' s)) as E2.
  { unfold lflwrite. by rewrite bool_decide_eq_false_2, Nat2Z.id by lia. }
  rewrite (after_done _ _ _ _ E2). exists Q, (<[0 := fl']> F), FI', FD', fl', f'.
  split; [done|]. split; [done|]. rewrite Hd', Hd, Hp, Hp', Hp. split.
  { unfold write_list. rewrite take_nil, drop_nil. cbn [app]. apply app_nil_r. }
  split_and!; [done|done|congruence|congruence].
Qed.
End sectors.
#[global] Opaque fs_made fs_mounted fs_opened.

(** [fs_written]: two bytes have been written; [fs_filled]: a disk with one data
    block, all of it written. *)
Definition fs_written : kst := after (lflwrite 0 4096 2) (fs_opened 10).
Definition fs_filled : kst := after (lflwrite 0 4100 512) (fs_opened 3).

Lemma fs_written_world : file_world 10 fs_written [97; 0] 2.
Proof.
  assert (3 ≤ 10 ≤ RM_BLKS) as H10 by (unfold RM_BLKS; lia).
  apply (write_world 10 (fs_opened 10) 2 4096 [97; 0] (fs_opened_world 10 H10)); [apply file_name|done|done| |done].
  cbn. lia.
Qed.

Lemma file_heap_zero i : 4100 ≤ i < 12288 → ldb i file_heap = Some 0.
Proof.
  intros Hi. unfold ldb, ld. cbn [mem file_heap].
  rewrite lookup_insert_ne by (Z.to_euclidean_division_equations; lia).
  assert (ram 4096 8192 !! (i - i mod 4) = Some 0) as ->; [|done].
  destruct (proj2 (ram_some 4096 8192 (i - i mod 4) eq_refl eq_refl)) as [w Hw].
  { Z.to_euclidean_division_equations; lia. }
  rewrite Hw. f_equal. apply elem_of_list_to_map_2, list_elem_of_fmap in Hw as (x & [= _ ->] & _). done.
Qed.

Lemma file_heap_zeros k : ∀ a, 4100 ≤ a → a + Z.of_nat k ≤ 12288 → bytes_in file_heap a (replicate k 0).
Proof.
  induction k as [|k IH]; intros a Ha Hk; cbn [replicate bytes_in]; [done|].
  split; [apply file_heap_zero; lia|apply IH; lia].
Qed.

Lemma fs_filled_world : file_world 3 fs_filled (replicate 512 0) 512.
Proof.
  assert (3 ≤ 3 ≤ RM_BLKS) as H3 by (unfold RM_BLKS; lia).
  pose proof (file_heap_zeros 512 4100 ltac:(lia) ltac:(lia)) as Hby. pose proof (length_replicate 512 0) as Hl.
  unfold fs_filled. set (w := replicate 512 0) in *. clearbody w.
  replace 512 with (Z.of_nat (length w)) by (rewrite Hl; done).
  apply (write_world 3 (fs_opened 3) 512 4100 w (fs_opened_world 3 H3)); [done|done|rewrite Hl; done| |done].
  rewrite Hl. cbn. lia.
Qed.
#[global] Opaque fs_written fs_filled.
