(* ===== verification/LfsThms.v ===== *)
(** The local file system: an open file is a sequence of bytes with a position. *)

From S2P Require Import Prelude Types Queue Heap ByteMem Words DevTypes Kernel KInv Sched Semaphore Device Process UserMem.
From S2P Require Import LfsDisk Lfs Lfl LfsRun LfsRep LfsMk LfsSetup LfsName LfsPos LfsFile LfsFull LfsOpen LfsTrunc Demo LfsDemo.

(** C25: lflseek and lflread read the bytes of the file.  From a position in the
    file (its end included), lflread copies the bytes that are there, at most as
    many as it was asked for, to the caller's buffer and returns their number; it
    returns EOF when there is none and one was asked for.  No other memory, file,
    directory entry or free block changes, and the position moves behind the bytes.
    A position behind the end, and a negative count, are errors. *)
Theorem lfs_read ns Q s F OP FI FD j m fl f l off a n :
  lfs_ok ns Q s F OP FI FD → at_pos s F OP j m fl f → heap_ok (hp s) l → 0 ≤ off →
  let w := take (Z.to_nat n) (drop (Z.to_nat off) (fl_data fl)) in
  user_buf (hp s) l a (Z.of_nat (length w)) → 0 ≤ a → a + Z.of_nat (length w) < 4294967296 →
  if bool_decide (off ≤ Z.of_nat (length (fl_data fl))) then
    ∃ s' f', (_ ← lflseek m off; lflread m a n) s =
        Done (if bool_decide (n < 0) then SYSERR
              else if bool_decide (w = [] ∧ n ≠ 0) then EOF else Z.of_nat (length w)) s' ∧
      lfs_ok ns Q s' F OP FI FD ∧ at_pos s' F OP j m fl f' ∧ copied l (hp s) (hp s') a w ∧
      pos_of f' = (Z.to_nat off + length w)%nat
  else ∃ d', lflseek m off s = Done SYSERR (set_dev d' s) ∧ lfs_ok ns Q (set_dev d' s) F OP FI FD.
Proof.
  intros HL HA Hok Hoff w Hbuf Ha0 Ha.
  destruct (lflseek_spec ns Q s F OP FI FD j m fl f off HL HA Hoff) as (d1 & f1 & E1 & HL1 & HA1 & _ & Hp1).
  case_bool_decide as Hle; [|by exists d1].
  rewrite M_bind_eq, E1. cbn [obind]. unfold lflread. case_bool_decide as Hn.
  - exists (set_dev d1 s), f1. assert (w = []) as -> by (unfold w; by rewrite Z2Nat.nonpos by lia).
    split; [done|]. split; [done|]. split; [done|]. split; [by split|cbn; lia].
  - assert (chunk fl f1 (Z.to_nat n) = w) as Ew by (unfold chunk; by rewrite Hp1).
    destruct (lflread_loop_spec ns (Z.to_nat n) Q (set_dev d1 s) F OP FI FD j m fl f1 l a 0 HL1 HA1 Hok) as
      (s' & f' & E & HL' & HA' & Hc & _ & Hp'); rewrite ?Ew in *; try done.
    exists s', f'. rewrite E. split; [|split; [done|split; [done|split; [done|lia]]]]. f_equal.
    rewrite Z.add_0_l. destruct w as [|c w']; cbn [length]; [|by rewrite !bool_decide_eq_false_2 by (lia || naive_solver)].
    rewrite (bool_decide_ext (Z.of_nat 0 = 0 ∧ Z.to_nat n ≠ 0%nat) (@nil Z = [] ∧ n ≠ 0)); [by case_bool_decide|].
    split; intros [_ ?]; (split; [done|lia]).
Qed.

(** C26: lflwrite puts the caller's bytes into the file at its position, over those
    that are there and then at the end, for any count for which the free blocks of
    the disk suffice; it returns the count and leaves the position behind them.
    The other files, and the file system's tables, stay in order; the blocks
    the file has taken are the first of the free lists, so none is lost.  A negative count is an error. *)
Theorem lfs_write ns Q s F OP FI FD j m fl f a w :
  lfs_ok ns Q s F OP FI FD → at_pos s F OP j m fl f → bytes_in (hp s) a w → 0 ≤ a →
  a + Z.of_nat (length w) < 4294967296 →
  (Nat.max (length (fl_data fl)) (pos_of f + length w) ≤ capacity fl FI FD)%nat →
  (∃ d' f' fl' FI' FD', lflwrite m a (Z.of_nat (length w)) s = Done (Z.of_nat (length w)) (set_dev d' s) ∧
    lfs_ok ns Q (set_dev d' s) (<[j := fl']> F) OP FI' FD' ∧ at_pos (set_dev d' s) (<[j := fl']> F) OP j m fl' f' ∧
    fl_data fl' = take (pos_of f) (fl_data fl) ++ w ++ drop (pos_of f + length w) (fl_data fl) ∧
    pos_of f' = (pos_of f + length w)%nat ∧ same_blocks fl FI FD fl' FI' FD') ∧
  ∀ n, n < 0 → lflwrite m a n s = Done SYSERR s.
Proof.
  intros HL HA Hby Ha0 Ha Hcap. split.
  - destruct (lflwrite_loop_spec ns w Q s F OP FI FD j m fl f a (Z.of_nat (length w)) HL HA Hby Ha0 Ha Hcap)
      as (d' & f' & fl' & FI' & FD' & E & HL' & HA' & _ & Hp & Hd & Hc).
    exists d', f', fl', FI', FD'. unfold lflwrite. rewrite bool_decide_eq_false_2, Nat2Z.id by lia. by split_and!.
  - intros n Hn. unfold lflwrite. by rewrite bool_decide_eq_true_2.
Qed.

(** C27: lfscreate makes an empty file system of any admissible size: read back
    by the first lfsopen (load_dir), the directory has no file, all index blocks
    are on the one free list and all data blocks on the other, each once; and
    lfsckfmt, which follows the lists on the disk, counts them.  It comes to an
    end, and changes nothing but the disk. *)
Theorem lfs_create_mount d lfiblks dsiz :
  let ns := ib_sectors lfiblks in let sectors := dsiz / 512 in
  disk_ok (Ram d) → (∀ k, 0 ≤ k < RM_BLKS → is_Some (Ram d !! k)) → 1 ≤ lfiblks ≤ INT_MAX →
  3 ≤ sectors ≤ RM_BLKS → ns ≤ sectors / 2 →
  lf_dskdev (Lf_data d) = RAM0 → lf_dirpresent (Lf_data d) = false →
  (∀ m f, lfltab d !! m = Some f → lfstate f ≠ LF_USED) →
  ∃ R d', runs (lfscreate RAM0 lfiblks dsiz) d OK (set_Ram R d) ∧
    runs (lfsckfmt RAM0) (set_Ram R d) (OK, (7 * ns, sectors - ns - 1)) (set_Ram R d) ∧
    runs load_dir (set_Ram R d) true d' ∧
    fs_rep ns d' ∅ ∅ (seqZ 0 (7 * ns)) (seqZ (ns + 1) (sectors - ns - 1)).
Proof.
  intros ns sectors Hok Hall Hlf Hsec Hhalf Hdev Hpr Hfree.
  assert (1 ≤ ns) as Hns by (unfold ns, ib_sectors; Z.to_euclidean_division_equations; lia).
  assert (ns + 1 < sectors) as Hlt by (Z.to_euclidean_division_equations; lia).
  assert (lfdir_wf (new_dir (ns + 1))) as Hwf by (apply new_dir_wf; unfold RM_BLKS, int32 in *; lia).
  destruct (lfscreate_runs ns d lfiblks dsiz Hok Hall Hns eq_refl ltac:(lia) Hsec Hhalf) as (R & Hrun & Hf).
  eexists R, _. split; [exact Hrun|]. split; [apply lfsckfmt_runs; [exact Hf|lia|unfold RM_BLKS in *; lia]|].
  split; [by apply load_dir_runs; try apply Hf|]. by apply fresh_rep; cbn; [exact Hf|lia|unfold RM_BLKS in *; lia|..].
Qed.

(** C29: lfsopen fails, and changes nothing, exactly when the name is too long, the
    mode is not a set of the letters r, w, o and n with at most one of o and n, the
    file is open, no slave is free, or the file's presence is not what the mode asks
    for (or the full directory has no room for it).  Otherwise the first free slave
    is the open file at position 0; a file that did not exist is now in the
    directory, without bytes. *)
Theorem lfs_open ns Q s F OP FI FD name mode w wm :
  lfs_ok ns Q s F OP FI FD → string_at (hp s) name w → string_at (hp s) mode wm →
  (open_fails (dev s) w wm ∧ lfsopen name mode s = Done SYSERR s) ∨
  (¬ open_fails (dev s) w wm ∧ ∃ j m f F' d', first_free (dev s) 0 m ∧ lfltab (dev s) !! m = Some f ∧
    lfsopen name mode s = Done (lfdev f) (set_dev d' s) ∧
    lfs_ok ns Q (set_dev d' s) F' (<[j := m]> OP) FI FD ∧ open_result s F w j m F' d').
Proof. apply lfsopen_spec. Qed.

(** C30: lflclose leaves the whole file on the disk.  The slave is free, every file
    is as it was, none of the bytes of the closed one is in memory only; and the
    directory on the disk is the one in memory, if it was or was marked as changed. *)
Theorem lfs_close ns Q s F OP FI FD j m fl f :
  lfs_ok ns Q s F OP FI FD → at_pos s F OP j m fl f →
  ∃ d', lflclose m s = Done OK (set_dev d' s) ∧ lfs_ok ns Q (set_dev d' s) F (delete j OP) FI FD ∧
    (∃ f', lfltab d' !! m = Some f' ∧ lfstate f' = LF_FREE) ∧
    (∃ ld, entry d' j = Some ld ∧ file_at (Ram d') ld None fl) ∧
    (dir_saved (dev s) → Ram d' !! 0 = Some (enc_lfdir (lf_dir (Lf_data d')))).
Proof.
  intros HL HA. destruct (lflclose_spec ns Q s F OP FI FD j m fl f HL HA) as (d' & E & HL' & _ & Hst & Hdir).
  exists d'. split_and!; try done.
  destruct (fr_files _ _ _ _ _ _ (lo_rep _ _ _ _ _ _ _ HL') j fl) as (ld & Hld & Hat); [apply HA|].
  exists ld. split; [done|]. unfold open_cb in Hat. by rewrite lookup_delete_eq in Hat.
Qed.

(** C31: truncating an open file comes to an end and returns OK: the file has no
    bytes, its position is 0, and all its index blocks and data blocks are on the
    free lists, in front of those that were free, whatever the unused bytes of a
    free block hold. *)
Theorem lfs_truncate ns unused Q s F OP FI FD j m fl f arg1 arg2 :
  length unused = 508%nat → lfs_ok ns Q s F OP FI FD → at_pos s F OP j m fl f →
  ∃ d' f', lflcontrol unused m LF_CTL_TRUNC arg1 arg2 s = Done OK (set_dev d' s) ∧
    lfs_ok ns Q (set_dev d' s) (<[j := empty_file]> F) OP (fl_ibs fl ++ FI) (reverse (fl_dbs fl) ++ FD) ∧
    at_pos (set_dev d' s) (<[j := empty_file]> F) OP j m empty_file f' ∧ pos_of f' = 0%nat.
Proof.
  intros Hu HL HA. destruct (lflcontrol_spec ns unused Hu Q s F OP FI FD j m fl f arg1 arg2 HL HA)
    as (d' & f' & E & HL' & HA' & _ & Hp). by exists d', f'.
Qed.

(** a byte that needs a data block, on a disk that has none left, stops the
    kernel: lflputc does not return an error. *)
Theorem lfs_full ns Q s F OP FI j m fl f ch :
  lfs_ok ns Q s F OP FI [] → at_pos s F OP j m fl f → pos_of f = (512 * length (fl_dbs fl))%nat → FI ≠ [] →
  ∃ s', lflputc m ch s = Halt s'.
Proof.
  intros HL HA Hpos HFI. eapply lflputc_full; [exact HL|exact HA|exact Hpos|].
  pose proof (lfs_open_at _ _ _ _ _ _ _ _ _ _ _ HL HA) as HO. destruct (oa_at _ _ _ _ _ _ _ _ _ _ HO) as (ld & _ & _ & Hat).
  pose proof (fa_index _ _ _ _ Hat). pose proof (Nat.div_mod_eq (length (fl_dbs fl)) 16).
  split; [lia|by split].
Qed.

(** C32: the structures on the disk are typed: whatever bytes are in a block, the
    directory and the index blocks that are read from it have every field in the
    range of its C type and every array of its size, and what is written back is
    the same bytes; and a structure that is written is read back as it was, the
    directory filling one block and the index block 72 bytes. *)
Theorem lfs_disk_format :
  (∀ b, length b = 512%nat → Forall byte b → lfdir_wf (dec_lfdir b) ∧ enc_lfdir (dec_lfdir b) = b) ∧
  (∀ b, length b = 72%nat → Forall byte b → iblk_wf (dec_iblk b) ∧ enc_iblk (dec_iblk b) = b) ∧
  (∀ d, lfdir_wf d → length (enc_lfdir d) = 512%nat ∧ dec_lfdir (enc_lfdir d) = d) ∧
  (∀ B, iblk_wf B → length (enc_iblk B) = 72%nat ∧ dec_iblk (enc_iblk B) = B).
Proof.
  split_and!; [apply enc_dec_lfdir|apply enc_dec_iblk|..].
  - intros d Hd. split; [by apply length_enc_lfdir|by apply dec_enc_lfdir].
  - intros B HB. split; [by apply length_enc_iblk|]. rewrite <-(app_nil_r (enc_iblk B)). by apply dec_enc_iblk.
Qed.

(** ** Instances *)

(** The two bytes of the file are read to 4200. *)
Lemma lfs_read_witness :
  ∃ s', (_ ← lflseek 0 0; lflread 0 4200 10) fs_written = Done 2 s' ∧ bytes_in (hp s') 4200 [97; 0].
Proof.
  destruct fs_written_world as (Q & F & FI & FD & fl & f & HL & HA & Hd & Hp & Hh & _).
  assert (take (Z.to_nat 10) (drop (Z.to_nat 0) (fl_data fl)) = [97; 0]) as Ew by (rewrite Hd; reflexivity).
  assert (user_buf (hp fs_written) [] 4200 2) as Hb.
  { rewrite Hh. intros i Hi. split; [apply free_at_nil|]. cbn [minheap maxheap file_heap].
    Z.to_euclidean_division_equations; lia. }
  assert (heap_ok (hp fs_written) []) as Hok by (rewrite Hh; apply file_heap_ok).
  pose proof (lfs_read 1 Q fs_written F _ FI FD 0 0 fl f [] 0 4200 10 HL HA Hok ltac:(lia)) as H.
  cbv zeta in H. rewrite Ew in H. specialize (H Hb ltac:(lia) ltac:(cbn; lia)).
  rewrite bool_decide_eq_true_2 in H by lia. destruct H as (s' & f' & E & _ & _ & [_ Hby _] & _).
  exists s'. split; [exact E|exact Hby].
Defined.

(** Two bytes are written to the empty file. *)
Lemma lfs_write_witness :
  ∃ d' fl', lflwrite 0 4096 2 (fs_opened 10) = Done 2 (set_dev d' (fs_opened 10)) ∧ fl_data fl' = [97; 0].
Proof.
  destruct (fs_opened_world 10 ltac:(unfold RM_BLKS; lia)) as (Q & F & FI & FD & fl & f & HL & HA & Hd & Hp & Hh & Hib & Hdb).
  apply (f_equal length) in Hib, Hdb. rewrite !length_app, length_seqZ in Hib, Hdb.
  assert (bytes_in (hp (fs_opened 10)) 4096 [97; 0]) as Hby by (rewrite Hh; apply file_name).
  assert (Nat.max (length (fl_data fl)) (pos_of f + length [97; 0]) ≤ capacity fl FI FD)%nat as Hcap.
  { unfold capacity. rewrite Hd, Hp, Hib, Hdb. cbn. lia. }
  destruct (lfs_write 1 Q (fs_opened 10) F _ FI FD 0 0 fl f 4096 [97; 0] HL HA Hby ltac:(lia) ltac:(cbn; lia) Hcap)
    as [(d' & f' & fl' & FI' & FD' & E & _ & _ & Hd' & _) _].
  exists d', fl'. split; [exact E|]. rewrite Hd', Hd, Hp. reflexivity.
Defined.

(** Ten sectors of the RAM disk, seven index blocks. *)
Lemma lfs_create_mount_witness :
  ∃ R d', runs (lfscreate RAM0 7 5120) fs_dev OK (set_Ram R fs_dev) ∧
    runs (lfsckfmt RAM0) (set_Ram R fs_dev) (OK, (7, 8)) (set_Ram R fs_dev) ∧
    fs_rep 1 d' ∅ ∅ (seqZ 0 7) (seqZ 2 8).
Proof.
  destruct fs_dev_disk as [Hok Hall].
  destruct (lfs_create_mount fs_dev 7 5120 Hok Hall ltac:(unfold INT_MAX; lia) ltac:(by unfold RM_BLKS) ltac:(done) eq_refl eq_refl)
    as (R & d' & E1 & E2 & _ & Hr).
  - intros m f Hm. apply fs_slave in Hm as [_ ->]. done.
  - exists R, d'. split; [exact E1|]. split; [exact E2|exact Hr].
Defined.

(** A new file is opened with slave 0. *)
Lemma lfs_open_witness :
  ∃ f d', lfsopen 4096 4098 (fs_mounted 10) = Done (lfdev f) (set_dev d' (fs_mounted 10)) ∧
    lfltab (dev (fs_mounted 10)) !! 0 = Some f.
Proof.
  assert (3 ≤ 10 ≤ RM_BLKS) as H10 by (unfold RM_BLKS; lia).
  destruct (fs_mounted_ok 10 H10) as (Q & HL & Hh). destruct (fs_opens 10 H10) as (Hnf & _ & Hm0).
  assert (string_at (hp (fs_mounted 10)) 4096 [97]) as Hn by (rewrite Hh; apply file_name).
  assert (string_at (hp (fs_mounted 10)) 4098 []) as Hm by (rewrite Hh; apply file_mode).
  destruct (lfs_open 1 Q (fs_mounted 10) ∅ ∅ _ _ 4096 4098 [97] [] HL Hn Hm)
    as [[Hf _]|(_ & j & m & f & F' & d' & Hfr & Hf & E & _)]; [destruct (Hnf Hf)|].
  exists f, d'. split; [exact E|]. by rewrite <-(Hm0 m Hfr).
Defined.

(** The written file is closed. *)
Lemma lfs_close_witness :
  ∃ d' ld fl, lflclose 0 fs_written = Done OK (set_dev d' fs_written) ∧ entry d' 0 = Some ld ∧
    file_at (Ram d') ld None fl ∧ fl_data fl = [97; 0].
Proof.
  destruct fs_written_world as (Q & F & FI & FD & fl & f & HL & HA & Hd & _).
  destruct (lfs_close 1 Q fs_written F _ FI FD 0 0 fl f HL HA) as (d' & E & _ & _ & (ld & Hld & Hat) & _).
  exists d', ld, fl. split; [exact E|]. split; [exact Hld|]. split; [exact Hat|exact Hd].
Defined.

(** And truncated: all blocks are free. *)
Lemma lfs_truncate_witness :
  ∃ d' f', lflcontrol (replicate 508 0) 0 LF_CTL_TRUNC 0 0 fs_written = Done OK (set_dev d' fs_written) ∧
    lfltab d' !! 0 = Some f' ∧ pos_of f' = 0%nat.
Proof.
  destruct fs_written_world as (Q & F & FI & FD & fl & f & HL & HA & _).
  destruct (lfs_truncate 1 (replicate 508 0) Q fs_written F _ FI FD 0 0 fl f 0 0 (length_replicate 508 0) HL HA)
    as (d' & f' & E & _ & (_ & _ & Hf) & Hp).
  exists d', f'. split; [exact E|]. split; [exact Hf|exact Hp].
Defined.

(** The disk with one data block, which is full. *)
Lemma lfs_full_witness : ∃ s', lflputc 0 65 fs_filled = Halt s'.
Proof.
  destruct fs_filled_world as (Q & F & FI & FD & fl & f & HL & HA & Hd & Hp & _ & Hib & Hdb).
  pose proof (lfs_open_at _ _ _ _ _ _ _ _ _ _ _ HL HA) as HO.
  destruct (oa_at _ _ _ _ _ _ _ _ _ _ HO) as (ld & _ & _ & Hat). pose proof (fa_fits _ _ _ _ Hat) as Hfit.
  destruct (lo_tight _ _ _ _ _ _ _ HL 0 fl) as [_ Ht]; [apply HA|].
  apply (f_equal length) in Hib, Hdb. rewrite !length_app, length_seqZ in Hib, Hdb.
  rewrite Hd, length_replicate in Hfit.
  assert (length FD = 0%nat ∧ length (fl_dbs fl) = 1%nat) as [->%length_zero_iff_nil Hl] by (change (Z.to_nat (3 - 2)) with 1%nat in Hdb; lia).
  assert (FI ≠ []) as HFI by (intros ->; change (Z.to_nat 7) with 7%nat in Hib; cbn in Hib; lia).
  assert (pos_of f = (512 * length (fl_dbs fl))%nat) as Hpos by (rewrite Hp, Hl; reflexivity).
  exact (lfs_full 1 Q fs_filled F _ FI 0 0 fl f 65 HL HA Hpos HFI).
Defined.
