(* ===== verification/NetDemo.v ===== *)
(** A concrete machine on a network: a kernel with a pool of three network buffers, the
    first of which holds a given packet.  Inputs for the theorems on the network. *)

From S2P Require Import Prelude Types Queue Heap ByteMem Words NetTypes DevTypes Kernel KInv Sched Semaphore Message Device Process UserMem Sysinit.
From S2P Require Import BufPool Packet NetMem NetFmt Eth Arp NetEth Udp Ip Net NetWire NetIp NetPath NetArp NetIcmp Tty Ring NetUdp Demo LfsDemo.

(** The header words of the three buffers: pool 0, and the list of the free ones. *)
Definition pool_heap : heap :=
  Heap (<[4096 := 0]> (<[5616 := 7136]> (<[7136 := 0]> (ram 4096 8192)))) (Memblk 0 0) 4096 12288.
Definition packet_heap (p : list Z) : heap := default pool_heap (stbs p 4100 pool_heap).

(** Semaphore 2 counts the free buffers, semaphore 3 the places of the driver's ring. *)
Definition net_machine (nt : netstate) (p : list Z) : kst :=
  set_dev (set_net nt demo_dev)
    (set_bufs (Bufpools (<[0 := Bpentry 5616 2 1520]> (table NBPOOLS (λ _, Bpentry 0 0 0))) 1)
      (set_semtab (<[3 := Sentry S_USED 4 (SEMQ 3)]> (<[2 := Sentry S_USED 2 (SEMQ 2)]> (semtab demo_null)))
        (set_hp (packet_heap p) demo_null))).

Lemma pool_heap_ok : heap_ok pool_heap [].
Proof.
  split; cbn [mem pool_heap memlist minheap maxheap mnext mlength].
  - intros a. do 3 rewrite lookup_insert_is_Some'; rewrite ram_some by (Z.to_euclidean_division_equations; lia).
    split; [|by eauto]. intros [?|[?|[?|?]]]; [..|done]; Z.to_euclidean_division_equations; lia.
  - split; [lia|exact eq_refl].
  - split_and!; [lia|lia|exact eq_refl].
  - exact eq_refl.
  - constructor.
  - cbn. lia.
  - exact eq_refl.
Qed.

Lemma pool_heap_words :
  mem pool_heap !! 4096 = Some 0 ∧ mem pool_heap !! 5616 = Some 7136 ∧ mem pool_heap !! 7136 = Some 0.
Proof.
  cbn [mem pool_heap]. split; [apply lookup_insert_eq|]. rewrite !(lookup_insert_ne _ 4096) by lia.
  split; [apply lookup_insert_eq|]. rewrite lookup_insert_ne by lia. apply lookup_insert_eq.
Qed.

(** All of the memory is in use. *)
Lemma machine_user h a n :
  minheap h = 4096 → maxheap h = 12288 → 4096 ≤ a → a + n ≤ 12288 → user_buf h [] a n.
Proof.
  intros E1 E2 Ha Hn i Hi. rewrite E1, E2. split; [by intros ?%Exists_nil|].
  pose proof (Z.mod_pos_bound i 4 ltac:(lia)). Z.to_euclidean_division_equations. lia.
Qed.

Lemma packet_heap_spec p :
  length p = Z.to_nat PACKLEN → Forall byte p →
  heap_ok (packet_heap p) [] ∧ minheap (packet_heap p) = 4096 ∧ maxheap (packet_heap p) = 12288 ∧
  bytes_in (packet_heap p) 4100 p ∧
  (∀ w, w mod 4 = 0 → w + 4 ≤ 4100 ∨ 4100 + PACKLEN ≤ w → mem (packet_heap p) !! w = mem pool_heap !! w).
Proof.
  intros Hl Hb. destruct (stbs_user [] p 4100 pool_heap pool_heap_ok) as (h & E & Hok & E1 & E2 & Hin & _ & Hw).
  - apply machine_user; try done. rewrite Hl. unfold PACKLEN. lia.
  - done.
  - assert (packet_heap p = h) as -> by (unfold packet_heap; by rewrite E).
    split; [exact Hok|]. split; [exact E1|]. split; [exact E2|]. split; [exact Hin|]. intros w Hw4 Hwr. apply Hw; [done|].
    rewrite Hl. unfold PACKLEN in *. lia.
Qed.

#[global] Opaque packet_heap pool_heap.

Lemma machine_inv nt p : length p = Z.to_nat PACKLEN → Forall byte p → ∃ Q, InvQ Q (net_machine nt p).
Proof.
  intros Hl Hb. destruct (packet_heap_spec p Hl Hb) as (Hok & E1 & E2 & _).
  destruct demo_null_inv as [Q HQ]. exists Q. apply InvQ_dev, InvQ_bufs.
  assert (InvQ Q (set_hp (packet_heap p) demo_null)) as HQ1.
  { destruct (proj2_sig demo_heap_sig) as (_ & Hmin & Hmax). fold demo_heap in Hmin, Hmax.
    apply InvQ_hp; [exact HQ|by exists []|by rewrite E1; symmetry|by rewrite E2; symmetry]. }
  pose proof (InvQ_new_sem Q _ 2 _ 2 HQ1 (demo_null_sem 2 ltac:(calc)) eq_refl ltac:(unfold INT_MAX; lia)) as HQ2.
  apply (InvQ_new_sem Q _ 3 (Sentry S_FREE 0 (SEMQ 3)) 4 HQ2); [|done|unfold INT_MAX; lia].
  cbn [semtab set_semtab set_hp]. rewrite lookup_insert_ne by done. by apply demo_null_sem.
Qed.

Lemma machine_pool x : x ∈ pool 3 4096 ↔ x = 4096 ∨ x = 5616 ∨ x = 7136.
Proof.
  unfold pool. cbn [pool_bufs]. rewrite !elem_of_cons, elem_of_nil. change (4096 + STRIDE) with 5616.
  change (5616 + STRIDE) with 7136. tauto.
Qed.

Lemma machine_packet nt p :
  length p = Z.to_nat PACKLEN → Forall byte p → netbufpool nt = 0 →
  ∃ Q, pkt_state 3 4096 2 Q (net_machine nt p) [] [5616; 7136] 4096 p.
Proof.
  intros Hl Hb Hn. destruct (packet_heap_spec p Hl Hb) as (Hok & E1 & E2 & Hin & Hw).
  destruct (machine_inv nt p Hl Hb) as [Q HQ]. exists Q.
  assert (∀ w v, mem pool_heap !! w = Some v → w mod 4 = 0 → w + 4 ≤ 4100 ∨ 4100 + PACKLEN ≤ w →
    mem (packet_heap p) !! w = Some v) as Hword by (intros w v Hv Hw4 Hwr; by rewrite Hw).
  split; try done.
  - split; cbn [hp bufs semtab dev net_machine set_dev set_bufs set_semtab set_net net nbpools buftab]; rewrite ?Hn.
    + done.
    + intros x [->|[->| ->]]%machine_pool; (split; [done|]); apply machine_user; try done; unfold STRIDE; lia.
    + lia.
    + done.
    + exists (Bpentry 5616 2 1520). split; [apply lookup_insert_eq|]. split; [done|]. cbn [bchain bpnext].
      split; [done|]. exists 7136. split; [apply Hword; [apply pool_heap_words|done|by right]|].
      split; [done|]. exists 0. split; [apply Hword; [apply pool_heap_words|done|by right]|done].
    + exists (Sentry S_USED 2 (SEMQ 2)). split; [by rewrite lookup_insert_ne, lookup_insert_eq by done|done].
    + apply NoDup_cons_2; [intros ?%list_elem_of_singleton; lia|apply NoDup_singleton].
    + intros x [->| ->%list_elem_of_singleton]%elem_of_cons; apply machine_pool; tauto.
    + intros x [->|[->| ->]]%machine_pool Hx; [|exfalso; apply Hx; by left|exfalso; apply Hx; right; by left].
      exact (Hword 4096 0 (proj1 pool_heap_words) eq_refl (or_introl (Z.le_refl 4100))).
  - apply machine_pool. by left.
  - rewrite !elem_of_cons, elem_of_nil. lia.
Qed.

(** ** A packet of 5 bytes of data from 10.0.0.2, port 7, to 10.0.0.3, port 9 *)

Definition hello : list Z := [104; 101; 108; 108; 111].
Definition demo_header (dst src : list Z) : list Z :=
  [0; 0; 0; 0; 0; 0] ++ [2; 0; 0; 0; 0; 1] ++ [0; 8] ++ [69; 0; 33; 0] ++ [0; 0; 0; 0] ++ [64; 17; 0; 0] ++
  src ++ dst ++ [7; 0; 9; 0] ++ [13; 0; 0; 0].
Definition demo_packet : list Z := (demo_header [3; 0; 0; 10] [2; 0; 0; 10] ++ hello) ++ replicate 1467 0.

Lemma bytes_of_list l : forallb (λ b, (0 <=? b) && (b <? 256)) l = true → Forall byte l.
Proof.
  intros H. apply Forall_forall. intros b Hb. rewrite forallb_forall in H.
  apply list_elem_of_In, H, andb_true_iff in Hb. unfold byte. lia.
Qed.

Lemma demo_packet_ok : length demo_packet = Z.to_nat PACKLEN ∧ Forall byte demo_packet.
Proof. split; [reflexivity|]. by apply bytes_of_list. Qed.

Lemma demo_ip_packet : ip_packet demo_packet.
Proof.
  split; [apply demo_packet_ok..|]. change (get16 net_iplen demo_packet) with 33. unfold IP_HDR_LEN. lia.
Qed.

(** The machine 10.0.0.2 with mask 255.255.255.0; its cache has an entry for 10.0.0.3. *)
Definition demo_network : network :=
  Network 167772162 167772415 4294967040 167772160 0 0 0 0 true [2; 0; 0; 0; 0; 1] (replicate 6 255) (replicate 128 0).
Definition demo_arp (i : Z) : arpentry :=
  if bool_decide (i = 0) then Arpentry AR_RESOLVED 167772163 0 [2; 0; 0; 0; 0; 2] else zero_arp.
Definition demo_ring : ethcblk :=
  Ethcblk ∅ 0 0 0 (table 4 (λ _, Eth_desc None (replicate 1518 0) 0 0 0 0)) 0 0 4 [2; 0; 0; 0; 0; 1] 0 3 None None.
Definition demo_net (n : network) (u : Z → udpentry) : netstate :=
  Netstate n 0 0 (table ARP_SIZ demo_arp) (table UDP_SLOTS u) 1 1 (table ICMP_SLOTS (λ _, zero_icmp)) 1
    (Iqentry 0 0 0 (replicate 8 0)) demo_ring.
Definition demo_host (p : list Z) : kst := net_machine (demo_net demo_network (λ _, zero_udp)) p.

Lemma demo_ring_empty : tx_queue demo_ring [].
Proof.
  split; cbn [txRingSize demo_ring txRing txTail tx_hdp]; [done|done| |].
  - intros i Hi. eexists. split; [by apply table_lookup|]. apply length_replicate.
  - exists 0. split; [done|]. split; [done|constructor].
Qed.

Lemma demo_tx n u p : tx_state (net_machine (demo_net n u) p) 4 [].
Proof.
  split.
  - exists (Sentry S_USED 4 (SEMQ 3)). split; [apply lookup_insert_eq|done].
  - exact demo_ring_empty.
  - cbn. lia.
Qed.

Lemma demo_host_packet p :
  length p = Z.to_nat PACKLEN → Forall byte p → ∃ Q, pkt_state 3 4096 2 Q (demo_host p) [] [5616; 7136] 4096 p.
Proof. intros Hl Hb. by apply machine_packet. Qed.

(** ** 10.0.0.9 asks for the hardware address of 10.0.0.2 *)

Definition demo_request : list Z :=
  (replicate 6 255 ++ [2; 0; 0; 0; 0; 9] ++ [6; 8] ++ [0; 1] ++ [8; 0] ++ [6; 4] ++ [0; 1] ++
   [2; 0; 0; 0; 0; 9] ++ [10; 0; 0; 9] ++ replicate 6 0 ++ [10; 0; 0; 2]) ++ replicate 1472 0.

Lemma demo_request_ok : length demo_request = Z.to_nat PACKLEN ∧ Forall byte demo_request.
Proof. split; [reflexivity|]. by apply bytes_of_list. Qed.

Lemma demo_arp_at i e : table ARP_SIZ demo_arp !! i = Some e → 0 ≤ i ∧ e = demo_arp i.
Proof.
  intros He. pose proof (is_table_bound _ _ _ _ (is_table_table ARP_SIZ demo_arp) He) as Hi.
  rewrite table_lookup in He by done. split; [lia|]. by injection He as <-.
Qed.

Lemma demo_arp_cases i : 0 ≤ i → i = 0 ∧ demo_arp i = Arpentry AR_RESOLVED 167772163 0 [2; 0; 0; 0; 0; 2] ∨ demo_arp i = zero_arp.
Proof. intros Hi. unfold demo_arp. case_bool_decide; [by left|by right]. Qed.

(** The cache is a table in which no address has two entries; the sender gets entry 1. *)
Lemma demo_arp_distinct : arp_distinct (table ARP_SIZ demo_arp).
Proof.
  intros i j e e' [Hi ->]%demo_arp_at [Hj ->]%demo_arp_at Hu Hu' _.
  destruct (demo_arp_cases i Hi) as [[-> _]|E]; [|by rewrite E in Hu].
  destruct (demo_arp_cases j Hj) as [[-> _]|E]; [done|by rewrite E in Hu'].
Qed.

Lemma demo_arp_none i e : table ARP_SIZ demo_arp !! i = Some e → entry_for 167772169 e = false.
Proof. intros [Hi ->]%demo_arp_at. by destruct (demo_arp_cases i Hi) as [[_ ->]| ->]. Qed.

Lemma demo_arp_learn :
  arp_learn (table ARP_SIZ demo_arp) 167772169 [2; 0; 0; 0; 0; 9]
    (Some (<[1 := Arpentry AR_RESOLVED 167772169 0 [2; 0; 0; 0; 0; 9]]> (table ARP_SIZ demo_arp), None)).
Proof.
  apply Learn_new.
  - constructor. exact demo_arp_none.
  - apply Choose_free. econstructor; [exact (table_lookup ARP_SIZ demo_arp 1 ltac:(done))|done|].
    intros j e Hj [H0 ->]%demo_arp_at. by replace j with 0 by lia.
Qed.

(** The same machine while process 0 waits for the hardware address of 10.0.0.9: the
    cache has the entry that arp_resolve made. *)
Definition demo_pending : gmap Z arpentry :=
  <[1 := Arpentry AR_PENDING 167772169 0 (replicate 6 0)]> (table ARP_SIZ demo_arp).
Definition demo_waiting (p : list Z) : kst := with_cache demo_pending (demo_host p).

Lemma demo_pending_table : is_table ARP_SIZ demo_pending.
Proof. apply is_table_insert; [apply is_table_table|done]. Qed.

Lemma demo_pending_distinct : arp_distinct demo_pending.
Proof.
  apply arp_distinct_insert; [exact demo_arp_distinct|]. intros j e _ He. rewrite arp_is_entry. by eapply demo_arp_none.
Qed.

Lemma demo_pending_learn :
  arp_learn demo_pending 167772169 [2; 0; 0; 0; 0; 9]
    (Some (<[1 := Arpentry AR_RESOLVED 167772169 0 [2; 0; 0; 0; 0; 9]]> demo_pending, Some 0)).
Proof.
  apply (Learn_pending demo_pending 167772169 [2; 0; 0; 0; 0; 9] 1 (Arpentry AR_PENDING 167772169 0 (replicate 6 0)));
    [|apply lookup_insert_eq|done].
  econstructor; [apply lookup_insert_eq|done|]. intros j e Hj. unfold demo_pending. rewrite lookup_insert_ne by lia.
  apply demo_arp_none.
Qed.

Lemma demo_waiting_packet p :
  length p = Z.to_nat PACKLEN → Forall byte p → ∃ Q, pkt_state 3 4096 2 Q (demo_waiting p) [] [5616; 7136] 4096 p.
Proof. intros Hl Hb. destruct (demo_host_packet p Hl Hb) as [Q HQ]. exists Q. by apply pkt_state_cache. Qed.

Lemma demo_waiting_tx p : tx_state (demo_waiting p) 4 [].
Proof. eapply (tx_state_frame (demo_host p)); [done|done|apply demo_tx]. Qed.

(** The message for process 0 needs no context switch. *)
Lemma demo_pending_send t h :
  ∃ s2, send 0 OK (with_cache t (set_intr false (set_hp h (demo_waiting demo_request)))) = Done OK s2 ∧
    prhasmsg <$> proctab s2 !! 0 = Some true.
Proof.
  assert (prhasmsg <$> proctab demo_null !! 0 = Some false) as Hm by (calc).
  assert (prstate <$> proctab demo_null !! 0 = Some PR_CURR) as Hst by (calc).
  assert (isbadpid (proctab demo_null) 0 = false) as Hb by (calc).
  destruct (proctab demo_null !! 0) as [pr|] eqn:Hp; [|done]. injection Hm as Hm. injection Hst as Hst.
  pose proof (send_run 0 OK (with_cache t (set_intr false (set_hp h (demo_waiting demo_request)))) pr Hb Hp Hm) as E.
  cbv zeta in E. rewrite E, Hst. eexists. split; [reflexivity|].
  cbn [proctab set_intr set_proctab]. by rewrite lookup_insert_eq.
Qed.

(** ** The machine 10.0.0.3 with one endpoint, for port 9 *)

(** The endpoint's queue, filled from its start. *)
Definition demo_endpoint (ws : list Z) : udpentry :=
  Udpentry UDP_USED 0 0 9 0 (Z.of_nat (length ws)) (Z.of_nat (length ws)) 0 (ws ++ replicate (8 - length ws) 0).
Definition demo_server (p : list Z) (ws : list Z) : kst :=
  net_machine (demo_net demo_network (λ i, if bool_decide (i = 0) then demo_endpoint ws else zero_udp)) p.

Lemma demo_server_packet p ws :
  length p = Z.to_nat PACKLEN → Forall byte p → ∃ Q, pkt_state 3 4096 2 Q (demo_server p ws) [] [5616; 7136] 4096 p.
Proof. intros Hl Hb. by apply machine_packet. Qed.

Lemma demo_server_entry p ws : udptab (net (dev (demo_server p ws))) !! 0 = Some (demo_endpoint ws).
Proof. exact (table_lookup UDP_SLOTS (λ i, if bool_decide (i = 0) then demo_endpoint ws else zero_udp) 0 ltac:(done)). Qed.

Lemma demo_server_match p ws :
  get16 net_udpdport p = 9 → bool_decide (Z.of_nat (length ws) < UDP_QSIZ) = true →
  first_in (udptab (net (dev (demo_server p ws)))) (ud_match p) (Some 0).
Proof.
  intros Hp Hw. econstructor; [apply demo_server_entry| |].
  - apply bool_decide_eq_true. apply bool_decide_eq_true in Hw. split; cbn; auto.
  - intros j e Hj He. pose proof (is_table_bound _ _ _ _ (is_table_table UDP_SLOTS _) He). lia.
Qed.

Lemma demo_endpoint_empty : ud_queue (demo_endpoint []) [].
Proof.
  split; [|done]. split; [done|unfold UDP_QSIZ; cbn; lia|unfold UDP_QSIZ; cbn; lia|done|]. intros i c Hi. discriminate Hi.
Qed.

Lemma demo_endpoint_one : ud_queue (demo_endpoint [4100]) [4100].
Proof. exact (pushed_queue 4100 (demo_endpoint []) [] demo_endpoint_empty ltac:(done)). Qed.

(** Memory behind the pool. *)
Lemma demo_server_buffer p ws n :
  length p = Z.to_nat PACKLEN → Forall byte p → 0 ≤ n ≤ 3000 → user_apart 3 4096 (demo_server p ws) [] 9000 n.
Proof.
  intros Hl Hb Hn. destruct (packet_heap_spec p Hl Hb) as (_ & E1 & E2 & _). split.
  - apply machine_user; try done; lia.
  - intros y [->|[->| ->]]%machine_pool; right; unfold STRIDE; lia.
Qed.
