(* ===== verification/NetThms.v ===== *)
(** The network: what is sent is received, checksums, address resolution, and the
    queues of the endpoints. *)

From S2P Require Import Prelude Types Queue Heap ByteMem Words NetTypes DevTypes Kernel KInv Sched Semaphore Message Device Process UserMem.
From S2P Require Import BufPool Packet NetMem NetFmt Eth Arp NetEth Udp Ip Net NetWire NetIp NetPath NetArp NetIcmp Tty Ring NetUdp NetDemo.

(** C33: A packet that ip_out transmits is the packet that the receiver's network
    process makes of the frame, for a packet of at least 28 bytes (the IP header and
    eight more, the shortest UDP or ICMP packet) and a transmit ring with a free
    descriptor.  The frame is put at the end of the driver's queue
    (filled up to 60 bytes), the buffer is freed, and nothing else changes.  On a
    machine that has the frame in a buffer, followed by any bytes, netin converts
    it back to the packet, but for the checksums, and passes it to the local stack
    when it is addressed to that machine; an ICMP message whose checksum lost a
    carry is discarded. *)
Theorem ip_transmission NB base psem Q s l F x p c fs :
  pkt_state NB base psem Q s l F x p → ip_packet p → 28 ≤ get16 net_iplen p →
  get16 net_ethtype p = ETH_IP → get8 net_ipvh p = 69 →
  tx_state s c fs → 0 < c → osem (ethertab (net (dev s))) ≠ psem → Z.of_nat (length F) < INT_MAX →
  let sent := take (Z.to_nat (get16 net_iplen p + ETH_HDR_LEN)) p in
  ∃ s', ip_out (x + 4) s = Done OK s' ∧ transmitted NB base psem Q s s' l F x (ip_frame p) ∧
    ∀ NB2 base2 psem2 Q2 t l2 F2 y r,
      pkt_state NB2 base2 psem2 Q2 t l2 F2 y (ip_frame p ++ r) →
      ∃ q h f, received t y sent r q f ∧ pkt_state NB2 base2 psem2 Q2 (set_hp h t) l2 F2 y q ∧
        outside y (hp t) h ∧ netin_frame (y + 4) t = f (set_hp h t).
Proof.
  intros Hs Hp H28 Het Hvh Htx Hc Hne Hlen sent. pose proof Hp as [Hl Hb Hn].
  destruct (ip_out_spec NB base psem Q s l F x p c fs Hs Hp Htx Hc Hne Hlen) as (s' & E & Htm).
  exists s'. split; [exact E|]. split; [exact Htm|]. intros NB2 base2 psem2 Q2 t l2 F2 y r Ht.
  destruct (ip_frame_prefix p Hp H28) as [Ha Ef]. fold sent in Ha, Ef. rewrite Ef in Ht.
  pose proof (ix_min _ Ha) as Hmin.
  assert (p = sent ++ drop (Z.to_nat (get16 net_iplen p + ETH_HDR_LEN)) p) as Esp by (symmetry; apply take_drop).
  apply (netin_receives NB2 base2 psem2 Q2 t l2 F2 y sent r Ht Ha).
  - rewrite Esp, get16_app in Het; [exact Het|unfold net_ethtype; lia].
  - rewrite Esp, get8_app in Hvh; [exact Hvh|unfold net_ipvh; lia].
  - rewrite Esp, get16_app in Hn; [lia|unfold net_iplen; lia].
Qed.

Lemma ip_transmission_witness : ∃ s', ip_out 4100 (demo_host demo_packet) = Done OK s'.
Proof.
  destruct (demo_host_packet _ (proj1 demo_packet_ok) (proj2 demo_packet_ok)) as [Q HQ].
  destruct (ip_transmission 3 4096 2 Q (demo_host demo_packet) [] [5616; 7136] 4096 demo_packet 4 []) as (s' & E & _).
  - exact HQ.
  - exact demo_ip_packet.
  - intros H. discriminate H.
  - reflexivity.
  - reflexivity.
  - apply demo_tx.
  - reflexivity.
  - intros H. discriminate H.
  - reflexivity.
  - exists s'. exact E.
Defined.

(** C37: The checksum functions against RFC 1071.  On a packet in a buffer ipcksum and
    icmp_cksum return the folded ones' complement of the sum of the header's, or of the
    message's, 16-bit words in network order, and change nothing.  Both accept every
    packet with a correct checksum.  The carry is folded in once only: the checksum
    they compute is a correct one exactly when that leaves no carry; ipcksum always
    accepts its own checksums, icmp_cksum exactly the correct ones. *)
Theorem checksum_rfc1071 NB base psem Q s l F x p n :
  pkt_state NB base psem Q s l F x p → 0 ≤ n ≤ PACKLEN - 34 →
  let hs := hdr_sum p in let ms := be_sum (slice net_ictype (Z.to_nat n) p) in
  ipcksum (x + 4) s = Done (ip_ck hs) s ∧ icmp_cksum (x + 4 + Z.of_nat net_ictype) n s = Done (icmp_ck ms) s ∧
  (0 < hs → (rfc_sum hs → ip_ck hs = 0) ∧ (rfc_sum (hs + ip_ck hs) ↔ ¬ late_carry hs)) ∧
  (0 < ms → (rfc_sum ms → icmp_ck ms = 0) ∧ (rfc_sum (ms + icmp_ck ms) ↔ ¬ late_carry ms)) ∧
  ip_ck (hs + ip_ck hs) = 0 ∧ (icmp_ck (ms + icmp_ck ms) = 0 ↔ ¬ late_carry ms).
Proof.
  intros Hs Hn hs ms. pose proof (ps_len _ _ _ _ _ _ _ _ _ Hs) as Hl. pose proof (ps_bytes _ _ _ _ _ _ _ _ _ Hs) as Hb.
  assert (∀ o k, (o + k ≤ Z.to_nat PACKLEN)%nat → 0 ≤ be_sum (slice o k p) < 65536 * 65535) as Hbound.
  { intros o k Hk. apply be_sum_slice_bound; [by rewrite Hl|done|unfold PACKLEN in *; lia]. }
  assert (0 ≤ hs < 65536 * 65535) as Hhs by (apply (Hbound net_ipvh 20%nat); by apply Nat.leb_le).
  assert (0 ≤ ms < 65536 * 65535) as Hms by (apply (Hbound net_ictype); unfold net_ictype, PACKLEN in *; lia).
  split; [by eapply ipcksum_done|]. split; [eapply icmp_cksum_done; [exact Hs|unfold net_ictype; lia|lia]|].
  split; [|split; [|split]].
  - intros H0. split; [intros Hr; apply (ck_accepts hs); [lia|done]|apply (ck_correct hs); lia].
  - intros H0. split; [intros Hr; apply (ck_accepts ms); [lia|done]|apply (ck_correct ms); lia].
  - by apply ip_ck_verifies.
  - by apply icmp_ck_verifies.
Qed.

Lemma checksum_rfc1071_witness : ipcksum 4100 (demo_host demo_packet) = Done (ip_ck (hdr_sum demo_packet)) (demo_host demo_packet).
Proof.
  destruct (demo_host_packet _ (proj1 demo_packet_ok) (proj2 demo_packet_ok)) as [Q HQ].
  destruct (checksum_rfc1071 3 4096 2 Q (demo_host demo_packet) [] [5616; 7136] 4096 demo_packet 13 HQ) as [E _].
  - split; intros H; discriminate H.
  - exact E.
Defined.

(** Ip_send of a packet for another machine.  The hardware address is the broadcast
    address for a broadcast, and otherwise what the ARP cache has for the next hop (the
    destination itself on the local network, else the router): the packet is
    transmitted to it, and the interrupt mask is what it was.  Without a router, when a
    request for the address is being waited for, or when the cache is full of such
    requests, the packet is freed and the result is an error; and the call returns
    with interrupts disabled, whatever they were before. *)
Theorem ip_send_call NB base psem Q s l F x p r c fs :
  pkt_state NB base psem Q s l F x p → ip_packet p → is_table ARP_SIZ (arpcache (net (dev s))) →
  is_local (NetData (net (dev s))) (get32 net_ipdst p) = false → route (net (dev s)) (get32 net_ipdst p) r →
  tx_state s c fs → 0 < c → osem (ethertab (net (dev s))) ≠ psem → Z.of_nat (length F) < INT_MAX →
  match r with
  | Some mac => mac_addr mac →
      ∃ s', ip_send (x + 4) s = Done OK s' ∧ intr s' = intr s ∧
        transmitted NB base psem Q s s' l F x (ip_frame (splice net_ethdst mac p))
  | None => ∃ s', ip_send (x + 4) s = Done SYSERR s' ∧ intr s' = false ∧ InvQ Q s' ∧ net_mem NB base psem s' l (x :: F) ∧
      dev s' = dev s ∧ same_but x (hp s) (hp s')
  end.
Proof.
  intros Hs Hp Ht Hloc Hr Htx Hc Hne Hlen.
  pose proof (ip_send_route NB base psem Q s l F x p r c fs Hs Hp Ht Hloc Hr Htx Hc Hne Hlen) as H.
  destruct r as [mac|].
  - intros [Hm Hb]. destruct (H Hm Hb) as (s' & E & Htm). exists s'. split; [exact E|]. split; [|exact Htm].
    by rewrite (tm_rest _ _ _ _ _ _ _ _ _ _ Htm).
  - destruct H as (s' & E & HQ & Hm & Hi & Hsame & Hrest). exists s'. split_and!; try done. by rewrite Hrest.
Qed.

Lemma demo_route : route (net (dev (demo_host demo_packet))) 167772163 (Some [2; 0; 0; 0; 0; 2]).
Proof.
  assert (arpcache (net (dev (demo_host demo_packet))) !! 0 = Some (Arpentry AR_RESOLVED 167772163 0 [2; 0; 0; 0; 0; 2]))
    as E0 by (exact (table_lookup ARP_SIZ demo_arp 0 ltac:(done))).
  apply Route_hop; [reflexivity|intros H; discriminate H|].
  change [2; 0; 0; 0; 0; 2] with (arhaddr (Arpentry AR_RESOLVED 167772163 0 [2; 0; 0; 0; 0; 2])).
  eapply Resolves_entry; [reflexivity| |exact E0|reflexivity].
  econstructor; [exact E0|reflexivity|]. intros j e Hj He.
  pose proof (is_table_bound _ _ _ _ (is_table_table ARP_SIZ demo_arp) He). lia.
Qed.

Lemma ip_send_call_witness : ∃ s', ip_send 4100 (demo_host demo_packet) = Done OK s' ∧ intr s' = true.
Proof.
  destruct (demo_host_packet _ (proj1 demo_packet_ok) (proj2 demo_packet_ok)) as [Q HQ].
  destruct (ip_send_call 3 4096 2 Q (demo_host demo_packet) [] [5616; 7136] 4096 demo_packet
    (Some [2; 0; 0; 0; 0; 2]) 4 []) as (s' & E & Hi & _).
  - exact HQ.
  - exact demo_ip_packet.
  - apply is_table_table.
  - reflexivity.
  - exact demo_route.
  - apply demo_tx.
  - reflexivity.
  - intros H. discriminate H.
  - reflexivity.
  - split; [reflexivity|]. apply bytes_of_list. reflexivity.
  - exists s'. split; [exact E|]. rewrite Hi. reflexivity.
Defined.

(** C34: Arp_in on a request for this machine's hardware address.  The sender's
    addresses are entered in the cache: in its own entry when it has one (an entry for
    which a process waits becomes resolved, and that process is sent OK before the
    answer is made), else in a free entry, else in the place of the first resolved one;
    afterwards the sender's address resolves to the hardware address it gave, and still
    no address has two entries.  A reply is queued for transmission which, converted by
    its receiver, gives this machine's addresses to the sender, the buffer is freed and
    the interrupt mask restored: at once when no process waits or the message causes no
    context switch, and otherwise when this process runs again, with the network and the
    free places of that time.  Apart from that message no process is affected.  When every entry is being waited for the request is
    discarded and its buffer freed. *)
Theorem arp_request_call NB base psem Q s l F x p c fs t :
  let can_answer := can_answer NB base psem in let answered := answered NB base psem in
  pkt_state NB base psem Q s l F x p → is_table ARP_SIZ (arpcache (net (dev s))) → arp_distinct (arpcache (net (dev s))) →
  let q := convs arp_fields p in let nd := NetData (net (dev s)) in
  let pa := get32 arp_sndpa q in let ha := slice arp_sndha 6 q in
  arp_asks nd q → arp_learn (arpcache (net (dev s))) pa ha t →
  tx_state s c fs → 0 < c → osem (ethertab (net (dev s))) ≠ psem → Z.of_nat (length F) < INT_MAX →
  mac_addr (ethucast nd) → uint32 (ipucast nd) →
  match t with
  | Some (t, note) =>
      is_table ARP_SIZ t ∧ arp_distinct t ∧
      (∃ i e, first_in t (entry_for pa) (Some i) ∧ t !! i = Some e ∧ arstate e = AR_RESOLVED ∧ arhaddr e = ha) ∧
      ∃ h, let s1 := with_cache t (set_intr false (set_hp h s)) in
        can_answer Q s1 l F x q c fs ∧ outside x (hp s) h ∧
        match note with
        | None => ∃ s', arp_in (x + 4) s = Done tt s' ∧ answered Q s1 l F x q c fs (intr s) s'
        | Some pid =>
          match send pid OK s1 with
          | Done _ s2 => dev s2 = dev s1 ∧
              ∃ Q' s', arp_in (x + 4) s = Done tt s' ∧ answered Q' s2 l F x q c fs (intr s) s'
          | Switch s2 k => ∃ k', arp_in (x + 4) s = Switch s2 k' ∧
              ∀ s3 a s4 Q4 l4 F4 c4 fs4, k s3 = Done a s4 → can_answer Q4 s4 l4 F4 x q c4 fs4 →
                ∃ s', k' s3 = Done tt s' ∧ answered Q4 s4 l4 F4 x q c4 fs4 (intr s) s'
          | _ => False
          end
        end
  | None => ∃ s', arp_in (x + 4) s = Done tt s' ∧ InvQ Q s' ∧ net_mem NB base psem s' l (x :: F) ∧
      intr s' = intr s ∧ dev s' = dev s
  end.
Proof.
  intros ca an Hs Ht Hd q nd pa ha Hask Hlearn Htx Hc Hne Hlen Hmac Hip.
  pose proof (arp_in_request NB base psem Q s l F x p c fs t Hs Ht) as Hreq. fold q pa ha in Hreq.
  specialize (Hreq ltac:(intros h Hh; split; try done; eapply tx_state_frame; [..|exact Htx]; done) Hlearn). destruct t as [[t note]|]; [|exact Hreq].
  destruct (arp_learn_ok _ _ _ _ _ Ht Hlearn) as (Ht' & Hd' & Hentry). auto.
Qed.

(** The request of a sender with no entry, and of one whose address is waited for. *)
Lemma arp_request_call_witness :
  (∃ s', arp_in 4100 (demo_host demo_request) = Done tt s' ∧
    arpcache (net (dev s')) !! 1 = Some (Arpentry AR_RESOLVED 167772169 0 [2; 0; 0; 0; 0; 9])) ∧
  ∃ s', arp_in 4100 (demo_waiting demo_request) = Done tt s' ∧
    arpcache (net (dev s')) !! 1 = Some (Arpentry AR_RESOLVED 167772169 0 [2; 0; 0; 0; 0; 9]) ∧
    prhasmsg <$> proctab s' !! 0 = Some true.
Proof.
  destruct (demo_host_packet _ (proj1 demo_request_ok) (proj2 demo_request_ok)) as [Q HQ].
  destruct (demo_waiting_packet _ (proj1 demo_request_ok) (proj2 demo_request_ok)) as [Q2 HQ2].
  assert (arp_asks demo_network (convs arp_fields demo_request)) as Hask.
  { split; [reflexivity|reflexivity|intros H; discriminate H|reflexivity|reflexivity]. }
  assert (mac_addr (ethucast demo_network)) as Hmac by (split; [reflexivity|apply bytes_of_list; reflexivity]).
  assert (uint32 (ipucast demo_network)) as Hip by (split; reflexivity || (intros H; discriminate H)).
  split.
  - destruct (arp_request_call 3 4096 2 Q (demo_host demo_request) [] [5616; 7136] 4096 demo_request 4 []
      (Some (<[1 := Arpentry AR_RESOLVED 167772169 0 [2; 0; 0; 0; 0; 9]]> (table ARP_SIZ demo_arp), None))
      HQ (is_table_table _ _) demo_arp_distinct Hask demo_arp_learn (demo_tx _ _ _) eq_refl ltac:(discriminate) eq_refl Hmac Hip)
      as (_ & _ & _ & h & _ & _ & s' & E & Ha).
    exists s'. split; [exact E|]. rewrite (ad_cache _ _ _ _ _ _ _ _ _ _ _ _ _ Ha). apply lookup_insert_eq.
  - destruct (arp_request_call 3 4096 2 Q2 (demo_waiting demo_request) [] [5616; 7136] 4096 demo_request 4 []
      (Some (<[1 := Arpentry AR_RESOLVED 167772169 0 [2; 0; 0; 0; 0; 9]]> demo_pending, Some 0))
      HQ2 demo_pending_table demo_pending_distinct Hask demo_pending_learn
      (demo_waiting_tx _) eq_refl ltac:(discriminate) eq_refl Hmac Hip)
      as (_ & _ & _ & h & _ & _ & Hres).
    destruct (demo_pending_send (<[1 := Arpentry AR_RESOLVED 167772169 0 [2; 0; 0; 0; 0; 9]]> demo_pending) h) as (s2 & Es & Hmsg).
    rewrite Es in Hres. destruct Hres as (Hdev & Q' & s' & E & Ha).
    exists s'. split; [exact E|]. rewrite (ad_cache _ _ _ _ _ _ _ _ _ _ _ _ _ Ha), Hdev.
    split; [apply lookup_insert_eq|]. by rewrite (proj1 (ad_procs _ _ _ _ _ _ _ _ _ _ _ _ _ Ha)).
Defined.

(** C35: Udp_in gives a packet to the first endpoint that takes it: one in use, whose
    local port is the packet's destination port, whose remote port and remote address
    are zero or the packet's source port and source address, and whose queue has room
    ([endpoint_takes]).  The packet is at the end of that queue, and a
    process that waits for it is sent a message.  Without such an endpoint the
    packet's buffer is freed, and no endpoint changes. *)
Theorem udp_in_call NB base psem Q s l F x p r :
  pkt_state NB base psem Q s l F x p → is_table UDP_SLOTS (udptab (net (dev s))) →
  first_in (udptab (net (dev s))) (ud_match p) r → Z.of_nat (length F) < INT_MAX →
  match r with
  | Some i => ∀ e ws, udptab (net (dev s)) !! i = Some e → ud_queue e ws →
      ∃ e', ud_queue e' (ws ++ [x + 4]) ∧ udstate e' = udstate e ∧
        udp_in (x + 4) s =
          (if bool_decide (udstate e = UDP_RECV)
           then (_ ← send (udpid e) OK; restore (intr s)) (with_ud i (set_udstate UDP_USED e') (set_intr false s))
           else Done tt (with_ud i e' s))
  | None => ∃ s', udp_in (x + 4) s = Done tt s' ∧ InvQ Q s' ∧ net_mem NB base psem s' l (x :: F) ∧
      dev s' = dev s ∧ intr s' = intr s ∧ same_but x (hp s) (hp s')
  end.
Proof.
  intros Hs Ht Hr Hlen. destruct r as [i|].
  - intros e ws He Hq. exists (pushed (x + 4) e).
    destruct (udp_in_takes NB base psem Q s l F x p i e ws Hs Ht Hr He Hq) as [Hq' E]. by split_and!.
  - destruct (udp_in_drops NB base psem Q s l F x p Hs Ht Hr Hlen) as (h & b & t & E & HQ & Hm & Hsame & _).
    eexists. split; [exact E|]. by split_and!.
Qed.

Lemma udp_in_call_witness : ∃ e, ud_queue e [4100] ∧
  udp_in 4100 (demo_server demo_packet []) = Done tt (with_ud 0 e (demo_server demo_packet [])).
Proof.
  destruct (demo_server_packet _ [] (proj1 demo_packet_ok) (proj2 demo_packet_ok)) as [Q HQ].
  destruct (udp_in_call 3 4096 2 Q (demo_server demo_packet []) [] [5616; 7136] 4096 demo_packet (Some 0)) with
    (e := demo_endpoint []) (ws := @nil Z) as (e & Hq & _ & E).
  - exact HQ.
  - apply is_table_table.
  - exact (demo_server_match demo_packet [] eq_refl eq_refl).
  - reflexivity.
  - exact (demo_server_entry demo_packet []).
  - exact demo_endpoint_empty.
  - exists e. split; [exact Hq|]. exact E.
Defined.

(** Udp_recv on an endpoint with packets returns at once with the oldest: it copies
    the packet's data, at most as many bytes as the caller has room for, to the
    caller's buffer, returns their number, takes the packet out of the queue and frees
    its buffer; no other memory changes.  A number that is not that of an endpoint in
    use, or that of one that a process waits on, is an error, and nothing changes. *)
Theorem udp_recv_call NB base psem Q s l F slot buff len timeout :
  is_table UDP_SLOTS (udptab (net (dev s))) → Z.of_nat (length F) < INT_MAX → 0 ≤ len →
  ((∀ e, udptab (net (dev s)) !! slot = Some e → udstate e ≠ UDP_USED) →
    udp_recv slot buff len timeout s = Done SYSERR s) ∧
  (∀ e x p ws, pkt_state NB base psem Q s l F x p → udptab (net (dev s)) !! slot = Some e → udstate e = UDP_USED →
    ud_queue e ((x + 4) :: ws) → UDP_HDR_LEN ≤ get16 net_udplen p ≤ PACKLEN - 34 →
    let data := udp_data len p in
    user_apart NB base s l buff (Z.of_nat (length data)) →
    ∃ s' e', udp_recv slot buff len timeout s = Done (Z.of_nat (length data)) s' ∧
      InvQ Q s' ∧ net_mem NB base psem s' l (x :: F) ∧ dev s' = dev (with_ud slot e' s) ∧ ud_queue e' ws ∧
      bytes_in (hp s') buff data ∧
      (∀ i, ¬ x ≤ i < x + STRIDE → ¬ buff ≤ i < buff + Z.of_nat (length data) → ldb i (hp s') = ldb i (hp s))).
Proof.
  intros Ht Hlen H0. split; [by apply udp_recv_refuses|]. intros e x p ws Hs He Hu Hq Hn data Hap.
  destruct (udp_recv_queued NB base psem Q s l F x p slot e ws buff len timeout Hs Ht Hlen He Hu Hq H0 Hn Hap)
    as (h & b & t & E & HQ & Hm & Hq' & Hin & _ & Hfr).
  eexists _, (popped e). split; [exact E|]. by split_and!.
Qed.

Lemma udp_recv_call_witness : ∃ s', udp_recv 0 9000 100 1000 (demo_server demo_packet [4100]) = Done 5 s' ∧
  bytes_in (hp s') 9000 hello.
Proof.
  destruct (demo_server_packet _ [4100] (proj1 demo_packet_ok) (proj2 demo_packet_ok)) as [Q HQ].
  destruct (udp_recv_call 3 4096 2 Q (demo_server demo_packet [4100]) [] [5616; 7136] 0 9000 100 1000) as [_ H].
  - apply is_table_table.
  - reflexivity.
  - intros H. discriminate H.
  - destruct (H (demo_endpoint [4100]) 4096 demo_packet [] HQ (demo_server_entry demo_packet [4100]) eq_refl demo_endpoint_one)
      as (s' & e' & E & _ & _ & _ & _ & Hin & _).
    + split; intros H'; discriminate H'.
    + exact (demo_server_buffer demo_packet [4100] 5 (proj1 demo_packet_ok) (proj2 demo_packet_ok) ltac:(done)).
    + exists s'. split; [exact E|exact Hin].
Defined.

(** C36: The queue of an ICMP endpoint is read past its end.  Its head is wrapped around
    at ICMP_SLOTS (10), not at the queue's length of ICMP_QSIZ (8): from an entry with
    the head at the start, eight packets come out in order; the head is then behind the
    last place, and the next icmp_recv that finds a packet reads behind the array. *)
Theorem icmp_queue_overrun i e s :
  icmptab (net (dev s)) !! i = Some e → 0 ≤ i < ICMP_SLOTS → Z.of_nat (length (icqueue e)) = ICMP_QSIZ → ichead e = 0 →
  let s8 := with_ic i (set_ichead ICMP_QSIZ e) s in
  icmp_heads (Z.to_nat ICMP_QSIZ) i s = Done (icqueue e) s8 ∧ icmp_head i s8 = Fault ∧
  (icstate e = ICMP_USED → iccount e ≠ 0 → ∀ buff len timeout, icmp_recv i buff len timeout s8 = Fault).
Proof.
  intros He Hi Hl Hh s8. pose proof (with_ic_at i (set_ichead ICMP_QSIZ e) s : icmptab (net (dev s8)) !! i = _) as H8.
  assert (Z.of_nat (length (icqueue (set_ichead ICMP_QSIZ e))) = ICMP_QSIZ) as Hl8 by done.
  split; [|split].
  - rewrite (icmp_heads_spec i _ e s He Hl) by (rewrite Hh; done). rewrite Hh. f_equal.
    change (Z.to_nat 0) with 0%nat. unfold slice. rewrite drop_0. apply take_ge. lia.
  - rewrite (icmp_head_spec i _ s8 H8 Hl8) by (cbn; done).
    cbn [icqueue ichead set_ichead]. by rewrite (lookup_ge_None_2 (icqueue e)) by (unfold ICMP_QSIZ in *; lia).
  - intros Hu Hc buff len timeout. by apply (icmp_recv_faults i _ s8 buff len timeout H8).
Qed.

Lemma icmp_queue_overrun_witness :
  icmp_heads 8 3 (demo_host demo_packet) =
    Done (replicate 8 0) (with_ic 3 (set_ichead 8 zero_icmp) (demo_host demo_packet)).
Proof.
  destruct (icmp_queue_overrun 3 zero_icmp (demo_host demo_packet)) as [E _].
  - exact (table_lookup ICMP_SLOTS (λ _, zero_icmp) 3 ltac:(done)).
  - split; [intros H; discriminate H|reflexivity].
  - reflexivity.
  - reflexivity.
  - exact E.
Defined.
